(* ===== verification/_CoqProject ===== *)
-Q . S2P
Prelude.v
Buffers.v
Vpool.v
Context.v
Crypto.v
Hkdf.v
Curve.v
Ratchet.v
SessionState.v
LocalStorage.v
SessionSerial.v
Protocol.v
RatchetSession.v
SessionRecord.v
Receive.v
SessionPreKey.v
Store.v
SessionBuilder.v
SessionCipher.v
Conversation.v
Storable.v
SessionApi.v
FirstContact.v
Network.v
KeyHelper.v
SenderKey.v
SenderKeyRecord.v
GroupMessages.v
Group.v
GroupConversation.v
GroupApi.v
KeyList.v
Fingerprint.v
DeviceConsistency.v
Wire.v
GroupWire.v
Limbs.v
Scalar.v
ScalarFacts.v
Donna.v
DonnaField.v
DonnaLadder.v
DonnaBytes.v
Fe.v
FeField.v
FeBytes.v
Ge.v
GeTables.v
GeScalar.v
Sha512.v
Sha512Facts.v
Xeddsa.v
Primes.v
Edwards.v
Field25519.v
GeFacts.v
GeTableFacts.v
GeScalarFacts.v
EncodeFacts.v
GroupOrder.v
XeddsaFacts.v
ElligatorFacts.v
MontgomeryLadder.v
Generalized.v
GeneralizedBuffers.v
GeneralizedFacts.v
CurveInstance.v
SignatureGuarantees.v
Protobuf.v
ProtobufDescriptor.v
ProtobufPack.v
ProtobufUnpack.v
ProtobufSafety.v
ProtobufTables.v
ProtobufMirror.v
ProtobufGuarantees.v
Guarantees.v
GroupGuarantees.v
Witnesses.v
GroupWitnesses.v
