(* ===== verification/Prelude.v ===== *)
(** * The Signal messaging core of rn-signal-protocol-messaging

    The React Native module wraps the C library libsignal-protocol-c (under
    src/ios/.../libsignal-protocol-c).  The library keeps, for every contact, a
    session record in a store of the application, sets sessions up from published
    pre-key bundles (X3DH), and encrypts and decrypts with the double ratchet; it
    has sender keys for groups, fingerprints and device consistency codes to
    compare identity keys, and it stores and sends everything through protobuf-c
    and code generated from .proto files.  This development models that C code
    and proves what it promises.

    ** Files and sources

    Ground:
    - [Prelude] (this file): bytes and machine integers, the result and state
      monads of C functions, bounded lists, generic lemmas and automation.
    - [Buffers], [Vpool]: signal_buffer and signal_constant_memcmp of
      signal_protocol.c; the byte pool of vpool.c, as a list of bytes and, in its
      Module [Placed], inside an allocation.
    - [Context]: reference counts, lists, contexts and strings of
      signal_protocol.c.
    - [Crypto]: the interfaces of the crypto provider (signal_protocol.h) and of
      the curve25519 directory, their laws, and a concrete toy instance.

    Keys and ratchets:
    - [Hkdf] (hkdf.c), [Curve] and [KeyList] (curve.c), [Ratchet] and
      [RatchetSession] (ratchet.c).

    Sessions:
    - [SessionState], [SessionSerial] (session_state.c), [SessionRecord]
      (session_record.c), [Protocol] (protocol.c), [SessionPreKey]
      (session_pre_key.c), [Store] (the store wrappers of signal_protocol.c),
      [SessionBuilder] (session_builder.c), [Receive] and [SessionCipher]
      (session_cipher.c), [KeyHelper] (key_helper.c).
    - [Conversation], [Storable], [SessionApi], [FirstContact], [Network]: no new
      code; the lemmas on two ratchets kept in step, on what can be stored, on the
      calls as their callers see them, on the first message, and on the messages
      on their way between two parties, in any order.

    Groups:
    - [SenderKey] (sender_key.c, sender_key_state.c), [SenderKeyRecord]
      (sender_key_state.c, sender_key_record.c), [GroupMessages] (protocol.c),
      [Group] (group_session_builder.c, group_cipher.c, signal_protocol.c);
      [GroupConversation] and [GroupApi] hold the lemmas.

    Comparing identities:
    - [Fingerprint] (fingerprint.c), [DeviceConsistency] (device_consistency.c).

    Bytes on the wire and in the store:
    - [LocalStorage] (the structs of the generated headers) with the interface
      [Codec]; [Wire] and [GroupWire], a codec that satisfies its laws.
    - [Protobuf] (protobuf-c.c), [ProtobufTables] (the generated *.pb-c.c);
      [ProtobufDescriptor], [ProtobufPack], [ProtobufUnpack],
      [ProtobufSafety], [ProtobufMirror] hold the lemmas.

    Key agreement (curve25519/curve25519-donna.c):
    - [Donna], every function on limbs; [DonnaField] (bounds and values of the
      field operations), [DonnaLadder] (the X25519 function of RFC 7748, the ladder
      and the inversion) and [DonnaBytes] (the conversions and the whole) hold the
      lemmas.

    Signatures (curve25519/ed25519/):
    - [Limbs]: lists of limbs, and chains of carries run as data.
    - [Scalar] (sc_*.c) with [ScalarFacts]; [Fe] (fe_*.c, pow225521.h, pow22523.h,
      additions/fe_*.c, compare.c) with [FeField] and [FeBytes]; [Sha512]
      (nacl_sha512/) with [Sha512Facts].
    - [Ge] (ge_*.c, ge_*.h, additions/ge_*.c), [GeTables] (base.h, base2.h),
      [GeScalar] (the scalar multiplications).
    - [Xeddsa] (sign.c, open.c, additions/sign_modified.c, open_modified.c,
      curve_sigs.c, xeddsa.c, keygen.c, elligator.c), [Generalized]
      (additions/generalized/).

    The mathematics they are proved against:
    - [Primes]: modular powers by Bignums and Pocklington's criterion;
      the prime of the field and the order of the base point are prime.
    - [Edwards]: complete twisted Edwards curves over any field, an abelian group,
      and the projective formulas; [Field25519], the field and the curve of
      Ed25519.
    - [GeFacts], [GeTableFacts], [GeScalarFacts]: what the code on points
      computes; [EncodeFacts] (powers, square roots, encoding, decoding, the map to
      Curve25519), [GroupOrder] (every point has an order that divides eight times
      the order of the base point), [ElligatorFacts].
    - [MontgomeryLadder]: the ladder multiplies points, of the curve and of its
      twist.
    - [XeddsaFacts], [GeneralizedBuffers], [GeneralizedFacts]: signatures verify.
    - [CurveInstance]: the code satisfies the laws that [Crypto] asks for.

    Statements: [Guarantees], [GroupGuarantees], [ProtobufGuarantees] and
    [SignatureGuarantees]; the first two are evaluated on concrete parties in
    [Witnesses] and [GroupWitnesses].

    ** How the code is modelled

    A C struct is a record with the fields of the code, a pointer that the code
    tests or asserts an option, an intrusive list or an array a list.  Integers
    are [Z] with the reductions [u32], [u64], [i32] and [u8] where the code
    computes or casts.  A function that returns an int code is a [result]: [Ok],
    [Err] with the code, or [Stuck] for a call that does not return normally (a
    failed assert, a null, dangling or uninitialised pointer, an access outside a
    buffer, a loop that never ends).  A function that mutates objects is in the
    state monad [M], which keeps the mutations made before an error return.

    ** Parameters

    The code calls functions that the repository does not define, or that are
    primitives of cryptography.  They are the fields of type classes, and the
    theorems that need it assume the laws next to them: [CryptoProvider] and
    [Sha512Provider] (the application's callbacks), [Curve25519] and [Xveddsa]
    (curve25519/), [SignalStore] and [SenderKeyStore] (the application's stores),
    [Codec] (the packing functions).  Every class has an instance that satisfies
    the laws: [Toy] in [Crypto], the stores in memory of [Store] and [Group], the
    codecs of [Wire] and [GroupWire].  The stores have two sets of laws: under
    [SignalStoreLaws] and [SenderKeyStoreLaws] every callback succeeds, which is
    what theorems about a successful call need; under [FallibleStoreLaws] and
    [FallibleSenderKeyStoreLaws] any callback may fail, having changed nothing,
    which is what the theorems about failed calls assume.  For two of them the code is in the
    repository and discharges the laws.  [Codec]: [ProtobufGuarantees] shows that
    the generated code writes the bytes of the wire codec and reads them back, for
    messages of up to [2 ^ 27 - 16] bytes.  [Curve25519] and [Xveddsa]:
    [CurveInstance] has the instances made of curve25519-donna, curve_sigs.c and
    gen_x.c with proofs of [Curve25519Laws], [Curve25519SignatureLaws] and
    [XveddsaLaws], so nothing is assumed of curves.  Memory that the code
    allocates and does not write is a parameter too ([fresh] in [Generalized]).

    ** What is proved

    - Sessions: a first contact between two parties without a session succeeds.
      Then, whatever both send and in whatever order messages arrive (late, out of
      order, crossing, lost or repeated), a message in the receiver's window is
      decrypted, exactly once, through the stores as well as on the states.  The
      window is what the code bounds: the last five receiver chains, 2000 skipped
      keys on each; 32-bit counters; and generated ratchet keys are to be new.
      Messages too far ahead, bundles without a valid signature and changed
      identities are refused.  A failed call leaves the stored sessions and
      pre-keys as they were, even when a store callback is what fails, with one
      exception that the code has: when the removal of a used one-time pre-key
      fails, the session is already stored.  The identity of a sender may be saved
      by a call that fails later.  Every reachable state is well formed and
      survives being stored.
    - Groups: a member decrypts the messages of a sender in any order, each once
      (up to 2000 links ahead, with at most 2000 skipped keys outstanding) and only
      with the sender's signature; failed calls leave the store, failing store
      callbacks included.
    - Identities: both parties see the same fingerprint and a substituted key is
      detected; the devices of a user compute the same code.
    - Protobuf: unpacking is memory safe, total and well typed on every input,
      inverts packing, and the sizes are exact.
    - Key agreement: the limb arithmetic of curve25519-donna never leaves its
      bounds, its bytes are canonical, it computes X25519, and that is scalar
      multiplication on the curve or on its twist, so both parties of an exchange
      get the same secret for every base point.
    - Signatures: SHA-512 is that of FIPS 180-4; the scalar, field and point
      arithmetic is exact, tables and recodings included; encodings decode, and
      bytes that are no point are refused; open.c accepts exactly the messages that
      satisfy the equation of Ed25519; what each of the four signature schemes
      signs, it verifies, and the verifiable random function has one output for a
      key, a label and a message.
    - Defects: a loop that never ends, a discarded error code, a use after free, a
      null dereference and a message lost to a failed removal of a pre-key, each as
      a theorem about the code as it is.

    ** Fuel

    Loops of the code that are not structural have fuel, and running out of it is
    [Stuck] or excluded: 256 for the expansion of HKDF, the number of values of
    its 8-bit counter; 2001 for the skipping loops of the session and group
    ciphers, which a guard bounds by 2000; the number of ranges for the search of
    a field number and the length of the input for the scan of a message, since
    every turn shortens what is left ([int_range_lookup_spec], [scan_loop_safe]);
    5 for the last loop of uint64_pack ([hi_loop_spec]).  The loops of the curve
    code run a fixed number of times and are structural.

    ** Not modelled

    Allocation failure and freeing (except where the code uses a freed or
    uninitialised object, and the counts of [Context]; the release of a partly
    parsed message after a parse error of protobuf-c is not modelled either),
    clearing of secrets, and the texts of log messages: they have no effect that
    the results show.  The
    objects of the other files are values, so their references are not counted.
    The crypto provider of Setup/ only calls a platform library.  The branches of
    protobuf-c for labels, types and flags that no table of the library uses are
    unreachable from it.  uthash.h and utlist.h are macros for the list operations
    they stand for.  That forging a signature is hard is a matter of computational
    assumptions, which are not stated.  The Java, Swift and JavaScript code is glue
    around the C library. *)

From stdpp Require Export base sets list list_numbers option numbers gmap.
From Stdlib Require Export ZArith Lia.
From Stdlib Require Strings.Byte.

Open Scope Z_scope.
Set Default Proof Using "Type".

(* ------------------------------------------------------------------ *)
(** ** Bytes and machine integers *)

Abbreviation byte := Corelib.Init.Byte.byte.
Abbreviation bytes := (list byte).
Abbreviation x00 := Corelib.Init.Byte.x00.

#[global] Instance byte_eq_dec : EqDecision byte := Byte.byte_eq_dec.
#[global] Instance byte_inhabited : Inhabited byte := populate x00.

(** The value of a [uint8_t]. *)
Definition byte_val (b : byte) : Z := Z.of_N (Byte.to_N b).

(** Conversion of an integer to [uint8_t]: reduction modulo 256. *)
Definition u8 (z : Z) : byte :=
  match Byte.of_N (Z.to_N (z mod 256)) with Some b => b | None => x00 end.

(** Conversions to [uint32_t] and [uint64_t]. *)
Definition u32 (z : Z) : Z := z mod 2 ^ 32.
Definition u64 (z : Z) : Z := z mod 2 ^ 64.

(** Conversion to [int32_t]. *)
Definition i32 (z : Z) : Z := (z + 2 ^ 31) mod 2 ^ 32 - 2 ^ 31.

Definition is_u32 (z : Z) : Prop := 0 <= z < 2 ^ 32.

#[global] Instance is_u32_dec z : Decision (is_u32 z).
Proof. unfold is_u32. apply _. Defined.

Lemma byte_val_range b : 0 <= byte_val b < 256.
Proof.
  unfold byte_val. pose proof (Byte.to_N_bounded b). lia.
Qed.

Lemma byte_val_inj a b : byte_val a = byte_val b -> a = b.
Proof.
  unfold byte_val. intros H%N2Z.inj.
  pose proof (Byte.of_to_N a) as Ha. pose proof (Byte.of_to_N b) as Hb.
  rewrite H in Ha. congruence.
Qed.

Lemma byte_val_u8 z : byte_val (u8 z) = z mod 256.
Proof.
  unfold u8, byte_val. pose proof (Z.mod_pos_bound z 256 ltac:(lia)) as Hz.
  destruct (Byte.of_N (Z.to_N (z mod 256))) eqn:E.
  - apply Byte.to_of_N in E. rewrite E. lia.
  - apply Byte.of_N_None_iff in E. lia.
Qed.

Lemma u8_byte_val b : u8 (byte_val b) = b.
Proof.
  apply byte_val_inj. rewrite byte_val_u8, Z.mod_small; [done|].
  apply byte_val_range.
Qed.

Lemma u32_id z : is_u32 z -> u32 z = z.
Proof. apply Z.mod_small. Qed.

Lemma u32_range z : is_u32 (u32 z).
Proof. unfold is_u32, u32. apply Z.mod_pos_bound. lia. Qed.

(** [uint32_t -> int32_t -> uint32_t] is the identity on 32-bit values. *)
Lemma u32_i32 z : is_u32 z -> u32 (i32 z) = z.
Proof.
  unfold is_u32, u32, i32. intros Hz.
  rewrite Zminus_mod_idemp_l, Z.add_simpl_r. by apply Z.mod_small.
Qed.

(** Bits put side by side. *)
Lemma testbit_above a k i : 0 <= a < 2 ^ k -> k <= i -> Z.testbit a i = false.
Proof.
  intros Ha Hi. destruct (Z.le_gt_cases 0 k) as [Hk|Hk].
  - rewrite <- (Z.mod_small a (2 ^ k)) by done. apply Z.mod_pow2_bits_high. lia.
  - rewrite Z.pow_neg_r in Ha by lia. lia.
Qed.

Lemma lor_shiftl a b k : 0 <= k -> 0 <= a < 2 ^ k -> Z.lor a (Z.shiftl b k) = a + b * 2 ^ k.
Proof.
  intros Hk Ha. rewrite <- Z.shiftl_mul_pow2 by done.
  assert (Z.land a (Z.shiftl b k) = 0) as Hd.
  { apply Z.bits_inj'. intros i Hi. rewrite Z.land_spec, Z.bits_0, Z.shiftl_spec by done.
    destruct (Z.lt_ge_cases i k); [rewrite (Z.testbit_neg_r b) by lia; apply andb_false_r|].
    by rewrite (testbit_above a k). }
  by rewrite Z.add_nocarry_lxor, Z.lxor_lor.
Qed.

Create HintDb sigdb.
Create Rewrite HintDb sigdb.
#[export] Hint Resolve u32_range u32_id u32_i32 byte_val_range : sigdb.
#[export] Hint Rewrite byte_val_u8 u8_byte_val : sigdb.

(* ------------------------------------------------------------------ *)
(** ** Results of C functions

    An [int]-returning function of the library answers a non-negative number
    on success and a negative error code otherwise.  [Stuck] is the outcome
    of a call that does not return normally: a failed [assert], a use of a
    null, dangling or uninitialised pointer, or a loop that never ends. *)

Inductive result (A : Type) : Type :=
| Ok (a : A)
| Err (e : Z)
| Stuck.
Arguments Ok {A} _.
Arguments Err {A} _.
Arguments Stuck {A}.

#[global] Instance result_eq_dec {A} `{EqDecision A} : EqDecision (result A).
Proof. solve_decision. Defined.

#[global] Instance Ok_inj {A} : Inj (=) (=) (@Ok A).
Proof. by intros a b [= ->]. Qed.

Definition SG_SUCCESS := 0.
Definition SG_ERR_NOMEM := -12.
Definition SG_ERR_INVAL := -22.
Definition SG_ERR_UNKNOWN := -1000.
Definition SG_ERR_DUPLICATE_MESSAGE := -1001.
Definition SG_ERR_INVALID_KEY := -1002.
Definition SG_ERR_INVALID_KEY_ID := -1003.
Definition SG_ERR_INVALID_MAC := -1004.
Definition SG_ERR_INVALID_MESSAGE := -1005.
Definition SG_ERR_INVALID_VERSION := -1006.
Definition SG_ERR_LEGACY_MESSAGE := -1007.
Definition SG_ERR_NO_SESSION := -1008.
Definition SG_ERR_STALE_KEY_EXCHANGE := -1009.
Definition SG_ERR_UNTRUSTED_IDENTITY := -1010.
Definition SG_ERR_INVALID_PROTO_BUF := -1100.

Definition rbind {A B} (r : result A) (k : A -> result B) : result B :=
  match r with Ok a => k a | Err e => Err e | Stuck => Stuck end.

Definition rmap {A B} (f : A -> B) (r : result A) : result B :=
  rbind r (fun a => Ok (f a)).

(** A null pointer used where an object is required. *)
Definition deref {A} (p : option A) : result A :=
  match p with Some a => Ok a | None => Stuck end.

(** [if(!p) { result = e; goto complete; }] *)
Definition require {A} (e : Z) (p : option A) : result A :=
  match p with Some a => Ok a | None => Err e end.

(** [if(!c) { result = e; goto complete; }] *)
Definition ensure (e : Z) (c : bool) : result unit :=
  if c then Ok tt else Err e.

(* ------------------------------------------------------------------ *)
(** ** Stateful C functions

    A function that mutates an object of type [S].  The mutations made before
    an error return are kept, as they are in the C code. *)

Definition M (S A : Type) : Type := S -> result A * S.

Definition ret {S A} (a : A) : M S A := fun s => (Ok a, s).
Definition fail {S A} (e : Z) : M S A := fun s => (Err e, s).
Definition stuck {S A} : M S A := fun s => (Stuck, s).
Definition bind {S A B} (m : M S A) (k : A -> M S B) : M S B := fun s =>
  match m s with
  | (Ok a, s') => k a s'
  | (Err e, s') => (Err e, s')
  | (Stuck, s') => (Stuck, s')
  end.
Definition lift {S A} (r : result A) : M S A := fun s => (r, s).
Definition get {S} : M S S := fun s => (Ok s, s).
Definition modify {S} (f : S -> S) : M S unit := fun s => (Ok tt, f s).

(** Running an operation of one component inside a larger state. *)
Definition zoom {S T A} (pr : T -> S) (up : S -> T -> T) (m : M S A) : M T A :=
  fun t => let '(r, s) := m (pr t) in (r, up s t).

Definition on_fst {S T A} (m : M S A) : M (S * T) A :=
  zoom fst (fun s t => (s, t.2)) m.
Definition on_snd {S T A} (m : M T A) : M (S * T) A :=
  zoom snd (fun s t => (t.1, s)) m.

(** A function that also mutates a local object [t]: the caller sees its final
    value next to the result. *)
Definition local {S T A} (m : M (S * T) A) (t : T) : M S (A * T) :=
  fun s => let '(r, (s', t')) := m (s, t) in (rmap (fun a => (a, t')) r, s').

Declare Scope sig_scope.
Delimit Scope sig_scope with sig.
Notation "'let?' x ':=' r 'in' k" := (rbind r (fun x => k))
  (at level 10, x name, r at level 100, k at level 200) : sig_scope.
Notation "'let?' ' p ':=' r 'in' k" := (rbind r (fun p => k))
  (at level 10, p strict pattern, r at level 100, k at level 200) : sig_scope.
Notation "'do' x <- m ; k" := (bind m (fun x => k))
  (at level 10, x name, m at level 100, k at level 200) : sig_scope.
Notation "'do' ' p <- m ; k" := (bind m (fun p => k))
  (at level 10, p strict pattern, m at level 100, k at level 200) : sig_scope.
Notation "'exec' m ; k" := (bind m (fun _ => k))
  (at level 10, m at level 100, k at level 200) : sig_scope.
Open Scope sig_scope.

Lemma rbind_ok {A B} (r : result A) (k : A -> result B) b :
  rbind r k = Ok b <-> exists a, r = Ok a /\ k a = Ok b.
Proof. destruct r; naive_solver. Qed.

Lemma rbind_not_stuck {A B} (r : result A) (k : A -> result B) :
  r <> Stuck -> (forall a, r = Ok a -> k a <> Stuck) -> rbind r k <> Stuck.
Proof. destruct r; naive_solver. Qed.

Lemma rbind_assoc {A B C} (r : result A) (f : A -> result B) (g : B -> result C) :
  rbind (rbind r f) g = rbind r (fun a => rbind (f a) g).
Proof. by destruct r. Qed.

Lemma bind_ok {S A B} (m : M S A) (k : A -> M S B) s b s'' :
  bind m k s = (Ok b, s'') <-> exists a s', m s = (Ok a, s') /\ k a s' = (Ok b, s'').
Proof. unfold bind. destruct (m s) as [[] s'] eqn:E; naive_solver. Qed.

Lemma bind_run {S A B} (m : M S A) (k : A -> M S B) s a s' :
  m s = (Ok a, s') -> bind m k s = k a s'.
Proof. unfold bind. by intros ->. Qed.

Lemma bind_run_err {S A B} (m : M S A) (k : A -> M S B) s e s' :
  m s = (Err e, s') -> bind m k s = (Err e, s').
Proof. unfold bind. by intros ->. Qed.

Lemma lift_ok {S A} (r : result A) (s : S) a s' :
  lift r s = (Ok a, s') <-> r = Ok a /\ s = s'.
Proof. unfold lift. naive_solver. Qed.

(** [preserves I m]: whatever the outcome of [m] (success, error or stuck),
    the state it leaves satisfies [I] when the initial one does. *)
Definition preserves {S A} (I : S -> Prop) (m : M S A) : Prop :=
  forall s, I s -> I (m s).2.

Lemma preserves_ret {S A} (I : S -> Prop) (a : A) : preserves I (ret a).
Proof. by intros s. Qed.
Lemma preserves_fail {S A} (I : S -> Prop) e : preserves I (@fail S A e).
Proof. by intros s. Qed.
Lemma preserves_lift {S A} (I : S -> Prop) (r : result A) : preserves I (lift r).
Proof. by intros s. Qed.
Lemma preserves_get {S} (I : S -> Prop) : preserves I (@get S).
Proof. by intros s. Qed.
Lemma preserves_modify {S} (I : S -> Prop) f :
  (forall s, I s -> I (f s)) -> preserves I (modify f).
Proof. intros H s. apply H. Qed.
Lemma preserves_bind {S A B} (I : S -> Prop) (m : M S A) (k : A -> M S B) :
  preserves I m -> (forall a, preserves I (k a)) -> preserves I (bind m k).
Proof.
  intros Hm Hk s Hs. specialize (Hm s Hs). unfold bind.
  destruct (m s) as [[a|e|] s']; simpl in *; [by apply Hk|done|done].
Qed.

#[export] Hint Resolve preserves_ret preserves_fail preserves_lift preserves_get
  preserves_modify preserves_bind : sigdb.

(** [m] does not change what [obs] sees of the state; [m] does not change it
    unless it succeeds. *)
Section keeps.
Context {S B : Type} (obs : S -> B).

Definition keeps {A} (m : M S A) : Prop := forall s, obs (m s).2 = obs s.
Definition keeps_on_failure {A} (m : M S A) : Prop :=
  forall s, (forall a, (m s).1 <> Ok a) -> obs (m s).2 = obs s.

Lemma keeps_failure {A} (m : M S A) : keeps m -> keeps_on_failure m.
Proof. intros H s _. apply H. Qed.
Lemma keeps_ret {A} (a : A) : keeps (ret a).
Proof. by intros s. Qed.
Lemma keeps_fail {A} e : keeps (@fail S A e).
Proof. by intros s. Qed.
Lemma keeps_lift {A} (r : result A) : keeps (lift r).
Proof. by intros s. Qed.

Lemma keeps_bind {A C} (m : M S A) (k : A -> M S C) :
  keeps m -> (forall a, keeps (k a)) -> keeps (bind m k).
Proof.
  intros Hm Hk s. unfold bind. specialize (Hm s). destruct (m s) as [[a| |] s']; cbn [snd] in *; [|done..].
  by rewrite (Hk a s').
Qed.

Lemma keeps_bind_failure {A C} (m : M S A) (k : A -> M S C) :
  keeps m -> (forall a, keeps_on_failure (k a)) -> keeps_on_failure (bind m k).
Proof.
  intros Hm Hk s. unfold bind. specialize (Hm s). destruct (m s) as [[a| |] s']; cbn [fst snd] in *; [|done..].
  intros Hf. by rewrite (Hk a s' Hf).
Qed.

Lemma keeps_get_failure {A} (k : S -> M S A) :
  (forall s, keeps_on_failure (k s)) -> keeps_on_failure (bind get k).
Proof. intros Hk. apply keeps_bind_failure; [by intros s|done]. Qed.

(** A failed run: it failed in the first part, or in what follows. *)
Lemma keeps_bind_inv {A C} (m : M S A) (k : A -> M S C) s r s' :
  keeps m -> bind m k s = (r, s') -> (forall c, r <> Ok c) ->
  obs s' = obs s \/ exists a s1, obs s1 = obs s /\ m s = (Ok a, s1) /\ k a s1 = (r, s').
Proof.
  intros Hm. specialize (Hm s). unfold bind. destruct (m s) as [[a|e|] s1]; cbn [snd] in Hm.
  - intros H _. right. by exists a, s1.
  - intros [= <- <-] _. by left.
  - intros [= <- <-] _. by left.
Qed.

(** A last step whose effect is undone by no later failure. *)
Lemma keeps_then_total {A C} (m : M S A) (k : A -> M S C) :
  keeps_on_failure m -> (forall a s, exists c, (k a s).1 = Ok c) -> keeps_on_failure (bind m k).
Proof.
  intros Hm Hk s. specialize (Hm s). unfold bind. destruct (m s) as [[a| |] s']; cbn [fst snd] in *.
  - intros Hf. destruct (Hk a s') as [c Hc]. by apply Hf in Hc.
  - intros _. by apply Hm.
  - intros _. by apply Hm.
Qed.

End keeps.

#[export] Hint Resolve keeps_ret keeps_fail keeps_lift keeps_failure : sigdb.

(** Case analysis of a successful run, step by step. *)
Ltac inv_ok :=
  repeat match goal with
  | H : rbind _ _ = Ok _ |- _ =>
      let a := fresh "a" in let H1 := fresh "Hr" in
      apply rbind_ok in H; destruct H as (a & H1 & H)
  | H : bind _ _ _ = (Ok _, _) |- _ =>
      let a := fresh "a" in let s := fresh "s" in let H1 := fresh "Hm" in
      apply bind_ok in H; destruct H as (a & s & H1 & H)
  | H : lift _ _ = (Ok _, _) |- _ =>
      let H1 := fresh "Hr" in apply lift_ok in H; destruct H as [H1 ?]; subst
  | H : ret _ _ = (Ok _, _) |- _ => unfold ret in H
  | H : modify _ _ = (Ok _, _) |- _ => unfold modify in H
  | H : get _ = (Ok _, _) |- _ => unfold get in H
  | H : fail _ _ = (Ok _, _) |- _ => discriminate H
  | H : Ok _ = Ok _ |- _ => injection H as H; subst
  | H : (Ok _, _) = (Ok _, _) |- _ => injection H; clear H; intros; subst
  | H : Err _ = Ok _ |- _ => discriminate H
  | H : Stuck = Ok _ |- _ => discriminate H
  end.

(* ------------------------------------------------------------------ *)
(** ** Lists shared by the components *)

(** Reading [n] bytes at offset [off] ([memcpy] from [p + off]). *)
Definition slice (off n : nat) (l : bytes) : bytes := take n (drop off l).

Lemma length_slice off n (l : bytes) :
  (off + n <= length l)%nat -> length (slice off n l) = n.
Proof. unfold slice. rewrite length_take, length_drop. lia. Qed.

(** The loop [while(count > max) { DL_DELETE(head, head); --count; }] that
    bounds a [utlist] queue, [count] being the length of the list. *)
Fixpoint trim_front {A} (max count : nat) (l : list A) : list A :=
  match count with
  | O => l
  | S count' => if (max <? count)%nat then trim_front max count' (tail l) else l
  end.

(** [DL_APPEND(head, node); DL_COUNT(head, count)] followed by that loop. *)
Definition append_bounded {A} (max : nat) (l : list A) (x : A) : list A :=
  trim_front max (length (l ++ [x])) (l ++ [x]).

Lemma trim_front_drop {A} max (l : list A) :
  trim_front max (length l) l = drop (length l - max) l.
Proof.
  induction l as [|x l IH]; [by rewrite drop_nil|].
  simpl length. cbn [trim_front].
  destruct (Nat.ltb_spec max (S (length l))) as [Hlt|Hge].
  - simpl tail. rewrite IH. by replace (S (length l) - max)%nat with (S (length l - max)) by lia.
  - by replace (S (length l) - max)%nat with 0%nat by lia.
Qed.

Lemma append_bounded_drop {A} max (l : list A) x :
  append_bounded max l x = drop (length l + 1 - max) (l ++ [x]).
Proof. unfold append_bounded. by rewrite trim_front_drop, length_app. Qed.

Lemma length_append_bounded {A} max (l : list A) x :
  (length (append_bounded max l x) <= max)%nat.
Proof. rewrite append_bounded_drop, length_drop, length_app. simpl. lia. Qed.

Lemma append_bounded_room {A} max (l : list A) x :
  (length l < max)%nat -> append_bounded max l x = l ++ [x].
Proof.
  intros H. rewrite append_bounded_drop.
  by replace (length l + 1 - max)%nat with 0%nat by lia.
Qed.

Lemma append_bounded_full {A} max (l : list A) y x :
  (0 < max)%nat -> length (y :: l) = max -> append_bounded max (y :: l) x = l ++ [x].
Proof.
  intros Hm H. rewrite append_bounded_drop, H.
  by replace (max + 1 - max)%nat with 1%nat by lia.
Qed.

Lemma Forall_append_bounded {A} (P : A -> Prop) max l x :
  Forall P l -> P x -> Forall P (append_bounded max l x).
Proof.
  intros Hl Hx. rewrite append_bounded_drop. apply Forall_drop, Forall_app. auto.
Qed.

#[export] Hint Resolve length_append_bounded Forall_append_bounded : sigdb.

(** In-place update of the first node of a list that satisfies a test (a
    [DL_FOREACH] search followed by a write through the node). *)
Fixpoint update_first {A} (p : A -> bool) (f : A -> A) (l : list A) : list A :=
  match l with
  | [] => []
  | x :: l' => if p x then f x :: l' else x :: update_first p f l'
  end.

Fixpoint find_first {A} (p : A -> bool) (l : list A) : option A :=
  match l with
  | [] => None
  | x :: l' => if p x then Some x else find_first p l'
  end.

(** [DL_DELETE] of the first node that satisfies a test. *)
Fixpoint remove_first {A} (p : A -> bool) (l : list A) : list A :=
  match l with
  | [] => []
  | x :: l' => if p x then l' else x :: remove_first p l'
  end.

Lemma find_first_Some {A} (p : A -> bool) l x :
  find_first p l = Some x -> x ∈ l /\ p x = true.
Proof.
  induction l as [|y l IH]; simpl; [done|].
  destruct (p y) eqn:E; [|set_solver]. intros [= ->]. set_solver.
Qed.

Lemma find_first_None {A} (p : A -> bool) l :
  find_first p l = None <-> Forall (fun x => p x = false) l.
Proof.
  induction l as [|y l IH]; simpl; [naive_solver|].
  rewrite Forall_cons. destruct (p y); naive_solver.
Qed.

Lemma length_update_first {A} (p : A -> bool) f l : length (update_first p f l) = length l.
Proof. induction l as [|x l IH]; simpl; [done|]. destruct (p x); simpl; auto. Qed.

Lemma find_update_first {A} (p : A -> bool) f l :
  (forall x, p x = true -> p (f x) = true) ->
  find_first p (update_first p f l) = f <$> find_first p l.
Proof.
  intros Hf. induction l as [|x l IH]; simpl; [done|].
  destruct (p x) eqn:E; simpl; [by rewrite Hf | by rewrite E].
Qed.

Lemma find_update_first_ne {A} (p q : A -> bool) f l :
  (forall x, p x = true -> q x = false /\ q (f x) = false) ->
  find_first q (update_first p f l) = find_first q l.
Proof.
  intros Hf. induction l as [|x l IH]; simpl; [done|].
  destruct (p x) eqn:E; simpl; [|by rewrite IH].
  destruct (Hf x E) as [-> ->]. done.
Qed.

Lemma Forall_update_first {A} (P : A -> Prop) p f l :
  Forall P l -> (forall x, P x -> P (f x)) -> Forall P (update_first p f l).
Proof.
  intros Hl Hf. induction Hl as [|x l Hx Hl IH]; simpl; [constructor|].
  destruct (p x); constructor; auto.
Qed.

Lemma Forall_remove_first {A} (P : A -> Prop) p l :
  Forall P l -> Forall P (remove_first p l).
Proof.
  induction 1 as [|x l Hx Hl IH]; simpl; [constructor|]. destruct (p x); auto.
Qed.

Lemma length_remove_first {A} (p : A -> bool) l :
  (length (remove_first p l) <= length l)%nat.
Proof. induction l as [|x l IH]; simpl; [lia|]. destruct (p x); simpl; lia. Qed.

Lemma find_first_app {A} (p : A -> bool) l1 l2 :
  find_first p (l1 ++ l2) =
  match find_first p l1 with Some x => Some x | None => find_first p l2 end.
Proof. induction l1 as [|x l1 IH]; simpl; [done|]. by destruct (p x). Qed.

Lemma length_delete_le {A} i (l : list A) : (length (delete i l) <= length l)%nat.
Proof. rewrite delete_take_drop, length_app, length_take, length_drop. lia. Qed.

(** Appending several elements, each time dropping the oldest. *)
Lemma foldl_append_bounded {A} max (l xs : list A) :
  (length l <= max)%nat ->
  foldl (append_bounded max) l xs = drop (length l + length xs - max) (l ++ xs).
Proof.
  revert l. induction xs as [|x xs IH]; intros l Hl; simpl.
  - rewrite app_nil_r. by replace (length l + 0 - max)%nat with 0%nat by lia.
  - rewrite IH by apply length_append_bounded.
    rewrite append_bounded_drop.
    assert (length (drop (length l + 1 - max) (l ++ [x])) =
            (length l + 1 - (length l + 1 - max))%nat) as Hlen.
    { rewrite length_drop, length_app. done. }
    rewrite Hlen. rewrite <- drop_app_le by (rewrite length_app; simpl; lia).
    rewrite drop_drop, <- app_assoc. f_equal. simpl. lia.
Qed.

(** Lists searched and emptied by an integer key, as the skipped message keys
    are by their counter. *)
Lemma find_key_NoDup {A} (key : A -> Z) l x :
  NoDup (map key l) -> x ∈ l -> find_first (fun y => key y =? key x) l = Some x.
Proof.
  induction l as [|y l IH]; simpl; [set_solver|].
  intros [Hy Hl]%NoDup_cons [->|Hx]%elem_of_cons.
  - by rewrite Z.eqb_refl.
  - rewrite (proj2 (Z.eqb_neq _ _)); [by apply IH|].
    intros E. apply Hy. rewrite E. by apply list_elem_of_fmap_2.
Qed.

Lemma find_key_None {A} (key : A -> Z) n l :
  Forall (fun x => key x <> n) l -> find_first (fun x => key x =? n) l = None.
Proof.
  intros H. apply find_first_None. eapply Forall_impl; [exact H|].
  intros x Hx. by apply Z.eqb_neq.
Qed.

Lemma elem_of_remove_first {A} (p : A -> bool) l x : x ∈ remove_first p l -> x ∈ l.
Proof.
  induction l as [|y l IH]; simpl; [done|]. destruct (p y); set_solver.
Qed.

Lemma remove_key_NoDup {A} (key : A -> Z) n l :
  NoDup (map key l) ->
  NoDup (map key (remove_first (fun x => key x =? n) l)) /\
  Forall (fun x => key x <> n) (remove_first (fun x => key x =? n) l).
Proof.
  induction l as [|x l IH]; simpl; [by repeat constructor|].
  intros [Hx Hl]%NoDup_cons. destruct (IH Hl) as [IH1 IH2].
  destruct (Z.eqb_spec (key x) n) as [<-|Hn].
  - split; [done|]. apply Forall_forall. intros y Hy E. apply Hx. rewrite <- E.
    by apply list_elem_of_fmap_2.
  - split; [|by constructor]. constructor; [|done].
    intros (y & E & Hy%elem_of_remove_first)%list_elem_of_fmap. apply Hx. rewrite E.
    by apply list_elem_of_fmap_2.
Qed.

Lemma elem_of_remove_key {A} (key : A -> Z) n l x :
  x ∈ l -> key x <> n -> x ∈ remove_first (fun y => key y =? n) l.
Proof.
  intros Hx Hn. induction l as [|y l IH]; simpl; [done|].
  destruct (Z.eqb_spec (key y) n) as [<-|]; set_solver.
Qed.

Lemma NoDup_map_drop {A B} (f : A -> B) e l : NoDup (map f l) -> NoDup (map f (drop e l)).
Proof.
  rewrite <- (take_drop e l) at 1. rewrite map_app. by intros (_ & _ & H)%NoDup_app.
Qed.
