(* ===== verification/Buffers.v ===== *)
(** Byte buffers and comparisons: [signal_buffer] and [signal_constant_memcmp]
    of [signal_protocol.c], with C's [memcmp].

    A [signal_buffer] is its contents, a [signal_buffer *] that may be null an
    [option].  [size_t] is 64 bits wide, as on the platforms the module builds
    for; allocation itself succeeds, the size computations are kept. *)

From S2P Require Import Prelude.

Definition SIZE_MAX : Z := 2 ^ 64 - 1.

(** [sizeof(struct signal_buffer)]: the [size_t len] in front of the data. *)
Definition signal_buffer_header : Z := 8.

Definition signal_buffer_alloc_ok (len : Z) : bool :=
  negb (SIZE_MAX - signal_buffer_header <? len).

Definition signal_buffer_create (data : bytes) : option bytes :=
  if signal_buffer_alloc_ok (Z.of_nat (length data)) then Some data else None.

Definition signal_buffer_copy (buffer : bytes) : option bytes :=
  signal_buffer_create buffer.

Definition signal_buffer_n_copy (buffer : bytes) (n : nat) : option bytes :=
  signal_buffer_create (take (Nat.min (length buffer) n) buffer).

Definition signal_buffer_append (buffer data : bytes) : option bytes :=
  let previous_alloc := signal_buffer_header + Z.of_nat (length buffer) in
  if SIZE_MAX - previous_alloc <? Z.of_nat (length data) then None
  else Some (buffer ++ data).

(** The [i]-th byte of a buffer; the callers stay inside both buffers. *)
Definition byte_at (s : bytes) (i : nat) : Z := byte_val (nth i s x00).

(** The accumulating loop of [signal_constant_memcmp]: it never stops early. *)
Fixpoint memcmp_loop (s1 s2 : bytes) (i n : nat) (acc : Z) : Z :=
  match n with
  | O => acc
  | S n' => memcmp_loop s1 s2 (S i) n' (Z.lor acc (Z.lxor (byte_at s1 i) (byte_at s2 i)))
  end.

Definition signal_constant_memcmp (s1 s2 : bytes) (n : nat) : Z :=
  memcmp_loop s1 s2 0 n 0.

(** C's [memcmp] on two arrays of the compared length, and [strcmp] on two
    strings, up to the magnitude of the result: a proper prefix, which only
    strings can have, comes first. *)
Fixpoint memcmp (s1 s2 : bytes) : Z :=
  match s1, s2 with
  | a :: s1', b :: s2' =>
      if byte_val a <? byte_val b then -1
      else if byte_val b <? byte_val a then 1
      else memcmp s1' s2'
  | [], [] => 0
  | [], _ :: _ => -1
  | _ :: _, [] => 1
  end.

Definition signal_buffer_compare (b1 b2 : option bytes) : Z :=
  match b1, b2 with
  | None, None => 0
  | None, Some _ => -1
  | Some _, None => 1
  | Some x, Some y =>
      if (length x <? length y)%nat then -1
      else if (length y <? length x)%nat then 1
      else signal_constant_memcmp x y (length x)
  end.

(* ------------------------------------------------------------------ *)
(** ** Lemmas *)

Lemma memcmp_loop_zero s1 s2 n i acc :
  memcmp_loop s1 s2 i n acc = 0 <->
  acc = 0 /\ forall j, (i <= j < i + n)%nat -> byte_at s1 j = byte_at s2 j.
Proof.
  revert i acc. induction n as [|n IH]; intros i acc; simpl.
  - split; [intros ->; split; [done|lia]|tauto].
  - rewrite IH, Z.lor_eq_0_iff, Z.lxor_eq_0_iff. split.
    + intros [[-> Hi] Hj]. split; [done|]. intros j Hlt.
      destruct (decide (j = i)) as [->|]; [done|]. apply Hj. lia.
    + intros [-> Hj]. split_and!; [done|apply Hj; lia|]. intros j Hlt. apply Hj. lia.
Qed.

(** The outcome is zero exactly when the compared bytes are equal. *)
Lemma signal_constant_memcmp_zero s1 s2 n :
  length s1 = n -> length s2 = n -> signal_constant_memcmp s1 s2 n = 0 <-> s1 = s2.
Proof.
  intros H1 H2. unfold signal_constant_memcmp. rewrite memcmp_loop_zero.
  split; [intros [_ H]|intros ->; done].
  apply (nth_ext _ _ x00 x00); [lia|]. intros j Hj.
  apply byte_val_inj, H. lia.
Qed.

Lemma byte_at_range s i : 0 <= byte_at s i < 256.
Proof. apply byte_val_range. Qed.

Lemma lor_byte a b : 0 <= a < 256 -> 0 <= b < 256 -> 0 <= Z.lor a b < 256.
Proof.
  intros Ha Hb. split; [apply Z.lor_nonneg; lia|].
  destruct (Z.eq_dec (Z.lor a b) 0) as [->|Hn]; [lia|].
  pose proof (proj2 (Z.lor_nonneg a b)) as Hp.
  apply Z.log2_lt_pow2 with (b := 8); [lia|].
  rewrite Z.log2_lor by lia.
  assert (forall x, 0 <= x < 256 -> Z.log2 x < 8) as Hl.
  { intros x Hx. destruct (Z.eq_dec x 0) as [->|]; [done|]. apply Z.log2_lt_pow2; lia. }
  pose proof (Hl a Ha). pose proof (Hl b Hb). lia.
Qed.

Lemma lxor_byte a b : 0 <= a < 256 -> 0 <= b < 256 -> 0 <= Z.lxor a b < 256.
Proof.
  intros Ha Hb. split; [apply Z.lxor_nonneg; lia|].
  destruct (Z.eq_dec (Z.lxor a b) 0) as [->|Hn]; [lia|].
  pose proof (proj2 (Z.lxor_nonneg a b)) as Hp.
  apply Z.log2_lt_pow2 with (b := 8); [lia|].
  pose proof (Z.log2_lxor a b ltac:(lia) ltac:(lia)).
  assert (forall x, 0 <= x < 256 -> Z.log2 x < 8) as Hl.
  { intros x Hx. destruct (Z.eq_dec x 0) as [->|]; [done|]. apply Z.log2_lt_pow2; lia. }
  pose proof (Hl a Ha). pose proof (Hl b Hb). lia.
Qed.

(** The accumulator stays a [uint8_t], so no bit of a difference is lost when
    it is returned as an [int]. *)
Lemma memcmp_loop_range s1 s2 n i acc :
  0 <= acc < 256 -> 0 <= memcmp_loop s1 s2 i n acc < 256.
Proof.
  revert i acc. induction n as [|n IH]; intros i acc Hacc; simpl; [done|].
  apply IH, lor_byte, lxor_byte; auto using byte_at_range.
Qed.

Lemma signal_buffer_compare_zero b1 b2 : signal_buffer_compare b1 b2 = 0 <-> b1 = b2.
Proof.
  destruct b1 as [x|], b2 as [y|]; simpl; [|done..].
  destruct (Nat.ltb_spec (length x) (length y)); [naive_solver lia|].
  destruct (Nat.ltb_spec (length y) (length x)); [naive_solver lia|].
  rewrite signal_constant_memcmp_zero by lia. naive_solver.
Qed.

Lemma memcmp_zero s1 s2 : memcmp s1 s2 = 0 <-> s1 = s2.
Proof.
  revert s2. induction s1 as [|a s1 IH]; intros [|b s2]; simpl; try done.
  destruct (Z.ltb_spec (byte_val a) (byte_val b)); [naive_solver lia|].
  destruct (Z.ltb_spec (byte_val b) (byte_val a)); [naive_solver lia|].
  rewrite IH. split; [intros ->|naive_solver].
  f_equal. apply byte_val_inj. lia.
Qed.

Lemma memcmp_antisym s1 s2 : memcmp s2 s1 = - memcmp s1 s2.
Proof.
  revert s2. induction s1 as [|a s1 IH]; intros [|b s2]; simpl; try done.
  destruct (Z.ltb_spec (byte_val a) (byte_val b)), (Z.ltb_spec (byte_val b) (byte_val a));
    (lia || apply IH).
Qed.

(** The order the comparison defines on byte strings. *)
Definition lex_le (s1 s2 : bytes) : Prop := memcmp s1 s2 <= 0.

#[global] Instance lex_le_dec s1 s2 : Decision (lex_le s1 s2).
Proof. unfold lex_le. apply _. Defined.

#[global] Instance lex_le_trans : Transitive lex_le.
Proof.
  unfold lex_le. intros s1. induction s1 as [|a s1 IH]; intros [|b s2] [|c s3]; simpl; try lia.
  destruct (Z.ltb_spec (byte_val a) (byte_val b)), (Z.ltb_spec (byte_val b) (byte_val a)),
    (Z.ltb_spec (byte_val b) (byte_val c)), (Z.ltb_spec (byte_val c) (byte_val b)),
    (Z.ltb_spec (byte_val a) (byte_val c)), (Z.ltb_spec (byte_val c) (byte_val a)); try lia.
  apply IH.
Qed.

#[global] Instance lex_le_total : Total lex_le.
Proof. intros s1 s2. unfold lex_le. rewrite (memcmp_antisym s1 s2). lia. Qed.

#[global] Instance lex_le_antisym : AntiSymm (=) lex_le.
Proof.
  intros s1 s2. unfold lex_le. rewrite (memcmp_antisym s1 s2). intros H1 H2. apply memcmp_zero. lia.
Qed.

(** A byte string that a [signal_buffer] can hold. *)
Definition fits (b : bytes) : Prop := signal_buffer_alloc_ok (Z.of_nat (length b)) = true.

Lemma fits_small b : (length b <= 1024)%nat -> fits b.
Proof.
  intros H. unfold fits, signal_buffer_alloc_ok, SIZE_MAX, signal_buffer_header.
  rewrite (proj2 (Z.ltb_ge _ _)) by lia. done.
Qed.

Lemma signal_buffer_create_fits b : fits b -> signal_buffer_create b = Some b.
Proof. intros H. unfold signal_buffer_create. by rewrite H. Qed.
