(* ===== verification/Vpool.v ===== *)
(** The growable byte pool of [vpool.c], used to concatenate the key
    agreements of the session set-up.

    First as its users see it: [v_data] is the [v_off] bytes stored from [v_buf];
    [v_size], [v_blksize] and [v_limit] are the capacity, its granularity and its
    bound.  Then, in [Placed], as it is: an allocation with the data somewhere
    inside, [size_t] arithmetic, moves and copies that stop at a bad address; every
    operation of [Placed] implements the list of bytes, and stays inside its
    allocation, for data that is shorter than [2 ^ 64] by a block. *)

From S2P Require Import Prelude Buffers.

Record vpool := mk_vpool {
  v_data : bytes;
  v_size : Z;
  v_blksize : Z;
  v_limit : Z
}.

Definition v_off (p : vpool) : Z := Z.of_nat (length (v_data p)).

Definition vpool_init (blksize limit : Z) : vpool :=
  {| v_data := []; v_size := 0;
     v_blksize := if blksize =? 0 then 4096 else blksize;
     v_limit := if limit =? 0 then SIZE_MAX else limit |}.

(** [None] is [EFBIG]. *)
Definition vpool_new_size (p : vpool) (datsize : Z) : option Z :=
  if datsize <=? v_size p - v_off p then Some (v_size p)
  else if v_limit p - v_off p <? datsize then None
  else
    let need := v_off p + datsize in
    let rem := need mod v_blksize p in
    if rem =? 0 then Some need
    else if datsize + (v_blksize p - rem) <=? v_limit p - v_off p
    then Some (need + (v_blksize p - rem))
    else Some (v_limit p).

Definition vpool_resize (p : vpool) (datsize : Z) : option vpool :=
  match vpool_new_size p datsize with
  | None => None
  | Some size =>
      Some (if v_size p <? size
            then mk_vpool (v_data p) size (v_blksize p) (v_limit p) else p)
  end.

Definition vpool_insert (p : vpool) (where_ : nat) (data : bytes) : option vpool :=
  match vpool_resize p (Z.of_nat (length data)) with
  | None => None
  | Some p' =>
      let w := if v_off p' <? Z.of_nat where_ then length (v_data p') else where_ in
      Some (mk_vpool (take w (v_data p') ++ data ++ drop w (v_data p'))
              (v_size p') (v_blksize p') (v_limit p'))
  end.

Definition vpool_get_length (p : vpool) : nat := length (v_data p).
Definition vpool_get_buf (p : vpool) : bytes := v_data p.
Definition vpool_is_empty (p : vpool) : bool := v_off p =? 0.

(** The capacity always covers the stored bytes and respects the limit. *)
Definition vpool_wf (p : vpool) : Prop :=
  v_off p <= v_size p <= v_limit p /\ 0 < v_blksize p.

(* ------------------------------------------------------------------ *)

Lemma vpool_init_wf blksize limit :
  0 <= blksize -> 0 <= limit -> vpool_wf (vpool_init blksize limit).
Proof.
  intros Hb Hl. unfold vpool_wf, vpool_init, v_off, SIZE_MAX; simpl.
  destruct (Z.eqb_spec limit 0), (Z.eqb_spec blksize 0); lia.
Qed.

Lemma vpool_new_size_spec p n size :
  vpool_wf p -> 0 <= n -> vpool_new_size p n = Some size ->
  v_off p + n <= size /\ v_size p <= size <= v_limit p.
Proof.
  intros [[H1 H2] H3] Hn. unfold vpool_new_size.
  pose proof (Z.mod_pos_bound (v_off p + n) (v_blksize p) H3).
  repeat case_match; intros; simplify_eq; lia.
Qed.

Lemma vpool_resize_spec p n p' :
  vpool_wf p -> 0 <= n -> vpool_resize p n = Some p' ->
  v_data p' = v_data p /\ v_off p + n <= v_size p' /\ vpool_wf p' /\
  v_limit p' = v_limit p /\ v_blksize p' = v_blksize p.
Proof.
  intros Hwf Hn. unfold vpool_resize.
  destruct (vpool_new_size p n) as [size|] eqn:E; [|done]. intros [= <-].
  pose proof (vpool_new_size_spec _ _ _ Hwf Hn E). destruct Hwf as [Hs Hb].
  destruct (Z.ltb_spec (v_size p) size); unfold vpool_wf, v_off in *; simpl; lia || (split_and!; auto; lia).
Qed.

Lemma vpool_insert_wf p w data p' :
  vpool_wf p -> vpool_insert p w data = Some p' -> vpool_wf p'.
Proof.
  intros Hwf. unfold vpool_insert.
  destruct (vpool_resize p _) as [q|] eqn:E; [|done]. intros [= <-].
  apply vpool_resize_spec in E as (Hd & Hsz & [Hs Hb] & Hlim & Hbk); [|done|lia].
  unfold vpool_wf, v_off in *; simpl. rewrite !length_app, length_take, length_drop, Hd in *.
  split; [|lia]. case_match; lia.
Qed.

(** Inserting at the current length appends, whenever the limit allows it. *)
Lemma vpool_insert_append p data :
  vpool_wf p -> Z.of_nat (length data) <= v_limit p - v_off p ->
  exists p', vpool_insert p (vpool_get_length p) data = Some p' /\
    v_data p' = v_data p ++ data /\ v_limit p' = v_limit p /\ vpool_wf p'.
Proof.
  intros Hwf Hlim.
  destruct (vpool_insert p (vpool_get_length p) data) as [p'|] eqn:E.
  - exists p'. split; [done|]. pose proof (vpool_insert_wf _ _ _ _ Hwf E) as Hwf'.
    unfold vpool_insert in E.
    destruct (vpool_resize p _) as [q|] eqn:Eq; [|done]. injection E as <-.
    apply vpool_resize_spec in Eq as (Hd & _ & _ & Hl & _); [|done|lia]. simpl in *.
    split_and!; [|done|done].
    unfold vpool_get_length, v_off in *. rewrite Hd.
    rewrite (proj2 (Z.ltb_ge _ _)) by lia.
    by rewrite firstn_all, drop_all, app_nil_r.
  - exfalso. unfold vpool_insert, vpool_resize, vpool_new_size in E.
    repeat case_match; simplify_eq;
      repeat match goal with
      | H : (_ <? _) = true |- _ => apply Z.ltb_lt in H
      | H : (_ <=? _) = false |- _ => apply Z.leb_gt in H
      end; lia.
Qed.

(* ------------------------------------------------------------------ *)
(** ** The pool in memory *)

Definition EFBIG : Z := 27.
Definition ERANGE : Z := 34.

Inductive vpool_trunc := VPOOL_EXCLUDE | VPOOL_INCLUDE.

Module Placed.

(** [base] is the allocation at [v_basebuf], of [v_size] bytes; [pos] is
    [v_buf - v_basebuf]. *)
Record pool := mk_pool { base : bytes; pos : nat; off : nat; blksize : Z; limit : Z; lasterr : Z }.

Definition size (p : pool) : Z := Z.of_nat (length (base p)).
Definition set_base (b : bytes) (p : pool) : pool := mk_pool b (pos p) (off p) (blksize p) (limit p) (lasterr p).
Definition set_place (i n : nat) (p : pool) : pool := mk_pool (base p) i n (blksize p) (limit p) (lasterr p).
Definition set_error (e : Z) (p : pool) : pool := mk_pool (base p) (pos p) (off p) (blksize p) (limit p) e.

(** [memcpy] to an offset and [memmove] inside an allocation; [None] is an access outside it. *)
Definition write_at (b : bytes) (i : nat) (d : bytes) : option bytes :=
  if (length b <? i + length d)%nat then None else Some (take i b ++ d ++ drop (i + length d) b).
Definition memmove (b : bytes) (dst src n : nat) : option bytes :=
  if (length b <? src + n)%nat then None else write_at b dst (slice src n b).

Definition vpool_shift (p : pool) : option pool :=
  if (pos p =? 0)%nat then Some p
  else b ← memmove (base p) 0 (pos p) (off p); Some (set_place 0 (off p) (set_base b p)).

Definition vpool_new_size_mem (p : pool) (datsize : Z) : option Z :=
  let off := Z.of_nat (off p) in
  if datsize <=? u64 (size p - off) then Some (size p)
  else if u64 (limit p - off) <? datsize then None
  else
    let need := u64 (off + datsize) in
    let rem := need mod blksize p in
    if rem =? 0 then Some need
    else if u64 (datsize + u64 (blksize p - rem)) <=? u64 (limit p - off)
    then Some (u64 (need + u64 (blksize p - rem)))
    else Some (limit p).

Section memory.
Context (fresh : nat -> bytes).

Definition vpool_resize_mem (p : pool) (datsize : Z) : result pool :=
  match vpool_new_size_mem p datsize with
  | None => Err EFBIG
  | Some sz =>
      let moved :=
        if size p <? sz then
          b ← write_at (fresh (Z.to_nat sz)) 0 (slice (pos p) (off p) (base p)); Some (set_place 0 (off p) (set_base b p))
        else if u64 (u64 (size p - Z.of_nat (off p)) - Z.of_nat (pos p)) <? datsize then vpool_shift p
        else Some p in
      match moved with Some p => Ok p | None => Stuck end
  end.

(** The pool, and the offset of [ret]. *)
Definition make_room (p : pool) (where_ n : nat) (data : option bytes) : pool * result nat :=
  match vpool_resize_mem p (Z.of_nat n) with
  | Err e => (set_error e p, Err e)
  | Stuck => (p, Stuck)
  | Ok p =>
      let where_ := if (off p <? where_)%nat then off p else where_ in
      let ret := (pos p + where_)%nat in
      let moved := if (0 <? off p - where_)%nat then memmove (base p) (ret + n) ret (off p - where_) else Some (base p) in
      match (b ← moved; match data with Some d => write_at b ret d | None => Some b end) with
      | None => (p, Stuck)
      | Some b => (set_error 0 (set_place (pos p) (off p + n) (set_base b p)), Ok ret)
      end
  end.

Definition vpool_insert_mem (p : pool) (where_ : nat) (data : bytes) : pool * result nat := make_room p where_ (length data) (Some data).
Definition vpool_expand (p : pool) (where_ n : nat) : pool * result nat := make_room p where_ n None.
End memory.

Definition vpool_init_mem (blk lim : Z) : pool :=
  mk_pool [] 0 0 (if blk =? 0 then 4096 else blk) (if lim =? 0 then SIZE_MAX else lim) 0.

Definition vpool_reset (p : pool) : pool := mk_pool [] 0 0 (blksize p) (limit p) 0.
Definition vpool_wipe (p : pool) : pool := set_error 0 (set_place (pos p) 0 p).

Definition vpool_truncate (p : pool) (where_ n : nat) (how : vpool_trunc) : pool * result unit :=
  if (off p <=? where_)%nat || (off p <? n)%nat || (off p - n <? where_)%nat then (set_error ERANGE p, Err ERANGE)
  else
    match how with
    | VPOOL_EXCLUDE =>
        if (where_ =? 0)%nat then (set_error 0 (set_place (pos p + n) (off p - n) p), Ok tt)
        else
          match memmove (base p) (pos p + where_) (pos p + where_ + n) (off p - n - where_) with
          | Some b => (set_error 0 (set_place (pos p) (off p - n) (set_base b p)), Ok tt)
          | None => (p, Stuck)
          end
    | VPOOL_INCLUDE => (set_error 0 (set_place (pos p + where_) n p), Ok tt)
    end.

(** The allocation and the length that the caller owns from then on. *)
Definition vpool_export (p : pool) : option (pool * (bytes * nat)) :=
  p ← vpool_shift p; Some (vpool_reset p, (base p, off p)).

(** The stored bytes, and the pool as its users see it. *)
Definition stored (p : pool) : bytes := slice (pos p) (off p) (base p).
Definition seen (p : pool) : vpool := mk_vpool (stored p) (size p) (blksize p) (limit p).

Definition wf (p : pool) : Prop :=
  (pos p + off p <= length (base p))%nat /\ size p <= limit p <= SIZE_MAX /\ 0 < blksize p.

(* ------------------------------------------------------------------ *)
(** ** Reading what was written *)

Lemma stored_length p : wf p -> length (stored p) = off p.
Proof. intros [H _]. by apply length_slice. Qed.

Lemma write_at_some b i d : (i + length d <= length b)%nat -> write_at b i d = Some (take i b ++ d ++ drop (i + length d) b).
Proof. intros H. unfold write_at. by rewrite (proj2 (Nat.ltb_ge _ _) H). Qed.

Lemma memmove_some b dst src n : (src + n <= length b)%nat -> (dst + n <= length b)%nat ->
  memmove b dst src n = Some (take dst b ++ slice src n b ++ drop (dst + n) b).
Proof.
  intros Hs Hd. unfold memmove. rewrite (proj2 (Nat.ltb_ge _ _) Hs), write_at_some by (rewrite length_slice; lia). by rewrite length_slice.
Qed.

Lemma vpool_shift_spec p : wf p -> exists p', vpool_shift p = Some p' /\ wf p' /\ seen p' = seen p /\ pos p' = 0%nat /\ off p' = off p /\ lasterr p' = lasterr p.
Proof.
  intros Hwf. pose proof Hwf as (Hp & Hs & Hb). unfold vpool_shift. destruct (Nat.eqb_spec (pos p) 0) as [E|E]; [by exists p|].
  rewrite memmove_some by lia. eexists. split; [reflexivity|]. set (b := take 0 _ ++ _).
  assert (length b = length (base p)) as Hl by (unfold b; rewrite !length_app, length_slice, length_drop by lia; rewrite length_take; lia).
  unfold wf, seen, size, stored. cbn [set_place set_base base pos off blksize limit lasterr]. rewrite Hl. split_and!; try (unfold size in *; lia); try done.
  f_equal. unfold b. rewrite firstn_O. cbn [app]. unfold slice at 1. rewrite drop_0. rewrite take_app_length'; [done|]. by rewrite length_slice.
Qed.

Lemma u64_id z : 0 <= z <= SIZE_MAX -> u64 z = z.
Proof. intros Hz. apply Z.mod_small. unfold SIZE_MAX in Hz. lia. Qed.

(** Below [2 ^ 64] less a block the [size_t] arithmetic is exact. *)
Lemma new_size_exact p n : wf p -> 0 <= n -> n + blksize p <= SIZE_MAX -> vpool_new_size_mem p n = vpool_new_size (seen p) n.
Proof.
  intros Hwf Hn Hmax. pose proof (stored_length p Hwf) as Hl. destruct Hwf as (Hp & Hs & Hb).
  unfold vpool_new_size_mem, vpool_new_size, v_off. cbn [seen v_data v_size v_blksize v_limit]. rewrite Hl. cbv zeta. unfold size in *.
  rewrite !(u64_id (_ - Z.of_nat (off p))) by lia. destruct (Z.leb_spec n (Z.of_nat (length (base p)) - Z.of_nat (off p))); [done|].
  destruct (Z.ltb_spec (limit p - Z.of_nat (off p)) n); [done|]. rewrite (u64_id (_ + n)) by lia.
  pose proof (Z.mod_pos_bound (Z.of_nat (off p) + n) (blksize p) Hb) as Hr. set (r := _ mod _) in *.
  rewrite !(u64_id (blksize p - r)), (u64_id (n + _)) by lia.
  destruct (Z.eqb_spec r 0); [done|]. destruct (Z.leb_spec (n + (blksize p - r)) (limit p - Z.of_nat (off p))); [|done]. by rewrite u64_id by lia.
Qed.

Section spec.
Context (fresh : nat -> bytes) (Hf : forall n, length (fresh n) = n).

Lemma resize_spec p n : wf p -> 0 <= n -> n + blksize p <= SIZE_MAX ->
  match vpool_resize (seen p) n with
  | None => vpool_resize_mem fresh p n = Err EFBIG
  | Some q => exists p', vpool_resize_mem fresh p n = Ok p' /\ wf p' /\ seen p' = q /\ Z.of_nat (pos p' + off p') + n <= size p' /\ off p' = off p
  end.
Proof using Hf.
  intros Hwf Hn Hmax. pose proof (stored_length p Hwf) as Hl. unfold vpool_resize, vpool_resize_mem. rewrite new_size_exact by done.
  pose proof Hwf as (Hp & Hs & Hb). assert (vpool_wf (seen p)) as Hw by (unfold vpool_wf, v_off; cbn [seen v_data v_size v_blksize v_limit]; rewrite Hl; unfold size in *; lia).
  destruct (vpool_new_size (seen p) n) as [sz|] eqn:E; [|done]. pose proof (vpool_new_size_spec _ _ _ Hw Hn E) as (H1 & H2 & H3).
  unfold v_off in H1. cbn [seen v_data v_size v_blksize v_limit] in *. rewrite Hl in H1.
  destruct (Z.ltb_spec (size p) sz) as [Hlt|Hge].
  - rewrite write_at_some by (rewrite Hf, length_slice; lia). cbn [mbind option_bind]. eexists. split; [reflexivity|].
    set (b := take 0 _ ++ _). assert (length b = Z.to_nat sz) as Hlb.
    { unfold b. rewrite !length_app, length_drop, Hf, length_slice by lia. rewrite length_take. lia. }
    unfold wf, seen, size, stored in *. cbn [set_place set_base base pos off blksize limit]. rewrite Hlb. split_and!; try lia.
    f_equal; [|lia]. unfold b. rewrite firstn_O. cbn [app]. unfold slice at 1. rewrite drop_0, take_app_length'; [done|]. by rewrite length_slice.
  - rewrite !u64_id by (rewrite ?u64_id; unfold size in *; lia). destruct (Z.ltb_spec (size p - Z.of_nat (off p) - Z.of_nat (pos p)) n) as [Hlt|Hge'].
    + destruct (vpool_shift_spec p Hwf) as (p' & -> & Hwf' & Es & Ep & Eo & _). exists p'. split_and!; [done|done|done| |done].
      rewrite Ep, Eo. assert (size p' = size p) as -> by (exact (f_equal v_size Es)). lia.
    + exists p. split_and!; try done. lia.
Qed.

Lemma placed_insert (b d : bytes) (i w m : nat) : (i + m + length d <= length b)%nat -> (w <= m)%nat ->
  exists b', ((c ← (if (0 <? m - w)%nat then memmove b (i + w + length d) (i + w) (m - w) else Some b); write_at c (i + w) d) = Some b') /\
    length b' = length b /\ slice i (m + length d) b' = take w (slice i m b) ++ d ++ drop w (slice i m b).
Proof.
  intros Hb Hw. set (mid := slice i m b). assert (b = take i b ++ mid ++ drop (i + m) b) as Eb.
  { unfold mid, slice. rewrite <- (take_drop i b) at 1. f_equal. rewrite <- (take_drop m (drop i b)) at 1. by rewrite drop_drop. }
  assert (length mid = m) as Hm by (apply length_slice; lia). assert (length (take i b) = i) as Hi by (rewrite length_take; lia).
  set (x := take i b) in *. set (z := drop (i + m) b) in *. assert (length b = (i + m + length z)%nat) as Hlb by (rewrite Eb, !length_app; lia).
  rewrite <- (take_drop w mid) in Eb. set (l := take w mid) in *. set (r := drop w mid) in *.
  assert (length l = w /\ length r = (m - w)%nat) as [Hll Hlr] by (unfold l, r; rewrite length_take, length_drop; lia).
  set (c := x ++ l ++ take (length d) (r ++ z) ++ r ++ drop (length d) z).
  assert ((if (0 <? m - w)%nat then memmove b (i + w + length d) (i + w) (m - w) else Some b) = Some c) as ->.
  { destruct (Nat.ltb_spec 0 (m - w)) as [Hlt|Hge].
    - rewrite memmove_some by lia. f_equal. assert (slice (i + w) (m - w) b = r) as ->.
      { rewrite Eb. unfold slice. rewrite app_assoc, <- !app_assoc, app_assoc. rewrite drop_app_length' by (rewrite length_app; lia).
        rewrite take_app_length' by done. done. }
      unfold c. rewrite Eb. rewrite <- !app_assoc. rewrite !app_assoc, <- (app_assoc (x ++ l)). rewrite <- !app_assoc.
      rewrite (app_assoc x l). rewrite take_app_ge by (rewrite length_app; lia). rewrite (drop_app_ge (x ++ l)) by (rewrite length_app; lia).
      rewrite length_app, Hi, Hll. replace (i + w + length d - (i + w))%nat with (length d) by lia.
      replace (i + w + length d + (m - w) - (i + w))%nat with (length d + length r)%nat by lia. rewrite (drop_app_ge r) by lia.
      rewrite <- !app_assoc. do 4 f_equal. f_equal. lia.
    - unfold c. assert (r = []) as -> by (apply nil_length_inv; lia). cbn [app]. rewrite take_drop. rewrite Eb at 1. rewrite <- app_assoc. done. }
  cbn [mbind option_bind]. assert (length c = length b) as Hc.
  { unfold c. rewrite !length_app, length_take, length_app, length_drop. lia. }
  rewrite write_at_some by lia. eexists. split; [reflexivity|]. split; [rewrite !length_app, length_take, length_drop; lia|].
  assert (take (i + w) c = x ++ l) as ->.
  { unfold c. rewrite app_assoc. apply take_app_length'. rewrite length_app. lia. }
  assert (drop (i + w + length d) c = r ++ drop (length d) z) as ->.
  { unfold c. rewrite !app_assoc, <- (app_assoc _ r). apply drop_app_length'. rewrite !length_app, length_take, length_app. lia. }
  unfold slice. rewrite <- !app_assoc, drop_app_length' by done. rewrite app_assoc, app_assoc. rewrite take_app_length'.
  - by rewrite <- app_assoc.
  - rewrite !length_app. lia.
Qed.

(** Without data the move leaves what it moved over. *)
Lemma placed_expand (b : bytes) (n i w m : nat) : (i + m + n <= length b)%nat -> (w <= m)%nat ->
  exists b' gap, (if (0 <? m - w)%nat then memmove b (i + w + n) (i + w) (m - w) else Some b) = Some b' /\ length gap = n /\
    length b' = length b /\ slice i (m + n) b' = take w (slice i m b) ++ gap ++ drop w (slice i m b).
Proof.
  intros Hb Hw. assert (exists b', (if (0 <? m - w)%nat then memmove b (i + w + n) (i + w) (m - w) else Some b) = Some b' /\ length b' = length b) as (b' & E & Hl).
  { destruct (Nat.ltb_spec 0 (m - w)); [|by exists b]. rewrite memmove_some by lia. eexists. split; [reflexivity|].
    rewrite !length_app, length_take, length_drop, length_slice by lia. lia. }
  set (gap := slice (i + w) n b'). assert (length gap = n) as Hg by (apply length_slice; lia). exists b', gap. split_and!; [done..|].
  destruct (placed_insert b gap i w m ltac:(lia) Hw) as (c & Ec & _ & Es). rewrite Hg in Ec, Es. rewrite E in Ec. cbn [mbind option_bind] in Ec.
  rewrite write_at_some in Ec by lia. assert (c = b') as <-; [|exact Es]. injection Ec as <-. unfold gap, slice. rewrite length_take, length_drop, Nat.min_l by lia.
  rewrite <- (take_drop (i + w) b') at 4. f_equal. rewrite <- (take_drop n (drop (i + w) b')) at 2. by rewrite drop_drop.
Qed.

(** Where the code puts the data: behind the stored bytes at the latest. *)
Definition place (p : pool) (w : nat) : nat := if (off p <? w)%nat then off p else w.

Lemma insert_spec p w d : wf p -> Z.of_nat (length d) + blksize p <= SIZE_MAX ->
  match vpool_insert (seen p) w d, vpool_insert_mem fresh p w d with
  | None, (p', r) => r = Err EFBIG /\ wf p' /\ seen p' = seen p /\ lasterr p' = EFBIG
  | Some q, (p', r) => r = Ok (pos p' + place p w)%nat /\ wf p' /\ seen p' = q /\ lasterr p' = 0
  end.
Proof using Hf.
  intros Hwf Hmax. pose proof (resize_spec p (Z.of_nat (length d)) Hwf ltac:(lia) Hmax) as H. unfold vpool_insert, vpool_insert_mem, make_room.
  destruct (vpool_resize (seen p) _) as [q|]; [|rewrite H; done]. destruct H as (p1 & -> & Hwf1 & <- & Hroom & Eo).
  pose proof (stored_length p1 Hwf1) as Hl. destruct Hwf1 as (Hp & Hs & Hb).
  assert (place p w = if v_off (seen p1) <? Z.of_nat w then length (v_data (seen p1)) else w) as Ew.
  { unfold place, v_off. cbn [seen v_data]. rewrite Hl, Eo. destruct (Nat.ltb_spec (off p) w), (Z.ltb_spec (Z.of_nat (off p)) (Z.of_nat w)); lia || done. }
  rewrite <- Ew. assert ((if (off p1 <? w)%nat then off p1 else w) = place p w) as -> by (unfold place; by rewrite Eo).
  assert (place p w <= off p1)%nat as Hw by (unfold place; rewrite Eo; destruct (Nat.ltb_spec (off p) w); lia).
  destruct (placed_insert (base p1) d (pos p1) (place p w) (off p1) ltac:(unfold size in Hroom; lia) Hw) as (b' & -> & Hb' & Es).
  split; [done|]. unfold wf, seen, size, stored in *. cbn [set_error set_place set_base base pos off blksize limit lasterr v_data v_size v_blksize v_limit].
  rewrite Hb', Es. split_and!; try lia; done.
Qed.

Lemma expand_insert p w n : wf p -> Z.of_nat n + blksize p <= SIZE_MAX ->
  match vpool_expand fresh p w n with
  | (p', Ok ret) => exists gap, length gap = n /\ ret = (pos p' + place p w)%nat /\ wf p' /\ Some (seen p') = vpool_insert (seen p) w gap
  | (p', Err e) => e = EFBIG /\ wf p' /\ seen p' = seen p
  | (_, Stuck) => False
  end.
Proof using Hf.
  intros Hwf Hmax. pose proof (resize_spec p (Z.of_nat n) Hwf ltac:(lia) Hmax) as H. unfold vpool_expand, make_room.
  destruct (vpool_resize (seen p) (Z.of_nat n)) as [q|] eqn:Eq; [|rewrite H; done]. destruct H as (p1 & -> & Hwf1 & Eq1 & Hroom & Eo).
  pose proof (stored_length p1 Hwf1) as Hl. destruct Hwf1 as (Hp & Hs & Hb).
  assert ((if (off p1 <? w)%nat then off p1 else w) = place p w) as -> by (unfold place; by rewrite Eo).
  assert (place p w <= off p1)%nat as Hw by (unfold place; rewrite Eo; destruct (Nat.ltb_spec (off p) w); lia).
  (* the move leaves some bytes in the gap: writing them there changes nothing *)
  destruct (placed_expand (base p1) n (pos p1) (place p w) (off p1) ltac:(unfold size in Hroom; lia) Hw) as (b' & gap & Eg & Hg & Hb' & Es).
  rewrite Eg. cbn [mbind option_bind]. exists gap. split; [done|]. split; [done|].
  unfold vpool_insert. rewrite Hg, Eq, <- Eq1. unfold wf, seen, size, stored, v_off in *.
  cbn [set_error set_place set_base base pos off blksize limit lasterr v_data v_size v_blksize v_limit] in *. rewrite Hb', Es, Hl.
  assert ((if Z.of_nat (off p1) <? Z.of_nat w then off p1 else w) = place p w) as ->.
  { unfold place. rewrite Eo. destruct (Nat.ltb_spec (off p) w), (Z.ltb_spec (Z.of_nat (off p)) (Z.of_nat w)); lia || done. }
  split; [split_and!; lia|done].
Qed.
End spec.

Lemma truncate_spec p w n how : wf p ->
  match vpool_truncate p w n how with
  | (p', r) => wf p' /\
      if decide (w < off p /\ w + n <= off p)%nat
      then r = Ok tt /\ lasterr p' = 0 /\ stored p' = match how with VPOOL_EXCLUDE => take w (stored p) ++ drop (w + n) (stored p) | VPOOL_INCLUDE => slice w n (stored p) end
      else r = Err ERANGE /\ lasterr p' = ERANGE /\ stored p' = stored p
  end.
Proof.
  intros Hwf. pose proof Hwf as (Hp & Hs & Hb). pose proof (stored_length p Hwf) as Hl. unfold vpool_truncate.
  destruct (decide (w < off p /\ w + n <= off p)%nat) as [[H1 H2]|Hd].
  2: { assert ((off p <=? w)%nat || (off p <? n)%nat || (off p - n <? w)%nat = true) as ->; [|done].
       destruct (Nat.leb_spec (off p) w), (Nat.ltb_spec (off p) n), (Nat.ltb_spec (off p - n) w); try done. exfalso. lia. }
  rewrite (proj2 (Nat.leb_gt _ _)), !(proj2 (Nat.ltb_ge _ _)) by lia. cbn [orb].
  destruct how; [destruct (Nat.eqb_spec w 0) as [->|Hw]|].
  - unfold wf, size, stored in *. cbn [set_error set_place base pos off blksize limit lasterr]. split_and!; try lia; try done.
    rewrite firstn_O. cbn [app]. unfold slice. by rewrite skipn_firstn_comm, drop_drop, Nat.add_0_l.
  - rewrite memmove_some by lia. unfold wf, size, stored in *. cbn [set_error set_place set_base base pos off blksize limit lasterr].
    set (b := base p) in *. set (r := slice (pos p + w + n) (off p - n - w) b).
    assert (length r = (off p - n - w)%nat) as Hr by (apply length_slice; lia). rewrite !length_app, length_take, length_drop, Hr. split_and!; try lia; try done.
    assert (drop (w + n) (slice (pos p) (off p) b) = r) as ->.
    { unfold r, slice. rewrite skipn_firstn_comm, drop_drop. f_equal; [lia|f_equal; lia]. }
    assert (take w (slice (pos p) (off p) b) = slice (pos p) w b) as -> by (unfold slice; rewrite take_take; f_equal; lia).
    assert (take (pos p + w) b = take (pos p) b ++ slice (pos p) w b) as ->.
    { rewrite <- (take_drop (pos p) (take (pos p + w) b)), take_take, Nat.min_l by lia. f_equal. unfold slice. rewrite skipn_firstn_comm. f_equal. lia. }
    unfold slice at 1. rewrite <- !app_assoc, drop_app_length' by (rewrite length_take; lia). rewrite app_assoc. apply take_app_length'.
    rewrite length_app, Hr, length_slice by lia. lia.
  - unfold wf, size, stored in *. cbn [set_error set_place base pos off blksize limit lasterr]. split_and!; try lia; try done.
    unfold slice. rewrite skipn_firstn_comm, take_take, drop_drop. f_equal. lia.
Qed.

Lemma export_spec p : wf p -> exists b, vpool_export p = Some (vpool_reset p, (b, off p)) /\ take (off p) b = stored p /\ wf (vpool_reset p).
Proof.
  intros Hwf. unfold vpool_export. destruct (vpool_shift_spec p Hwf) as (p' & -> & Hwf' & Es & Ep & Eo & _). cbn [mbind option_bind].
  exists (base p'). assert (blksize p' = blksize p /\ limit p' = limit p) as [E1 E2] by (split; [exact (f_equal v_blksize Es)|exact (f_equal v_limit Es)]).
  split; [unfold vpool_reset; by rewrite E1, E2, Eo|]. split.
  - rewrite <- (f_equal v_data Es : stored p' = stored p). unfold stored, slice. by rewrite Ep, drop_0, Eo.
  - destruct Hwf as (_ & Hs & Hb). unfold wf, size, vpool_reset in *. cbn. split_and!; lia.
Qed.

Lemma init_spec blk lim : 0 <= blk -> 0 <= lim <= SIZE_MAX -> wf (vpool_init_mem blk lim) /\ seen (vpool_init_mem blk lim) = vpool_init blk lim.
Proof.
  intros Hb Hl. split; [|done]. unfold wf, vpool_init_mem, size, SIZE_MAX in *. cbn. destruct (Z.eqb_spec blk 0), (Z.eqb_spec lim 0); split_and!; lia.
Qed.

Lemma wipe_spec p : wf p -> wf (vpool_wipe p) /\ stored (vpool_wipe p) = [] /\ size (vpool_wipe p) = size p.
Proof. intros (Hp & Hs & Hb). unfold wf, vpool_wipe, size, stored, slice in *. cbn. split_and!; try done; lia. Qed.

(** The sum of the data and the rest of its block is compared after it has wrapped: a pool without
    limit that is asked for [2 ^ 64 - 2] bytes takes 0 for enough. *)
Lemma new_size_wraps : vpool_new_size_mem (vpool_init_mem 0 0) (2 ^ 64 - 2) = Some 0.
Proof. vm_compute. reflexivity. Qed.
End Placed.
