(* ===== verification/Context.v ===== *)
(** The ground under the objects of [signal_protocol.c]: reference counts, the lists of
    buffers and integers that callbacks fill, the context with the application's functions, the
    context of the stores, and C strings in protobuf fields.

    Instances are names.  The heap keeps the count of every instance that was initialised and
    not yet destroyed, and the order in which destroy functions ran; a destroy function frees its
    instance, so a later use of it does not return normally. *)

From S2P Require Import Prelude Buffers.

(* ------------------------------------------------------------------ *)
(** ** Reference counts *)

Record heap := mk_heap { ref_counts : gmap nat Z; destroyed : list nat }.

Definition signal_type_init (i : nat) : M heap unit :=
  modify (fun h => mk_heap (<[i := 1]> (ref_counts h)) (destroyed h)).

(** [ref_count] is an [unsigned int]. *)
Definition signal_type_ref (instance : option nat) : M heap unit :=
  do i <- lift (deref instance);
  do h <- get;
  do c <- lift (deref (ref_counts h !! i));
  if 0 <? c then modify (fun h => mk_heap (<[i := u32 (c + 1)]> (ref_counts h)) (destroyed h)) else stuck.

Definition signal_type_unref (instance : option nat) : M heap unit :=
  match instance with
  | None => ret tt
  | Some i =>
      do h <- get;
      do c <- lift (deref (ref_counts h !! i));
      if negb (0 <? c) then stuck
      else if 1 <? c then modify (fun h => mk_heap (<[i := c - 1]> (ref_counts h)) (destroyed h))
      else modify (fun h => mk_heap (delete i (ref_counts h)) (destroyed h ++ [i]))
  end.

(* ------------------------------------------------------------------ *)
(** ** Lists *)

(** Elements of a [signal_buffer_list] are pointers, and may be null. *)
Definition signal_buffer_list : Type := list (option bytes).
Definition signal_int_list : Type := list Z.

Definition signal_buffer_list_alloc : signal_buffer_list := [].
Definition signal_int_list_alloc : signal_int_list := [].

(** A null buffer is copied with an access to its length. *)
Fixpoint signal_buffer_list_copy (l : signal_buffer_list) : result signal_buffer_list :=
  match l with
  | [] => Ok []
  | b :: l' =>
      let? buffer := deref b in
      let? rest := signal_buffer_list_copy l' in
      Ok (signal_buffer_copy buffer :: rest)
  end.

Definition signal_buffer_list_push_back (l : signal_buffer_list) (buffer : option bytes) : signal_buffer_list := l ++ [buffer].
Definition signal_int_list_push_back (l : signal_int_list) (value : Z) : signal_int_list := l ++ [value].

Definition signal_buffer_list_size (l : signal_buffer_list) : nat := length l.
Definition signal_int_list_size (l : signal_int_list) : nat := length l.

Definition signal_buffer_list_at (l : signal_buffer_list) (index : nat) : result bytes :=
  let? value := deref (l !! index) in deref value.
Definition signal_int_list_at (l : signal_int_list) (index : nat) : result Z := deref (l !! index).

(* ------------------------------------------------------------------ *)
(** ** The context *)

Section context.
(** The types of the functions, and of the provider's functions by name. *)
Context {callback log_function user_data : Type}.

Record crypto_functions := {
  random_function : option callback;
  hmac_init : option callback; hmac_update : option callback; hmac_final : option callback; hmac_cleanup : option callback;
  digest_init : option callback; digest_update : option callback; digest_final : option callback; digest_cleanup : option callback;
  encrypt_function : option callback; decrypt_function : option callback
}.

Definition no_functions : crypto_functions := {|
  random_function := None; hmac_init := None; hmac_update := None; hmac_final := None; hmac_cleanup := None;
  digest_init := None; digest_update := None; digest_final := None; digest_cleanup := None;
  encrypt_function := None; decrypt_function := None |}.

Record signal_context := mk_context {
  provider : crypto_functions; lock : option callback; unlock : option callback; log : option log_function; context_data : user_data
}.

Definition signal_context_create (data : user_data) : signal_context := mk_context no_functions None None None data.

Definition is_set {A} (f : option A) : bool := match f with Some _ => true | None => false end.

Definition signal_context_set_crypto_provider (p : option crypto_functions) : M signal_context unit :=
  match p with
  | None => fail SG_ERR_INVAL
  | Some f =>
      if is_set (hmac_init f) && is_set (hmac_update f) && is_set (hmac_final f) && is_set (hmac_cleanup f)
      then modify (fun c => mk_context f (lock c) (unlock c) (log c) (context_data c))
      else fail SG_ERR_INVAL
  end.

Definition signal_context_set_locking_functions (l u : option callback) : M signal_context unit :=
  if (is_set l && negb (is_set u)) || (negb (is_set l) && is_set u) then fail SG_ERR_INVAL
  else modify (fun c => mk_context (provider c) l u (log c) (context_data c)).

Definition signal_context_set_log_function (f : option log_function) : M signal_context unit :=
  modify (fun c => mk_context (provider c) (lock c) (unlock c) f (context_data c)).

(** The wrappers assert that their function is set, and call it. *)
Definition provided (f : crypto_functions -> option callback) (c : signal_context) : result callback := deref (f (provider c)).

(** The functions that [signal_lock] and [signal_unlock] call. *)
Definition signal_lock (c : signal_context) : list callback := match lock c with Some f => [f] | None => [] end.
Definition signal_unlock (c : signal_context) : list callback := match unlock c with Some f => [f] | None => [] end.
End context.
Arguments crypto_functions : clear implicits.
Arguments signal_context : clear implicits.

(* ------------------------------------------------------------------ *)
(** ** The context of the stores *)

Section stores.
(** A table of functions of a store: its [destroy_func], and the rest. *)
Context {functions destroy : Type}.

Record store_table := mk_table { table : functions; destroy_func : option destroy }.

(** The stores in the order of the struct; a store that was never set has null functions. *)
Record store_context := mk_stores {
  session_store : option store_table; pre_key_store : option store_table; signed_pre_key_store : option store_table;
  identity_key_store : option store_table; sender_key_store : option store_table
}.

Definition signal_protocol_store_context_create : store_context := mk_stores None None None None None.

Definition set_store (put : store_table -> store_context -> store_context) (store : option store_table) : M store_context unit :=
  match store with None => fail SG_ERR_INVAL | Some t => modify (put t) end.

Definition signal_protocol_store_context_set_session_store : option store_table -> M store_context unit :=
  set_store (fun t c => mk_stores (Some t) (pre_key_store c) (signed_pre_key_store c) (identity_key_store c) (sender_key_store c)).
Definition signal_protocol_store_context_set_pre_key_store : option store_table -> M store_context unit :=
  set_store (fun t c => mk_stores (session_store c) (Some t) (signed_pre_key_store c) (identity_key_store c) (sender_key_store c)).
Definition signal_protocol_store_context_set_signed_pre_key_store : option store_table -> M store_context unit :=
  set_store (fun t c => mk_stores (session_store c) (pre_key_store c) (Some t) (identity_key_store c) (sender_key_store c)).
Definition signal_protocol_store_context_set_identity_key_store : option store_table -> M store_context unit :=
  set_store (fun t c => mk_stores (session_store c) (pre_key_store c) (signed_pre_key_store c) (Some t) (sender_key_store c)).
Definition signal_protocol_store_context_set_sender_key_store : option store_table -> M store_context unit :=
  set_store (fun t c => mk_stores (session_store c) (pre_key_store c) (signed_pre_key_store c) (identity_key_store c) (Some t)).

Definition destroys (s : option store_table) : list destroy :=
  match s with Some t => match destroy_func t with Some f => [f] | None => [] end | None => [] end.

(** The destroy functions, in the order of their calls. *)
Definition signal_protocol_store_context_destroy (c : option store_context) : list destroy :=
  match c with
  | None => []
  | Some c =>
      destroys (session_store c) ++ destroys (pre_key_store c) ++ destroys (signed_pre_key_store c) ++
      destroys (identity_key_store c) ++ destroys (sender_key_store c)
  end.
End stores.
Arguments store_table : clear implicits.
Arguments store_context : clear implicits.

(* ------------------------------------------------------------------ *)
(** ** C strings in protobuf fields *)

(** A C string is read up to its first zero byte; memory without one is not a string. *)
Fixpoint string_at (memory : bytes) : option bytes :=
  match memory with
  | [] => None
  | b :: rest => if byte_val b =? 0 then Some [] else option_map (cons b) (string_at rest)
  end.

Definition signal_protocol_str_serialize_protobuf (str : bytes) : result bytes := deref (string_at str).
(** The allocation of [len + 1] bytes. *)
Definition signal_protocol_str_deserialize_protobuf (data : bytes) : bytes := data ++ [x00].

(* ------------------------------------------------------------------ *)
(** ** Lemmas *)

Inductive use := Ref | Unref.

Definition run_use (i : nat) (u : use) : M heap unit :=
  match u with Ref => signal_type_ref (Some i) | Unref => signal_type_unref (Some i) end.
Fixpoint run_uses (i : nat) (us : list use) : M heap unit :=
  match us with [] => ret tt | u :: us' => exec run_use i u; run_uses i us' end.

(** The holders of an instance after each use; only a holder uses it, and there are fewer than [2 ^ 32]. *)
Fixpoint holders (n : Z) (us : list use) : option Z :=
  match us with
  | [] => Some n
  | Ref :: us' => if (0 <? n) && (n <? 2 ^ 32 - 1) then holders (n + 1) us' else None
  | Unref :: us' => if 0 <? n then holders (n - 1) us' else None
  end.

(** The state of an instance with [n] holders. *)
Definition held (i : nat) (n : Z) (before : list nat) (h : heap) : Prop :=
  if 0 <? n then ref_counts h !! i = Some n /\ destroyed h = before else ref_counts h !! i = None /\ destroyed h = before ++ [i].

(** An instance is destroyed by its last holder, once, and no other use of it goes wrong. *)
Lemma destroyed_by_last_holder i before us n m h : 0 <= n -> held i n before h -> holders n us = Some m ->
  exists h', run_uses i us h = (Ok tt, h') /\ held i m before h' /\ forall j, j <> i -> ref_counts h' !! j = ref_counts h !! j.
Proof.
  revert n h. induction us as [|u us IH]; intros n h Hn Hh Hm; cbn [holders run_uses] in *.
  { injection Hm as <-. by exists h. }
  destruct u; (destruct (Z.ltb_spec 0 n) as [H0|H0]; [|discriminate]); cbn [andb] in Hm; unfold held in Hh; rewrite (proj2 (Z.ltb_lt _ _) H0) in Hh; destruct Hh as [Hc Hd].
  - destruct (Z.ltb_spec n (2 ^ 32 - 1)) as [H1|]; [|discriminate].
    set (h1 := mk_heap (<[i := n + 1]> (ref_counts h)) (destroyed h)).
    assert (run_use i Ref h = (Ok tt, h1)) as E.
    { unfold run_use, signal_type_ref, bind, lift, get, modify. cbn. rewrite Hc. cbn. rewrite (proj2 (Z.ltb_lt _ _) H0). unfold u32. rewrite Z.mod_small by lia. done. }
    rewrite (bind_run _ _ _ _ _ E). destruct (IH (n + 1) h1) as (h' & -> & Hh' & Hj); [lia| |done|].
    + unfold held. rewrite (proj2 (Z.ltb_lt _ _)) by lia. split; [apply lookup_insert_eq|done].
    + exists h'. split_and!; [done..|]. intros j Hne. rewrite Hj by done. by apply lookup_insert_ne.
  - set (h1 := if 1 <? n then mk_heap (<[i := n - 1]> (ref_counts h)) (destroyed h) else mk_heap (delete i (ref_counts h)) (destroyed h ++ [i])).
    assert (run_use i Unref h = (Ok tt, h1)) as E.
    { unfold run_use, signal_type_unref, bind, lift, get, modify. cbn. rewrite Hc. cbn. rewrite (proj2 (Z.ltb_lt _ _) H0). cbn. unfold h1. by destruct (1 <? n). }
    rewrite (bind_run _ _ _ _ _ E). destruct (IH (n - 1) h1) as (h' & -> & Hh' & Hj); [lia| |done|].
    + unfold held, h1. destruct (Z.ltb_spec 1 n), (Z.ltb_spec 0 (n - 1)); try lia; cbn [ref_counts destroyed].
      * split; [apply lookup_insert_eq|done].
      * split; [apply lookup_delete_eq|by rewrite Hd].
    + exists h'. split_and!; [done..|]. intros j Hne. rewrite Hj by done. unfold h1. destruct (1 <? n); cbn [ref_counts]; [by apply lookup_insert_ne|by apply lookup_delete_ne].
Qed.

(** A use after the last holder has released an instance does not return normally. *)
Lemma use_after_release i before h u : held i 0 before h -> (run_use i u h).1 = Stuck.
Proof. intros [Hc _]. unfold run_use. destruct u; unfold signal_type_ref, signal_type_unref, bind, lift, get; cbn; by rewrite Hc. Qed.

(** A copy has the same buffers, when no entry is null and all fit in memory. *)
Lemma signal_buffer_list_copy_same (l : list bytes) : Forall (fun b => signal_buffer_alloc_ok (Z.of_nat (length b)) = true) l ->
  signal_buffer_list_copy (map Some l) = Ok (map Some l).
Proof.
  induction 1 as [|b l Hb _ IH]; [done|]. cbn [map signal_buffer_list_copy deref rbind]. rewrite IH. cbn [rbind].
  unfold signal_buffer_copy, signal_buffer_create. by rewrite Hb.
Qed.

(** The entries of a list are what was pushed, at their index, and no other index can be read. *)
Lemma signal_buffer_list_at_spec (l : list bytes) i : signal_buffer_list_at (foldl signal_buffer_list_push_back signal_buffer_list_alloc (map Some l)) i =
  match l !! i with Some b => Ok b | None => Stuck end.
Proof.
  assert (forall acc, foldl signal_buffer_list_push_back acc (map Some l) = acc ++ map Some l) as ->.
  { induction l as [|b l IH]; intros acc; cbn [map foldl]; [by rewrite app_nil_r|]. rewrite IH. unfold signal_buffer_list_push_back. by rewrite <- app_assoc. }
  unfold signal_buffer_list_at, signal_buffer_list_alloc. pose proof (list_lookup_fmap Some l i : map Some l !! i = _) as E. cbn [app]. setoid_rewrite E. by destruct (l !! i).
Qed.

(** A setter that fails leaves the context; after any sequence of successful or failed setters both
    locking functions are set or none is, and an accepted provider has all HMAC functions. *)
Section invariant.
Context {callback log_function user_data : Type}.

Definition context_ok (c : signal_context callback log_function user_data) : Prop :=
  is_set (lock c) = is_set (unlock c) /\
  (provider c = no_functions \/
   exists a b d e, provided hmac_init c = Ok a /\ provided hmac_update c = Ok b /\ provided hmac_final c = Ok d /\ provided hmac_cleanup c = Ok e).

Lemma context_create_ok data : context_ok (signal_context_create data).
Proof. split; [done|by left]. Qed.

Lemma set_locking_ok l u : preserves context_ok (signal_context_set_locking_functions l u).
Proof.
  intros c [Hl Hp]. unfold signal_context_set_locking_functions. destruct l, u; cbn; (split; [done|exact Hp]) || (split; [exact Hl|exact Hp]).
Qed.

Lemma set_provider_ok p : preserves context_ok (signal_context_set_crypto_provider p).
Proof.
  intros c Hc. unfold signal_context_set_crypto_provider. destruct p as [f|]; [|done].
  destruct (is_set (hmac_init f) && is_set (hmac_update f) && is_set (hmac_final f) && is_set (hmac_cleanup f)) eqn:E; [|done].
  apply andb_prop in E as [E H4]. apply andb_prop in E as [E H3]. apply andb_prop in E as [H1 H2].
  split; [exact (proj1 Hc)|]. right. unfold provided. cbn.
  destruct (hmac_init f), (hmac_update f), (hmac_final f), (hmac_cleanup f); try done. by repeat eexists.
Qed.

Lemma set_log_ok f : preserves context_ok (signal_context_set_log_function f).
Proof. by intros c Hc. Qed.

Lemma lock_paired c : context_ok c -> length (signal_lock c) = length (signal_unlock c).
Proof. intros [Hl _]. unfold signal_lock, signal_unlock. by destruct (lock c), (unlock c). Qed.
End invariant.

(** Strings survive the store. *)
Lemma string_round_trip (s : bytes) : Forall (fun b => byte_val b <> 0) s ->
  signal_protocol_str_serialize_protobuf (signal_protocol_str_deserialize_protobuf s) = Ok s.
Proof.
  intros Hs. unfold signal_protocol_str_serialize_protobuf, signal_protocol_str_deserialize_protobuf.
  assert (string_at (s ++ [x00]) = Some s) as ->; [|done].
  induction Hs as [|b s Hb _ IH]; [done|]. cbn [app string_at]. rewrite (proj2 (Z.eqb_neq _ _) Hb), IH. done.
Qed.
