(* ===== verification/Crypto.v ===== *)
(** The cryptographic interface of the library.

    - [CryptoProvider]: the callbacks of [signal_crypto_provider]
      (signal_protocol.h), reached through the [signal_crypto_random],
      [signal_hmac_sha256_*], [signal_encrypt] and [signal_decrypt] wrappers.
      They are supplied by the application and are parameters here.
    - [Curve25519]: the scalar multiplication and the signature functions of
      the curve25519 directory, used through [curve.c].
    - [CryptoProviderLaws], [Curve25519Laws]: what is documented about them and
      what the agreement and round-trip theorems rely on.
    - [Toy]: a concrete provider and curve satisfying those laws, on which the
      theorems are instantiated and the model evaluated. *)

From S2P Require Import Prelude.

Class CryptoProvider := {
  rng : Type;
  random_func : nat -> rng -> result bytes * rng;
  hmac_context : Type;
  hmac_sha256_init_func : bytes -> result hmac_context;
  hmac_sha256_update_func : hmac_context -> bytes -> result hmac_context;
  hmac_sha256_final_func : hmac_context -> result bytes;
  encrypt_func : Z -> bytes -> bytes -> bytes -> result bytes;
  decrypt_func : Z -> bytes -> bytes -> bytes -> result bytes
}.

Definition SG_CIPHER_AES_CTR_NOPADDING := 1.
Definition SG_CIPHER_AES_CBC_PKCS5 := 2.

Class Curve25519 := {
  (** [curve25519_donna(out, secret, basepoint)]; [None] is a non-zero return. *)
  curve25519_donna : bytes -> bytes -> option bytes;
  (** [curve25519_sign(sig, privkey, msg, random)] *)
  curve25519_sign : bytes -> bytes -> bytes -> result bytes;
  (** [curve25519_verify(sig, pubkey, msg) == 0] *)
  curve25519_verify : bytes -> bytes -> bytes -> bool
}.

(** The SHA-512 callbacks of [signal_crypto_provider]; [final] also prepares the
    context for reuse. *)
Class Sha512Provider := {
  digest_context : Type;
  sha512_digest_init_func : result digest_context;
  sha512_digest_update_func : digest_context -> bytes -> result digest_context;
  sha512_digest_final_func : digest_context -> result (bytes * digest_context)
}.

(** The VRF functions [generalized_xveddsa_25519_sign] and [_verify] of the
    curve25519 directory; [None] is a non-zero return. *)
Class Xveddsa := {
  xveddsa_sign : bytes -> bytes -> bytes -> option bytes;
  xveddsa_verify : bytes -> bytes -> bytes -> option bytes
}.

Section hmac.
Context `{CryptoProvider}.

(** The [update] calls between [init] and [final], stopping at the first
    error. *)
Fixpoint hmac_updates (c : hmac_context) (chunks : list bytes) : result hmac_context :=
  match chunks with
  | [] => Ok c
  | d :: rest => let? c' := hmac_sha256_update_func c d in hmac_updates c' rest
  end.

Definition hmac_rest (c : hmac_context) (chunks : list bytes) : result bytes :=
  let? c' := hmac_updates c chunks in hmac_sha256_final_func c'.

(** [init], [update]s, [final] and [cleanup], with [hmac_context] set to null
    beforehand. *)
Definition hmac_sha256 (key : bytes) (chunks : list bytes) : result bytes :=
  let? c := hmac_sha256_init_func key in hmac_rest c chunks.

(** The same call sequence where [hmac_context] is an uninitialised local: when
    [init] fails, [cleanup] is called on an indeterminate pointer. *)
Definition hmac_sha256_uninit (key : bytes) (chunks : list bytes) : result bytes :=
  match hmac_sha256_init_func key with
  | Ok c => hmac_rest c chunks
  | Err _ | Stuck => Stuck
  end.

End hmac.

(** HMAC-SHA256 is a function of the key and of the concatenation of the
    chunks, of 32 bytes; random bytes come in the requested number; decryption
    inverts encryption under the same cipher, key and IV. *)
Class CryptoProviderLaws (C : CryptoProvider) := {
  HMAC : bytes -> bytes -> bytes;
  HMAC_length : forall k m, length (HMAC k m) = 32%nat;
  hmac_init_ok : forall k, exists c, hmac_sha256_init_func k = Ok c;
  hmac_correct : forall k chunks, hmac_sha256 k chunks = Ok (HMAC k (concat chunks));
  random_length : forall n g b g', random_func n g = (Ok b, g') -> length b = n;
  decrypt_encrypt : forall c k iv pt ct,
    encrypt_func c k iv pt = Ok ct -> decrypt_func c k iv ct = Ok pt
}.

(** X25519 as a Diffie-Hellman function on 32-byte strings. *)
Class Curve25519Laws (C : Curve25519) := {
  donna_length : forall s b out, curve25519_donna s b = Some out -> length out = 32%nat;
  donna_total : forall s b, length s = 32%nat -> length b = 32%nat ->
    exists out, curve25519_donna s b = Some out;
  donna_comm : forall a b base pa pb,
    length a = 32%nat -> length b = 32%nat -> length base = 32%nat ->
    curve25519_donna a base = Some pa -> curve25519_donna b base = Some pb ->
    curve25519_donna a pb = curve25519_donna b pa
}.

(** A clamped scalar, the form in which [curve_generate_private_key] makes
    private keys: a multiple of 8 with bit 254 set and bit 255 clear. *)
Definition clamped (k : bytes) : Prop :=
  exists b0 b31, k !! 0%nat = Some b0 /\ k !! 31%nat = Some b31 /\
    Z.land (byte_val b0) 7 = 0 /\ Z.land (byte_val b31) 192 = 64.

(** XEdDSA: a signature has 64 bytes and verifies under the Montgomery public
    key of the clamped scalar it was made with. *)
Class Curve25519SignatureLaws (C : Curve25519) := {
  sign_verify : forall k pub msg random sig,
    length k = 32%nat -> clamped k -> curve25519_donna k (u8 9 :: repeat x00 31) = Some pub ->
    curve25519_sign k msg random = Ok sig ->
    length sig = 64%nat /\ curve25519_verify sig pub msg = true
}.

(** SHA-512 is a function of the bytes absorbed since [init] or the last
    [final]: [absorbed c m]. *)
Class Sha512Laws (C : Sha512Provider) := {
  SHA512 : bytes -> bytes;
  SHA512_length : forall m, length (SHA512 m) = 64%nat;
  absorbed : digest_context -> bytes -> Prop;
  sha512_init_ok : exists c, sha512_digest_init_func = Ok c /\ absorbed c [];
  sha512_update_ok : forall c m d, absorbed c m ->
    exists c', sha512_digest_update_func c d = Ok c' /\ absorbed c' (m ++ d);
  sha512_final_ok : forall c m, absorbed c m ->
    exists c', sha512_digest_final_func c = Ok (SHA512 m, c') /\ absorbed c' []
}.

(** A VRF signature has 96 bytes and verifies under the public key of the
    clamped scalar it was made with, with an output of 32 bytes. *)
Class XveddsaLaws (V : Xveddsa) (C : Curve25519) := {
  vrf_sign_verify : forall k pub msg random sig,
    length k = 32%nat -> clamped k -> curve25519_donna k (u8 9 :: repeat x00 31) = Some pub ->
    xveddsa_sign k msg random = Some sig ->
    length sig = 96%nat /\ exists out, xveddsa_verify sig pub msg = Some out /\ length out = 32%nat
}.

Section laws.
Context `{CP : CryptoProvider} {CL : CryptoProviderLaws CP}.

Lemma hmac_uninit_correct k chunks :
  hmac_sha256_uninit k chunks = Ok (HMAC k (concat chunks)).
Proof.
  unfold hmac_sha256_uninit. destruct (hmac_init_ok k) as [c Hc].
  pose proof (hmac_correct k chunks) as H. unfold hmac_sha256 in H.
  rewrite Hc in *. exact H.
Qed.

End laws.

(* ------------------------------------------------------------------ *)
(** ** A concrete provider *)

Fixpoint le_bytes (n : nat) (z : Z) : bytes :=
  match n with
  | O => []
  | S n' => u8 z :: le_bytes n' (z / 256)
  end.

Fixpoint le_val (l : bytes) : Z :=
  match l with
  | [] => 0
  | b :: l' => byte_val b + 256 * le_val l'
  end.

Lemma length_le_bytes n z : length (le_bytes n z) = n.
Proof. revert z. induction n; simpl; auto. Qed.

Lemma le_val_le_bytes n z : le_val (le_bytes n z) = z mod 256 ^ Z.of_nat n.
Proof.
  revert z. induction n as [|n IH]; intros z; cbn [le_bytes le_val].
  - by rewrite Z.mod_1_r.
  - rewrite IH, byte_val_u8, Nat2Z.inj_succ, Z.pow_succ_r by lia.
    rewrite Z.rem_mul_r by (try apply Z.pow_pos_nonneg; lia). lia.
Qed.

Lemma le_val_range (b : bytes) : 0 <= le_val b < 256 ^ Z.of_nat (length b).
Proof.
  induction b as [|c b IH]; [done|]. cbn [le_val length]. rewrite Nat2Z.inj_succ, Z.pow_succ_r by lia.
  pose proof (byte_val_range c). lia.
Qed.

Lemma le_bytes_mod n z m : z mod 256 ^ Z.of_nat n = m mod 256 ^ Z.of_nat n ->
  le_bytes n z = le_bytes n m.
Proof.
  revert z m. induction n as [|n IH]; intros z m; cbn [le_bytes]; [done|].
  rewrite Nat2Z.inj_succ, Z.pow_succ_r by lia. intros Hm.
  pose proof (Z.pow_pos_nonneg 256 (Z.of_nat n)).
  rewrite !Z.rem_mul_r in Hm by lia.
  pose proof (Z.mod_pos_bound z 256). pose proof (Z.mod_pos_bound m 256).
  assert (z mod 256 = m mod 256 /\
    (z / 256) mod 256 ^ Z.of_nat n = (m / 256) mod 256 ^ Z.of_nat n) as [Hlo Hhi] by lia.
  f_equal; [|by apply IH]. apply byte_val_inj. by rewrite !byte_val_u8.
Qed.

Module Toy.

Definition mix (h : Z) (b : byte) : Z := (h * 257 + byte_val b + 1) mod 2 ^ 256.
Definition hash (m : bytes) : bytes := le_bytes 32 (fold_left mix m 5381).
Definition shift (k : Z) (m : bytes) : bytes := map (fun b => u8 (byte_val b + k)) m.
Definition key_byte (k : bytes) : Z := byte_val (nth 0 k x00).

End Toy.

Definition ToyCrypto : CryptoProvider := {|
  rng := Z;
  random_func n g := (Ok (le_bytes n (g * 7919 + 104729)), g + 1);
  hmac_context := (bytes * bytes)%type;
  hmac_sha256_init_func k := Ok (k, []);
  hmac_sha256_update_func c d := Ok (c.1, c.2 ++ d);
  hmac_sha256_final_func c := Ok (Toy.hash (c.1 ++ u8 255 :: c.2));
  encrypt_func _ k _ m := Ok (Toy.shift (Toy.key_byte k) m);
  decrypt_func _ k _ m := Ok (Toy.shift (- Toy.key_byte k) m)
|}.

Definition ToyCurve : Curve25519 := {|
  curve25519_donna s b := Some (le_bytes 32 (le_val s * le_val b));
  curve25519_sign k m r := Ok (Toy.hash (k ++ m) ++ Toy.hash m);
  curve25519_verify sig k m := bool_decide (drop 32 sig = Toy.hash m)
|}.

Lemma toy_updates (c : bytes * bytes) chunks :
  @hmac_updates ToyCrypto c chunks = Ok (c.1, c.2 ++ concat chunks).
Proof.
  revert c. induction chunks as [|d rest IH]; intros [k a]; simpl.
  - by rewrite app_nil_r.
  - rewrite IH. simpl. by rewrite app_assoc.
Qed.

Definition ToyCryptoLaws : CryptoProviderLaws ToyCrypto.
Proof.
  refine {| HMAC := fun k m => Toy.hash (k ++ u8 255 :: m) |}.
  - intros k m. apply length_le_bytes.
  - intros k. by eexists.
  - intros k chunks. unfold hmac_sha256, hmac_rest. simpl. by rewrite toy_updates.
  - intros n g b g' H. assert (b = le_bytes n (g * 7919 + 104729)) as -> by (by injection H).
    apply length_le_bytes.
  - intros c k iv pt ct [= <-]. simpl. f_equal. unfold Toy.shift.
    rewrite map_map. rewrite <- (map_id pt) at 2. apply map_ext. intros b.
    apply byte_val_inj. rewrite !byte_val_u8, Zplus_mod_idemp_l.
    replace (byte_val b + Toy.key_byte k + - Toy.key_byte k) with (byte_val b) by lia.
    apply Z.mod_small, byte_val_range.
Defined.

Lemma toy_donna s b out :
  @curve25519_donna ToyCurve s b = Some out -> out = le_bytes 32 (le_val s * le_val b).
Proof. intros H. symmetry. apply (inj Some). exact H. Qed.

Lemma ToyCurveLaws : Curve25519Laws ToyCurve.
Proof.
  split.
  - intros s b out ->%toy_donna. apply length_le_bytes.
  - intros s b _ _. by eexists.
  - intros a b base pa pb _ _ _ ->%toy_donna ->%toy_donna.
    cbn [curve25519_donna ToyCurve]. apply f_equal.
    apply le_bytes_mod. rewrite !le_val_le_bytes.
    rewrite !Zmult_mod_idemp_r. f_equal. lia.
Qed.

Lemma ToyCurveSignatureLaws : Curve25519SignatureLaws ToyCurve.
Proof.
  split. intros k pub msg random sig _ _ _ H.
  assert (sig = Toy.hash (k ++ msg) ++ Toy.hash msg) as -> by (by injection H).
  unfold Toy.hash. rewrite length_app, !length_le_bytes. split; [done|].
  cbn [curve25519_verify ToyCurve]. apply bool_decide_eq_true_2. apply drop_app_length'.
  by rewrite length_le_bytes.
Qed.

Definition ToySha512 : Sha512Provider := {|
  digest_context := bytes;
  sha512_digest_init_func := Ok [];
  sha512_digest_update_func c d := Ok (c ++ d);
  sha512_digest_final_func c := Ok (Toy.hash c ++ Toy.hash (u8 1 :: c), [])
|}.

Definition ToySha512Laws : Sha512Laws ToySha512.
Proof.
  refine {| SHA512 := fun m => Toy.hash m ++ Toy.hash (u8 1 :: m);
    absorbed := (fun c m => c = m) : @digest_context ToySha512 -> bytes -> Prop |}.
  - intros m. rewrite length_app. unfold Toy.hash. by rewrite !length_le_bytes.
  - by eexists.
  - intros c m d ->. by eexists.
  - intros c m ->. by eexists.
Defined.

Definition ToyXveddsa : Xveddsa := {|
  xveddsa_sign k m r := Some (Toy.hash (k ++ m) ++ Toy.hash m ++ Toy.hash (u8 1 :: m));
  xveddsa_verify sig k m :=
    if decide (drop 64 sig = Toy.hash (u8 1 :: m)) then Some (Toy.hash (k ++ m)) else None
|}.

Lemma ToyXveddsaLaws : XveddsaLaws ToyXveddsa ToyCurve.
Proof.
  split. intros k pub msg random sig _ _ _ H.
  assert (sig = Toy.hash (k ++ msg) ++ Toy.hash msg ++ Toy.hash (u8 1 :: msg)) as -> by (by injection H).
  unfold Toy.hash. rewrite !length_app, !length_le_bytes. split; [done|].
  cbn [xveddsa_verify ToyXveddsa]. rewrite decide_True.
  - eexists. split; [done|]. apply length_le_bytes.
  - rewrite app_assoc. apply drop_app_length'. by rewrite length_app, !length_le_bytes.
Qed.
