(* ===== verification/Hkdf.v ===== *)
(** [hkdf.c]: the key derivation used by every ratchet step.

    [hkdf_context] keeps the start offset of the expansion counter, 0 for
    message version 2 and 1 (RFC 5869) for version 3.  The expansion loop counts
    in a [uint8_t]; it is run with fuel 256, the number of values the counter
    can take: a loop still running after 256 rounds never ends, which the model
    answers with [Stuck]. *)

From S2P Require Import Prelude Crypto.

Record hkdf_context := mk_hkdf { iteration_start_offset : Z }.

#[global] Instance hkdf_context_eq_dec : EqDecision hkdf_context.
Proof. solve_decision. Defined.

Definition HASH_OUTPUT_SIZE : nat := 32.

(** On an unknown version the context is freed but the caller's pointer is left
    pointing at it; see [SessionSerial] for the call sites where that matters. *)
Definition hkdf_create (message_version : Z) : result hkdf_context :=
  if message_version =? 2 then Ok (mk_hkdf 0)
  else if message_version =? 3 then Ok (mk_hkdf 1)
  else Err SG_ERR_INVAL.

Definition hkdf_compare (c1 c2 : option hkdf_context) : Z :=
  match c1, c2 with
  | None, None => 0
  | None, Some _ => -1
  | Some _, None => 1
  | Some a, Some b =>
      if iteration_start_offset a <? iteration_start_offset b then -1
      else if iteration_start_offset b <? iteration_start_offset a then 1
      else 0
  end.

Definition opt_chunk (o : option bytes) : list bytes :=
  match o with Some s => [s] | None => [] end.

(** [(int)ceil((double)output_len / 32)].  The division is exact in double
    precision; from 2^36 bytes on the value no longer fits an [int], and then it
    is far above the 255 rounds at which the loop below does not end anyway. *)
Definition hkdf_iterations (output_len : nat) : Z :=
  (Z.of_nat output_len + 31) / 32.

Section hkdf.
Context `{CP : CryptoProvider}.

Definition hkdf_extract (context : hkdf_context) (salt ikm : bytes) : result bytes :=
  hmac_sha256_uninit salt [ikm].

Fixpoint hkdf_expand_loop (fuel : nat) (bound : Z) (prk : bytes) (info : option bytes)
    (i : Z) (step_buffer : option bytes) (result_buf : bytes) (remaining : nat)
    : result bytes :=
  match fuel with
  | O => Stuck
  | S fuel' =>
      if i <? bound then
        let? step := hmac_sha256 prk (opt_chunk step_buffer ++ opt_chunk info ++ [[u8 i]]) in
        let step_size := Nat.min remaining (length step) in
        hkdf_expand_loop fuel' bound prk info ((i + 1) mod 256) (Some step)
          (result_buf ++ take step_size step) (remaining - step_size)
      else Ok result_buf
  end.

Definition hkdf_expand (context : hkdf_context) (prk : bytes) (info : option bytes)
    (output_len : nat) : result bytes :=
  hkdf_expand_loop 256
    (hkdf_iterations output_len + iteration_start_offset context)
    prk info (iteration_start_offset context) None [] output_len.

Definition hkdf_derive_secrets (context : hkdf_context) (ikm salt : bytes)
    (info : option bytes) (output_len : nat) : result bytes :=
  let? prk := hkdf_extract context salt ikm in
  hkdf_expand context prk info output_len.

End hkdf.

(* ------------------------------------------------------------------ *)
(** ** Reference definition and correctness *)

Definition hkdf_wf (c : hkdf_context) : Prop :=
  iteration_start_offset c = 0 \/ iteration_start_offset c = 1.

Lemma hkdf_create_wf v c : hkdf_create v = Ok c -> hkdf_wf c.
Proof.
  unfold hkdf_create, hkdf_wf. destruct (v =? 2); [intros [= <-]; by left|].
  destruct (v =? 3); [intros [= <-]; by right|done].
Qed.

Section spec.
Context `{CP : CryptoProvider} {CL : CryptoProviderLaws CP}.

(** The blocks T(n), T(n+1), ... of RFC 5869, each the HMAC of the previous
    block, the info string and the block number. *)
Fixpoint rfc5869_T (prk info prev : bytes) (first : Z) (n : nat) : list bytes :=
  match n with
  | O => []
  | S n' =>
      let t := HMAC prk (prev ++ info ++ [u8 first]) in
      t :: rfc5869_T prk info t (first + 1) n'
  end.

Definition hkdf_spec (start : Z) (ikm salt info : bytes) (len : nat) : bytes :=
  take len (concat (rfc5869_T (HMAC salt ikm) info [] start (Z.to_nat (hkdf_iterations len)))).

Lemma length_rfc5869_T prk info prev first n :
  length (concat (rfc5869_T prk info prev first n)) = (32 * n)%nat.
Proof.
  revert prev first. induction n as [|n IH]; intros prev first; simpl; [lia|].
  rewrite length_app, IH, HMAC_length. lia.
Qed.

Lemma hkdf_iterations_enough len :
  (len <= 32 * Z.to_nat (hkdf_iterations len))%nat.
Proof.
  unfold hkdf_iterations.
  pose proof (Z.div_mod (Z.of_nat len + 31) 32 ltac:(lia)).
  pose proof (Z.mod_pos_bound (Z.of_nat len + 31) 32 ltac:(lia)). lia.
Qed.

Lemma length_hkdf_spec start ikm salt info len :
  length (hkdf_spec start ikm salt info len) = len.
Proof.
  unfold hkdf_spec. rewrite length_take, length_rfc5869_T.
  pose proof (hkdf_iterations_enough len). lia.
Qed.

(** One round of the loop. *)
Lemma hkdf_expand_loop_step fuel bound prk info i step buf rem :
  i < bound ->
  let t := HMAC prk (concat (opt_chunk step ++ opt_chunk info ++ [[u8 i]])) in
  hkdf_expand_loop (S fuel) bound prk info i step buf rem =
  hkdf_expand_loop fuel bound prk info ((i + 1) mod 256) (Some t)
    (buf ++ take (Nat.min rem 32) t) (rem - Nat.min rem 32).
Proof.
  intros Hi t. cbn [hkdf_expand_loop]. rewrite (proj2 (Z.ltb_lt _ _) Hi).
  rewrite hmac_correct. cbn [rbind]. by rewrite HMAC_length.
Qed.

Lemma hkdf_expand_loop_spec n : forall fuel bound prk info i step buf rem,
  (n < fuel)%nat -> bound = i + Z.of_nat n -> 0 <= i -> bound <= 255 ->
  hkdf_expand_loop fuel bound prk info i step buf rem =
  Ok (buf ++ take rem (concat (rfc5869_T prk (default [] info) (default [] step) i n))).
Proof.
  induction n as [|n IH]; intros fuel bound prk info i step buf rem Hf Hb Hi Hm.
  - destruct fuel as [|fuel]; [lia|]. simpl.
    rewrite (proj2 (Z.ltb_ge _ _)) by lia. by rewrite take_nil, app_nil_r.
  - destruct fuel as [|fuel]; [lia|].
    rewrite hkdf_expand_loop_step by lia.
    rewrite Z.mod_small by lia.
    rewrite (IH _ _ _ _ (i + 1)) by lia. f_equal.
    rewrite <- app_assoc. f_equal. cbn [rfc5869_T concat].
    assert (concat (opt_chunk step ++ opt_chunk info ++ [[u8 i]]) =
            default [] step ++ default [] info ++ [u8 i]) as ->.
    { destruct step, info; simpl; by rewrite ?app_nil_r. }
    set (t := HMAC _ _). cbn [default].
    assert (length t = 32%nat) as Ht by apply HMAC_length.
    rewrite take_app, Ht.
    replace (take rem t) with (take (Nat.min rem 32) t); [do 2 f_equal; lia|].
    destruct (le_lt_dec rem 32); [by rewrite Nat.min_l by lia|].
    rewrite Nat.min_r by lia.
    by rewrite !take_ge by lia.
Qed.

(** When [bound] exceeds 255 the 8-bit counter wraps before it reaches it. *)
Lemma hkdf_expand_loop_diverges fuel bound prk info i step buf rem :
  255 < bound -> 0 <= i < 256 ->
  hkdf_expand_loop fuel bound prk info i step buf rem = Stuck.
Proof.
  intros Hb. revert i step buf rem.
  induction fuel as [|fuel IH]; intros i step buf rem Hi; [done|].
  rewrite hkdf_expand_loop_step by lia. apply IH. apply Z.mod_pos_bound. lia.
Qed.

Lemma hkdf_derive_secrets_ok c ikm salt info len :
  hkdf_wf c -> hkdf_iterations len + iteration_start_offset c <= 255 ->
  hkdf_derive_secrets c ikm salt (Some info) len =
  Ok (hkdf_spec (iteration_start_offset c) ikm salt info len).
Proof.
  intros Hc Hl. unfold hkdf_derive_secrets, hkdf_extract.
  rewrite hmac_uninit_correct. cbn [rbind concat]. rewrite app_nil_r.
  unfold hkdf_expand.
  assert (0 <= hkdf_iterations len) by (apply Z.div_pos; lia).
  rewrite (hkdf_expand_loop_spec (Z.to_nat (hkdf_iterations len)));
    [done|destruct Hc; lia..].
Qed.

End spec.
