(* ===== verification/Curve.v ===== *)
(** [curve.c]: Curve25519 keys, their encodings and comparisons, key
    generation, key agreement and signatures.

    The arrays [uint8_t data[32]] are lists; [pub_wf] and [priv_wf] state that
    they have 32 elements, and every constructor below establishes it. *)

From S2P Require Import Prelude Buffers Crypto.

Definition DJB_TYPE : byte := u8 5.
Definition DJB_KEY_LEN : nat := 32.
Definition CURVE_SIGNATURE_LEN : nat := 64.

Record ec_public_key := mk_pub { pub_data : bytes }.
Record ec_private_key := mk_priv { priv_data : bytes }.
Record ec_key_pair := mk_pair { public_key : ec_public_key; private_key : ec_private_key }.

#[global] Instance ec_public_key_eq_dec : EqDecision ec_public_key.
Proof. solve_decision. Defined.
#[global] Instance ec_private_key_eq_dec : EqDecision ec_private_key.
Proof. solve_decision. Defined.
#[global] Instance ec_key_pair_eq_dec : EqDecision ec_key_pair.
Proof. solve_decision. Defined.

Definition pub_wf (k : ec_public_key) : Prop := length (pub_data k) = DJB_KEY_LEN.
Definition priv_wf (k : ec_private_key) : Prop := length (priv_data k) = DJB_KEY_LEN.
Definition pair_wf (p : ec_key_pair) : Prop := pub_wf (public_key p) /\ priv_wf (private_key p).

Definition curve_decode_point (key_data : bytes) : result ec_public_key :=
  if (0 <? length key_data)%nat && negb (bool_decide (nth 0 key_data x00 = DJB_TYPE))
  then Err SG_ERR_INVALID_KEY
  else if negb (length key_data =? DJB_KEY_LEN + 1)%nat then Err SG_ERR_INVALID_KEY
  else Ok (mk_pub (slice 1 DJB_KEY_LEN key_data)).

Definition ec_public_key_compare (k1 k2 : option ec_public_key) : Z :=
  match k1, k2 with
  | None, None => 0
  | None, Some _ => -1
  | Some _, None => 1
  | Some a, Some b => signal_constant_memcmp (pub_data a) (pub_data b) DJB_KEY_LEN
  end.

Definition ec_public_key_memcmp (k1 k2 : option ec_public_key) : Z :=
  match k1, k2 with
  | None, None => 0
  | None, Some _ => -1
  | Some _, None => 1
  | Some a, Some b => memcmp (take DJB_KEY_LEN (pub_data a)) (take DJB_KEY_LEN (pub_data b))
  end.

Definition ec_public_key_serialize (key : option ec_public_key) : result bytes :=
  match key with
  | None => Err SG_ERR_INVAL
  | Some k => Ok (DJB_TYPE :: take DJB_KEY_LEN (pub_data k))
  end.

Definition ec_public_key_serialize_protobuf (k : ec_public_key) : result bytes :=
  Ok (DJB_TYPE :: take DJB_KEY_LEN (pub_data k)).

Definition curve_decode_private_point (key_data : bytes) : result ec_private_key :=
  if negb (length key_data =? DJB_KEY_LEN)%nat then Err SG_ERR_INVALID_KEY
  else Ok (mk_priv (take DJB_KEY_LEN key_data)).

Definition ec_private_key_compare (k1 k2 : option ec_private_key) : Z :=
  match k1, k2 with
  | None, None => 0
  | None, Some _ => -1
  | Some _, None => 1
  | Some a, Some b => signal_constant_memcmp (priv_data a) (priv_data b) DJB_KEY_LEN
  end.

Definition ec_private_key_serialize (k : ec_private_key) : result bytes :=
  Ok (take DJB_KEY_LEN (priv_data k)).

Definition ec_private_key_serialize_protobuf (k : ec_private_key) : result bytes :=
  Ok (take DJB_KEY_LEN (priv_data k)).

Definition ec_key_pair_create (pub : ec_public_key) (priv : ec_private_key) : result ec_key_pair :=
  Ok (mk_pair pub priv).

Definition ec_key_pair_get_public (p : ec_key_pair) : ec_public_key := public_key p.
Definition ec_key_pair_get_private (p : ec_key_pair) : ec_private_key := private_key p.

(** [data[i] op= m] on a byte array. *)
Definition update_byte (i : nat) (f : Z -> Z) (l : bytes) : bytes :=
  match l !! i with Some b => <[i := u8 (f (byte_val b))]> l | None => l end.

(** The bit twiddling of [curve_generate_private_key]. *)
Definition clamp (d : bytes) : bytes :=
  let d := update_byte 0 (fun b => Z.land b 248) d in
  let d := update_byte 31 (fun b => Z.land b 127) d in
  update_byte 31 (fun b => Z.lor b 64) d.

Section curve.
Context `{CP : CryptoProvider} `{CV : Curve25519}.

Definition basepoint : bytes := u8 9 :: repeat x00 31.

Definition curve_generate_private_key : M rng ec_private_key :=
  do data <- random_func DJB_KEY_LEN;
  ret (mk_priv (clamp data)).

Definition curve_generate_public_key (priv : ec_private_key) : result ec_public_key :=
  match curve25519_donna (priv_data priv) basepoint with
  | Some out => Ok (mk_pub out)
  | None => Err SG_ERR_UNKNOWN
  end.

Definition curve_generate_key_pair : M rng ec_key_pair :=
  do key_private <- curve_generate_private_key;
  do key_public <- lift (curve_generate_public_key key_private);
  lift (ec_key_pair_create key_public key_private).

Definition curve_calculate_agreement (pub : option ec_public_key) (priv : option ec_private_key)
    : result bytes :=
  match pub, priv with
  | Some pk, Some sk =>
      match curve25519_donna (priv_data sk) (pub_data pk) with
      | Some out => Ok out
      | None => Err SG_ERR_UNKNOWN
      end
  | _, _ => Err SG_ERR_INVALID_KEY
  end.

(** 1 for a valid signature, 0 for an invalid one. *)
Definition curve_verify_signature (signing_key : ec_public_key) (message signature : bytes)
    : result bool :=
  if negb (length signature =? CURVE_SIGNATURE_LEN)%nat then Err SG_ERR_INVAL
  else Ok (curve25519_verify signature (pub_data signing_key) message).

Definition curve_calculate_signature (signing_key : ec_private_key) (message : bytes)
    : M rng bytes :=
  do random_data <- random_func CURVE_SIGNATURE_LEN;
  lift (curve25519_sign (priv_data signing_key) message random_data).

(** A public key that belongs to its private key. *)
Definition valid_pair (p : ec_key_pair) : Prop :=
  priv_wf (private_key p) /\
  curve_generate_public_key (private_key p) = Ok (public_key p).

(** A pair that can also sign: the signatures are computed from the clamped
    scalar. *)
Definition signing_pair (p : ec_key_pair) : Prop :=
  valid_pair p /\ clamped (priv_data (private_key p)).

End curve.

(* ------------------------------------------------------------------ *)
(** ** Lemmas *)

Lemma ec_public_key_compare_zero k1 k2 :
  pub_wf k1 -> pub_wf k2 -> ec_public_key_compare (Some k1) (Some k2) = 0 <-> k1 = k2.
Proof.
  intros H1 H2. simpl. rewrite signal_constant_memcmp_zero by done.
  destruct k1, k2; naive_solver.
Qed.

Lemma ec_public_key_compare_refl k : ec_public_key_compare k k = 0.
Proof. destruct k; simpl; [|done]. by apply memcmp_loop_zero. Qed.

(** A key compares equal to at most one well-formed key. *)
Lemma ec_public_key_compare_inj k k1 k2 :
  pub_wf k1 -> pub_wf k2 ->
  ec_public_key_compare k (Some k1) = 0 -> ec_public_key_compare k (Some k2) = 0 -> k1 = k2.
Proof.
  intros H1 H2. destruct k as [k|]; [|done]. simpl. unfold signal_constant_memcmp.
  rewrite !memcmp_loop_zero. intros [_ E1] [_ E2].
  apply ec_public_key_compare_zero; [done|done|]. simpl. unfold signal_constant_memcmp.
  apply memcmp_loop_zero. split; [done|]. intros j Hj. by rewrite <- E1, E2.
Qed.

(** Decoding inverts the encoding of a well-formed key. *)
Lemma curve_decode_serialize k :
  pub_wf k -> rbind (ec_public_key_serialize_protobuf k) curve_decode_point = Ok k.
Proof.
  destruct k as [d]. unfold pub_wf, DJB_KEY_LEN; simpl. intros Hl.
  unfold ec_public_key_serialize_protobuf, curve_decode_point, DJB_KEY_LEN. cbn [rbind pub_data].
  rewrite (bool_decide_eq_true_2 (nth 0 _ _ = DJB_TYPE)) by done.
  rewrite andb_false_r. rewrite take_ge by lia. simpl length. rewrite Hl. simpl.
  unfold slice. cbn [drop]. rewrite drop_0. by rewrite take_ge by lia.
Qed.

Lemma curve_decode_private_serialize k :
  priv_wf k -> rbind (ec_private_key_serialize_protobuf k) curve_decode_private_point = Ok k.
Proof.
  destruct k as [d]. unfold priv_wf, DJB_KEY_LEN; simpl. intros Hl.
  unfold ec_private_key_serialize_protobuf, curve_decode_private_point, DJB_KEY_LEN. cbn [rbind priv_data].
  rewrite (take_ge d) by lia. rewrite Hl. simpl. by rewrite take_ge by lia.
Qed.

(** Whatever the input, a decoded point is well formed and its encoding is the
    input: no two byte strings decode to the same key. *)
Lemma curve_decode_point_ok d k :
  curve_decode_point d = Ok k ->
  pub_wf k /\ d = DJB_TYPE :: pub_data k.
Proof.
  unfold curve_decode_point. destruct d as [|b d]; [done|]. cbn [length nth].
  case_bool_decide; [|done]. rewrite andb_false_r.
  destruct (Nat.eqb_spec (S (length d)) (DJB_KEY_LEN + 1)) as [Hl|]; [|done].
  intros [= <-]. unfold pub_wf, slice. cbn [pub_data drop]. rewrite drop_0.
  rewrite take_ge by (unfold DJB_KEY_LEN in *; lia). subst. split; [unfold DJB_KEY_LEN in *; lia|done].
Qed.

Lemma curve_decode_private_ok d k :
  curve_decode_private_point d = Ok k -> priv_wf k /\ d = priv_data k.
Proof.
  unfold curve_decode_private_point.
  destruct (Nat.eqb_spec (length d) DJB_KEY_LEN) as [Hl|]; [|done]. simpl.
  intros [= <-]. unfold priv_wf. simpl. by rewrite take_ge by lia.
Qed.

Lemma length_update_byte i f l : length (update_byte i f l) = length l.
Proof. unfold update_byte. case_match; [|done]. apply length_insert. Qed.

Lemma length_clamp d : length (clamp d) = length d.
Proof. unfold clamp. by rewrite !length_update_byte. Qed.

Lemma update_byte_lookup i f l b :
  l !! i = Some b -> update_byte i f l !! i = Some (u8 (f (byte_val b))).
Proof.
  intros H. unfold update_byte. rewrite H. apply list_lookup_insert_eq. by eapply lookup_lt_Some.
Qed.

Lemma update_byte_lookup_ne i j f l : i <> j -> update_byte i f l !! j = l !! j.
Proof. intros H. unfold update_byte. case_match; [|done]. by apply list_lookup_insert_ne. Qed.

(** The bits a clamped scalar has fixed: a multiple of 8 with bit 254 set and
    bit 255 clear. *)
Lemma clamp_bits d : length d = 32%nat -> clamped (clamp d).
Proof.
  intros Hd. destruct (lookup_lt_is_Some_2 d 0) as [x Hx]; [lia|].
  destruct (lookup_lt_is_Some_2 d 31) as [y Hy]; [lia|]. unfold clamp.
  eexists _, _. split_and!.
  - rewrite !update_byte_lookup_ne by done. by apply update_byte_lookup.
  - apply update_byte_lookup, update_byte_lookup. by rewrite update_byte_lookup_ne.
  - by destruct x.
  - by destruct y.
Qed.

Section curve_laws.
Context `{CP : CryptoProvider} {CL : CryptoProviderLaws CP}.
Context `{CV : Curve25519} {CVL : Curve25519Laws CV}.

Lemma length_basepoint : length basepoint = 32%nat.
Proof. done. Qed.

Lemma curve_generate_key_pair_valid g p g' :
  curve_generate_key_pair g = (Ok p, g') -> valid_pair p /\ pair_wf p.
Proof.
  unfold curve_generate_key_pair, curve_generate_private_key.
  intros (sk & g1 & Hsk & (pk & g2 & [Hpk ->]%lift_ok & [H ->]%lift_ok)%bind_ok)%bind_ok.
  apply bind_ok in Hsk as (d & g3 & Hd & Hsk). injection Hsk as <- <-.
  injection H as <-. apply random_length in Hd.
  assert (priv_wf (mk_priv (clamp d))) as Hp.
  { unfold priv_wf. cbn [priv_data]. by rewrite length_clamp. }
  split; [done|]. split; [|done].
  unfold curve_generate_public_key in Hpk. case_match; [|done]. injection Hpk as <-.
  by eapply donna_length.
Qed.

(** A generated private key is a clamped random string. *)
Lemma curve_generate_clamped g p g' :
  curve_generate_key_pair g = (Ok p, g') ->
  exists d, length d = 32%nat /\ priv_data (private_key p) = clamp d.
Proof.
  unfold curve_generate_key_pair, curve_generate_private_key.
  intros (sk & g1 & Hsk & (pk & g2 & [Hpk ->]%lift_ok & [H ->]%lift_ok)%bind_ok)%bind_ok.
  apply bind_ok in Hsk as (d & g3 & Hd & Hsk). injection Hsk as <- <-. injection H as <-.
  exists d. split; [by apply random_length in Hd|done].
Qed.

Lemma curve_generate_signing g p g' :
  curve_generate_key_pair g = (Ok p, g') -> signing_pair p.
Proof.
  intros H. split; [exact (proj1 (curve_generate_key_pair_valid _ _ _ H))|].
  apply curve_generate_clamped in H as (d & Hd & ->). exact (clamp_bits d Hd).
Qed.

(** Signatures made with the private key of a pair verify under its public
    key. *)
Lemma signature_verifies {CSL : Curve25519SignatureLaws CV} p m g sig g' :
  signing_pair p -> curve_calculate_signature (private_key p) m g = (Ok sig, g') ->
  length sig = CURVE_SIGNATURE_LEN /\ curve_verify_signature (public_key p) m sig = Ok true.
Proof.
  intros [[Hl Hp] Hc]. unfold curve_generate_public_key in Hp.
  destruct (curve25519_donna (priv_data (private_key p)) basepoint) as [pub|] eqn:E; [|done].
  injection Hp as Hp. unfold curve_calculate_signature.
  intros (r & g1 & _ & [Hs ->]%lift_ok)%bind_ok.
  destruct (sign_verify _ _ _ _ _ Hl Hc E Hs) as [H64 Hv]. split; [done|].
  unfold curve_verify_signature. rewrite H64. simpl. rewrite <- Hp. cbn [pub_data]. by rewrite Hv.
Qed.

Lemma valid_pair_pub_wf p : valid_pair p -> pub_wf (public_key p).
Proof.
  intros [_ H]. unfold curve_generate_public_key in H. case_match; [|done].
  injection H as <-. by eapply donna_length.
Qed.

(** Diffie-Hellman: both ends of two valid key pairs compute the same secret,
    of 32 bytes. *)
Lemma agreement_comm p q :
  valid_pair p -> valid_pair q ->
  exists s, length s = 32%nat /\
    curve_calculate_agreement (Some (public_key q)) (Some (private_key p)) = Ok s /\
    curve_calculate_agreement (Some (public_key p)) (Some (private_key q)) = Ok s.
Proof.
  intros Hp Hq. pose proof (valid_pair_pub_wf p Hp) as Hpw.
  destruct Hp as [Hpp Hp], Hq as [Hqp Hq].
  unfold curve_generate_public_key in *.
  destruct (curve25519_donna (priv_data (private_key p)) basepoint) as [pa|] eqn:Ep; [|done].
  destruct (curve25519_donna (priv_data (private_key q)) basepoint) as [pb|] eqn:Eq; [|done].
  injection Hp as Hp. injection Hq as Hq.
  pose proof (donna_comm _ _ _ _ _ Hpp Hqp length_basepoint Ep Eq) as Hc.
  destruct (donna_total (priv_data (private_key q)) (pub_data (public_key p)))
    as [s Hs]; [done..|].
  exists s. split; [by eapply donna_length|].
  unfold curve_calculate_agreement. rewrite <- Hp, <- Hq in *. simpl in *.
  by rewrite Hc, Hs.
Qed.

End curve_laws.

#[export] Hint Resolve valid_pair_pub_wf : sigdb.
