(* ===== verification/Ratchet.v ===== *)
(** [ratchet.c], first half: chain keys, root keys, message keys, identity key
    pairs and the parameter records of the session set-up.  The functions that
    fill in a [session_state] ([ratcheting_session_*_initialize]) are in
    [RatchetSession].

    A [uint32_t] is a [Z] reduced by [u32] wherever the code computes with it;
    pointers that may be null are options. *)

From S2P Require Import Prelude Buffers Crypto Hkdf Curve.
From Stdlib Require Strings.String.
Import (notations) Strings.String.StringSyntax.
Open Scope string_scope.
Open Scope Z_scope.

(** The characters of a C string constant, without the final null byte. *)
Definition str (s : String.string) : bytes := String.list_byte_of_string s.

Definition DERIVED_MESSAGE_SECRETS_SIZE : nat := 80.
Definition DERIVED_ROOT_SECRETS_SIZE : nat := 64.
Definition RATCHET_CIPHER_KEY_LENGTH : nat := 32.
Definition RATCHET_MAC_KEY_LENGTH : nat := 32.
Definition RATCHET_IV_LENGTH : nat := 16.

Record ratchet_chain_key := mk_chain {
  ck_kdf : hkdf_context; ck_key : bytes; ck_index : Z }.
Record ratchet_root_key := mk_root {
  rk_kdf : hkdf_context; rk_key : bytes }.
Record ratchet_identity_key_pair := mk_identity {
  id_public : ec_public_key; id_private : ec_private_key }.
Record ratchet_message_keys := mk_keys {
  cipher_key : bytes; mac_key : bytes; iv : bytes; counter : Z }.

#[global] Instance ratchet_chain_key_eq_dec : EqDecision ratchet_chain_key.
Proof. solve_decision. Defined.
#[global] Instance ratchet_root_key_eq_dec : EqDecision ratchet_root_key.
Proof. solve_decision. Defined.
#[global] Instance ratchet_identity_key_pair_eq_dec : EqDecision ratchet_identity_key_pair.
Proof. solve_decision. Defined.
#[global] Instance ratchet_message_keys_eq_dec : EqDecision ratchet_message_keys.
Proof. solve_decision. Defined.

Definition ratchet_chain_key_create (kdf : option hkdf_context) (key : option bytes)
    (index : Z) : result ratchet_chain_key :=
  match kdf, key with
  | Some kdf, Some key => Ok (mk_chain kdf key index)
  | _, _ => Err SG_ERR_INVAL
  end.

Definition ratchet_chain_key_get_key (ck : ratchet_chain_key) : result bytes := Ok (ck_key ck).
Definition ratchet_chain_key_get_key_protobuf (ck : ratchet_chain_key) : result bytes :=
  Ok (ck_key ck).
Definition ratchet_chain_key_get_index (ck : ratchet_chain_key) : Z := ck_index ck.

Definition ratchet_root_key_create (kdf : option hkdf_context) (key : option bytes)
    : result ratchet_root_key :=
  match kdf, key with
  | Some kdf, Some key => Ok (mk_root kdf key)
  | _, _ => Err SG_ERR_INVAL
  end.

Definition ratchet_root_key_get_key (rk : ratchet_root_key) : result bytes := Ok (rk_key rk).
Definition ratchet_root_key_get_key_protobuf (rk : ratchet_root_key) : result bytes :=
  Ok (rk_key rk).

Definition ratchet_root_key_compare (key1 key2 : option ratchet_root_key) : Z :=
  match key1, key2 with
  | None, None => 0
  | None, Some _ => -1
  | Some _, None => 1
  | Some a, Some b =>
      let kdf_compare := hkdf_compare (Some (rk_kdf a)) (Some (rk_kdf b)) in
      if negb (kdf_compare =? 0) then kdf_compare
      else if (length (rk_key a) <? length (rk_key b))%nat then -1
      else if (length (rk_key b) <? length (rk_key a))%nat then 1
      else signal_constant_memcmp (rk_key a) (rk_key b) (length (rk_key a))
  end.

Definition ratchet_identity_key_pair_create (pub : ec_public_key) (priv : ec_private_key)
    : result ratchet_identity_key_pair := Ok (mk_identity pub priv).

Section ratchet.
Context `{CP : CryptoProvider} `{CV : Curve25519}.

Definition ratchet_chain_key_get_base_material (ck : ratchet_chain_key) (seed : bytes)
    : result bytes := hmac_sha256 (ck_key ck) [seed].

Definition ratchet_chain_key_get_message_keys (ck : ratchet_chain_key)
    : result ratchet_message_keys :=
  let? input_key_material := ratchet_chain_key_get_base_material ck [u8 1] in
  let? data := hkdf_derive_secrets (ck_kdf ck) input_key_material
      (repeat x00 HASH_OUTPUT_SIZE) (Some (str "WhisperMessageKeys"))
      DERIVED_MESSAGE_SECRETS_SIZE in
  let? _ := ensure SG_ERR_UNKNOWN
      (length data =? RATCHET_CIPHER_KEY_LENGTH + RATCHET_MAC_KEY_LENGTH + RATCHET_IV_LENGTH)%nat in
  Ok {| cipher_key := slice 0 RATCHET_CIPHER_KEY_LENGTH data;
        mac_key := slice RATCHET_CIPHER_KEY_LENGTH RATCHET_MAC_KEY_LENGTH data;
        iv := slice (RATCHET_CIPHER_KEY_LENGTH + RATCHET_MAC_KEY_LENGTH) RATCHET_IV_LENGTH data;
        counter := ck_index ck |}.

Definition ratchet_chain_key_create_next (ck : ratchet_chain_key) : result ratchet_chain_key :=
  let? next_key := ratchet_chain_key_get_base_material ck [u8 2] in
  ratchet_chain_key_create (Some (ck_kdf ck)) (Some next_key) (u32 (ck_index ck + 1)).

Definition ratchet_root_key_create_chain (root_key : ratchet_root_key)
    (their_ratchet_key : option ec_public_key) (our_ratchet_key_private : option ec_private_key)
    : result (ratchet_root_key * ratchet_chain_key) :=
  match their_ratchet_key, our_ratchet_key_private with
  | Some _, Some _ =>
      let? shared_secret := curve_calculate_agreement their_ratchet_key our_ratchet_key_private in
      let? derived := hkdf_derive_secrets (rk_kdf root_key) shared_secret (rk_key root_key)
          (Some (str "WhisperRatchet")) DERIVED_ROOT_SECRETS_SIZE in
      let? _ := ensure SG_ERR_UNKNOWN (length derived =? DERIVED_ROOT_SECRETS_SIZE)%nat in
      let? new_root := ratchet_root_key_create (Some (rk_kdf root_key)) (Some (slice 0 32 derived)) in
      let? new_chain :=
        ratchet_chain_key_create (Some (rk_kdf root_key)) (Some (slice 32 32 derived)) 0 in
      Ok (new_root, new_chain)
  | _, _ => Err SG_ERR_INVAL
  end.

(** Any outcome of [hkdf_derive_secrets] other than 64 bytes is
    [SG_ERR_UNKNOWN] here, its error code included. *)
Definition ratcheting_session_calculate_derived_keys (secret : bytes)
    : result (ratchet_root_key * ratchet_chain_key) :=
  let? kdf := hkdf_create 3 in
  match hkdf_derive_secrets kdf secret (repeat x00 HASH_OUTPUT_SIZE)
      (Some (str "WhisperText")) 64 with
  | Stuck => Stuck
  | Err _ => Err SG_ERR_UNKNOWN
  | Ok output =>
      let? _ := ensure SG_ERR_UNKNOWN (length output =? 64)%nat in
      let? root := ratchet_root_key_create (Some kdf) (Some (slice 0 32 output)) in
      let? chain := ratchet_chain_key_create (Some kdf) (Some (slice 32 32 output)) 0 in
      Ok (root, chain)
  end.

End ratchet.

(* ------------------------------------------------------------------ *)
(** ** Parameters of the session set-up *)

Record symmetric_signal_protocol_parameters := mk_symmetric {
  sym_our_identity_key : ratchet_identity_key_pair;
  sym_our_base_key : ec_key_pair;
  sym_our_ratchet_key : ec_key_pair;
  sym_their_base_key : ec_public_key;
  sym_their_ratchet_key : ec_public_key;
  sym_their_identity_key : ec_public_key }.

Record alice_signal_protocol_parameters := mk_alice {
  alice_our_identity_key : ratchet_identity_key_pair;
  alice_our_base_key : ec_key_pair;
  alice_their_identity_key : ec_public_key;
  alice_their_signed_pre_key : ec_public_key;
  alice_their_one_time_pre_key : option ec_public_key;
  alice_their_ratchet_key : ec_public_key }.

Record bob_signal_protocol_parameters := mk_bob {
  bob_our_identity_key : ratchet_identity_key_pair;
  bob_our_signed_pre_key : ec_key_pair;
  bob_our_one_time_pre_key : option ec_key_pair;
  bob_our_ratchet_key : ec_key_pair;
  bob_their_identity_key : ec_public_key;
  bob_their_base_key : ec_public_key }.

Definition symmetric_signal_protocol_parameters_create
    (our_identity_key : option ratchet_identity_key_pair)
    (our_base_key our_ratchet_key : option ec_key_pair)
    (their_base_key their_ratchet_key their_identity_key : option ec_public_key)
    : result symmetric_signal_protocol_parameters :=
  let? i := require SG_ERR_INVAL our_identity_key in
  let? b := require SG_ERR_INVAL our_base_key in
  let? r := require SG_ERR_INVAL our_ratchet_key in
  let? tb := require SG_ERR_INVAL their_base_key in
  let? tr := require SG_ERR_INVAL their_ratchet_key in
  let? ti := require SG_ERR_INVAL their_identity_key in
  Ok (mk_symmetric i b r tb tr ti).

(** Only [their_one_time_pre_key] is allowed to be null. *)
Definition alice_signal_protocol_parameters_create
    (our_identity_key : option ratchet_identity_key_pair) (our_base_key : option ec_key_pair)
    (their_identity_key their_signed_pre_key their_one_time_pre_key their_ratchet_key
      : option ec_public_key) : result alice_signal_protocol_parameters :=
  let? i := require SG_ERR_INVAL our_identity_key in
  let? b := require SG_ERR_INVAL our_base_key in
  let? ti := require SG_ERR_INVAL their_identity_key in
  let? ts := require SG_ERR_INVAL their_signed_pre_key in
  let? tr := require SG_ERR_INVAL their_ratchet_key in
  Ok (mk_alice i b ti ts their_one_time_pre_key tr).

(** Only [our_one_time_pre_key] is allowed to be null. *)
Definition bob_signal_protocol_parameters_create
    (our_identity_key : option ratchet_identity_key_pair)
    (our_signed_pre_key our_one_time_pre_key our_ratchet_key : option ec_key_pair)
    (their_identity_key their_base_key : option ec_public_key)
    : result bob_signal_protocol_parameters :=
  let? i := require SG_ERR_INVAL our_identity_key in
  let? s := require SG_ERR_INVAL our_signed_pre_key in
  let? r := require SG_ERR_INVAL our_ratchet_key in
  let? ti := require SG_ERR_INVAL their_identity_key in
  let? tb := require SG_ERR_INVAL their_base_key in
  Ok (mk_bob i s our_one_time_pre_key r ti tb).

Definition ratcheting_session_symmetric_is_alice
    (p : symmetric_signal_protocol_parameters) : bool :=
  ec_public_key_memcmp (Some (public_key (sym_our_base_key p))) (Some (sym_their_base_key p)) <? 0.

(* ------------------------------------------------------------------ *)
(** ** What the key derivations compute *)

Definition chain_wf (ck : ratchet_chain_key) : Prop := hkdf_wf (ck_kdf ck) /\ is_u32 (ck_index ck).
Definition root_wf (rk : ratchet_root_key) : Prop := hkdf_wf (rk_kdf rk).

Definition keys_wf (k : ratchet_message_keys) : Prop :=
  length (cipher_key k) = 32%nat /\ length (mac_key k) = 32%nat /\ length (iv k) = 16%nat /\
  is_u32 (counter k).

Section spec.
Context `{CP : CryptoProvider} {CL : CryptoProviderLaws CP} `{CV : Curve25519}.

(** The next link of a chain and the message keys of a link. *)
Definition chain_next (ck : ratchet_chain_key) : ratchet_chain_key :=
  mk_chain (ck_kdf ck) (HMAC (ck_key ck) [u8 2]) (u32 (ck_index ck + 1)).

Definition chain_message_keys (ck : ratchet_chain_key) : ratchet_message_keys :=
  let data := hkdf_spec (iteration_start_offset (ck_kdf ck)) (HMAC (ck_key ck) [u8 1])
                (repeat x00 32) (str "WhisperMessageKeys") 80 in
  mk_keys (slice 0 32 data) (slice 32 32 data) (slice 64 16 data) (ck_index ck).

(** The link [n] steps further. *)
Definition chain_iter (n : nat) (ck : ratchet_chain_key) : ratchet_chain_key :=
  Nat.iter n chain_next ck.

(** A root step on a shared secret. *)
Definition root_step (rk : ratchet_root_key) (secret : bytes)
    : ratchet_root_key * ratchet_chain_key :=
  let derived := hkdf_spec (iteration_start_offset (rk_kdf rk)) secret (rk_key rk)
                   (str "WhisperRatchet") 64 in
  (mk_root (rk_kdf rk) (slice 0 32 derived), mk_chain (rk_kdf rk) (slice 32 32 derived) 0).

(** The keys derived from the master secret of the X3DH agreement. *)
Definition derived_keys (secret : bytes) : ratchet_root_key * ratchet_chain_key :=
  let output := hkdf_spec 1 secret (repeat x00 32) (str "WhisperText") 64 in
  (mk_root (mk_hkdf 1) (slice 0 32 output), mk_chain (mk_hkdf 1) (slice 32 32 output) 0).

Lemma hkdf_bound c len : hkdf_wf c -> (len <= 256)%nat ->
  hkdf_iterations len + iteration_start_offset c <= 255.
Proof.
  intros Hc Hl. unfold hkdf_iterations.
  pose proof (Z.div_le_mono (Z.of_nat len + 31) 300 32). change (300 / 32) with 9 in *.
  destruct Hc; lia.
Qed.

(** Every derivation of this file asks for at most 80 bytes. *)
Lemma hkdf_derive_small c ikm salt info len :
  hkdf_wf c -> (len <= 256)%nat ->
  hkdf_derive_secrets c ikm salt (Some info) len =
  Ok (hkdf_spec (iteration_start_offset c) ikm salt info len).
Proof. intros Hc Hl. apply hkdf_derive_secrets_ok; [done|by apply hkdf_bound]. Qed.

Lemma get_message_keys_ok ck :
  chain_wf ck -> ratchet_chain_key_get_message_keys ck = Ok (chain_message_keys ck).
Proof.
  intros [Hk _]. unfold ratchet_chain_key_get_message_keys, ratchet_chain_key_get_base_material.
  rewrite hmac_correct. cbn [rbind concat]. rewrite app_nil_r.
  rewrite hkdf_derive_small by (done || unfold DERIVED_MESSAGE_SECRETS_SIZE; lia).
  cbn [rbind]. by rewrite length_hkdf_spec.
Qed.

Lemma create_next_ok ck : ratchet_chain_key_create_next ck = Ok (chain_next ck).
Proof.
  unfold ratchet_chain_key_create_next, ratchet_chain_key_get_base_material.
  rewrite hmac_correct. cbn [rbind concat]. by rewrite app_nil_r.
Qed.

Lemma create_chain_ok rk pk sk secret :
  root_wf rk -> curve_calculate_agreement (Some pk) (Some sk) = Ok secret ->
  ratchet_root_key_create_chain rk (Some pk) (Some sk) = Ok (root_step rk secret).
Proof.
  intros Hk Ha. unfold ratchet_root_key_create_chain. rewrite Ha. cbn [rbind].
  rewrite hkdf_derive_small by (done || unfold DERIVED_ROOT_SECRETS_SIZE; lia).
  cbn [rbind]. by rewrite length_hkdf_spec.
Qed.

Lemma create_chain_inv rk pk sk r :
  root_wf rk -> ratchet_root_key_create_chain rk (Some pk) (Some sk) = Ok r ->
  exists secret, r = root_step rk secret.
Proof.
  intros Hk H. destruct (curve_calculate_agreement (Some pk) (Some sk)) as [secret| |] eqn:E.
  - rewrite (create_chain_ok rk pk sk secret Hk E) in H. injection H as <-. eauto.
  - unfold ratchet_root_key_create_chain in H. by rewrite E in H.
  - unfold ratchet_root_key_create_chain in H. by rewrite E in H.
Qed.

Lemma calculate_derived_keys_ok secret :
  ratcheting_session_calculate_derived_keys secret = Ok (derived_keys secret).
Proof.
  unfold ratcheting_session_calculate_derived_keys. cbn [hkdf_create rbind].
  change (hkdf_create 3) with (Ok (mk_hkdf 1)). cbn [rbind].
  rewrite hkdf_derive_small by (lia || (by right)).
  by rewrite length_hkdf_spec.
Qed.

Lemma chain_next_wf ck : chain_wf ck -> chain_wf (chain_next ck).
Proof. intros [Hk _]. split; [done|apply u32_range]. Qed.

Lemma chain_iter_wf n ck : chain_wf ck -> chain_wf (chain_iter n ck).
Proof. intros H. induction n; [done|]. by apply chain_next_wf. Qed.

Lemma chain_iter_kdf n ck : ck_kdf (chain_iter n ck) = ck_kdf ck.
Proof. induction n as [|n IH]; [done|]. exact IH. Qed.

Lemma chain_iter_index n ck :
  chain_wf ck -> ck_index (chain_iter n ck) = u32 (ck_index ck + Z.of_nat n).
Proof.
  intros [_ H]. induction n as [|n IH].
  - rewrite Z.add_0_r. symmetry. by apply u32_id.
  - change (u32 (ck_index (chain_iter n ck) + 1) = u32 (ck_index ck + Z.of_nat (S n))).
    rewrite IH. unfold u32. rewrite Zplus_mod_idemp_l. f_equal. lia.
Qed.

Lemma chain_iter_S n ck : chain_iter n (chain_next ck) = chain_iter (S n) ck.
Proof. unfold chain_iter. by rewrite <- Nat.iter_succ_r. Qed.

Lemma chain_iter_add n m ck : chain_iter n (chain_iter m ck) = chain_iter (n + m) ck.
Proof. unfold chain_iter. symmetry. apply Nat.iter_add. Qed.

Lemma chain_message_keys_wf ck : chain_wf ck -> keys_wf (chain_message_keys ck).
Proof.
  intros [_ H]. unfold keys_wf, chain_message_keys; cbn [cipher_key mac_key iv counter].
  rewrite !length_slice by (rewrite length_hkdf_spec; lia). done.
Qed.

Lemma root_step_wf rk secret : root_wf rk -> root_wf (root_step rk secret).1 /\ chain_wf (root_step rk secret).2.
Proof. intros H. split; [done|]. split; [done|]. unfold is_u32; simpl; lia. Qed.

Lemma derived_keys_wf secret : root_wf (derived_keys secret).1 /\ chain_wf (derived_keys secret).2.
Proof. split; [by right|]. split; [by right|]. unfold is_u32; simpl; lia. Qed.

End spec.

#[export] Hint Resolve chain_next_wf chain_iter_wf chain_message_keys_wf : sigdb.
