(* ===== verification/SessionState.v ===== *)
(** [session_state.c], the in-memory half: the state of one session, with its
    sender chain, its bounded list of receiver chains and the bounded list of
    skipped message keys of each chain.  Serialization is in [SessionSerial].

    The fields are those of [struct session_state]; pointers that may be null
    are options, the intrusive [utlist] lists are lists in list order. *)

From S2P Require Import Prelude Crypto Hkdf Curve Ratchet.

Definition MAX_MESSAGE_KEYS : nat := 2000.
Definition MAX_RECEIVER_CHAINS : nat := 5.

Record session_state_sender_chain := mk_sender_chain {
  sender_ratchet_key_pair : option ec_key_pair;
  sc_chain_key : option ratchet_chain_key }.

Record session_state_receiver_chain := mk_receiver_chain {
  rc_sender_ratchet_key : option ec_public_key;
  rc_chain_key : option ratchet_chain_key;
  rc_message_keys : list ratchet_message_keys }.

Record session_pending_key_exchange := mk_exchange {
  sequence : Z;
  local_base_key : option ec_key_pair;
  local_ratchet_key : option ec_key_pair;
  local_identity_key : option ratchet_identity_key_pair }.

Record session_pending_pre_key := mk_pending_pre_key {
  has_pre_key_id : bool;
  pre_key_id : Z;
  signed_pre_key_id : Z;
  base_key : option ec_public_key }.

(** [memset(&state->pending_pre_key, 0, ...)] *)
Definition empty_pending_pre_key : session_pending_pre_key :=
  mk_pending_pre_key false 0 0 None.

Record session_state := mk_session_state {
  session_version : Z;
  local_identity_public : option ec_public_key;
  remote_identity_public : option ec_public_key;
  root_key : option ratchet_root_key;
  previous_counter : Z;
  has_sender_chain : bool;
  sender_chain : session_state_sender_chain;
  receiver_chains : list session_state_receiver_chain;
  has_pending_key_exchange : bool;
  pending_key_exchange : session_pending_key_exchange;
  has_pending_pre_key : bool;
  pending_pre_key : session_pending_pre_key;
  remote_registration_id : Z;
  local_registration_id : Z;
  needs_refresh : Z;
  alice_base_key : option ec_public_key }.

#[global] Instance session_state_sender_chain_eq_dec : EqDecision session_state_sender_chain.
Proof. solve_decision. Defined.
#[global] Instance session_state_receiver_chain_eq_dec : EqDecision session_state_receiver_chain.
Proof. solve_decision. Defined.
#[global] Instance session_pending_key_exchange_eq_dec : EqDecision session_pending_key_exchange.
Proof. solve_decision. Defined.
#[global] Instance session_pending_pre_key_eq_dec : EqDecision session_pending_pre_key.
Proof. solve_decision. Defined.
#[global] Instance session_state_eq_dec : EqDecision session_state.
Proof. solve_decision. Defined.

Definition session_state_create : session_state :=
  {| session_version := 2; local_identity_public := None;
     remote_identity_public := None; root_key := None;
     previous_counter := 0; has_sender_chain := false;
     sender_chain := mk_sender_chain None None; receiver_chains := [];
     has_pending_key_exchange := false; pending_key_exchange := mk_exchange 0 None None None;
     has_pending_pre_key := false; pending_pre_key := empty_pending_pre_key;
     remote_registration_id := 0; local_registration_id := 0;
     needs_refresh := 0; alice_base_key := None |}.

Definition session_state_set_session_version (version : Z) (s : session_state) : session_state :=
  {| session_version := version; local_identity_public := local_identity_public s;
     remote_identity_public := remote_identity_public s; root_key := root_key s;
     previous_counter := previous_counter s; has_sender_chain := has_sender_chain s;
     sender_chain := sender_chain s; receiver_chains := receiver_chains s;
     has_pending_key_exchange := has_pending_key_exchange s; pending_key_exchange := pending_key_exchange s;
     has_pending_pre_key := has_pending_pre_key s; pending_pre_key := pending_pre_key s;
     remote_registration_id := remote_registration_id s; local_registration_id := local_registration_id s;
     needs_refresh := needs_refresh s; alice_base_key := alice_base_key s |}.

Definition session_state_set_local_identity_key (identity_key : ec_public_key) (s : session_state) : session_state :=
  {| session_version := session_version s; local_identity_public := Some identity_key;
     remote_identity_public := remote_identity_public s; root_key := root_key s;
     previous_counter := previous_counter s; has_sender_chain := has_sender_chain s;
     sender_chain := sender_chain s; receiver_chains := receiver_chains s;
     has_pending_key_exchange := has_pending_key_exchange s; pending_key_exchange := pending_key_exchange s;
     has_pending_pre_key := has_pending_pre_key s; pending_pre_key := pending_pre_key s;
     remote_registration_id := remote_registration_id s; local_registration_id := local_registration_id s;
     needs_refresh := needs_refresh s; alice_base_key := alice_base_key s |}.

Definition session_state_set_remote_identity_key (identity_key : ec_public_key) (s : session_state) : session_state :=
  {| session_version := session_version s; local_identity_public := local_identity_public s;
     remote_identity_public := Some identity_key; root_key := root_key s;
     previous_counter := previous_counter s; has_sender_chain := has_sender_chain s;
     sender_chain := sender_chain s; receiver_chains := receiver_chains s;
     has_pending_key_exchange := has_pending_key_exchange s; pending_key_exchange := pending_key_exchange s;
     has_pending_pre_key := has_pending_pre_key s; pending_pre_key := pending_pre_key s;
     remote_registration_id := remote_registration_id s; local_registration_id := local_registration_id s;
     needs_refresh := needs_refresh s; alice_base_key := alice_base_key s |}.

Definition session_state_set_root_key (rk : ratchet_root_key) (s : session_state) : session_state :=
  {| session_version := session_version s; local_identity_public := local_identity_public s;
     remote_identity_public := remote_identity_public s; root_key := Some rk;
     previous_counter := previous_counter s; has_sender_chain := has_sender_chain s;
     sender_chain := sender_chain s; receiver_chains := receiver_chains s;
     has_pending_key_exchange := has_pending_key_exchange s; pending_key_exchange := pending_key_exchange s;
     has_pending_pre_key := has_pending_pre_key s; pending_pre_key := pending_pre_key s;
     remote_registration_id := remote_registration_id s; local_registration_id := local_registration_id s;
     needs_refresh := needs_refresh s; alice_base_key := alice_base_key s |}.

Definition session_state_set_previous_counter (c : Z) (s : session_state) : session_state :=
  {| session_version := session_version s; local_identity_public := local_identity_public s;
     remote_identity_public := remote_identity_public s; root_key := root_key s;
     previous_counter := c; has_sender_chain := has_sender_chain s;
     sender_chain := sender_chain s; receiver_chains := receiver_chains s;
     has_pending_key_exchange := has_pending_key_exchange s; pending_key_exchange := pending_key_exchange s;
     has_pending_pre_key := has_pending_pre_key s; pending_pre_key := pending_pre_key s;
     remote_registration_id := remote_registration_id s; local_registration_id := local_registration_id s;
     needs_refresh := needs_refresh s; alice_base_key := alice_base_key s |}.

Definition session_state_set_sender_chain (pair : ec_key_pair) (ck : ratchet_chain_key) (s : session_state) : session_state :=
  {| session_version := session_version s; local_identity_public := local_identity_public s;
     remote_identity_public := remote_identity_public s; root_key := root_key s;
     previous_counter := previous_counter s; has_sender_chain := true;
     sender_chain := mk_sender_chain (Some pair) (Some ck); receiver_chains := receiver_chains s;
     has_pending_key_exchange := has_pending_key_exchange s; pending_key_exchange := pending_key_exchange s;
     has_pending_pre_key := has_pending_pre_key s; pending_pre_key := pending_pre_key s;
     remote_registration_id := remote_registration_id s; local_registration_id := local_registration_id s;
     needs_refresh := needs_refresh s; alice_base_key := alice_base_key s |}.

(** Writing the list of receiver chains back after a node was changed. *)
Definition with_receiver_chains (l : list session_state_receiver_chain) (s : session_state) : session_state :=
  {| session_version := session_version s; local_identity_public := local_identity_public s;
     remote_identity_public := remote_identity_public s; root_key := root_key s;
     previous_counter := previous_counter s; has_sender_chain := has_sender_chain s;
     sender_chain := sender_chain s; receiver_chains := l;
     has_pending_key_exchange := has_pending_key_exchange s; pending_key_exchange := pending_key_exchange s;
     has_pending_pre_key := has_pending_pre_key s; pending_pre_key := pending_pre_key s;
     remote_registration_id := remote_registration_id s; local_registration_id := local_registration_id s;
     needs_refresh := needs_refresh s; alice_base_key := alice_base_key s |}.

(** [state->sender_chain.chain_key = chain_key] *)
Definition with_sender_chain_key (ck : ratchet_chain_key) (s : session_state) : session_state :=
  {| session_version := session_version s; local_identity_public := local_identity_public s;
     remote_identity_public := remote_identity_public s; root_key := root_key s;
     previous_counter := previous_counter s; has_sender_chain := has_sender_chain s;
     sender_chain := mk_sender_chain (sender_ratchet_key_pair (sender_chain s)) (Some ck); receiver_chains := receiver_chains s;
     has_pending_key_exchange := has_pending_key_exchange s; pending_key_exchange := pending_key_exchange s;
     has_pending_pre_key := has_pending_pre_key s; pending_pre_key := pending_pre_key s;
     remote_registration_id := remote_registration_id s; local_registration_id := local_registration_id s;
     needs_refresh := needs_refresh s; alice_base_key := alice_base_key s |}.

Definition session_state_set_pending_key_exchange (seq : Z)
    (our_base_key our_ratchet_key : ec_key_pair) (our_identity_key : ratchet_identity_key_pair) (s : session_state) : session_state :=
  {| session_version := session_version s; local_identity_public := local_identity_public s;
     remote_identity_public := remote_identity_public s; root_key := root_key s;
     previous_counter := previous_counter s; has_sender_chain := has_sender_chain s;
     sender_chain := sender_chain s; receiver_chains := receiver_chains s;
     has_pending_key_exchange := true; pending_key_exchange := mk_exchange seq (Some our_base_key) (Some our_ratchet_key) (Some our_identity_key);
     has_pending_pre_key := has_pending_pre_key s; pending_pre_key := pending_pre_key s;
     remote_registration_id := remote_registration_id s; local_registration_id := local_registration_id s;
     needs_refresh := needs_refresh s; alice_base_key := alice_base_key s |}.

Definition session_state_set_unacknowledged_pre_key_message (id : option Z)
    (signed_id : Z) (bk : ec_public_key) (s : session_state) : session_state :=
  {| session_version := session_version s; local_identity_public := local_identity_public s;
     remote_identity_public := remote_identity_public s; root_key := root_key s;
     previous_counter := previous_counter s; has_sender_chain := has_sender_chain s;
     sender_chain := sender_chain s; receiver_chains := receiver_chains s;
     has_pending_key_exchange := has_pending_key_exchange s; pending_key_exchange := pending_key_exchange s;
     has_pending_pre_key := true; pending_pre_key := match id with
     | Some i => mk_pending_pre_key true i signed_id (Some bk)
     | None => mk_pending_pre_key false 0 signed_id (Some bk)
     end;
     remote_registration_id := remote_registration_id s; local_registration_id := local_registration_id s;
     needs_refresh := needs_refresh s; alice_base_key := alice_base_key s |}.

Definition session_state_clear_unacknowledged_pre_key_message  (s : session_state) : session_state :=
  {| session_version := session_version s; local_identity_public := local_identity_public s;
     remote_identity_public := remote_identity_public s; root_key := root_key s;
     previous_counter := previous_counter s; has_sender_chain := has_sender_chain s;
     sender_chain := sender_chain s; receiver_chains := receiver_chains s;
     has_pending_key_exchange := has_pending_key_exchange s; pending_key_exchange := pending_key_exchange s;
     has_pending_pre_key := false; pending_pre_key := empty_pending_pre_key;
     remote_registration_id := remote_registration_id s; local_registration_id := local_registration_id s;
     needs_refresh := needs_refresh s; alice_base_key := alice_base_key s |}.

Definition session_state_set_remote_registration_id (id : Z) (s : session_state) : session_state :=
  {| session_version := session_version s; local_identity_public := local_identity_public s;
     remote_identity_public := remote_identity_public s; root_key := root_key s;
     previous_counter := previous_counter s; has_sender_chain := has_sender_chain s;
     sender_chain := sender_chain s; receiver_chains := receiver_chains s;
     has_pending_key_exchange := has_pending_key_exchange s; pending_key_exchange := pending_key_exchange s;
     has_pending_pre_key := has_pending_pre_key s; pending_pre_key := pending_pre_key s;
     remote_registration_id := id; local_registration_id := local_registration_id s;
     needs_refresh := needs_refresh s; alice_base_key := alice_base_key s |}.

Definition session_state_set_local_registration_id (id : Z) (s : session_state) : session_state :=
  {| session_version := session_version s; local_identity_public := local_identity_public s;
     remote_identity_public := remote_identity_public s; root_key := root_key s;
     previous_counter := previous_counter s; has_sender_chain := has_sender_chain s;
     sender_chain := sender_chain s; receiver_chains := receiver_chains s;
     has_pending_key_exchange := has_pending_key_exchange s; pending_key_exchange := pending_key_exchange s;
     has_pending_pre_key := has_pending_pre_key s; pending_pre_key := pending_pre_key s;
     remote_registration_id := remote_registration_id s; local_registration_id := id;
     needs_refresh := needs_refresh s; alice_base_key := alice_base_key s |}.

Definition session_state_set_needs_refresh (value : Z) (s : session_state) : session_state :=
  {| session_version := session_version s; local_identity_public := local_identity_public s;
     remote_identity_public := remote_identity_public s; root_key := root_key s;
     previous_counter := previous_counter s; has_sender_chain := has_sender_chain s;
     sender_chain := sender_chain s; receiver_chains := receiver_chains s;
     has_pending_key_exchange := has_pending_key_exchange s; pending_key_exchange := pending_key_exchange s;
     has_pending_pre_key := has_pending_pre_key s; pending_pre_key := pending_pre_key s;
     remote_registration_id := remote_registration_id s; local_registration_id := local_registration_id s;
     needs_refresh := value; alice_base_key := alice_base_key s |}.

Definition session_state_set_alice_base_key (key : ec_public_key) (s : session_state) : session_state :=
  {| session_version := session_version s; local_identity_public := local_identity_public s;
     remote_identity_public := remote_identity_public s; root_key := root_key s;
     previous_counter := previous_counter s; has_sender_chain := has_sender_chain s;
     sender_chain := sender_chain s; receiver_chains := receiver_chains s;
     has_pending_key_exchange := has_pending_key_exchange s; pending_key_exchange := pending_key_exchange s;
     has_pending_pre_key := has_pending_pre_key s; pending_pre_key := pending_pre_key s;
     remote_registration_id := remote_registration_id s; local_registration_id := local_registration_id s;
     needs_refresh := needs_refresh s; alice_base_key := Some key |}.

(* ------------------------------------------------------------------ *)
(** ** Accessors *)

Definition session_state_get_sender_ratchet_key (s : session_state) : option ec_public_key :=
  public_key <$> sender_ratchet_key_pair (sender_chain s).

Definition session_state_get_sender_ratchet_key_pair (s : session_state) : option ec_key_pair :=
  sender_ratchet_key_pair (sender_chain s).

Definition session_state_get_sender_chain_key (s : session_state) : option ratchet_chain_key :=
  sc_chain_key (sender_chain s).

Definition session_state_set_sender_chain_key (ck : ratchet_chain_key) : M session_state unit :=
  fun s => if has_sender_chain s then (Ok tt, with_sender_chain_key ck s)
           else (Err SG_ERR_UNKNOWN, s).

Definition session_state_get_pending_key_exchange_sequence (s : session_state) : Z :=
  if has_pending_key_exchange s then sequence (pending_key_exchange s) else 0.
Definition session_state_get_pending_key_exchange_base_key (s : session_state) : option ec_key_pair :=
  if has_pending_key_exchange s then local_base_key (pending_key_exchange s) else None.
Definition session_state_get_pending_key_exchange_ratchet_key (s : session_state) : option ec_key_pair :=
  if has_pending_key_exchange s then local_ratchet_key (pending_key_exchange s) else None.
Definition session_state_get_pending_key_exchange_identity_key (s : session_state)
    : option ratchet_identity_key_pair :=
  if has_pending_key_exchange s then local_identity_key (pending_key_exchange s) else None.

(* ------------------------------------------------------------------ *)
(** ** Receiver chains and skipped message keys *)

(** The test of [session_state_find_receiver_chain]. *)
Definition is_chain_of (k : ec_public_key) (c : session_state_receiver_chain) : bool :=
  ec_public_key_compare (rc_sender_ratchet_key c) (Some k) =? 0.

Definition session_state_find_receiver_chain (s : session_state) (k : ec_public_key)
    : option session_state_receiver_chain :=
  find_first (is_chain_of k) (receiver_chains s).

Definition session_state_get_receiver_chain_key (s : session_state) (k : ec_public_key)
    : option ratchet_chain_key :=
  match session_state_find_receiver_chain s k with
  | Some node => rc_chain_key node
  | None => None
  end.

(** The test of the searches for a counter. *)
Definition has_counter (n : Z) (k : ratchet_message_keys) : bool := counter k =? n.

Definition session_state_has_message_keys (s : session_state) (k : ec_public_key) (n : Z) : bool :=
  match session_state_find_receiver_chain s k with
  | None => false
  | Some chain => match find_first (has_counter n) (rc_message_keys chain) with
                  | Some _ => true | None => false end
  end.

Definition with_message_keys (l : list ratchet_message_keys) (c : session_state_receiver_chain)
    : session_state_receiver_chain :=
  mk_receiver_chain (rc_sender_ratchet_key c) (rc_chain_key c) l.

Definition with_chain_key (ck : ratchet_chain_key) (c : session_state_receiver_chain)
    : session_state_receiver_chain :=
  mk_receiver_chain (rc_sender_ratchet_key c) (Some ck) (rc_message_keys c).

(** [Some keys] is a return value of 1 with the keys copied out. *)
Definition session_state_remove_message_keys (k : ec_public_key) (n : Z) (s : session_state)
    : option ratchet_message_keys * session_state :=
  match session_state_find_receiver_chain s k with
  | None => (None, s)
  | Some chain =>
      match find_first (has_counter n) (rc_message_keys chain) with
      | None => (None, s)
      | Some keys =>
          (Some keys,
           with_receiver_chains
             (update_first (is_chain_of k)
                (with_message_keys (remove_first (has_counter n) (rc_message_keys chain)))
                (receiver_chains s)) s)
      end
  end.

Definition session_state_set_message_keys (k : ec_public_key) (keys : ratchet_message_keys)
    : M session_state unit := fun s =>
  match session_state_find_receiver_chain s k with
  | None => (Ok tt, s)
  | Some chain =>
      (Ok tt,
       with_receiver_chains
         (update_first (is_chain_of k)
            (with_message_keys (append_bounded MAX_MESSAGE_KEYS (rc_message_keys chain) keys))
            (receiver_chains s)) s)
  end.

Definition session_state_add_receiver_chain (k : ec_public_key) (ck : ratchet_chain_key)
    : M session_state unit := fun s =>
  (Ok tt, with_receiver_chains
            (append_bounded MAX_RECEIVER_CHAINS (receiver_chains s)
               (mk_receiver_chain (Some k) (Some ck) [])) s).

Definition session_state_set_receiver_chain_key (k : ec_public_key) (ck : ratchet_chain_key)
    : M session_state unit := fun s =>
  match session_state_find_receiver_chain s k with
  | None => (Err SG_ERR_UNKNOWN, s)
  | Some _ =>
      (Ok tt, with_receiver_chains
                (update_first (is_chain_of k) (with_chain_key ck) (receiver_chains s)) s)
  end.

(* ------------------------------------------------------------------ *)
(** ** The invariant of a session state *)

Definition opt_all {A} (P : A -> Prop) (o : option A) : Prop :=
  match o with Some a => P a | None => True end.

Definition identity_wf (p : ratchet_identity_key_pair) : Prop :=
  pub_wf (id_public p) /\ priv_wf (id_private p).

Definition sender_chain_wf (c : session_state_sender_chain) : Prop :=
  opt_all pair_wf (sender_ratchet_key_pair c) /\ opt_all chain_wf (sc_chain_key c).

Definition receiver_chain_wf (c : session_state_receiver_chain) : Prop :=
  opt_all pub_wf (rc_sender_ratchet_key c) /\ opt_all chain_wf (rc_chain_key c) /\
  Forall keys_wf (rc_message_keys c) /\ (length (rc_message_keys c) <= MAX_MESSAGE_KEYS)%nat.

Definition exchange_wf (e : session_pending_key_exchange) : Prop :=
  is_u32 (sequence e) /\ opt_all pair_wf (local_base_key e) /\
  opt_all pair_wf (local_ratchet_key e) /\ opt_all identity_wf (local_identity_key e).

Definition pending_wf (p : session_pending_pre_key) : Prop :=
  is_u32 (pre_key_id p) /\ is_u32 (signed_pre_key_id p) /\ opt_all pub_wf (base_key p) /\
  (has_pre_key_id p = false -> pre_key_id p = 0).

(** Types and bounds: keys have their lengths, 32-bit fields are in range, at
    most five receiver chains, at most 2000 skipped keys in each. *)
Record state_wf (s : session_state) : Prop := {
  wf_version : is_u32 (session_version s);
  wf_local : opt_all pub_wf (local_identity_public s);
  wf_remote : opt_all pub_wf (remote_identity_public s);
  wf_root : opt_all root_wf (root_key s);
  wf_previous : is_u32 (previous_counter s);
  wf_sender : sender_chain_wf (sender_chain s);
  wf_receivers : Forall receiver_chain_wf (receiver_chains s);
  wf_receivers_len : (length (receiver_chains s) <= MAX_RECEIVER_CHAINS)%nat;
  wf_exchange : exchange_wf (pending_key_exchange s);
  wf_pending : pending_wf (pending_pre_key s);
  wf_remote_reg : is_u32 (remote_registration_id s);
  wf_local_reg : is_u32 (local_registration_id s);
  wf_refresh : needs_refresh s = 0 \/ needs_refresh s = 1;
  wf_alice : opt_all pub_wf (alice_base_key s)
}.

Ltac wf_solve :=
  repeat match goal with H : state_wf _ |- _ => destruct H end;
  constructor; simpl; auto with sigdb.

Lemma is_u32_0 : is_u32 0.
Proof. unfold is_u32. lia. Qed.
#[export] Hint Resolve is_u32_0 : sigdb.

Lemma empty_pending_wf : pending_wf empty_pending_pre_key.
Proof. unfold pending_wf; simpl; auto with sigdb. Qed.

Lemma session_state_create_wf : state_wf session_state_create.
Proof.
  constructor; simpl; auto using empty_pending_wf with sigdb.
  - unfold is_u32. lia.
  - done.
  - unfold MAX_RECEIVER_CHAINS. lia.
  - unfold exchange_wf; simpl; auto with sigdb.
Qed.

Lemma with_receiver_chains_wf l s :
  state_wf s -> Forall receiver_chain_wf l -> (length l <= MAX_RECEIVER_CHAINS)%nat ->
  state_wf (with_receiver_chains l s).
Proof. intros Hs Hl Hn. wf_solve. Qed.

Lemma update_chain_wf p f s :
  state_wf s -> (forall c, receiver_chain_wf c -> receiver_chain_wf (f c)) ->
  state_wf (with_receiver_chains (update_first p f (receiver_chains s)) s).
Proof.
  intros Hs Hf. apply with_receiver_chains_wf; [done|..].
  - apply Forall_update_first; [apply Hs|done].
  - rewrite length_update_first. apply Hs.
Qed.

Lemma find_receiver_chain_wf s k c :
  state_wf s -> session_state_find_receiver_chain s k = Some c -> receiver_chain_wf c.
Proof.
  intros Hs [Hin _]%find_first_Some. eapply Forall_forall; [apply Hs|done].
Qed.

Lemma set_message_keys_wf k keys :
  keys_wf keys -> preserves state_wf (session_state_set_message_keys k keys).
Proof.
  intros Hk s Hs. unfold session_state_set_message_keys.
  destruct (session_state_find_receiver_chain s k) as [c|] eqn:E; [|done]. simpl.
  apply find_receiver_chain_wf in E as (_ & _ & Hc & _); [|done].
  apply update_chain_wf; [done|]. intros c' (H1 & H2 & H3 & H4).
  unfold receiver_chain_wf; simpl; auto with sigdb.
Qed.

Lemma remove_message_keys_wf k n s :
  state_wf s -> state_wf (session_state_remove_message_keys k n s).2.
Proof.
  intros Hs. unfold session_state_remove_message_keys.
  destruct (session_state_find_receiver_chain s k) as [c|] eqn:E; [|done].
  destruct (find_first _ _); [|done]. simpl.
  apply find_receiver_chain_wf in E as (_ & _ & Hc & Hl); [|done].
  apply update_chain_wf; [done|]. intros c' (H1 & H2 & H3 & H4).
  unfold receiver_chain_wf; simpl. split_and!; auto using Forall_remove_first.
  pose proof (length_remove_first (has_counter n) (rc_message_keys c)). lia.
Qed.

Lemma add_receiver_chain_wf k ck :
  pub_wf k -> chain_wf ck -> preserves state_wf (session_state_add_receiver_chain k ck).
Proof.
  intros Hk Hc s Hs. simpl. apply with_receiver_chains_wf; auto with sigdb.
  apply Forall_append_bounded; [apply Hs|].
  unfold receiver_chain_wf; simpl. split_and!; auto. unfold MAX_MESSAGE_KEYS. lia.
Qed.

Lemma set_receiver_chain_key_wf k ck :
  chain_wf ck -> preserves state_wf (session_state_set_receiver_chain_key k ck).
Proof.
  intros Hc s Hs. unfold session_state_set_receiver_chain_key.
  destruct (session_state_find_receiver_chain s k); [|done]. simpl.
  apply update_chain_wf; [done|]. intros c' (H1 & H2 & H3 & H4). done.
Qed.

Lemma set_sender_chain_key_wf ck :
  chain_wf ck -> preserves state_wf (session_state_set_sender_chain_key ck).
Proof.
  intros Hc s Hs. unfold session_state_set_sender_chain_key.
  destruct (has_sender_chain s); [|done]. wf_solve.
  split; [apply wf_sender0|done].
Qed.

#[export] Hint Resolve set_message_keys_wf remove_message_keys_wf add_receiver_chain_wf
  set_receiver_chain_key_wf set_sender_chain_key_wf : sigdb.

(** Every way the library changes a session state, one rule per mutator.  The
    side conditions are the C types of the arguments and the documented
    assertions of the mutators. *)
Inductive state_step : session_state -> session_state -> Prop :=
| step_version s v : is_u32 v -> state_step s (session_state_set_session_version v s)
| step_local s k : pub_wf k -> state_step s (session_state_set_local_identity_key k s)
| step_remote s k : pub_wf k -> state_step s (session_state_set_remote_identity_key k s)
| step_root s rk : root_wf rk -> state_step s (session_state_set_root_key rk s)
| step_previous s n : is_u32 n -> state_step s (session_state_set_previous_counter n s)
| step_sender s p ck : pair_wf p -> chain_wf ck -> state_step s (session_state_set_sender_chain p ck s)
| step_sender_key s ck : chain_wf ck -> state_step s (session_state_set_sender_chain_key ck s).2
| step_add_chain s k ck : pub_wf k -> chain_wf ck ->
    state_step s (session_state_add_receiver_chain k ck s).2
| step_chain_key s k ck : chain_wf ck -> state_step s (session_state_set_receiver_chain_key k ck s).2
| step_store_keys s k keys : keys_wf keys -> state_step s (session_state_set_message_keys k keys s).2
| step_remove_keys s k n : state_step s (session_state_remove_message_keys k n s).2
| step_exchange s n b r i : is_u32 n -> pair_wf b -> pair_wf r -> identity_wf i ->
    state_step s (session_state_set_pending_key_exchange n b r i s)
| step_unacknowledged s id sid k : opt_all is_u32 id -> is_u32 sid -> pub_wf k ->
    state_step s (session_state_set_unacknowledged_pre_key_message id sid k s)
| step_clear s : state_step s (session_state_clear_unacknowledged_pre_key_message s)
| step_remote_reg s n : is_u32 n -> state_step s (session_state_set_remote_registration_id n s)
| step_local_reg s n : is_u32 n -> state_step s (session_state_set_local_registration_id n s)
| step_refresh s v : v = 0 \/ v = 1 -> state_step s (session_state_set_needs_refresh v s)
| step_alice s k : pub_wf k -> state_step s (session_state_set_alice_base_key k s).

Lemma state_step_wf s s' : state_step s s' -> state_wf s -> state_wf s'.
Proof.
  destruct 1; intros Hs;
    try solve [wf_solve; unfold sender_chain_wf, exchange_wf, pending_wf; simpl;
               split_and!; auto using empty_pending_wf with sigdb].
  - by apply set_sender_chain_key_wf.
  - by apply add_receiver_chain_wf.
  - by apply set_receiver_chain_key_wf.
  - by apply set_message_keys_wf.
  - by apply remove_message_keys_wf.
  - wf_solve. unfold pending_wf. destruct id; simpl in *; split_and!; auto with sigdb; done.
Qed.

(* ------------------------------------------------------------------ *)
(** ** Lookups after updates *)

Lemma is_chain_of_spec k c :
  pub_wf k -> opt_all pub_wf (rc_sender_ratchet_key c) ->
  is_chain_of k c = true <-> rc_sender_ratchet_key c = Some k.
Proof.
  intros Hk Hc. unfold is_chain_of. rewrite Z.eqb_eq.
  destruct (rc_sender_ratchet_key c) as [k'|]; [|done].
  rewrite ec_public_key_compare_zero by done. naive_solver.
Qed.

Lemma is_chain_of_refl k ck keys :
  is_chain_of k (mk_receiver_chain (Some k) ck keys) = true.
Proof. apply Z.eqb_eq, ec_public_key_compare_refl. Qed.

Lemma find_chain_update s k f :
  (forall c, is_chain_of k (f c) = is_chain_of k c) ->
  session_state_find_receiver_chain
    (with_receiver_chains (update_first (is_chain_of k) f (receiver_chains s)) s) k =
  f <$> session_state_find_receiver_chain s k.
Proof. intros Hf. apply find_update_first. intros c Hc. by rewrite Hf. Qed.

Lemma find_chain_set_keys s k keys c :
  session_state_find_receiver_chain s k = Some c ->
  session_state_find_receiver_chain (session_state_set_message_keys k keys s).2 k =
  Some (with_message_keys (append_bounded MAX_MESSAGE_KEYS (rc_message_keys c) keys) c).
Proof.
  intros Hc. unfold session_state_set_message_keys. rewrite Hc. simpl.
  by rewrite find_chain_update, Hc.
Qed.

Lemma find_chain_set_chain_key s k ck c :
  session_state_find_receiver_chain s k = Some c ->
  session_state_find_receiver_chain (session_state_set_receiver_chain_key k ck s).2 k =
  Some (with_chain_key ck c).
Proof.
  intros Hc. unfold session_state_set_receiver_chain_key. rewrite Hc. simpl.
  by rewrite find_chain_update, Hc.
Qed.

Lemma get_chain_key_find s k ck :
  session_state_get_receiver_chain_key s k = Some ck ->
  exists c, session_state_find_receiver_chain s k = Some c /\ rc_chain_key c = Some ck.
Proof. unfold session_state_get_receiver_chain_key. case_match; naive_solver. Qed.

(** A chain is the chain of one key. *)
Lemma is_chain_of_inj k k' c :
  pub_wf k -> pub_wf k' -> is_chain_of k c = true -> is_chain_of k' c = true -> k = k'.
Proof.
  unfold is_chain_of. rewrite !Z.eqb_eq. apply ec_public_key_compare_inj.
Qed.

(** Changing the chain of one key leaves the chains of the others alone. *)
Lemma find_chain_update_ne s k k' f :
  pub_wf k -> pub_wf k' -> k' <> k -> (forall c, is_chain_of k' (f c) = is_chain_of k' c) ->
  session_state_find_receiver_chain
    (with_receiver_chains (update_first (is_chain_of k) f (receiver_chains s)) s) k' =
  session_state_find_receiver_chain s k'.
Proof.
  intros Hk Hk' Hne Hf. apply find_update_first_ne. intros c Hc.
  assert (is_chain_of k' c = false) as E.
  { destruct (is_chain_of k' c) eqn:E; [|done]. destruct Hne. by apply (is_chain_of_inj _ _ c). }
  by rewrite Hf, E.
Qed.

(** The ratchet keys of the chains. *)
Definition chain_keys (s : session_state) : list (option ec_public_key) :=
  map rc_sender_ratchet_key (receiver_chains s).

Lemma map_update_first {A B} (key : A -> B) p f l :
  (forall x, key (f x) = key x) -> map key (update_first p f l) = map key l.
Proof.
  intros Hf. induction l as [|x l IH]; simpl; [done|]. destruct (p x); simpl; by rewrite ?Hf, ?IH.
Qed.

Lemma find_chain_None_keys s k :
  session_state_find_receiver_chain s k = None -> Some k ∉ chain_keys s.
Proof.
  intros Hn (c & E & Hc)%list_elem_of_fmap. apply find_first_None in Hn.
  rewrite Forall_forall in Hn. specialize (Hn c Hc). unfold is_chain_of in Hn.
  rewrite <- E, ec_public_key_compare_refl in Hn. done.
Qed.

(** Adding a chain keeps the keys distinct, and the chain of another key is the
    same or has been dropped. *)
Lemma add_receiver_chain_distinct k ck s :
  NoDup (chain_keys s) -> session_state_find_receiver_chain s k = None ->
  NoDup (chain_keys (session_state_add_receiver_chain k ck s).2).
Proof.
  intros Hd Hn%find_chain_None_keys. unfold chain_keys in *. simpl. rewrite append_bounded_drop.
  apply NoDup_map_drop. rewrite map_app. apply NoDup_app. split_and!; [done| |apply NoDup_singleton].
  intros x Hx ->%list_elem_of_singleton. done.
Qed.

Lemma find_first_drop {A} (p : A -> bool) e l x :
  (forall i j y z, l !! i = Some y -> l !! j = Some z -> p y = true -> p z = true -> i = j) ->
  find_first p (drop e l) = Some x -> find_first p l = Some x.
Proof.
  revert l. induction e as [|e IH]; intros l Hu; [by rewrite drop_0|].
  destruct l as [|y l]; [done|]. simpl. intros Hx.
  destruct (p y) eqn:E; [|apply IH; [|done]].
  - apply find_first_Some in Hx as [[j Hj]%list_elem_of_lookup Hp]. rewrite lookup_drop in Hj.
    specialize (Hu 0%nat (S (e + j)) y x eq_refl Hj E Hp). done.
  - intros i j a b Hi Hj Ha Hb. specialize (Hu (S i) (S j) a b Hi Hj Ha Hb). lia.
Qed.

Lemma find_add_receiver_chain_ne k k' ck s c :
  state_wf s -> NoDup (chain_keys s) -> pub_wf k -> pub_wf k' -> k' <> k ->
  session_state_find_receiver_chain (session_state_add_receiver_chain k ck s).2 k' = Some c ->
  session_state_find_receiver_chain s k' = Some c.
Proof.
  intros Hs Hd Hk Hk' Hne. unfold session_state_find_receiver_chain. simpl.
  rewrite append_bounded_drop. set (e := (_ + 1 - _)%nat).
  assert (e <= length (receiver_chains s))%nat as He by (unfold e, MAX_RECEIVER_CHAINS; lia).
  rewrite drop_app_le by done. rewrite find_first_app.
  destruct (find_first (is_chain_of k') (drop e (receiver_chains s))) as [c'|] eqn:E; cbn [find_first].
  - intros [= ->]. apply find_first_drop in E; [done|].
    intros i j y z Hi Hj Hy Hz. unfold chain_keys in Hd.
    eapply NoDup_lookup; [exact Hd|by rewrite list_lookup_fmap, Hi|].
    rewrite list_lookup_fmap, Hj. cbn [fmap option_fmap option_map]. f_equal.
    pose proof (proj1 (Forall_lookup _ _) (wf_receivers s Hs)) as Hw.
    apply is_chain_of_spec in Hy; [|done|apply (Hw i), Hi].
    apply is_chain_of_spec in Hz; [|done|apply (Hw j), Hj]. congruence.
  - destruct (is_chain_of k' _) eqn:Ec; [|done]. exfalso. apply Hne.
    eapply is_chain_of_inj; [done|done|exact Ec|apply is_chain_of_refl].
Qed.
