(* ===== verification/LocalStorage.v ===== *)
(** The message structures of [LocalStorageProtocol.pb-c.h],
    [WhisperTextProtocol.pb-c.h] and [FingerprintProtocol.pb-c.h], and the codec interface of the generated
    [*__get_packed_size], [*__pack] and [*__unpack] functions.

    An optional scalar or bytes field with its [has_] flag is an option, a
    sub-message pointer is an option, a repeated field is a list.  A field that
    is absent from the wire reads as its default, zero. *)

From S2P Require Import Prelude.

Record Chain__ChainKey := mk_ChainKey {
  ChainKey_index : option Z;
  ChainKey_key : option bytes }.

Record Chain__MessageKey := mk_MessageKey {
  MessageKey_index : option Z;
  MessageKey_cipherkey : option bytes;
  MessageKey_mackey : option bytes;
  MessageKey_iv : option bytes }.

Record SessionStructure__Chain := mk_Chain {
  Chain_senderratchetkey : option bytes;
  Chain_senderratchetkeyprivate : option bytes;
  Chain_chainkey : option Chain__ChainKey;
  Chain_messagekeys : list Chain__MessageKey }.

Record PendingKeyExchange := mk_PendingKeyExchange {
  pke_sequence : option Z;
  pke_localbasekey : option bytes;
  pke_localbasekeyprivate : option bytes;
  pke_localratchetkey : option bytes;
  pke_localratchetkeyprivate : option bytes;
  pke_localidentitykey : option bytes;
  pke_localidentitykeyprivate : option bytes }.

Record PendingPreKey := mk_PendingPreKey {
  ppk_prekeyid : option Z;
  ppk_signedprekeyid : option Z;
  ppk_basekey : option bytes }.

Record SessionStructure := mk_SessionStructure {
  ss_sessionversion : option Z;
  ss_localidentitypublic : option bytes;
  ss_remoteidentitypublic : option bytes;
  ss_rootkey : option bytes;
  ss_previouscounter : option Z;
  ss_senderchain : option SessionStructure__Chain;
  ss_receiverchains : list SessionStructure__Chain;
  ss_pendingkeyexchange : option PendingKeyExchange;
  ss_pendingprekey : option PendingPreKey;
  ss_remoteregistrationid : option Z;
  ss_localregistrationid : option Z;
  ss_needsrefresh : option Z;
  ss_alicebasekey : option bytes }.

Record RecordStructure := mk_RecordStructure {
  rs_currentsession : option SessionStructure;
  rs_previoussessions : list SessionStructure }.

Record PreKeyRecordStructure := mk_PreKeyRecordStructure {
  pkr_id : option Z;
  pkr_publickey : option bytes;
  pkr_privatekey : option bytes }.

Record SignedPreKeyRecordStructure := mk_SignedPreKeyRecordStructure {
  spkr_id : option Z;
  spkr_publickey : option bytes;
  spkr_privatekey : option bytes;
  spkr_signature : option bytes;
  spkr_timestamp : option Z }.

Record SignalMessage := mk_SignalMessage {
  sm_ratchetkey : option bytes;
  sm_counter : option Z;
  sm_previouscounter : option Z;
  sm_ciphertext : option bytes }.

Record PreKeySignalMessage := mk_PreKeySignalMessage {
  pksm_registrationid : option Z;
  pksm_prekeyid : option Z;
  pksm_signedprekeyid : option Z;
  pksm_basekey : option bytes;
  pksm_identitykey : option bytes;
  pksm_message : option bytes }.

Record SenderKeyStateStructure__SenderChainKey := mk_SenderChainKey {
  SenderChainKey_iteration : option Z;
  SenderChainKey_seed : option bytes }.

Record SenderKeyStateStructure__SenderMessageKey := mk_SenderMessageKey {
  SenderMessageKey_iteration : option Z;
  SenderMessageKey_seed : option bytes }.

Record SenderKeyStateStructure__SenderSigningKey := mk_SenderSigningKey {
  SenderSigningKey_public : option bytes;
  SenderSigningKey_private : option bytes }.

Record SenderKeyStateStructure := mk_SenderKeyStateStructure {
  skss_senderkeyid : option Z;
  skss_senderchainkey : option SenderKeyStateStructure__SenderChainKey;
  skss_sendersigningkey : option SenderKeyStateStructure__SenderSigningKey;
  skss_sendermessagekeys : list SenderKeyStateStructure__SenderMessageKey }.

Record SenderKeyRecordStructure := mk_SenderKeyRecordStructure {
  skrs_senderkeystates : list SenderKeyStateStructure }.

Record SenderKeyMessage := mk_SenderKeyMessage {
  skms_id : option Z;
  skms_iteration : option Z;
  skms_ciphertext : option bytes }.

Record SenderKeyDistributionMessage := mk_SenderKeyDistributionMessage {
  skdms_id : option Z;
  skdms_iteration : option Z;
  skdms_chainkey : option bytes;
  skdms_signingkey : option bytes }.

Record IdentityKeyPairStructure := mk_IdentityKeyPairStructure {
  ikps_publickey : option bytes;
  ikps_privatekey : option bytes }.

Record LogicalFingerprint := mk_LogicalFingerprint {
  lf_content : option bytes;
  lf_identifier : option bytes }.

Record CombinedFingerprints := mk_CombinedFingerprints {
  cf_version : option Z;
  cf_localfingerprint : option LogicalFingerprint;
  cf_remotefingerprint : option LogicalFingerprint }.

Record DeviceConsistencyCodeMessage := mk_DeviceConsistencyCodeMessage {
  dccm_generation : option Z;
  dccm_signature : option bytes }.

(** The generated functions of one message type. *)
Class Codec (A : Type) := {
  get_packed_size : A -> nat;
  pack : A -> bytes;
  unpack : bytes -> option A
}.

(** The [*__INIT] value of a message type: every field absent. *)
Class MessageInit (A : Type) := init_message : A.
#[global] Instance Chain__ChainKey_init : MessageInit Chain__ChainKey := mk_ChainKey None None.
#[global] Instance Chain__MessageKey_init : MessageInit Chain__MessageKey :=
  mk_MessageKey None None None None.
#[global] Instance SessionStructure__Chain_init : MessageInit SessionStructure__Chain :=
  mk_Chain None None None [].
#[global] Instance PendingKeyExchange_init : MessageInit PendingKeyExchange :=
  mk_PendingKeyExchange None None None None None None None.
#[global] Instance PendingPreKey_init : MessageInit PendingPreKey := mk_PendingPreKey None None None.
#[global] Instance SessionStructure_init : MessageInit SessionStructure :=
  mk_SessionStructure None None None None None None [] None None None None None None.
#[global] Instance RecordStructure_init : MessageInit RecordStructure := mk_RecordStructure None [].
#[global] Instance PreKeyRecordStructure_init : MessageInit PreKeyRecordStructure :=
  mk_PreKeyRecordStructure None None None.
#[global] Instance SignedPreKeyRecordStructure_init : MessageInit SignedPreKeyRecordStructure :=
  mk_SignedPreKeyRecordStructure None None None None None.
#[global] Instance SignalMessage_init : MessageInit SignalMessage :=
  mk_SignalMessage None None None None.
#[global] Instance PreKeySignalMessage_init : MessageInit PreKeySignalMessage :=
  mk_PreKeySignalMessage None None None None None None.

#[global] Instance SenderKeyStateStructure_init : MessageInit SenderKeyStateStructure :=
  mk_SenderKeyStateStructure None None None [].
#[global] Instance SenderKeyRecordStructure_init : MessageInit SenderKeyRecordStructure :=
  mk_SenderKeyRecordStructure [].
#[global] Instance SenderKeyMessage_init : MessageInit SenderKeyMessage :=
  mk_SenderKeyMessage None None None.
#[global] Instance SenderKeyDistributionMessage_init : MessageInit SenderKeyDistributionMessage :=
  mk_SenderKeyDistributionMessage None None None None.
#[global] Instance IdentityKeyPairStructure_init : MessageInit IdentityKeyPairStructure :=
  mk_IdentityKeyPairStructure None None.

#[global] Instance CombinedFingerprints_init : MessageInit CombinedFingerprints :=
  mk_CombinedFingerprints None None None.
#[global] Instance DeviceConsistencyCodeMessage_init : MessageInit DeviceConsistencyCodeMessage :=
  mk_DeviceConsistencyCodeMessage None None.

(** What the callers rely on, for the structures that are in the range of the
    C types ([ok]): [pack] writes [get_packed_size] bytes, [unpack] reads back
    what [pack] wrote, and reads the empty buffer as the initial message.  The
    laws have no bound on the size; the generated code is shown to obey them up to
    [2 ^ 27 - 16] packed bytes, the members its slabs can hold. *)
Class CodecLaws (A : Type) (C : Codec A) `{MessageInit A} (ok : A -> Prop) := {
  length_pack : forall x, length (pack x) = get_packed_size x;
  unpack_pack : forall x, ok x -> unpack (pack x) = Some x;
  unpack_nil : unpack [] = Some init_message
}.

(** [len = get_packed_size(x); buf = alloc(len); if(pack(x, buf) != len) error]. *)
Definition packed {A} `{Codec A} (x : A) : result bytes :=
  if (length (pack x) =? get_packed_size x)%nat then Ok (pack x)
  else Err SG_ERR_INVALID_PROTO_BUF.

Definition unpacked {A} `{Codec A} (data : bytes) : result A :=
  require SG_ERR_INVALID_PROTO_BUF (unpack data).

Lemma packed_ok {A} (C : Codec A) `{MessageInit A} ok {L : CodecLaws A C ok} (x : A) : packed x = Ok (pack x).
Proof. unfold packed. by rewrite (length_pack (ok := ok)), Nat.eqb_refl. Qed.

Lemma unpacked_packed {A} (C : Codec A) `{MessageInit A} ok {L : CodecLaws A C ok} (x : A) :
  ok x -> rbind (packed x) unpacked = Ok x.
Proof.
  intros Hx. rewrite (packed_ok C ok). simpl. unfold unpacked.
  by rewrite (unpack_pack (ok := ok)).
Qed.

Lemma pack_nonempty {A} (C : Codec A) `{MessageInit A} ok {L : CodecLaws A C ok} (x : A) :
  ok x -> x <> init_message -> pack x <> [].
Proof.
  intros Hx Hne E. apply Hne. pose proof (unpack_pack (ok := ok) x Hx) as Hu.
  rewrite E, (unpack_nil (ok := ok)) in Hu. by injection Hu.
Qed.

(** The data pointer of an unpacked bytes field: null when it has no bytes. *)
Definition pb_data (b : bytes) : option bytes :=
  match b with [] => None | _ => Some b end.

(** [Field in range] predicates for the values the library packs. *)
Definition opt_u32 (o : option Z) : Prop := match o with Some z => is_u32 z | None => True end.
Definition opt_i32 (o : option Z) : Prop :=
  match o with Some z => - 2 ^ 31 <= z < 2 ^ 31 | None => True end.
Definition opt_bool (o : option Z) : Prop :=
  match o with Some z => z = 0 \/ z = 1 | None => True end.

Definition Chain_ok (c : SessionStructure__Chain) : Prop :=
  match Chain_chainkey c with Some k => opt_u32 (ChainKey_index k) | None => True end /\
  Forall (fun k => opt_u32 (MessageKey_index k)) (Chain_messagekeys c).

Definition SessionStructure_ok (s : SessionStructure) : Prop :=
  opt_u32 (ss_sessionversion s) /\ opt_u32 (ss_previouscounter s) /\
  match ss_senderchain s with Some c => Chain_ok c | None => True end /\
  Forall Chain_ok (ss_receiverchains s) /\
  match ss_pendingkeyexchange s with Some e => opt_u32 (pke_sequence e) | None => True end /\
  match ss_pendingprekey s with
  | Some p => opt_u32 (ppk_prekeyid p) /\ opt_i32 (ppk_signedprekeyid p)
  | None => True
  end /\
  opt_u32 (ss_remoteregistrationid s) /\ opt_u32 (ss_localregistrationid s) /\
  opt_bool (ss_needsrefresh s).

Definition RecordStructure_ok (r : RecordStructure) : Prop :=
  match rs_currentsession r with Some s => SessionStructure_ok s | None => True end /\
  Forall SessionStructure_ok (rs_previoussessions r).

Definition SignalMessage_ok (m : SignalMessage) : Prop :=
  opt_u32 (sm_counter m) /\ opt_u32 (sm_previouscounter m).

Definition PreKeySignalMessage_ok (m : PreKeySignalMessage) : Prop :=
  opt_u32 (pksm_registrationid m) /\ opt_u32 (pksm_prekeyid m) /\ opt_u32 (pksm_signedprekeyid m).

Definition PreKeyRecordStructure_ok (m : PreKeyRecordStructure) : Prop := opt_u32 (pkr_id m).

Definition SignedPreKeyRecordStructure_ok (m : SignedPreKeyRecordStructure) : Prop :=
  opt_u32 (spkr_id m) /\
  match spkr_timestamp m with Some t => 0 <= t < 2 ^ 64 | None => True end.

Definition SenderKeyStateStructure_ok (s : SenderKeyStateStructure) : Prop :=
  opt_u32 (skss_senderkeyid s) /\
  match skss_senderchainkey s with Some k => opt_u32 (SenderChainKey_iteration k) | None => True end /\
  Forall (fun k => opt_u32 (SenderMessageKey_iteration k)) (skss_sendermessagekeys s).

Definition SenderKeyRecordStructure_ok (r : SenderKeyRecordStructure) : Prop :=
  Forall SenderKeyStateStructure_ok (skrs_senderkeystates r).

Definition SenderKeyMessage_ok (m : SenderKeyMessage) : Prop :=
  opt_u32 (skms_id m) /\ opt_u32 (skms_iteration m).

Definition SenderKeyDistributionMessage_ok (m : SenderKeyDistributionMessage) : Prop :=
  opt_u32 (skdms_id m) /\ opt_u32 (skdms_iteration m).

Definition CombinedFingerprints_ok (m : CombinedFingerprints) : Prop := opt_u32 (cf_version m).

Definition DeviceConsistencyCodeMessage_ok (m : DeviceConsistencyCodeMessage) : Prop :=
  opt_u32 (dccm_generation m).
