(* ===== verification/SessionSerial.v ===== *)
(** [session_state.c], the storage half: [session_state_serialize_prepare] and
    [session_state_deserialize_protobuf] with their helpers, and the copy of a
    session through its serialized form on which decryption works. *)

From S2P Require Import Prelude Buffers Crypto Hkdf Curve Ratchet SessionState LocalStorage.

(** The overflow checks of the array allocations: a pointer has 8 bytes. *)
Definition array_fits {A} (l : list A) : bool := Z.of_nat (length l) <=? SIZE_MAX / 8.

Fixpoint rmapM {A B} (f : A -> result B) (l : list A) : result (list B) :=
  match l with
  | [] => Ok []
  | x :: l' => let? y := f x in let? r := rmapM f l' in Ok (y :: r)
  end.

(** An optional field filled from a possibly null pointer. *)
Definition opt_field {A B} (f : A -> result B) (o : option A) : result (option B) :=
  match o with
  | None => Ok None
  | Some a => let? b := f a in Ok (Some b)
  end.

(* ------------------------------------------------------------------ *)
(** ** Serialization *)

Definition session_state_serialize_prepare_chain_chain_key (ck : ratchet_chain_key)
    : result Chain__ChainKey :=
  let? key := ratchet_chain_key_get_key_protobuf ck in
  Ok (mk_ChainKey (Some (ratchet_chain_key_get_index ck)) (Some key)).

Definition session_state_serialize_prepare_message_keys (k : ratchet_message_keys)
    : result Chain__MessageKey :=
  Ok (mk_MessageKey (Some (counter k)) (Some (cipher_key k)) (Some (mac_key k)) (Some (iv k))).

Definition session_state_serialize_prepare_chain_message_keys_list (l : list ratchet_message_keys)
    : result (list Chain__MessageKey) :=
  let? _ := ensure SG_ERR_NOMEM (array_fits l) in
  rmapM session_state_serialize_prepare_message_keys l.

Definition session_state_serialize_prepare_sender_chain (c : session_state_sender_chain)
    : result SessionStructure__Chain :=
  let? pub := opt_field (fun p => ec_public_key_serialize_protobuf (public_key p))
                (sender_ratchet_key_pair c) in
  let? priv := opt_field (fun p => ec_private_key_serialize_protobuf (private_key p))
                (sender_ratchet_key_pair c) in
  let? ck := opt_field session_state_serialize_prepare_chain_chain_key (sc_chain_key c) in
  Ok (mk_Chain pub priv ck []).

Definition session_state_serialize_prepare_receiver_chain (c : session_state_receiver_chain)
    : result SessionStructure__Chain :=
  let? pub := opt_field ec_public_key_serialize_protobuf (rc_sender_ratchet_key c) in
  let? ck := opt_field session_state_serialize_prepare_chain_chain_key (rc_chain_key c) in
  let? keys := session_state_serialize_prepare_chain_message_keys_list (rc_message_keys c) in
  Ok (mk_Chain pub None ck keys).

Definition session_state_serialize_prepare_pending_key_exchange (e : session_pending_key_exchange)
    : result PendingKeyExchange :=
  let? bpub := opt_field (fun p => ec_public_key_serialize_protobuf (public_key p)) (local_base_key e) in
  let? bpriv := opt_field (fun p => ec_private_key_serialize_protobuf (private_key p)) (local_base_key e) in
  let? rpub := opt_field (fun p => ec_public_key_serialize_protobuf (public_key p)) (local_ratchet_key e) in
  let? rpriv := opt_field (fun p => ec_private_key_serialize_protobuf (private_key p)) (local_ratchet_key e) in
  let? ipub := opt_field (fun p => ec_public_key_serialize_protobuf (id_public p)) (local_identity_key e) in
  let? ipriv := opt_field (fun p => ec_private_key_serialize_protobuf (id_private p)) (local_identity_key e) in
  Ok (mk_PendingKeyExchange (Some (sequence e)) bpub bpriv rpub rpriv ipub ipriv).

Definition session_state_serialize_prepare_pending_pre_key (p : session_pending_pre_key)
    : result PendingPreKey :=
  let? bk := opt_field ec_public_key_serialize_protobuf (base_key p) in
  Ok (mk_PendingPreKey (if has_pre_key_id p then Some (pre_key_id p) else None)
        (Some (i32 (signed_pre_key_id p))) bk).

(** [if(flag) { field = malloc(...); result = f(&object, field); }] *)
Definition flagged {A B} (flag : bool) (f : A -> result B) (a : A) : result (option B) :=
  if flag then let? b := f a in Ok (Some b) else Ok None.

Definition session_state_serialize_prepare (s : session_state) : result SessionStructure :=
  let? local := opt_field ec_public_key_serialize_protobuf (local_identity_public s) in
  let? remote := opt_field ec_public_key_serialize_protobuf (remote_identity_public s) in
  let? root := opt_field ratchet_root_key_get_key_protobuf (root_key s) in
  let? sender := flagged (has_sender_chain s)
                   session_state_serialize_prepare_sender_chain (sender_chain s) in
  let? _ := ensure SG_ERR_NOMEM (array_fits (receiver_chains s)) in
  let? receivers := rmapM session_state_serialize_prepare_receiver_chain (receiver_chains s) in
  let? exchange := flagged (has_pending_key_exchange s)
                     session_state_serialize_prepare_pending_key_exchange (pending_key_exchange s) in
  let? pending := flagged (has_pending_pre_key s)
                    session_state_serialize_prepare_pending_pre_key (pending_pre_key s) in
  let? alice := opt_field ec_public_key_serialize_protobuf (alice_base_key s) in
  Ok {| ss_sessionversion := Some (session_version s);
        ss_localidentitypublic := local;
        ss_remoteidentitypublic := remote;
        ss_rootkey := root;
        ss_previouscounter := Some (previous_counter s);
        ss_senderchain := sender;
        ss_receiverchains := receivers;
        ss_pendingkeyexchange := exchange;
        ss_pendingprekey := pending;
        ss_remoteregistrationid := Some (remote_registration_id s);
        ss_localregistrationid := Some (local_registration_id s);
        ss_needsrefresh := Some (needs_refresh s);
        ss_alicebasekey := alice |}.

(* ------------------------------------------------------------------ *)
(** ** Deserialization *)

(** [if(has_pub && has_priv) { decode both; create the pair }] *)
Definition decode_pair {A} (create : ec_public_key -> ec_private_key -> result A)
    (pub priv : option bytes) : result (option A) :=
  match pub, priv with
  | Some p, Some q =>
      let? pk := curve_decode_point p in
      let? sk := curve_decode_private_point q in
      let? pair := create pk sk in
      Ok (Some pair)
  | _, _ => Ok None
  end.

(** The chain key of a stored chain.  A failing [hkdf_create] leaves [kdf]
    pointing at freed memory, which the [SIGNAL_UNREF(kdf)] of the clean-up
    code then uses. *)
Definition decode_chain_key (version : Z) (ck : option Chain__ChainKey)
    : result (option ratchet_chain_key) :=
  match ck with
  | Some (mk_ChainKey (Some index) (Some key)) =>
      match hkdf_create (i32 version) with
      | Ok kdf =>
          let? c := ratchet_chain_key_create (Some kdf) (pb_data key) index in Ok (Some c)
      | Err _ | Stuck => Stuck
      end
  | _ => Ok None
  end.

Definition session_state_deserialize_protobuf_sender_chain (version : Z)
    (c : SessionStructure__Chain) : result session_state_sender_chain :=
  let? pair := decode_pair ec_key_pair_create
                 (Chain_senderratchetkey c) (Chain_senderratchetkeyprivate c) in
  let? ck := decode_chain_key version (Chain_chainkey c) in
  Ok (mk_sender_chain pair ck).

(** [memcpy] of a field only when it has exactly the expected length; the node
    was zeroed before. *)
Definition fixed_field (n : nat) (o : option bytes) : bytes :=
  match o with
  | Some b => if (length b =? n)%nat then b else repeat x00 n
  | None => repeat x00 n
  end.

Definition decode_message_key (k : Chain__MessageKey) : ratchet_message_keys :=
  {| cipher_key := fixed_field RATCHET_CIPHER_KEY_LENGTH (MessageKey_cipherkey k);
     mac_key := fixed_field RATCHET_MAC_KEY_LENGTH (MessageKey_mackey k);
     iv := fixed_field RATCHET_IV_LENGTH (MessageKey_iv k);
     counter := default 0 (MessageKey_index k) |}.

Definition session_state_deserialize_protobuf_receiver_chain (version : Z)
    (c : SessionStructure__Chain) : result session_state_receiver_chain :=
  let? pub := opt_field curve_decode_point (Chain_senderratchetkey c) in
  let? ck := decode_chain_key version (Chain_chainkey c) in
  Ok (mk_receiver_chain pub ck (map decode_message_key (Chain_messagekeys c))).

Definition session_state_deserialize_protobuf_pending_key_exchange (e : PendingKeyExchange)
    : result session_pending_key_exchange :=
  let? base := decode_pair ec_key_pair_create (pke_localbasekey e) (pke_localbasekeyprivate e) in
  let? ratchet := decode_pair ec_key_pair_create (pke_localratchetkey e) (pke_localratchetkeyprivate e) in
  let? identity := decode_pair ratchet_identity_key_pair_create
                     (pke_localidentitykey e) (pke_localidentitykeyprivate e) in
  Ok (mk_exchange (default 0 (pke_sequence e)) base ratchet identity).

Definition session_state_deserialize_protobuf_pending_pre_key (p : PendingPreKey)
    : result session_pending_pre_key :=
  let? bk := opt_field curve_decode_point (ppk_basekey p) in
  Ok (mk_pending_pre_key
        (match ppk_prekeyid p with Some _ => true | None => false end)
        (default 0 (ppk_prekeyid p))
        (match ppk_signedprekeyid p with Some z => u32 z | None => 0 end) bk).

(** The result of decoding the sender chain is not looked at: on an error the
    chain stays zeroed and [has_sender_chain] is set all the same. *)
Definition decode_sender_chain (version : Z) (c : option SessionStructure__Chain)
    : result (bool * session_state_sender_chain) :=
  match c with
  | None => Ok (false, mk_sender_chain None None)
  | Some c =>
      match session_state_deserialize_protobuf_sender_chain version c with
      | Ok sc => Ok (true, sc)
      | Err _ => Ok (true, mk_sender_chain None None)
      | Stuck => Stuck
      end
  end.

Definition decode_root_key (version : Z) (key : bytes) : result ratchet_root_key :=
  let? kdf := hkdf_create (i32 version) in
  ratchet_root_key_create (Some kdf) (pb_data key).

Definition session_state_deserialize_protobuf (m : SessionStructure) : result session_state :=
  let s0 := session_state_create in
  let version := default (session_version s0) (ss_sessionversion m) in
  let? local := opt_field curve_decode_point (ss_localidentitypublic m) in
  let? remote := opt_field curve_decode_point (ss_remoteidentitypublic m) in
  let? root := opt_field (decode_root_key version) (ss_rootkey m) in
  let? '(has_sender, sender) := decode_sender_chain version (ss_senderchain m) in
  let? receivers := rmapM (session_state_deserialize_protobuf_receiver_chain version)
                      (ss_receiverchains m) in
  let? exchange := opt_field session_state_deserialize_protobuf_pending_key_exchange
                     (ss_pendingkeyexchange m) in
  let? pending := opt_field session_state_deserialize_protobuf_pending_pre_key
                    (ss_pendingprekey m) in
  let? alice := opt_field curve_decode_point (ss_alicebasekey m) in
  Ok {| session_version := version;
        local_identity_public := local;
        remote_identity_public := remote;
        root_key := root;
        previous_counter := default 0 (ss_previouscounter m);
        has_sender_chain := has_sender;
        sender_chain := sender;
        receiver_chains := receivers;
        has_pending_key_exchange := match exchange with Some _ => true | None => false end;
        pending_key_exchange := default (pending_key_exchange s0) exchange;
        has_pending_pre_key := match pending with Some _ => true | None => false end;
        pending_pre_key := default (pending_pre_key s0) pending;
        remote_registration_id := default 0 (ss_remoteregistrationid m);
        local_registration_id := default 0 (ss_localregistrationid m);
        needs_refresh := default 0 (ss_needsrefresh m);
        alice_base_key := alice |}.

Section codec.
Context `{SC : Codec SessionStructure}.

Definition session_state_serialize (s : session_state) : result bytes :=
  let? m := session_state_serialize_prepare s in packed m.

Definition session_state_deserialize (data : bytes) : result session_state :=
  let? m := unpacked data in session_state_deserialize_protobuf m.

Definition session_state_copy (s : session_state) : result session_state :=
  let? data := session_state_serialize s in session_state_deserialize data.

End codec.

(* ------------------------------------------------------------------ *)
(** ** Round trip *)

(** Writing [a] with [f] succeeds and [g] reads [a] back. *)
Definition RT {A B} (f : A -> result B) (g : B -> result A) (a : A) : Prop :=
  exists m, f a = Ok m /\ g m = Ok a.

Lemma RT_opt {A B} (f : A -> result B) (g : B -> result A) o :
  opt_all (RT f g) o -> RT (opt_field f) (opt_field g) o.
Proof.
  destruct o as [a|]; simpl; [|intros _; by exists None].
  intros (m & Hf & Hg). exists (Some m). simpl. by rewrite Hf, Hg.
Qed.

Lemma RT_list {A B} (f : A -> result B) (g : B -> result A) l :
  Forall (RT f g) l -> RT (rmapM f) (rmapM g) l.
Proof.
  induction 1 as [|a l (m & Hf & Hg) _ (ms & Hfs & Hgs)]; [by exists []|].
  exists (m :: ms). simpl. by rewrite Hf, Hfs, Hg, Hgs.
Qed.

Lemma opt_all_impl {A} (P Q : A -> Prop) o : opt_all P o -> (forall a, P a -> Q a) -> opt_all Q o.
Proof. destruct o; simpl; auto. Qed.

Lemma RT_pub k : pub_wf k -> RT ec_public_key_serialize_protobuf curve_decode_point k.
Proof. intros H. eexists. split; [done|]. by apply curve_decode_serialize. Qed.

Lemma RT_opt_pub o : opt_all pub_wf o ->
  RT (opt_field ec_public_key_serialize_protobuf) (opt_field curve_decode_point) o.
Proof. intros H. apply RT_opt. eapply opt_all_impl; [done|]. apply RT_pub. Qed.

(** The stored halves of an optional key pair give the pair back. *)
Lemma RT_pair {A} (mk : ec_public_key -> ec_private_key -> A) (pub : A -> ec_public_key)
    (priv : A -> ec_private_key) (o : option A) :
  (forall a, mk (pub a) (priv a) = a) ->
  opt_all (fun a => pub_wf (pub a) /\ priv_wf (priv a)) o ->
  exists p q,
    opt_field (fun a => ec_public_key_serialize_protobuf (pub a)) o = Ok p /\
    opt_field (fun a => ec_private_key_serialize_protobuf (priv a)) o = Ok q /\
    decode_pair (fun a b => Ok (mk a b)) p q = Ok o.
Proof.
  intros Hmk. destruct o as [a|]; simpl; [intros [Hp Hq]|by exists None, None].
  do 2 eexists. split_and!; [done|done|]. unfold decode_pair.
  pose proof (curve_decode_serialize _ Hp) as Hp'. simpl in Hp'. rewrite Hp'. simpl.
  pose proof (curve_decode_private_serialize _ Hq) as Hq'. simpl in Hq'. rewrite Hq'. simpl.
  by rewrite Hmk.
Qed.

Definition chain_storable (version : Z) (ck : ratchet_chain_key) : Prop :=
  hkdf_create version = Ok (ck_kdf ck) /\ ck_key ck <> [].

Lemma version_i32 v kdf : hkdf_create v = Ok kdf -> i32 v = v.
Proof.
  unfold hkdf_create. destruct (Z.eqb_spec v 2) as [->|]; [done|].
  by destruct (Z.eqb_spec v 3) as [->|].
Qed.

Lemma pb_data_Some b : b <> [] -> pb_data b = Some b.
Proof. by destruct b. Qed.

Lemma RT_chain_key version o : opt_all (chain_storable version) o ->
  RT (opt_field session_state_serialize_prepare_chain_chain_key) (decode_chain_key version) o.
Proof.
  destruct o as [[kdf key index]|]; simpl; [intros [Hk Hn]|intros _; by exists None].
  eexists. split; [done|]. simpl in *. rewrite (version_i32 _ _ Hk), Hk.
  by rewrite pb_data_Some.
Qed.

Lemma decode_message_key_id k m :
  keys_wf k -> session_state_serialize_prepare_message_keys k = Ok m -> decode_message_key m = k.
Proof.
  destruct k as [c mk v n]. intros (H1 & H2 & H3 & _) [= <-]. simpl in *.
  unfold decode_message_key, fixed_field. simpl. by rewrite H1, H2, H3.
Qed.

Lemma array_fits_le {A} (l : list A) n : (length l <= n)%nat -> (n <= 2000)%nat -> array_fits l = true.
Proof.
  intros H Hn. unfold array_fits. apply Z.leb_le.
  transitivity 2000; [lia|]. vm_compute. done.
Qed.

Lemma RT_message_keys l : Forall keys_wf l -> (length l <= MAX_MESSAGE_KEYS)%nat ->
  exists ms, session_state_serialize_prepare_chain_message_keys_list l = Ok ms /\
    map decode_message_key ms = l.
Proof.
  intros Hl Hn. unfold session_state_serialize_prepare_chain_message_keys_list.
  rewrite (array_fits_le l _ Hn) by done. simpl. clear Hn.
  induction Hl as [|k l Hk _ (ms & Hms & Hd)]; [by exists []|].
  eexists (_ :: ms). simpl. rewrite Hms. split; [done|]. simpl. f_equal; [|done].
  by apply (decode_message_key_id _ _ Hk).
Qed.

Lemma RT_sender_chain version c :
  sender_chain_wf c -> opt_all (chain_storable version) (sc_chain_key c) ->
  RT session_state_serialize_prepare_sender_chain
     (session_state_deserialize_protobuf_sender_chain version) c.
Proof.
  destruct c as [pair ck]. intros [Hp Hc] Hs. simpl in *.
  destruct (RT_pair mk_pair public_key private_key pair ltac:(by intros []) Hp)
    as (p & q & Ep & Eq & Ed).
  destruct (RT_chain_key version ck Hs) as (m & Em & Dm).
  eexists. unfold session_state_serialize_prepare_sender_chain. simpl.
  rewrite Ep, Eq, Em. split; [done|].
  unfold session_state_deserialize_protobuf_sender_chain. simpl.
  unfold ec_key_pair_create. by rewrite Ed, Dm.
Qed.

Lemma RT_receiver_chain version c :
  receiver_chain_wf c -> opt_all (chain_storable version) (rc_chain_key c) ->
  RT session_state_serialize_prepare_receiver_chain
     (session_state_deserialize_protobuf_receiver_chain version) c.
Proof.
  destruct c as [key ck keys]. intros (Hp & Hc & Hk & Hl) Hs. simpl in *.
  destruct (RT_opt_pub key Hp) as (p & Ep & Dp).
  destruct (RT_chain_key version ck Hs) as (m & Em & Dm).
  destruct (RT_message_keys keys Hk Hl) as (ms & Ems & Dms).
  eexists. unfold session_state_serialize_prepare_receiver_chain. simpl.
  rewrite Ep, Em, Ems. split; [done|].
  unfold session_state_deserialize_protobuf_receiver_chain. simpl. by rewrite Dp, Dm, Dms.
Qed.

Lemma RT_exchange e : exchange_wf e ->
  RT session_state_serialize_prepare_pending_key_exchange
     session_state_deserialize_protobuf_pending_key_exchange e.
Proof.
  destruct e as [n b r i]. intros (_ & Hb & Hr & Hi). simpl in *.
  destruct (RT_pair mk_pair public_key private_key b ltac:(by intros []) Hb)
    as (p1 & q1 & Ep1 & Eq1 & Ed1).
  destruct (RT_pair mk_pair public_key private_key r ltac:(by intros []) Hr)
    as (p2 & q2 & Ep2 & Eq2 & Ed2).
  destruct (RT_pair mk_identity id_public id_private i ltac:(by intros []) Hi)
    as (p3 & q3 & Ep3 & Eq3 & Ed3).
  eexists. unfold session_state_serialize_prepare_pending_key_exchange. simpl.
  rewrite Ep1, Eq1, Ep2, Eq2, Ep3, Eq3. split; [done|].
  unfold session_state_deserialize_protobuf_pending_key_exchange. simpl.
  unfold ec_key_pair_create, ratchet_identity_key_pair_create. by rewrite Ed1, Ed2, Ed3.
Qed.

Lemma RT_pending p : pending_wf p ->
  RT session_state_serialize_prepare_pending_pre_key
     session_state_deserialize_protobuf_pending_pre_key p.
Proof.
  destruct p as [h n sn bk]. intros (Hn & Hsn & Hb & Hh). simpl in *.
  destruct (RT_opt_pub bk Hb) as (m & Em & Dm).
  eexists. unfold session_state_serialize_prepare_pending_pre_key. simpl.
  rewrite Em. split; [done|].
  unfold session_state_deserialize_protobuf_pending_pre_key. simpl.
  rewrite Dm, u32_i32 by done. simpl. destruct h; simpl; [done|]. by rewrite Hh.
Qed.

(** What a session state must satisfy to survive storage: the invariant, the
    parts that are not written are empty, the keys are not empty and belong to
    the key derivation of the session's version. *)
Record state_storable (s : session_state) : Prop := {
  st_wf : state_wf s;
  st_sender : has_sender_chain s = false -> sender_chain s = mk_sender_chain None None;
  st_exchange : has_pending_key_exchange s = false ->
    pending_key_exchange s = mk_exchange 0 None None None;
  st_pending : has_pending_pre_key s = false -> pending_pre_key s = empty_pending_pre_key;
  st_root : opt_all (fun rk => hkdf_create (session_version s) = Ok (rk_kdf rk) /\ rk_key rk <> [])
    (root_key s);
  st_sender_key : opt_all (chain_storable (session_version s)) (sc_chain_key (sender_chain s));
  st_receiver_keys :
    Forall (fun c => opt_all (chain_storable (session_version s)) (rc_chain_key c))
      (receiver_chains s)
}.

Lemma RT_root version o :
  opt_all (fun rk => hkdf_create version = Ok (rk_kdf rk) /\ rk_key rk <> []) o ->
  RT (opt_field ratchet_root_key_get_key_protobuf) (opt_field (decode_root_key version)) o.
Proof.
  intros H. apply RT_opt. eapply opt_all_impl; [done|]. intros [kdf key] [Hk Hn]. simpl in *.
  eexists. split; [done|]. unfold decode_root_key. simpl.
  by rewrite (version_i32 _ _ Hk), Hk, pb_data_Some.
Qed.

(** A flagged sub-structure. *)
Lemma RT_flagged {A B} (flag : bool) (f : A -> result B) (g : B -> result A) a :
  RT f g a -> exists o, flagged flag f a = Ok o /\
    opt_field g o = Ok (if flag then Some a else None) /\
    match o with Some _ => true | None => false end = flag.
Proof.
  intros (m & Hf & Hg). unfold flagged. destruct flag.
  - exists (Some m). simpl. by rewrite Hf, Hg.
  - by exists None.
Qed.

Lemma default_flag {A} (flag : bool) (a d : A) :
  (flag = false -> a = d) -> default d (if flag then Some a else None) = a.
Proof. destruct flag; simpl; [done|]. intros H. by rewrite H. Qed.

Lemma match_flag {A} (flag : bool) (a : A) :
  match (if flag then Some a else None) with Some _ => true | None => false end = flag.
Proof. by destruct flag. Qed.

Lemma RT_flagged_sender version flag c :
  sender_chain_wf c -> opt_all (chain_storable version) (sc_chain_key c) ->
  (flag = false -> c = mk_sender_chain None None) ->
  exists o, flagged flag session_state_serialize_prepare_sender_chain c = Ok o /\
    decode_sender_chain version o = Ok (flag, c).
Proof.
  intros Hw Hs He. unfold flagged. destruct flag.
  - destruct (RT_sender_chain version c Hw Hs) as (m & Em & Dm).
    exists (Some m). rewrite Em. split; [done|]. simpl. by rewrite Dm.
  - exists None. split; [done|]. by rewrite He.
Qed.

Lemma RT_receivers s : state_storable s ->
  RT (rmapM session_state_serialize_prepare_receiver_chain)
     (rmapM (session_state_deserialize_protobuf_receiver_chain (session_version s)))
     (receiver_chains s).
Proof.
  intros Hs. apply RT_list. apply Forall_forall. intros c Hc.
  apply RT_receiver_chain.
  - eapply Forall_forall; [apply Hs|done].
  - exact (proj1 (Forall_forall _ _) (st_receiver_keys s Hs) c Hc).
Qed.

Lemma session_state_structure_round_trip s : state_storable s ->
  RT session_state_serialize_prepare session_state_deserialize_protobuf s.
Proof.
  intros Hs. pose proof (st_wf s Hs) as Hw.
  destruct (RT_opt_pub _ (wf_local s Hw)) as (m1 & E1 & D1).
  destruct (RT_opt_pub _ (wf_remote s Hw)) as (m2 & E2 & D2).
  destruct (RT_root _ _ (st_root s Hs)) as (m3 & E3 & D3).
  destruct (RT_flagged_sender _ _ _ (wf_sender s Hw) (st_sender_key s Hs) (st_sender s Hs))
    as (m4 & E4 & D4).
  destruct (RT_receivers s Hs) as (m5 & E5 & D5).
  destruct (RT_flagged (has_pending_key_exchange s) _ _ _ (RT_exchange _ (wf_exchange s Hw)))
    as (m6 & E6 & D6 & F6).
  destruct (RT_flagged (has_pending_pre_key s) _ _ _ (RT_pending _ (wf_pending s Hw)))
    as (m7 & E7 & D7 & F7).
  destruct (RT_opt_pub _ (wf_alice s Hw)) as (m8 & E8 & D8).
  eexists. unfold session_state_serialize_prepare.
  rewrite E1, E2, E3, E4, (array_fits_le _ _ (wf_receivers_len s Hw)) by
    (unfold MAX_RECEIVER_CHAINS; lia).
  cbn [rbind ensure]. rewrite E5, E6, E7, E8. split; [done|].
  unfold session_state_deserialize_protobuf. simpl.
  rewrite D1, D2, D3, D4. cbn [rbind]. rewrite D5, D6, D7, D8. cbn [rbind].
  rewrite !default_flag by apply Hs. rewrite !match_flag. by destruct s.
Qed.

(* ------------------------------------------------------------------ *)
(** ** The structure is in the range of the wire format *)

Lemma opt_field_inv {A B} (f : A -> result B) o r :
  opt_field f o = Ok r ->
  (o = None /\ r = None) \/ exists a b, o = Some a /\ r = Some b /\ f a = Ok b.
Proof.
  destruct o as [a|]; simpl; [|naive_solver]. intros H. inv_ok. eauto 10.
Qed.

Lemma flagged_inv {A B} flag (f : A -> result B) a r :
  flagged flag f a = Ok r -> r = None \/ exists b, r = Some b /\ f a = Ok b.
Proof. unfold flagged. destruct flag; [|naive_solver]. intros H. inv_ok. eauto. Qed.

Lemma rmapM_Forall {A B} (f : A -> result B) (P : A -> Prop) (Q : B -> Prop) l r :
  rmapM f l = Ok r -> Forall P l -> (forall a b, P a -> f a = Ok b -> Q b) -> Forall Q r.
Proof.
  intros H Hl HQ. revert r H. induction Hl as [|a l Ha Hl IH]; simpl; intros r H; inv_ok.
  - constructor.
  - constructor; eauto.
Qed.

Lemma chain_key_ok o r :
  opt_all chain_wf o -> opt_field session_state_serialize_prepare_chain_chain_key o = Ok r ->
  match r with Some k => opt_u32 (ChainKey_index k) | None => True end.
Proof.
  intros Ho [[-> ->]|(a & b & -> & -> & Hb)]%opt_field_inv; [done|].
  injection Hb as <-. apply Ho.
Qed.

Lemma sender_chain_ok c r :
  sender_chain_wf c -> session_state_serialize_prepare_sender_chain c = Ok r -> Chain_ok r.
Proof.
  intros [_ Hc] H. unfold session_state_serialize_prepare_sender_chain in H. inv_ok.
  split; simpl; [|constructor]. by eapply chain_key_ok.
Qed.

Lemma receiver_chain_ok c r :
  receiver_chain_wf c -> session_state_serialize_prepare_receiver_chain c = Ok r -> Chain_ok r.
Proof.
  intros (_ & Hc & Hk & _) H. unfold session_state_serialize_prepare_receiver_chain in H. inv_ok.
  split; simpl; [by eapply chain_key_ok|].
  match goal with H : session_state_serialize_prepare_chain_message_keys_list _ = _ |- _ =>
    unfold session_state_serialize_prepare_chain_message_keys_list in H end. inv_ok.
  eapply rmapM_Forall; [done|exact Hk|]. intros k0 b (_ & _ & _ & Hu) [= <-]. exact Hu.
Qed.

Lemma i32_range z : - 2 ^ 31 <= i32 z < 2 ^ 31.
Proof. unfold i32. pose proof (Z.mod_pos_bound (z + 2 ^ 31) (2 ^ 32)). lia. Qed.

Lemma prepare_in_range s m :
  state_wf s -> session_state_serialize_prepare s = Ok m -> SessionStructure_ok m.
Proof.
  intros Hs H. unfold session_state_serialize_prepare in H. inv_ok.
  unfold SessionStructure_ok; simpl. split_and!; try apply Hs.
  - match goal with H : flagged _ session_state_serialize_prepare_sender_chain _ = _ |- _ =>
      apply flagged_inv in H as [->|(b & -> & Hb)] end; [done|].
    eapply sender_chain_ok; [apply Hs|done].
  - eapply rmapM_Forall; [eassumption|apply (wf_receivers s Hs)|]. apply receiver_chain_ok.
  - match goal with H : flagged _ session_state_serialize_prepare_pending_key_exchange _ = _ |- _ =>
      apply flagged_inv in H as [->|(b & -> & Hb)] end; [done|].
    unfold session_state_serialize_prepare_pending_key_exchange in Hb. inv_ok. simpl.
    apply (wf_exchange s Hs).
  - match goal with H : flagged _ session_state_serialize_prepare_pending_pre_key _ = _ |- _ =>
      apply flagged_inv in H as [->|(b & -> & Hb)] end; [done|].
    unfold session_state_serialize_prepare_pending_pre_key in Hb. inv_ok. simpl.
    split; [|apply i32_range]. destruct (has_pre_key_id _); [apply (wf_pending s Hs)|done].
Qed.

Section copy.
Context {SC : Codec SessionStructure} {SCL : CodecLaws SessionStructure SC SessionStructure_ok}.

Lemma session_state_copy_id s : state_storable s -> session_state_copy s = Ok s.
Proof.
  intros Hs. destruct (session_state_structure_round_trip s Hs) as (m & Em & Dm).
  unfold session_state_copy, session_state_serialize, session_state_deserialize.
  rewrite Em. cbn [rbind]. rewrite (packed_ok SC SessionStructure_ok). cbn [rbind].
  unfold unpacked. rewrite (unpack_pack (ok := SessionStructure_ok)); [done|].
  eapply prepare_in_range; [apply Hs|done].
Qed.

End copy.
