(* ===== verification/Protocol.v ===== *)
(** [protocol.c]: the wire messages of a session, [signal_message] and
    [pre_key_signal_message], with their serialization and message
    authentication code.

    Pointers the code tests or asserts are options; [serialized] is the buffer
    kept in the [base_message].  Sender key messages are not in this file. *)

From S2P Require Import Prelude Buffers Crypto Curve LocalStorage.

Definition CIPHERTEXT_UNSUPPORTED_VERSION := 1.
Definition CIPHERTEXT_CURRENT_VERSION := 3.
Definition SIGNAL_MESSAGE_MAC_LENGTH : nat := 8.

Record signal_message := mk_signal_message {
  message_version : Z;
  sm_sender_ratchet_key : option ec_public_key;
  msg_counter : Z;
  msg_previous_counter : Z;
  msg_ciphertext : option bytes;
  msg_serialized : option bytes }.

Record pre_key_signal_message := mk_pre_key_signal_message {
  pkm_version : Z;
  pkm_registration_id : Z;
  pkm_has_pre_key_id : bool;
  pkm_pre_key_id : Z;
  pkm_signed_pre_key_id : Z;
  pkm_base_key : option ec_public_key;
  pkm_identity_key : option ec_public_key;
  pkm_message : option signal_message;
  pkm_serialized : option bytes }.

#[global] Instance signal_message_eq_dec : EqDecision signal_message.
Proof. solve_decision. Defined.
#[global] Instance pre_key_signal_message_eq_dec : EqDecision pre_key_signal_message.
Proof. solve_decision. Defined.

(** [ciphertext_message]: the type tag is the constructor. *)
Inductive ciphertext_message : Type :=
| CIPHERTEXT_SIGNAL_TYPE (m : signal_message)
| CIPHERTEXT_PREKEY_TYPE (m : pre_key_signal_message).

(** [(version << 4) | CIPHERTEXT_CURRENT_VERSION] and [(data[0] & 0xF0) >> 4]. *)
Definition version_byte (version : Z) : byte :=
  u8 (Z.lor (Z.shiftl version 4) CIPHERTEXT_CURRENT_VERSION).
Definition high_nibble (b : byte) : Z := Z.shiftr (Z.land (byte_val b) 240) 4.

Section protocol.
Context `{CP : CryptoProvider}.
Context `{MC : Codec SignalMessage} `{PC : Codec PreKeySignalMessage}.

Definition signal_message_serialize (m : signal_message) : result bytes :=
  let? key := deref (sm_sender_ratchet_key m) in
  let? ratchetkey := ec_public_key_serialize_protobuf key in
  let? ciphertext := deref (msg_ciphertext m) in
  let? data := packed (mk_SignalMessage (Some ratchetkey) (Some (msg_counter m))
                 (Some (msg_previous_counter m)) (Some ciphertext)) in
  Ok (version_byte (message_version m) :: data).

Definition signal_message_get_mac (version : Z)
    (sender_identity_key receiver_identity_key : option ec_public_key)
    (mac_key serialized : bytes) : result bytes :=
  match hmac_sha256_init_func mac_key with
  | Ok c =>
      let? c := (if 3 <=? version then
                   let? sender := ec_public_key_serialize sender_identity_key in
                   let? c := hmac_sha256_update_func c sender in
                   let? receiver := ec_public_key_serialize receiver_identity_key in
                   hmac_sha256_update_func c receiver
                 else Ok c) in
      let? c := hmac_sha256_update_func c serialized in
      let? full_mac := hmac_sha256_final_func c in
      let? _ := ensure SG_ERR_UNKNOWN (SIGNAL_MESSAGE_MAC_LENGTH <=? length full_mac)%nat in
      Ok (take SIGNAL_MESSAGE_MAC_LENGTH full_mac)
  | Err _ | Stuck => Stuck
  end.

Definition signal_message_create (version : Z) (mac_key : bytes)
    (sender_ratchet_key : ec_public_key) (counter previous_counter : Z) (ciphertext : bytes)
    (sender_identity_key receiver_identity_key : option ec_public_key) : result signal_message :=
  let? body := require SG_ERR_NOMEM (signal_buffer_create ciphertext) in
  let m := mk_signal_message version (Some sender_ratchet_key) counter previous_counter
             (Some body) None in
  let? message_buf := signal_message_serialize m in
  let? mac := signal_message_get_mac version sender_identity_key receiver_identity_key
                mac_key message_buf in
  let? serialized := require SG_ERR_NOMEM (signal_buffer_append message_buf mac) in
  Ok (mk_signal_message version (Some sender_ratchet_key) counter previous_counter
        (Some body) (Some serialized)).

Definition signal_message_deserialize (data : bytes) : result signal_message :=
  let? _ := ensure SG_ERR_INVAL (1 + SIGNAL_MESSAGE_MAC_LENGTH <? length data)%nat in
  let version := high_nibble (nth 0 data x00) in
  let message_data := slice 1 (length data - 1 - SIGNAL_MESSAGE_MAC_LENGTH) data in
  let? _ := ensure SG_ERR_LEGACY_MESSAGE (negb (version <=? CIPHERTEXT_UNSUPPORTED_VERSION)) in
  let? _ := ensure SG_ERR_INVALID_MESSAGE (negb (CIPHERTEXT_CURRENT_VERSION <? version)) in
  let? st := unpacked message_data in
  match sm_ciphertext st, sm_counter st, sm_ratchetkey st with
  | Some ciphertext, Some counter, Some ratchetkey =>
      let? key := curve_decode_point ratchetkey in
      Ok (mk_signal_message version (Some key) counter (default 0 (sm_previouscounter st))
            (Some ciphertext) (Some data))
  | _, _, _ => Err SG_ERR_INVALID_MESSAGE
  end.

Definition signal_message_copy (m : signal_message) : result signal_message :=
  let? data := deref (msg_serialized m) in signal_message_deserialize data.

(** 1 is [true], 0 is [false]. *)
Definition signal_message_verify_mac (m : signal_message)
    (sender_identity_key receiver_identity_key : option ec_public_key) (mac_key : bytes)
    : result bool :=
  let? serialized := deref (msg_serialized m) in
  if (length serialized <? SIGNAL_MESSAGE_MAC_LENGTH)%nat then Stuck
  else
    let message_len := (length serialized - SIGNAL_MESSAGE_MAC_LENGTH)%nat in
    let? our_mac := signal_message_get_mac (message_version m)
                      sender_identity_key receiver_identity_key
                      mac_key (take message_len serialized) in
    let? _ := ensure SG_ERR_UNKNOWN (length our_mac =? SIGNAL_MESSAGE_MAC_LENGTH)%nat in
    Ok (signal_constant_memcmp our_mac (drop message_len serialized) (length our_mac) =? 0).

Definition signal_message_is_legacy (data : bytes) : bool :=
  (1 <=? length data)%nat && (high_nibble (nth 0 data x00) <=? CIPHERTEXT_UNSUPPORTED_VERSION).

Definition pre_key_signal_message_serialize (m : pre_key_signal_message) : result bytes :=
  let? bk := deref (pkm_base_key m) in
  let? basekey := ec_public_key_serialize_protobuf bk in
  let? ik := deref (pkm_identity_key m) in
  let? identitykey := ec_public_key_serialize_protobuf ik in
  let? inner := deref (pkm_message m) in
  let? inner_buffer := deref (msg_serialized inner) in
  let? data := packed (mk_PreKeySignalMessage (Some (pkm_registration_id m))
                 (if pkm_has_pre_key_id m then Some (pkm_pre_key_id m) else None)
                 (Some (pkm_signed_pre_key_id m))
                 (Some basekey) (Some identitykey) (Some inner_buffer)) in
  Ok (version_byte (pkm_version m) :: data).

Definition pre_key_signal_message_create (version registration_id : Z) (pre_key_id : option Z)
    (signed_pre_key_id : Z) (base_key identity_key : ec_public_key) (message : signal_message)
    : result pre_key_signal_message :=
  let m serialized := mk_pre_key_signal_message version registration_id
             (match pre_key_id with Some _ => true | None => false end)
             (default 0 pre_key_id) signed_pre_key_id (Some base_key) (Some identity_key)
             (Some message) serialized in
  let? serialized := pre_key_signal_message_serialize (m None) in
  Ok (m (Some serialized)).

Definition pre_key_signal_message_deserialize (data : bytes) : result pre_key_signal_message :=
  let? _ := ensure SG_ERR_INVAL (1 <? length data)%nat in
  let version := high_nibble (nth 0 data x00) in
  let message_data := slice 1 (length data - 1) data in
  let? _ := ensure SG_ERR_LEGACY_MESSAGE (negb (version <? CIPHERTEXT_CURRENT_VERSION)) in
  let? _ := ensure SG_ERR_INVALID_VERSION (negb (CIPHERTEXT_CURRENT_VERSION <? version)) in
  let? st := unpacked message_data in
  match pksm_signedprekeyid st, pksm_basekey st, pksm_identitykey st, pksm_message st with
  | Some signed_pre_key_id, Some basekey, Some identitykey, Some message =>
      let? bk := curve_decode_point basekey in
      let? ik := curve_decode_point identitykey in
      let? inner := signal_message_deserialize message in
      let? _ := ensure SG_ERR_INVALID_VERSION (message_version inner =? version) in
      Ok (mk_pre_key_signal_message version (default 0 (pksm_registrationid st))
            (match pksm_prekeyid st with Some _ => true | None => false end)
            (default 0 (pksm_prekeyid st)) signed_pre_key_id
            (Some bk) (Some ik) (Some inner) (Some data))
  | _, _, _, _ => Err SG_ERR_INVALID_MESSAGE
  end.

End protocol.

(* ------------------------------------------------------------------ *)
(** ** Lemmas *)

Lemma high_nibble_version_byte v : 0 <= v < 16 -> high_nibble (version_byte v) = v.
Proof.
  intros Hv.
  assert (v ∈ map Z.of_nat (seq 0 16)) as Hin.
  { apply list_elem_of_In, in_map_iff. exists (Z.to_nat v). split; [lia|]. apply in_seq. lia. }
  revert Hin. clear Hv. simpl. rewrite !elem_of_cons, elem_of_nil.
  intros H. repeat destruct H as [->|H]; by vm_compute.
Qed.

Section laws.
Context `{CP : CryptoProvider} {CL : CryptoProviderLaws CP}.
Context {MC : Codec SignalMessage} {MCL : CodecLaws SignalMessage MC SignalMessage_ok}.
Context {PC : Codec PreKeySignalMessage} {PCL : CodecLaws PreKeySignalMessage PC PreKeySignalMessage_ok}.

(** The bytes the MAC covers. *)
Definition mac_input (version : Z) (s r : ec_public_key) (serialized : bytes) : bytes :=
  (if 3 <=? version
   then (DJB_TYPE :: take DJB_KEY_LEN (pub_data s)) ++ (DJB_TYPE :: take DJB_KEY_LEN (pub_data r))
   else []) ++ serialized.

Lemma get_mac_ok version s r mk data :
  signal_message_get_mac version (Some s) (Some r) mk data =
  Ok (take SIGNAL_MESSAGE_MAC_LENGTH (HMAC mk (mac_input version s r data))).
Proof.
  unfold signal_message_get_mac, mac_input. destruct (hmac_init_ok mk) as [c Hc]. rewrite Hc.
  destruct (3 <=? version).
  - pose proof (hmac_correct mk [DJB_TYPE :: take DJB_KEY_LEN (pub_data s);
       DJB_TYPE :: take DJB_KEY_LEN (pub_data r); data]) as H.
    unfold hmac_sha256, hmac_rest in H. rewrite Hc in H. cbn [rbind hmac_updates concat] in H.
    rewrite !rbind_assoc in H. cbn [ec_public_key_serialize rbind]. rewrite rbind_assoc.
    destruct (hmac_sha256_update_func c _) as [c1| |]; cbn [rbind] in *; [|done|done].
    rewrite rbind_assoc in H.
    destruct (hmac_sha256_update_func c1 _) as [c2| |]; cbn [rbind] in *; [|done|done].
    rewrite rbind_assoc in H. cbn [rbind] in H.
    destruct (hmac_sha256_update_func c2 _) as [c3| |]; cbn [rbind] in *; [|done|done].
    rewrite H. cbn [rbind]. rewrite HMAC_length. cbn. by rewrite !app_nil_r, <- app_assoc.
  - pose proof (hmac_correct mk [data]) as H.
    unfold hmac_sha256, hmac_rest in H. rewrite Hc in H. cbn [rbind hmac_updates concat] in H.
    rewrite !rbind_assoc in H. cbn [rbind] in *.
    destruct (hmac_sha256_update_func c _) as [c1| |]; cbn [rbind] in *; [|done|done].
    rewrite H. cbn [rbind]. rewrite HMAC_length. cbn. by rewrite !app_nil_r.
Qed.

Lemma length_mac version s r mk data :
  length (take SIGNAL_MESSAGE_MAC_LENGTH (HMAC mk (mac_input version s r data))) = 8%nat.
Proof. rewrite length_take, HMAC_length. done. Qed.

(** Old and unknown versions.  A message whose version nibble is 0 or 1 is
    refused as a legacy message, one above 3 as an invalid message, before its
    contents are looked at. *)
Lemma message_versions_refused b data :
  (SIGNAL_MESSAGE_MAC_LENGTH < length data)%nat ->
  (high_nibble b <= CIPHERTEXT_UNSUPPORTED_VERSION ->
    signal_message_deserialize (b :: data) = Err SG_ERR_LEGACY_MESSAGE) /\
  (CIPHERTEXT_CURRENT_VERSION < high_nibble b ->
    signal_message_deserialize (b :: data) = Err SG_ERR_INVALID_MESSAGE).
Proof.
  intros Hl. unfold signal_message_deserialize. cbn [length nth].
  rewrite (proj2 (Nat.ltb_lt _ _)) by lia. cbn [ensure rbind].
  unfold CIPHERTEXT_UNSUPPORTED_VERSION, CIPHERTEXT_CURRENT_VERSION. split; intros Hb.
  - by rewrite (proj2 (Z.leb_le _ _)) by lia.
  - rewrite (proj2 (Z.leb_gt _ _)) by lia. cbn [negb ensure rbind].
    by rewrite (proj2 (Z.ltb_lt _ _)) by lia.
Qed.

(** The shape of a created message. *)
Lemma signal_message_create_inv version mk rk n pn ct s r m :
  signal_message_create version mk rk n pn ct (Some s) (Some r) = Ok m ->
  let st := mk_SignalMessage (Some (DJB_TYPE :: take DJB_KEY_LEN (pub_data rk))) (Some n) (Some pn) (Some ct) in
  let body := version_byte version :: pack st in
  m = mk_signal_message version (Some rk) n pn (Some ct)
        (Some (body ++ take SIGNAL_MESSAGE_MAC_LENGTH (HMAC mk (mac_input version s r body)))).
Proof.
  intros H. unfold signal_message_create in H. inv_ok.
  unfold signal_buffer_create in Hr. destruct (signal_buffer_alloc_ok _); [|done].
  injection Hr as <-.
  unfold signal_message_serialize in Hr0. cbn [sm_sender_ratchet_key msg_ciphertext deref rbind] in Hr0.
  unfold ec_public_key_serialize_protobuf in Hr0. cbn [rbind] in Hr0.
  rewrite (packed_ok MC SignalMessage_ok) in Hr0. cbn [rbind] in Hr0. injection Hr0 as <-.
  rewrite get_mac_ok in Hr1. injection Hr1 as <-.
  unfold signal_buffer_append in Hr2. case_match; [done|]. by injection Hr2 as <-.
Qed.

(** An accepted message carries the MAC of its contents. *)
Lemma verify_mac_sound m s r mk data :
  signal_message_verify_mac m (Some s) (Some r) mk = Ok true -> msg_serialized m = Some data ->
  exists body, data = body ++ take SIGNAL_MESSAGE_MAC_LENGTH
    (HMAC mk (mac_input (message_version m) s r body)).
Proof.
  intros H Hd. unfold signal_message_verify_mac in H. rewrite Hd in H. cbn [deref rbind] in H.
  destruct (Nat.ltb_spec (length data) SIGNAL_MESSAGE_MAC_LENGTH) as [|Hlen]; [done|].
  rewrite get_mac_ok in H. cbn [rbind] in H. rewrite length_mac in H.
  change (8 =? SIGNAL_MESSAGE_MAC_LENGTH)%nat with true in H. cbn [ensure rbind] in H.
  injection H as H%Z.eqb_eq. unfold SIGNAL_MESSAGE_MAC_LENGTH in *.
  apply signal_constant_memcmp_zero in H; [|apply length_mac|rewrite length_drop; lia].
  exists (take (length data - 8) data). rewrite H. by rewrite take_drop.
Qed.

Lemma verify_mac_complete m s r mk body :
  msg_serialized m = Some (body ++ take SIGNAL_MESSAGE_MAC_LENGTH
    (HMAC mk (mac_input (message_version m) s r body))) ->
  signal_message_verify_mac m (Some s) (Some r) mk = Ok true.
Proof.
  intros Hd. unfold signal_message_verify_mac. rewrite Hd. cbn [deref rbind].
  rewrite length_app, length_mac.
  rewrite (proj2 (Nat.ltb_ge _ _)) by (unfold SIGNAL_MESSAGE_MAC_LENGTH; lia).
  rewrite Nat.add_sub. rewrite take_app_length, drop_app_length.
  rewrite get_mac_ok. cbn [rbind]. rewrite length_mac.
  change (8 =? SIGNAL_MESSAGE_MAC_LENGTH)%nat with true. cbn [ensure rbind].
  f_equal. apply Z.eqb_eq, signal_constant_memcmp_zero; [apply length_mac..|done].
Qed.

(** The receiver's check accepts what the sender created with the same keys. *)
Lemma verify_mac_create version mk rk n pn ct s r m :
  signal_message_create version mk rk n pn ct (Some s) (Some r) = Ok m ->
  signal_message_verify_mac m (Some s) (Some r) mk = Ok true.
Proof. intros ->%signal_message_create_inv. by eapply verify_mac_complete. Qed.

Lemma unpacked_pack_message st : SignalMessage_ok st -> unpacked (pack st) = Ok st.
Proof. intros H. unfold unpacked. by rewrite (unpack_pack (ok := SignalMessage_ok)). Qed.

(** Parsing the serialized form of a created message gives the message back. *)
Lemma signal_message_round_trip version mk rk n pn ct s r m :
  2 <= version <= 3 -> pub_wf rk -> is_u32 n -> is_u32 pn ->
  signal_message_create version mk rk n pn ct (Some s) (Some r) = Ok m ->
  signal_message_copy m = Ok m.
Proof.
  intros Hv Hk Hn Hpn ->%signal_message_create_inv.
  rewrite take_ge in * by (rewrite Hk; done).
  set (st := mk_SignalMessage _ _ _ _) in *.
  assert (pack st <> []) as Hne by (by apply (pack_nonempty MC SignalMessage_ok)). set (mac := take _ (HMAC _ _)).
  assert (length mac = 8%nat) as Hmac by apply length_mac.
  unfold signal_message_copy. cbn [msg_serialized deref rbind].
  unfold signal_message_deserialize. rewrite length_app, Hmac. cbn [length].
  assert (length (pack st) <> 0%nat) by (by destruct (pack st)).
  rewrite (proj2 (Nat.ltb_lt _ _)) by (unfold SIGNAL_MESSAGE_MAC_LENGTH; lia).
  cbn [ensure rbind app nth]. rewrite high_nibble_version_byte by lia.
  rewrite (proj2 (Z.leb_gt _ _)) by (unfold CIPHERTEXT_UNSUPPORTED_VERSION; lia).
  rewrite (proj2 (Z.ltb_ge _ _)) by (unfold CIPHERTEXT_CURRENT_VERSION; lia).
  cbn [negb ensure rbind].
  assert (slice 1 (S (length (pack st)) + 8 - 1 - SIGNAL_MESSAGE_MAC_LENGTH)
    (version_byte version :: pack st ++ mac) = pack st) as ->.
  { unfold slice, SIGNAL_MESSAGE_MAC_LENGTH. cbn [drop]. rewrite drop_0.
    replace (S (length (pack st)) + 8 - 1 - 8)%nat with (length (pack st)) by lia.
    apply take_app_length. }
  rewrite unpacked_pack_message by done. cbn [rbind]. unfold st at 1 2 3.
  cbn [sm_ciphertext sm_counter sm_ratchetkey].
  pose proof (curve_decode_serialize rk Hk) as Hd. simpl in Hd.
  rewrite take_ge in Hd by (rewrite Hk; done). rewrite Hd. done.
Qed.

(** The shape of a created pre-key message. *)
Lemma pre_key_signal_message_create_inv version reg id sid bk ik inner m :
  pre_key_signal_message_create version reg id sid bk ik inner = Ok m ->
  exists data, msg_serialized inner = Some data /\
  m = mk_pre_key_signal_message version reg (match id with Some _ => true | None => false end)
        (default 0 id) sid (Some bk) (Some ik) (Some inner)
        (Some (version_byte version :: pack (mk_PreKeySignalMessage (Some reg) id (Some sid)
           (Some (DJB_TYPE :: take DJB_KEY_LEN (pub_data bk)))
           (Some (DJB_TYPE :: take DJB_KEY_LEN (pub_data ik))) (Some data)))).
Proof.
  unfold pre_key_signal_message_create, pre_key_signal_message_serialize.
  cbn [pkm_base_key pkm_identity_key pkm_message deref rbind pkm_registration_id
    pkm_has_pre_key_id pkm_pre_key_id pkm_signed_pre_key_id pkm_version].
  unfold ec_public_key_serialize_protobuf. cbn [rbind].
  destruct (msg_serialized inner) as [data|]; [|done]. cbn [deref rbind].
  rewrite (packed_ok PC PreKeySignalMessage_ok). cbn [rbind]. intros [= <-].
  exists data. split; [done|]. by destruct id.
Qed.

(** Parsing the serialized form of a created pre-key message, with a current
    inner message, gives it back. *)
Lemma pre_key_signal_message_round_trip reg id sid bk ik inner m data :
  pub_wf bk -> pub_wf ik -> is_u32 reg -> opt_u32 id -> is_u32 sid ->
  message_version inner = CIPHERTEXT_CURRENT_VERSION -> signal_message_copy inner = Ok inner ->
  pre_key_signal_message_create CIPHERTEXT_CURRENT_VERSION reg id sid bk ik inner = Ok m ->
  pkm_serialized m = Some data ->
  pre_key_signal_message_deserialize data = Ok m.
Proof.
  intros Hbk Hik Hreg Hid Hsid Hv Hcopy (idata & Hi & ->)%pre_key_signal_message_create_inv.
  cbn [pkm_serialized]. intros [= <-].
  rewrite !take_ge by (rewrite ?Hbk, ?Hik; done).
  set (st := mk_PreKeySignalMessage _ _ _ _ _ _) in *.
  assert (PreKeySignalMessage_ok st) as Hok by done.
  assert (pack st <> []) as Hne by (by apply (pack_nonempty PC PreKeySignalMessage_ok)).
  unfold pre_key_signal_message_deserialize. cbn [length nth].
  assert (length (pack st) <> 0%nat) by (by destruct (pack st)).
  rewrite (proj2 (Nat.ltb_lt _ _)) by lia. cbn [ensure rbind].
  rewrite high_nibble_version_byte by (unfold CIPHERTEXT_CURRENT_VERSION; lia).
  rewrite Z.ltb_irrefl. cbn [negb ensure rbind].
  assert (slice 1 (S (length (pack st)) - 1) (version_byte CIPHERTEXT_CURRENT_VERSION :: pack st)
    = pack st) as ->.
  { unfold slice. cbn [drop]. rewrite drop_0, take_ge; [done|lia]. }
  unfold unpacked. rewrite (unpack_pack (ok := PreKeySignalMessage_ok)) by done.
  cbn [require rbind]. unfold st at 1 2 3 4.
  cbn [pksm_signedprekeyid pksm_basekey pksm_identitykey pksm_message].
  pose proof (curve_decode_serialize bk Hbk) as Hb. pose proof (curve_decode_serialize ik Hik) as Hk.
  simpl in Hb, Hk. rewrite take_ge in Hb, Hk by (rewrite ?Hbk, ?Hik; done).
  rewrite Hb, Hk. cbn [rbind]. unfold signal_message_copy in Hcopy. rewrite Hi in Hcopy.
  cbn [deref rbind] in Hcopy. rewrite Hcopy. cbn [rbind]. rewrite Hv, Z.eqb_refl.
  cbn [ensure rbind]. by destruct id.
Qed.

End laws.
