(* ===== verification/RatchetSession.v ===== *)
(** [ratchet.c], second half: the X3DH key agreement that initializes the
    session states of the two parties, [ratcheting_session_alice_initialize],
    [ratcheting_session_bob_initialize] and the symmetric variant.

    Alice's set-up draws a ratchet key, so it runs on the random source and the
    session state, [rng * session_state]. *)

From S2P Require Import Prelude Buffers Vpool Crypto Hkdf Curve Ratchet SessionState Protocol.

(** [vpool_insert(&vp, vpool_get_length(&vp), data, len)] with its test. *)
Definition vpool_add (vp : vpool) (data : bytes) : result vpool :=
  require SG_ERR_NOMEM (vpool_insert vp (vpool_get_length vp) data).

Definition discontinuity_data : bytes := repeat (u8 255) 32.

Section initialize.
Context `{CP : CryptoProvider} `{CV : Curve25519}.

(** One [curve_calculate_agreement] added to the pool. *)
Definition add_agreement (vp : vpool) (pub : ec_public_key) (priv : ec_private_key) : result vpool :=
  let? agreement := curve_calculate_agreement (Some pub) (Some priv) in
  vpool_add vp agreement.

Definition alice_master_secret (p : alice_signal_protocol_parameters) : result bytes :=
  let? vp := vpool_add (vpool_init 1024 0) discontinuity_data in
  let? vp := add_agreement vp (alice_their_signed_pre_key p) (id_private (alice_our_identity_key p)) in
  let? vp := add_agreement vp (alice_their_identity_key p) (private_key (alice_our_base_key p)) in
  let? vp := add_agreement vp (alice_their_signed_pre_key p) (private_key (alice_our_base_key p)) in
  let? vp := match alice_their_one_time_pre_key p with
             | Some k => add_agreement vp k (private_key (alice_our_base_key p))
             | None => Ok vp
             end in
  let? _ := ensure SG_ERR_UNKNOWN (negb (vpool_is_empty vp)) in
  Ok (vpool_get_buf vp).

Definition bob_master_secret (p : bob_signal_protocol_parameters) : result bytes :=
  let? vp := vpool_add (vpool_init 1024 0) discontinuity_data in
  let? vp := add_agreement vp (bob_their_identity_key p) (private_key (bob_our_signed_pre_key p)) in
  let? vp := add_agreement vp (bob_their_base_key p) (id_private (bob_our_identity_key p)) in
  let? vp := add_agreement vp (bob_their_base_key p) (private_key (bob_our_signed_pre_key p)) in
  let? vp := match bob_our_one_time_pre_key p with
             | Some k => add_agreement vp (bob_their_base_key p) (private_key k)
             | None => Ok vp
             end in
  let? _ := ensure SG_ERR_UNKNOWN (negb (vpool_is_empty vp)) in
  Ok (vpool_get_buf vp).

Definition ratcheting_session_alice_initialize (p : alice_signal_protocol_parameters)
    : M (rng * session_state) unit :=
  do sending_ratchet_key <- on_fst curve_generate_key_pair;
  do secret <- lift (alice_master_secret p);
  do derived <- lift (ratcheting_session_calculate_derived_keys secret);
  do sending <- lift (ratchet_root_key_create_chain derived.1
      (Some (alice_their_ratchet_key p)) (Some (private_key sending_ratchet_key)));
  exec on_snd (session_state_add_receiver_chain (alice_their_ratchet_key p) derived.2);
  exec on_snd (modify (session_state_set_session_version CIPHERTEXT_CURRENT_VERSION));
  exec on_snd (modify (session_state_set_remote_identity_key (alice_their_identity_key p)));
  exec on_snd (modify (session_state_set_local_identity_key (id_public (alice_our_identity_key p))));
  exec on_snd (modify (session_state_set_sender_chain sending_ratchet_key sending.2));
  on_snd (modify (session_state_set_root_key sending.1)).

Definition ratcheting_session_bob_initialize (p : bob_signal_protocol_parameters)
    : M session_state unit :=
  do secret <- lift (bob_master_secret p);
  do derived <- lift (ratcheting_session_calculate_derived_keys secret);
  exec modify (session_state_set_session_version CIPHERTEXT_CURRENT_VERSION);
  exec modify (session_state_set_remote_identity_key (bob_their_identity_key p));
  exec modify (session_state_set_local_identity_key (id_public (bob_our_identity_key p)));
  exec modify (session_state_set_sender_chain (bob_our_ratchet_key p) derived.2);
  modify (session_state_set_root_key derived.1).

Definition ratcheting_session_symmetric_initialize (p : symmetric_signal_protocol_parameters)
    : M (rng * session_state) unit :=
  if ratcheting_session_symmetric_is_alice p then
    do q <- lift (alice_signal_protocol_parameters_create
        (Some (sym_our_identity_key p)) (Some (sym_our_base_key p))
        (Some (sym_their_identity_key p)) (Some (sym_their_base_key p)) None
        (Some (sym_their_ratchet_key p)));
    ratcheting_session_alice_initialize q
  else
    do q <- lift (bob_signal_protocol_parameters_create
        (Some (sym_our_identity_key p)) (Some (sym_our_base_key p)) None
        (Some (sym_our_ratchet_key p)) (Some (sym_their_identity_key p))
        (Some (sym_their_base_key p)));
    on_snd (ratcheting_session_bob_initialize q).

End initialize.

(* ------------------------------------------------------------------ *)
(** ** The agreement *)

Section agreement.
Context `{CP : CryptoProvider} {CL : CryptoProviderLaws CP}.
Context `{CV : Curve25519} {CVL : Curve25519Laws CV}.

(** A pool that still has room for the few kilobytes the set-up stores. *)
Definition pool_at (vp : vpool) (data : bytes) : Prop :=
  vpool_wf vp /\ v_limit vp = SIZE_MAX /\ v_data vp = data.

Lemma vpool_add_ok vp data more :
  pool_at vp data -> (length data + length more <= 4096)%nat ->
  exists vp', vpool_add vp more = Ok vp' /\ pool_at vp' (data ++ more).
Proof.
  intros (Hwf & Hlim & Hd) Hlen.
  destruct (vpool_insert_append vp more Hwf) as (vp' & E & Hd' & Hl' & Hwf').
  { rewrite Hlim. unfold v_off. rewrite Hd. unfold SIZE_MAX. lia. }
  exists vp'. unfold vpool_add. rewrite E. split; [done|].
  split_and!; [done|congruence|congruence].
Qed.

Lemma add_agreement_ok vp data pub priv s :
  curve_calculate_agreement (Some pub) (Some priv) = Ok s -> length s = 32%nat ->
  pool_at vp data -> (length data <= 1024)%nat ->
  exists vp', add_agreement vp pub priv = Ok vp' /\ pool_at vp' (data ++ s).
Proof.
  intros Ha Hs Hp Hl. unfold add_agreement. rewrite Ha. simpl.
  apply vpool_add_ok; [done|lia].
Qed.

Lemma pool_nonempty vp data : pool_at vp data -> data <> [] -> vpool_is_empty vp = false.
Proof.
  intros (_ & _ & Hd) Hn. unfold vpool_is_empty, v_off. rewrite Hd.
  apply Z.eqb_neq. by destruct data.
Qed.

(** The key pairs of the two parties, as the parameter records describe them:
    [ia], [ea] are Alice's identity and base keys, [ib], [sb] and [ob] Bob's
    identity, signed and optional one-time pre-keys. *)
Record x3dh_keys := mk_x3dh {
  k_ia : ec_key_pair; k_ea : ec_key_pair;
  k_ib : ec_key_pair; k_sb : ec_key_pair; k_ob : option ec_key_pair }.

Definition x3dh_valid (k : x3dh_keys) : Prop :=
  valid_pair (k_ia k) /\ valid_pair (k_ea k) /\ valid_pair (k_ib k) /\ valid_pair (k_sb k) /\
  opt_all valid_pair (k_ob k).

Definition identity_of (p : ec_key_pair) : ratchet_identity_key_pair :=
  mk_identity (public_key p) (private_key p).

Definition alice_of (k : x3dh_keys) : alice_signal_protocol_parameters :=
  mk_alice (identity_of (k_ia k)) (k_ea k) (public_key (k_ib k)) (public_key (k_sb k))
    (public_key <$> k_ob k) (public_key (k_sb k)).

Definition bob_of (k : x3dh_keys) : bob_signal_protocol_parameters :=
  mk_bob (identity_of (k_ib k)) (k_sb k) (k_ob k) (k_sb k)
    (public_key (k_ia k)) (public_key (k_ea k)).

(** Both parties obtain the same master secret. *)
Lemma master_secret_agree k : x3dh_valid k ->
  exists secret, alice_master_secret (alice_of k) = Ok secret /\
    bob_master_secret (bob_of k) = Ok secret.
Proof.
  intros (Hia & Hea & Hib & Hsb & Hob).
  destruct (agreement_comm (k_ia k) (k_sb k) Hia Hsb) as (s1 & L1 & A1 & B1).
  destruct (agreement_comm (k_ea k) (k_ib k) Hea Hib) as (s2 & L2 & A2 & B2).
  destruct (agreement_comm (k_ea k) (k_sb k) Hea Hsb) as (s3 & L3 & A3 & B3).
  unfold alice_master_secret, bob_master_secret.
  cbn [alice_of bob_of alice_their_signed_pre_key alice_our_identity_key id_private identity_of
    alice_their_identity_key alice_our_base_key alice_their_one_time_pre_key bob_their_identity_key
    bob_our_signed_pre_key bob_their_base_key bob_our_identity_key bob_our_one_time_pre_key].
  destruct (vpool_add_ok (vpool_init 1024 0) [] discontinuity_data) as (v0 & E0 & P0).
  { split; [by apply vpool_init_wf|done]. }
  { simpl. lia. }
  rewrite E0. cbn [rbind]. rewrite app_nil_l in P0.
  destruct (add_agreement_ok _ _ _ _ _ A1 L1 P0) as (v1 & E1 & P1); [simpl; lia|].
  destruct (add_agreement_ok _ _ _ _ _ A2 L2 P1) as (v2 & E2 & P2); [rewrite length_app, L1; simpl; lia|].
  destruct (add_agreement_ok _ _ _ _ _ A3 L3 P2) as (v3 & E3 & P3); [rewrite !length_app, L1, L2; simpl; lia|].
  destruct (add_agreement_ok _ _ _ _ _ B1 L1 P0) as (w1 & F1 & Q1); [simpl; lia|].
  destruct (add_agreement_ok _ _ _ _ _ B2 L2 Q1) as (w2 & F2 & Q2); [rewrite length_app, L1; simpl; lia|].
  destruct (add_agreement_ok _ _ _ _ _ B3 L3 Q2) as (w3 & F3 & Q3); [rewrite !length_app, L1, L2; simpl; lia|].
  rewrite E1. cbn [rbind]. rewrite E2. cbn [rbind]. rewrite E3. cbn [rbind].
  rewrite F1. cbn [rbind]. rewrite F2. cbn [rbind]. rewrite F3. cbn [rbind].
  destruct (k_ob k) as [ob|]; cbn [fmap option_fmap option_map opt_all] in *.
  - destruct (agreement_comm (k_ea k) ob Hea Hob) as (s4 & L4 & A4 & B4).
    destruct (add_agreement_ok _ _ _ _ _ A4 L4 P3) as (v4 & E4 & P4);
      [rewrite !length_app, L1, L2, L3; simpl; lia|].
    destruct (add_agreement_ok _ _ _ _ _ B4 L4 Q3) as (w4 & F4 & Q4);
      [rewrite !length_app, L1, L2, L3; simpl; lia|].
    rewrite E4, F4. cbn [rbind].
    rewrite (pool_nonempty _ _ P4), (pool_nonempty _ _ Q4) by done.
    eexists. split; [done|]. cbn. f_equal. unfold vpool_get_buf.
    by rewrite (proj2 (proj2 P4)), (proj2 (proj2 Q4)).
  - cbn [rbind]. rewrite (pool_nonempty _ _ P3), (pool_nonempty _ _ Q3) by done.
    eexists. split; [done|]. cbn. f_equal. unfold vpool_get_buf.
    by rewrite (proj2 (proj2 P3)), (proj2 (proj2 Q3)).
Qed.

(** What the two set-ups leave in the states. *)
Lemma alice_initialize_inv p g s g' s' :
  ratcheting_session_alice_initialize p (g, s) = (Ok tt, (g', s')) ->
  exists pair secret sending,
    curve_generate_key_pair g = (Ok pair, g') /\
    alice_master_secret p = Ok secret /\
    ratchet_root_key_create_chain (derived_keys secret).1
      (Some (alice_their_ratchet_key p)) (Some (private_key pair)) = Ok sending /\
    s' = session_state_set_root_key sending.1
          (session_state_set_sender_chain pair sending.2
          (session_state_set_local_identity_key (id_public (alice_our_identity_key p))
          (session_state_set_remote_identity_key (alice_their_identity_key p)
          (session_state_set_session_version CIPHERTEXT_CURRENT_VERSION
          (session_state_add_receiver_chain (alice_their_ratchet_key p)
             (derived_keys secret).2 s).2)))).
Proof.
  unfold ratcheting_session_alice_initialize, on_fst, on_snd, zoom.
  unfold bind at 1. cbn [fst snd].
  destruct (curve_generate_key_pair g) as [[pair| |] g1] eqn:Eg; [|done|done].
  unfold bind, lift. destruct (alice_master_secret p) as [secret| |] eqn:Es; [|done|done].
  rewrite calculate_derived_keys_ok.
  destruct (ratchet_root_key_create_chain _ _ _) as [sending| |] eqn:Ec; [|done|done].
  cbn. intros H. injection H as <- <-. eauto 10.
Qed.

Lemma bob_initialize_inv p s s' :
  ratcheting_session_bob_initialize p s = (Ok tt, s') ->
  exists secret, bob_master_secret p = Ok secret /\
    s' = session_state_set_root_key (derived_keys secret).1
          (session_state_set_sender_chain (bob_our_ratchet_key p) (derived_keys secret).2
          (session_state_set_local_identity_key (id_public (bob_our_identity_key p))
          (session_state_set_remote_identity_key (bob_their_identity_key p)
          (session_state_set_session_version CIPHERTEXT_CURRENT_VERSION s)))).
Proof.
  unfold ratcheting_session_bob_initialize, bind, lift.
  destruct (bob_master_secret p) as [secret| |] eqn:Es; [|done|done].
  rewrite calculate_derived_keys_ok. cbn. intros [= <-]. eauto.
Qed.

(** Bob's set-up cannot fail on valid keys. *)
Lemma bob_initialize_ok k s : x3dh_valid k ->
  exists s', ratcheting_session_bob_initialize (bob_of k) s = (Ok tt, s').
Proof.
  intros Hk. destruct (master_secret_agree k Hk) as (secret & _ & Hb).
  unfold ratcheting_session_bob_initialize, bind, lift. rewrite Hb, calculate_derived_keys_ok.
  by eexists.
Qed.

End agreement.
