(* ===== verification/SessionRecord.v ===== *)
(** [session_record.c]: the current session state of a contact and the archive
    of at most 40 previous ones. *)

From S2P Require Import Prelude Buffers Crypto Hkdf Curve Ratchet SessionState LocalStorage.
From S2P Require Import SessionSerial.

Definition ARCHIVED_STATES_MAX_LENGTH : nat := 40.

Record session_record := mk_record {
  rec_state : option session_state;
  previous_states : list session_state;
  is_fresh : bool;
  user_record : option bytes }.

#[global] Instance session_record_eq_dec : EqDecision session_record.
Proof. solve_decision. Defined.

Definition session_record_create (state : option session_state) : session_record :=
  match state with
  | None => mk_record (Some session_state_create) [] true None
  | Some s => mk_record (Some s) [] false None
  end.

Definition session_record_get_state (r : session_record) : option session_state := rec_state r.

Definition session_record_set_state (s : session_state) (r : session_record) : session_record :=
  mk_record (Some s) (previous_states r) (is_fresh r) (user_record r).

Definition session_record_set_user_record (u : option bytes) (r : session_record) : session_record :=
  mk_record (rec_state r) (previous_states r) (is_fresh r) u.

(** The archived state at a position of the list is unlinked and freed. *)
Definition session_record_get_previous_states_remove (i : nat) (r : session_record) : session_record :=
  mk_record (rec_state r) (delete i (previous_states r)) (is_fresh r) (user_record r).

(** The [DL_FOREACH_SAFE] loop that deletes the nodes beyond the maximum. *)
Fixpoint trim_archive (count : nat) (l : list session_state) : list session_state :=
  match l with
  | [] => []
  | s :: l' =>
      let count := S count in
      if (ARCHIVED_STATES_MAX_LENGTH <? count)%nat then trim_archive count l'
      else s :: trim_archive count l'
  end.

Definition session_record_promote_state (promoted : session_state) (r : session_record)
    : session_record :=
  let archive := match rec_state r with
                 | Some s => s :: previous_states r
                 | None => previous_states r
                 end in
  mk_record (Some promoted) (trim_archive 0 archive) (is_fresh r) (user_record r).

Definition session_record_archive_current_state (r : session_record) : session_record :=
  session_record_promote_state session_state_create r.

(** The test of [session_record_has_session_state] on one state. *)
Definition matches_session (version : Z) (key : option ec_public_key) (s : session_state) : bool :=
  (session_version s =? version) && (ec_public_key_compare (alice_base_key s) key =? 0).

(** [assert(record->state)] fails without a current state. *)
Definition session_record_has_session_state (r : session_record) (version : Z)
    (key : option ec_public_key) : result bool :=
  let? s := deref (rec_state r) in
  Ok (matches_session version key s || existsb (matches_session version key) (previous_states r)).

Section codec.
Context `{RC : Codec RecordStructure}.

Definition session_record_serialize (r : option session_record) : result bytes :=
  let? r := require SG_ERR_INVAL r in
  let? current := opt_field session_state_serialize_prepare (rec_state r) in
  let? _ := ensure SG_ERR_NOMEM (array_fits (previous_states r)) in
  let? previous := rmapM session_state_serialize_prepare (previous_states r) in
  packed (mk_RecordStructure current previous).

Definition session_record_deserialize (data : bytes) : result session_record :=
  let? m := unpacked data in
  let? current := opt_field session_state_deserialize_protobuf (rs_currentsession m) in
  let r := session_record_create current in
  let? previous := rmapM session_state_deserialize_protobuf (rs_previoussessions m) in
  Ok (mk_record (rec_state r) previous false (user_record r)).

Definition session_record_copy (r : session_record) : result session_record :=
  let? data := session_record_serialize (Some r) in
  let? r' := session_record_deserialize data in
  match user_record r with
  | None => Ok r'
  | Some u =>
      let? u' := require SG_ERR_NOMEM (signal_buffer_copy u) in
      Ok (session_record_set_user_record (Some u') r')
  end.

End codec.

(* ------------------------------------------------------------------ *)
(** ** Lemmas *)

Lemma trim_archive_take count l :
  trim_archive count l = take (ARCHIVED_STATES_MAX_LENGTH - count) l.
Proof.
  revert count. induction l as [|s l IH]; intros count; simpl; [by rewrite take_nil|].
  destruct (Nat.ltb_spec ARCHIVED_STATES_MAX_LENGTH (S count)) as [Hlt|Hge]; rewrite IH.
  - replace (ARCHIVED_STATES_MAX_LENGTH - S count)%nat with 0%nat by lia.
    by replace (ARCHIVED_STATES_MAX_LENGTH - count)%nat with 0%nat by lia.
  - by replace (ARCHIVED_STATES_MAX_LENGTH - count)%nat
      with (S (ARCHIVED_STATES_MAX_LENGTH - S count)) by lia.
Qed.

(** The invariant of a record: a current state, and a bounded archive. *)
Record record_wf (P : session_state -> Prop) (r : session_record) : Prop := {
  rec_current : exists s, rec_state r = Some s /\ P s;
  rec_archive : Forall P (previous_states r);
  rec_bounded : (length (previous_states r) <= ARCHIVED_STATES_MAX_LENGTH)%nat
}.

Lemma record_create_wf P o :
  P session_state_create -> opt_all P o -> record_wf P (session_record_create o).
Proof.
  intros Hc Ho. destruct o; split; simpl; eauto; unfold ARCHIVED_STATES_MAX_LENGTH; lia.
Qed.

Lemma record_set_state_wf P s r : P s -> record_wf P r -> record_wf P (session_record_set_state s r).
Proof. intros Hs [H1 H2 H3]. split; simpl; eauto. Qed.

Lemma record_promote_wf P s r :
  P s -> record_wf P r -> record_wf P (session_record_promote_state s r).
Proof.
  intros Hs [(c & Hc & Hp) H2 H3]. unfold session_record_promote_state. rewrite Hc, trim_archive_take.
  split; simpl; [eauto| |].
  - constructor; [done|]. by apply Forall_take.
  - rewrite length_take. unfold ARCHIVED_STATES_MAX_LENGTH. lia.
Qed.

Lemma record_remove_wf P i r :
  record_wf P r -> record_wf P (session_record_get_previous_states_remove i r).
Proof.
  intros [H1 H2 H3]. split; simpl; [done| |].
  - by apply Forall_delete.
  - pose proof (length_delete_le i (previous_states r)). lia.
Qed.

#[export] Hint Resolve record_set_state_wf record_promote_wf record_remove_wf : sigdb.

(** Archiving and promoting keep the most recent states, in order. *)
Lemma promote_previous s r c :
  rec_state r = Some c ->
  previous_states (session_record_promote_state s r) =
  take ARCHIVED_STATES_MAX_LENGTH (c :: previous_states r).
Proof.
  intros Hc. unfold session_record_promote_state. cbn [previous_states].
  rewrite Hc, trim_archive_take. done.
Qed.

(** A record whose states all survive storage. *)
Definition record_storable : session_record -> Prop := record_wf state_storable.

Lemma rmapM_in_range l ms :
  Forall state_storable l -> rmapM session_state_serialize_prepare l = Ok ms ->
  Forall SessionStructure_ok ms.
Proof.
  intros Hl H. eapply rmapM_Forall; [done|exact Hl|].
  intros s m Hs. apply prepare_in_range, Hs.
Qed.

Section copy.
Context {RC : Codec RecordStructure} {RCL : CodecLaws RecordStructure RC RecordStructure_ok}.

(** Storing a record and loading it gives the same record, no longer fresh. *)
Lemma session_record_store_load r :
  record_storable r ->
  exists data, session_record_serialize (Some r) = Ok data /\
    session_record_deserialize data =
    Ok (mk_record (rec_state r) (previous_states r) false None).
Proof.
  intros [(s & Hs & Hst) Hp Hlen].
  destruct (session_state_structure_round_trip s Hst) as (m & Em & Dm).
  destruct (RT_list session_state_serialize_prepare session_state_deserialize_protobuf
    (previous_states r)) as (ms & Ems & Dms).
  { eapply Forall_impl; [exact Hp|]. apply session_state_structure_round_trip. }
  exists (pack (mk_RecordStructure (Some m) ms)).
  unfold session_record_serialize. cbn [require rbind]. rewrite Hs. cbn [opt_field rbind].
  rewrite Em. cbn [rbind].
  rewrite (array_fits_le _ _ Hlen) by (unfold ARCHIVED_STATES_MAX_LENGTH; lia).
  cbn [ensure rbind]. rewrite Ems. cbn [rbind].
  rewrite (packed_ok RC RecordStructure_ok). split; [done|].
  unfold session_record_deserialize, unpacked.
  rewrite (unpack_pack (ok := RecordStructure_ok)).
  - cbn [require rbind rs_currentsession opt_field]. rewrite Dm. cbn [rbind rs_previoussessions].
    by rewrite Dms.
  - split; simpl; [by eapply prepare_in_range; [apply Hst|]|by eapply rmapM_in_range].
Qed.

Lemma session_record_copy_id r :
  record_storable r -> user_record r = None ->
  session_record_copy r = Ok (mk_record (rec_state r) (previous_states r) false None).
Proof.
  intros Hr Hu. destruct (session_record_store_load r Hr) as (data & E & D).
  unfold session_record_copy. rewrite E. cbn [rbind]. rewrite D. cbn [rbind]. by rewrite Hu.
Qed.

End copy.

(** After a promotion the promoted session is found again. *)
Lemma matches_session_refl s key :
  alice_base_key s = Some key -> matches_session (session_version s) (Some key) s = true.
Proof.
  intros Hk. unfold matches_session. rewrite Hk, Z.eqb_refl, andb_true_l.
  apply Z.eqb_eq, (ec_public_key_compare_refl (Some key)).
Qed.
