(* ===== verification/Receive.v ===== *)
(** The receiving half of the double ratchet, from [session_cipher.c]:
    [session_cipher_get_or_create_chain_key] (the Diffie-Hellman ratchet step)
    and [session_cipher_get_or_create_message_keys] (the symmetric ratchet with
    its bounded store of skipped keys).

    The skipping loop runs at most 2000 times; its fuel is 2001, and
    [skip_loop_ok] shows that this always suffices. *)

From S2P Require Import Prelude Buffers Crypto Hkdf Curve Ratchet SessionState.

Definition MAX_SKIP : Z := 2000.
Definition SKIP_FUEL : nat := 2001.

Section receive.
Context `{CP : CryptoProvider} `{CV : Curve25519}.

Definition session_cipher_get_or_create_chain_key (their_ephemeral : ec_public_key)
    : M (rng * session_state) ratchet_chain_key :=
  do s <- on_snd get;
  match session_state_get_receiver_chain_key s their_ephemeral with
  | Some result_key => ret result_key
  | None =>
      do root <- lift (require SG_ERR_UNKNOWN (root_key s));
      do our_ephemeral <- lift (require SG_ERR_UNKNOWN (session_state_get_sender_ratchet_key_pair s));
      do receiver <- lift (ratchet_root_key_create_chain root (Some their_ephemeral)
          (Some (ec_key_pair_get_private our_ephemeral)));
      do our_new_ephemeral <- on_fst curve_generate_key_pair;
      do sender <- lift (ratchet_root_key_create_chain receiver.1 (Some their_ephemeral)
          (Some (ec_key_pair_get_private our_new_ephemeral)));
      exec on_snd (modify (session_state_set_root_key sender.1));
      exec on_snd (session_state_add_receiver_chain their_ephemeral receiver.2);
      do s' <- on_snd get;
      do previous <- lift (require SG_ERR_UNKNOWN (session_state_get_sender_chain_key s'));
      let index := ratchet_chain_key_get_index previous in
      let index := if 0 <? index then u32 (index - 1) else index in
      exec on_snd (modify (session_state_set_previous_counter index));
      exec on_snd (modify (session_state_set_sender_chain our_new_ephemeral sender.2));
      ret receiver.2
  end.

(** [while(ratchet_chain_key_get_index(cur_chain_key) < counter)]: the message
    keys of every link that is skipped are stored. *)
Fixpoint skip_loop (fuel : nat) (their_ephemeral : ec_public_key) (n : Z) (cur : ratchet_chain_key)
    : M session_state ratchet_chain_key :=
  match fuel with
  | O => stuck
  | S fuel' =>
      if ratchet_chain_key_get_index cur <? n then
        do keys <- lift (ratchet_chain_key_get_message_keys cur);
        exec session_state_set_message_keys their_ephemeral keys;
        do next <- lift (ratchet_chain_key_create_next cur);
        skip_loop fuel' their_ephemeral n next
      else ret cur
  end.

Definition session_cipher_get_or_create_message_keys (their_ephemeral : ec_public_key)
    (chain_key : ratchet_chain_key) (n : Z) : M session_state ratchet_message_keys :=
  if n <? ratchet_chain_key_get_index chain_key then
    fun s => match session_state_remove_message_keys their_ephemeral n s with
             | (Some keys, s') => (Ok keys, s')
             | (None, s') => (Err SG_ERR_DUPLICATE_MESSAGE, s')
             end
  else if MAX_SKIP <? u32 (n - ratchet_chain_key_get_index chain_key) then
    fail SG_ERR_INVALID_MESSAGE
  else
    do cur <- skip_loop SKIP_FUEL their_ephemeral n chain_key;
    do next <- lift (ratchet_chain_key_create_next cur);
    exec session_state_set_receiver_chain_key their_ephemeral next;
    lift (ratchet_chain_key_get_message_keys cur).

End receive.

(* ------------------------------------------------------------------ *)
(** ** Skipped keys *)

Section spec.
Context `{CP : CryptoProvider} {CL : CryptoProviderLaws CP} `{CV : Curve25519}.

(** The message keys of the [n] links from [ck] on. *)
Definition skipped_keys (n : nat) (ck : ratchet_chain_key) : list ratchet_message_keys :=
  map (fun i => chain_message_keys (chain_iter i ck)) (seq 0 n).

Lemma skipped_keys_S n ck :
  skipped_keys (S n) ck = chain_message_keys ck :: skipped_keys n (chain_next ck).
Proof.
  unfold skipped_keys. simpl. f_equal. rewrite <- seq_shift, map_map.
  apply map_ext. intros i. by rewrite chain_iter_S.
Qed.

Lemma length_skipped_keys n ck : length (skipped_keys n ck) = n.
Proof. unfold skipped_keys. by rewrite length_map, length_seq. Qed.

(** The state after storing a list of keys for one chain. *)
Definition store_keys (k : ec_public_key) (keys : list ratchet_message_keys) (s : session_state)
    : session_state :=
  foldl (fun s keys => (session_state_set_message_keys k keys s).2) s keys.

Lemma set_message_keys_run k keys s :
  session_state_set_message_keys k keys s =
  (Ok tt, (session_state_set_message_keys k keys s).2).
Proof. unfold session_state_set_message_keys. by case_match. Qed.

(** The loop stores the keys of the links up to [n] and answers the link of
    index [n]; the fuel is enough whenever it exceeds the distance. *)
Lemma skip_loop_ok d : forall fuel k ck s n,
  (d < fuel)%nat -> chain_wf ck -> n = ck_index ck + Z.of_nat d -> n < 2 ^ 32 ->
  skip_loop fuel k n ck s = (Ok (chain_iter d ck), store_keys k (skipped_keys d ck) s).
Proof.
  induction d as [|d IH]; intros fuel k ck s n Hf Hwf Hn Hlt;
    (destruct fuel as [|fuel]; [lia|]); cbn [skip_loop]; unfold ratchet_chain_key_get_index.
  - rewrite (proj2 (Z.ltb_ge _ _)) by lia. done.
  - rewrite (proj2 (Z.ltb_lt _ _)) by lia.
    rewrite get_message_keys_ok by done. unfold bind at 1, lift at 1.
    unfold bind at 1. rewrite set_message_keys_run.
    rewrite create_next_ok. unfold bind, lift.
    assert (ck_index (chain_next ck) = ck_index ck + 1) as Hnext.
    { simpl. apply u32_id. destruct Hwf as [_ Hu]. unfold is_u32 in *. lia. }
    rewrite (IH _ _ _ _ n) by (auto with sigdb; rewrite ?Hnext; lia).
    rewrite chain_iter_S, skipped_keys_S. done.
Qed.

Lemma store_keys_find k keys s c :
  session_state_find_receiver_chain s k = Some c ->
  session_state_find_receiver_chain (store_keys k keys s) k =
  Some (with_message_keys (foldl (append_bounded MAX_MESSAGE_KEYS) (rc_message_keys c) keys) c).
Proof.
  revert s c. induction keys as [|x keys IH]; intros s c Hc; simpl.
  - rewrite Hc. by destruct c.
  - by rewrite (IH _ _ (find_chain_set_keys s k x c Hc)).
Qed.

(** A decrypted chain position: what the receiver's state looks like after the
    keys for message [n] were derived from the chain at [ck]. *)
Lemma get_or_create_message_keys_ok s k c ck n :
  session_state_find_receiver_chain s k = Some c -> receiver_chain_wf c ->
  rc_chain_key c = Some ck ->
  ck_index ck <= n <= ck_index ck + MAX_SKIP -> n < 2 ^ 32 ->
  let d := Z.to_nat (n - ck_index ck) in
  exists s', session_cipher_get_or_create_message_keys k ck n s =
    (Ok (chain_message_keys (chain_iter d ck)), s') /\
    session_state_find_receiver_chain s' k =
    Some (mk_receiver_chain (rc_sender_ratchet_key c) (Some (chain_iter (S d) ck))
      (drop (length (rc_message_keys c) + d - MAX_MESSAGE_KEYS)
         (rc_message_keys c ++ skipped_keys d ck))).
Proof.
  intros Hf (Hkey & Hcwf & Hkeys & Hlen) Hck Hn Hu d. rewrite Hck in Hcwf. simpl in Hcwf.
  unfold session_cipher_get_or_create_message_keys, ratchet_chain_key_get_index.
  rewrite (proj2 (Z.ltb_ge _ _)) by lia.
  assert (u32 (n - ck_index ck) = n - ck_index ck) as ->.
  { apply u32_id. destruct Hcwf as [_ Hi]. unfold is_u32, MAX_SKIP in *. lia. }
  rewrite (proj2 (Z.ltb_ge _ _)) by lia.
  rewrite (bind_run _ _ _ _ _ (skip_loop_ok d SKIP_FUEL k ck s n
    ltac:(unfold d, SKIP_FUEL, MAX_SKIP in *; lia) Hcwf ltac:(unfold d; lia) Hu)).
  rewrite create_next_ok. unfold bind at 1, lift at 1.
  pose proof (store_keys_find k (skipped_keys d ck) s c Hf) as Hf'.
  set (s1 := store_keys k (skipped_keys d ck) s) in *.
  pose proof (find_chain_set_chain_key s1 k (chain_next (chain_iter d ck)) _ Hf') as Hf''.
  unfold session_state_set_receiver_chain_key in Hf''. rewrite Hf' in Hf''.
  unfold bind, session_state_set_receiver_chain_key. rewrite Hf'.
  rewrite get_message_keys_ok by auto with sigdb.
  eexists. split; [done|]. cbn [snd] in Hf''. rewrite Hf''.
  rewrite foldl_append_bounded by done. by rewrite length_skipped_keys.
Qed.

End spec.

(* ------------------------------------------------------------------ *)
(** ** Each counter is usable once

    [chain_inv]: the stored keys have distinct counters, all behind the chain
    key.  It is what makes a skipped message decryptable exactly once. *)

Definition chain_inv (c : session_state_receiver_chain) (ck : ratchet_chain_key) : Prop :=
  rc_chain_key c = Some ck /\ NoDup (map counter (rc_message_keys c)) /\
  Forall (fun k => counter k < ck_index ck) (rc_message_keys c).

Lemma find_counter_NoDup l k :
  NoDup (map counter l) -> k ∈ l -> find_first (has_counter (counter k)) l = Some k.
Proof. apply (find_key_NoDup counter). Qed.

Lemma find_counter_None n l :
  Forall (fun k => counter k <> n) l -> find_first (has_counter n) l = None.
Proof. apply (find_key_None counter). Qed.

Lemma remove_counter_NoDup n l :
  NoDup (map counter l) ->
  NoDup (map counter (remove_first (has_counter n) l)) /\
  Forall (fun k => counter k <> n) (remove_first (has_counter n) l).
Proof. apply (remove_key_NoDup counter). Qed.

Section once.
Context `{CP : CryptoProvider} {CL : CryptoProviderLaws CP} `{CV : Curve25519}.

Lemma skipped_counter i ck :
  chain_wf ck -> ck_index ck + Z.of_nat i < 2 ^ 32 ->
  counter (chain_message_keys (chain_iter i ck)) = ck_index ck + Z.of_nat i.
Proof.
  intros Hwf Hlt. cbn [chain_message_keys counter]. rewrite chain_iter_index by done.
  apply u32_id. destruct Hwf as [_ Hi]. unfold is_u32 in *. lia.
Qed.

Lemma elem_of_skipped d ck k :
  k ∈ skipped_keys d ck <-> exists i, (i < d)%nat /\ k = chain_message_keys (chain_iter i ck).
Proof.
  unfold skipped_keys. rewrite list_elem_of_fmap. setoid_rewrite elem_of_seq.
  split; intros (i & H1 & H2); exists i; (split; [lia || done|done || lia]).
Qed.

(** The stored keys after a message [d] links ahead of the chain. *)
Lemma stored_NoDup l d ck :
  chain_wf ck -> ck_index ck + Z.of_nat d < 2 ^ 32 ->
  NoDup (map counter l) -> Forall (fun k => counter k < ck_index ck) l ->
  NoDup (map counter (l ++ skipped_keys d ck)) /\
  Forall (fun k => counter k < ck_index ck + Z.of_nat d) (l ++ skipped_keys d ck).
Proof.
  intros Hwf Hlt Hl Hb. split.
  - rewrite map_app. apply NoDup_app. split_and!; [done|..].
    + intros n (k & -> & Hk)%list_elem_of_fmap (k' & E & Hk')%list_elem_of_fmap.
      apply elem_of_skipped in Hk' as (i & Hi & ->). rewrite skipped_counter in E by (done || lia).
      rewrite Forall_forall in Hb. specialize (Hb k Hk). lia.
    + unfold skipped_keys. rewrite map_map. apply NoDup_alt. intros i j n.
      rewrite !list_lookup_fmap, !fmap_Some.
      intros (x & [-> Hx]%lookup_seq & ->) (y & [-> Hy]%lookup_seq & E).
      rewrite !skipped_counter in E by (done || lia). lia.
  - apply Forall_app. split.
    + eapply Forall_impl; [exact Hb|]. simpl. lia.
    + apply Forall_forall. intros k (i & Hi & ->)%elem_of_skipped.
      rewrite skipped_counter by (done || lia). lia.
Qed.

(** The whole effect of accepting message [n] on a chain. *)
Lemma receive_chain_inv s k c ck n :
  session_state_find_receiver_chain s k = Some c -> receiver_chain_wf c -> chain_inv c ck ->
  ck_index ck <= n <= ck_index ck + MAX_SKIP -> n + 1 < 2 ^ 32 ->
  let d := Z.to_nat (n - ck_index ck) in
  exists s' c', session_cipher_get_or_create_message_keys k ck n s =
      (Ok (chain_message_keys (chain_iter d ck)), s') /\
    session_state_find_receiver_chain s' k = Some c' /\
    chain_inv c' (chain_iter (S d) ck) /\ ck_index (chain_iter (S d) ck) = n + 1 /\
    Forall (fun x => counter x <> n) (rc_message_keys c') /\
    forall i, (i < d)%nat -> chain_message_keys (chain_iter i ck) ∈ rc_message_keys c'.
Proof.
  intros Hf Hwf (Hck & Hnd & Hb) Hn Hlt d.
  destruct (get_or_create_message_keys_ok s k c ck n Hf Hwf Hck Hn) as (s' & Er & Hf'); [lia|].
  assert (chain_wf ck) as Hcw.
  { destruct Hwf as (_ & H & _). by rewrite Hck in H. }
  assert (ck_index (chain_iter (S d) ck) = n + 1) as Hidx.
  { rewrite chain_iter_index by done. rewrite u32_id; [lia|].
    destruct Hcw as [_ Hi]. unfold is_u32 in *. lia. }
  destruct (stored_NoDup (rc_message_keys c) d ck Hcw ltac:(lia) Hnd Hb) as [Hnd' Hb'].
  eexists _, _. split_and!; [exact Er|exact Hf'|..].
  - split_and!; [done|by apply NoDup_map_drop|]. cbn [rc_message_keys]. apply Forall_drop.
    eapply Forall_impl; [exact Hb'|]. intros x Hx. cbn beta in *. rewrite Hidx. lia.
  - done.
  - cbn [rc_message_keys]. apply Forall_drop.
    eapply Forall_impl; [exact Hb'|]. intros x Hx. cbn beta in *. lia.
  - intros i Hi. cbn [rc_message_keys].
    destruct Hwf as (_ & _ & _ & Hlen). unfold MAX_MESSAGE_KEYS, MAX_SKIP in *.
    rewrite drop_app. apply elem_of_app. right. fold d.
    apply (list_elem_of_lookup_2 _ (i - (length (rc_message_keys c) + d - 2000 - length (rc_message_keys c)))).
    rewrite lookup_drop.
    replace (_ + (i - _))%nat with i by lia.
    unfold skipped_keys. rewrite list_lookup_fmap, lookup_seq_lt by lia. done.
Qed.

(** A message behind the chain is decrypted with its stored key, which is
    removed; its second delivery is a duplicate. *)
Lemma stored_key_once s k c ck n keys :
  session_state_find_receiver_chain s k = Some c -> chain_inv c ck ->
  keys ∈ rc_message_keys c -> counter keys = n ->
  exists s' c', session_cipher_get_or_create_message_keys k ck n s = (Ok keys, s') /\
    session_state_find_receiver_chain s' k = Some c' /\ chain_inv c' ck /\
    session_cipher_get_or_create_message_keys k ck n s' = (Err SG_ERR_DUPLICATE_MESSAGE, s').
Proof.
  intros Hf (Hck & Hnd & Hb) Hin Hn.
  assert (n < ck_index ck) as Hlt.
  { rewrite Forall_forall in Hb. rewrite <- Hn. by apply Hb. }
  pose proof (find_counter_NoDup _ _ Hnd Hin) as Hfind. rewrite Hn in Hfind.
  destruct (remove_counter_NoDup n _ Hnd) as [Hnd' Hne].
  unfold session_cipher_get_or_create_message_keys, ratchet_chain_key_get_index.
  rewrite (proj2 (Z.ltb_lt _ _)) by done. unfold session_state_remove_message_keys.
  rewrite Hf, Hfind. eexists _, _. split; [done|].
  rewrite find_chain_update, Hf by done. split_and!; [done| |].
  - split_and!; [done|done|]. by apply Forall_remove_first.
  - cbn [fmap option_fmap option_map with_message_keys rc_message_keys].
    by rewrite find_counter_None.
Qed.

(** A counter with no stored key behind the chain is a duplicate, and the
    state is left as it was. *)
Lemma no_key_duplicate s k c ck n :
  session_state_find_receiver_chain s k = Some c -> rc_chain_key c = Some ck ->
  n < ck_index ck -> Forall (fun k => counter k <> n) (rc_message_keys c) ->
  session_cipher_get_or_create_message_keys k ck n s = (Err SG_ERR_DUPLICATE_MESSAGE, s).
Proof.
  intros Hf Hck Hlt Hne.
  unfold session_cipher_get_or_create_message_keys, ratchet_chain_key_get_index.
  rewrite (proj2 (Z.ltb_lt _ _)) by done. unfold session_state_remove_message_keys.
  by rewrite Hf, find_counter_None.
Qed.

Lemma too_far_rejected s k ck n :
  chain_wf ck -> ck_index ck + MAX_SKIP < n -> n < 2 ^ 32 ->
  session_cipher_get_or_create_message_keys k ck n s = (Err SG_ERR_INVALID_MESSAGE, s).
Proof.
  intros [_ Hi] Hn Hlt.
  unfold session_cipher_get_or_create_message_keys, ratchet_chain_key_get_index.
  unfold MAX_SKIP, is_u32 in *. rewrite (proj2 (Z.ltb_ge _ _)) by lia.
  rewrite u32_id by (unfold is_u32; lia). by rewrite (proj2 (Z.ltb_lt _ _)) by lia.
Qed.

End once.

(* ------------------------------------------------------------------ *)
(** ** Frame and invariant *)

(** [s'] differs from [s] in its receiver chains at most. *)
Definition only_receivers (s s' : session_state) : Prop :=
  s' = with_receiver_chains (receiver_chains s') s.

#[global] Instance only_receivers_refl : Reflexive only_receivers.
Proof. by intros []. Qed.
#[global] Instance only_receivers_trans : Transitive only_receivers.
Proof. intros s1 s2 s3 H1 H2. red in H1, H2 |- *. rewrite H2, H1. done. Qed.

(** [s'] differs from [s] in the receiver chain of [k] at most; the chains are
    those of the same keys. *)
Record only_chain (k : ec_public_key) (s s' : session_state) : Prop := {
  oc_receivers : only_receivers s s';
  oc_keys : chain_keys s' = chain_keys s;
  oc_other k' : pub_wf k' -> k' <> k ->
    session_state_find_receiver_chain s' k' = session_state_find_receiver_chain s k'
}.

#[global] Instance only_chain_preorder k : PreOrder (only_chain k).
Proof.
  split; [by intros s|]. intros s1 s2 s3 [A1 A2 A3] [B1 B2 B3].
  split; [by etrans|congruence|]. intros k' H1 H2. by rewrite B3, A3.
Qed.

Lemma only_chain_update k f s :
  pub_wf k -> (forall c, rc_sender_ratchet_key (f c) = rc_sender_ratchet_key c) ->
  only_chain k s (with_receiver_chains (update_first (is_chain_of k) f (receiver_chains s)) s).
Proof.
  intros Hk Hf. split; [done|by apply map_update_first|]. intros k' Hk' Hne.
  apply find_chain_update_ne; [done..|]. intros c. unfold is_chain_of. by rewrite Hf.
Qed.

Lemma set_message_keys_frame k keys s :
  pub_wf k -> only_chain k s (session_state_set_message_keys k keys s).2.
Proof. intros Hk. unfold session_state_set_message_keys. case_match; [by apply only_chain_update|done]. Qed.

Lemma remove_message_keys_frame k n s :
  pub_wf k -> only_chain k s (session_state_remove_message_keys k n s).2.
Proof.
  intros Hk. unfold session_state_remove_message_keys.
  repeat case_match; [by apply only_chain_update|done|done].
Qed.

Lemma set_receiver_chain_key_frame k ck s :
  pub_wf k -> only_chain k s (session_state_set_receiver_chain_key k ck s).2.
Proof. intros Hk. unfold session_state_set_receiver_chain_key. case_match; [by apply only_chain_update|done]. Qed.

Lemma preserves_on_snd {S T A} (I : T -> Prop) (m : M T A) :
  preserves I m -> preserves (fun p : S * T => I p.2) (on_snd m).
Proof.
  intros Hm [s t] Ht. unfold on_snd, zoom. specialize (Hm t Ht). simpl in *.
  by destruct (m t).
Qed.

Lemma preserves_on_fst {S T A} (I : T -> Prop) (m : M S A) :
  preserves (fun p : S * T => I p.2) (on_fst m).
Proof. intros [s t] Ht. unfold on_fst, zoom. simpl in *. by destruct (m s). Qed.

(** Continuing only with the values a computation can return. *)
Lemma preserves_lift_bind {S A B} (I : S -> Prop) (r : result A) (k : A -> M S B) :
  (forall a, r = Ok a -> preserves I (k a)) -> preserves I (bind (lift r) k).
Proof. intros H s Hs. unfold bind, lift. destruct r; [|done|done]. by apply H. Qed.

#[export] Hint Resolve preserves_on_snd preserves_on_fst : sigdb.

Section receive_frame.
Context `{CP : CryptoProvider} {CL : CryptoProviderLaws CP}.
Context `{CV : Curve25519} {CVL : Curve25519Laws CV}.

(** A preorder that contains the three changes of a receiver chain contains
    what deriving message keys does. *)
Section message_keys_preorder.
Context (R : relation session_state) {HR : PreOrder R} (k : ec_public_key).
Hypothesis R_set : forall keys s, R s (session_state_set_message_keys k keys s).2.
Hypothesis R_remove : forall n s, R s (session_state_remove_message_keys k n s).2.
Hypothesis R_chain : forall ck s, R s (session_state_set_receiver_chain_key k ck s).2.

Lemma skip_loop_preorder fuel n s0 : forall ck, preserves (R s0) (skip_loop fuel k n ck).
Proof using HR R_set.
  induction fuel as [|fuel IH]; intros ck; simpl; [by intros s|].
  case_match; [|auto with sigdb]. apply preserves_lift_bind. intros keys _.
  apply preserves_bind; [|intros _; apply preserves_lift_bind; auto].
  intros s Hs. etrans; [exact Hs|apply R_set].
Qed.

Lemma get_or_create_message_keys_preorder ck n s0 :
  preserves (R s0) (session_cipher_get_or_create_message_keys k ck n).
Proof using HR R_set R_remove R_chain.
  unfold session_cipher_get_or_create_message_keys. case_match; [|case_match; [auto with sigdb|]].
  - intros s Hs. pose proof (R_remove n s) as Hf.
    destruct (session_state_remove_message_keys k n s) as [[] s']; simpl in *; by etrans.
  - apply preserves_bind; [apply skip_loop_preorder|]. intros cur.
    apply preserves_lift_bind. intros next _. apply preserves_bind; [|auto with sigdb].
    intros s Hs. etrans; [exact Hs|apply R_chain].
Qed.

End message_keys_preorder.

(** Deriving the keys of a message changes the chain of its key only. *)
Lemma get_or_create_message_keys_frame k ck n s :
  pub_wf k -> only_chain k s (session_cipher_get_or_create_message_keys k ck n s).2.
Proof.
  intros Hk. apply (get_or_create_message_keys_preorder (only_chain k) k); [..|done];
    auto using set_message_keys_frame, remove_message_keys_frame, set_receiver_chain_key_frame.
Qed.

Lemma skip_loop_wf fuel k n : forall ck, chain_wf ck -> preserves state_wf (skip_loop fuel k n ck).
Proof.
  induction fuel as [|fuel IH]; intros ck Hck; simpl; [by intros s|].
  case_match; [|auto with sigdb]. apply preserves_lift_bind.
  rewrite get_message_keys_ok by done. intros keys [= <-].
  apply preserves_bind; [apply set_message_keys_wf; auto with sigdb|]. intros _.
  apply preserves_lift_bind. rewrite create_next_ok. intros next [= <-].
  apply IH. auto with sigdb.
Qed.

Lemma skip_loop_value fuel k n : forall ck s cur s', chain_wf ck ->
  skip_loop fuel k n ck s = (Ok cur, s') -> chain_wf cur.
Proof.
  induction fuel as [|fuel IH]; intros ck s cur s' Hck; simpl; [done|].
  case_match; [|by intros [= <- _]]. intros Hrun. inv_ok.
  match goal with H : ratchet_chain_key_create_next _ = Ok _ |- _ =>
    rewrite create_next_ok in H; injection H as <- end.
  by eapply IH, Hrun; auto with sigdb.
Qed.

(** Deriving message keys keeps the invariant, on every branch. *)
Lemma get_or_create_message_keys_wf k ck n :
  chain_wf ck -> preserves state_wf (session_cipher_get_or_create_message_keys k ck n).
Proof.
  intros Hck. unfold session_cipher_get_or_create_message_keys.
  case_match; [|case_match; [auto with sigdb|]].
  - intros s Hs. pose proof (remove_message_keys_wf k n s Hs) as Hf.
    by destruct (session_state_remove_message_keys k n s) as [[] s'].
  - intros s Hs. pose proof (skip_loop_wf SKIP_FUEL k n ck Hck s Hs) as Hs1.
    destruct (skip_loop SKIP_FUEL k n ck s) as [[cur| |] s1] eqn:E; unfold bind at 1; rewrite E;
      [|done|done].
    pose proof (skip_loop_value _ _ _ _ _ _ _ Hck E) as Hcur.
    revert s1 E Hs1. intros s1 _. revert s1.
    apply (preserves_lift_bind state_wf). rewrite create_next_ok. intros next [= <-].
    apply preserves_bind; [|auto with sigdb]. apply set_receiver_chain_key_wf. auto with sigdb.
Qed.

(** The state after a Diffie-Hellman ratchet step. *)
Definition dh_ratchet_state (their_ephemeral : ec_public_key) (receiver sender : ratchet_root_key * ratchet_chain_key)
    (our_new : ec_key_pair) (previous : ratchet_chain_key) (s : session_state) : session_state :=
  session_state_set_sender_chain our_new sender.2
    (session_state_set_previous_counter
       (if 0 <? ck_index previous then u32 (ck_index previous - 1) else ck_index previous)
       (session_state_add_receiver_chain their_ephemeral receiver.2
          (session_state_set_root_key sender.1 s)).2).

Lemma get_or_create_chain_key_known s k ck g :
  session_state_get_receiver_chain_key s k = Some ck ->
  session_cipher_get_or_create_chain_key k (g, s) = (Ok ck, (g, s)).
Proof.
  intros H. unfold session_cipher_get_or_create_chain_key, bind, on_snd, zoom, get. simpl.
  by rewrite H.
Qed.

Lemma get_or_create_chain_key_new s k root pair prev g our_new g' secret secret' :
  session_state_get_receiver_chain_key s k = None ->
  root_key s = Some root -> root_wf root ->
  session_state_get_sender_ratchet_key_pair s = Some pair ->
  session_state_get_sender_chain_key s = Some prev ->
  curve_calculate_agreement (Some k) (Some (private_key pair)) = Ok secret ->
  curve_generate_key_pair g = (Ok our_new, g') ->
  curve_calculate_agreement (Some k) (Some (private_key our_new)) = Ok secret' ->
  session_cipher_get_or_create_chain_key k (g, s) =
  (Ok (root_step root secret).2,
   (g', dh_ratchet_state k (root_step root secret)
          (root_step (root_step root secret).1 secret') our_new prev s)).
Proof.
  intros Hn Hr Hrw Hp Hprev Ha Hg Ha'.
  unfold session_cipher_get_or_create_chain_key, bind, on_snd, on_fst, zoom, get, lift, ec_key_pair_get_private.
  cbn [fst snd]. rewrite Hn, Hr. cbn [require]. rewrite Hp. cbn [require].
  rewrite (create_chain_ok root k (private_key pair) secret Hrw Ha). cbn [fst snd]. rewrite Hg.
  rewrite (create_chain_ok _ k (private_key our_new) secret' (proj1 (root_step_wf root secret Hrw)) Ha').
  unfold modify. cbn [fst snd session_state_add_receiver_chain].
  change (session_state_get_sender_chain_key _) with (session_state_get_sender_chain_key s).
  rewrite Hprev. done.
Qed.

(** Every outcome of the ratchet step: the chain is known; an error that leaves
    the state alone; an error after the root key and the receiver chain were
    written (no sender chain); a complete step. *)
Inductive chain_key_outcome (k : ec_public_key) (g : rng) (s : session_state)
    : result ratchet_chain_key -> session_state -> Prop :=
| outcome_known ck :
    session_state_get_receiver_chain_key s k = Some ck -> chain_key_outcome k g s (Ok ck) s
| outcome_error r : (forall ck, r <> Ok ck) -> chain_key_outcome k g s r s
| outcome_no_sender root receiver sender sk sk' :
    root_key s = Some root ->
    ratchet_root_key_create_chain root (Some k) (Some sk) = Ok receiver ->
    ratchet_root_key_create_chain receiver.1 (Some k) (Some sk') = Ok sender ->
    chain_key_outcome k g s (Err SG_ERR_UNKNOWN)
      (session_state_add_receiver_chain k receiver.2 (session_state_set_root_key sender.1 s)).2
| outcome_step root receiver sender sk our_new g' previous :
    root_key s = Some root ->
    ratchet_root_key_create_chain root (Some k) (Some sk) = Ok receiver ->
    curve_generate_key_pair g = (Ok our_new, g') ->
    ratchet_root_key_create_chain receiver.1 (Some k) (Some (private_key our_new)) = Ok sender ->
    session_state_get_sender_chain_key s = Some previous ->
    chain_key_outcome k g s (Ok receiver.2) (dh_ratchet_state k receiver sender our_new previous s).

Lemma get_or_create_chain_key_cases k g s r g' s' :
  session_cipher_get_or_create_chain_key k (g, s) = (r, (g', s')) -> chain_key_outcome k g s r s'.
Proof.
  unfold session_cipher_get_or_create_chain_key. unfold bind at 1, on_snd at 1, zoom at 1, get at 1.
  cbn [fst snd]. destruct (session_state_get_receiver_chain_key s k) as [ck|] eqn:Eck.
  { intros [= <- _ <-]. by constructor. }
  unfold bind at 1, lift at 1.
  destruct (root_key s) as [root|] eqn:Eroot; cbn [require]; [|intros [= <- _ <-]; by constructor].
  unfold bind at 1, lift at 1.
  destruct (session_state_get_sender_ratchet_key_pair s) as [kp|]; cbn [require];
    [|intros [= <- _ <-]; by constructor].
  unfold bind at 1, lift at 1.
  destruct (ratchet_root_key_create_chain root _ _) as [receiver| |] eqn:Er;
    [|intros [= <- _ <-]; by constructor..].
  unfold bind at 1, on_fst, zoom at 1. cbn [fst snd].
  destruct (curve_generate_key_pair g) as [[our_new| |] g1] eqn:Eg;
    [|intros [= <- _ <-]; by constructor..].
  unfold bind at 1, lift at 1.
  destruct (ratchet_root_key_create_chain receiver.1 _ _) as [sender| |] eqn:Es;
    [|intros [= <- _ <-]; by constructor..].
  unfold bind, on_snd, zoom, modify, get, lift. cbn [fst snd session_state_add_receiver_chain].
  change (session_state_get_sender_chain_key _) with (session_state_get_sender_chain_key s).
  destruct (session_state_get_sender_chain_key s) as [previous|] eqn:Ep; cbn [require].
  - intros [= <- _ <-]. by eapply outcome_step.
  - intros [= <- _ <-]. by eapply outcome_no_sender.
Qed.

(** The ratchet step keeps the invariant, on every branch, and a chain key it
    gives is well formed. *)
Lemma get_or_create_chain_key_wf k :
  pub_wf k -> preserves (fun p : rng * session_state => state_wf p.2)
    (session_cipher_get_or_create_chain_key k).
Proof.
  intros Hk [g s] Hs. simpl in Hs.
  destruct (session_cipher_get_or_create_chain_key k (g, s)) as [r [g' s']] eqn:E. simpl.
  apply get_or_create_chain_key_cases in E.
  assert (forall root, root_key s = Some root -> root_wf root) as Hroot.
  { intros root Hr. pose proof (wf_root s Hs) as H. by rewrite Hr in H. }
  destruct E as [|r|root receiver sender sk sk' Er (sec & ->)%create_chain_inv (sec' & ->)%create_chain_inv
    |root receiver sender sk our_new g1 prev Er (sec & ->)%create_chain_inv Hg
      (sec' & ->)%create_chain_inv Hp]; auto; try (by apply root_step_wf; auto).
  - apply add_receiver_chain_wf; [done|by apply root_step_wf; auto|].
    apply (state_step_wf _ _ (step_root _ _ (proj1 (root_step_wf _ _ (proj1 (root_step_wf _ _ (Hroot _ Er))))))).
    done.
  - destruct (root_step_wf root sec (Hroot _ Er)) as [H1 H2].
    destruct (root_step_wf _ sec' H1) as [H3 H4].
    apply curve_generate_key_pair_valid in Hg as [_ Hnew].
    unfold dh_ratchet_state. apply (state_step_wf _ _ (step_sender _ _ _ Hnew H4)).
    eapply state_step_wf; [apply step_previous|].
    + destruct (wf_sender s Hs) as [_ Hc]. unfold session_state_get_sender_chain_key in Hp.
      rewrite Hp in Hc. destruct Hc as [_ Hi]. case_match; auto with sigdb.
    + apply add_receiver_chain_wf; [done|done|]. by apply (state_step_wf _ _ (step_root _ _ H3)).
Qed.

Lemma get_or_create_chain_key_value_wf k g s ck p :
  state_wf s -> session_cipher_get_or_create_chain_key k (g, s) = (Ok ck, p) -> chain_wf ck.
Proof.
  intros Hs. destruct p as [g' s']. intros E%get_or_create_chain_key_cases.
  remember (Ok ck) as r eqn:Er. destruct E as [ck' Hk|r Hne|?|root receiver sender sk new g1 prev
    Hroot Hrec _ _ _]; [|by apply Hne in Er|done|].
  - injection Er as ->. apply get_chain_key_find in Hk as (c & Hf & Hc).
    destruct (find_receiver_chain_wf s k c Hs Hf) as (_ & H & _). by rewrite Hc in H.
  - injection Er as <-. pose proof (wf_root s Hs) as H. rewrite Hroot in H.
    apply create_chain_inv in Hrec as (sec & ->); [|done]. by apply root_step_wf.
Qed.

End receive_frame.

(* ------------------------------------------------------------------ *)
(** ** Messages in any order *)

(** The links in front of a chain key. *)
Definition in_front `{CP : CryptoProvider} {CL : CryptoProviderLaws CP} (ckb ck : ratchet_chain_key) : Prop :=
  exists d, ck = chain_iter d ckb /\ ck_index ckb + Z.of_nat d < 2 ^ 32.

(** Where the link of a message is, seen from a receiver chain: in front of the
    chain key; or behind it, with its message keys stored, or used up once the
    message was received. *)
Definition located `{CP : CryptoProvider} {CL : CryptoProviderLaws CP}
    (c : session_state_receiver_chain) (ckb ck : ratchet_chain_key)
    (received : bool) : Prop :=
  (received = false /\ in_front ckb ck) \/
  (ck_index ck < ck_index ckb /\
   if received then Forall (fun q => counter q <> ck_index ck) (rc_message_keys c)
   else chain_message_keys ck ∈ rc_message_keys c).

Section any_order.
Context `{CP : CryptoProvider} {CL : CryptoProviderLaws CP} `{CV : Curve25519}.

Lemma in_front_index ckb d :
  chain_wf ckb -> ck_index ckb + Z.of_nat d < 2 ^ 32 ->
  ck_index (chain_iter d ckb) = ck_index ckb + Z.of_nat d.
Proof.
  intros Hw Hd. rewrite chain_iter_index by done. apply u32_id.
  destruct Hw as [_ Hi]. unfold is_u32 in *. lia.
Qed.

Lemma in_front_later ckb d ck :
  chain_wf ckb -> ck_index ckb + Z.of_nat d < 2 ^ 32 ->
  ck_index (chain_iter d ckb) < ck_index ck -> in_front ckb ck -> in_front (chain_iter (S d) ckb) ck.
Proof.
  intros Hw Hd Hlt (e & -> & He). rewrite !in_front_index in Hlt by done.
  exists (e - S d)%nat. rewrite chain_iter_add.
  split; [f_equal; lia|]. rewrite in_front_index by (done || lia). lia.
Qed.

(** A message ahead of the chain: the chain moves past it, and every other
    message of the chain stays where it can be found. *)
Lemma receive_in_front s k c ckb d :
  session_state_find_receiver_chain s k = Some c -> receiver_chain_wf c -> chain_inv c ckb ->
  ck_index ckb + Z.of_nat d + 1 < 2 ^ 32 ->
  Z.of_nat (length (rc_message_keys c)) + Z.of_nat d <= MAX_SKIP ->
  let ck := chain_iter d ckb in
  exists s' c', session_cipher_get_or_create_message_keys k ckb (ck_index ck) s =
      (Ok (chain_message_keys ck), s') /\
    session_state_find_receiver_chain s' k = Some c' /\ chain_inv c' (chain_iter (S d) ckb) /\
    located c' (chain_iter (S d) ckb) ck true /\
    (forall ck' b, ck_index ck' <> ck_index ck -> located c ckb ck' b ->
      located c' (chain_iter (S d) ckb) ck' b).
Proof.
  intros Hf Hwf (Hck & Hnd & Hb) Hlt Hroom ck. pose proof Hwf as (_ & Hcw & _). rewrite Hck in Hcw.
  assert (ck_index ck = ck_index ckb + Z.of_nat d) as Hidx by (apply in_front_index; [done|lia]).
  assert (ck_index (chain_iter (S d) ckb) = ck_index ckb + Z.of_nat (S d)) as Hnext
    by (apply in_front_index; [done|lia]).
  unfold MAX_SKIP in *.
  destruct (get_or_create_message_keys_ok s k c ckb (ck_index ck) Hf Hwf Hck) as (s' & E & Hf');
    [unfold MAX_SKIP; lia|lia|].
  replace (Z.to_nat (ck_index ck - ck_index ckb)) with d in * by lia.
  replace (length (rc_message_keys c) + d - MAX_MESSAGE_KEYS)%nat with 0%nat in Hf'
    by (unfold MAX_MESSAGE_KEYS; lia). rewrite drop_0 in Hf'.
  destruct (stored_NoDup (rc_message_keys c) d ckb Hcw ltac:(lia) Hnd Hb) as [Hnd' Hb'].
  eexists _, _. split_and!; [exact E|exact Hf'|..].
  - split_and!; [done|done|]. eapply Forall_impl; [exact Hb'|]. intros q Hq. cbn beta in *. lia.
  - right. split; [lia|]. eapply Forall_impl; [exact Hb'|]. intros q Hq. cbn beta in *. lia.
  - intros ck' b Hne [[-> (e & -> & He)]|[Hbehind Hb2]].
    + rewrite Hidx, in_front_index in Hne by done. destruct (decide (d < e)%nat).
      * left. split; [done|]. apply in_front_later; [done|lia| |by exists e].
        fold ck. rewrite Hidx, in_front_index by done. lia.
      * right. rewrite in_front_index by done. split; [lia|]. apply elem_of_app. right.
        apply elem_of_skipped. exists e. split; [lia|done].
    + right. split; [lia|]. destruct b; cbn [rc_message_keys].
      * apply Forall_app. split; [done|]. apply Forall_forall. intros q (i & Hi & ->)%elem_of_skipped.
        rewrite skipped_counter by (done || lia). lia.
      * apply elem_of_app. by left.
Qed.

(** A message behind the chain: its stored keys are used up, the other messages
    keep theirs. *)
Lemma receive_stored s k c ckb ck :
  session_state_find_receiver_chain s k = Some c -> chain_inv c ckb ->
  ck_index ck < ck_index ckb -> chain_message_keys ck ∈ rc_message_keys c ->
  exists s' c', session_cipher_get_or_create_message_keys k ckb (ck_index ck) s =
      (Ok (chain_message_keys ck), s') /\
    session_state_find_receiver_chain s' k = Some c' /\ chain_inv c' ckb /\
    located c' ckb ck true /\
    (forall ck' b, ck_index ck' <> ck_index ck -> located c ckb ck' b -> located c' ckb ck' b).
Proof.
  intros Hf (Hck & Hnd & Hb) Hlt Hin.
  pose proof (find_counter_NoDup _ _ Hnd Hin) as Hfind.
  change (counter (chain_message_keys ck)) with (ck_index ck) in Hfind.
  destruct (remove_counter_NoDup (ck_index ck) _ Hnd) as [Hnd' Hne].
  unfold session_cipher_get_or_create_message_keys, ratchet_chain_key_get_index.
  rewrite (proj2 (Z.ltb_lt _ _)) by done. unfold session_state_remove_message_keys.
  rewrite Hf, Hfind. eexists _, _. split; [done|].
  rewrite find_chain_update, Hf by done. split_and!; [done|..].
  - split_and!; [done|done|]. by apply Forall_remove_first.
  - right. done.
  - intros ck' b Hne' [Hfront|[Hbehind Hb2]]; [by left|right; split; [done|]]. destruct b.
    + by apply Forall_remove_first.
    + by apply elem_of_remove_key.
Qed.

(** One message of a known chain, wherever it is. *)
Lemma receive_located s k c ckb ck :
  session_state_find_receiver_chain s k = Some c -> receiver_chain_wf c -> chain_inv c ckb ->
  ck_index ck + 1 < 2 ^ 32 ->
  Z.of_nat (length (rc_message_keys c)) + (ck_index ck - ck_index ckb) <= MAX_SKIP ->
  located c ckb ck false ->
  exists s' c' ckb', session_cipher_get_or_create_message_keys k ckb (ck_index ck) s =
      (Ok (chain_message_keys ck), s') /\
    session_state_find_receiver_chain s' k = Some c' /\ chain_inv c' ckb' /\
    located c' ckb' ck true /\
    (forall ck' b, ck_index ck' <> ck_index ck -> located c ckb ck' b -> located c' ckb' ck' b) /\
    (forall ck', ck_index ck < ck_index ck' -> in_front ckb ck' -> in_front ckb' ck').
Proof.
  intros Hf Hwf Hinv Hlt Hroom [[_ (d & -> & Hd)]|[Hbehind Hin]].
  - assert (chain_wf ckb) as Hcw by (destruct Hwf as (_ & H & _); by rewrite (proj1 Hinv) in H).
    rewrite in_front_index in Hlt, Hroom by done.
    destruct (receive_in_front s k c ckb d) as (s' & c' & H1 & H2 & H3 & H4 & H5); [done..|lia|].
    exists s', c', (chain_iter (S d) ckb). split_and!; try done. intros ck' Hck'. by apply in_front_later.
  - destruct (receive_stored s k c ckb ck) as (s' & c' & H1 & H2 & H3 & H4 & H5); [done..|].
    by exists s', c', ckb.
Qed.

(** A message that was received is a duplicate. *)
Lemma receive_again s k c ckb ck :
  session_state_find_receiver_chain s k = Some c -> chain_inv c ckb -> located c ckb ck true ->
  session_cipher_get_or_create_message_keys k ckb (ck_index ck) s = (Err SG_ERR_DUPLICATE_MESSAGE, s).
Proof.
  intros Hf (Hck & _) [[? _]|[Hlt Hne]]; [done|]. by eapply no_key_duplicate.
Qed.

End any_order.
