(* ===== verification/SessionPreKey.v ===== *)
(** [session_pre_key.c]: one-time pre-keys, signed pre-keys and the pre-key
    bundle a client publishes, with the stored forms of the first two. *)

From S2P Require Import Prelude Buffers Crypto Hkdf Curve Ratchet LocalStorage.

Definition PRE_KEY_MEDIUM_MAX_VALUE : Z := 16777215.

Record session_pre_key := mk_pre_key { pk_id : Z; pk_key_pair : ec_key_pair }.

Record session_signed_pre_key := mk_signed_pre_key {
  spk_id : Z;
  spk_key_pair : ec_key_pair;
  spk_timestamp : Z;
  spk_signature : bytes }.

Record session_pre_key_bundle := mk_bundle {
  bundle_registration_id : Z;
  bundle_device_id : Z;
  bundle_pre_key_id : Z;
  bundle_pre_key_public : option ec_public_key;
  bundle_signed_pre_key_id : Z;
  bundle_signed_pre_key_public : option ec_public_key;
  bundle_signed_pre_key_signature : option bytes;
  bundle_identity_key : option ec_public_key }.

#[global] Instance session_pre_key_eq_dec : EqDecision session_pre_key.
Proof. solve_decision. Defined.
#[global] Instance session_signed_pre_key_eq_dec : EqDecision session_signed_pre_key.
Proof. solve_decision. Defined.

(** [assert(key_pair)] *)
Definition session_pre_key_create (id : Z) (key_pair : option ec_key_pair) : result session_pre_key :=
  let? p := deref key_pair in Ok (mk_pre_key id p).

(** [assert(key_pair)], [assert(signature)], [assert(signature_len > 0)] and the
    overflow check of the allocation ([sizeof(session_signed_pre_key)] is 48). *)
Definition session_signed_pre_key_create (id timestamp : Z) (key_pair : option ec_key_pair)
    (signature : option bytes) : result session_signed_pre_key :=
  let? p := deref key_pair in
  let? sig := deref signature in
  if (length sig =? 0)%nat then Stuck
  else if SIZE_MAX - 48 <? Z.of_nat (length sig) then Err SG_ERR_NOMEM
  else Ok (mk_signed_pre_key id p timestamp sig).

(** An empty or null signature is left out; so is one that cannot be copied. *)
Definition session_pre_key_bundle_create (registration_id device_id pre_key_id : Z)
    (pre_key_public : option ec_public_key) (signed_pre_key_id : Z)
    (signed_pre_key_public : option ec_public_key) (signature : option bytes)
    (identity_key : option ec_public_key) : result session_pre_key_bundle :=
  Ok (mk_bundle registration_id device_id pre_key_id pre_key_public signed_pre_key_id
        signed_pre_key_public
        (match signature with
         | Some sig => if (0 <? length sig)%nat then signal_buffer_create sig else None
         | None => None
         end) identity_key).

Section codec.
Context `{PK : Codec PreKeyRecordStructure} `{SPK : Codec SignedPreKeyRecordStructure}.

Definition session_pre_key_serialize (pre_key : option session_pre_key) : result bytes :=
  let? k := require SG_ERR_INVAL pre_key in
  let? public_buf := ec_public_key_serialize (Some (public_key (pk_key_pair k))) in
  let? private_buf := ec_private_key_serialize (private_key (pk_key_pair k)) in
  packed (mk_PreKeyRecordStructure (Some (pk_id k)) (Some public_buf) (Some private_buf)).

Definition session_pre_key_deserialize (data : bytes) : result session_pre_key :=
  let? record := unpacked data in
  match pkr_id record, pkr_publickey record, pkr_privatekey record with
  | Some id, Some publickey, Some privatekey =>
      let? pub := curve_decode_point publickey in
      let? priv := curve_decode_private_point privatekey in
      let? key_pair := ec_key_pair_create pub priv in
      session_pre_key_create id (Some key_pair)
  | _, _, _ => Err SG_ERR_INVALID_KEY
  end.

Definition session_signed_pre_key_serialize (k : session_signed_pre_key) : result bytes :=
  let? public_buf := ec_public_key_serialize (Some (public_key (spk_key_pair k))) in
  let? private_buf := ec_private_key_serialize (private_key (spk_key_pair k)) in
  let? signature_buf := require SG_ERR_NOMEM (signal_buffer_create (spk_signature k)) in
  packed (mk_SignedPreKeyRecordStructure (Some (spk_id k)) (Some public_buf) (Some private_buf)
            (Some signature_buf) (Some (spk_timestamp k))).

Definition session_signed_pre_key_deserialize (data : bytes) : result session_signed_pre_key :=
  let? record := unpacked data in
  match spkr_id record, spkr_timestamp record, spkr_publickey record, spkr_privatekey record,
    spkr_signature record with
  | Some id, Some timestamp, Some publickey, Some privatekey, Some signature =>
      let? pub := curve_decode_point publickey in
      let? priv := curve_decode_private_point privatekey in
      let? key_pair := ec_key_pair_create pub priv in
      session_signed_pre_key_create id timestamp (Some key_pair) (pb_data signature)
  | _, _, _, _, _ => Err SG_ERR_INVALID_KEY
  end.

End codec.

(** The identity key pair of [ratchet.c] in its stored form. *)
Section identity.
Context `{IK : Codec IdentityKeyPairStructure}.

Definition ratchet_identity_key_pair_serialize (key_pair : option ratchet_identity_key_pair)
    : result bytes :=
  let? p := require SG_ERR_INVAL key_pair in
  let? publickey := ec_public_key_serialize_protobuf (id_public p) in
  let? privatekey := ec_private_key_serialize_protobuf (id_private p) in
  packed (mk_IdentityKeyPairStructure (Some publickey) (Some privatekey)).

Definition ratchet_identity_key_pair_deserialize (data : bytes) : result ratchet_identity_key_pair :=
  let? m := unpacked data in
  match ikps_publickey m, ikps_privatekey m with
  | Some publickey, Some privatekey =>
      let? pub := curve_decode_point publickey in
      let? priv := curve_decode_private_point privatekey in
      ratchet_identity_key_pair_create pub priv
  | _, _ => Err SG_ERR_INVALID_KEY
  end.

End identity.

(* ------------------------------------------------------------------ *)
(** ** Storage round trips *)

Definition pre_key_wf (k : session_pre_key) : Prop := is_u32 (pk_id k) /\ pair_wf (pk_key_pair k).

(** What [session_signed_pre_key_create] and the C types guarantee. *)
Definition signed_pre_key_wf (k : session_signed_pre_key) : Prop :=
  is_u32 (spk_id k) /\ pair_wf (spk_key_pair k) /\ 0 <= spk_timestamp k < 2 ^ 64 /\
  (0 < length (spk_signature k))%nat /\ Z.of_nat (length (spk_signature k)) <= SIZE_MAX - 48.

Section laws.
Context {PK : Codec PreKeyRecordStructure} {PKL : CodecLaws _ PK PreKeyRecordStructure_ok}.
Context {SPK : Codec SignedPreKeyRecordStructure}
  {SPKL : CodecLaws _ SPK SignedPreKeyRecordStructure_ok}.

Lemma decode_pair_serialize p : pair_wf p ->
  curve_decode_point (DJB_TYPE :: take DJB_KEY_LEN (pub_data (public_key p))) = Ok (public_key p) /\
  curve_decode_private_point (take DJB_KEY_LEN (priv_data (private_key p))) = Ok (private_key p).
Proof.
  intros [H1 H2]. split.
  - exact (curve_decode_serialize _ H1).
  - exact (curve_decode_private_serialize _ H2).
Qed.

Lemma session_pre_key_store_load k : pre_key_wf k ->
  exists data, session_pre_key_serialize (Some k) = Ok data /\
    session_pre_key_deserialize data = Ok k.
Proof.
  intros [Hid Hp]. destruct k as [id p]. simpl in *.
  unfold session_pre_key_serialize. cbn [require rbind ec_public_key_serialize pk_key_pair pk_id].
  unfold ec_private_key_serialize. cbn [rbind].
  rewrite (packed_ok PK PreKeyRecordStructure_ok). eexists. split; [done|].
  unfold session_pre_key_deserialize, unpacked.
  rewrite (unpack_pack (ok := PreKeyRecordStructure_ok)) by done.
  cbn [require rbind pkr_id pkr_publickey pkr_privatekey].
  destruct (decode_pair_serialize p Hp) as [-> ->]. cbn [rbind ec_key_pair_create]. by destruct p.
Qed.

Lemma session_signed_pre_key_store_load k : signed_pre_key_wf k ->
  exists data, session_signed_pre_key_serialize k = Ok data /\
    session_signed_pre_key_deserialize data = Ok k.
Proof.
  intros (Hid & Hp & Ht & Hs & Hs'). destruct k as [id p t sig]. simpl in *.
  unfold session_signed_pre_key_serialize.
  cbn [rbind ec_public_key_serialize spk_key_pair spk_id spk_signature spk_timestamp].
  unfold ec_private_key_serialize. cbn [rbind]. unfold signal_buffer_create.
  assert (signal_buffer_alloc_ok (Z.of_nat (length sig)) = true) as ->.
  { unfold signal_buffer_alloc_ok. rewrite (proj2 (Z.ltb_ge _ _)); [done|].
    unfold signal_buffer_header, SIZE_MAX in *. lia. }
  cbn [require rbind].
  rewrite (packed_ok SPK SignedPreKeyRecordStructure_ok). eexists. split; [done|].
  unfold session_signed_pre_key_deserialize, unpacked.
  rewrite (unpack_pack (ok := SignedPreKeyRecordStructure_ok)) by done.
  cbn [require rbind spkr_id spkr_timestamp spkr_publickey spkr_privatekey spkr_signature].
  destruct (decode_pair_serialize p Hp) as [-> ->]. cbn [rbind ec_key_pair_create].
  destruct sig as [|b sig]; [simpl in Hs; lia|]. cbn [pb_data].
  unfold session_signed_pre_key_create. cbn [deref rbind].
  rewrite (proj2 (Nat.eqb_neq _ _)) by lia. rewrite (proj2 (Z.ltb_ge _ _)) by lia. by destruct p.
Qed.

(** The decoder asserts a non-empty signature instead of refusing the record:
    stored data with an empty signature field stop the program. *)
Lemma signed_pre_key_empty_signature id t p :
  is_u32 id -> 0 <= t < 2 ^ 64 -> pair_wf p ->
  session_signed_pre_key_deserialize (pack (mk_SignedPreKeyRecordStructure (Some id)
    (Some (DJB_TYPE :: take DJB_KEY_LEN (pub_data (public_key p))))
    (Some (take DJB_KEY_LEN (priv_data (private_key p)))) (Some []) (Some t))) = Stuck.
Proof.
  intros Hid Ht Hp. unfold session_signed_pre_key_deserialize, unpacked.
  rewrite (unpack_pack (ok := SignedPreKeyRecordStructure_ok)) by done.
  cbn [require rbind spkr_id spkr_timestamp spkr_publickey spkr_privatekey spkr_signature].
  by destruct (decode_pair_serialize p Hp) as [-> ->].
Qed.

Lemma identity_store_load {IK : Codec IdentityKeyPairStructure}
    {IKL : CodecLaws _ IK (fun _ => True)} i :
  pub_wf (id_public i) -> priv_wf (id_private i) ->
  exists data, ratchet_identity_key_pair_serialize (Some i) = Ok data /\
    ratchet_identity_key_pair_deserialize data = Ok i.
Proof.
  intros Hp Hq. unfold ratchet_identity_key_pair_serialize. cbn [require rbind].
  unfold ec_public_key_serialize_protobuf, ec_private_key_serialize_protobuf. cbn [rbind].
  rewrite (packed_ok IK (fun _ => True)). eexists. split; [done|].
  unfold ratchet_identity_key_pair_deserialize, unpacked.
  rewrite (unpack_pack (ok := fun _ => True)) by done.
  cbn [require rbind ikps_publickey ikps_privatekey].
  destruct (decode_pair_serialize (mk_pair (id_public i) (id_private i)) (conj Hp Hq)) as [E1 E2].
  cbn [public_key private_key] in E1, E2. rewrite E1, E2. by destruct i.
Qed.

End laws.
