(* ===== verification/Store.v ===== *)
(** The data store of [signal_protocol.c]: the application's callbacks as an
    interface, [SignalStore], and the wrappers of the library around them
    ([signal_protocol_session_load_session] and its siblings).

    - [store_view] is the abstract content of a store and [view_*] what the
      comments of [signal_protocol.h] say of each callback.
    - [SignalStoreLaws] states that every callback of a store does what that
      specification says; what a call achieves is proved against it.
    - [FallibleStoreLaws] allows any callback to fail instead, as the negative
      return values of [signal_protocol.h] do; what a failed call leaves behind is
      proved against it.
    - [MemoryStore] is a store in memory that satisfies both, [NoRemovalStore] one
      whose removal of pre-keys fails.

    [world] is what an API call acts on: the random source, the store, and the
    [inside_callback] flag of the session cipher. *)

From S2P Require Import Prelude Buffers Crypto Hkdf Curve Ratchet SessionState LocalStorage.
From S2P Require Import SessionSerial SessionRecord SessionPreKey.

Record signal_protocol_address := mk_address { address_name : bytes; device_id : Z }.

#[global] Instance address_eq_dec : EqDecision signal_protocol_address.
Proof. solve_decision. Defined.

Lemma u8_of_N b : u8 (Z.of_N (Byte.to_N b)) = b.
Proof. exact (u8_byte_val b). Qed.

#[global] Instance byte_countable : Countable byte :=
  inj_countable' Byte.to_N (fun n => u8 (Z.of_N n)) u8_of_N.
#[global] Program Instance address_countable : Countable signal_protocol_address :=
  inj_countable' (fun a => (address_name a, device_id a)) (fun p => mk_address p.1 p.2) _.
Next Obligation. by intros []. Qed.

(** The callbacks.  A negative return value is [Err]; output parameters are
    part of the result, [None] for a pointer that is left unset. *)
Class SignalStore := {
  store_data : Type;
  load_session_func : signal_protocol_address -> M store_data (Z * option bytes * option bytes);
  get_sub_device_sessions_func : bytes -> M store_data (list Z);
  store_session_func : signal_protocol_address -> bytes -> option bytes -> M store_data Z;
  contains_session_func : signal_protocol_address -> M store_data Z;
  delete_session_func : signal_protocol_address -> M store_data Z;
  delete_all_sessions_func : bytes -> M store_data Z;
  load_pre_key : Z -> M store_data (option bytes);
  store_pre_key : Z -> bytes -> M store_data Z;
  contains_pre_key : Z -> M store_data Z;
  remove_pre_key : Z -> M store_data Z;
  load_signed_pre_key : Z -> M store_data (option bytes);
  store_signed_pre_key : Z -> bytes -> M store_data Z;
  contains_signed_pre_key : Z -> M store_data Z;
  remove_signed_pre_key : Z -> M store_data Z;
  get_identity_key_pair : M store_data (option bytes * option bytes);
  get_local_registration_id : M store_data Z;
  save_identity : signal_protocol_address -> option bytes -> M store_data Z;
  is_trusted_identity : signal_protocol_address -> bytes -> M store_data Z
}.

(* ------------------------------------------------------------------ *)
(** ** The wrappers *)

Section wrappers.
Context `{ST : SignalStore} `{RC : Codec RecordStructure}.
Context `{PK : Codec PreKeyRecordStructure} `{SPK : Codec SignedPreKeyRecordStructure}.

Definition signal_protocol_session_load_session (address : signal_protocol_address)
    : M store_data session_record :=
  do '(code, buffer, user_buffer) <- load_session_func address;
  do record <- (if code =? 0 then
                  match buffer with
                  | Some _ => fail SG_ERR_UNKNOWN
                  | None => ret (session_record_create None)
                  end
                else if code =? 1 then
                  match buffer with
                  | None => fail (-1)
                  | Some b => lift (session_record_deserialize b)
                  end
                else fail SG_ERR_UNKNOWN);
  match user_buffer with
  | Some u => ret (session_record_set_user_record (Some u) record)
  | None => ret record
  end.

Definition signal_protocol_session_get_sub_device_sessions (name : bytes) : M store_data (list Z) :=
  get_sub_device_sessions_func name.

Definition signal_protocol_session_store_session (address : signal_protocol_address)
    (record : session_record) : M store_data Z :=
  do buffer <- lift (session_record_serialize (Some record));
  store_session_func address buffer (user_record record).

Definition signal_protocol_session_contains_session (address : signal_protocol_address)
    : M store_data Z := contains_session_func address.
Definition signal_protocol_session_delete_session (address : signal_protocol_address)
    : M store_data Z := delete_session_func address.
Definition signal_protocol_session_delete_all_sessions (name : bytes) : M store_data Z :=
  delete_all_sessions_func name.

(** The buffer is dereferenced without a test when the callback succeeds. *)
Definition signal_protocol_pre_key_load_key (id : Z) : M store_data session_pre_key :=
  do buffer <- load_pre_key id;
  do data <- lift (deref buffer);
  lift (session_pre_key_deserialize data).

Definition signal_protocol_pre_key_store_key (pre_key : session_pre_key) : M store_data Z :=
  do buffer <- lift (session_pre_key_serialize (Some pre_key));
  store_pre_key (pk_id pre_key) buffer.

Definition signal_protocol_pre_key_contains_key (id : Z) : M store_data Z := contains_pre_key id.
Definition signal_protocol_pre_key_remove_key (id : Z) : M store_data Z := remove_pre_key id.

Definition signal_protocol_signed_pre_key_load_key (id : Z) : M store_data session_signed_pre_key :=
  do buffer <- load_signed_pre_key id;
  do data <- lift (deref buffer);
  lift (session_signed_pre_key_deserialize data).

Definition signal_protocol_signed_pre_key_store_key (pre_key : session_signed_pre_key)
    : M store_data Z :=
  do buffer <- lift (session_signed_pre_key_serialize pre_key);
  store_signed_pre_key (spk_id pre_key) buffer.

Definition signal_protocol_signed_pre_key_contains_key (id : Z) : M store_data Z :=
  contains_signed_pre_key id.
Definition signal_protocol_signed_pre_key_remove_key (id : Z) : M store_data Z :=
  remove_signed_pre_key id.

Definition signal_protocol_identity_get_key_pair : M store_data ratchet_identity_key_pair :=
  do '(public_buf, private_buf) <- get_identity_key_pair;
  do public_data <- lift (deref public_buf);
  do pub <- lift (curve_decode_point public_data);
  do private_data <- lift (deref private_buf);
  do priv <- lift (curve_decode_private_point private_data);
  lift (ratchet_identity_key_pair_create pub priv).

Definition signal_protocol_identity_get_local_registration_id : M store_data Z :=
  get_local_registration_id.

Definition signal_protocol_identity_save_identity (address : signal_protocol_address)
    (identity_key : option ec_public_key) : M store_data Z :=
  match identity_key with
  | Some _ => do buffer <- lift (ec_public_key_serialize identity_key);
              save_identity address (Some buffer)
  | None => save_identity address None
  end.

Definition signal_protocol_identity_is_trusted_identity (address : signal_protocol_address)
    (identity_key : option ec_public_key) : M store_data Z :=
  do buffer <- lift (ec_public_key_serialize identity_key);
  is_trusted_identity address buffer.

End wrappers.

(* ------------------------------------------------------------------ *)
(** ** The specification of a store *)

Record store_view := mk_view {
  v_sessions : gmap signal_protocol_address (bytes * option bytes);
  v_pre_keys : gmap Z bytes;
  v_signed_pre_keys : gmap Z bytes;
  v_identity : bytes * bytes;
  v_registration_id : Z;
  v_trusted : gmap signal_protocol_address bytes }.

Definition set_sessions m (v : store_view) : store_view :=
  mk_view m (v_pre_keys v) (v_signed_pre_keys v) (v_identity v) (v_registration_id v) (v_trusted v).
Definition set_pre_keys m (v : store_view) : store_view :=
  mk_view (v_sessions v) m (v_signed_pre_keys v) (v_identity v) (v_registration_id v) (v_trusted v).
Definition set_signed_pre_keys m (v : store_view) : store_view :=
  mk_view (v_sessions v) (v_pre_keys v) m (v_identity v) (v_registration_id v) (v_trusted v).
Definition set_trusted m (v : store_view) : store_view :=
  mk_view (v_sessions v) (v_pre_keys v) (v_signed_pre_keys v) (v_identity v) (v_registration_id v) m.

Definition flag {A} (o : option A) : Z := match o with Some _ => 1 | None => 0 end.

Definition view_load_session (a : signal_protocol_address)
    : M store_view (Z * option bytes * option bytes) := fun v =>
  match v_sessions v !! a with
  | Some (b, u) => (Ok (1, Some b, u), v)
  | None => (Ok (0, None, None), v)
  end.
Definition view_store_session (a : signal_protocol_address) (b : bytes) (u : option bytes)
    : M store_view Z := fun v => (Ok 0, set_sessions (<[a := (b, u)]> (v_sessions v)) v).
Definition view_contains_session (a : signal_protocol_address) : M store_view Z := fun v =>
  (Ok (flag (v_sessions v !! a)), v).
Definition view_delete_session (a : signal_protocol_address) : M store_view Z := fun v =>
  (Ok (flag (v_sessions v !! a)), set_sessions (delete a (v_sessions v)) v).
Definition view_sub_devices (name : bytes) : M store_view (list Z) := fun v =>
  (Ok (omap (fun p => if decide (address_name p.1 = name) then Some (device_id p.1) else None)
         (map_to_list (v_sessions v))), v).
Definition view_delete_all (name : bytes) : M store_view Z := fun v =>
  let kept := filter (fun p => address_name p.1 <> name) (v_sessions v) in
  (Ok (Z.of_nat (size (v_sessions v)) - Z.of_nat (size kept)), set_sessions kept v).

(** Loading a key: [SG_ERR_INVALID_KEY_ID] when it is not there. *)
Definition view_load (m : store_view -> gmap Z bytes) (id : Z) : M store_view (option bytes) := fun v =>
  match m v !! id with
  | Some b => (Ok (Some b), v)
  | None => (Err SG_ERR_INVALID_KEY_ID, v)
  end.
Definition view_contains (m : store_view -> gmap Z bytes) (id : Z) : M store_view Z := fun v =>
  (Ok (flag (m v !! id)), v).
Definition view_update (set : gmap Z bytes -> store_view -> store_view) (m : store_view -> gmap Z bytes)
    (f : gmap Z bytes -> gmap Z bytes) : M store_view Z := fun v => (Ok 0, set (f (m v)) v).

Definition view_identity : M store_view (option bytes * option bytes) := fun v =>
  (Ok (Some (v_identity v).1, Some (v_identity v).2), v).
Definition view_registration_id : M store_view Z := fun v => (Ok (v_registration_id v), v).
Definition view_save_identity (a : signal_protocol_address) (k : option bytes) : M store_view Z :=
  fun v => (Ok 0, set_trusted (match k with
                               | Some k => <[a := k]> (v_trusted v)
                               | None => delete a (v_trusted v)
                               end) v).

(** Trust on first use: trusted without an entry, or when it matches. *)
Definition view_is_trusted (a : signal_protocol_address) (k : bytes) : M store_view Z := fun v =>
  (Ok (match v_trusted v !! a with
       | None => 1
       | Some k' => if decide (k' = k) then 1 else 0
       end), v).

(** A callback that returns what the specification returns and whose effect on
    the content is the specified one. *)
Definition refines {S T A} (view : S -> T) (m : M S A) (f : M T A) : Prop :=
  forall s, exists s', m s = ((f (view s)).1, s') /\ view s' = (f (view s)).2.

(** What a store holds. *)
Class StoreContent (S : SignalStore) := { view : store_data -> store_view }.

Class SignalStoreLaws (S : SignalStore) := {
  laws_content :: StoreContent S;
  load_session_spec a : refines view (load_session_func a) (view_load_session a);
  sub_devices_spec n : refines view (get_sub_device_sessions_func n) (view_sub_devices n);
  store_session_spec a b u : refines view (store_session_func a b u) (view_store_session a b u);
  contains_session_spec a : refines view (contains_session_func a) (view_contains_session a);
  delete_session_spec a : refines view (delete_session_func a) (view_delete_session a);
  delete_all_spec n : refines view (delete_all_sessions_func n) (view_delete_all n);
  load_pre_key_spec i : refines view (load_pre_key i) (view_load v_pre_keys i);
  store_pre_key_spec i b : refines view (store_pre_key i b)
    (view_update set_pre_keys v_pre_keys (insert i b));
  contains_pre_key_spec i : refines view (contains_pre_key i) (view_contains v_pre_keys i);
  remove_pre_key_spec i : refines view (remove_pre_key i)
    (view_update set_pre_keys v_pre_keys (delete i));
  load_signed_pre_key_spec i : refines view (load_signed_pre_key i) (view_load v_signed_pre_keys i);
  store_signed_pre_key_spec i b : refines view (store_signed_pre_key i b)
    (view_update set_signed_pre_keys v_signed_pre_keys (insert i b));
  contains_signed_pre_key_spec i : refines view (contains_signed_pre_key i)
    (view_contains v_signed_pre_keys i);
  remove_signed_pre_key_spec i : refines view (remove_signed_pre_key i)
    (view_update set_signed_pre_keys v_signed_pre_keys (delete i));
  get_identity_spec : refines view get_identity_key_pair view_identity;
  registration_id_spec : refines view get_local_registration_id view_registration_id;
  save_identity_spec a k : refines view (save_identity a k) (view_save_identity a k);
  is_trusted_spec a k : refines view (is_trusted_identity a k) (view_is_trusted a k)
}.

(** A callback that does the same, or fails and then has changed nothing. *)
Definition may_refine {S T A} (view : S -> T) (m : M S A) (f : M T A) : Prop :=
  forall s, (exists s', m s = ((f (view s)).1, s') /\ view s' = (f (view s)).2) \/
    (exists e s', m s = (Err e, s') /\ view s' = view s).

Class FallibleStoreLaws (S : SignalStore) (C : StoreContent S) := {
  load_session_may a : may_refine view (load_session_func a) (view_load_session a);
  sub_devices_may n : may_refine view (get_sub_device_sessions_func n) (view_sub_devices n);
  store_session_may a b u : may_refine view (store_session_func a b u) (view_store_session a b u);
  contains_session_may a : may_refine view (contains_session_func a) (view_contains_session a);
  delete_session_may a : may_refine view (delete_session_func a) (view_delete_session a);
  delete_all_may n : may_refine view (delete_all_sessions_func n) (view_delete_all n);
  load_pre_key_may i : may_refine view (load_pre_key i) (view_load v_pre_keys i);
  store_pre_key_may i b : may_refine view (store_pre_key i b)
    (view_update set_pre_keys v_pre_keys (insert i b));
  contains_pre_key_may i : may_refine view (contains_pre_key i) (view_contains v_pre_keys i);
  remove_pre_key_may i : may_refine view (remove_pre_key i)
    (view_update set_pre_keys v_pre_keys (delete i));
  load_signed_pre_key_may i : may_refine view (load_signed_pre_key i) (view_load v_signed_pre_keys i);
  store_signed_pre_key_may i b : may_refine view (store_signed_pre_key i b)
    (view_update set_signed_pre_keys v_signed_pre_keys (insert i b));
  contains_signed_pre_key_may i : may_refine view (contains_signed_pre_key i)
    (view_contains v_signed_pre_keys i);
  remove_signed_pre_key_may i : may_refine view (remove_signed_pre_key i)
    (view_update set_signed_pre_keys v_signed_pre_keys (delete i));
  get_identity_may : may_refine view get_identity_key_pair view_identity;
  registration_id_may : may_refine view get_local_registration_id view_registration_id;
  save_identity_may a k : may_refine view (save_identity a k) (view_save_identity a k);
  is_trusted_may a k : may_refine view (is_trusted_identity a k) (view_is_trusted a k)
}.

Lemma refines_may {S T A} (view : S -> T) (m : M S A) (f : M T A) : refines view m f -> may_refine view m f.
Proof. intros H s. left. apply H. Qed.

(** A store that never fails is one that may. *)
#[global] Instance strict_fallible S (SL : SignalStoreLaws S) : FallibleStoreLaws S laws_content.
Proof. split; intros; apply refines_may; apply SL. Qed.

(** The specification as a store, but for the removal of pre-keys. *)
Definition memory_store (remove : Z -> M store_view Z) : SignalStore := {|
  store_data := store_view;
  load_session_func := view_load_session;
  get_sub_device_sessions_func := view_sub_devices;
  store_session_func := view_store_session;
  contains_session_func := view_contains_session;
  delete_session_func := view_delete_session;
  delete_all_sessions_func := view_delete_all;
  load_pre_key := view_load v_pre_keys;
  store_pre_key i b := view_update set_pre_keys v_pre_keys (insert i b);
  contains_pre_key := view_contains v_pre_keys;
  remove_pre_key := remove;
  load_signed_pre_key := view_load v_signed_pre_keys;
  store_signed_pre_key i b := view_update set_signed_pre_keys v_signed_pre_keys (insert i b);
  contains_signed_pre_key := view_contains v_signed_pre_keys;
  remove_signed_pre_key i := view_update set_signed_pre_keys v_signed_pre_keys (delete i);
  get_identity_key_pair := view_identity;
  get_local_registration_id := view_registration_id;
  save_identity := view_save_identity;
  is_trusted_identity := view_is_trusted
|}.

(** The specification is itself a store. *)
Definition MemoryStore : SignalStore :=
  memory_store (fun i => view_update set_pre_keys v_pre_keys (delete i)).

Lemma refines_self {S A} (m : M S A) : refines (fun s => s) m m.
Proof. intros s. exists (m s).2. split; [|done]. by destruct (m s). Qed.

Definition MemoryStoreLaws : SignalStoreLaws MemoryStore.
Proof.
  refine {| laws_content := {| view := (fun v => v) : @store_data MemoryStore -> store_view |} |};
    intros; apply refines_self.
Defined.

(** A store in memory that cannot remove a pre-key. *)
Definition NoRemovalStore : SignalStore := memory_store (fun _ => fail SG_ERR_UNKNOWN).

Definition NoRemovalContent : StoreContent NoRemovalStore :=
  {| view := (fun v => v) : @store_data NoRemovalStore -> store_view |}.

Lemma NoRemovalStoreLaws : FallibleStoreLaws NoRemovalStore NoRemovalContent.
Proof.
  split; intros; try (apply refines_may, refines_self).
  intros s. right. by exists SG_ERR_UNKNOWN, s.
Qed.

(* ------------------------------------------------------------------ *)
(** ** The world of an API call *)

Section world.
Context `{CP : CryptoProvider} `{ST : SignalStore}.

Record world := mk_world { w_rng : rng; w_store : store_data; inside_callback : bool }.

Definition in_rng {A} (m : M rng A) : M world A :=
  zoom w_rng (fun g w => mk_world g (w_store w) (inside_callback w)) m.
Definition in_store {A} (m : M store_data A) : M world A :=
  zoom w_store (fun s w => mk_world (w_rng w) s (inside_callback w)) m.
Definition set_inside (b : bool) (w : world) : world := mk_world (w_rng w) (w_store w) b.

End world.

(* ------------------------------------------------------------------ *)
(** ** Lemmas *)

Lemma refines_bind {S T A B} (view : S -> T) (m : M S A) (f : M T A) (k : A -> M S B) (h : A -> M T B) :
  refines view m f -> (forall a, refines view (k a) (h a)) -> refines view (bind m k) (bind f h).
Proof.
  intros Hm Hk s. destruct (Hm s) as (s' & E & Hv). unfold bind. rewrite E.
  destruct (f (view s)) as [[a|e|] t]; simpl in *; [|eauto|eauto].
  subst t. apply Hk.
Qed.

Lemma refines_lift {S T A} (view : S -> T) (r : result A) : refines view (lift r) (lift r).
Proof. intros s. by exists s. Qed.

#[export] Hint Resolve refines_bind refines_lift : sigdb.
#[export] Hint Resolve load_session_spec store_session_spec contains_session_spec load_pre_key_spec
  remove_pre_key_spec load_signed_pre_key_spec get_identity_spec registration_id_spec
  save_identity_spec is_trusted_spec : sigdb.

Section store_lemmas.
Context {ST : SignalStore} {SL : SignalStoreLaws ST}.
Context {RC : Codec RecordStructure} {RCL : CodecLaws RecordStructure RC RecordStructure_ok}.

(** A stored session is the one that is loaded, no longer fresh, with its
    application data; storing it does not touch the other sessions. *)
Lemma store_then_load_session a r st :
  record_storable r ->
  exists st', signal_protocol_session_store_session a r st = (Ok 0, st') /\
    exists st'', signal_protocol_session_load_session a st' =
      (Ok (mk_record (rec_state r) (previous_states r) false (user_record r)), st'') /\
    view st'' = view st' /\
    forall b, b <> a -> v_sessions (view st') !! b = v_sessions (view st) !! b.
Proof.
  intros Hr. destruct (session_record_store_load r Hr) as (data & E & D).
  destruct (store_session_spec a data (user_record r) st) as (st' & Es & Hv).
  exists st'. unfold signal_protocol_session_store_session, bind at 1, lift. rewrite E.
  split; [exact Es|].
  destruct (load_session_spec a st') as (st'' & El & Hv').
  exists st''. unfold signal_protocol_session_load_session.
  assert (v_sessions (view st') !! a = Some (data, user_record r)) as Hl.
  { rewrite Hv. simpl. apply lookup_insert_eq. }
  unfold view_load_session in El, Hv'. rewrite Hl in El, Hv'. simpl in El, Hv'.
  split_and!; [|done|].
  - rewrite (bind_run _ _ _ _ _ El). cbn [Z.eqb Pos.eqb]. unfold bind, lift. rewrite D.
    by destruct (user_record r).
  - intros b Hb. rewrite Hv. simpl. by apply lookup_insert_ne.
Qed.

(** An unknown contact gets a fresh record. *)
Lemma load_session_fresh a st :
  v_sessions (view st) !! a = None ->
  exists st', signal_protocol_session_load_session a st = (Ok (session_record_create None), st') /\
    view st' = view st.
Proof.
  intros Ha. destruct (load_session_spec a st) as (st' & E & Hv).
  unfold view_load_session in *. rewrite Ha in E, Hv. simpl in *. exists st'.
  split; [|done]. unfold signal_protocol_session_load_session. by rewrite (bind_run _ _ _ _ _ E).
Qed.

End store_lemmas.

(** Loading leaves the content of the store alone. *)
Lemma load_session_view {ST : SignalStore} {SV : StoreContent ST} {FL : FallibleStoreLaws ST SV}
    {RC : Codec RecordStructure} a st :
  view (signal_protocol_session_load_session a st).2 = view st.
Proof.
  unfold signal_protocol_session_load_session, bind at 1.
  destruct (load_session_may a st) as [(st' & -> & Hv)|(e & st' & -> & Hv)]; [|done].
  unfold view_load_session in *. destruct (v_sessions (view st) !! a) as [[b u]|]; simpl in *.
  - unfold bind, lift. destruct (session_record_deserialize b); [|done|done]. by destruct u.
  - done.
Qed.
