(* ===== verification/SessionBuilder.v ===== *)
(** [session_builder.c]: setting up a session from a pre-key bundle (Alice) and
    from a received pre-key message (Bob).

    Bob's side works on the store and on the session record of the caller,
    Alice's side on the whole [world].  A record is mutated in place through the
    pointer to its current state; on an error the caller drops it. *)

From S2P Require Import Prelude Buffers Crypto Hkdf Curve Ratchet SessionState LocalStorage.
From S2P Require Import SessionSerial Protocol RatchetSession SessionRecord SessionPreKey Store.

(** Mutating the current state of a record, which must exist. *)
Definition on_state {A} (m : M session_state A) : M session_record A := fun r =>
  match rec_state r with
  | None => (Stuck, r)
  | Some s => let '(a, s') := m s in (a, session_record_set_state s' r)
  end.

Section builder.
Context `{CP : CryptoProvider} `{CV : Curve25519} `{ST : SignalStore}.
Context `{RC : Codec RecordStructure}.
Context `{PK : Codec PreKeyRecordStructure} `{SPK : Codec SignedPreKeyRecordStructure}.

(** [if(!session_record_is_fresh(record)) session_record_archive_current_state(record)] *)
Definition archive_unless_fresh (r : session_record) : session_record :=
  if is_fresh r then r else session_record_archive_current_state r.

(** A return value of 1, with the pre-key to remove, is [Some id]; 0 is [None]. *)
Definition session_builder_process_pre_key_signal_message_v3 (message : pre_key_signal_message)
    : M (store_data * session_record) (option Z) :=
  do record <- on_snd get;
  do has_session_state <- lift (session_record_has_session_state record (pkm_version message)
      (pkm_base_key message));
  if has_session_state : bool then ret None
  else
    do our_signed_pre_key <- on_fst (signal_protocol_signed_pre_key_load_key
        (pkm_signed_pre_key_id message));
    do our_identity_key <- on_fst signal_protocol_identity_get_key_pair;
    do our_one_time_pre_key <- (if pkm_has_pre_key_id message then
        do k <- on_fst (signal_protocol_pre_key_load_key (pkm_pre_key_id message));
        ret (Some (pk_key_pair k))
      else ret None);
    do parameters <- lift (bob_signal_protocol_parameters_create (Some our_identity_key)
        (Some (spk_key_pair our_signed_pre_key)) our_one_time_pre_key
        (Some (spk_key_pair our_signed_pre_key)) (pkm_identity_key message) (pkm_base_key message));
    exec on_snd (modify archive_unless_fresh);
    exec on_snd (on_state (ratcheting_session_bob_initialize parameters));
    do local_registration_id <- on_fst signal_protocol_identity_get_local_registration_id;
    do base_key <- lift (deref (pkm_base_key message));
    exec on_snd (on_state (modify (session_state_set_local_registration_id local_registration_id)));
    exec on_snd (on_state (modify (session_state_set_remote_registration_id
        (pkm_registration_id message))));
    exec on_snd (on_state (modify (session_state_set_alice_base_key base_key)));
    ret (if pkm_has_pre_key_id message && negb (pkm_pre_key_id message =? PRE_KEY_MEDIUM_MAX_VALUE)
         then Some (pkm_pre_key_id message) else None).

Definition session_builder_process_pre_key_signal_message (address : signal_protocol_address)
    (message : pre_key_signal_message) : M (store_data * session_record) (option Z) :=
  do trusted <- on_fst (signal_protocol_identity_is_trusted_identity address (pkm_identity_key message));
  if trusted =? 0 then fail SG_ERR_UNTRUSTED_IDENTITY
  else
    do unsigned_pre_key_id <- session_builder_process_pre_key_signal_message_v3 message;
    exec on_fst (signal_protocol_identity_save_identity address (pkm_identity_key message));
    ret unsigned_pre_key_id.

(** The signature of the bundle's signed pre-key is dereferenced without a
    test, so a bundle without one is [Stuck]. *)
Definition session_builder_process_pre_key_bundle (address : signal_protocol_address)
    (bundle : session_pre_key_bundle) : M world Z :=
  do trusted <- in_store (signal_protocol_identity_is_trusted_identity address
      (bundle_identity_key bundle));
  if trusted =? 0 then fail SG_ERR_UNTRUSTED_IDENTITY
  else match bundle_signed_pre_key_public bundle with
  | None => fail SG_ERR_INVALID_KEY
  | Some signed_pre_key =>
    do serialized_signed_pre_key <- lift (ec_public_key_serialize (Some signed_pre_key));
    do signature <- lift (deref (bundle_signed_pre_key_signature bundle));
    do their_identity_key <- lift (deref (bundle_identity_key bundle));
    do valid <- lift (curve_verify_signature their_identity_key serialized_signed_pre_key signature);
    if negb valid then fail SG_ERR_INVALID_KEY
    else
      do record <- in_store (signal_protocol_session_load_session address);
      do our_base_key <- in_rng curve_generate_key_pair;
      do our_identity_key <- in_store signal_protocol_identity_get_key_pair;
      do parameters <- lift (alice_signal_protocol_parameters_create (Some our_identity_key)
          (Some our_base_key) (Some their_identity_key) (Some signed_pre_key)
          (bundle_pre_key_public bundle) (Some signed_pre_key));
      let record := archive_unless_fresh record in
      do state <- lift (deref (rec_state record));
      do '(_, state) <- in_rng (local (ratcheting_session_alice_initialize parameters) state);
      let state := session_state_set_unacknowledged_pre_key_message
          (match bundle_pre_key_public bundle with
           | Some _ => Some (bundle_pre_key_id bundle)
           | None => None
           end)
          (bundle_signed_pre_key_id bundle) (public_key our_base_key) state in
      do local_registration_id <- in_store signal_protocol_identity_get_local_registration_id;
      let state := session_state_set_local_registration_id local_registration_id state in
      let state := session_state_set_remote_registration_id (bundle_registration_id bundle) state in
      let state := session_state_set_alice_base_key (public_key our_base_key) state in
      exec in_store (signal_protocol_session_store_session address
          (session_record_set_state state record));
      in_store (signal_protocol_identity_save_identity address (bundle_identity_key bundle))
  end.

End builder.
