(* ===== verification/SessionCipher.v ===== *)
(** [session_cipher.c]: encrypting and decrypting messages of a session.

    The ratchet steps of decryption are in [Receive].  Each API function acts
    on the [world]; a loaded record is a local object, so nothing reaches the
    store before [signal_protocol_session_store_session].  Decryption works on
    copies of the states, made through their serialized form. *)

From S2P Require Import Prelude Buffers Crypto Hkdf Curve Ratchet SessionState LocalStorage.
From S2P Require Import SessionSerial Protocol RatchetSession SessionRecord Receive SessionPreKey.
From S2P Require Import Store SessionBuilder.

(** [iv[3] = counter; iv[2] = counter >> 8; ...] of the version 2 sessions. *)
Definition counter_iv (n : Z) : bytes :=
  [u8 (Z.shiftr n 24); u8 (Z.shiftr n 16); u8 (Z.shiftr n 8); u8 n] ++ repeat x00 12.

Section cipher.
Context `{CP : CryptoProvider} `{CV : Curve25519} `{ST : SignalStore}.
Context `{SC : Codec SessionStructure} `{RC : Codec RecordStructure}.
Context `{PK : Codec PreKeyRecordStructure} `{SPK : Codec SignedPreKeyRecordStructure}.
Context `{MC : Codec SignalMessage} `{PC : Codec PreKeySignalMessage}.

Definition session_cipher_get_ciphertext (version : Z) (keys : ratchet_message_keys)
    (plaintext : bytes) : result bytes :=
  if 3 <=? version
  then encrypt_func SG_CIPHER_AES_CBC_PKCS5 (cipher_key keys) (iv keys) plaintext
  else encrypt_func SG_CIPHER_AES_CTR_NOPADDING (cipher_key keys) (counter_iv (counter keys)) plaintext.

Definition session_cipher_get_plaintext (version : Z) (keys : ratchet_message_keys)
    (ciphertext : bytes) : result bytes :=
  if 3 <=? version
  then decrypt_func SG_CIPHER_AES_CBC_PKCS5 (cipher_key keys) (iv keys) ciphertext
  else decrypt_func SG_CIPHER_AES_CTR_NOPADDING (cipher_key keys) (counter_iv (counter keys)) ciphertext.

(** The message version is a [uint8_t] parameter. *)
Definition version_arg (version : Z) : Z := byte_val (u8 version).

(** [session_cipher_encrypt] between loading and storing the session. *)
Definition encrypt_with_state (padded_message : bytes) : M session_state ciphertext_message :=
  do s <- get;
  do chain_key <- lift (require SG_ERR_UNKNOWN (session_state_get_sender_chain_key s));
  do message_keys <- lift (ratchet_chain_key_get_message_keys chain_key);
  do sender_ephemeral <- lift (require SG_ERR_UNKNOWN (session_state_get_sender_ratchet_key s));
  do ciphertext <- lift (session_cipher_get_ciphertext (session_version s) message_keys padded_message);
  do local <- lift (require SG_ERR_UNKNOWN (local_identity_public s));
  do remote <- lift (require SG_ERR_UNKNOWN (remote_identity_public s));
  do message <- lift (signal_message_create (version_arg (session_version s)) (mac_key message_keys)
      sender_ephemeral (ratchet_chain_key_get_index chain_key) (previous_counter s) ciphertext
      (Some local) (Some remote));
  do out <- (if has_pending_pre_key s then
      do bk <- lift (require SG_ERR_UNKNOWN (base_key (pending_pre_key s)));
      do pre_key_message <- lift (pre_key_signal_message_create (version_arg (session_version s))
          (local_registration_id s)
          (if has_pre_key_id (pending_pre_key s) then Some (pre_key_id (pending_pre_key s)) else None)
          (signed_pre_key_id (pending_pre_key s)) bk local message);
      ret (CIPHERTEXT_PREKEY_TYPE pre_key_message)
    else ret (CIPHERTEXT_SIGNAL_TYPE message));
  do next_chain_key <- lift (ratchet_chain_key_create_next chain_key);
  exec session_state_set_sender_chain_key next_chain_key;
  ret out.

Definition session_cipher_encrypt (address : signal_protocol_address) (padded_message : bytes)
    : M world ciphertext_message :=
  do w <- get;
  if inside_callback w then fail SG_ERR_INVAL
  else
    do record <- in_store (signal_protocol_session_load_session address);
    do state <- lift (require SG_ERR_UNKNOWN (session_record_get_state record));
    let '(out, state') := encrypt_with_state padded_message state in
    do message <- lift out;
    exec in_store (signal_protocol_session_store_session address
        (session_record_set_state state' record));
    ret message.

Definition session_cipher_decrypt_from_state_and_signal_message (m : signal_message)
    : M (rng * session_state) bytes :=
  do s <- on_snd get;
  if negb (has_sender_chain s) then fail SG_ERR_INVALID_MESSAGE
  else if negb (message_version m =? session_version s) then fail SG_ERR_INVALID_MESSAGE
  else
    do their_ephemeral <- lift (require SG_ERR_UNKNOWN (sm_sender_ratchet_key m));
    do chain_key <- session_cipher_get_or_create_chain_key their_ephemeral;
    do message_keys <- on_snd (session_cipher_get_or_create_message_keys their_ephemeral chain_key
        (msg_counter m));
    do s' <- on_snd get;
    do remote <- lift (require SG_ERR_UNKNOWN (remote_identity_public s'));
    do local <- lift (require SG_ERR_UNKNOWN (local_identity_public s'));
    do verified <- lift (signal_message_verify_mac m (Some remote) (Some local) (mac_key message_keys));
    if negb verified then fail SG_ERR_INVALID_MESSAGE
    else
      do body <- lift (require SG_ERR_INVALID_MESSAGE (msg_ciphertext m));
      do plaintext <- lift (session_cipher_get_plaintext (message_version m) message_keys body);
      exec on_snd (modify session_state_clear_unacknowledged_pre_key_message);
      ret plaintext.

(** One attempt on a copy of a state.  [SG_ERR_INVALID_MESSAGE] from the
    decryption means that the next state is tried ([None]); every other error,
    those of the copy included, ends the search. *)
Definition decrypt_attempt (m : signal_message) (s : session_state)
    : M rng (option (bytes * session_state)) :=
  do state_copy <- lift (session_state_copy s);
  fun g =>
    match local (session_cipher_decrypt_from_state_and_signal_message m) state_copy g with
    | (Ok r, g') => (Ok (Some r), g')
    | (Err e, g') => (if e =? SG_ERR_INVALID_MESSAGE then Ok None else Err e, g')
    | (Stuck, g') => (Stuck, g')
    end.

(** The loop over the archived states, from position [i]. *)
Fixpoint decrypt_previous (m : signal_message) (i : nat) (l : list session_state)
    : M rng (option (nat * bytes * session_state)) :=
  match l with
  | [] => ret None
  | s :: l' =>
      do r <- decrypt_attempt m s;
      match r with
      | Some (plaintext, s') => ret (Some (i, plaintext, s'))
      | None => decrypt_previous m (S i) l'
      end
  end.

Definition session_cipher_decrypt_from_record_and_signal_message (m : signal_message)
    : M (rng * session_record) bytes :=
  do record <- on_snd get;
  do current <- (match session_record_get_state record with
                 | Some s => on_fst (decrypt_attempt m s)
                 | None => ret None
                 end);
  match current with
  | Some (plaintext, s') =>
      exec on_snd (modify (session_record_set_state s'));
      ret plaintext
  | None =>
      do found <- on_fst (decrypt_previous m 0 (previous_states record));
      match found with
      | Some (i, plaintext, s') =>
          exec on_snd (modify (session_record_get_previous_states_remove i));
          exec on_snd (modify (session_record_promote_state s'));
          ret plaintext
      | None => fail SG_ERR_INVALID_MESSAGE
      end
  end.

(** The application's decryption callback, when one is set. *)
Definition session_cipher_decrypt_callback (callback : option (bytes -> M world Z))
    (plaintext : bytes) : M world unit :=
  match callback with
  | None => ret tt
  | Some f => fun w =>
      let '(r, w') := f plaintext (set_inside true w) in
      (rmap (fun _ => tt) r, set_inside false w')
  end.

Definition session_cipher_decrypt_signal_message (address : signal_protocol_address)
    (callback : option (bytes -> M world Z)) (m : signal_message) : M world bytes :=
  do w <- get;
  if inside_callback w then fail SG_ERR_INVAL
  else
    do contained <- in_store (signal_protocol_session_contains_session address);
    if contained =? 0 then fail SG_ERR_NO_SESSION
    else
      do record <- in_store (signal_protocol_session_load_session address);
      do '(plaintext, record) <- in_rng (local
          (session_cipher_decrypt_from_record_and_signal_message m) record);
      exec session_cipher_decrypt_callback callback plaintext;
      exec in_store (signal_protocol_session_store_session address record);
      ret plaintext.

Definition session_cipher_decrypt_pre_key_signal_message (address : signal_protocol_address)
    (callback : option (bytes -> M world Z)) (m : pre_key_signal_message) : M world bytes :=
  do w <- get;
  if inside_callback w then fail SG_ERR_INVAL
  else
    do record <- in_store (signal_protocol_session_load_session address);
    do '(unsigned_pre_key_id, record) <- in_store (local
        (session_builder_process_pre_key_signal_message address m) record);
    do message <- lift (deref (pkm_message m));
    do '(plaintext, record) <- in_rng (local
        (session_cipher_decrypt_from_record_and_signal_message message) record);
    exec session_cipher_decrypt_callback callback plaintext;
    exec in_store (signal_protocol_session_store_session address record);
    match unsigned_pre_key_id with
    | Some id => exec in_store (signal_protocol_pre_key_remove_key id); ret plaintext
    | None => ret plaintext
    end.

Definition session_cipher_get_remote_registration_id (address : signal_protocol_address)
    : M world Z :=
  do record <- in_store (signal_protocol_session_load_session address);
  do state <- lift (require SG_ERR_UNKNOWN (session_record_get_state record));
  ret (remote_registration_id state).

(** A non-negative code other than 1 of [contains_session] that is not 0 is
    returned as it is, with the version left at 0. *)
Definition session_cipher_get_session_version (address : signal_protocol_address) : M world Z :=
  do contained <- in_store (signal_protocol_session_contains_session address);
  if contained =? 0 then fail SG_ERR_NO_SESSION
  else if negb (contained =? 1) then ret 0
  else
    do record <- in_store (signal_protocol_session_load_session address);
    do state <- lift (require SG_ERR_UNKNOWN (session_record_get_state record));
    ret (session_version state).

End cipher.
