(* ===== verification/Conversation.v ===== *)
(** The two ends of a session kept in step.

    - [synced a b]: [a] made the last Diffie-Hellman ratchet step and [b] has not
      seen it yet; each can follow the sender chain of the other.
    - the lemmas of this file show that [synced] holds after the X3DH set-up and,
      in one direction or the other, after every message that is encrypted or
      received.  [Network] adds the messages on their way. *)

From S2P Require Import Prelude Buffers Crypto Hkdf Curve Ratchet SessionState LocalStorage.
From S2P Require Import SessionSerial Protocol RatchetSession SessionRecord Receive SessionPreKey.
From S2P Require Import Store SessionBuilder SessionCipher.

Section wire.
Context `{CP : CryptoProvider}.
Context `{MC : Codec SignalMessage} `{PC : Codec PreKeySignalMessage}.

(** The signal message the receiver parses from the bytes of a message. *)
Definition transmit (out : ciphertext_message) : result signal_message :=
  match out with
  | CIPHERTEXT_SIGNAL_TYPE m =>
      let? data := deref (msg_serialized m) in signal_message_deserialize data
  | CIPHERTEXT_PREKEY_TYPE p =>
      let? data := deref (pkm_serialized p) in
      let? p' := pre_key_signal_message_deserialize data in
      deref (pkm_message p')
  end.

End wire.

Section sync.
Context `{CP : CryptoProvider} {CL : CryptoProviderLaws CP}.
Context `{CV : Curve25519} {CVL : Curve25519Laws CV}.

(** Both sessions are of the current version, with each other's identity, and
    have one receiver chain per ratchet key. *)
Record paired (a b : session_state) : Prop := {
  p_version_a : session_version a = CIPHERTEXT_CURRENT_VERSION;
  p_version_b : session_version b = CIPHERTEXT_CURRENT_VERSION;
  p_local : exists k, local_identity_public a = Some k /\ remote_identity_public b = Some k;
  p_remote : exists k, remote_identity_public a = Some k /\ local_identity_public b = Some k;
  p_chain_a : has_sender_chain a = true;
  p_chain_b : has_sender_chain b = true;
  p_wf_a : state_wf a;
  p_wf_b : state_wf b;
  p_distinct_a : NoDup (chain_keys a);
  p_distinct_b : NoDup (chain_keys b)
}.

(** [b] has the receiver chain of [a]'s ratchet key, and [a]'s sender chain is in
    front of it. *)
Definition follows (b a : session_state) : Prop :=
  exists kp c ckb ck,
    session_state_get_sender_ratchet_key_pair a = Some kp /\ valid_pair kp /\
    session_state_get_sender_chain_key a = Some ck /\ in_front ckb ck /\
    session_state_find_receiver_chain b (public_key kp) = Some c /\ chain_inv c ckb.

(** [a] is one Diffie-Hellman step ahead of [b]: its sender chain is in front of
    the chain [b] derives when it takes the step. *)
Definition ahead (a b : session_state) : Prop :=
  exists pa pb root secret ck,
    session_state_get_sender_ratchet_key_pair a = Some pa /\ valid_pair pa /\
    session_state_get_sender_ratchet_key_pair b = Some pb /\ valid_pair pb /\
    root_key b = Some root /\
    curve_calculate_agreement (Some (public_key pa)) (Some (private_key pb)) = Ok secret /\
    root_key a = Some (root_step root secret).1 /\
    session_state_get_sender_chain_key a = Some ck /\ in_front (root_step root secret).2 ck /\
    session_state_find_receiver_chain b (public_key pa) = None.

Definition synced (a b : session_state) : Prop := paired a b /\ ahead a b /\ follows a b.

Lemma paired_sym a b : paired a b -> paired b a.
Proof.
  intros [H1 H2 (k & H3 & H3') (k' & H4 & H4') H5 H6 H7 H8 H9 H10]. constructor; eauto.
Qed.

(** The index of the next message of a party. *)
Definition next_counter (a : session_state) : Z :=
  match session_state_get_sender_chain_key a with Some ck => ck_index ck | None => 0 end.

End sync.

(* ------------------------------------------------------------------ *)
(** ** Encryption *)

Section encryption.
Context `{CP : CryptoProvider} {CL : CryptoProviderLaws CP} `{CV : Curve25519}.
Context {MC : Codec SignalMessage} {MCL : CodecLaws SignalMessage MC SignalMessage_ok}.
Context {PC : Codec PreKeySignalMessage} {PCL : CodecLaws PreKeySignalMessage PC PreKeySignalMessage_ok}.

(** What a successful encryption did. *)
Lemma encrypt_with_state_inv pt s out s' :
  state_wf s -> session_version s = CIPHERTEXT_CURRENT_VERSION ->
  encrypt_with_state pt s = (Ok out, s') ->
  exists ck kp local remote ct m,
    session_state_get_sender_chain_key s = Some ck /\
    session_state_get_sender_ratchet_key_pair s = Some kp /\
    local_identity_public s = Some local /\ remote_identity_public s = Some remote /\
    session_cipher_get_ciphertext 3 (chain_message_keys ck) pt = Ok ct /\
    signal_message_create 3 (mac_key (chain_message_keys ck)) (public_key kp) (ck_index ck)
      (previous_counter s) ct (Some local) (Some remote) = Ok m /\
    transmit out = Ok m /\ has_sender_chain s = true /\
    s' = with_sender_chain_key (chain_next ck) s.
Proof.
  intros Hs Hv. destruct (wf_sender s Hs) as [Hkp Hck].
  unfold encrypt_with_state, bind, lift, get, session_state_get_sender_chain_key,
    session_state_get_sender_ratchet_key, session_state_get_sender_ratchet_key_pair,
    ratchet_chain_key_get_index, session_state_set_sender_chain_key, ret.
  destruct (sc_chain_key (sender_chain s)) as [ck|]; [|done]. cbn [require opt_all] in *.
  rewrite get_message_keys_ok by done.
  destruct (sender_ratchet_key_pair (sender_chain s)) as [kp|]; [|done].
  cbn [require fmap option_fmap option_map opt_all] in *.
  rewrite Hv. change (version_arg CIPHERTEXT_CURRENT_VERSION) with 3. unfold CIPHERTEXT_CURRENT_VERSION.
  destruct (session_cipher_get_ciphertext 3 _ pt) as [ct| |] eqn:Hct; [|done|done].
  pose proof (wf_local s Hs) as Hlocal.
  destruct (local_identity_public s) as [local|]; [|done].
  destruct (remote_identity_public s) as [remote|]; [|done]. cbn [require opt_all] in *.
  destruct (signal_message_create _ _ _ _ _ _ _ _) as [m| |] eqn:Hm; [|done|done].
  assert (signal_message_copy m = Ok m) as Hcopy.
  { eapply signal_message_round_trip, Hm; [lia|apply Hkp|apply Hck|apply Hs]. }
  rewrite create_next_ok. intros H.
  assert (transmit out = Ok m /\ has_sender_chain s = true /\ s' = with_sender_chain_key (chain_next ck) s)
    as (? & ? & ?); [|exists ck, kp, local, remote, ct, m; split_and!; done].
  destruct (has_pending_pre_key s).
  - destruct (wf_pending s Hs) as (Hid & Hsid & Hbk & _).
    destruct (base_key (pending_pre_key s)) as [bk|]; [|done]. cbn [require opt_all] in *.
    destruct (pre_key_signal_message_create _ _ _ _ _ _ _) as [pm| |] eqn:Hpm; [|done|done].
    destruct (has_sender_chain s); [|done]. injection H as <- <-. split_and!; [|done|done].
    destruct (pre_key_signal_message_create_inv _ _ _ _ _ _ _ _ Hpm) as (data & _ & Epm).
    unfold transmit. rewrite Epm. cbn [pkm_serialized deref rbind].
    erewrite pre_key_signal_message_round_trip; [..|exact Hpm|by rewrite Epm]; auto.
    + by rewrite Epm.
    + apply Hs.
    + by destruct (has_pre_key_id (pending_pre_key s)).
    + by apply signal_message_create_inv in Hm as ->.
  - destruct (has_sender_chain s); [|done]. by injection H as <- <-.
Qed.

(** While the pre-key message is unacknowledged, the message is wrapped in a
    pre-key message, which parses back. *)
Lemma encrypt_pre_key_inv pt s out s' :
  state_wf s -> session_version s = CIPHERTEXT_CURRENT_VERSION -> has_pending_pre_key s = true ->
  encrypt_with_state pt s = (Ok out, s') ->
  exists pm data bk local,
    out = CIPHERTEXT_PREKEY_TYPE pm /\ base_key (pending_pre_key s) = Some bk /\
    local_identity_public s = Some local /\ pkm_version pm = 3 /\
    pkm_registration_id pm = local_registration_id s /\
    pkm_has_pre_key_id pm = has_pre_key_id (pending_pre_key s) /\
    pkm_pre_key_id pm = (if has_pre_key_id (pending_pre_key s) then pre_key_id (pending_pre_key s) else 0) /\
    pkm_signed_pre_key_id pm = signed_pre_key_id (pending_pre_key s) /\
    pkm_base_key pm = Some bk /\ pkm_identity_key pm = Some local /\
    pkm_serialized pm = Some data /\ pre_key_signal_message_deserialize data = Ok pm /\
    transmit out = deref (pkm_message pm).
Proof.
  intros Hs Hv Hp He.
  destruct (encrypt_with_state_inv pt s out s' Hs Hv He) as (ck & kp & local & remote & ct & m & Hck & Hkp &
    Hl & Hr & Hct & Hm & Ht & Hh & Es').
  unfold encrypt_with_state, bind, lift, get, session_state_get_sender_ratchet_key,
    session_state_get_sender_ratchet_key_pair, ratchet_chain_key_get_index, ret in *.
  rewrite Hck, Hkp, Hl, Hr, Hv, Hp in He. cbn [require fmap option_fmap option_map] in He.
  rewrite (get_message_keys_ok ck) in He.
  2: { destruct (wf_sender s Hs) as [_ H]. unfold session_state_get_sender_chain_key in Hck.
       by rewrite Hck in H. }
  change (version_arg CIPHERTEXT_CURRENT_VERSION) with 3 in He. unfold CIPHERTEXT_CURRENT_VERSION in He.
  rewrite Hct, Hm in He. destruct (base_key (pending_pre_key s)) as [bk|] eqn:Ebk; [|done]. cbn [require] in He.
  destruct (pre_key_signal_message_create _ _ _ _ _ _ _) as [pm| |] eqn:Hpm; [|done|done].
  rewrite create_next_ok in He. unfold session_state_set_sender_chain_key in He. rewrite Hh in He.
  injection He as <- _.
  pose proof Hpm as (data & _ & Epm)%pre_key_signal_message_create_inv.
  assert (pkm_version pm = 3 /\ pkm_registration_id pm = local_registration_id s /\
    pkm_has_pre_key_id pm = has_pre_key_id (pending_pre_key s) /\
    pkm_pre_key_id pm = (if has_pre_key_id (pending_pre_key s) then pre_key_id (pending_pre_key s) else 0) /\
    pkm_signed_pre_key_id pm = signed_pre_key_id (pending_pre_key s) /\
    pkm_base_key pm = Some bk /\ pkm_identity_key pm = Some local /\ pkm_message pm = Some m)
    as (Q1 & Q2 & Q3 & Q4 & Q5 & Q6 & Q7 & Q8).
  { rewrite Epm. cbn. by destruct (has_pre_key_id (pending_pre_key s)). }
  assert (exists data, pkm_serialized pm = Some data) as (data' & Ed) by (rewrite Epm; by eexists).
  exists pm, data', bk, local. rewrite Q8. split_and!; try done.
  destruct (wf_pending s Hs) as (Hid & Hsid & Hbk & _). rewrite Ebk in Hbk.
  pose proof (wf_local s Hs) as Hlw. rewrite Hl in Hlw.
  destruct (wf_sender s Hs) as [Hkw Hcw].
  unfold session_state_get_sender_chain_key in Hck. rewrite Hkp in Hkw. rewrite Hck in Hcw.
  eapply pre_key_signal_message_round_trip; [..|exact Hpm|done]; try done.
  + apply Hs.
  + by destruct (has_pre_key_id (pending_pre_key s)).
  + by apply signal_message_create_inv in Hm as ->.
  + eapply signal_message_round_trip, Hm; [lia|apply Hkw|apply Hcw|apply Hs].
Qed.

End encryption.

(* ------------------------------------------------------------------ *)
(** ** Decryption *)

Lemma get_plaintext_ciphertext `{CP : CryptoProvider} {CL : CryptoProviderLaws CP} v keys pt ct :
  session_cipher_get_ciphertext v keys pt = Ok ct ->
  session_cipher_get_plaintext v keys ct = Ok pt.
Proof.
  unfold session_cipher_get_ciphertext, session_cipher_get_plaintext.
  case_match; apply decrypt_encrypt.
Qed.

Section decryption.
Context `{CP : CryptoProvider} {CL : CryptoProviderLaws CP}.
Context `{CV : Curve25519} {CVL : Curve25519Laws CV}.
Context {MC : Codec SignalMessage} {MCL : CodecLaws SignalMessage MC SignalMessage_ok}.

Abbreviation decrypt_state := session_cipher_decrypt_from_state_and_signal_message.

(** Once the receiver has derived the chain key and the message keys of the link
    [ck], the message made at [ck] decrypts. *)
Lemma decrypt_ok m g b k ck0 g1 s1 s2 ck pt ct sender receiver pn :
  has_sender_chain b = true -> session_version b = 3 ->
  session_cipher_get_or_create_chain_key k (g, b) = (Ok ck0, (g1, s1)) ->
  session_cipher_get_or_create_message_keys k ck0 (ck_index ck) s1 = (Ok (chain_message_keys ck), s2) ->
  only_receivers s1 s2 ->
  remote_identity_public s1 = Some sender -> local_identity_public s1 = Some receiver ->
  session_cipher_get_ciphertext 3 (chain_message_keys ck) pt = Ok ct ->
  signal_message_create 3 (mac_key (chain_message_keys ck)) k (ck_index ck) pn ct
    (Some sender) (Some receiver) = Ok m ->
  decrypt_state m (g, b) = (Ok pt, (g1, session_state_clear_unacknowledged_pre_key_message s2)).
Proof.
  intros Hhas Hv Hget Hrun Hframe Hrem Hloc Hct Hm.
  pose proof (verify_mac_create _ _ _ _ _ _ _ _ _ Hm) as Hmac. apply signal_message_create_inv in Hm.
  unfold session_cipher_decrypt_from_state_and_signal_message.
  unfold bind at 1, on_snd at 1, zoom at 1, get at 1. cbn [fst snd].
  assert (message_version m = 3 /\ sm_sender_ratchet_key m = Some k /\
    msg_counter m = ck_index ck /\ msg_ciphertext m = Some ct)
    as (Em1 & Em2 & Em3 & Em4) by (rewrite Hm; done).
  rewrite Hhas, Em1, Em2, Hv. cbn [negb Z.eqb Pos.eqb require].
  unfold bind at 1, lift at 1. unfold bind at 1. rewrite Hget.
  unfold bind at 1, on_snd at 1, zoom at 1. cbn [fst snd]. rewrite Em3, Hrun.
  unfold bind, on_snd, zoom, get, lift, modify, ret. cbn [fst snd]. red in Hframe.
  assert (remote_identity_public s2 = Some sender /\ local_identity_public s2 = Some receiver)
    as [-> ->] by (rewrite Hframe; done).
  cbn [require]. rewrite Hmac, Em4. cbn [negb require].
  by rewrite (get_plaintext_ciphertext _ _ _ _ Hct).
Qed.

(** When deriving the message keys fails, so does the decryption. *)
Lemma decrypt_error m g b k ck0 g1 s1 s2 e :
  has_sender_chain b = true -> session_version b = 3 ->
  message_version m = 3 -> sm_sender_ratchet_key m = Some k ->
  session_cipher_get_or_create_chain_key k (g, b) = (Ok ck0, (g1, s1)) ->
  session_cipher_get_or_create_message_keys k ck0 (msg_counter m) s1 = (Err e, s2) ->
  decrypt_state m (g, b) = (Err e, (g1, s2)).
Proof.
  intros Hhas Hv Em1 Em2 Hget Hrun.
  unfold session_cipher_decrypt_from_state_and_signal_message.
  unfold bind at 1, on_snd at 1, zoom at 1, get at 1. cbn [fst snd].
  rewrite Hhas, Em1, Em2, Hv. cbn [negb Z.eqb Pos.eqb require].
  unfold bind at 1, lift at 1. unfold bind at 1. rewrite Hget.
  unfold bind at 1, on_snd at 1, zoom at 1. cbn [fst snd]. by rewrite Hrun.
Qed.

End decryption.

(* ------------------------------------------------------------------ *)
(** ** Steps of a conversation *)

Section steps.
Context `{CP : CryptoProvider} {CL : CryptoProviderLaws CP}.
Context `{CV : Curve25519} {CVL : Curve25519Laws CV}.
Context {MC : Codec SignalMessage} {MCL : CodecLaws SignalMessage MC SignalMessage_ok}.
Context {PC : Codec PreKeySignalMessage} {PCL : CodecLaws PreKeySignalMessage PC PreKeySignalMessage_ok}.

Abbreviation clear := session_state_clear_unacknowledged_pre_key_message.
Abbreviation decrypt_state := session_cipher_decrypt_from_state_and_signal_message.

Lemma clear_wf s : state_wf s -> state_wf (clear s).
Proof. apply state_step_wf, step_clear. Qed.

Lemma with_sender_chain_key_wf ck s :
  chain_wf ck -> has_sender_chain s = true -> state_wf s -> state_wf (with_sender_chain_key ck s).
Proof.
  intros Hck Hh Hs. pose proof (set_sender_chain_key_wf ck Hck s Hs) as H.
  unfold session_state_set_sender_chain_key in H. by rewrite Hh in H.
Qed.

Lemma sender_chain_key_wf s ck :
  state_wf s -> session_state_get_sender_chain_key s = Some ck -> chain_wf ck.
Proof.
  intros Hs Hck. destruct (wf_sender s Hs) as [_ H].
  unfold session_state_get_sender_chain_key in Hck. by rewrite Hck in H.
Qed.

Lemma paired_send a b ck :
  paired a b -> chain_wf ck -> paired (with_sender_chain_key ck a) b.
Proof. intros [] Hck. constructor; auto using with_sender_chain_key_wf. Qed.

Lemma paired_receive k a b b' :
  paired a b -> only_chain k b b' -> state_wf b' -> paired a (clear b').
Proof.
  intros [] [Hb' Hk _] Hwf. red in Hb'.
  constructor; auto using clear_wf;
    first [by change (NoDup (chain_keys b')); rewrite Hk|rewrite Hb'; auto].
Qed.

Lemma in_front_next ckb ck :
  chain_wf ckb -> in_front ckb ck -> ck_index ck + 1 < 2 ^ 32 -> in_front ckb (chain_next ck).
Proof.
  intros Hw (d & -> & Hd) Hlt. rewrite in_front_index in Hlt by done.
  exists (S d). split; [done|lia].
Qed.

Lemma ahead_send a b ck :
  state_wf b -> ahead a b -> session_state_get_sender_chain_key a = Some ck ->
  ck_index ck + 1 < 2 ^ 32 -> ahead (with_sender_chain_key (chain_next ck) a) b.
Proof.
  intros Hb (pa & pb & root & secret & ck' & Hpa & Hva & Hpb & Hvb & Hr & Hag & Hra & Hck & Hd & Hn) Ha Hlt.
  rewrite Hck in Ha. injection Ha as ->.
  exists pa, pb, root, secret, (chain_next ck). split_and!; try done.
  pose proof (wf_root b Hb) as Hrw. rewrite Hr in Hrw.
  apply in_front_next; [apply (root_step_wf root secret Hrw)|done|done].
Qed.

Lemma chain_inv_wf s k c ck :
  state_wf s -> session_state_find_receiver_chain s k = Some c -> chain_inv c ck -> chain_wf ck.
Proof.
  intros Hs Hf (Hck & _). destruct (find_receiver_chain_wf s k c Hs Hf) as (_ & H & _).
  by rewrite Hck in H.
Qed.

Lemma follows_send a b ck :
  state_wf b -> follows b a -> session_state_get_sender_chain_key a = Some ck ->
  ck_index ck + 1 < 2 ^ 32 -> follows b (with_sender_chain_key (chain_next ck) a).
Proof.
  intros Hb (kp & c & ckb & ck' & Hkp & Hv & Hck & Hd & Hf & Hi) Ha Hlt.
  rewrite Hck in Ha. injection Ha as ->. exists kp, c, ckb, (chain_next ck). split_and!; try done.
  apply in_front_next; [by eapply chain_inv_wf|done|done].
Qed.

(** Sending, whether or not the message arrives. *)
Lemma synced_send_leader a b ck :
  synced a b -> session_state_get_sender_chain_key a = Some ck -> ck_index ck + 1 < 2 ^ 32 ->
  synced (with_sender_chain_key (chain_next ck) a) b.
Proof.
  intros (Hp & Ha & Hf) Hck Hlt. pose proof (sender_chain_key_wf a ck (p_wf_a a b Hp) Hck) as Hw.
  split_and!; [by apply paired_send; auto with sigdb|apply ahead_send; [apply Hp|done..]|exact Hf].
Qed.

Lemma synced_send_follower a b ck :
  synced a b -> session_state_get_sender_chain_key b = Some ck -> ck_index ck + 1 < 2 ^ 32 ->
  synced a (with_sender_chain_key (chain_next ck) b).
Proof.
  intros (Hp & Ha & Hf) Hck Hlt. pose proof (sender_chain_key_wf b ck (p_wf_b a b Hp) Hck) as Hw.
  split_and!; [by apply paired_sym, paired_send; auto using paired_sym with sigdb|exact Ha|
    apply follows_send; [apply Hp|done..]].
Qed.

(** Receiving a message of an earlier chain does not change the lead. *)
Lemma synced_receive_old a b k b' c :
  synced a b -> pub_wf k -> session_state_find_receiver_chain b k = Some c ->
  only_chain k b b' -> state_wf b' -> synced a (clear b').
Proof.
  intros (Hp & (pa & pb & root & secret & ck & Ha) & Hf) Hk Hc Hoc Hwf.
  pose proof Hoc as [Hrec _ Hother]. red in Hrec.
  split_and!; [by eapply paired_receive|..].
  - destruct Ha as (Hpa & Hva & Hpb & Hvb & Hr & Hag & Hra & Hck & Hd & Hn).
    exists pa, pb, root, secret, ck. split_and!; try done; try (rewrite Hrec; done).
    change (session_state_find_receiver_chain b' (public_key pa) = None).
    rewrite Hother; [done|by apply valid_pair_pub_wf|]. intros E. by rewrite E, Hc in Hn.
  - destruct Hf as (kp & cx & ckb & ck' & H). exists kp, cx, ckb, ck'. rewrite Hrec. exact H.
Qed.

(** The leader receives a message of a chain it has: the sender chain of the
    other party stays in front. *)
Lemma synced_receive_known a b k a' c ckb c' ckb' :
  synced a b -> pub_wf k -> only_chain k a a' -> state_wf a' ->
  session_state_find_receiver_chain a k = Some c -> chain_inv c ckb ->
  session_state_find_receiver_chain a' k = Some c' -> chain_inv c' ckb' ->
  (forall kp ck, session_state_get_sender_ratchet_key_pair b = Some kp -> public_key kp = k ->
    session_state_get_sender_chain_key b = Some ck -> in_front ckb ck -> in_front ckb' ck) ->
  synced (clear a') b.
Proof.
  intros (Hp & Ha & (kp & cx & ckx & ck & Hkp & Hv & Hck & Hd & Hf & Hi)) Hk Hoc Hwf Hc Hci Hc' Hci' Hfront.
  pose proof Hoc as [Hrec _ Hother]. red in Hrec.
  split_and!; [by eapply paired_sym, paired_receive; [apply paired_sym|..]|..].
  - destruct Ha as (pa & pb & root & secret & ck' & H). exists pa, pb, root, secret, ck'.
    rewrite Hrec. exact H.
  - destruct (decide (public_key kp = k)) as [<-|Hne].
    + assert (ckx = ckb) as ->.
      { destruct Hi as [Hi _], Hci as [Hci _]. congruence. }
      exists kp, c', ckb', ck. split_and!; try done. by eapply Hfront.
    + exists kp, cx, ckx, ck. split_and!; try done.
      change (session_state_find_receiver_chain a' (public_key kp) = Some cx).
      by rewrite Hother by (done || by apply valid_pair_pub_wf).
Qed.

(** A chain that was just added is found. *)
Lemma find_add_receiver_chain k ck s :
  session_state_find_receiver_chain s k = None ->
  session_state_find_receiver_chain (session_state_add_receiver_chain k ck s).2 k =
  Some (mk_receiver_chain (Some k) (Some ck) []).
Proof.
  unfold session_state_find_receiver_chain. simpl. rewrite append_bounded_drop.
  intros Hn%find_first_None. set (e := (_ + 1 - _)%nat).
  assert (e <= length (receiver_chains s))%nat as He by (unfold e, MAX_RECEIVER_CHAINS; lia).
  rewrite drop_app_le by done. rewrite find_first_app.
  rewrite (proj2 (find_first_None _ _)) by (by apply Forall_drop).
  cbn [find_first]. by rewrite is_chain_of_refl.
Qed.

Lemma find_chain_ext s s' k :
  receiver_chains s' = receiver_chains s ->
  session_state_find_receiver_chain s' k = session_state_find_receiver_chain s k.
Proof. intros H. unfold session_state_find_receiver_chain. by rewrite H. Qed.

Lemma find_chain_key_None s k :
  session_state_find_receiver_chain s k = None -> session_state_get_receiver_chain_key s k = None.
Proof. intros H. unfold session_state_get_receiver_chain_key. by rewrite H. Qed.

(** A Diffie-Hellman ratchet step of the receiver: it takes the lead, has the
    chain of the sender's key, and keeps its other chains but the oldest. *)
Lemma dh_step a b gb new gb' :
  synced a b -> curve_generate_key_pair gb = (Ok new, gb') ->
  session_state_find_receiver_chain a (public_key new) = None ->
  exists pa pb root secret s1,
    session_state_get_sender_ratchet_key_pair a = Some pa /\ valid_pair pa /\
    session_state_get_sender_ratchet_key_pair b = Some pb /\ root_key b = Some root /\ root_wf root /\
    curve_calculate_agreement (Some (public_key pa)) (Some (private_key pb)) = Ok secret /\
    session_state_find_receiver_chain b (public_key pa) = None /\
    session_cipher_get_or_create_chain_key (public_key pa) (gb, b) =
      (Ok (root_step root secret).2, (gb', s1)) /\
    session_state_get_sender_ratchet_key_pair s1 = Some new /\
    local_identity_public s1 = local_identity_public b /\
    remote_identity_public s1 = remote_identity_public b /\
    session_state_find_receiver_chain s1 (public_key pa) =
      Some (mk_receiver_chain (Some (public_key pa)) (Some (root_step root secret).2) []) /\
    (forall k c, pub_wf k -> k <> public_key pa ->
      session_state_find_receiver_chain s1 k = Some c -> session_state_find_receiver_chain b k = Some c) /\
    synced s1 a.
Proof.
  intros (Hp & (pa & pb & root & secret & ck & Hpa & Hva & Hpb & Hvb & Hr & Hag & Hra & Hck & Hd & Hn)
    & (kp & c & ckb & ckx & Hkp & _ & Hckb & _)) Hg Hfresh.
  destruct (curve_generate_key_pair_valid _ _ _ Hg) as [Hvn _].
  destruct (agreement_comm new pa Hvn Hva) as (secret' & _ & Hs1 & Hs2).
  pose proof (p_wf_b a b Hp) as Hwb. pose proof (wf_root b Hwb) as Hrw. rewrite Hr in Hrw. cbn [opt_all] in Hrw.
  pose proof (get_or_create_chain_key_new b (public_key pa) root pb _ gb new gb' secret secret'
    (find_chain_key_None _ _ Hn) Hr Hrw Hpb Hckb Hag Hg Hs1) as Hrun.
  pose proof (get_or_create_chain_key_wf (public_key pa) (valid_pair_pub_wf pa Hva) (gb, b) Hwb) as Hwf.
  rewrite Hrun in Hwf. cbn [fst snd] in Hwf.
  pose proof (find_add_receiver_chain (public_key pa) (root_step root secret).2
    (session_state_set_root_key (root_step (root_step root secret).1 secret').1 b) Hn) as Hadd.
  exists pa, pb, root, secret. eexists. split_and!; try done.
  { intros k c' Hk Hne. apply (find_add_receiver_chain_ne (public_key pa) k (root_step root secret).2 b);
      [apply Hp|apply Hp|by apply valid_pair_pub_wf|done|done]. }
  split_and!.
  - apply paired_sym. destruct Hp. constructor; try done. by apply (add_receiver_chain_distinct _ _ b).
  - exists new, pa, (root_step root secret).1, secret', (root_step (root_step root secret).1 secret').2.
    split_and!; try done. by exists 0%nat.
  - eexists pa, _, _, ck. split_and!; [done|done|done|exact Hd|exact Hadd|]. by repeat constructor.
Qed.

(** The first message of a party that is one Diffie-Hellman step ahead: the
    receiver takes its own step, and the roles are exchanged. *)
Lemma deliver_leader a b gb pt out a' new gb' :
  synced a b -> encrypt_with_state pt a = (Ok out, a') -> next_counter a <= MAX_SKIP ->
  curve_generate_key_pair gb = (Ok new, gb') ->
  session_state_find_receiver_chain a (public_key new) = None ->
  exists m b', transmit out = Ok m /\ decrypt_state m (gb, b) = (Ok pt, (gb', b')) /\ synced b' a'.
Proof.
  intros Hs He Hnext Hg Hfresh. pose proof Hs as (Hp & _ & _).
  destruct (encrypt_with_state_inv _ _ _ _ (p_wf_a a b Hp) (p_version_a a b Hp) He)
    as (ck & kp' & local & remote & ct & m & Hck & Hkp' & Hl & Hre & Hct & Hm & Ht & _ & ->).
  unfold next_counter in Hnext. rewrite Hck in Hnext.
  assert (ck_index ck + 1 < 2 ^ 32) as Hlt by (unfold MAX_SKIP in *; lia).
  pose proof (synced_send_leader a b ck Hs Hck Hlt) as Hsend.
  destruct (dh_step _ b gb new gb' Hsend Hg Hfresh) as (pa & pb & root & secret & s1 & Hpa & Hva & Hpb & Hr &
    Hrw & Hag & Hn & Hrun & Hkp1 & Hl1 & Hr1 & Hf1 & _ & Hs1).
  change (session_state_get_sender_ratchet_key_pair a = Some pa) in Hpa.
  assert (kp' = pa) as -> by congruence.
  set (ck0 := (root_step root secret).2) in *.
  assert (chain_wf ck0) as Hw0 by apply (root_step_wf root secret Hrw).
  assert (in_front ck0 ck) as Hfront.
  { destruct Hs as (_ & (pa' & pb' & root' & secret' & ck' & Ha) & _). unfold ck0.
    destruct Ha as (A1 & _ & A3 & _ & A5 & A6 & _ & A8 & A9 & _).
    assert (pa' = pa /\ pb' = pb /\ root' = root /\ ck' = ck) as (-> & -> & -> & ->)
      by (split_and!; congruence).
    by assert (secret' = secret) as -> by congruence. }
  pose proof Hs1 as (Hp1 & _). pose proof (valid_pair_pub_wf pa Hva) as Hpw.
  destruct (receive_located s1 (public_key pa) _ ck0 ck Hf1) as (s2 & c' & ckb' & Hkeys & Hf' & Hi' & _ & _ & Hlater);
    [by eapply find_receiver_chain_wf; [apply Hp1|]|by repeat constructor|done|cbn; lia|by left|].
  pose proof (get_or_create_message_keys_frame (public_key pa) ck0 (ck_index ck) s1 Hpw) as Hoc.
  pose proof (get_or_create_message_keys_wf (public_key pa) ck0 (ck_index ck) Hw0 s1 (p_wf_a s1 _ Hp1)) as Hwf.
  rewrite Hkeys in Hoc, Hwf. cbn [snd] in Hoc, Hwf.
  destruct (p_local a b Hp) as (ia & Hla & Hrb), (p_remote a b Hp) as (ib & Hra' & Hlb).
  exists m, (clear s2). split_and!; [done| |].
  - eapply (decrypt_ok m gb b (public_key pa) ck0 gb' s1 s2 ck pt ct local remote); try done;
      [apply Hp|apply Hp|apply Hoc|congruence|congruence].
  - eapply (synced_receive_known s1 _ (public_key pa) s2 _ ck0 c' ckb'); try done; [by repeat constructor|].
    intros kp ckx _ _ Hckx. cbn in Hckx. injection Hckx as <-. apply Hlater. cbn.
    destruct (sender_chain_key_wf a ck (p_wf_a a b Hp) Hck) as [_ Hi]. unfold is_u32 in Hi.
    rewrite u32_id by (unfold is_u32; lia). lia.
Qed.

End steps.

(* ------------------------------------------------------------------ *)
(** ** The set-up establishes synchronisation *)

(** Two states with the same ratchet: the fields [synced] is about. *)
Definition same_ratchet (s s' : session_state) : Prop :=
  session_version s = session_version s' /\
  local_identity_public s = local_identity_public s' /\
  remote_identity_public s = remote_identity_public s' /\
  root_key s = root_key s' /\ has_sender_chain s = has_sender_chain s' /\
  sender_chain s = sender_chain s' /\ receiver_chains s = receiver_chains s'.

#[global] Instance same_ratchet_equiv : Equivalence same_ratchet.
Proof.
  split.
  - intros s. by repeat split.
  - intros s t (H1 & H2 & H3 & H4 & H5 & H6 & H7). by repeat split.
  - intros s t u (H1 & H2 & H3 & H4 & H5 & H6 & H7) (G1 & G2 & G3 & G4 & G5 & G6 & G7).
    repeat split; congruence.
Qed.

Section initial.
Context `{CP : CryptoProvider} {CL : CryptoProviderLaws CP}.
Context `{CV : Curve25519} {CVL : Curve25519Laws CV}.

Lemma synced_same_ratchet a a' b b' :
  same_ratchet a a' -> same_ratchet b b' -> state_wf a' -> state_wf b' -> synced a b -> synced a' b'.
Proof.
  intros (A1 & A2 & A3 & A4 & A5 & A6 & A7) (B1 & B2 & B3 & B4 & B5 & B6 & B7) Ha Hb
    (Hp & Hah & Hf).
  unfold synced, ahead, follows, session_state_get_sender_ratchet_key_pair,
    session_state_get_sender_chain_key, session_state_find_receiver_chain in *.
  rewrite <- A6, <- A7, <- A4, <- B6, <- B7, <- B4. split_and!; [|done|done].
  destruct Hp as [? ? (k & ? & ?) (k' & ? & ?) ? ? ? ? ? ?]. unfold chain_keys in *.
  constructor; try congruence; try done.
  - exists k. split; congruence.
  - exists k'. split; congruence.
  - unfold chain_keys. by rewrite <- A7.
  - unfold chain_keys. by rewrite <- B7.
Qed.

Lemma x3dh_synced k ga ga' a b :
  x3dh_valid k ->
  ratcheting_session_alice_initialize (alice_of k) (ga, session_state_create) = (Ok tt, (ga', a)) ->
  ratcheting_session_bob_initialize (bob_of k) session_state_create = (Ok tt, b) ->
  synced a b.
Proof.
  intros Hk (kp & secret & sending & Hg & Hsec & Hsend & Ea)%alice_initialize_inv
    (secret' & Hsec' & Eb)%bob_initialize_inv.
  destruct (master_secret_agree k Hk) as (sec & Hs1 & Hs2).
  assert (secret = sec /\ secret' = sec) as [-> ->] by (split; congruence). clear Hsec Hsec'.
  destruct (curve_generate_key_pair_valid _ _ _ Hg) as [Hvkp Hwkp].
  destruct Hk as (Hia & Hea & Hib & Hsb & Hob).
  destruct (agreement_comm kp (k_sb k) Hvkp Hsb) as (dh & _ & D1 & D2).
  destruct (derived_keys_wf sec) as [Hrw Hcw].
  rewrite (create_chain_ok _ _ _ dh Hrw D1) in Hsend.
  assert (sending = root_step (derived_keys sec).1 dh) as -> by congruence. clear Hsend.
  destruct (root_step_wf _ dh Hrw) as [Hrw' Hcw'].
  remember (root_step (derived_keys sec).1 dh) as sending eqn:Esending.
  assert (ck_index (derived_keys sec).2 + Z.of_nat 0 < 2 ^ 32) as Hidx by (cbn; lia).
  remember (derived_keys sec) as dk eqn:Edk. clear Edk.
  assert (pub_wf (public_key (k_ia k)) /\ pub_wf (public_key (k_ib k)) /\ pair_wf (k_sb k))
    as (Wia & Wib & Wsb) by (repeat split; first [by apply valid_pair_pub_wf|apply Hsb]).
  assert (is_u32 CIPHERTEXT_CURRENT_VERSION) as H by (unfold is_u32, CIPHERTEXT_CURRENT_VERSION; lia).
  assert (state_wf a) as Hwa.
  { rewrite Ea. apply (state_step_wf _ _ (step_root _ _ Hrw')).
    apply (state_step_wf _ _ (step_sender _ _ _ Hwkp Hcw')).
    apply (state_step_wf _ _ (step_local _ _ Wia)), (state_step_wf _ _ (step_remote _ _ Wib)).
    apply (state_step_wf _ _ (step_version _ _ H)).
    apply add_receiver_chain_wf; [apply Wsb|done|apply session_state_create_wf]. }
  assert (state_wf b) as Hwb.
  { rewrite Eb. apply (state_step_wf _ _ (step_root _ _ Hrw)).
    apply (state_step_wf _ _ (step_sender _ _ _ Wsb Hcw)).
    apply (state_step_wf _ _ (step_local _ _ Wib)), (state_step_wf _ _ (step_remote _ _ Wia)).
    apply (state_step_wf _ _ (step_version _ _ H)), session_state_create_wf. }
  split_and!.
  - constructor; try done; rewrite ?Ea, ?Eb; try done; try (by eexists); try (by repeat constructor).
    apply (add_receiver_chain_distinct (public_key (k_sb k)) dk.2 session_state_create); [constructor|done].
  - exists kp, (k_sb k), dk.1, dh, sending.2. rewrite <- Esending, Ea, Eb. split_and!; try done.
    exists 0%nat. split; [done|]. rewrite Esending. done.
  - exists (k_sb k), (mk_receiver_chain (Some (public_key (k_sb k))) (Some dk.2) []), dk.2, dk.2.
    rewrite Ea, Eb. split_and!; try done.
    + by exists 0%nat.
    + rewrite (find_chain_ext (session_state_add_receiver_chain (public_key (k_sb k)) dk.2
        session_state_create).2) by reflexivity.
      by apply find_add_receiver_chain.
    + by repeat constructor.
Qed.

End initial.

(* ------------------------------------------------------------------ *)
(** ** Conversations *)

Section conversation.
Context `{CP : CryptoProvider} {CL : CryptoProviderLaws CP}.
Context `{CV : Curve25519} {CVL : Curve25519Laws CV}.
Context {MC : Codec SignalMessage} {MCL : CodecLaws SignalMessage MC SignalMessage_ok}.
Context {PC : Codec PreKeySignalMessage} {PCL : CodecLaws PreKeySignalMessage PC PreKeySignalMessage_ok}.

Record party := mk_party { p_rng : rng; p_state : session_state }.

Definition conv_synced (c : party * party) : Prop :=
  synced (p_state c.1) (p_state c.2) \/ synced (p_state c.2) (p_state c.1).

Lemma conv_synced_sym x y : conv_synced (x, y) -> conv_synced (y, x).
Proof. intros [H|H]; [by right|by left]. Qed.

Lemma conv_synced_paired x y : conv_synced (x, y) -> paired (p_state x) (p_state y).
Proof. intros [(H & _)|(H & _)]; [done|by apply paired_sym]. Qed.

(** Encrypting keeps the two in step, whatever becomes of the message. *)
Lemma conv_synced_send x y ck g :
  conv_synced (x, y) -> session_state_get_sender_chain_key (p_state x) = Some ck ->
  ck_index ck + 1 < 2 ^ 32 ->
  conv_synced (mk_party g (with_sender_chain_key (chain_next ck) (p_state x)), y).
Proof.
  intros [H|H] Hck Hlt; [left; by apply synced_send_leader|right; by apply synced_send_follower].
Qed.

End conversation.
