(* ===== verification/Storable.v ===== *)
(** Storability is an invariant: the operations of the session cipher keep a
    session state in the set of states that survive being stored and loaded
    ([state_storable]), so the copies decryption works on are exact. *)

From S2P Require Import Prelude Buffers Crypto Hkdf Curve Ratchet SessionState LocalStorage.
From S2P Require Import SessionSerial Protocol RatchetSession SessionRecord Receive SessionPreKey.
From S2P Require Import Store SessionBuilder SessionCipher Conversation.

Definition root_storable (version : Z) (rk : ratchet_root_key) : Prop :=
  hkdf_create version = Ok (rk_kdf rk) /\ rk_key rk <> [].

(** [state_storable] beyond [state_wf], for a session of version [v]. *)
Record storable_at (v : Z) (s : session_state) : Prop := {
  sa_version : session_version s = v;
  sa_sender : has_sender_chain s = false -> sender_chain s = mk_sender_chain None None;
  sa_exchange : has_pending_key_exchange s = false ->
    pending_key_exchange s = mk_exchange 0 None None None;
  sa_pending : has_pending_pre_key s = false -> pending_pre_key s = empty_pending_pre_key;
  sa_root : opt_all (root_storable v) (root_key s);
  sa_sender_key : opt_all (chain_storable v) (sc_chain_key (sender_chain s));
  sa_receiver_keys : Forall (fun c => opt_all (chain_storable v) (rc_chain_key c)) (receiver_chains s)
}.

Lemma state_storable_iff s : state_storable s <-> state_wf s /\ storable_at (session_version s) s.
Proof. split; [intros []|intros [? []]]; by constructor. Qed.

Lemma session_state_create_storable : storable_at 2 session_state_create.
Proof. by constructor. Qed.

Lemma storable_at_receivers v s l :
  storable_at v s -> Forall (fun c => opt_all (chain_storable v) (rc_chain_key c)) l ->
  storable_at v (with_receiver_chains l s).
Proof. intros [] Hl. by constructor. Qed.

Lemma storable_at_clear v s :
  storable_at v s -> storable_at v (session_state_clear_unacknowledged_pre_key_message s).
Proof. intros []. by constructor. Qed.

Lemma storable_at_sender_key v ck s :
  chain_storable v ck -> has_sender_chain s = true -> storable_at v s ->
  storable_at v (with_sender_chain_key ck s).
Proof. intros Hck Hh []. constructor; try done. simpl. congruence. Qed.

Lemma storable_at_root v rk s :
  root_storable v rk -> storable_at v s -> storable_at v (session_state_set_root_key rk s).
Proof. intros Hr []. by constructor. Qed.

Lemma storable_at_previous v n s :
  storable_at v s -> storable_at v (session_state_set_previous_counter n s).
Proof. intros []. by constructor. Qed.

Lemma storable_at_sender v kp ck s :
  chain_storable v ck -> storable_at v s -> storable_at v (session_state_set_sender_chain kp ck s).
Proof. intros Hck []. by constructor. Qed.

Lemma storable_at_add v k ck :
  chain_storable v ck -> preserves (storable_at v) (session_state_add_receiver_chain k ck).
Proof.
  intros Hck s Hs. apply storable_at_receivers; [done|].
  apply Forall_append_bounded; [apply Hs|done].
Qed.

Lemma storable_at_set_keys v k keys :
  preserves (storable_at v) (session_state_set_message_keys k keys).
Proof.
  intros s Hs. unfold session_state_set_message_keys. case_match; [|done].
  apply storable_at_receivers; [done|]. apply Forall_update_first; [apply Hs|done].
Qed.

Lemma storable_at_remove_keys v k n s :
  storable_at v s -> storable_at v (session_state_remove_message_keys k n s).2.
Proof.
  intros Hs. unfold session_state_remove_message_keys. repeat case_match; try done.
  apply storable_at_receivers; [done|]. apply Forall_update_first; [apply Hs|done].
Qed.

Lemma storable_at_set_chain_key v k ck :
  chain_storable v ck -> preserves (storable_at v) (session_state_set_receiver_chain_key k ck).
Proof.
  intros Hck s Hs. unfold session_state_set_receiver_chain_key. case_match; [|done].
  apply storable_at_receivers; [done|]. apply Forall_update_first; [apply Hs|done].
Qed.

#[export] Hint Resolve storable_at_clear storable_at_sender_key storable_at_root storable_at_previous
  storable_at_sender storable_at_add storable_at_set_keys storable_at_remove_keys
  storable_at_set_chain_key : sigdb.

Section storable.
Context `{CP : CryptoProvider} {CL : CryptoProviderLaws CP}.
Context `{CV : Curve25519} {CVL : Curve25519Laws CV}.

Lemma length_nonempty {A} (l : list A) n : length l = S n -> l <> [].
Proof. by destruct l. Qed.

Lemma chain_next_storable v ck : chain_storable v ck -> chain_storable v (chain_next ck).
Proof. intros [H _]. split; [done|]. eapply length_nonempty, HMAC_length. Qed.

Lemma root_step_storable v rk secret :
  root_storable v rk ->
  root_storable v (root_step rk secret).1 /\ chain_storable v (root_step rk secret).2.
Proof.
  intros [H _]. unfold root_storable, chain_storable, root_step.
  cbn [fst snd rk_kdf rk_key ck_kdf ck_key].
  split; (split; [done|]); (eapply (length_nonempty _ 31), length_slice; rewrite length_hkdf_spec; lia).
Qed.

Lemma skip_loop_storable fuel v k n : forall ck,
  chain_storable v ck -> preserves (storable_at v) (skip_loop fuel k n ck).
Proof.
  induction fuel as [|fuel IH]; intros ck Hck; simpl; [by intros s|].
  case_match; [|auto with sigdb]. apply preserves_lift_bind. intros keys _.
  apply preserves_bind; [auto with sigdb|]. intros _. apply preserves_lift_bind.
  rewrite create_next_ok. intros next [= <-]. by apply IH, chain_next_storable.
Qed.

Lemma skip_loop_storable_value fuel v k n : forall ck s cur s', chain_storable v ck ->
  skip_loop fuel k n ck s = (Ok cur, s') -> chain_storable v cur.
Proof.
  induction fuel as [|fuel IH]; intros ck s cur s' Hck; simpl; [done|].
  case_match; [|by intros [= <- _]]. intros Hrun. inv_ok.
  match goal with H : ratchet_chain_key_create_next _ = Ok _ |- _ =>
    rewrite create_next_ok in H; injection H as <- end.
  by eapply IH, Hrun; apply chain_next_storable.
Qed.

Lemma message_keys_storable v k ck n :
  chain_storable v ck -> preserves (storable_at v) (session_cipher_get_or_create_message_keys k ck n).
Proof.
  intros Hck s Hs. unfold session_cipher_get_or_create_message_keys.
  case_match; [|case_match; [done|]].
  - pose proof (storable_at_remove_keys v k n s Hs) as Hf.
    by destruct (session_state_remove_message_keys k n s) as [[] s'].
  - pose proof (skip_loop_storable SKIP_FUEL v k n ck Hck s Hs) as Hs1.
    unfold bind at 1. destruct (skip_loop SKIP_FUEL k n ck s) as [[cur| |] s1] eqn:E; [|done|done].
    pose proof (skip_loop_storable_value _ _ _ _ _ _ _ _ Hck E) as Hcur.
    rewrite create_next_ok. unfold bind, lift.
    pose proof (storable_at_set_chain_key v k _ (chain_next_storable v cur Hcur) s1 Hs1) as Hs2.
    by destruct (session_state_set_receiver_chain_key _ _ s1) as [[] s2].
Qed.

Lemma root_storable_wf v rk : root_storable v rk -> root_wf rk.
Proof. intros [H _]. by eapply hkdf_create_wf. Qed.

(** The ratchet step keeps storability, and gives a chain that has it. *)
Lemma chain_key_storable v k g s :
  storable_at v s ->
  storable_at v (session_cipher_get_or_create_chain_key k (g, s)).2.2 /\
  (forall ck s', session_cipher_get_or_create_chain_key k (g, s) = (Ok ck, s') -> chain_storable v ck).
Proof.
  intros Hs.
  assert (forall root, root_key s = Some root -> root_storable v root) as Hroot.
  { intros root Hr. pose proof (sa_root v s Hs) as H. by rewrite Hr in H. }
  destruct (session_cipher_get_or_create_chain_key k (g, s)) as [r [g' s']] eqn:E. simpl.
  apply get_or_create_chain_key_cases in E.
  destruct E as [ck Hk|r Hne|root receiver sender sk sk' Er Hrec Hsend
    |root receiver sender sk our_new g1 prev Er Hrec Hg Hsend Hp].
  - split; [done|]. intros ck' s' [= <- _]. apply get_chain_key_find in Hk as (c & [Hin _]%find_first_Some & Hc).
    pose proof (proj1 (Forall_forall _ _) (sa_receiver_keys v s Hs) c Hin) as H. cbn beta in H. by rewrite Hc in H.
  - split; [done|]. intros ck s' [= Hr _]. by apply Hne in Hr.
  - specialize (Hroot _ Er). apply create_chain_inv in Hrec as (sec & ->); [|by eapply root_storable_wf].
    destruct (root_step_storable v root sec Hroot) as [H1 H2].
    apply create_chain_inv in Hsend as (sec' & ->); [|by eapply root_storable_wf].
    destruct (root_step_storable v _ sec' H1) as [H3 H4].
    split; [|done]. apply storable_at_add; auto with sigdb.
  - specialize (Hroot _ Er). apply create_chain_inv in Hrec as (sec & ->); [|by eapply root_storable_wf].
    destruct (root_step_storable v root sec Hroot) as [H1 H2].
    apply create_chain_inv in Hsend as (sec' & ->); [|by eapply root_storable_wf].
    destruct (root_step_storable v _ sec' H1) as [H3 H4].
    split; [|intros ck s' [= <- _]; exact H2].
    unfold dh_ratchet_state. apply storable_at_sender; [done|]. apply storable_at_previous.
    apply storable_at_add; auto with sigdb.
Qed.

Definition good (v : Z) (s : session_state) : Prop := state_wf s /\ storable_at v s.

Lemma good_storable v s : good v s -> state_storable s.
Proof. intros [Hw Hs]. apply state_storable_iff. rewrite (sa_version v s Hs). by split. Qed.

Lemma storable_good s : state_storable s -> good (session_version s) s.
Proof. by intros [? ?]%state_storable_iff. Qed.

Lemma good_clear v s :
  good v s -> good v (session_state_clear_unacknowledged_pre_key_message s).
Proof. intros [Hw Hs]. split; [by apply clear_wf|auto with sigdb]. Qed.

Context `{MC : Codec SignalMessage} `{PC : Codec PreKeySignalMessage}.

(** Decryption leaves a storable state, whatever its outcome. *)
Lemma decrypt_from_state_good v m :
  opt_all pub_wf (sm_sender_ratchet_key m) ->
  preserves (fun p : rng * session_state => good v p.2)
    (session_cipher_decrypt_from_state_and_signal_message m).
Proof.
  intros Hk [g s] [Hw Hs]. simpl in Hw, Hs.
  unfold session_cipher_decrypt_from_state_and_signal_message.
  unfold bind at 1, on_snd at 1, zoom at 1, get at 1. cbn [fst snd].
  destruct (negb (has_sender_chain s)); [done|]. destruct (negb (_ =? _)); [done|].
  unfold bind at 1, lift at 1. destruct (sm_sender_ratchet_key m) as [k|]; [|done].
  cbn [require opt_all] in *. unfold bind at 1.
  pose proof (get_or_create_chain_key_wf k Hk (g, s) Hw) as Hw1.
  destruct (chain_key_storable v k g s Hs) as [Hs1 Hck].
  pose proof (get_or_create_chain_key_value_wf k g s) as Hckw.
  destruct (session_cipher_get_or_create_chain_key k (g, s)) as [[ck| |] [g1 s1]]; [|done|done].
  cbn [fst snd] in *. unfold bind at 1, on_snd at 1, zoom at 1. cbn [fst snd].
  pose proof (get_or_create_message_keys_wf k ck (msg_counter m) (Hckw _ _ Hw eq_refl) s1 Hw1) as Hw2.
  pose proof (message_keys_storable v k ck (msg_counter m) (Hck _ _ eq_refl) s1 Hs1) as Hs2.
  destruct (session_cipher_get_or_create_message_keys k ck (msg_counter m) s1) as [[keys| |] s2];
    [|done|done]. cbn [fst snd] in *.
  unfold bind, on_snd, zoom, get, lift, modify, ret, fail. cbn [fst snd].
  repeat (case_match; try done); simplify_eq; by apply good_clear.
Qed.

(** So does encryption. *)
Lemma encrypt_with_state_good v pt : preserves (good v) (encrypt_with_state pt).
Proof.
  intros s [Hw Hs]. unfold encrypt_with_state. unfold bind at 1, get at 1.
  destruct (session_state_get_sender_chain_key s) as [ck|] eqn:Eck; [|done].
  pose proof (sender_chain_key_wf s ck Hw Eck) as Hckw.
  assert (chain_storable v ck) as Hck.
  { pose proof (sa_sender_key v s Hs) as H. unfold session_state_get_sender_chain_key in Eck.
    by rewrite Eck in H. }
  unfold bind, lift. cbn [require].
  destruct (ratchet_chain_key_get_message_keys ck); [|done|done].
  destruct (require _ (session_state_get_sender_ratchet_key s)); [|done|done].
  destruct (session_cipher_get_ciphertext _ _ _); [|done|done].
  destruct (require _ (local_identity_public s)); [|done|done].
  destruct (require _ (remote_identity_public s)); [|done|done].
  destruct (signal_message_create _ _ _ _ _ _ _ _); [|done|done].
  assert (has_sender_chain s = true -> good v (with_sender_chain_key (chain_next ck) s)) as Hfin.
  { intros Hh. split; [apply with_sender_chain_key_wf; auto with sigdb|].
    apply storable_at_sender_key; auto using chain_next_storable. }
  rewrite create_next_ok. unfold session_state_set_sender_chain_key, ret.
  destruct (has_pending_pre_key s).
  - destruct (require _ (base_key _)); [|done|done].
    destruct (pre_key_signal_message_create _ _ _ _ _ _ _); [|done|done].
    destruct (has_sender_chain s); [by apply Hfin|done].
  - destruct (has_sender_chain s); [by apply Hfin|done].
Qed.

End storable.
