(* ===== verification/SessionApi.v ===== *)
(** The session cipher as its callers see it: records with their archive, the
    store, the decryption callback.

    - which record a decryption leaves, from the current or an archived state;
    - a failed call leaves the stored sessions as they were;
    - a message encrypted through one store decrypts through the other, and the
      sessions both stores then hold are again synchronised. *)

From S2P Require Import Prelude Buffers Crypto Hkdf Curve Ratchet SessionState LocalStorage.
From S2P Require Import SessionSerial Protocol RatchetSession SessionRecord Receive SessionPreKey.
From S2P Require Import Store SessionBuilder SessionCipher Conversation Storable.

Section records.
Context `{CP : CryptoProvider} {CL : CryptoProviderLaws CP}.
Context `{CV : Curve25519} {CVL : Curve25519Laws CV}.
Context {SC : Codec SessionStructure} {SCL : CodecLaws SessionStructure SC SessionStructure_ok}.
Context `{MC : Codec SignalMessage}.

Abbreviation decrypt_state := session_cipher_decrypt_from_state_and_signal_message.
Abbreviation decrypt_record := session_cipher_decrypt_from_record_and_signal_message.

(** On a storable state an attempt is the decryption of the state itself. *)
Lemma decrypt_attempt_storable m s g :
  state_storable s ->
  decrypt_attempt m s g =
  match decrypt_state m (g, s) with
  | (Ok pt, (g', s')) => (Ok (Some (pt, s')), g')
  | (Err e, (g', _)) => (if e =? SG_ERR_INVALID_MESSAGE then Ok None else Err e, g')
  | (Stuck, (g', _)) => (Stuck, g')
  end.
Proof.
  intros Hs. unfold decrypt_attempt. rewrite (session_state_copy_id s Hs).
  unfold bind, lift, local. by destruct (decrypt_state m (g, s)) as [[] []].
Qed.

Lemma decrypt_attempt_ok m s g pt s' g' :
  state_storable s -> opt_all pub_wf (sm_sender_ratchet_key m) ->
  decrypt_attempt m s g = (Ok (Some (pt, s')), g') ->
  decrypt_state m (g, s) = (Ok pt, (g', s')) /\ state_storable s'.
Proof.
  intros Hs Hk. rewrite decrypt_attempt_storable by done.
  pose proof (decrypt_from_state_good (session_version s) m Hk (g, s) (storable_good s Hs)) as Hg.
  destruct (decrypt_state m (g, s)) as [[pt'|e|] [g1 s1]]; [|by case_match|done].
  intros [= <- <- <-]. split; [done|]. by eapply good_storable.
Qed.

Lemma decrypt_previous_ok m l : forall j g i pt s' g',
  Forall state_storable l -> opt_all pub_wf (sm_sender_ratchet_key m) ->
  decrypt_previous m j l g = (Ok (Some (i, pt, s')), g') ->
  exists n s g1, i = (j + n)%nat /\ l !! n = Some s /\
    decrypt_state m (g1, s) = (Ok pt, (g', s')) /\ state_storable s'.
Proof.
  induction l as [|s l IH]; intros j g i pt s' g' Hl Hk; simpl; [done|].
  apply Forall_cons in Hl as [Hs Hl]. unfold bind.
  destruct (decrypt_attempt m s g) as [[[[pt1 s1]|]| |] g1] eqn:E; [| |done|done].
  - intros [= <- <- <- <-]. apply decrypt_attempt_ok in E as [E Hs']; [|done|done].
    exists 0%nat, s, g. split_and!; [lia|done|done|done].
  - intros (n & t & g2 & -> & Hn & Hd & Ht)%IH; [|done|done].
    exists (S n), t, g2. split_and!; [lia|done|done|done].
Qed.

(** The current state decrypts: it is replaced by the advanced copy. *)
Lemma decrypt_record_current m g r s pt g' s' :
  rec_state r = Some s -> state_storable s -> decrypt_state m (g, s) = (Ok pt, (g', s')) ->
  decrypt_record m (g, r) = (Ok pt, (g', session_record_set_state s' r)).
Proof.
  intros Hr Hs Hd. unfold session_cipher_decrypt_from_record_and_signal_message.
  unfold bind, on_snd, on_fst, zoom, get, modify, ret, session_record_get_state. cbn [fst snd].
  rewrite Hr. rewrite decrypt_attempt_storable by done. cbn [fst snd]. by rewrite Hd.
Qed.

(** The record a decryption leaves: unchanged when it fails; otherwise with the
    state that decrypted as its current one, and when that was an archived
    state, with the former current state at the head of the archive. *)
Inductive decrypted (m : signal_message) (r : session_record) (pt : bytes) : session_record -> Prop :=
| decrypted_current s g g' s' :
    rec_state r = Some s -> decrypt_state m (g, s) = (Ok pt, (g', s')) ->
    decrypted m r pt (session_record_set_state s' r)
| decrypted_archived c i s g g' s' :
    rec_state r = Some c -> previous_states r !! i = Some s ->
    decrypt_state m (g, s) = (Ok pt, (g', s')) ->
    decrypted m r pt (mk_record (Some s')
      (take ARCHIVED_STATES_MAX_LENGTH (c :: delete i (previous_states r))) (is_fresh r) (user_record r)).

Lemma decrypt_record_cases m g r :
  record_storable r -> opt_all pub_wf (sm_sender_ratchet_key m) ->
  match decrypt_record m (g, r) with
  | (Ok pt, (g', r')) => decrypted m r pt r' /\ record_storable r'
  | (_, (g', r')) => r' = r
  end.
Proof.
  intros Hr Hk. pose proof Hr as [(c & Hc & Hcs) Hp Hlen].
  unfold session_cipher_decrypt_from_record_and_signal_message, session_record_get_state.
  unfold bind, on_snd, on_fst, zoom, get, modify, ret, fail. cbn [fst snd]. rewrite Hc.
  cbn [fst snd].
  destruct (decrypt_attempt m c g) as [[[[pt s']|]| |] g1] eqn:E; [| |done|done].
  - apply decrypt_attempt_ok in E as [E Hs']; [|done|done]. split; [by econstructor|].
    by apply record_set_state_wf.
  - cbn [fst snd].
    destruct (decrypt_previous m 0 (previous_states r) g1) as [[[[[i pt] s']|]| |] g2] eqn:E2;
      [|done..].
    apply decrypt_previous_ok in E2 as (n & s & g3 & -> & Hn & Hd & Hs'); [|done|done].
    cbn [fst snd]. split; [|by apply record_promote_wf, record_remove_wf].
    unfold session_record_promote_state. cbn [rec_state session_record_get_previous_states_remove
      previous_states is_fresh user_record]. rewrite Hc, trim_archive_take.
    by eapply decrypted_archived.
Qed.

End records.

(* ------------------------------------------------------------------ *)
(** ** Failed calls *)

Section atomicity.
Context `{CP : CryptoProvider} {ST : SignalStore} {SV : StoreContent ST} {FL : FallibleStoreLaws ST SV}.
Context {B : Type} (obs : store_view -> B).

(** What is observed of the store of a world. *)
Definition observed (w : world) : B := obs (view (w_store w)).

Lemma keeps_rng {A} (m : M rng A) : keeps observed (in_rng m).
Proof. intros w. unfold in_rng, zoom. by destruct (m (w_rng w)). Qed.

Lemma keeps_store {A} (m : M store_data A) :
  (forall s, obs (view (m s).2) = obs (view s)) -> keeps observed (in_store m).
Proof.
  intros H w. unfold in_store, zoom, observed. specialize (H (w_store w)).
  by destruct (m (w_store w)).
Qed.

Lemma keeps_refines {A} (m : M store_data A) f :
  may_refine view m f -> (forall v, obs (f v).2 = obs v) -> keeps observed (in_store m).
Proof.
  intros Hm Hf. apply keeps_store. intros s.
  destruct (Hm s) as [(s' & -> & Hv)|(e & s' & -> & Hv)]; cbn [snd]; by rewrite Hv, ?Hf.
Qed.

Context `{RC : Codec RecordStructure}.

Lemma keeps_load a : keeps observed (in_store (signal_protocol_session_load_session a)).
Proof. apply keeps_store. intros s. by rewrite load_session_view. Qed.

Lemma keeps_contains a : keeps observed (in_store (signal_protocol_session_contains_session a)).
Proof. by eapply keeps_refines; [apply contains_session_may|]. Qed.

(** Storing only fails before anything is written. *)
Lemma store_session_failure a r :
  keeps_on_failure observed (in_store (signal_protocol_session_store_session a r)).
Proof.
  intros w. unfold in_store, zoom, signal_protocol_session_store_session, bind, lift, observed.
  destruct (session_record_serialize (Some r)) as [data| |]; [|done|done].
  destruct (store_session_may a data (user_record r) (w_store w)) as [(s' & -> & _)|(e & s' & -> & Hv)]; cbn.
  - intros H. by destruct (H 0).
  - intros _. by rewrite Hv.
Qed.

(** A callback that leaves the observation alone. *)
Definition harmless (callback : option (bytes -> M world Z)) : Prop :=
  match callback with Some f => forall pt, keeps observed (f pt) | None => True end.

Lemma keeps_callback callback pt :
  harmless callback -> keeps observed (session_cipher_decrypt_callback callback pt).
Proof.
  intros H. destruct callback as [f|]; [|by intros w]. intros w. simpl.
  specialize (H pt (set_inside true w)). by destruct (f pt (set_inside true w)).
Qed.

End atomicity.

#[export] Hint Resolve keeps_rng keeps_load keeps_contains keeps_callback : sigdb.

Section api.
Context `{CP : CryptoProvider} `{CV : Curve25519}.
Context {ST : SignalStore} {SV : StoreContent ST} {FL : FallibleStoreLaws ST SV}.
Context `{SC : Codec SessionStructure} `{RC : Codec RecordStructure}.
Context `{PK : Codec PreKeyRecordStructure} `{SPK : Codec SignedPreKeyRecordStructure}.
Context `{MC : Codec SignalMessage} `{PC : Codec PreKeySignalMessage}.

(** The last two actions of the three API functions. *)
Lemma store_and_return {B} (obs : store_view -> B) {A} a r (x : A) :
  keeps_on_failure (observed obs) (bind (in_store (signal_protocol_session_store_session a r)) (fun _ => ret x)).
Proof. apply keeps_then_total; [apply store_session_failure|]. intros. by eexists. Qed.

Lemma encrypt_failure a pt :
  keeps_on_failure (observed (fun v => v)) (session_cipher_encrypt a pt).
Proof.
  apply keeps_get_failure. intros w0. destruct (inside_callback w0); [auto with sigdb|].
  apply keeps_bind_failure; [auto with sigdb|]. intros record.
  apply keeps_bind_failure; [auto with sigdb|]. intros state.
  destruct (encrypt_with_state pt state) as [out state'].
  apply keeps_bind_failure; [auto with sigdb|]. intros message. apply store_and_return.
Qed.

Lemma decrypt_failure a callback m :
  harmless (fun v => v) callback ->
  keeps_on_failure (observed (fun v => v)) (session_cipher_decrypt_signal_message a callback m).
Proof.
  intros Hc. apply keeps_get_failure. intros w0. destruct (inside_callback w0); [auto with sigdb|].
  apply keeps_bind_failure; [auto with sigdb|]. intros contained.
  destruct (contained =? 0); [auto with sigdb|].
  apply keeps_bind_failure; [auto with sigdb|]. intros record.
  apply keeps_bind_failure; [auto with sigdb|]. intros [pt record'].
  apply keeps_bind_failure; [auto with sigdb|]. intros _. apply store_and_return.
Qed.

End api.

(* ------------------------------------------------------------------ *)
(** ** Failed pre-key messages

    The identity of the sender is saved before the message is decrypted, so a
    failing call may leave it behind.  The session is stored before the one-time
    pre-key is removed, so when the removal is what fails, the session stays. *)

Definition sessions_and_keys (v : store_view) := (v_sessions v, v_pre_keys v, v_signed_pre_keys v).

Definition with_session (a : signal_protocol_address) (x : bytes * option bytes)
    (o : gmap signal_protocol_address (bytes * option bytes) * gmap Z bytes * gmap Z bytes) :=
  (<[a := x]> o.1.1, o.1.2, o.2).

Lemma preserves_fst_on_fst {S T A} (I : S -> Prop) (m : M S A) :
  preserves I m -> preserves (fun p : S * T => I p.1) (on_fst m).
Proof.
  intros Hm [s t] Hs. unfold on_fst, zoom. specialize (Hm s Hs). simpl in *. by destruct (m s).
Qed.

Lemma preserves_fst_on_snd {S T A} (I : S -> Prop) (m : M T A) :
  preserves (fun p : S * T => I p.1) (on_snd m).
Proof. intros [s t] Hs. unfold on_snd, zoom. simpl in *. by destruct (m t). Qed.

Section pre_key_atomicity.
Context `{CP : CryptoProvider} {CL : CryptoProviderLaws CP} `{CV : Curve25519}.
Context {ST : SignalStore} {SV : StoreContent ST} {FL : FallibleStoreLaws ST SV}.
Context `{SC : Codec SessionStructure} `{RC : Codec RecordStructure}.
Context `{PK : Codec PreKeyRecordStructure} `{SPK : Codec SignedPreKeyRecordStructure}.
Context `{MC : Codec SignalMessage} `{PC : Codec PreKeySignalMessage}.

Abbreviation same o := (fun s : store_data => sessions_and_keys (view s) = o).

Lemma refines_same {A} o (m : M store_data A) f :
  may_refine view m f -> (forall v, sessions_and_keys (f v).2 = sessions_and_keys v) ->
  preserves (same o) m.
Proof.
  intros Hm Hf s Hs. destruct (Hm s) as [(s' & -> & Hv)|(e & s' & -> & Hv)]; cbn [snd]; by rewrite Hv, ?Hf.
Qed.

Lemma load_signed_same o id : preserves (same o) (signal_protocol_signed_pre_key_load_key id).
Proof.
  apply preserves_bind; [|auto with sigdb]. eapply refines_same; [apply load_signed_pre_key_may|].
  intros v. unfold view_load. by case_match.
Qed.

Lemma load_pre_key_same o id : preserves (same o) (signal_protocol_pre_key_load_key id).
Proof.
  apply preserves_bind; [|auto with sigdb]. eapply refines_same; [apply load_pre_key_may|].
  intros v. unfold view_load. by case_match.
Qed.

Lemma identity_same o : preserves (same o) signal_protocol_identity_get_key_pair.
Proof.
  apply preserves_bind; [by eapply refines_same; [apply get_identity_may|]|].
  intros [pub priv]. auto 10 with sigdb.
Qed.

Lemma registration_id_same o :
  preserves (same o) signal_protocol_identity_get_local_registration_id.
Proof. by eapply refines_same; [apply registration_id_may|]. Qed.

Lemma save_identity_same o a k : preserves (same o) (signal_protocol_identity_save_identity a k).
Proof.
  unfold signal_protocol_identity_save_identity. destruct k; [apply preserves_bind; [auto with sigdb|intros b]|];
    by eapply refines_same; [apply save_identity_may|].
Qed.

Lemma process_v3_same o m :
  preserves (fun p : store_data * session_record => same o p.1)
    (session_builder_process_pre_key_signal_message_v3 m).
Proof.
  unfold session_builder_process_pre_key_signal_message_v3.
  repeat first
    [ apply (preserves_fst_on_snd (same o)) | apply preserves_ret | apply preserves_lift
    | apply (preserves_fst_on_fst (same o)), load_signed_same
    | apply (preserves_fst_on_fst (same o)), load_pre_key_same
    | apply (preserves_fst_on_fst (same o)), identity_same
    | apply (preserves_fst_on_fst (same o)), registration_id_same
    | apply preserves_bind; [|intros ?] | case_match ].
Qed.

Lemma process_same o a m :
  preserves (fun p : store_data * session_record => same o p.1)
    (session_builder_process_pre_key_signal_message a m).
Proof.
  unfold session_builder_process_pre_key_signal_message.
  apply preserves_bind.
  { apply (preserves_fst_on_fst (same o)). apply preserves_bind; [auto with sigdb|]. intros b.
    by eapply refines_same; [apply is_trusted_may|]. }
  intros trusted. destruct (trusted =? 0); [apply preserves_fail|].
  apply preserves_bind; [apply process_v3_same|]. intros id.
  apply preserves_bind; [apply (preserves_fst_on_fst (same o)), save_identity_same|].
  intros _. apply preserves_ret.
Qed.

(** The pre-key that is to be removed is the one of the message. *)
Lemma process_used_pre_key a m p id p' :
  session_builder_process_pre_key_signal_message a m p = (Ok (Some id), p') ->
  pkm_has_pre_key_id m = true /\ id = pkm_pre_key_id m /\ id <> PRE_KEY_MEDIUM_MAX_VALUE.
Proof.
  unfold session_builder_process_pre_key_signal_message. intros H.
  apply bind_ok in H as (trusted & p1 & _ & H). destruct (trusted =? 0); [done|].
  apply bind_ok in H as (id' & p2 & Hv3 & H). apply bind_ok in H as (z & p3 & _ & H).
  injection H as -> _. revert Hv3. unfold session_builder_process_pre_key_signal_message_v3. intros H.
  apply bind_ok in H as (record & q1 & _ & H). apply bind_ok in H as (has & q2 & _ & H).
  destruct has; [done|]. do 11 (apply bind_ok in H as (? & ? & _ & H)).
  destruct (pkm_has_pre_key_id m); [|done]. cbn [andb] in H.
  destruct (Z.eqb_spec (pkm_pre_key_id m) PRE_KEY_MEDIUM_MAX_VALUE); [done|]. by injection H as <- _.
Qed.

(** How the last two actions fail: storing changes nothing; once the session is
    stored, only the removal of the pre-key is left. *)
Lemma store_and_remove_failure a r id (pt : bytes) w res w' :
  bind (in_store (signal_protocol_session_store_session a r)) (fun _ =>
    match id with
    | Some i => bind (in_store (signal_protocol_pre_key_remove_key i)) (fun _ => ret pt)
    | None => ret pt
    end) w = (res, w') ->
  (forall pt, res <> Ok pt) ->
  view (w_store w') = view (w_store w) \/
  exists i st e data,
    id = Some i /\ remove_pre_key i st = (Err e, w_store w') /\ res = Err e /\
    view (w_store w') =
      set_sessions (<[a := (data, user_record r)]> (v_sessions (view (w_store w)))) (view (w_store w)).
Proof.
  intros H Hfail. unfold bind at 1 in H.
  pose proof (store_session_failure (fun v => v) a r w) as Hs. unfold observed in Hs.
  unfold in_store, zoom, signal_protocol_session_store_session in H, Hs. unfold bind, lift in H, Hs.
  destruct (session_record_serialize (Some r)) as [data|e|]; [|by injection H as _ <-; left..].
  destruct (store_session_may a data (user_record r) (w_store w)) as [(s1 & E1 & V1)|(e & s1 & E1 & V1)];
    rewrite E1 in H; cbn [fst snd] in H; [|injection H as _ <-; by left].
  cbn in H. destruct id as [i|]; [|injection H as <- _; by destruct (Hfail pt)].
  unfold signal_protocol_pre_key_remove_key in H. cbn [w_store] in H.
  destruct (remove_pre_key_may i s1) as [(s2 & E2 & V2)|(e & s2 & E2 & V2)]; rewrite E2 in H; cbn in H;
    injection H as <- <-; [by destruct (Hfail pt)|].
  right. exists i, s1, e, data. cbn [w_store]. split_and!; [done|done|done|]. by rewrite V2, V1.
Qed.

Lemma pre_key_decrypt_failure a callback m w res w' :
  harmless sessions_and_keys callback ->
  session_cipher_decrypt_pre_key_signal_message a callback m w = (res, w') ->
  (forall pt, res <> Ok pt) ->
  sessions_and_keys (view (w_store w')) = sessions_and_keys (view (w_store w)) \/
  exists st e data u,
    pkm_has_pre_key_id m = true /\ pkm_pre_key_id m <> PRE_KEY_MEDIUM_MAX_VALUE /\
    remove_pre_key (pkm_pre_key_id m) st = (Err e, w_store w') /\ res = Err e /\
    sessions_and_keys (view (w_store w')) = with_session a (data, u) (sessions_and_keys (view (w_store w))).
Proof.
  intros Hc H Hfail. unfold session_cipher_decrypt_pre_key_signal_message in H.
  unfold bind at 1, get at 1 in H. destruct (inside_callback w); [injection H as _ <-; by left|].
  set (obs := observed sessions_and_keys). assert (forall w, sessions_and_keys (view (w_store w)) = obs w) as Eobs by done.
  rewrite !Eobs.
  apply (keeps_bind_inv obs) in H as [H|(r0 & w1 & <- & _ & H)]; [by left| |by apply keeps_load|done].
  apply (keeps_bind_inv obs) in H as [H|([id r1] & w2 & <- & Hid & H)]; [by left| | |done].
  2: { apply keeps_store. intros s.
       pose proof (process_same (sessions_and_keys (view s)) a m (s, r0) eq_refl) as Hsame.
       unfold local. by destruct (session_builder_process_pre_key_signal_message a m (s, r0)) as [[] []]. }
  apply (keeps_bind_inv obs) in H as [H|(inner & w3 & <- & _ & H)]; [by left| |by apply keeps_lift|done].
  apply (keeps_bind_inv obs) in H as [H|([pt r2] & w4 & <- & _ & H)]; [by left| |by apply keeps_rng|done].
  apply (keeps_bind_inv obs) in H as [H|(u & w5 & <- & _ & H)]; [by left| |by apply keeps_callback|done].
  apply store_and_remove_failure in H as [H|(i & st & e & data & -> & Hrem & -> & H)]; [|right|done].
  { left. unfold obs, observed. by rewrite H. }
  assert (exists p p', session_builder_process_pre_key_signal_message a m p = (Ok (Some i), p'))
    as (p & p' & Hp).
  { exists (w_store w1, r0). revert Hid. unfold in_store, zoom, local.
    destruct (session_builder_process_pre_key_signal_message a m (w_store w1, r0)) as [[id|e'|] [st' r']];
      cbn; [intros [= -> _ _]; by eexists|done|done]. }
  destruct (process_used_pre_key _ _ _ _ _ Hp) as (H1 & -> & H2).
  exists st, e, data, (user_record r2). split_and!; [done..|]. unfold obs, observed. by rewrite H.
Qed.

End pre_key_atomicity.

(* ------------------------------------------------------------------ *)
(** ** From one store to the other *)

Section end_to_end.
Context `{CP : CryptoProvider} {CL : CryptoProviderLaws CP}.
Context `{CV : Curve25519} {CVL : Curve25519Laws CV}.
Context {ST : SignalStore} {SL : SignalStoreLaws ST}.
Context {SC : Codec SessionStructure} {SCL : CodecLaws SessionStructure SC SessionStructure_ok}.
Context {RC : Codec RecordStructure} {RCL : CodecLaws RecordStructure RC RecordStructure_ok}.
Context {MC : Codec SignalMessage} {MCL : CodecLaws SignalMessage MC SignalMessage_ok}.
Context {PC : Codec PreKeySignalMessage} {PCL : CodecLaws PreKeySignalMessage PC PreKeySignalMessage_ok}.

(** The store of a world holds [r] as the session of [a]. *)
Definition holds (w : world) (a : signal_protocol_address) (r : session_record) : Prop :=
  is_fresh r = false /\ record_storable r /\
  exists data, v_sessions (view (w_store w)) !! a = Some (data, user_record r) /\
    session_record_deserialize data = Ok (mk_record (rec_state r) (previous_states r) false None).

Lemma load_held w a r : holds w a r ->
  exists s', signal_protocol_session_load_session a (w_store w) = (Ok r, s') /\
    view s' = view (w_store w).
Proof.
  intros (Hf & _ & data & Hl & Hd). destruct (load_session_spec a (w_store w)) as (s' & E & Hv).
  unfold view_load_session in *. rewrite Hl in E, Hv. exists s'. split; [|done].
  unfold signal_protocol_session_load_session. rewrite (bind_run _ _ _ _ _ E).
  cbn [Z.eqb Pos.eqb]. unfold bind, lift. rewrite Hd. destruct r as [st prev fr ur].
  simpl in *. subst. by destruct ur.
Qed.

Lemma contains_held w a r : holds w a r ->
  exists s', signal_protocol_session_contains_session a (w_store w) = (Ok 1, s') /\
    view s' = view (w_store w).
Proof.
  intros (_ & _ & data & Hl & _). destruct (contains_session_spec a (w_store w)) as (s' & E & Hv).
  unfold view_contains_session in *. simpl in *. rewrite Hl in E. eauto.
Qed.

(** A stored record is held; it is no longer fresh. *)
Lemma store_held s a r : record_storable r ->
  exists s', signal_protocol_session_store_session a r s = (Ok 0, s') /\
    (exists m, view s' = set_sessions m (view s)) /\
    forall g b, holds (mk_world g s' b) a
      (mk_record (rec_state r) (previous_states r) false (user_record r)).
Proof.
  intros Hr. destruct (session_record_store_load r Hr) as (data & E & D).
  destruct (store_session_spec a data (user_record r) s) as (s' & Es & Hv).
  exists s'. unfold signal_protocol_session_store_session, bind, lift. rewrite E.
  split_and!; [exact Es|eexists; exact Hv|]. intros g b. split_and!; [done|destruct Hr; by split|].
  exists data. split; [|done]. cbn [w_store user_record]. rewrite Hv. apply lookup_insert_eq.
Qed.

Lemma holds_view w w' a r :
  view (w_store w') = view (w_store w) -> holds w a r -> holds w' a r.
Proof. unfold holds. by intros ->. Qed.

(** Encrypting for [a] through a store. *)
Lemma encrypt_held w a r s pt out s' :
  holds w a r -> rec_state r = Some s -> inside_callback w = false ->
  encrypt_with_state pt s = (Ok out, s') ->
  exists w', session_cipher_encrypt a pt w = (Ok out, w') /\
    w_rng w' = w_rng w /\ inside_callback w' = false /\
    holds w' a (session_record_set_state s' r).
Proof.
  intros Hh Hr Hin He. pose proof Hh as (Hf & Hst & _).
  destruct (load_held w a r Hh) as (s1 & El & Hv1).
  assert (state_storable s') as Hs'.
  { destruct Hst as [(c & Hc & Hcs) _ _]. rewrite Hr in Hc. injection Hc as <-.
    pose proof (encrypt_with_state_good (session_version s) pt s (storable_good s Hcs)) as H.
    rewrite He in H. by eapply good_storable. }
  destruct (store_held s1 a (session_record_set_state s' r)) as (s2 & Es & _ & Hh2);
    [by apply record_set_state_wf|]. cbn [session_record_set_state rec_state previous_states user_record] in Hh2.
  unfold session_cipher_encrypt. unfold bind, get, in_store, zoom, lift, ret. rewrite Hin, El.
  unfold session_record_get_state. rewrite Hr. cbn [require]. rewrite He. cbn [w_store w_rng].
  rewrite Es. eexists. split; [done|]. cbn [w_rng inside_callback]. split_and!; [done|done|].
  unfold session_record_set_state. rewrite Hf. apply Hh2.
Qed.

(** Decrypting a message of [a] through a store, without a callback. *)
Lemma decrypt_held w a r s m pt g' s' :
  holds w a r -> rec_state r = Some s -> inside_callback w = false ->
  opt_all pub_wf (sm_sender_ratchet_key m) ->
  session_cipher_decrypt_from_state_and_signal_message m (w_rng w, s) = (Ok pt, (g', s')) ->
  exists w', session_cipher_decrypt_signal_message a None m w = (Ok pt, w') /\
    w_rng w' = g' /\ inside_callback w' = false /\
    holds w' a (session_record_set_state s' r).
Proof.
  intros Hh Hr Hin Hk Hd. pose proof Hh as (Hf & Hst & _).
  destruct (contains_held w a r Hh) as (s0 & Ec & Hv0).
  destruct (load_held (mk_world (w_rng w) s0 (inside_callback w)) a r) as (s1 & El & Hv1);
    [by apply (holds_view w)|]. cbn [w_store] in El.
  assert (state_storable s) as Hs.
  { destruct Hst as [(c & Hc & Hcs) _ _]. congruence. }
  assert (state_storable s') as Hs'.
  { pose proof (decrypt_from_state_good (session_version s) m Hk (w_rng w, s) (storable_good s Hs)) as H.
    rewrite Hd in H. by eapply good_storable. }
  destruct (store_held s1 a (session_record_set_state s' r)) as (s2 & Es & _ & Hh2);
    [by apply record_set_state_wf|]. cbn [session_record_set_state rec_state previous_states user_record] in Hh2.
  unfold session_cipher_decrypt_signal_message.
  unfold bind, get, in_store, in_rng, zoom, lift, ret. rewrite Hin, Ec.
  cbn [Z.eqb Pos.eqb w_store w_rng inside_callback]. rewrite El. cbn [w_store w_rng inside_callback].
  unfold local. rewrite (decrypt_record_current m (w_rng w) r s pt g' s' Hr Hs Hd).
  cbn [rmap rbind session_cipher_decrypt_callback]. unfold ret. cbn [w_store w_rng inside_callback].
  rewrite Es. eexists. split; [done|]. cbn [w_rng inside_callback]. split_and!; [done|done|].
  unfold session_record_set_state. rewrite Hf. apply Hh2.
Qed.

(** What a delivered message carries has a key of the right length. *)
Lemma transmit_key_wf pt s out s' m :
  state_wf s -> session_version s = CIPHERTEXT_CURRENT_VERSION ->
  encrypt_with_state pt s = (Ok out, s') -> transmit out = Ok m ->
  opt_all pub_wf (sm_sender_ratchet_key m).
Proof.
  intros Hw Hv He Ht. destruct (encrypt_with_state_inv _ _ _ _ Hw Hv He)
    as (ck & kp & local & remote & ct & m' & _ & Hkp & _ & _ & _ & Hm & Ht' & _ & _).
  rewrite Ht in Ht'. injection Ht' as <-. apply signal_message_create_inv in Hm as ->.
  destruct (wf_sender s Hw) as [H _]. unfold session_state_get_sender_ratchet_key_pair in Hkp.
  rewrite Hkp in H. apply H.
Qed.

End end_to_end.
