(* ===== verification/FirstContact.v ===== *)
(** First contact: Alice processes the bundle Bob published, encrypts, and Bob
    decrypts the pre-key message, from an empty session on both sides.

    [published] and [owns] describe what the two stores hold beforehand; the
    lemmas run [session_builder_process_pre_key_bundle] and
    [session_builder_process_pre_key_signal_message] step by step and connect
    them to the set-up of [RatchetSession] and to [synced]. *)

From S2P Require Import Prelude Buffers Crypto Hkdf Curve Ratchet SessionState LocalStorage.
From S2P Require Import SessionSerial Protocol RatchetSession SessionRecord Receive SessionPreKey.
From S2P Require Import Store SessionBuilder SessionCipher Conversation Storable SessionApi.

Section contact.
Context `{CP : CryptoProvider} {CL : CryptoProviderLaws CP}.
Context `{CV : Curve25519} {CVL : Curve25519Laws CV}.
Context {ST : SignalStore} {SL : SignalStoreLaws ST}.
Context {SC : Codec SessionStructure} {SCL : CodecLaws SessionStructure SC SessionStructure_ok}.
Context {RC : Codec RecordStructure} {RCL : CodecLaws RecordStructure RC RecordStructure_ok}.
Context {MC : Codec SignalMessage} {MCL : CodecLaws SignalMessage MC SignalMessage_ok}.
Context {PC : Codec PreKeySignalMessage} {PCL : CodecLaws PreKeySignalMessage PC PreKeySignalMessage_ok}.
Context {PK : Codec PreKeyRecordStructure} {SPK : Codec SignedPreKeyRecordStructure}.

(** The serialized form of a public key. *)
Definition ser (k : ec_public_key) : bytes := DJB_TYPE :: take DJB_KEY_LEN (pub_data k).

(** A store whose identity key pair is [p], with registration id [reg]. *)
Definition owns (v : store_view) (p : ec_key_pair) (reg : Z) : Prop :=
  v_identity v = (ser (public_key p), take DJB_KEY_LEN (priv_data (private_key p))) /\
  v_registration_id v = reg /\ is_u32 reg.

(** A store that holds the signed pre-key [sb] under [sid], and the one-time
    pre-key [ob], if any, under [id]. *)
Definition published (v : store_view) (sb : ec_key_pair) (sid : Z) (ob : option ec_key_pair) (id : Z)
    : Prop :=
  (exists data k, v_signed_pre_keys v !! sid = Some data /\
    session_signed_pre_key_deserialize data = Ok k /\ spk_key_pair k = sb) /\
  match ob with
  | Some p => exists data k, v_pre_keys v !! id = Some data /\
      session_pre_key_deserialize data = Ok k /\ pk_key_pair k = p
  | None => True
  end.

(** Nothing stored for a contact yet. *)
Definition unknown (v : store_view) (a : signal_protocol_address) : Prop :=
  v_sessions v !! a = None /\ v_trusted v !! a = None.

(** The bundle of the keys [k] of Bob. *)
Definition bundle_of (k : x3dh_keys) (reg dev id sid : Z) (signature : bytes) : session_pre_key_bundle :=
  mk_bundle reg dev id (public_key <$> k_ob k) sid (Some (public_key (k_sb k))) (Some signature)
    (Some (public_key (k_ib k))).

(* ------------------------------------------------------------------ *)
(** ** The store operations involved *)

Lemma get_key_pair_owned s p reg :
  owns (view s) p reg -> valid_pair p ->
  exists s', signal_protocol_identity_get_key_pair s = (Ok (identity_of p), s') /\ view s' = view s.
Proof.
  intros (Hi & _ & _) Hp. destruct (get_identity_spec s) as (s' & E & Hv). simpl in E, Hv.
  exists s'. split; [|done]. unfold signal_protocol_identity_get_key_pair.
  rewrite (bind_run _ _ _ _ _ E). rewrite Hi. cbn [fst snd]. unfold bind, lift. cbn [deref].
  pose proof (curve_decode_serialize (public_key p) (valid_pair_pub_wf p Hp)) as H1.
  pose proof (curve_decode_private_serialize (private_key p) (proj1 Hp)) as H2.
  unfold ec_public_key_serialize_protobuf, ec_private_key_serialize_protobuf in *.
  cbn [rbind] in H1, H2. unfold ser. rewrite H1, H2. done.
Qed.

Lemma registration_id_owned s p reg :
  owns (view s) p reg ->
  exists s', signal_protocol_identity_get_local_registration_id s = (Ok reg, s') /\ view s' = view s.
Proof.
  intros (_ & Hr & _). destruct (registration_id_spec s) as (s' & E & Hv). simpl in E, Hv.
  exists s'. split; [|done]. unfold signal_protocol_identity_get_local_registration_id.
  by rewrite E, Hr.
Qed.

Lemma is_trusted_unknown s a k :
  unknown (view s) a ->
  exists s', signal_protocol_identity_is_trusted_identity a (Some k) s = (Ok 1, s') /\ view s' = view s.
Proof.
  intros [_ Ht]. destruct (is_trusted_spec a (ser k) s) as (s' & E & Hv).
  unfold view_is_trusted in *. simpl in E, Hv. rewrite Ht in E. exists s'. split; [|done]. exact E.
Qed.

Lemma save_identity_run s a k :
  exists s', signal_protocol_identity_save_identity a (Some k) s = (Ok 0, s') /\
    view s' = set_trusted (<[a := ser k]> (v_trusted (view s))) (view s).
Proof.
  destruct (save_identity_spec a (Some (ser k)) s) as (s' & E & Hv). simpl in E, Hv. eauto.
Qed.

Lemma load_signed_published s sb sid ob id :
  published (view s) sb sid ob id ->
  exists k s', signal_protocol_signed_pre_key_load_key sid s = (Ok k, s') /\
    spk_key_pair k = sb /\ view s' = view s.
Proof.
  intros [(data & k & Hl & Hd & Hk) _].
  destruct (load_signed_pre_key_spec sid s) as (s' & E & Hv). unfold view_load in *.
  rewrite Hl in E, Hv. simpl in E, Hv. exists k, s'. split_and!; [|done|done].
  unfold signal_protocol_signed_pre_key_load_key. rewrite (bind_run _ _ _ _ _ E).
  unfold bind, lift. cbn [deref]. by rewrite Hd.
Qed.

Lemma load_pre_key_published s sb sid p id :
  published (view s) sb sid (Some p) id ->
  exists k s', signal_protocol_pre_key_load_key id s = (Ok k, s') /\
    pk_key_pair k = p /\ view s' = view s.
Proof.
  intros [_ (data & k & Hl & Hd & Hk)].
  destruct (load_pre_key_spec id s) as (s' & E & Hv). unfold view_load in *.
  rewrite Hl in E, Hv. simpl in E, Hv. exists k, s'. split_and!; [|done|done].
  unfold signal_protocol_pre_key_load_key. rewrite (bind_run _ _ _ _ _ E).
  unfold bind, lift. cbn [deref]. by rewrite Hd.
Qed.

(* ------------------------------------------------------------------ *)
(** ** The states the set-up leaves *)

Lemma derived_keys_storable sec :
  root_storable 3 (derived_keys sec).1 /\ chain_storable 3 (derived_keys sec).2.
Proof.
  unfold root_storable, chain_storable, derived_keys. cbn [fst snd rk_kdf rk_key ck_kdf ck_key].
  split; (split; [done|]); (eapply (length_nonempty _ 31), length_slice; rewrite length_hkdf_spec; lia).
Qed.

Lemma x3dh_storable k ga ga' a b :
  ratcheting_session_alice_initialize (alice_of k) (ga, session_state_create) = (Ok tt, (ga', a)) ->
  ratcheting_session_bob_initialize (bob_of k) session_state_create = (Ok tt, b) ->
  storable_at 3 a /\ storable_at 3 b.
Proof.
  intros (kp & secret & sending & _ & _ & Hsend & ->)%alice_initialize_inv
    (secret' & _ & ->)%bob_initialize_inv.
  destruct (derived_keys_storable secret) as [H1 H2], (derived_keys_storable secret') as [H3 H4].
  destruct (create_chain_inv _ _ _ _ (root_storable_wf _ _ H1) Hsend) as (sec & Es).
  destruct (root_step_storable 3 _ sec H1) as [H5 H6]. rewrite <- Es in H5, H6.
  remember (derived_keys secret) as dk. remember (derived_keys secret') as dk'.
  split; constructor; try done.
  by apply (Forall_append_bounded _ MAX_RECEIVER_CHAINS []).
Qed.

(** What the builder adds to the freshly initialized states. *)
Definition alice_finish (id : option Z) (sid : Z) (bk : ec_public_key) (reg remote : Z) (s : session_state)
    : session_state :=
  session_state_set_alice_base_key bk
    (session_state_set_remote_registration_id remote
      (session_state_set_local_registration_id reg
        (session_state_set_unacknowledged_pre_key_message id sid bk s))).

Definition bob_finish (bk : ec_public_key) (reg remote : Z) (s : session_state) : session_state :=
  session_state_set_alice_base_key bk
    (session_state_set_remote_registration_id remote
      (session_state_set_local_registration_id reg s)).

Lemma alice_finish_good v id sid bk reg remote s :
  opt_all is_u32 id -> is_u32 sid -> pub_wf bk -> is_u32 reg -> is_u32 remote -> good v s ->
  good v (alice_finish id sid bk reg remote s) /\ same_ratchet s (alice_finish id sid bk reg remote s).
Proof.
  intros Hid Hsid Hbk Hreg Hrem [Hw Hs]. split; [split|by repeat split].
  - apply (state_step_wf _ _ (step_alice _ _ Hbk)), (state_step_wf _ _ (step_remote_reg _ _ Hrem)).
    apply (state_step_wf _ _ (step_local_reg _ _ Hreg)).
    by apply (state_step_wf _ _ (step_unacknowledged _ _ _ _ Hid Hsid Hbk)).
  - destruct Hs. by constructor.
Qed.

Lemma bob_finish_good v bk reg remote s :
  pub_wf bk -> is_u32 reg -> is_u32 remote -> good v s ->
  good v (bob_finish bk reg remote s) /\ same_ratchet s (bob_finish bk reg remote s).
Proof.
  intros Hbk Hreg Hrem [Hw Hs]. split; [split|by repeat split].
  - apply (state_step_wf _ _ (step_alice _ _ Hbk)), (state_step_wf _ _ (step_remote_reg _ _ Hrem)).
    by apply (state_step_wf _ _ (step_local_reg _ _ Hreg)).
  - destruct Hs. by constructor.
Qed.

(* ------------------------------------------------------------------ *)
(** ** The two runs *)

Definition in_range (reg dev id sid : Z) : Prop := is_u32 reg /\ is_u32 id /\ is_u32 sid.

Lemma process_bundle_ok wa to_b k reg dev id sid sig rega g1 g2 a0 :
  unknown (view (w_store wa)) to_b -> owns (view (w_store wa)) (k_ia k) rega ->
  x3dh_valid k -> in_range reg dev id sid -> length sig = CURVE_SIGNATURE_LEN ->
  curve25519_verify sig (pub_data (public_key (k_ib k))) (ser (public_key (k_sb k))) = true ->
  curve_generate_key_pair (w_rng wa) = (Ok (k_ea k), g1) ->
  ratcheting_session_alice_initialize (alice_of k) (g1, session_state_create) = (Ok tt, (g2, a0)) ->
  state_wf a0 -> storable_at 3 a0 ->
  exists wa', session_builder_process_pre_key_bundle to_b (bundle_of k reg dev id sid sig) wa = (Ok 0, wa') /\
    w_rng wa' = g2 /\ inside_callback wa' = inside_callback wa /\
    holds wa' to_b (mk_record (Some (alice_finish (match k_ob k with Some _ => Some id | None => None end)
      sid (public_key (k_ea k)) rega reg a0)) [] false None).
Proof.
  intros Hun Hown Hk (Hreg & Hid & Hsid) Hlen Hver Hg Hinit Hwa Hsa.
  destruct (is_trusted_unknown (w_store wa) to_b (public_key (k_ib k)) Hun) as (s1 & E1 & V1).
  rewrite <- V1 in Hun, Hown. destruct (load_session_fresh to_b s1 (proj1 Hun)) as (s2 & E2 & V2).
  rewrite <- V2 in Hown. destruct (get_key_pair_owned s2 _ _ Hown (proj1 Hk)) as (s3 & E3 & V3).
  rewrite <- V3 in Hown. destruct (registration_id_owned s3 _ _ Hown) as (s4 & E4 & V4).
  destruct (alice_finish_good 3 (match k_ob k with Some _ => Some id | None => None end) sid
    (public_key (k_ea k)) rega reg a0) as [Hgood _]; try done.
  { by destruct (k_ob k). }
  { apply valid_pair_pub_wf, Hk. }
  { apply Hown. }
  set (a := alice_finish _ _ _ _ _ a0) in *.
  destruct (store_held s4 to_b (session_record_set_state a (session_record_create None)))
    as (s5 & E5 & (m & V5) & Hh).
  { apply record_set_state_wf; [by eapply good_storable|].
    apply record_create_wf; [|done]. by eapply good_storable, (conj session_state_create_wf), session_state_create_storable. }
  destruct (save_identity_run s5 to_b (public_key (k_ib k))) as (s6 & E6 & V6).
  exists (mk_world g2 s6 (inside_callback wa)).
  split_and!; [|done|done|].
  - unfold session_builder_process_pre_key_bundle. unfold bind, in_store, in_rng, zoom, lift.
    cbn [bundle_of bundle_identity_key bundle_signed_pre_key_public bundle_signed_pre_key_signature
      bundle_pre_key_public bundle_signed_pre_key_id bundle_registration_id bundle_pre_key_id].
    rewrite E1. cbn [Z.eqb ec_public_key_serialize deref].
    unfold curve_verify_signature. rewrite Hlen, Nat.eqb_refl. unfold ser in Hver. rewrite Hver.
    cbn [negb w_store w_rng inside_callback]. rewrite E2. cbn [w_store w_rng inside_callback].
    rewrite Hg. cbn [w_store w_rng inside_callback]. rewrite E3. cbn [w_store w_rng inside_callback].
    cbn [alice_signal_protocol_parameters_create require rbind archive_unless_fresh is_fresh
      session_record_create rec_state deref].
    change (mk_alice (identity_of (k_ia k)) (k_ea k) (public_key (k_ib k)) (public_key (k_sb k))
      (public_key <$> k_ob k) (public_key (k_sb k))) with (alice_of k).
    unfold local. rewrite Hinit. cbn [rmap rbind w_store w_rng inside_callback]. rewrite E4.
    cbn [w_store w_rng inside_callback].
    assert (match public_key <$> k_ob k with Some _ => Some id | None => None end =
      match k_ob k with Some _ => Some id | None => None end) as -> by (by destruct (k_ob k)).
    fold (alice_finish (match k_ob k with Some _ => Some id | None => None end) sid
      (public_key (k_ea k)) rega reg a0). fold a. cbn [session_record_create] in E5. rewrite E5.
    cbn [w_store w_rng inside_callback]. by rewrite E6.
  - destruct (Hh g2 (inside_callback wa)) as (H1 & H2 & data & H3 & H4). cbn [w_store] in H3.
    split_and!; [done|done|]. exists data. split; [|done]. cbn [w_store]. rewrite V6. exact H3.
Qed.

(** The one-time pre-key the message used up: none for the last-resort id. *)
Definition used_pre_key (k : x3dh_keys) (id : Z) : option Z :=
  match k_ob k with
  | Some _ => if id =? PRE_KEY_MEDIUM_MAX_VALUE then None else Some id
  | None => None
  end.

(** A pre-key message made from Bob's keys [k]. *)
Record message_for (k : x3dh_keys) (id sid : Z) (pm : pre_key_signal_message) : Prop := {
  mf_version : pkm_version pm = 3;
  mf_has : pkm_has_pre_key_id pm = match k_ob k with Some _ => true | None => false end;
  mf_id : match k_ob k with Some _ => pkm_pre_key_id pm = id | None => True end;
  mf_sid : pkm_signed_pre_key_id pm = sid;
  mf_base : pkm_base_key pm = Some (public_key (k_ea k));
  mf_identity : pkm_identity_key pm = Some (public_key (k_ia k))
}.

Lemma process_v3_ok s k pm id sid regb b0 :
  owns (view s) (k_ib k) regb -> published (view s) (k_sb k) sid (k_ob k) id -> x3dh_valid k ->
  message_for k id sid pm ->
  ratcheting_session_bob_initialize (bob_of k) session_state_create = (Ok tt, b0) ->
  exists s', session_builder_process_pre_key_signal_message_v3 pm (s, session_record_create None) =
    (Ok (used_pre_key k id), (s', mk_record (Some (bob_finish (public_key (k_ea k)) regb
       (pkm_registration_id pm) b0)) [] true None)) /\ view s' = view s.
Proof.
  intros Hown Hpub Hk [Hv Hhas Hid Hsid Hbase Hident] Hb.
  destruct (load_signed_published s _ _ _ _ Hpub) as (sk & s1 & E1 & Esk & V1).
  rewrite <- V1 in Hown, Hpub. destruct (get_key_pair_owned s1 _ _ Hown) as (s2 & E2 & V2); [apply Hk|].
  rewrite <- V2 in Hown, Hpub.
  assert (exists s3, (if pkm_has_pre_key_id pm then
        do pk <- @on_fst _ session_record _ (signal_protocol_pre_key_load_key (pkm_pre_key_id pm)); ret (Some (pk_key_pair pk))
      else ret None) (s2, session_record_create None) = (Ok (k_ob k), (s3, session_record_create None)) /\
      view s3 = view s2) as (s3 & E3 & V3).
  { rewrite Hhas. destruct (k_ob k) as [ob|]; [|by exists s2].
    destruct (load_pre_key_published s2 _ _ _ _ Hpub) as (pk & s3 & E & <- & V). exists s3.
    split; [|done]. rewrite Hid. unfold bind, on_fst, zoom. cbn [fst snd]. by rewrite E. }
  rewrite <- V3 in Hown. destruct (registration_id_owned s3 _ _ Hown) as (s4 & E4 & V4).
  exists s4. split; [|congruence].
  unfold session_builder_process_pre_key_signal_message_v3.
  unfold bind at 1, on_snd at 1, zoom at 1, get at 1. cbn [fst snd].
  unfold bind at 1, lift at 1. rewrite Hv, Hsid, Hbase, Hident. cbn [session_record_has_session_state session_record_create
    rec_state deref rbind previous_states existsb]. unfold matches_session at 1.
  cbn [session_state_create session_version Z.eqb Pos.eqb andb orb].
  unfold bind at 1, on_fst at 1, zoom at 1. cbn [fst snd]. rewrite E1.
  unfold bind at 1, on_fst at 1, zoom at 1. cbn [fst snd]. rewrite E2.
  rewrite (bind_run _ _ _ _ _ E3).
  unfold bind at 1, lift at 1. cbn [bob_signal_protocol_parameters_create require rbind]. rewrite Esk.
  change (mk_bob (identity_of (k_ib k)) (k_sb k) (k_ob k) (k_sb k) (public_key (k_ia k))
    (public_key (k_ea k))) with (bob_of k).
  unfold bind, on_snd, on_fst, zoom, modify, lift, ret, on_state, archive_unless_fresh.
  cbn [fst snd is_fresh session_record_create rec_state]. rewrite Hb. cbn [fst snd]. rewrite E4.
  cbn [fst snd deref rec_state session_record_set_state previous_states is_fresh user_record].
  f_equal. f_equal. rewrite Hhas. unfold used_pre_key. destruct (k_ob k); [|done].
  rewrite Hid. by destruct (id =? PRE_KEY_MEDIUM_MAX_VALUE).
Qed.

Lemma process_message_ok s to_a k pm id sid regb b0 :
  unknown (view s) to_a -> owns (view s) (k_ib k) regb ->
  published (view s) (k_sb k) sid (k_ob k) id -> x3dh_valid k -> message_for k id sid pm ->
  ratcheting_session_bob_initialize (bob_of k) session_state_create = (Ok tt, b0) ->
  exists s', session_builder_process_pre_key_signal_message to_a pm (s, session_record_create None) =
    (Ok (used_pre_key k id), (s', mk_record (Some (bob_finish (public_key (k_ea k)) regb
       (pkm_registration_id pm) b0)) [] true None)) /\
    view s' = set_trusted (<[to_a := ser (public_key (k_ia k))]> (v_trusted (view s))) (view s).
Proof.
  intros Hun Hown Hpub Hk Hm Hb.
  destruct (is_trusted_unknown s to_a (public_key (k_ia k)) Hun) as (s1 & E1 & V1).
  rewrite <- V1 in Hown, Hpub.
  destruct (process_v3_ok s1 k pm id sid regb b0 Hown Hpub Hk Hm Hb) as (s2 & E2 & V2).
  destruct (save_identity_run s2 to_a (public_key (k_ia k))) as (s3 & E3 & V3).
  exists s3. split; [|by rewrite V3, V2, V1].
  unfold session_builder_process_pre_key_signal_message. rewrite (mf_identity _ _ _ _ Hm).
  unfold bind at 1, on_fst at 1, zoom at 1. cbn [fst snd]. rewrite E1. cbn [Z.eqb].
  rewrite (bind_run _ _ _ _ _ E2). unfold bind, on_fst, zoom, ret. cbn [fst snd]. by rewrite E3.
Qed.

(* ------------------------------------------------------------------ *)
(** ** Putting the two together *)

(** With a held session, encryption through the store is encryption with the
    state of its record. *)
Lemma encrypt_held_inv w a r s pt out w' :
  holds w a r -> rec_state r = Some s -> inside_callback w = false ->
  session_cipher_encrypt a pt w = (Ok out, w') ->
  exists s', encrypt_with_state pt s = (Ok out, s') /\ w_rng w' = w_rng w /\
    inside_callback w' = false /\ holds w' a (session_record_set_state s' r).
Proof.
  intros Hh Hr Hin He. destruct (encrypt_with_state pt s) as [[out'|e|] s'] eqn:E.
  - destruct (encrypt_held w a r s pt out' s' Hh Hr Hin E) as (w2 & E2 & H). rewrite E2 in He.
    injection He as <- <-. eauto.
  - exfalso. destruct (load_held w a r Hh) as (s1 & El & _). unfold session_cipher_encrypt in He.
    unfold bind, get, in_store, zoom, lift in He. rewrite Hin, El in He.
    unfold session_record_get_state in He. rewrite Hr in He. cbn [require] in He. by rewrite E in He.
  - exfalso. destruct (load_held w a r Hh) as (s1 & El & _). unfold session_cipher_encrypt in He.
    unfold bind, get, in_store, zoom, lift in He. rewrite Hin, El in He.
    unfold session_record_get_state in He. rewrite Hr in He. cbn [require] in He. by rewrite E in He.
Qed.

(** What the set-up leaves in the ratchets. *)
Lemma x3dh_counters k ga ga' a b new :
  valid_pair (k_sb k) -> pub_wf (public_key new) -> public_key new <> public_key (k_sb k) ->
  ratcheting_session_alice_initialize (alice_of k) (ga, session_state_create) = (Ok tt, (ga', a)) ->
  ratcheting_session_bob_initialize (bob_of k) session_state_create = (Ok tt, b) ->
  next_counter a = 0 /\ session_state_find_receiver_chain a (public_key new) = None.
Proof.
  intros Hsb Hnew Hne (kp & secret & sending & _ & _ & Hsend & ->)%alice_initialize_inv
    (secret' & _ & ->)%bob_initialize_inv.
  destruct (create_chain_inv _ _ _ _ (proj1 (derived_keys_wf secret)) Hsend) as (sec & Es).
  assert (ck_index sending.2 = 0) as Hi by (rewrite Es; done).
  remember (derived_keys secret) as dk. remember (derived_keys secret') as dk'.
  split; [exact Hi|].
  apply find_first_None. apply (Forall_append_bounded _ MAX_RECEIVER_CHAINS []); [constructor|].
  apply not_true_is_false. intros H.
  apply is_chain_of_spec in H; [|done|by apply valid_pair_pub_wf]. cbn in H. congruence.
Qed.

(** Decrypting a pre-key message once its session is set up. *)
Lemma decrypt_pre_key_run w a m id st1 r0 r s inner pt g' s' :
  inside_callback w = false ->
  signal_protocol_session_load_session a (w_store w) = (Ok r0, st1) ->
  (exists st2, session_builder_process_pre_key_signal_message a m (st1, r0) = (Ok id, (st2, r))) ->
  pkm_message m = Some inner -> rec_state r = Some s -> record_storable r ->
  opt_all pub_wf (sm_sender_ratchet_key inner) ->
  session_cipher_decrypt_from_state_and_signal_message inner (w_rng w, s) = (Ok pt, (g', s')) ->
  exists w', session_cipher_decrypt_pre_key_signal_message a None m w = (Ok pt, w') /\
    w_rng w' = g' /\ inside_callback w' = false /\
    holds w' a (mk_record (Some s') (previous_states r) false (user_record r)) /\
    (forall i, id = Some i -> v_pre_keys (view (w_store w')) !! i = None).
Proof.
  intros Hin El (st2 & Ep) Hm Hr Hst Hk Hd.
  assert (state_storable s) as Hs by (destruct Hst as [(c & Hc & Hcs) _ _]; congruence).
  assert (state_storable s') as Hs'.
  { pose proof (decrypt_from_state_good (session_version s) inner Hk (w_rng w, s) (storable_good s Hs)) as H.
    rewrite Hd in H. by eapply good_storable. }
  destruct (store_held st2 a (session_record_set_state s' r)) as (st3 & Es & _ & Hh);
    [by apply record_set_state_wf|].
  cbn [session_record_set_state rec_state previous_states user_record] in Hh.
  unfold session_cipher_decrypt_pre_key_signal_message.
  unfold bind, get, in_store, in_rng, zoom, lift, ret. rewrite Hin, El.
  cbn [w_store w_rng inside_callback]. unfold local. rewrite Ep.
  cbn [rmap rbind w_store w_rng inside_callback]. rewrite Hm. cbn [deref].
  rewrite (decrypt_record_current inner (w_rng w) r s pt g' s' Hr Hs Hd).
  cbn [rmap rbind session_cipher_decrypt_callback]. unfold ret. cbn [w_store w_rng inside_callback].
  rewrite Es. cbn [w_store w_rng inside_callback]. destruct id as [i|].
  - destruct (remove_pre_key_spec i st3) as (st4 & Er & V4).
    unfold signal_protocol_pre_key_remove_key. cbn [w_store w_rng inside_callback]. rewrite Er. eexists. split; [done|].
    cbn [w_rng inside_callback w_store]. split_and!; [done|done| |].
    + destruct (Hh g' false) as (H1 & H2 & data & H3 & H4). split_and!; [done|done|].
      exists data. split; [|done]. cbn [w_store]. rewrite V4. exact H3.
    + intros j [= <-]. rewrite V4. apply lookup_delete_eq.
  - eexists. split; [done|]. cbn [w_rng inside_callback]. split_and!; [done|done| |done]. apply Hh.
Qed.

(** Alice sets up a session from Bob's bundle; whatever she then encrypts is a
    pre-key message that Bob decrypts; both stores hold the session, the ratchets
    are synchronised, and the one-time pre-key is gone. *)
Lemma first_message k wa wb to_b to_a reg dev id sid sig rega regb g1 g2 a0 new gb' :
  x3dh_valid k -> in_range reg dev id sid -> inside_callback wa = false -> inside_callback wb = false ->
  unknown (view (w_store wa)) to_b -> owns (view (w_store wa)) (k_ia k) rega ->
  unknown (view (w_store wb)) to_a -> owns (view (w_store wb)) (k_ib k) regb ->
  published (view (w_store wb)) (k_sb k) sid (k_ob k) id ->
  length sig = CURVE_SIGNATURE_LEN ->
  curve25519_verify sig (pub_data (public_key (k_ib k))) (ser (public_key (k_sb k))) = true ->
  curve_generate_key_pair (w_rng wa) = (Ok (k_ea k), g1) ->
  ratcheting_session_alice_initialize (alice_of k) (g1, session_state_create) = (Ok tt, (g2, a0)) ->
  curve_generate_key_pair (w_rng wb) = (Ok new, gb') -> public_key new <> public_key (k_sb k) ->
  exists wa1,
    session_builder_process_pre_key_bundle to_b (bundle_of k reg dev id sid sig) wa = (Ok 0, wa1) /\
    forall pt out wa2, session_cipher_encrypt to_b pt wa1 = (Ok out, wa2) ->
    exists pm data wb' ra rb a b,
      out = CIPHERTEXT_PREKEY_TYPE pm /\ pkm_serialized pm = Some data /\
      pre_key_signal_message_deserialize data = Ok pm /\
      session_cipher_decrypt_pre_key_signal_message to_a None pm wb = (Ok pt, wb') /\
      holds wa2 to_b ra /\ rec_state ra = Some a /\ holds wb' to_a rb /\ rec_state rb = Some b /\
      conv_synced (mk_party (w_rng wa2) a, mk_party (w_rng wb') b) /\
      (forall i, used_pre_key k id = Some i -> v_pre_keys (view (w_store wb')) !! i = None).
Proof.
  intros Hk Hrange Hia Hib Huna Howna Hunb Hownb Hpub Hlen Hver Hg Hinit Hgb Hne.
  destruct (bob_initialize_ok k session_state_create Hk) as (b0 & Hb0).
  pose proof (x3dh_synced k g1 g2 a0 b0 Hk Hinit Hb0) as Hsync.
  destruct (x3dh_storable k g1 g2 a0 b0 Hinit Hb0) as [Hsa Hsb].
  assert (state_wf a0 /\ state_wf b0) as [Hwa Hwb] by (destruct Hsync as (Hp & _); split; apply Hp).
  destruct (process_bundle_ok wa to_b k reg dev id sid sig rega g1 g2 a0) as (wa1 & Ebundle & Hg2 & Hia1 & Hha);
    try done.
  exists wa1. split; [done|]. intros pt out wa2 Henc. rewrite Hia in Hia1.
  set (oid := match k_ob k with Some _ => Some id | None => None end) in *.
  destruct Hrange as (Hreg & Hid & Hsid).
  pose proof (valid_pair_pub_wf (k_ea k) (proj1 (proj2 Hk))) as Hbk.
  destruct (alice_finish_good 3 oid sid (public_key (k_ea k)) rega reg a0) as [[Hwa' Hsa'] Hra];
    [unfold oid; by destruct (k_ob k)|done|done|apply Howna|done|done|].
  set (a := alice_finish oid sid (public_key (k_ea k)) rega reg a0) in *.
  destruct (encrypt_held_inv wa1 to_b _ a pt out wa2 Hha eq_refl Hia1 Henc) as (a' & He & Hg3 & _ & Hha').
  assert (session_version a = CIPHERTEXT_CURRENT_VERSION) as Hva by apply Hsa'.
  destruct (encrypt_pre_key_inv pt a out a' Hwa' Hva eq_refl He) as (pm & data & bk & local & -> & Ebk & El &
    P1 & P2 & P3 & P4 & P5 & P6 & P7 & P8 & P9 & P10).
  assert (bk = public_key (k_ea k)) as ->.
  { unfold a, alice_finish, oid in Ebk. cbn in Ebk. destruct (k_ob k); cbn in Ebk; congruence. }
  assert (local = public_key (k_ia k)) as ->.
  { destruct (alice_initialize_inv _ _ _ _ _ Hinit) as (? & ? & ? & _ & _ & _ & Ea0).
    change (local_identity_public a) with (local_identity_public a0) in El. rewrite Ea0 in El.
    cbn in El. congruence. }
  assert (message_for k id sid pm) as Hmf.
  { split; [done| | | |done|done]; rewrite ?P3, ?P4, ?P5; unfold a, oid, alice_finish; cbn;
      by destruct (k_ob k). }
  destruct (bob_finish_good 3 (public_key (k_ea k)) regb (pkm_registration_id pm) b0) as [[Hwb' Hsb'] Hrb];
    [done|apply Hownb|rewrite P2; apply Howna|done|].
  set (b := bob_finish (public_key (k_ea k)) regb (pkm_registration_id pm) b0) in *.
  pose proof (synced_same_ratchet a0 a b0 b Hra Hrb Hwa' Hwb' Hsync) as Hsync'.
  destruct (curve_generate_key_pair_valid _ _ _ Hgb) as [_ [Hnw _]].
  destruct (x3dh_counters k g1 g2 a0 b0 new (proj1 (proj2 (proj2 (proj2 Hk)))) Hnw Hne Hinit Hb0)
    as (Hnext & Hfn).
  destruct (deliver_leader a b (w_rng wb) pt (CIPHERTEXT_PREKEY_TYPE pm) a' new gb' Hsync' He)
    as (m & b' & Ht & Hdec & Hs'); try done.
  { change (next_counter a) with (next_counter a0). rewrite Hnext. unfold MAX_SKIP. lia. }
  rewrite P10 in Ht. destruct (pkm_message pm) as [inner|] eqn:Epm; [|done].
  cbn [deref] in Ht. injection Ht as ->.
  destruct (load_session_fresh to_a (w_store wb) (proj1 Hunb)) as (st1 & Eload & Vload).
  rewrite <- Vload in Hunb, Hownb, Hpub.
  destruct (process_message_ok st1 to_a k pm id sid regb b0 Hunb Hownb Hpub Hk Hmf Hb0) as (st2 & Eproc & _).
  destruct (decrypt_pre_key_run wb to_a pm (used_pre_key k id) st1 _ _ b m pt gb' b' Hib Eload
    (ex_intro _ st2 Eproc) Epm eq_refl) as (wb' & Efin & Hgf & _ & Hhb & Hgone); try done.
  { split; cbn; [|done|unfold ARCHIVED_STATES_MAX_LENGTH; lia].
    exists b. split; [done|]. by eapply good_storable. }
  { apply (transmit_key_wf pt a (CIPHERTEXT_PREKEY_TYPE pm) a' m Hwa' Hva He). by rewrite P10. }
  eexists pm, data, wb', _, _, a', b'. rewrite Hg3, Hgf.
  split_and!; try done; try exact Hha'; try exact Hhb; try done. by right.
Qed.

End contact.
