(* ===== verification/Network.v ===== *)
(** Two parties and the messages between them, in any order.

    A message that was encrypted is a packet on its way; a step encrypts a new
    message, delivers any packet (late, out of order, crossing one in the other
    direction, or again), or hands a party bytes it refuses.  A packet that is
    never delivered is lost.

    - [network], [net_step]: the two parties, the packets in each direction and
      what can happen.  [in_window] is the window in which the library promises
      to decrypt: 2000 skipped keys per chain, five receiver chains.
    - [net_inv]: the two ratchets are in step ([conv_synced]) and every packet is
      where its receiver can find it ([placed]).
    - [deliver_inv]: a packet in the window decrypts to what was encrypted, once.
    - [represents]: the stores of two applications that hold the sessions of a
      network; the API calls on them do what the network does. *)

From S2P Require Import Prelude Buffers Crypto Hkdf Curve Ratchet SessionState LocalStorage.
From S2P Require Import SessionSerial Protocol RatchetSession SessionRecord Receive SessionPreKey.
From S2P Require Import Store SessionBuilder SessionCipher Conversation Storable SessionApi.
From S2P Require Import FirstContact.

Section model.
Context `{CP : CryptoProvider} `{CV : Curve25519}.
Context `{MC : Codec SignalMessage} `{PC : Codec PreKeySignalMessage}.

(** A message on its way, what it carries, and whether it was received. *)
Record packet := mk_packet {
  pkt_out : ciphertext_message;
  pkt_plaintext : bytes;
  pkt_received : bool }.

Definition mark (e : packet) : packet := mk_packet (pkt_out e) (pkt_plaintext e) true.

(** The ratchet key and the counter of the message the receiver parses. *)
Definition header_of (e : packet) : option (ec_public_key * Z) :=
  match transmit (pkt_out e) with
  | Ok m => (fun k => (k, msg_counter m)) <$> sm_sender_ratchet_key m
  | _ => None
  end.

(** The next ratchet key that is generated is new: the other party has no chain
    for it and no packet on its way carries it. *)
Definition fresh_ratchet_key (x : session_state) (back : list packet) (g : rng) : Prop :=
  exists new g', curve_generate_key_pair g = (Ok new, g') /\
    session_state_find_receiver_chain x (public_key new) = None /\
    Forall (fun e => fst <$> header_of e <> Some (public_key new)) back.

(** The window of the receiver [y]: the chain of the packet is one it keeps, and
    with the packet's own links skipped it stores at most 2000 keys for it; or the
    packet is of the current chain of the sender [x], at most 2000 links into it. *)
Definition in_window (x : session_state) (y : party) (back : list packet) (e : packet) : Prop :=
  match header_of e with
  | None => False
  | Some (k, n) =>
      match session_state_find_receiver_chain (p_state y) k with
      | Some c =>
          match rc_chain_key c with
          | Some ck => Z.of_nat (length (rc_message_keys c)) + (n - ck_index ck) <= MAX_SKIP
          | None => False
          end
      | None =>
          public_key <$> session_state_get_sender_ratchet_key_pair x = Some k /\ n <= MAX_SKIP /\
          fresh_ratchet_key x back (p_rng y)
      end
  end.

(** What a party does with the bytes it is given.  Decryption works on a copy of
    the state, which is dropped when it fails. *)
Definition receive (out : ciphertext_message) (y : party) : result bytes * party :=
  match bind (lift (transmit out)) session_cipher_decrypt_from_state_and_signal_message
          (p_rng y, p_state y) with
  | (Ok pt, (g, s)) => (Ok pt, mk_party g s)
  | (r, (g, _)) => (r, mk_party g (p_state y))
  end.

(** Two parties, and the packets to the second and to the first. *)
Record network := mk_network {
  net_x : party;
  net_y : party;
  to_y : list packet;
  to_x : list packet }.

Definition net_swap (c : network) : network := mk_network (net_y c) (net_x c) (to_x c) (to_y c).

(** A step of the first party as a sender, of the second as a receiver.  The
    label of a delivery is the packet with the outcome of the decryption. *)
Inductive half_step : network -> option (packet * result bytes) -> network -> Prop :=
| net_send x y xy yx pt out s' :
    encrypt_with_state pt (p_state x) = (Ok out, s') -> next_counter (p_state x) + 1 < 2 ^ 32 ->
    half_step (mk_network x y xy yx) None
      (mk_network (mk_party (p_rng x) s') y (xy ++ [mk_packet out pt false]) yx)
| net_deliver x y xy yx i e r y' :
    xy !! i = Some e -> in_window (p_state x) y yx e -> receive (pkt_out e) y = (r, y') ->
    half_step (mk_network x y xy yx) (Some (e, r)) (mk_network x y' (<[i := mark e]> xy) yx)
| net_refuse x y xy yx out r y' :
    receive out y = (r, y') -> (forall pt, r <> Ok pt) ->
    half_step (mk_network x y xy yx) None (mk_network x y' xy yx).

Inductive net_step (c : network) (l : option (packet * result bytes)) (c' : network) : Prop :=
| step_forth : half_step c l c' -> net_step c l c'
| step_back : half_step (net_swap c) l (net_swap c') -> net_step c l c'.

Inductive net_reachable (c0 : network) : network -> Prop :=
| reach_start : net_reachable c0 c0
| reach_step c l c' : net_reachable c0 c -> net_step c l c' -> net_reachable c0 c'.

(** The two sessions right after the X3DH set-up, with nothing on the way. *)
Definition net_initial (k : x3dh_keys) (c : network) : Prop :=
  to_y c = [] /\ to_x c = [] /\
  (exists g, ratcheting_session_alice_initialize (alice_of k) (g, session_state_create) =
    (Ok tt, (p_rng (net_x c), p_state (net_x c)))) /\
  ratcheting_session_bob_initialize (bob_of k) session_state_create = (Ok tt, p_state (net_y c)).

(** What a delivery answers: the plaintext once, and [SG_ERR_DUPLICATE_MESSAGE]
    from then on. *)
Definition outcome (e : packet) : result bytes :=
  if pkt_received e then Err SG_ERR_DUPLICATE_MESSAGE else Ok (pkt_plaintext e).

End model.

(* ------------------------------------------------------------------ *)
(** ** The invariant *)

Section invariant.
Context `{CP : CryptoProvider} {CL : CryptoProviderLaws CP}.
Context `{CV : Curve25519} {CVL : Curve25519Laws CV}.
Context {MC : Codec SignalMessage} {MCL : CodecLaws SignalMessage MC SignalMessage_ok}.
Context {PC : Codec PreKeySignalMessage} {PCL : CodecLaws PreKeySignalMessage PC PreKeySignalMessage_ok}.

Abbreviation clear := session_state_clear_unacknowledged_pre_key_message.

(** Where the receiver [y] finds a packet made at the link [ck] of the chain of
    [k]: on that chain, if it has it; otherwise, if [k] is the current key of the
    sender [x], on the chain [y] would derive for it.  A packet of a chain that
    [y] has dropped is nowhere. *)
Definition placed (x y : session_state) (k : ec_public_key) (ck : ratchet_chain_key) (received : bool)
    : Prop :=
  match session_state_find_receiver_chain y k with
  | Some c => exists ckb, chain_inv c ckb /\ located c ckb ck received
  | None => forall pa, session_state_get_sender_ratchet_key_pair x = Some pa -> public_key pa = k ->
      received = false /\
      exists pb root secret, session_state_get_sender_ratchet_key_pair y = Some pb /\
        root_key y = Some root /\
        curve_calculate_agreement (Some (public_key pa)) (Some (private_key pb)) = Ok secret /\
        in_front (root_step root secret).2 ck
  end.

(** A packet [x] made at the link [ck] of the chain of [k]. *)
Record made_at (x : session_state) (e : packet) (k : ec_public_key) (ck : ratchet_chain_key) : Prop := {
  made_key : pub_wf k;
  made_link : chain_wf ck /\ ck_index ck + 1 < 2 ^ 32;
  made_message : exists local remote ct m pn,
    local_identity_public x = Some local /\ remote_identity_public x = Some remote /\
    session_cipher_get_ciphertext 3 (chain_message_keys ck) (pkt_plaintext e) = Ok ct /\
    signal_message_create 3 (mac_key (chain_message_keys ck)) k (ck_index ck) pn ct
      (Some local) (Some remote) = Ok m /\
    transmit (pkt_out e) = Ok m
}.

Definition packet_ok (x y : session_state) (e : packet) : Prop :=
  exists k ck, made_at x e k ck /\ placed x y k ck (pkt_received e).

(** The packets from [x] to [y]: each in its place, with its own ratchet key and
    counter, and behind the sender chain. *)
Record soup_ok (x y : session_state) (l : list packet) : Prop := {
  soup_packets : Forall (packet_ok x y) l;
  soup_headers : NoDup (map header_of l);
  soup_counters k n : Some (k, n) ∈ map header_of l ->
    public_key <$> session_state_get_sender_ratchet_key_pair x = Some k -> n < next_counter x
}.

Definition net_inv (c : network) : Prop :=
  conv_synced (net_x c, net_y c) /\
  soup_ok (p_state (net_x c)) (p_state (net_y c)) (to_y c) /\
  soup_ok (p_state (net_y c)) (p_state (net_x c)) (to_x c).

Lemma net_inv_swap c : net_inv c -> net_inv (net_swap c).
Proof. intros (H1 & H2 & H3). split_and!; [by apply conv_synced_sym|done|done]. Qed.

Lemma made_header x e k ck : made_at x e k ck -> header_of e = Some (k, ck_index ck).
Proof.
  intros [_ _ (local & remote & ct & m & pn & _ & _ & _ & Hm & Ht)]. unfold header_of. rewrite Ht.
  by apply signal_message_create_inv in Hm as ->.
Qed.

Lemma made_frame x x' e k ck :
  local_identity_public x' = local_identity_public x ->
  remote_identity_public x' = remote_identity_public x -> made_at x e k ck -> made_at x' e k ck.
Proof. intros Hl Hr [H1 H2 H3]. split; [done|done|]. by rewrite Hl, Hr. Qed.

(** The fields of the two states a packet depends on. *)
Lemma packets_frame x x' y y' l :
  local_identity_public x' = local_identity_public x ->
  remote_identity_public x' = remote_identity_public x ->
  session_state_get_sender_ratchet_key_pair x' = session_state_get_sender_ratchet_key_pair x ->
  receiver_chains y' = receiver_chains y ->
  session_state_get_sender_ratchet_key_pair y' = session_state_get_sender_ratchet_key_pair y ->
  root_key y' = root_key y ->
  Forall (packet_ok x y) l -> Forall (packet_ok x' y') l.
Proof.
  intros Hl Hr Hx Hf Hy Hroot H. eapply Forall_impl; [exact H|]. intros e (k & ck & Hmade & Hplace).
  exists k, ck. split; [by eapply made_frame|]. unfold placed in *. rewrite Hx, Hy, Hroot.
  by rewrite (find_chain_ext y y' k Hf).
Qed.

Lemma soup_empty x y : soup_ok x y [].
Proof. split; [constructor|constructor|]. by intros k n H%elem_of_nil. Qed.

(* ------------------------------------------------------------------ *)
(** ** Encrypting *)

Lemma soup_send x y xy pt out s' :
  conv_synced (x, y) -> soup_ok (p_state x) (p_state y) xy ->
  encrypt_with_state pt (p_state x) = (Ok out, s') -> next_counter (p_state x) + 1 < 2 ^ 32 ->
  soup_ok s' (p_state y) (xy ++ [mk_packet out pt false]) /\
  conv_synced (mk_party (p_rng x) s', y) /\
  forall l, soup_ok (p_state y) (p_state x) l -> soup_ok (p_state y) s' l.
Proof.
  intros Hs [Hp Hh Hc] He Hn. pose proof (conv_synced_paired x y Hs) as Hpair.
  destruct (encrypt_with_state_inv _ _ _ _ (p_wf_a _ _ Hpair) (p_version_a _ _ Hpair) He)
    as (ck & kp & local & remote & ct & m & Hck & Hkp & Hl & Hr & Hct & Hm & Ht & _ & ->).
  unfold next_counter in Hn. rewrite Hck in Hn.
  pose proof (sender_chain_key_wf _ _ (p_wf_a _ _ Hpair) Hck) as Hckw.
  assert (u32 (ck_index ck + 1) = ck_index ck + 1) as Hu.
  { apply u32_id. destruct Hckw as [_ Hi]. unfold is_u32 in *. lia. }
  assert (made_at (p_state x) (mk_packet out pt false) (public_key kp) ck) as Hmade.
  { split; [|done|by exists local, remote, ct, m, (previous_counter (p_state x))].
    destruct (wf_sender _ (p_wf_a _ _ Hpair)) as [H _].
    unfold session_state_get_sender_ratchet_key_pair in Hkp. rewrite Hkp in H. apply H. }
  assert (forall k n, Some (k, n) ∈ map header_of (xy ++ [mk_packet out pt false]) ->
    public_key <$> session_state_get_sender_ratchet_key_pair (p_state x) = Some k ->
    n < ck_index ck + 1) as Hcount.
  { intros k n. rewrite map_app. intros [Hin|Hin]%elem_of_app Hk.
    - specialize (Hc k n Hin Hk). unfold next_counter in Hc. rewrite Hck in Hc. lia.
    - apply list_elem_of_singleton in Hin. rewrite (made_header _ _ _ _ Hmade) in Hin.
      injection Hin as -> ->. lia. }
  split_and!; [split| |].
  - apply Forall_app. split; [by eapply packets_frame; [..|exact Hp]|]. apply Forall_singleton. exists (public_key kp), ck.
    split; [destruct Hmade; by split|]. unfold placed. cbn [pkt_received].
    destruct Hs as [(_ & (pa & pb & root & secret & ck' & Hpa & _ & Hpb & _ & Hroot & Hag & _ & Hck' & Hd & Hnone) & _)
      |(_ & _ & (kp' & c & ckb & ck' & Hkp' & _ & Hck' & Hd & Hf & Hi))]; cbn [fst snd] in *.
    + rewrite Hkp in Hpa. injection Hpa as <-. rewrite Hck in Hck'. injection Hck' as <-.
      rewrite Hnone. intros pa Hpa _. change (session_state_get_sender_ratchet_key_pair (p_state x) = Some pa) in Hpa.
      rewrite Hkp in Hpa. injection Hpa as <-. split; [done|]. by exists pb, root, secret.
    + rewrite Hkp in Hkp'. injection Hkp' as <-. rewrite Hck in Hck'. injection Hck' as <-.
      rewrite Hf. exists ckb. split; [done|]. by left.
  - rewrite map_app. apply NoDup_app. split_and!; [done| |apply NoDup_singleton].
    cbn [map]. rewrite (made_header _ _ _ _ Hmade). intros h Hin ->%list_elem_of_singleton.
    assert (ck_index ck < next_counter (p_state x)) as Hlt by (eapply Hc; [exact Hin|by rewrite Hkp]).
    unfold next_counter in Hlt. rewrite Hck in Hlt. lia.
  - intros k n Hin Hk. unfold next_counter. cbn. rewrite Hu. by apply (Hcount k n).
  - by apply conv_synced_send.
  - intros l [H1 H2 H3]. split; [by eapply packets_frame; [..|exact H1]|done|done].
Qed.

(* ------------------------------------------------------------------ *)
(** ** The Diffie-Hellman step of a receiver *)

(** The packets to the party that takes the step. *)
Lemma soup_dh_to x y s1 pa pb root secret xy :
  session_state_get_sender_ratchet_key_pair x = Some pa ->
  session_state_get_sender_ratchet_key_pair y = Some pb -> root_key y = Some root ->
  curve_calculate_agreement (Some (public_key pa)) (Some (private_key pb)) = Ok secret ->
  session_state_find_receiver_chain y (public_key pa) = None ->
  session_state_find_receiver_chain s1 (public_key pa) =
    Some (mk_receiver_chain (Some (public_key pa)) (Some (root_step root secret).2) []) ->
  (forall k c, pub_wf k -> k <> public_key pa ->
    session_state_find_receiver_chain s1 k = Some c -> session_state_find_receiver_chain y k = Some c) ->
  soup_ok x y xy -> soup_ok x s1 xy.
Proof.
  intros Hpa Hpb Hr Hag Hn Hf1 Hother [Hp Hh Hc]. split; [|done|done].
  eapply Forall_impl; [exact Hp|]. intros e (k & ck & Hmade & Hplace). exists k, ck. split; [done|].
  unfold placed in *. destruct (decide (k = public_key pa)) as [->|Hne].
  - rewrite Hn in Hplace. rewrite Hf1. exists (root_step root secret).2. split; [by repeat constructor|].
    destruct (Hplace pa Hpa eq_refl) as (Hrec & pb' & root' & secret' & E1 & E2 & E3 & Hfront).
    left. split; [done|]. assert (pb' = pb /\ root' = root) as [-> ->] by (split; congruence).
    by assert (secret' = secret) as -> by congruence.
  - destruct (session_state_find_receiver_chain s1 k) as [c|] eqn:Ek.
    + apply Hother in Ek; [|apply Hmade|done]. by rewrite Ek in Hplace.
    + intros pa' Hpa' Ek'. congruence.
Qed.

(** The packets it has sent. *)
Lemma soup_dh_from x y s1 new yx :
  local_identity_public s1 = local_identity_public y ->
  remote_identity_public s1 = remote_identity_public y ->
  session_state_get_sender_ratchet_key_pair s1 = Some new ->
  Forall (fun e => fst <$> header_of e <> Some (public_key new)) yx ->
  soup_ok y x yx -> soup_ok s1 x yx.
Proof.
  intros Hl Hr Hnew Hfresh [Hp Hh Hc]. rewrite Forall_forall in Hfresh. split; [|done|].
  - apply Forall_forall. intros e He. rewrite Forall_forall in Hp. destruct (Hp e He) as (k & ck & Hmade & Hplace).
    exists k, ck. split; [by eapply made_frame|]. unfold placed in *.
    destruct (session_state_find_receiver_chain x k); [done|]. intros pa Hpa Ek.
    destruct (Hfresh e He). rewrite (made_header _ _ _ _ Hmade). cbn. congruence.
  - intros k n (e & E & He)%list_elem_of_fmap Hk. destruct (Hfresh e He).
    rewrite Hnew in Hk. cbn in Hk. by rewrite <- E, Hk.
Qed.

(** Deriving the chain key of a packet in the window, with a step or without,
    leaves every packet in its place. *)
Lemma chain_key_step x y xy yx e k ck :
  net_inv (mk_network x y xy yx) -> made_at (p_state x) e k ck ->
  placed (p_state x) (p_state y) k ck (pkt_received e) -> in_window (p_state x) y yx e ->
  exists g1 s1 c ckb,
    session_cipher_get_or_create_chain_key k (p_rng y, p_state y) = (Ok ckb, (g1, s1)) /\
    net_inv (mk_network x (mk_party g1 s1) xy yx) /\
    session_state_find_receiver_chain s1 k = Some c /\ chain_inv c ckb /\
    located c ckb ck (pkt_received e) /\
    Z.of_nat (length (rc_message_keys c)) + (ck_index ck - ck_index ckb) <= MAX_SKIP /\
    local_identity_public s1 = local_identity_public (p_state y) /\
    remote_identity_public s1 = remote_identity_public (p_state y) /\
    (pkt_received e = true -> s1 = p_state y).
Proof.
  intros (Hs & Hxy & Hyx) Hmade Hplace Hdel. cbn [net_x net_y to_x to_y] in *.
  unfold in_window in Hdel. rewrite (made_header _ _ _ _ Hmade) in Hdel. unfold placed in Hplace.
  destruct (session_state_find_receiver_chain (p_state y) k) as [c|] eqn:Ef.
  - destruct Hplace as (ckb & Hi & Hloc). pose proof (proj1 Hi) as Hck. rewrite Hck in Hdel.
    exists (p_rng y), (p_state y), c, ckb. split_and!; try done.
    apply get_or_create_chain_key_known. unfold session_state_get_receiver_chain_key. by rewrite Ef.
  - destruct Hdel as (Hpk & Hroom & new & g' & Hg & Hfn & Hfresh).
    destruct (session_state_get_sender_ratchet_key_pair (p_state x)) as [pa|] eqn:Hpa; [|done].
    cbn in Hpk. injection Hpk as <-.
    destruct (Hplace pa eq_refl eq_refl) as (Hrec & pb' & root' & secret' & E1 & E2 & E3 & Hfront).
    assert (synced (p_state x) (p_state y)) as Hsync.
    { destruct Hs as [Hs|(_ & _ & (kp & c & ckb & ck' & Hkp & _ & _ & _ & Hf & _))]; [done|].
      cbn [fst snd] in *. congruence. }
    destruct (dh_step _ _ _ _ _ Hsync Hg Hfn) as (pa' & pb & root & secret & s1 & Hpa' & Hva & Hpb & Hr & Hrw &
      Hag & _ & Hrun & Hkp1 & Hl1 & Hr1 & Hf1 & Hother & Hs1).
    rewrite Hpa in Hpa'. injection Hpa' as <-.
    assert (pb' = pb /\ root' = root) as [-> ->] by (split; congruence).
    assert (secret' = secret) as -> by congruence.
    exists g', s1, (mk_receiver_chain (Some (public_key pa)) (Some (root_step root secret).2) []),
      (root_step root secret).2.
    split_and!; [done| |done|by repeat constructor|by left| |done|done|].
    + split_and!; cbn [net_x net_y to_x to_y p_state]; [by right| |by eapply soup_dh_from].
      by apply (soup_dh_to (p_state x) (p_state y) s1 pa pb root secret).
    + cbn. lia.
    + intros Ht. congruence.
Qed.

(* ------------------------------------------------------------------ *)
(** ** Receiving a packet of a known chain *)

Lemma header_mark i e xy :
  xy !! i = Some e -> map header_of (<[i := mark e]> xy) = map header_of xy.
Proof.
  intros Hi. change (header_of <$> <[i := mark e]> xy = header_of <$> xy).
  rewrite list_fmap_insert. apply list_insert_id. by rewrite list_lookup_fmap, Hi.
Qed.

Lemma soup_receive_to x s1 s2 xy i e k ck c ckb c' ckb' :
  soup_ok x s1 xy -> xy !! i = Some e -> made_at x e k ck -> only_chain k s1 s2 ->
  session_state_find_receiver_chain s1 k = Some c -> chain_inv c ckb ->
  session_state_find_receiver_chain s2 k = Some c' -> chain_inv c' ckb' -> located c' ckb' ck true ->
  (forall ck' b, ck_index ck' <> ck_index ck -> located c ckb ck' b -> located c' ckb' ck' b) ->
  soup_ok x (clear s2) (<[i := mark e]> xy).
Proof.
  intros [Hp Hh Hc] Hi Hmade Hoc Hf Hci Hf' Hci' Hloc Hothers.
  split; [|by rewrite (header_mark i e xy Hi)..].
  apply Forall_lookup. intros j e' [(<- & <- & _)|(Hji & Hj)]%list_lookup_insert_Some.
  - exists k, ck. split; [destruct Hmade; by split|]. unfold placed.
    change (session_state_find_receiver_chain (clear s2) k) with (session_state_find_receiver_chain s2 k).
    rewrite Hf'. by exists ckb'.
  - destruct (proj1 (Forall_lookup _ _) Hp j e' Hj) as (k' & ck' & Hmade' & Hplace').
    exists k', ck'. split; [done|]. unfold placed in *.
    change (session_state_find_receiver_chain (clear s2) k') with (session_state_find_receiver_chain s2 k').
    destruct (decide (k' = k)) as [->|Hne].
    + rewrite Hf'. exists ckb'. split; [done|]. rewrite Hf in Hplace'.
      destruct Hplace' as (ckb0 & Hci0 & Hloc0).
      assert (ckb0 = ckb) as -> by (destruct Hci0 as [Hci0 _], Hci as [Hci _]; congruence).
      apply Hothers; [|done]. intros E. apply Hji.
      eapply NoDup_lookup; [exact Hh|rewrite list_lookup_fmap, Hi; cbn; by rewrite (made_header _ _ _ _ Hmade)|].
      rewrite list_lookup_fmap, Hj. cbn. rewrite (made_header _ _ _ _ Hmade'). congruence.
    + rewrite (oc_other _ _ _ Hoc) by (done || apply Hmade').
      pose proof (oc_receivers _ _ _ Hoc) as Hrec. red in Hrec.
      destruct (session_state_find_receiver_chain s1 k'); [done|]. rewrite Hrec. exact Hplace'.
Qed.

Lemma soup_receive_from x s1 s2 yx :
  only_receivers s1 s2 -> soup_ok s1 x yx -> soup_ok (clear s2) x yx.
Proof.
  intros Hrec [Hp Hh Hc]. red in Hrec. rewrite Hrec. split; [|done|exact Hc].
  by eapply packets_frame; [..|exact Hp].
Qed.

Lemma conv_synced_receive x g s1 s2 k c ckb c' ckb' :
  conv_synced (x, mk_party g s1) -> pub_wf k -> only_chain k s1 s2 -> state_wf s2 ->
  session_state_find_receiver_chain s1 k = Some c -> chain_inv c ckb ->
  session_state_find_receiver_chain s2 k = Some c' -> chain_inv c' ckb' ->
  (forall kp ck, session_state_get_sender_ratchet_key_pair (p_state x) = Some kp -> public_key kp = k ->
    session_state_get_sender_chain_key (p_state x) = Some ck -> in_front ckb ck -> in_front ckb' ck) ->
  conv_synced (x, mk_party g (clear s2)).
Proof.
  intros [Hs|Hs] Hk Hoc Hw Hf Hci Hf' Hci' Hlater.
  - left. by eapply synced_receive_old.
  - right. by eapply synced_receive_known.
Qed.

(** The receiver derives the keys of a packet that is ahead of its chain or was
    skipped, and everything else stays in place. *)
Lemma receive_inv x g1 s1 xy yx i e k ck c ckb :
  net_inv (mk_network x (mk_party g1 s1) xy yx) -> xy !! i = Some e ->
  made_at (p_state x) e k ck ->
  session_state_find_receiver_chain s1 k = Some c -> chain_inv c ckb -> located c ckb ck false ->
  Z.of_nat (length (rc_message_keys c)) + (ck_index ck - ck_index ckb) <= MAX_SKIP ->
  exists s2, session_cipher_get_or_create_message_keys k ckb (ck_index ck) s1 =
      (Ok (chain_message_keys ck), s2) /\
    only_receivers s1 s2 /\
    net_inv (mk_network x (mk_party g1 (clear s2)) (<[i := mark e]> xy) yx).
Proof.
  intros (Hs & Hxy & Hyx) Hi Hmade Hf Hci Hloc Hroom. cbn [net_x net_y to_x to_y p_state] in *.
  pose proof (conv_synced_paired _ _ Hs) as Hpair. cbn [p_state] in Hpair.
  pose proof (p_wf_b _ _ Hpair) as Hw. pose proof Hmade as [Hk [Hckw Hlt] _].
  destruct (receive_located s1 k c ckb ck) as (s2 & c' & ckb' & Hrun & Hf' & Hci' & Hloc' & Hothers & Hlater);
    [done|by eapply find_receiver_chain_wf|done..|].
  pose proof (get_or_create_message_keys_frame k ckb (ck_index ck) s1 Hk) as Hoc.
  pose proof (get_or_create_message_keys_wf k ckb (ck_index ck) (chain_inv_wf _ _ _ _ Hw Hf Hci) s1 Hw) as Hw2.
  rewrite Hrun in Hoc, Hw2. cbn [snd] in Hoc, Hw2.
  exists s2. split_and!; [done|apply Hoc|]. split_and!; cbn [net_x net_y to_x to_y p_state].
  - eapply (conv_synced_receive x g1 s1 s2 k c ckb c' ckb'); try done.
    intros kp ckx Hkp Ek Hckx Hfront. apply Hlater; [|done].
    assert (ck_index ck < next_counter (p_state x)) as Hn.
    { apply (soup_counters _ _ _ Hxy k); [|by rewrite Hkp, <- Ek].
      rewrite <- (made_header _ _ _ _ Hmade). apply list_elem_of_fmap_2. by eapply list_elem_of_lookup_2. }
    unfold next_counter in Hn. by rewrite Hckx in Hn.
  - by eapply (soup_receive_to (p_state x) s1 s2 xy i e k ck c ckb c' ckb').
  - eapply soup_receive_from; [apply Hoc|done].
Qed.

(** A packet in the window decrypts to what was encrypted, the first time; a
    second delivery is refused as a duplicate. *)
Lemma deliver_inv x y xy yx i e :
  net_inv (mk_network x y xy yx) -> xy !! i = Some e -> in_window (p_state x) y yx e ->
  exists y', receive (pkt_out e) y = (outcome e, y') /\
    net_inv (mk_network x y' (<[i := mark e]> xy) yx).
Proof.
  intros Hinv Hi Hdel. pose proof Hinv as (Hs & Hxy & _). cbn [net_x net_y to_x to_y] in *.
  pose proof (conv_synced_paired _ _ Hs) as Hp.
  destruct (proj1 (Forall_lookup _ _) (soup_packets _ _ _ Hxy) i e Hi) as (k & ck & Hmade & Hplace).
  destruct (chain_key_step x y xy yx e k ck Hinv Hmade Hplace Hdel) as (g1 & s1 & c & ckb & Hget & Hinv1 & Hf &
    Hci & Hloc & Hroom & Hl1 & Hr1 & Hsame).
  pose proof (made_message _ _ _ _ Hmade) as (local & remote & ct & m & pn & Hl & Hr & Hct & Hm & Ht).
  unfold receive, outcome, bind, lift. rewrite Ht. destruct (pkt_received e) eqn:Erec.
  - specialize (Hsame eq_refl). subst s1.
    pose proof (receive_again _ k c ckb ck Hf Hci Hloc) as Hdup. pose proof Hm as Em%signal_message_create_inv.
    rewrite (decrypt_error m (p_rng y) (p_state y) k ckb g1 (p_state y) (p_state y) SG_ERR_DUPLICATE_MESSAGE);
      try (by rewrite Em); try done; [|apply Hp..].
    exists (mk_party g1 (p_state y)). split; [done|].
    assert (mark e = e) as -> by (destruct e; cbn in *; by subst).
    by rewrite list_insert_id.
  - destruct (receive_inv x g1 s1 xy yx i e k ck c ckb) as (s2 & Hrun & Hrec & Hinv2); try done.
    destruct (p_local _ _ Hp) as (ia & Hla & Hrb), (p_remote _ _ Hp) as (ib & Hra & Hlb).
    exists (mk_party g1 (clear s2)). split; [|done].
    rewrite (decrypt_ok m (p_rng y) (p_state y) k ckb g1 s1 s2 ck (pkt_plaintext e) ct local remote pn);
      try done; [apply Hp|apply Hp|congruence|congruence].
Qed.

(* ------------------------------------------------------------------ *)
(** ** Reachable networks *)

Lemma half_step_inv c l c' :
  net_inv c -> half_step c l c' ->
  net_inv c' /\ (forall e r, l = Some (e, r) -> r = outcome e).
Proof.
  intros Hinv Hstep. destruct Hstep as [x y xy yx pt out s' He Hn|x y xy yx i e r y' Hi Hdel Hrec
    |x y xy yx out r y' Hrec Hfail].
  - split; [|done]. destruct Hinv as (Hs & Hxy & Hyx). cbn [net_x net_y to_x to_y] in *.
    destruct (soup_send x y xy pt out s' Hs Hxy He Hn) as (H1 & H2 & H3).
    split_and!; [exact H2|exact H1|by apply H3].
  - destruct (deliver_inv x y xy yx i e Hinv Hi Hdel) as (y2 & E & Hinv').
    rewrite E in Hrec. injection Hrec as <- <-. split; [done|]. by intros ? ? [= <- <-].
  - split; [|done]. assert (p_state y' = p_state y) as Hy.
    { unfold receive in Hrec.
      destruct (bind _ _ _) as [[pt|err|] [g s]]; injection Hrec as <- <-; [by destruct (Hfail pt)|done..]. }
    destruct Hinv as (Hs & Hxy & Hyx). cbn [net_x net_y to_x to_y] in *.
    unfold net_inv, conv_synced in *. cbn [net_x net_y to_x to_y fst snd] in *. by rewrite Hy.
Qed.

Lemma net_step_inv c l c' :
  net_inv c -> net_step c l c' -> net_inv c' /\ (forall e r, l = Some (e, r) -> r = outcome e).
Proof.
  intros Hinv [Hs|Hs]; [by eapply half_step_inv|].
  destruct (half_step_inv _ _ _ (net_inv_swap c Hinv) Hs) as [H1 H2].
  split; [|done]. apply net_inv_swap in H1. by destruct c'.
Qed.

Lemma net_reachable_inv c0 c : net_inv c0 -> net_reachable c0 c -> net_inv c.
Proof. intros H0 Hr. induction Hr as [|c l c' Hr IH Hs]; [done|]. by eapply net_step_inv in Hs as [? _]. Qed.

(** Two parties in step, with nothing on the way. *)
Lemma net_start c : conv_synced (net_x c, net_y c) -> to_y c = [] -> to_x c = [] -> net_inv c.
Proof. intros Hs Hy Hx. unfold net_inv. rewrite Hy, Hx. split_and!; [done|apply soup_empty..]. Qed.

Lemma net_initial_inv k c : x3dh_valid k -> net_initial k c -> net_inv c.
Proof.
  intros Hk (Hy & Hx & (g & Ha) & Hb). apply net_start; [|done|done]. left. by eapply x3dh_synced.
Qed.

Lemma net_reachable_swap c0 c : net_reachable c0 c -> net_reachable (net_swap c0) (net_swap c).
Proof.
  induction 1 as [|c l c' Hr IH [Hs|Hs]]; [constructor|eapply reach_step; [exact IH|]..].
  - apply step_back. by destruct c, c'.
  - by apply step_forth.
Qed.

End invariant.

(* ------------------------------------------------------------------ *)
(** ** Through the stores *)

Section stores.
Context `{CP : CryptoProvider} {CL : CryptoProviderLaws CP}.
Context `{CV : Curve25519} {CVL : Curve25519Laws CV}.
Context {ST : SignalStore} {SL : SignalStoreLaws ST}.
Context {SC : Codec SessionStructure} {SCL : CodecLaws SessionStructure SC SessionStructure_ok}.
Context {RC : Codec RecordStructure} {RCL : CodecLaws RecordStructure RC RecordStructure_ok}.
Context {MC : Codec SignalMessage} {MCL : CodecLaws SignalMessage MC SignalMessage_ok}.
Context {PC : Codec PreKeySignalMessage} {PCL : CodecLaws PreKeySignalMessage PC PreKeySignalMessage_ok}.
Context {PK : Codec PreKeyRecordStructure} {SPK : Codec SignedPreKeyRecordStructure}.

Abbreviation decrypt_state := session_cipher_decrypt_from_state_and_signal_message.
Abbreviation decrypt_record := session_cipher_decrypt_from_record_and_signal_message.

(** The application of a party: its store holds the record [r] for the contact
    [a], whose current state is the one of the party. *)
Record represents (w : world) (a : signal_protocol_address) (r : session_record) (p : party) : Prop := {
  rep_holds : holds w a r;
  rep_state : rec_state r = Some (p_state p);
  rep_rng : w_rng w = p_rng p;
  rep_outside : inside_callback w = false
}.

(** What an application does with the bytes of a message: it parses them and
    calls the entry point for the type of the message. *)
Definition api_receive (a : signal_protocol_address) (out : ciphertext_message) : M world bytes :=
  match out with
  | CIPHERTEXT_SIGNAL_TYPE m =>
      do data <- lift (deref (msg_serialized m));
      do m' <- lift (signal_message_deserialize data);
      session_cipher_decrypt_signal_message a None m'
  | CIPHERTEXT_PREKEY_TYPE p =>
      do data <- lift (deref (pkm_serialized p));
      do p' <- lift (pre_key_signal_message_deserialize data);
      session_cipher_decrypt_pre_key_signal_message a None p'
  end.

(** A pre-key message that belongs to a session of the record and comes under
    the identity that is saved, if any. *)
Definition acquainted (w : world) (a : signal_protocol_address) (r : session_record)
    (out : ciphertext_message) : Prop :=
  match out with
  | CIPHERTEXT_SIGNAL_TYPE _ => True
  | CIPHERTEXT_PREKEY_TYPE p =>
      forall data p', pkm_serialized p = Some data -> pre_key_signal_message_deserialize data = Ok p' ->
      session_record_has_session_state r (pkm_version p') (pkm_base_key p') = Ok true /\
      exists key, pkm_identity_key p' = Some key /\
        (v_trusted (view (w_store w)) !! a = None \/ v_trusted (view (w_store w)) !! a = Some (ser key))
  end.

Lemma receive_run out m y r y' :
  transmit out = Ok m -> receive out y = (r, y') ->
  exists s, decrypt_state m (p_rng y, p_state y) = (r, (p_rng y', s)) /\
    p_state y' = match r with Ok _ => s | _ => p_state y end.
Proof.
  intros Ht. unfold receive, bind, lift. rewrite Ht.
  destruct (decrypt_state m (p_rng y, p_state y)) as [[pt|e|] [g s]]; intros [= <- <-]; by exists s.
Qed.

Lemma set_same_state s r : rec_state r = Some s -> session_record_set_state s r = r.
Proof. destruct r. cbn. by intros ->. Qed.

(** A decryption by the current state of a record. *)
Lemma decrypt_record_run m g r s res g' s' :
  rec_state r = Some s -> state_storable s -> decrypt_state m (g, s) = (res, (g', s')) ->
  res <> Err SG_ERR_INVALID_MESSAGE ->
  decrypt_record m (g, r) =
    (res, (g', session_record_set_state (match res with Ok _ => s' | _ => s end) r)).
Proof.
  intros Hr Hs Hd Hne. destruct res as [pt|e|].
  - by apply (decrypt_record_current m g r s pt g' s').
  - unfold session_cipher_decrypt_from_record_and_signal_message.
    unfold bind, on_snd, on_fst, zoom, get, session_record_get_state. cbn [fst snd]. rewrite Hr.
    rewrite decrypt_attempt_storable by done. cbn [fst snd]. rewrite Hd. cbn [fst snd].
    rewrite (proj2 (Z.eqb_neq _ _)) by congruence. by rewrite set_same_state.
  - unfold session_cipher_decrypt_from_record_and_signal_message.
    unfold bind, on_snd, on_fst, zoom, get, session_record_get_state. cbn [fst snd]. rewrite Hr.
    rewrite decrypt_attempt_storable by done. cbn [fst snd]. rewrite Hd. by rewrite set_same_state.
Qed.

(** The end of both entry points: the decrypted record is stored, or nothing is. *)
Lemma store_outcome st g a r s res s' :
  holds (mk_world g st false) a r -> rec_state r = Some s -> state_storable s' ->
  let r' := session_record_set_state (match res : result bytes with Ok _ => s' | _ => s end) r in
  exists st', (match res with
               | Ok _ => signal_protocol_session_store_session a r' st
               | _ => (Ok 0, st)
               end) = (Ok 0, st') /\
    forall g, holds (mk_world g st' false) a r'.
Proof.
  intros Hh Hr Hs' r'. pose proof Hh as (Hf & Hst & _). destruct res as [pt|e|]; unfold r'.
  2, 3: exists st; split; [done|]; intros g'; rewrite set_same_state by done; exact Hh.
  destruct (store_held st a (session_record_set_state s' r)) as (st' & Es & _ & Hh');
    [by apply record_set_state_wf|]. exists st'. split; [done|]. intros g'. specialize (Hh' g' false).
  cbn [session_record_set_state rec_state previous_states user_record] in Hh'.
  unfold session_record_set_state. by rewrite Hf.
Qed.

(** Receiving a message of an established session through the store. *)
Lemma signal_message_held w a r y m res y' s' :
  represents w a r y -> opt_all pub_wf (sm_sender_ratchet_key m) ->
  decrypt_state m (p_rng y, p_state y) = (res, (p_rng y', s')) ->
  p_state y' = match res with Ok _ => s' | _ => p_state y end ->
  res <> Err SG_ERR_INVALID_MESSAGE ->
  exists w', session_cipher_decrypt_signal_message a None m w = (res, w') /\
    represents w' a (session_record_set_state (p_state y') r) y'.
Proof.
  intros [Hh Hr Hg Hin] Hk Hd Ey Hne. pose proof Hh as (_ & Hst & _).
  destruct (contains_held w a r Hh) as (s0 & Ec & Hv0).
  destruct (load_held (mk_world (w_rng w) s0 (inside_callback w)) a r) as (s1 & El & Hv1);
    [by apply (holds_view w)|]. cbn [w_store] in El, Hv1.
  assert (state_storable (p_state y)) as Hs.
  { destruct Hst as [(c & Hc & Hcs) _ _]. congruence. }
  assert (state_storable s') as Hs'.
  { pose proof (decrypt_from_state_good (session_version (p_state y)) m Hk (p_rng y, p_state y)
      (storable_good _ Hs)) as H. rewrite Hd in H. by eapply good_storable. }
  assert (holds (mk_world (p_rng y) s1 false) a r) as Hh1.
  { apply (holds_view w); [|done]. cbn [w_store]. by rewrite Hv1. }
  destruct (store_outcome s1 (p_rng y) a r (p_state y) res s' Hh1 Hr Hs') as (s2 & Es & Hh2).
  unfold session_cipher_decrypt_signal_message.
  unfold bind, get, in_store, in_rng, zoom, lift, ret. rewrite Hin, Ec.
  cbn [Z.eqb Pos.eqb w_store w_rng inside_callback]. rewrite El. cbn [w_store w_rng inside_callback].
  unfold local. rewrite Hg, (decrypt_record_run m (p_rng y) r (p_state y) res (p_rng y') s' Hr Hs Hd Hne).
  rewrite <- Ey in *. destruct res as [pt|e|]; cbn [rmap rbind session_cipher_decrypt_callback]; unfold ret;
    cbn [w_store w_rng inside_callback].
  - rewrite Es. eexists. split; [done|]. split; [exact (Hh2 (p_rng y'))|done|done|exact Hin].
  - injection Es as <-. eexists. split; [done|]. split; [exact (Hh2 (p_rng y'))|done|done|exact Hin].
  - injection Es as <-. eexists. split; [done|]. split; [exact (Hh2 (p_rng y'))|done|done|exact Hin].
Qed.

(** Receiving a pre-key message of a session the record already has. *)
Lemma pre_key_message_held w a r y pm m res y' s' :
  represents w a r y -> pkm_message pm = Some m -> opt_all pub_wf (sm_sender_ratchet_key m) ->
  session_record_has_session_state r (pkm_version pm) (pkm_base_key pm) = Ok true ->
  (exists key, pkm_identity_key pm = Some key /\
    (v_trusted (view (w_store w)) !! a = None \/ v_trusted (view (w_store w)) !! a = Some (ser key))) ->
  decrypt_state m (p_rng y, p_state y) = (res, (p_rng y', s')) ->
  p_state y' = match res with Ok _ => s' | _ => p_state y end ->
  res <> Err SG_ERR_INVALID_MESSAGE ->
  exists w', session_cipher_decrypt_pre_key_signal_message a None pm w = (res, w') /\
    represents w' a (session_record_set_state (p_state y') r) y'.
Proof.
  intros [Hh Hr Hg Hin] Hm Hk Hhas (key & Hkey & Htr) Hd Ey Hne. pose proof Hh as (_ & Hst & _).
  destruct (load_held w a r Hh) as (s1 & El & Hv1).
  assert (state_storable (p_state y)) as Hs.
  { destruct Hst as [(c & Hc & Hcs) _ _]. congruence. }
  assert (state_storable s') as Hs'.
  { pose proof (decrypt_from_state_good (session_version (p_state y)) m Hk (p_rng y, p_state y)
      (storable_good _ Hs)) as H. rewrite Hd in H. by eapply good_storable. }
  destruct (is_trusted_spec a (ser key) s1) as (s2 & Et & Hv2).
  assert ((view_is_trusted a (ser key) (view s1)).1 = Ok 1) as Ht1.
  { unfold view_is_trusted. cbn [fst]. rewrite Hv1. destruct Htr as [->| ->]; [done|].
    by rewrite decide_True. }
  rewrite Ht1 in Et.
  destruct (save_identity_run s2 a key) as (s3 & Esave & Hv3).
  assert (holds (mk_world (p_rng y) s3 false) a r) as Hh3.
  { destruct Hh as (H1 & H2 & data & H3 & H4). split_and!; [done|done|]. exists data. split; [|done].
    cbn [w_store]. rewrite Hv3, Hv2. cbn. by rewrite Hv1. }
  destruct (store_outcome s3 (p_rng y) a r (p_state y) res s' Hh3 Hr Hs') as (s4 & Es & Hh4).
  unfold session_cipher_decrypt_pre_key_signal_message, session_builder_process_pre_key_signal_message,
    session_builder_process_pre_key_signal_message_v3.
  unfold bind, get, in_store, in_rng, zoom, lift, ret, local. rewrite Hin, El, Hkey.
  cbn [w_store w_rng inside_callback]. unfold on_fst, on_snd, zoom. cbn [fst snd].
  assert (signal_protocol_identity_is_trusted_identity a (Some key) s1 = (Ok 1, s2)) as -> by exact Et.
  cbn [Z.eqb fst snd]. rewrite Hhas. cbn [fst snd]. rewrite Esave. cbn [rmap rbind fst snd w_store w_rng inside_callback].
  rewrite Hm. cbn [deref].
  rewrite Hg, (decrypt_record_run m (p_rng y) r (p_state y) res (p_rng y') s' Hr Hs Hd Hne).
  rewrite <- Ey in *. destruct res as [pt|e|]; cbn [rmap rbind session_cipher_decrypt_callback]; unfold ret;
    cbn [w_store w_rng inside_callback].
  - rewrite Es. eexists. split; [done|]. split; [exact (Hh4 (p_rng y'))|done|done|exact Hin].
  - injection Es as <-. eexists. split; [done|]. split; [exact (Hh4 (p_rng y'))|done|done|exact Hin].
  - injection Es as <-. eexists. split; [done|]. split; [exact (Hh4 (p_rng y'))|done|done|exact Hin].
Qed.

(** Whatever the type of the message, the application gets what the network
    model says. *)
Lemma api_receive_held w a r y out m res y' :
  represents w a r y -> transmit out = Ok m -> opt_all pub_wf (sm_sender_ratchet_key m) ->
  acquainted w a r out -> receive out y = (res, y') -> res <> Err SG_ERR_INVALID_MESSAGE ->
  exists w', api_receive a out w = (res, w') /\
    represents w' a (session_record_set_state (p_state y') r) y'.
Proof.
  intros Hrep Ht Hk Hacq Hrec Hne. destruct (receive_run out m y res y' Ht Hrec) as (s' & Hd & Ey).
  destruct out as [sm|pm]; cbn [api_receive transmit] in *.
  - destruct (msg_serialized sm) as [data|]; [|done]. cbn [deref rbind] in *.
    destruct (signal_message_held w a r y m res y' s') as (w' & E & Hrep'); try done.
    exists w'. split; [|done]. unfold bind, lift. by rewrite Ht.
  - destruct (pkm_serialized pm) as [data|] eqn:Edata; [|done]. cbn [deref rbind] in *.
    destruct (pre_key_signal_message_deserialize data) as [p'| |] eqn:Ep; [|done|done]. cbn [rbind] in Ht.
    destruct (pkm_message p') as [inner|] eqn:Em; [|done]. cbn [deref] in Ht. injection Ht as ->.
    destruct (Hacq data p' Edata Ep) as [Hhas Hkey].
    destruct (pre_key_message_held w a r y p' m res y' s') as (w' & E & Hrep'); try done.
    exists w'. split; [|done]. unfold bind, lift. by rewrite Ep.
Qed.

(** Encrypting through the store is a step of the network. *)
Lemma store_send c wx ay rx pt out s' :
  represents wx ay rx (net_x c) -> encrypt_with_state pt (p_state (net_x c)) = (Ok out, s') ->
  next_counter (p_state (net_x c)) + 1 < 2 ^ 32 ->
  exists wx' c', session_cipher_encrypt ay pt wx = (Ok out, wx') /\ net_step c None c' /\
    represents wx' ay (session_record_set_state s' rx) (net_x c') /\ net_y c' = net_y c /\
    to_y c' = to_y c ++ [mk_packet out pt false] /\ to_x c' = to_x c.
Proof.
  intros [Hh Hr Hg Hin] He Hn. destruct c as [x y xy yx]. cbn [net_x net_y to_x to_y] in *.
  destruct (encrypt_held wx ay rx (p_state x) pt out s' Hh Hr Hin He) as (wx' & E & Hg' & Hin' & Hh').
  exists wx'. eexists. split_and!; [done|by apply step_forth, net_send|..|done|done|done].
  split; [done|done|by rewrite Hg'|done].
Qed.

(** So is handing a packet in the window to the application of its receiver. *)
Lemma store_deliver c wy ax ry i e :
  net_inv c -> represents wy ax ry (net_y c) -> to_y c !! i = Some e ->
  in_window (p_state (net_x c)) (net_y c) (to_x c) e -> acquainted wy ax ry (pkt_out e) ->
  exists wy' c', api_receive ax (pkt_out e) wy = (outcome e, wy') /\
    net_step c (Some (e, outcome e)) c' /\
    represents wy' ax (session_record_set_state (p_state (net_y c')) ry) (net_y c') /\
    net_x c' = net_x c /\ to_y c' = <[i := mark e]> (to_y c) /\ to_x c' = to_x c.
Proof.
  intros Hinv Hrep Hi Hdel Hacq. destruct c as [x y xy yx]. cbn [net_x net_y to_x to_y] in *.
  destruct (deliver_inv x y xy yx i e Hinv Hi Hdel) as (y' & Hrec & _).
  destruct Hinv as (_ & Hxy & _). cbn [net_x net_y to_x to_y] in Hxy.
  destruct (proj1 (Forall_lookup _ _) (soup_packets _ _ _ Hxy) i e Hi) as (k & ck & Hmade & _).
  pose proof Hmade as [Hk _ (local & remote & ct & m & pn & _ & _ & _ & Hm & Ht)].
  destruct (api_receive_held wy ax ry y (pkt_out e) m (outcome e) y' Hrep Ht) as (wy' & E & Hrep'); try done.
  - apply signal_message_create_inv in Hm as ->. exact Hk.
  - unfold outcome. by case_match.
  - exists wy'. eexists. split_and!; [done|apply step_forth; by apply net_deliver|done|done|done|done].
Qed.

End stores.
