(* ===== verification/KeyHelper.v ===== *)
(** [key_helper.c]: generation of identity keys, registration ids, pre-keys and
    sender keys from the random source.

    Random integers are read as the platforms of the module store them, the
    least significant byte first. *)

From S2P Require Import Prelude Buffers Crypto Hkdf Curve Ratchet LocalStorage SessionPreKey.

Definition INT32_MAX : Z := 2 ^ 31 - 1.

Section helper.
Context `{CP : CryptoProvider} `{CV : Curve25519}.

Definition signal_protocol_key_helper_generate_identity_key_pair : M rng ratchet_identity_key_pair :=
  do ec_pair <- curve_generate_key_pair;
  lift (ratchet_identity_key_pair_create (ec_key_pair_get_public ec_pair)
          (ec_key_pair_get_private ec_pair)).

Definition signal_protocol_key_helper_generate_registration_id (extended_range : Z) : M rng Z :=
  do range <- (if extended_range =? 0 then ret 16380
               else if extended_range =? 1 then ret (INT32_MAX - 1)
               else fail SG_ERR_INVAL);
  do data <- random_func 4;
  ret (u32 (le_val data mod range + 1)).

(** The remainder by a null bound is undefined; C's remainder has the sign of
    the dividend. *)
Definition signal_protocol_key_helper_get_random_sequence (max : Z) : M rng Z :=
  do data <- random_func 4;
  if max =? 0 then stuck
  else ret (Z.rem (Z.land (i32 (le_val data)) (2 ^ 31 - 1)) max).

(** The id of the [i]-th generated pre-key, in 32-bit arithmetic. *)
Definition generated_pre_key_id (start i : Z) : Z :=
  u32 (u32 (start - 1) + i) mod (PRE_KEY_MEDIUM_MAX_VALUE - 1) + 1.

(** The loop from [i] on, for [n] more keys. *)
Fixpoint generate_pre_keys_loop (start i : Z) (n : nat) : M rng (list session_pre_key) :=
  match n with
  | O => ret []
  | S n' =>
      do ec_pair <- curve_generate_key_pair;
      do pre_key <- lift (session_pre_key_create (generated_pre_key_id start i) (Some ec_pair));
      do rest <- generate_pre_keys_loop start (i + 1) n';
      ret (pre_key :: rest)
  end.

Definition signal_protocol_key_helper_generate_pre_keys (start : Z) (count : nat)
    : M rng (list session_pre_key) := generate_pre_keys_loop start 0 count.

Definition signal_protocol_key_helper_generate_signed_pre_key
    (identity_key_pair : ratchet_identity_key_pair) (signed_pre_key_id timestamp : Z)
    : M rng session_signed_pre_key :=
  do ec_pair <- curve_generate_key_pair;
  do public_buf <- lift (ec_public_key_serialize (Some (ec_key_pair_get_public ec_pair)));
  do signature_buf <- curve_calculate_signature (id_private identity_key_pair) public_buf;
  lift (session_signed_pre_key_create signed_pre_key_id timestamp (Some ec_pair) (Some signature_buf)).

Definition signal_protocol_key_helper_generate_sender_signing_key : M rng ec_key_pair :=
  curve_generate_key_pair.

Definition signal_protocol_key_helper_generate_sender_key : M rng bytes := random_func 32.

Definition signal_protocol_key_helper_generate_sender_key_id : M rng Z :=
  do value <- signal_protocol_key_helper_get_random_sequence INT32_MAX;
  ret (u32 value).

End helper.

(* ------------------------------------------------------------------ *)
(** ** Ranges *)

Lemma generated_pre_key_id_range start i :
  1 <= generated_pre_key_id start i < PRE_KEY_MEDIUM_MAX_VALUE.
Proof.
  unfold generated_pre_key_id, PRE_KEY_MEDIUM_MAX_VALUE.
  pose proof (Z.mod_pos_bound (u32 (u32 (start - 1) + i)) (16777215 - 1) ltac:(lia)). lia.
Qed.

(** Without wrap-around of the 32-bit sum the ids count up from the start, modulo
    0xFFFFFE. *)
Lemma generated_pre_key_id_step start i :
  1 <= start -> 0 <= i -> start - 1 + i < 2 ^ 32 ->
  generated_pre_key_id start i = (start - 1 + i) mod (PRE_KEY_MEDIUM_MAX_VALUE - 1) + 1.
Proof.
  unfold generated_pre_key_id. intros Hs Hi Hlt.
  rewrite (u32_id (start - 1)) by (unfold is_u32; lia).
  by rewrite u32_id by (unfold is_u32; lia).
Qed.

Lemma generated_pre_key_id_inj start i j :
  1 <= start -> 0 <= i < PRE_KEY_MEDIUM_MAX_VALUE - 1 -> 0 <= j < PRE_KEY_MEDIUM_MAX_VALUE - 1 ->
  start - 1 + i < 2 ^ 32 -> start - 1 + j < 2 ^ 32 ->
  generated_pre_key_id start i = generated_pre_key_id start j -> i = j.
Proof.
  intros Hs Hi Hj Hi' Hj'. rewrite !generated_pre_key_id_step by lia.
  unfold PRE_KEY_MEDIUM_MAX_VALUE in *. intros E.
  pose proof (Z.div_mod (start - 1 + i) (16777215 - 1) ltac:(lia)) as H1.
  pose proof (Z.div_mod (start - 1 + j) (16777215 - 1) ltac:(lia)) as H2. nia.
Qed.

Section ranges.
Context `{CP : CryptoProvider} {CL : CryptoProviderLaws CP}.
Context `{CV : Curve25519} {CVL : Curve25519Laws CV}.

Lemma generate_pre_keys_loop_ok start n : forall i g l g',
  generate_pre_keys_loop start i n g = (Ok l, g') ->
  map pk_id l = map (fun k => generated_pre_key_id start (i + Z.of_nat k)) (seq 0 n) /\
  Forall (fun k => valid_pair (pk_key_pair k)) l.
Proof.
  induction n as [|n IH]; intros i g l g'; cbn [generate_pre_keys_loop].
  - intros [= <- <-]. done.
  - intros (p & g1 & Hp & (k & g2 & [Hk ->]%lift_ok & (l' & g3 & Hl & Hr)%bind_ok)%bind_ok)%bind_ok.
    injection Hr as <- <-. injection Hk as <-.
    destruct (IH _ _ _ _ Hl) as [IH1 IH2]. destruct (curve_generate_key_pair_valid _ _ _ Hp) as [Hv _].
    split; [|by constructor]. simpl. rewrite Z.add_0_r, IH1. f_equal.
    rewrite <- seq_shift, map_map. apply map_ext. intros j. f_equal. lia.
Qed.

Lemma registration_id_range e g id g' :
  signal_protocol_key_helper_generate_registration_id e g = (Ok id, g') ->
  e = 0 /\ 1 <= id <= 16380 \/ e = 1 /\ 1 <= id <= INT32_MAX - 1.
Proof.
  unfold signal_protocol_key_helper_generate_registration_id, INT32_MAX.
  destruct (Z.eqb_spec e 0) as [->|]; [|destruct (Z.eqb_spec e 1) as [->|]; [|done]];
    intros (r & g1 & [= <- <-] & (d & g2 & _ & Hr)%bind_ok)%bind_ok; injection Hr as <- <-.
  - left. pose proof (Z.mod_pos_bound (le_val d) 16380 ltac:(lia)).
    rewrite u32_id by (unfold is_u32; lia). lia.
  - right. pose proof (Z.mod_pos_bound (le_val d) (2 ^ 31 - 1 - 1) ltac:(lia)).
    rewrite u32_id by (unfold is_u32; lia). lia.
Qed.

Lemma land_int32 z : 0 <= Z.land z (2 ^ 31 - 1) < 2 ^ 31.
Proof.
  change (2 ^ 31 - 1) with (Z.ones 31). rewrite Z.land_ones by lia. apply Z.mod_pos_bound. lia.
Qed.

Lemma random_sequence_range max g v g' :
  signal_protocol_key_helper_get_random_sequence max g = (Ok v, g') -> 0 < max -> 0 <= v < max.
Proof.
  unfold signal_protocol_key_helper_get_random_sequence. intros (d & g1 & _ & H)%bind_ok Hm.
  rewrite (proj2 (Z.eqb_neq max 0)) in H by lia. injection H as <- <-.
  pose proof (land_int32 (i32 (le_val d))). apply Z.rem_bound_pos; lia.
Qed.

Lemma sender_key_id_range g id g' :
  signal_protocol_key_helper_generate_sender_key_id g = (Ok id, g') -> 0 <= id < INT32_MAX.
Proof.
  unfold signal_protocol_key_helper_generate_sender_key_id.
  intros (v & g1 & Hv%random_sequence_range & H)%bind_ok; [|unfold INT32_MAX; lia].
  injection H as <- <-. unfold INT32_MAX in *. rewrite u32_id by (unfold is_u32; lia). done.
Qed.

(** A generated signed pre-key carries a signature of its public key that
    verifies under the identity key. *)
Lemma signed_pre_key_verifies {CSL : Curve25519SignatureLaws CV} i id t g k g' :
  signing_pair (mk_pair (id_public i) (id_private i)) ->
  signal_protocol_key_helper_generate_signed_pre_key i id t g = (Ok k, g') ->
  spk_id k = id /\ spk_timestamp k = t /\ valid_pair (spk_key_pair k) /\
  length (spk_signature k) = CURVE_SIGNATURE_LEN /\
  exists data, ec_public_key_serialize (Some (public_key (spk_key_pair k))) = Ok data /\
    curve_verify_signature (id_public i) data (spk_signature k) = Ok true.
Proof.
  intros Hi. unfold signal_protocol_key_helper_generate_signed_pre_key.
  intros (p & g1 & Hp & (d & g2 & [Hd ->]%lift_ok & (s & g3 & Hs & [Hk ->]%lift_ok)%bind_ok)%bind_ok)%bind_ok.
  destruct (curve_generate_key_pair_valid _ _ _ Hp) as [Hv _].
  destruct (signature_verifies _ _ _ _ _ Hi Hs) as [Hl Hver].
  unfold session_signed_pre_key_create in Hk. cbn [deref rbind] in Hk. rewrite Hl in Hk.
  simpl in Hk. injection Hk as <-. split_and!; [done..|]. exists d. done.
Qed.

End ranges.
