(* ===== verification/SenderKey.v ===== *)
(** [sender_key.c] and the state half of [sender_key_state.c]: the symmetric
    ratchet of a group sender.

    A [sender_chain_key] gives the message key of its iteration and the next
    chain key; a [sender_key_state] keeps the current chain key, the signature
    key of the sender and the message keys of the iterations that were skipped,
    at most 2000 of them. *)

From S2P Require Import Prelude Buffers Crypto Hkdf Curve Ratchet.
From Stdlib Require Strings.String.
Import (notations) Strings.String.StringSyntax.
Open Scope string_scope.
Open Scope Z_scope.

Record sender_message_key := mk_smk {
  smk_iteration : Z;
  smk_iv : bytes;
  smk_cipher_key : bytes;
  smk_seed : bytes }.

Record sender_chain_key := mk_sck {
  sck_iteration : Z;
  sck_chain_key : bytes }.

Record sender_key_state := mk_sks {
  sks_key_id : Z;
  sks_chain_key : sender_chain_key;
  sks_signature_public_key : ec_public_key;
  sks_signature_private_key : option ec_private_key;
  sks_message_keys : list sender_message_key }.

#[global] Instance sender_message_key_eq_dec : EqDecision sender_message_key.
Proof. solve_decision. Defined.
#[global] Instance sender_chain_key_eq_dec : EqDecision sender_chain_key.
Proof. solve_decision. Defined.
#[global] Instance sender_key_state_eq_dec : EqDecision sender_key_state.
Proof. solve_decision. Defined.

Definition SENDER_MAX_MESSAGE_KEYS : nat := 2000.

(** An error return that first destroys an object whose buffer fields were
    never initialised: whatever the error, the clean-up frees indeterminate
    pointers. *)
Definition destroys_uninitialised {A} (r : result A) : result A :=
  match r with Ok a => Ok a | Err _ | Stuck => Stuck end.

Section sender_key.
Context `{CP : CryptoProvider}.

Definition sender_message_key_create (iteration : Z) (seed : option bytes)
    : result sender_message_key :=
  let? seed := require SG_ERR_INVAL seed in
  destroys_uninitialised (
    let? kdf := hkdf_create 3 in
    let? derivative := hkdf_derive_secrets kdf seed (repeat x00 HASH_OUTPUT_SIZE)
                         (Some (str "WhisperGroup")) 48 in
    let? _ := ensure SG_ERR_UNKNOWN (length derivative =? 48)%nat in
    let? seed_copy := require SG_ERR_NOMEM (signal_buffer_copy seed) in
    let? iv := require SG_ERR_NOMEM (signal_buffer_create (slice 0 16 derivative)) in
    let? cipher_key := require SG_ERR_NOMEM (signal_buffer_create (slice 16 32 derivative)) in
    Ok (mk_smk iteration iv cipher_key seed_copy)).

Definition sender_chain_key_create (iteration : Z) (chain_key : option bytes)
    : result sender_chain_key :=
  let? chain_key := require SG_ERR_INVAL chain_key in
  let? copy := require SG_ERR_NOMEM (signal_buffer_copy chain_key) in
  Ok (mk_sck iteration copy).

Definition sender_chain_key_get_derivative (seed : Z) (key : bytes) : result bytes :=
  hmac_sha256 key [[u8 seed]].

Definition sender_chain_key_create_message_key (key : sender_chain_key) : result sender_message_key :=
  let? derivative := sender_chain_key_get_derivative 1 (sck_chain_key key) in
  sender_message_key_create (sck_iteration key) (Some derivative).

Definition sender_chain_key_create_next (key : sender_chain_key) : result sender_chain_key :=
  let? derivative := sender_chain_key_get_derivative 2 (sck_chain_key key) in
  sender_chain_key_create (u32 (sck_iteration key + 1)) (Some derivative).

End sender_key.

Definition sender_key_state_create (id : Z) (chain_key : option sender_chain_key)
    (signature_public_key : option ec_public_key) (signature_private_key : option ec_private_key)
    : result sender_key_state :=
  match chain_key, signature_public_key with
  | Some ck, Some pub => Ok (mk_sks id ck pub signature_private_key [])
  | _, _ => Err SG_ERR_INVAL
  end.

Definition with_sender_keys (l : list sender_message_key) (s : sender_key_state) : sender_key_state :=
  mk_sks (sks_key_id s) (sks_chain_key s) (sks_signature_public_key s)
    (sks_signature_private_key s) l.

Definition sender_key_state_set_chain_key (ck : sender_chain_key) (s : sender_key_state)
    : sender_key_state :=
  mk_sks (sks_key_id s) ck (sks_signature_public_key s) (sks_signature_private_key s)
    (sks_message_keys s).

Definition has_iteration (n : Z) (k : sender_message_key) : bool := smk_iteration k =? n.

Definition sender_key_state_has_sender_message_key (s : sender_key_state) (n : Z) : bool :=
  match find_first (has_iteration n) (sks_message_keys s) with Some _ => true | None => false end.

Definition sender_key_state_add_sender_message_key (k : sender_message_key) (s : sender_key_state)
    : sender_key_state :=
  with_sender_keys (append_bounded SENDER_MAX_MESSAGE_KEYS (sks_message_keys s) k) s.

Definition sender_key_state_remove_sender_message_key (n : Z) (s : sender_key_state)
    : option sender_message_key * sender_key_state :=
  match find_first (has_iteration n) (sks_message_keys s) with
  | Some k => (Some k, with_sender_keys (remove_first (has_iteration n) (sks_message_keys s)) s)
  | None => (None, s)
  end.

(* ------------------------------------------------------------------ *)
(** ** What the derivations compute *)

Definition sck_wf (ck : sender_chain_key) : Prop := is_u32 (sck_iteration ck) /\ fits (sck_chain_key ck).

Section spec.
Context `{CP : CryptoProvider} {CL : CryptoProviderLaws CP}.

Definition seed_message_key (n : Z) (seed : bytes) : sender_message_key :=
  let data := hkdf_spec 1 seed (repeat x00 32) (str "WhisperGroup") 48 in
  mk_smk n (slice 0 16 data) (slice 16 32 data) seed.

Definition sender_message_key_of (ck : sender_chain_key) : sender_message_key :=
  seed_message_key (sck_iteration ck) (HMAC (sck_chain_key ck) [u8 1]).

Definition sender_chain_next (ck : sender_chain_key) : sender_chain_key :=
  mk_sck (u32 (sck_iteration ck + 1)) (HMAC (sck_chain_key ck) [u8 2]).

Definition sender_chain_iter (n : nat) (ck : sender_chain_key) : sender_chain_key :=
  Nat.iter n sender_chain_next ck.

(** A stored message key is the one derived from its seed, which is what is
    written to storage. *)
Definition smk_wf (k : sender_message_key) : Prop :=
  is_u32 (smk_iteration k) /\ fits (smk_seed k) /\
  k = seed_message_key (smk_iteration k) (smk_seed k).

Definition sks_wf (s : sender_key_state) : Prop :=
  is_u32 (sks_key_id s) /\ sck_wf (sks_chain_key s) /\ pub_wf (sks_signature_public_key s) /\
  match sks_signature_private_key s with Some k => priv_wf k | None => True end /\
  Forall smk_wf (sks_message_keys s) /\ (length (sks_message_keys s) <= SENDER_MAX_MESSAGE_KEYS)%nat.

Lemma sender_message_key_create_ok n seed :
  fits seed -> sender_message_key_create n (Some seed) = Ok (seed_message_key n seed).
Proof.
  intros Hf. unfold sender_message_key_create. cbn [require rbind hkdf_create].
  change (hkdf_create 3) with (Ok (mk_hkdf 1)). cbn [rbind].
  rewrite hkdf_derive_small by (lia || (by right)). cbn [rbind iteration_start_offset].
  rewrite length_hkdf_spec. cbn [Nat.eqb ensure rbind].
  unfold signal_buffer_copy. rewrite (signal_buffer_create_fits seed) by done. cbn [require rbind].
  rewrite !signal_buffer_create_fits by
    (apply fits_small; rewrite length_slice by (rewrite length_hkdf_spec; lia); lia).
  done.
Qed.

Lemma derivative_ok n key : sender_chain_key_get_derivative n key = Ok (HMAC key [u8 n]).
Proof.
  unfold sender_chain_key_get_derivative. rewrite hmac_correct. cbn [concat]. by rewrite app_nil_r.
Qed.

Lemma HMAC_fits k m : fits (HMAC k m).
Proof. apply fits_small. rewrite HMAC_length. lia. Qed.

Lemma create_message_key_ok ck :
  sender_chain_key_create_message_key ck = Ok (sender_message_key_of ck).
Proof.
  unfold sender_chain_key_create_message_key. rewrite derivative_ok. cbn [rbind].
  by rewrite sender_message_key_create_ok by apply HMAC_fits.
Qed.

Lemma sender_chain_key_create_ok n b : fits b -> sender_chain_key_create n (Some b) = Ok (mk_sck n b).
Proof.
  intros H. unfold sender_chain_key_create, signal_buffer_copy. cbn [require rbind].
  by rewrite signal_buffer_create_fits.
Qed.

Lemma create_sender_next_ok ck : sender_chain_key_create_next ck = Ok (sender_chain_next ck).
Proof.
  unfold sender_chain_key_create_next. rewrite derivative_ok. cbn [rbind].
  by rewrite sender_chain_key_create_ok by apply HMAC_fits.
Qed.

Lemma sender_message_key_wf ck : sck_wf ck -> smk_wf (sender_message_key_of ck).
Proof. intros [H _]. split_and!; [done|apply HMAC_fits|done]. Qed.

Lemma sender_chain_next_wf ck : sck_wf (sender_chain_next ck).
Proof. split; [apply u32_range|apply HMAC_fits]. Qed.

Lemma sender_chain_iter_wf n ck : sck_wf ck -> sck_wf (sender_chain_iter n ck).
Proof. intros H. destruct n; [done|]. apply sender_chain_next_wf. Qed.

Lemma sender_chain_iter_S n ck :
  sender_chain_iter n (sender_chain_next ck) = sender_chain_iter (S n) ck.
Proof. unfold sender_chain_iter. by rewrite <- Nat.iter_succ_r. Qed.

Lemma sender_chain_iter_add n m ck :
  sender_chain_iter n (sender_chain_iter m ck) = sender_chain_iter (n + m) ck.
Proof. unfold sender_chain_iter. by rewrite Nat.iter_add. Qed.

Lemma sender_chain_iter_iteration n ck :
  sck_wf ck -> sck_iteration (sender_chain_iter n ck) = u32 (sck_iteration ck + Z.of_nat n).
Proof.
  intros [H _]. induction n as [|n IH].
  - rewrite Z.add_0_r. symmetry. by apply u32_id.
  - change (u32 (sck_iteration (sender_chain_iter n ck) + 1) = u32 (sck_iteration ck + Z.of_nat (S n))).
    rewrite IH. unfold u32. rewrite Zplus_mod_idemp_l. f_equal. lia.
Qed.

Lemma sender_chain_iteration_lt n ck :
  sck_wf ck -> sck_iteration ck + Z.of_nat n < 2 ^ 32 ->
  sck_iteration (sender_chain_iter n ck) = sck_iteration ck + Z.of_nat n.
Proof.
  intros H Hn. rewrite sender_chain_iter_iteration by done. apply u32_id.
  destruct H as [H _]. unfold is_u32 in *. lia.
Qed.

End spec.

#[export] Hint Resolve sender_message_key_wf sender_chain_next_wf sender_chain_iter_wf HMAC_fits : sigdb.
