(* ===== verification/SenderKeyRecord.v ===== *)
(** The storage half of [sender_key_state.c], and [sender_key_record.c]: the
    sender key states known for one sender of a group, the most recent first,
    at most 5 of them. *)

From S2P Require Import Prelude Buffers Crypto Hkdf Curve Ratchet SessionState LocalStorage.
From S2P Require Import SessionSerial SenderKey.

Definition MAX_STATES : nat := 5.

Record sender_key_record := mk_skr {
  skr_states : list sender_key_state;
  skr_user_record : option bytes }.

#[global] Instance sender_key_record_eq_dec : EqDecision sender_key_record.
Proof. solve_decision. Defined.

(* ------------------------------------------------------------------ *)
(** ** The stored form of a state *)

Definition sender_key_state_serialize_prepare (s : sender_key_state) : result SenderKeyStateStructure :=
  let chain_key := mk_SenderChainKey (Some (sck_iteration (sks_chain_key s)))
                     (Some (sck_chain_key (sks_chain_key s))) in
  let? pub := ec_public_key_serialize_protobuf (sks_signature_public_key s) in
  let? priv := opt_field ec_private_key_serialize_protobuf (sks_signature_private_key s) in
  let? _ := ensure SG_ERR_NOMEM (array_fits (sks_message_keys s)) in
  let keys := map (fun k => mk_SenderMessageKey (Some (smk_iteration k)) (Some (smk_seed k)))
                (sks_message_keys s) in
  Ok (mk_SenderKeyStateStructure (Some (sks_key_id s)) (Some chain_key)
        (Some (mk_SenderSigningKey (Some pub) priv)) keys).

Section storage.
Context `{CP : CryptoProvider}.

(** The chain key of a stored state, when it is complete. *)
Definition decode_sender_chain_key (m : SenderKeyStateStructure)
    : result (option sender_chain_key) :=
  match skss_senderchainkey m with
  | Some (mk_SenderChainKey (Some n) (Some seed)) =>
      let? b := require SG_ERR_NOMEM (signal_buffer_create seed) in
      let? ck := sender_chain_key_create n (Some b) in
      Ok (Some ck)
  | _ => Ok None
  end.

(** The loop over the stored message keys; an incomplete one is skipped. *)
Fixpoint decode_sender_message_keys (l : list SenderKeyStateStructure__SenderMessageKey)
    (s : sender_key_state) : result sender_key_state :=
  match l with
  | [] => Ok s
  | mk_SenderMessageKey (Some n) (Some seed) :: l' =>
      let? b := require SG_ERR_NOMEM (signal_buffer_create seed) in
      let? k := sender_message_key_create n (Some b) in
      decode_sender_message_keys l' (sender_key_state_add_sender_message_key k s)
  | _ :: l' => decode_sender_message_keys l' s
  end.

Definition sender_key_state_deserialize_protobuf (m : SenderKeyStateStructure)
    : result sender_key_state :=
  let? chain_key := decode_sender_chain_key m in
  let? pub := match skss_sendersigningkey m with
              | Some k => opt_field curve_decode_point (SenderSigningKey_public k)
              | None => Ok None
              end in
  let? priv := match skss_sendersigningkey m with
               | Some k => opt_field curve_decode_private_point (SenderSigningKey_private k)
               | None => Ok None
               end in
  match skss_senderkeyid m, chain_key, pub with
  | Some id, Some _, Some _ =>
      let? s := sender_key_state_create id chain_key pub priv in
      decode_sender_message_keys (skss_sendermessagekeys m) s
  | _, _, _ => Err SG_ERR_INVALID_PROTO_BUF
  end.

Section state_codec.
Context `{SKSC : Codec SenderKeyStateStructure}.

Definition sender_key_state_serialize (s : sender_key_state) : result bytes :=
  let? m := sender_key_state_serialize_prepare s in packed m.

Definition sender_key_state_deserialize (data : bytes) : result sender_key_state :=
  let? m := unpacked data in sender_key_state_deserialize_protobuf m.

Definition sender_key_state_copy (s : sender_key_state) : result sender_key_state :=
  let? data := sender_key_state_serialize s in sender_key_state_deserialize data.

End state_codec.

(* ------------------------------------------------------------------ *)
(** ** The record *)

Definition sender_key_record_create : sender_key_record := mk_skr [] None.

Section record_codec.
Context `{SKRC : Codec SenderKeyRecordStructure}.

Definition sender_key_record_serialize (r : sender_key_record) : result bytes :=
  let? _ := ensure SG_ERR_NOMEM (array_fits (skr_states r)) in
  let? states := rmapM sender_key_state_serialize_prepare (skr_states r) in
  packed (mk_SenderKeyRecordStructure states).

Definition sender_key_record_deserialize (data : bytes) : result sender_key_record :=
  let? m := unpacked data in
  let? states := rmapM sender_key_state_deserialize_protobuf (skrs_senderkeystates m) in
  Ok (mk_skr states None).

Definition sender_key_record_copy (r : sender_key_record) : result sender_key_record :=
  let? data := sender_key_record_serialize r in
  let? copy := sender_key_record_deserialize data in
  match skr_user_record r with
  | Some u => let? u' := require SG_ERR_NOMEM (signal_buffer_copy u) in
              Ok (mk_skr (skr_states copy) (Some u'))
  | None => Ok copy
  end.

End record_codec.
End storage.

Definition sender_key_record_is_empty (r : sender_key_record) : bool :=
  match skr_states r with [] => true | _ => false end.

(** The functions that give out a state give out a pointer into the record, so
    the state is found by its position and written back there. *)
Definition sender_key_record_get_sender_key_state (r : sender_key_record)
    : result (nat * sender_key_state) :=
  match skr_states r with
  | s :: _ => Ok (0%nat, s)
  | [] => Err SG_ERR_INVALID_KEY_ID
  end.

Fixpoint find_key_id (key_id : Z) (i : nat) (l : list sender_key_state)
    : result (nat * sender_key_state) :=
  match l with
  | [] => Err SG_ERR_INVALID_KEY_ID
  | s :: l' => if sks_key_id s =? key_id then Ok (i, s) else find_key_id key_id (S i) l'
  end.

Definition sender_key_record_get_sender_key_state_by_id (r : sender_key_record) (key_id : Z)
    : result (nat * sender_key_state) := find_key_id key_id 0 (skr_states r).

Definition sender_key_record_update (i : nat) (s : sender_key_state) (r : sender_key_record)
    : sender_key_record := mk_skr (<[i := s]> (skr_states r)) (skr_user_record r).

(** [while(count > MAX_STATES)]: the last node is unlinked. *)
Fixpoint trim_last {A} (count : nat) (l : list A) : list A :=
  match count with
  | O => l
  | S count' => if (MAX_STATES <? count)%nat then trim_last count' (removelast l) else l
  end.

Definition sender_key_record_add_sender_key_state_impl (id iteration : Z) (chain_key : option bytes)
    (signature_public_key : option ec_public_key) (signature_private_key : option ec_private_key)
    (r : sender_key_record) : result sender_key_record :=
  let? ck := sender_chain_key_create iteration chain_key in
  let? s := sender_key_state_create id (Some ck) signature_public_key signature_private_key in
  let states := s :: skr_states r in
  Ok (mk_skr (trim_last (length states) states) (skr_user_record r)).

Definition sender_key_record_add_sender_key_state (id iteration : Z) (chain_key : option bytes)
    (signature_key : option ec_public_key) (r : sender_key_record) : result sender_key_record :=
  sender_key_record_add_sender_key_state_impl id iteration chain_key signature_key None r.

Definition sender_key_record_set_sender_key_state (id iteration : Z) (chain_key : option bytes)
    (signature_key_pair : ec_key_pair) (r : sender_key_record) : result sender_key_record :=
  sender_key_record_add_sender_key_state_impl id iteration chain_key
    (Some (ec_key_pair_get_public signature_key_pair))
    (Some (ec_key_pair_get_private signature_key_pair))
    (mk_skr [] (skr_user_record r)).

Definition sender_key_record_set_user_record (u : option bytes) (r : sender_key_record)
    : sender_key_record := mk_skr (skr_states r) u.

(* ------------------------------------------------------------------ *)
(** ** Lemmas *)

Lemma trim_last_take {A} (l : list A) : trim_last (length l) l = take MAX_STATES l.
Proof.
  remember (length l) as n eqn:Hn. revert l Hn.
  induction n as [|n IH]; intros l Hn; cbn [trim_last].
  - destruct l; [done|simplify_eq].
  - destruct (Nat.ltb_spec MAX_STATES (S n)) as [H|H]; [|by rewrite take_ge by lia].
    destruct l as [|x l _] using rev_ind; [simplify_eq/=|].
    rewrite removelast_last. rewrite length_app in Hn. simpl in Hn.
    rewrite IH by lia. by rewrite take_app_le by lia.
Qed.

Lemma find_key_id_Some key_id i l j s :
  find_key_id key_id i l = Ok (j, s) ->
  (i <= j)%nat /\ l !! (j - i)%nat = Some s /\ sks_key_id s = key_id.
Proof.
  revert i. induction l as [|x l IH]; intros i; simpl; [done|].
  destruct (Z.eqb_spec (sks_key_id x) key_id) as [Hx|].
  - intros [= <- <-]. rewrite Nat.sub_diag. done.
  - intros (Hi & Hl & Hs)%IH. split_and!; [lia| |done].
    by replace (j - i)%nat with (S (j - S i)) by lia.
Qed.

Section laws.
Context `{CP : CryptoProvider} {CL : CryptoProviderLaws CP}.

Definition skr_wf (r : sender_key_record) : Prop :=
  Forall sks_wf (skr_states r) /\ (length (skr_states r) <= MAX_STATES)%nat.

Lemma add_state_wf id n ck pub priv r r' :
  skr_wf r -> is_u32 id -> is_u32 n -> pub_wf pub ->
  match priv with Some k => priv_wf k | None => True end ->
  sender_key_record_add_sender_key_state_impl id n ck (Some pub) priv r = Ok r' ->
  skr_wf r' /\ exists s, skr_states r' = take MAX_STATES (s :: skr_states r) /\
    ck = Some (sck_chain_key (sks_chain_key s)) /\
    s = mk_sks id (mk_sck n (sck_chain_key (sks_chain_key s))) pub priv [].
Proof.
  intros [Hr _] Hid Hn Hpub Hpriv. unfold sender_key_record_add_sender_key_state_impl.
  destruct ck as [ck|]; [|done]. unfold sender_chain_key_create, signal_buffer_copy, signal_buffer_create.
  cbn [require rbind]. destruct (signal_buffer_alloc_ok (Z.of_nat (length ck))) eqn:Ef; [|done].
  cbn [require rbind sender_key_state_create]. rewrite trim_last_take.
  intros [= <-]. split; [split|].
  - constructor; [|by apply Forall_take]. split_and!; try done; simpl; lia.
  - simpl. rewrite length_take. unfold MAX_STATES. lia.
  - eexists. split_and!; done.
Qed.

(** Writing a state and reading it back. *)
Lemma decode_message_keys_ok l s :
  Forall smk_wf l -> (length (sks_message_keys s) + length l <= SENDER_MAX_MESSAGE_KEYS)%nat ->
  decode_sender_message_keys
    (map (fun k => mk_SenderMessageKey (Some (smk_iteration k)) (Some (smk_seed k))) l) s =
  Ok (with_sender_keys (sks_message_keys s ++ l) s).
Proof.
  intros Hl. revert s. induction Hl as [|k l (Hn & Hf & Hk) Hl IH]; intros s Hlen; simpl.
  - rewrite app_nil_r. by destruct s.
  - simpl in Hlen. rewrite signal_buffer_create_fits by done. cbn [require rbind].
    rewrite sender_message_key_create_ok by done. cbn [rbind]. rewrite <- Hk, IH.
    + unfold sender_key_state_add_sender_message_key. cbn [sks_message_keys with_sender_keys].
      rewrite append_bounded_room by lia. by rewrite <- app_assoc.
    + unfold sender_key_state_add_sender_message_key. cbn [sks_message_keys with_sender_keys].
      rewrite append_bounded_room, length_app by lia. simpl. lia.
Qed.

Lemma RT_sender_key_state s :
  sks_wf s -> RT sender_key_state_serialize_prepare sender_key_state_deserialize_protobuf s.
Proof.
  destruct s as [id [n b] pub priv keys]. intros (Hid & [Hn Hf] & Hpub & Hpriv & Hk & Hl). simpl in *.
  unfold RT, sender_key_state_serialize_prepare. cbn [sks_chain_key sks_signature_public_key
    sks_signature_private_key sks_message_keys sks_key_id sck_iteration sck_chain_key].
  destruct (RT_pub pub Hpub) as (mp & -> & Dp). cbn [rbind].
  assert (RT (opt_field ec_private_key_serialize_protobuf) (opt_field curve_decode_private_point) priv)
    as (mq & -> & Dq).
  { apply RT_opt. destruct priv as [k|]; [|done]. eexists. split; [done|].
    by apply curve_decode_private_serialize. }
  cbn [rbind]. rewrite (array_fits_le _ SENDER_MAX_MESSAGE_KEYS) by (done || (unfold SENDER_MAX_MESSAGE_KEYS; lia)). cbn [ensure rbind].
  eexists. split; [done|]. unfold sender_key_state_deserialize_protobuf, decode_sender_chain_key.
  cbn [skss_senderchainkey skss_sendersigningkey skss_senderkeyid skss_sendermessagekeys
    SenderSigningKey_public SenderSigningKey_private].
  rewrite signal_buffer_create_fits by done. cbn [require rbind].
  rewrite sender_chain_key_create_ok by done. cbn [rbind opt_field]. rewrite Dp. cbn [rbind].
  rewrite Dq. cbn [rbind sender_key_state_create].
  rewrite decode_message_keys_ok by done. done.
Qed.

Lemma prepare_sender_key_ok s m :
  sks_wf s -> sender_key_state_serialize_prepare s = Ok m -> SenderKeyStateStructure_ok m.
Proof.
  intros (Hid & [Hn _] & _ & _ & Hk & _). unfold sender_key_state_serialize_prepare.
  destruct (ec_public_key_serialize_protobuf _); [|done|done]. cbn [rbind].
  destruct (opt_field _ (sks_signature_private_key s)); [|done|done]. cbn [rbind].
  destruct (array_fits _); [|done]. intros [= <-]. split_and!; [done|done|].
  apply Forall_map. eapply Forall_impl; [exact Hk|]. by intros k [H _].
Qed.

Context {SKSC : Codec SenderKeyStateStructure}
  {SKSL : CodecLaws SenderKeyStateStructure SKSC SenderKeyStateStructure_ok}.
Context {SKRC : Codec SenderKeyRecordStructure}
  {SKRL : CodecLaws SenderKeyRecordStructure SKRC SenderKeyRecordStructure_ok}.

Lemma sender_key_state_copy_id s : sks_wf s -> sender_key_state_copy s = Ok s.
Proof.
  intros Hs. destruct (RT_sender_key_state s Hs) as (m & Em & Dm).
  unfold sender_key_state_copy, sender_key_state_serialize, sender_key_state_deserialize.
  rewrite Em. cbn [rbind].
  pose proof (unpacked_packed SKSC SenderKeyStateStructure_ok m (prepare_sender_key_ok s m Hs Em)) as H.
  destruct (packed m) as [d| |]; [|done|done]. cbn [rbind] in *. by rewrite H.
Qed.

Lemma sender_key_record_store_load r :
  skr_wf r -> exists data, sender_key_record_serialize r = Ok data /\
    sender_key_record_deserialize data = Ok (mk_skr (skr_states r) None).
Proof.
  intros [Hs Hl]. unfold sender_key_record_serialize.
  rewrite (array_fits_le _ MAX_STATES) by (done || (unfold MAX_STATES; lia)). cbn [ensure rbind].
  assert (RT (rmapM sender_key_state_serialize_prepare)
    (rmapM sender_key_state_deserialize_protobuf) (skr_states r)) as (ms & Em & Dm).
  { apply RT_list. eapply Forall_impl; [exact Hs|]. apply RT_sender_key_state. }
  rewrite Em. cbn [rbind].
  assert (SenderKeyRecordStructure_ok (mk_SenderKeyRecordStructure ms)) as Hok.
  { red. cbn [skrs_senderkeystates]. eapply rmapM_Forall; [exact Em|exact Hs|].
    apply prepare_sender_key_ok. }
  rewrite (packed_ok SKRC SenderKeyRecordStructure_ok). eexists. split; [done|].
  unfold sender_key_record_deserialize, unpacked.
  rewrite (unpack_pack (ok := SenderKeyRecordStructure_ok)) by done.
  cbn [require rbind skrs_senderkeystates]. by rewrite Dm.
Qed.

End laws.
