(* ===== verification/GroupMessages.v ===== *)
(** The sender key messages of [protocol.c]: [sender_key_message], a group
    message with the signature of its sender, and
    [sender_key_distribution_message], which carries a sender's chain key and
    signature key to the members of a group. *)

From S2P Require Import Prelude Buffers Crypto Curve LocalStorage Protocol SenderKey.

Definition SIGNATURE_LENGTH : nat := 64.

Record sender_key_message := mk_skm {
  skm_version : Z;
  skm_key_id : Z;
  skm_iteration : Z;
  skm_ciphertext : option bytes;
  skm_serialized : option bytes }.

Record sender_key_distribution_message := mk_skdm {
  skdm_id : Z;
  skdm_iteration : Z;
  skdm_chain_key : option bytes;
  skdm_signature_key : option ec_public_key;
  skdm_serialized : option bytes }.

#[global] Instance sender_key_message_eq_dec : EqDecision sender_key_message.
Proof. solve_decision. Defined.
#[global] Instance sender_key_distribution_message_eq_dec : EqDecision sender_key_distribution_message.
Proof. solve_decision. Defined.

(** [(CIPHERTEXT_CURRENT_VERSION << 4) | CIPHERTEXT_CURRENT_VERSION] *)
Definition current_version_byte : byte := version_byte CIPHERTEXT_CURRENT_VERSION.

(** The version tests shared by the two parsers. *)
Definition check_current_version (b : byte) : result unit :=
  let? _ := ensure SG_ERR_LEGACY_MESSAGE (negb (high_nibble b <? CIPHERTEXT_CURRENT_VERSION)) in
  ensure SG_ERR_INVALID_VERSION (negb (CIPHERTEXT_CURRENT_VERSION <? high_nibble b)).

Section sender_key_message.
Context `{CP : CryptoProvider} `{CV : Curve25519} `{SKMC : Codec SenderKeyMessage}.

(** [SG_ERR_INVALID_KEY] from the signature becomes [SG_ERR_UNKNOWN]. *)
Definition sign_message (signature_key : ec_private_key) (data : bytes) : M rng bytes := fun g =>
  match curve_calculate_signature signature_key data g with
  | (Err e, g') => (Err (if e =? SG_ERR_INVALID_KEY then SG_ERR_UNKNOWN else e), g')
  | r => r
  end.

Definition sender_key_message_serialize (m : sender_key_message) (signature_key : ec_private_key)
    : M rng bytes :=
  do ciphertext <- lift (deref (skm_ciphertext m));
  do packed_message <- lift (packed (mk_SenderKeyMessage (Some (skm_key_id m))
      (Some (skm_iteration m)) (Some ciphertext)));
  let data := current_version_byte :: packed_message in
  do signature <- sign_message signature_key data;
  do _ <- lift (ensure SG_ERR_UNKNOWN (length signature =? SIGNATURE_LENGTH)%nat);
  ret (data ++ signature).

Definition sender_key_message_create (key_id iteration : Z) (ciphertext : bytes)
    (signature_key : ec_private_key) : M rng sender_key_message :=
  do body <- lift (require SG_ERR_NOMEM (signal_buffer_create ciphertext));
  let m := mk_skm CIPHERTEXT_CURRENT_VERSION key_id iteration (Some body) None in
  do message_buf <- sender_key_message_serialize m signature_key;
  ret (mk_skm CIPHERTEXT_CURRENT_VERSION key_id iteration (Some body) (Some message_buf)).

Definition sender_key_message_deserialize (data : bytes) : result sender_key_message :=
  let? _ := ensure SG_ERR_INVAL (1 + SIGNATURE_LENGTH <? length data)%nat in
  let version := high_nibble (nth 0 data x00) in
  let? _ := check_current_version (nth 0 data x00) in
  let? st := unpacked (slice 1 (length data - 1 - SIGNATURE_LENGTH) data) in
  match skms_id st, skms_iteration st, skms_ciphertext st with
  | Some id, Some iteration, Some ciphertext =>
      let? body := require SG_ERR_NOMEM (signal_buffer_create ciphertext) in
      let? serialized := require SG_ERR_NOMEM (signal_buffer_create data) in
      Ok (mk_skm version id iteration (Some body) (Some serialized))
  | _, _, _ => Err SG_ERR_INVALID_MESSAGE
  end.

Definition sender_key_message_copy (m : sender_key_message) : result sender_key_message :=
  let? data := deref (skm_serialized m) in sender_key_message_deserialize data.

(** A buffer shorter than the signature would make the length wrap around. *)
Definition sender_key_message_verify_signature (m : sender_key_message) (signature_key : ec_public_key)
    : result unit :=
  let? data := deref (skm_serialized m) in
  if (length data <? SIGNATURE_LENGTH)%nat then Stuck
  else
    let data_len := (length data - SIGNATURE_LENGTH)%nat in
    match curve_verify_signature signature_key (take data_len data)
            (slice data_len SIGNATURE_LENGTH data) with
    | Ok true => Ok tt
    | Ok false | Err _ => Err SG_ERR_INVALID_MESSAGE
    | Stuck => Stuck
    end.

End sender_key_message.

Section distribution_message.
Context `{SKDC : Codec SenderKeyDistributionMessage}.

Definition sender_key_distribution_message_serialize (m : sender_key_distribution_message)
    : result bytes :=
  let? chain_key := deref (skdm_chain_key m) in
  let? key := deref (skdm_signature_key m) in
  let? signingkey := ec_public_key_serialize_protobuf key in
  let? data := packed (mk_SenderKeyDistributionMessage (Some (skdm_id m)) (Some (skdm_iteration m))
                 (Some chain_key) (Some signingkey)) in
  Ok (current_version_byte :: data).

(** When the chain key cannot be copied the result code is still 0: the message
    is returned without its key. *)
Definition sender_key_distribution_message_create (id iteration : Z) (chain_key : bytes)
    (signature_key : ec_public_key) : result sender_key_distribution_message :=
  match signal_buffer_create chain_key with
  | None => Ok (mk_skdm id iteration None None None)
  | Some copy =>
      let? message_buf := sender_key_distribution_message_serialize
          (mk_skdm id iteration (Some copy) (Some signature_key) None) in
      Ok (mk_skdm id iteration (Some copy) (Some signature_key) (Some message_buf))
  end.

Definition sender_key_distribution_message_deserialize (data : bytes)
    : result sender_key_distribution_message :=
  let? _ := ensure SG_ERR_INVAL (1 <? length data)%nat in
  let? _ := check_current_version (nth 0 data x00) in
  let? st := unpacked (slice 1 (length data - 1) data) in
  match skdms_id st, skdms_iteration st, skdms_chainkey st, skdms_signingkey st with
  | Some id, Some iteration, Some chainkey, Some signingkey =>
      let? chain_key := require SG_ERR_NOMEM (signal_buffer_create chainkey) in
      let? key := curve_decode_point signingkey in
      let? serialized := require SG_ERR_NOMEM (signal_buffer_create data) in
      Ok (mk_skdm id iteration (Some chain_key) (Some key) (Some serialized))
  | _, _, _, _ => Err SG_ERR_INVALID_MESSAGE
  end.

Definition sender_key_distribution_message_copy (m : sender_key_distribution_message)
    : result sender_key_distribution_message :=
  let? data := deref (skdm_serialized m) in sender_key_distribution_message_deserialize data.

End distribution_message.

(* ------------------------------------------------------------------ *)
(** ** Lemmas *)

Lemma check_current_version_ok : check_current_version current_version_byte = Ok tt.
Proof. reflexivity. Qed.

Lemma slice_tail {A} (n : nat) (x : A) l : n = length l -> take n (drop 1 (x :: l)) = l.
Proof. intros ->. cbn [drop]. rewrite drop_0. apply take_ge. lia. Qed.

Section laws.
Context `{CP : CryptoProvider} {CL : CryptoProviderLaws CP}.
Context `{CV : Curve25519} {CVL : Curve25519Laws CV} {CSL : Curve25519SignatureLaws CV}.
Context {SKMC : Codec SenderKeyMessage} {SKML : CodecLaws SenderKeyMessage SKMC SenderKeyMessage_ok}.
Context {SKDC : Codec SenderKeyDistributionMessage}
  {SKDL : CodecLaws SenderKeyDistributionMessage SKDC SenderKeyDistributionMessage_ok}.

(** The shape of a created message: the version byte, the packed structure and
    the signature of both. *)
Lemma sender_key_message_create_inv id n ct k g m g' :
  sender_key_message_create id n ct k g = (Ok m, g') ->
  exists sig, let data := current_version_byte ::
      pack (mk_SenderKeyMessage (Some id) (Some n) (Some ct)) in
    m = mk_skm CIPHERTEXT_CURRENT_VERSION id n (Some ct) (Some (data ++ sig)) /\
    fits ct /\ length sig = SIGNATURE_LENGTH /\
    curve_calculate_signature k data g = (Ok sig, g').
Proof.
  unfold sender_key_message_create, sender_key_message_serialize, signal_buffer_create.
  destruct (signal_buffer_alloc_ok (Z.of_nat (length ct))) eqn:Ef; [|done].
  unfold bind, lift, ret, sign_message. cbn [skm_ciphertext skm_key_id skm_iteration deref require].
  rewrite (packed_ok SKMC SenderKeyMessage_ok).
  destruct (curve_calculate_signature k _ g) as [[sig|e|] g1] eqn:Es; [|done|done].
  destruct (Nat.eqb_spec (length sig) SIGNATURE_LENGTH) as [Hl|]; [|done].
  intros [= <- <-]. by exists sig.
Qed.

Lemma sender_key_message_verifies id n ct p g m g' :
  signing_pair p -> sender_key_message_create id n ct (private_key p) g = (Ok m, g') ->
  sender_key_message_verify_signature m (public_key p) = Ok tt.
Proof.
  intros Hp (sig & -> & _ & Hl & Hs)%sender_key_message_create_inv.
  destruct (signature_verifies p _ _ _ _ Hp Hs) as [_ Hv].
  set (data := current_version_byte :: _) in *. unfold sender_key_message_verify_signature.
  cbn [skm_serialized deref rbind]. rewrite length_app, Hl.
  rewrite (proj2 (Nat.ltb_ge _ _)) by lia. rewrite Nat.add_sub.
  rewrite take_app_length. unfold slice. rewrite drop_app_length.
  rewrite take_ge by lia. by rewrite Hv.
Qed.

(** A created message is what the receiver parses from its bytes. *)
Lemma sender_key_message_round_trip id n ct k g m g' data :
  is_u32 id -> is_u32 n -> sender_key_message_create id n ct k g = (Ok m, g') ->
  skm_serialized m = Some data -> fits data -> sender_key_message_deserialize data = Ok m.
Proof.
  intros Hid Hn (sig & -> & Hct & Hl & _)%sender_key_message_create_inv Hser Hf.
  cbn [skm_serialized] in Hser. injection Hser as <-.
  set (st := mk_SenderKeyMessage _ _ _) in *.
  assert (SenderKeyMessage_ok st) as Hok by done.
  assert (length (pack st) <> 0%nat) as Hne.
  { assert (pack st <> []) by (by apply (pack_nonempty SKMC SenderKeyMessage_ok)).
    by destruct (pack st). }
  unfold sender_key_message_deserialize, SIGNATURE_LENGTH in *.
  rewrite length_cons, length_app, Hl. cbn [app] in Hf.
  rewrite (proj2 (Nat.ltb_lt _ _)) by lia. cbn [ensure rbind nth].
  rewrite check_current_version_ok. cbn [rbind].
  assert (slice 1 (S (length (pack st) + 64) - 1 - 64) (current_version_byte :: pack st ++ sig) = pack st)
    as ->.
  { unfold slice. cbn [drop]. rewrite drop_0.
    replace (S (length (pack st) + 64) - 1 - 64)%nat with (length (pack st)) by lia.
    apply take_app_length. }
  unfold unpacked. rewrite (unpack_pack (ok := SenderKeyMessage_ok)) by done.
  cbn [require rbind]. unfold st at 1 2 3. cbn [skms_id skms_iteration skms_ciphertext].
  rewrite !signal_buffer_create_fits by done. done.
Qed.

(** A distribution message is parsed back from its bytes. *)
Lemma distribution_message_round_trip id n ck pub m data :
  is_u32 id -> is_u32 n -> pub_wf pub -> fits ck ->
  sender_key_distribution_message_create id n ck pub = Ok m ->
  skdm_serialized m = Some data -> fits data ->
  sender_key_distribution_message_deserialize data = Ok m.
Proof.
  intros Hid Hn Hp Hck. unfold sender_key_distribution_message_create.
  rewrite signal_buffer_create_fits by done. unfold sender_key_distribution_message_serialize.
  cbn [skdm_chain_key skdm_signature_key skdm_id skdm_iteration deref rbind].
  unfold ec_public_key_serialize_protobuf. cbn [rbind].
  rewrite (packed_ok SKDC SenderKeyDistributionMessage_ok). cbn [rbind].
  set (st := mk_SenderKeyDistributionMessage _ _ _ _). intros [= <-] [= <-] Hf.
  assert (SenderKeyDistributionMessage_ok st) as Hok by done.
  assert (length (pack st) <> 0%nat) as Hne.
  { assert (pack st <> []) by (by apply (pack_nonempty SKDC SenderKeyDistributionMessage_ok)).
    by destruct (pack st). }
  unfold sender_key_distribution_message_deserialize. cbn [length nth].
  rewrite (proj2 (Nat.ltb_lt _ _)) by lia. cbn [ensure rbind].
  rewrite check_current_version_ok. cbn [rbind]. unfold slice. rewrite slice_tail by (simpl; lia).
  unfold unpacked. rewrite (unpack_pack (ok := SenderKeyDistributionMessage_ok)) by done.
  cbn [require rbind]. unfold st at 1 2 3 4.
  cbn [skdms_id skdms_iteration skdms_chainkey skdms_signingkey].
  rewrite signal_buffer_create_fits by done. cbn [require rbind].
  pose proof (curve_decode_serialize pub Hp) as Hd. cbn [rbind ec_public_key_serialize_protobuf] in Hd.
  rewrite Hd. cbn [rbind]. by rewrite signal_buffer_create_fits.
Qed.

End laws.
