(* ===== verification/Group.v ===== *)
(** Group messaging: the sender key store wrappers of [signal_protocol.c],
    [group_session_builder.c] and [group_cipher.c].

    [SenderKeyStore] is the interface of the application's sender key store,
    [SenderKeyStoreLaws] its specification as a map, [MemorySenderKeyStore] an
    instance.  [group_world] is what an API call acts on: the random source,
    the store and the [inside_callback] flag of the group cipher. *)

From S2P Require Import Prelude Buffers Crypto Hkdf Curve Ratchet SessionState LocalStorage.
From S2P Require Import SessionSerial Protocol SessionRecord SessionPreKey Store KeyHelper.
From S2P Require Import SenderKey SenderKeyRecord GroupMessages.

Record signal_protocol_sender_key_name := mk_sender_key_name {
  group_id : bytes;
  sender : signal_protocol_address }.

#[global] Instance sender_key_name_eq_dec : EqDecision signal_protocol_sender_key_name.
Proof. solve_decision. Defined.
#[global] Program Instance sender_key_name_countable : Countable signal_protocol_sender_key_name :=
  inj_countable' (fun n => (group_id n, sender n)) (fun p => mk_sender_key_name p.1 p.2) _.
Next Obligation. by intros []. Qed.

Class SenderKeyStore := {
  sk_store : Type;
  store_sender_key : signal_protocol_sender_key_name -> bytes -> option bytes -> M sk_store Z;
  load_sender_key : signal_protocol_sender_key_name -> M sk_store (Z * option bytes * option bytes)
}.

(** An error code translated on the way out. *)
Definition map_error {S A} (f : Z -> Z) (m : M S A) : M S A := fun s =>
  match m s with (Err e, s') => (Err (f e), s') | r => r end.

Section wrappers.
Context `{CP : CryptoProvider} `{SK : SenderKeyStore} `{SKRC : Codec SenderKeyRecordStructure}.

Definition signal_protocol_sender_key_store_key (name : signal_protocol_sender_key_name)
    (record : sender_key_record) : M sk_store Z :=
  do buffer <- lift (sender_key_record_serialize record);
  store_sender_key name buffer (skr_user_record record).

Definition signal_protocol_sender_key_load_key (name : signal_protocol_sender_key_name)
    : M sk_store sender_key_record :=
  do '(code, buffer, user_buffer) <- load_sender_key name;
  do record <- (if code =? 0 then
                  match buffer with
                  | Some _ => fail SG_ERR_UNKNOWN
                  | None => ret sender_key_record_create
                  end
                else if code =? 1 then
                  match buffer with
                  | None => fail (-1)
                  | Some b => lift (sender_key_record_deserialize b)
                  end
                else fail SG_ERR_UNKNOWN);
  match user_buffer with
  | Some u => ret (sender_key_record_set_user_record (Some u) record)
  | None => ret record
  end.

Record group_world := mk_group_world {
  gw_rng : rng; gw_store : sk_store; gw_inside_callback : bool }.

Definition in_group_rng {A} (m : M rng A) : M group_world A :=
  zoom gw_rng (fun g w => mk_group_world g (gw_store w) (gw_inside_callback w)) m.
Definition in_group_store {A} (m : M sk_store A) : M group_world A :=
  zoom gw_store (fun s w => mk_group_world (gw_rng w) s (gw_inside_callback w)) m.
Definition set_group_inside (b : bool) (w : group_world) : group_world :=
  mk_group_world (gw_rng w) (gw_store w) b.

Context `{CV : Curve25519}.
Context `{SKMC : Codec SenderKeyMessage} `{SKDC : Codec SenderKeyDistributionMessage}.

(* ------------------------------------------------------------------ *)
(** ** Group sessions *)

Definition group_session_builder_process_session (name : signal_protocol_sender_key_name)
    (message : sender_key_distribution_message) : M group_world Z :=
  do record <- in_group_store (signal_protocol_sender_key_load_key name);
  do record <- lift (sender_key_record_add_sender_key_state (skdm_id message) (skdm_iteration message)
      (skdm_chain_key message) (skdm_signature_key message) record);
  in_group_store (signal_protocol_sender_key_store_key name record).

(** A new sender key state, stored. *)
Definition create_sender_key_state (name : signal_protocol_sender_key_name)
    (record : sender_key_record) : M group_world sender_key_record :=
  do sender_key_id <- in_group_rng signal_protocol_key_helper_generate_sender_key_id;
  do sender_key <- in_group_rng signal_protocol_key_helper_generate_sender_key;
  do sender_signing_key <- in_group_rng signal_protocol_key_helper_generate_sender_signing_key;
  do record <- lift (sender_key_record_set_sender_key_state sender_key_id 0 (Some sender_key)
      sender_signing_key record);
  exec in_group_store (signal_protocol_sender_key_store_key name record);
  ret record.

Definition group_session_builder_create_session (name : signal_protocol_sender_key_name)
    : M group_world sender_key_distribution_message :=
  do record <- in_group_store (signal_protocol_sender_key_load_key name);
  do record <- (if sender_key_record_is_empty record then create_sender_key_state name record
                else ret record);
  do '(_, state) <- lift (sender_key_record_get_sender_key_state record);
  lift (sender_key_distribution_message_create (sks_key_id state)
          (sck_iteration (sks_chain_key state)) (sck_chain_key (sks_chain_key state))
          (sks_signature_public_key state)).

(* ------------------------------------------------------------------ *)
(** ** The cipher *)

(** [group_cipher_encrypt] between loading and storing the record. *)
Definition encrypt_with_sender_key (padded_plaintext : bytes) (state : sender_key_state)
    : M rng (sender_key_message * sender_key_state) :=
  do signing_key_private <- lift (require SG_ERR_INVALID_KEY (sks_signature_private_key state));
  do sender_key <- lift (sender_chain_key_create_message_key (sks_chain_key state));
  do ciphertext <- lift (encrypt_func SG_CIPHER_AES_CBC_PKCS5 (smk_cipher_key sender_key)
      (smk_iv sender_key) padded_plaintext);
  do message <- sender_key_message_create (sks_key_id state) (smk_iteration sender_key) ciphertext
      signing_key_private;
  do next_chain_key <- lift (sender_chain_key_create_next (sks_chain_key state));
  ret (message, sender_key_state_set_chain_key next_chain_key state).

Definition group_cipher_encrypt (name : signal_protocol_sender_key_name) (padded_plaintext : bytes)
    : M group_world sender_key_message :=
  map_error (fun e => if e =? SG_ERR_INVALID_KEY_ID then SG_ERR_NO_SESSION else e)
  (do w <- get;
   if gw_inside_callback w then fail SG_ERR_INVAL
   else
     do record <- in_group_store (signal_protocol_sender_key_load_key name);
     do '(i, state) <- lift (sender_key_record_get_sender_key_state record);
     do '(message, state) <- in_group_rng (encrypt_with_sender_key padded_plaintext state);
     exec in_group_store (signal_protocol_sender_key_store_key name
         (sender_key_record_update i state record));
     ret message).

Definition GROUP_MAX_SKIP : Z := 2000.
Definition GROUP_SKIP_FUEL : nat := 2001.

(** [while(sender_chain_key_get_iteration(chain_key) < iteration)]: at most
    2000 rounds after the test of the distance. *)
Fixpoint sender_skip_loop (fuel : nat) (n : Z) (chain_key : sender_chain_key)
    : M sender_key_state sender_chain_key :=
  match fuel with
  | O => stuck
  | S fuel' =>
      if sck_iteration chain_key <? n then
        do message_key <- lift (sender_chain_key_create_message_key chain_key);
        exec modify (sender_key_state_add_sender_message_key message_key);
        do next <- lift (sender_chain_key_create_next chain_key);
        sender_skip_loop fuel' n next
      else ret chain_key
  end.

Definition group_cipher_get_sender_key (n : Z) : M sender_key_state sender_message_key :=
  do state <- get;
  let chain_key := sks_chain_key state in
  if n <? sck_iteration chain_key then
    if sender_key_state_has_sender_message_key state n then
      fun s => match sender_key_state_remove_sender_message_key n s with
               | (Some key, s') => (Ok key, s')
               | (None, s') => (Err SG_ERR_UNKNOWN, s')
               end
    else fail SG_ERR_DUPLICATE_MESSAGE
  else if GROUP_MAX_SKIP <? u32 (n - sck_iteration chain_key) then fail SG_ERR_INVALID_MESSAGE
  else
    do chain_key <- sender_skip_loop GROUP_SKIP_FUEL n chain_key;
    do next <- lift (sender_chain_key_create_next chain_key);
    exec modify (sender_key_state_set_chain_key next);
    lift (sender_chain_key_create_message_key chain_key).

Definition group_cipher_decrypt_callback (callback : option (bytes -> M group_world Z))
    (plaintext : bytes) : M group_world unit :=
  match callback with
  | None => ret tt
  | Some f => fun w =>
      let '(r, w') := f plaintext (set_group_inside true w) in
      (rmap (fun _ => tt) r, set_group_inside false w')
  end.

Definition group_cipher_decrypt (name : signal_protocol_sender_key_name)
    (callback : option (bytes -> M group_world Z)) (m : sender_key_message) : M group_world bytes :=
  map_error (fun e => if (e =? SG_ERR_INVALID_KEY) || (e =? SG_ERR_INVALID_KEY_ID)
                      then SG_ERR_INVALID_MESSAGE else e)
  (do w <- get;
   if gw_inside_callback w then fail SG_ERR_INVAL
   else
     do record <- in_group_store (signal_protocol_sender_key_load_key name);
     if sender_key_record_is_empty record then fail SG_ERR_NO_SESSION
     else
       do '(i, state) <- lift (sender_key_record_get_sender_key_state_by_id record (skm_key_id m));
       do _ <- lift (sender_key_message_verify_signature m (sks_signature_public_key state));
       let '(r, state) := group_cipher_get_sender_key (skm_iteration m) state in
       do sender_key <- lift r;
       do body <- lift (deref (skm_ciphertext m));
       do plaintext <- lift (decrypt_func SG_CIPHER_AES_CBC_PKCS5 (smk_cipher_key sender_key)
           (smk_iv sender_key) body);
       exec group_cipher_decrypt_callback callback plaintext;
       exec in_group_store (signal_protocol_sender_key_store_key name
           (sender_key_record_update i state record));
       ret plaintext).

End wrappers.

(* ------------------------------------------------------------------ *)
(** ** The specification of a sender key store *)

Abbreviation sk_view := (gmap signal_protocol_sender_key_name (bytes * option bytes)).

Definition view_store_sender_key (n : signal_protocol_sender_key_name) (b : bytes) (u : option bytes)
    : M sk_view Z := fun v => (Ok 0, <[n := (b, u)]> v).
Definition view_load_sender_key (n : signal_protocol_sender_key_name)
    : M sk_view (Z * option bytes * option bytes) := fun v =>
  match v !! n with
  | Some (b, u) => (Ok (1, Some b, u), v)
  | None => (Ok (0, None, None), v)
  end.

Class SenderKeyContent (S : SenderKeyStore) := { sender_keys : sk_store -> sk_view }.

Class SenderKeyStoreLaws (S : SenderKeyStore) := {
  sk_content :: SenderKeyContent S;
  store_sender_key_spec n b u : refines sender_keys (store_sender_key n b u) (view_store_sender_key n b u);
  load_sender_key_spec n : refines sender_keys (load_sender_key n) (view_load_sender_key n)
}.

(** The same with callbacks that may fail. *)
Class FallibleSenderKeyStoreLaws (S : SenderKeyStore) (C : SenderKeyContent S) := {
  store_sender_key_may n b u : may_refine sender_keys (store_sender_key n b u) (view_store_sender_key n b u);
  load_sender_key_may n : may_refine sender_keys (load_sender_key n) (view_load_sender_key n)
}.

#[global] Instance strict_fallible_sender_keys S (SL : SenderKeyStoreLaws S) :
  FallibleSenderKeyStoreLaws S sk_content.
Proof. split; intros; apply refines_may; apply SL. Qed.

Definition MemorySenderKeyStore : SenderKeyStore := {|
  sk_store := sk_view;
  store_sender_key := view_store_sender_key;
  load_sender_key := view_load_sender_key
|}.

Definition MemorySenderKeyStoreLaws : SenderKeyStoreLaws MemorySenderKeyStore.
Proof.
  refine {| sk_content := {| sender_keys := (fun v => v) : @sk_store MemorySenderKeyStore -> sk_view |} |};
    intros; apply refines_self.
Defined.
