(* ===== verification/GroupConversation.v ===== *)
(** What the group cipher guarantees: a member that received a sender's
    distribution message decrypts the sender's messages in any order, each
    exactly once.

    [tracks]: the state of a member, as a function of the sender's chain at the
    time of the distribution, the number of links the member has walked and the
    messages it has decrypted. *)

From S2P Require Import Prelude Buffers Crypto Hkdf Curve Ratchet SessionState LocalStorage.
From S2P Require Import SessionSerial Protocol SessionRecord SessionPreKey Store KeyHelper.
From S2P Require Import SenderKey SenderKeyRecord GroupMessages Group.

Lemma filter_ext_in {A} (P Q : A -> Prop) `{!forall x, Decision (P x), !forall x, Decision (Q x)} (l : list A) :
  (forall x, x ∈ l -> P x <-> Q x) -> filter P l = filter Q l.
Proof.
  induction l as [|x l IH]; intros Hl; [done|]. rewrite !filter_cons.
  rewrite IH by (intros y Hy; apply Hl; set_solver).
  pose proof (Hl x ltac:(set_solver)). destruct (decide (P x)), (decide (Q x)); tauto.
Qed.

Lemma filter_all {A} (P : A -> Prop) `{!forall x, Decision (P x)} (l : list A) : Forall P l -> filter P l = l.
Proof.
  induction 1 as [|x l Hx Hl IH]; [done|]. rewrite filter_cons, decide_True by done. by rewrite IH.
Qed.

(** Removing the entry of one index from a list of entries. *)
Lemma remove_indexed {A} (key : A -> Z) (g : nat -> A) l n :
  NoDup l -> (forall i j, i ∈ l -> j ∈ l -> key (g i) = key (g j) -> i = j) -> n ∈ l ->
  remove_first (fun x => key x =? key (g n)) (map g l) = map g (filter (fun i => i <> n) l).
Proof.
  induction l as [|i l IH]; simpl; [set_solver|]. intros [Hi Hl]%NoDup_cons Hinj Hn.
  rewrite filter_cons. destruct (Z.eqb_spec (key (g i)) (key (g n))) as [E|E].
  - apply Hinj in E as ->; [|set_solver..]. rewrite decide_False by tauto.
    rewrite filter_all; [done|]. apply Forall_forall. intros j Hj ->. done.
  - rewrite decide_True by (intros ->; done). simpl. f_equal. apply IH; [done| |set_solver].
    intros j k Hj Hk. apply Hinj; set_solver.
Qed.

(** The positions below [p] that were not delivered yet. *)
Definition pending (p : nat) (seen : list nat) : list nat :=
  filter (fun i => i ∉ seen) (seq 0 p).

Lemma elem_of_pending p seen i : i ∈ pending p seen <-> (i < p)%nat /\ i ∉ seen.
Proof. unfold pending. rewrite list_elem_of_filter, elem_of_seq. intuition lia. Qed.

Lemma pending_NoDup p seen : NoDup (pending p seen).
Proof. apply NoDup_filter, NoDup_seq. Qed.

Lemma pending_seen p n seen : filter (fun i => i <> n) (pending p seen) = pending p (n :: seen).
Proof.
  unfold pending. rewrite list_filter_filter. apply list_filter_iff. set_solver.
Qed.

(** Walking from [p] to the later position [i], which is then delivered. *)
Lemma pending_ahead p i seen :
  (p <= i)%nat -> Forall (fun j => (j < p)%nat) seen ->
  pending (S i) (i :: seen) = pending p seen ++ seq p (i - p).
Proof.
  intros Hi Hs. rewrite Forall_forall in Hs. unfold pending.
  replace (S i) with (p + (i - p) + 1)%nat by lia. rewrite !seq_app, !filter_app. cbn [Nat.add].
  rewrite (filter_ext_in _ (fun j => j ∉ seen) (seq 0 p)).
  - rewrite <- app_assoc. f_equal. rewrite filter_all.
    + replace (p + (i - p))%nat with i by lia. cbn [seq]. rewrite filter_cons, decide_False by set_solver.
      by rewrite filter_nil, app_nil_r.
    + apply Forall_forall. intros j [Hj Hj']%elem_of_seq [->|Hin]%elem_of_cons; [lia|].
      apply Hs in Hin. lia.
  - intros j [_ Hj]%elem_of_seq. rewrite not_elem_of_cons. split; [tauto|]. intros; split; [lia|done].
Qed.

Section tracking.
Context `{CP : CryptoProvider} {CL : CryptoProviderLaws CP}.

Definition key_at (base : sender_chain_key) (i : nat) : sender_message_key :=
  sender_message_key_of (sender_chain_iter i base).

Definition tracks (base : sender_chain_key) (p : nat) (seen : list nat) (s : sender_key_state) : Prop :=
  sck_wf base /\ sck_iteration base + Z.of_nat p < 2 ^ 32 /\
  sks_chain_key s = sender_chain_iter p base /\
  sks_message_keys s = map (key_at base) (pending p seen) /\
  (length (pending p seen) <= SENDER_MAX_MESSAGE_KEYS)%nat /\ Forall (fun i => (i < p)%nat) seen.

Lemma key_at_iteration base i :
  sck_wf base -> sck_iteration base + Z.of_nat i < 2 ^ 32 ->
  smk_iteration (key_at base i) = sck_iteration base + Z.of_nat i.
Proof. intros Hb Hi. unfold key_at. simpl. by rewrite sender_chain_iteration_lt. Qed.

Lemma skipped_at base p d :
  map (key_at (sender_chain_iter p base)) (seq 0 d) = map (key_at base) (seq p d).
Proof.
  rewrite <- (Nat.add_0_r p) at 2. rewrite <- fmap_add_seq, map_map. apply map_ext. intros i.
  unfold key_at. by rewrite sender_chain_iter_add, Nat.add_comm.
Qed.

(** The loop stores the keys of the links it passes. *)
Lemma sender_skip_loop_ok d : forall fuel n ck s,
  (d < fuel)%nat -> sck_wf ck -> n = sck_iteration ck + Z.of_nat d -> n < 2 ^ 32 ->
  (length (sks_message_keys s) + d <= SENDER_MAX_MESSAGE_KEYS)%nat ->
  sender_skip_loop fuel n ck s =
  (Ok (sender_chain_iter d ck), with_sender_keys (sks_message_keys s ++ map (key_at ck) (seq 0 d)) s).
Proof.
  induction d as [|d IH]; intros fuel n ck s Hf Hwf Hn Hlt Hlen;
    (destruct fuel as [|fuel]; [lia|]); cbn [sender_skip_loop].
  - rewrite (proj2 (Z.ltb_ge _ _)) by lia. rewrite app_nil_r. by destruct s.
  - rewrite (proj2 (Z.ltb_lt _ _)) by lia. rewrite create_message_key_ok, create_sender_next_ok.
    unfold bind at 1 2 3, lift, modify.
    assert (sck_iteration (sender_chain_next ck) = sck_iteration ck + 1) as Hnext.
    { apply (sender_chain_iteration_lt 1 ck Hwf). lia. }
    unfold sender_key_state_add_sender_message_key. rewrite append_bounded_room by lia.
    rewrite IH by (auto with sigdb; cbn [with_sender_keys sks_message_keys];
      rewrite ?length_app, ?Hnext; simpl; lia).
    rewrite sender_chain_iter_S. f_equal. unfold with_sender_keys. cbn. f_equal.
    rewrite <- app_assoc. f_equal. cbn [app]. f_equal. rewrite <- seq_shift, map_map.
    apply map_ext. intros i. unfold key_at. by rewrite sender_chain_iter_S.
Qed.

Definition same_sender (s s' : sender_key_state) : Prop :=
  sks_key_id s' = sks_key_id s /\ sks_signature_public_key s' = sks_signature_public_key s /\
  sks_signature_private_key s' = sks_signature_private_key s.

Lemma pending_keys_inj base p seen i j :
  sck_wf base -> sck_iteration base + Z.of_nat p < 2 ^ 32 ->
  i ∈ pending p seen -> j ∈ pending p seen ->
  smk_iteration (key_at base i) = smk_iteration (key_at base j) -> i = j.
Proof.
  intros Hb Hp [Hi _]%elem_of_pending [Hj _]%elem_of_pending.
  rewrite !key_at_iteration by (done || lia). lia.
Qed.

(** A message behind the chain that was not delivered yet. *)
Lemma get_sender_key_behind base p seen s i :
  tracks base p seen s -> (i < p)%nat -> i ∉ seen ->
  exists s', group_cipher_get_sender_key (sck_iteration base + Z.of_nat i) s = (Ok (key_at base i), s') /\
    tracks base p (i :: seen) s' /\ same_sender s s'.
Proof.
  intros (Hb & Hp & Hck & Hkeys & Hlen & Hseen) Hi Hns.
  assert (i ∈ pending p seen) as Hin by (by apply elem_of_pending).
  unfold group_cipher_get_sender_key, bind, get. rewrite Hck.
  rewrite sender_chain_iteration_lt, (proj2 (Z.ltb_lt _ _)) by (done || lia).
  assert (find_first (has_iteration (sck_iteration base + Z.of_nat i)) (sks_message_keys s) =
    Some (key_at base i)) as Hfind.
  { rewrite Hkeys, <- key_at_iteration by (done || lia).
    apply (find_key_NoDup smk_iteration); [|by apply list_elem_of_fmap_2].
    rewrite map_map. apply NoDup_fmap_2_strong; [|apply pending_NoDup].
    intros a c Ha Hc. by apply (pending_keys_inj base p seen). }
  unfold sender_key_state_has_sender_message_key. rewrite Hfind.
  unfold sender_key_state_remove_sender_message_key. rewrite Hfind.
  eexists. split; [done|]. split; [|done]. split_and!; try done.
  - cbn [with_sender_keys sks_message_keys]. unfold has_iteration.
    rewrite Hkeys, <- key_at_iteration by (done || lia).
    rewrite (remove_indexed smk_iteration), pending_seen; [done|apply pending_NoDup| |done].
    intros a c. by apply pending_keys_inj.
  - transitivity (length (pending p seen)); [|done]. rewrite <- pending_seen. apply length_filter.
  - by constructor.
Qed.

(** A message at or ahead of the chain. *)
Lemma get_sender_key_ahead base p seen s i :
  tracks base p seen s -> (p <= i)%nat -> Z.of_nat i <= Z.of_nat p + GROUP_MAX_SKIP ->
  sck_iteration base + Z.of_nat i + 1 < 2 ^ 32 ->
  (length (pending (S i) (i :: seen)) <= SENDER_MAX_MESSAGE_KEYS)%nat ->
  exists s', group_cipher_get_sender_key (sck_iteration base + Z.of_nat i) s = (Ok (key_at base i), s') /\
    tracks base (S i) (i :: seen) s' /\ same_sender s s'.
Proof.
  intros (Hb & Hp & Hck & Hkeys & Hlen & Hseen) Hi Hskip Hlt Hroom.
  rewrite (pending_ahead p i seen), length_app, length_seq in Hroom by done.
  unfold group_cipher_get_sender_key, bind at 1, get at 1. rewrite Hck.
  rewrite sender_chain_iteration_lt, (proj2 (Z.ltb_ge _ _)) by (done || lia).
  assert (0 <= sck_iteration base) by (destruct Hb as [Hb _]; unfold is_u32 in Hb; lia).
  rewrite u32_id by (unfold is_u32; lia). unfold GROUP_MAX_SKIP in *.
  rewrite (proj2 (Z.ltb_ge _ _)) by lia.
  rewrite (bind_run _ _ _ _ _ (sender_skip_loop_ok (i - p) GROUP_SKIP_FUEL
    (sck_iteration base + Z.of_nat i) (sender_chain_iter p base) s
    ltac:(unfold GROUP_SKIP_FUEL; lia) ltac:(auto with sigdb)
    ltac:(rewrite sender_chain_iteration_lt; [lia|done|lia]) ltac:(lia)
    ltac:(rewrite Hkeys, length_map; lia))).
  rewrite sender_chain_iter_add. replace (i - p + p)%nat with i by lia.
  rewrite create_sender_next_ok, create_message_key_ok. unfold bind, lift, modify.
  eexists. split; [done|]. split; [|done]. split_and!; try done.
  - lia.
  - cbn [sks_message_keys with_sender_keys sender_key_state_set_chain_key].
    rewrite Hkeys, (pending_ahead p i seen), map_app by done. f_equal.
    apply skipped_at.
  - rewrite (pending_ahead p i seen), length_app, length_seq by done. lia.
  - constructor; [lia|]. eapply Forall_impl; [exact Hseen|]. simpl. lia.
Qed.

(** A message that was delivered before. *)
Lemma get_sender_key_again base p seen s i :
  tracks base p seen s -> i ∈ seen ->
  group_cipher_get_sender_key (sck_iteration base + Z.of_nat i) s = (Err SG_ERR_DUPLICATE_MESSAGE, s).
Proof.
  intros (Hb & Hp & Hck & Hkeys & Hlen & Hseen) Hin.
  rewrite Forall_forall in Hseen. pose proof (Hseen i Hin) as Hi.
  unfold group_cipher_get_sender_key, bind, get. rewrite Hck.
  rewrite sender_chain_iteration_lt, (proj2 (Z.ltb_lt _ _)) by (done || lia).
  unfold sender_key_state_has_sender_message_key, has_iteration. rewrite Hkeys.
  rewrite (find_key_None smk_iteration); [done|].
  apply Forall_map, Forall_forall. intros j [Hj Hjs]%elem_of_pending E.
  change (smk_iteration (key_at base j) = sck_iteration base + Z.of_nat i) in E.
  rewrite key_at_iteration in E by (done || lia). apply Hjs. by replace j with i by lia.
Qed.

(** One lemma for both directions. *)
Lemma get_sender_key_once base p seen s i :
  tracks base p seen s -> i ∉ seen -> Z.of_nat i <= Z.of_nat p + GROUP_MAX_SKIP ->
  sck_iteration base + Z.of_nat i + 1 < 2 ^ 32 ->
  (length (pending (Nat.max p (S i)) (i :: seen)) <= SENDER_MAX_MESSAGE_KEYS)%nat ->
  exists s', group_cipher_get_sender_key (sck_iteration base + Z.of_nat i) s = (Ok (key_at base i), s') /\
    tracks base (Nat.max p (S i)) (i :: seen) s' /\ same_sender s s'.
Proof.
  intros Ht Hi Hskip Hlt Hroom. destruct (Nat.lt_ge_cases i p) as [H|H].
  - rewrite Nat.max_l by lia. by apply get_sender_key_behind.
  - rewrite Nat.max_r in * by lia. by apply (get_sender_key_ahead base p).
Qed.

Lemma tracks_wf base p seen s :
  tracks base p seen s -> is_u32 (sks_key_id s) -> pub_wf (sks_signature_public_key s) ->
  match sks_signature_private_key s with Some k => priv_wf k | None => True end -> sks_wf s.
Proof.
  intros (Hb & Hp & Hck & Hkeys & Hlen & Hseen) Hid Hpub Hpriv. split_and!; try done.
  - rewrite Hck. auto with sigdb.
  - rewrite Hkeys. apply Forall_map, Forall_forall. intros i _. simpl. unfold key_at. auto with sigdb.
  - by rewrite Hkeys, length_map.
Qed.

End tracking.

(* ------------------------------------------------------------------ *)
(** ** Records in the store *)

(** The record that loading answers: the stored one, or an empty one. *)
Definition sk_holds `{CP : CryptoProvider} `{SKRC : Codec SenderKeyRecordStructure} (v : sk_view)
    (name : signal_protocol_sender_key_name) (r : sender_key_record) : Prop :=
  match v !! name with
  | Some (b, u) => u = skr_user_record r /\ sender_key_record_deserialize b = Ok (mk_skr (skr_states r) None)
  | None => r = sender_key_record_create
  end.

Lemma find_key_id_head id i s l : sks_key_id s = id -> find_key_id id i (s :: l) = Ok (i, s).
Proof. intros <-. simpl. by rewrite Z.eqb_refl. Qed.

Lemma find_key_id_insert id l : forall k i s s',
  find_key_id id k l = Ok (i, s) -> sks_key_id s' = id ->
  find_key_id id k (<[(i - k)%nat := s']> l) = Ok (i, s').
Proof.
  induction l as [|x l IH]; intros k i s s' H Hs'; [done|]. simpl in H.
  destruct (Z.eqb_spec (sks_key_id x) id) as [E|E].
  - injection H as <- <-. rewrite Nat.sub_diag. by apply find_key_id_head.
  - pose proof (find_key_id_Some _ _ _ _ _ H) as (Hi & _). 
    replace (i - k)%nat with (S (i - S k)) by lia. simpl. rewrite (proj2 (Z.eqb_neq _ _) E).
    by apply (IH _ _ s).
Qed.

Section records.
Context `{CP : CryptoProvider} {CL : CryptoProviderLaws CP}.
Context {SK : SenderKeyStore} {SKL : SenderKeyStoreLaws SK}.
Context {SKRC : Codec SenderKeyRecordStructure}
  {SKRL : CodecLaws SenderKeyRecordStructure SKRC SenderKeyRecordStructure_ok}.

Lemma load_sender_key_held st name r :
  sk_holds (sender_keys st) name r ->
  exists st', signal_protocol_sender_key_load_key name st = (Ok r, st') /\
    sender_keys st' = sender_keys st.
Proof.
  unfold sk_holds. intros H. destruct (load_sender_key_spec name st) as (st' & E & Hv).
  exists st'. unfold signal_protocol_sender_key_load_key, view_load_sender_key in *.
  destruct (sender_keys st !! name) as [[b u]|]; simpl in E, Hv.
  - destruct H as [Hu Hd]. split; [|done]. rewrite (bind_run _ _ _ _ _ E). cbn [Z.eqb Pos.eqb].
    unfold bind, lift. rewrite Hd. destruct r as [l u']. simpl in *. subst u. by destruct u'.
  - subst r. split; [|done]. by rewrite (bind_run _ _ _ _ _ E).
Qed.

Lemma store_sender_key_held st name r :
  skr_wf r ->
  exists st', signal_protocol_sender_key_store_key name r st = (Ok 0, st') /\
    sk_holds (sender_keys st') name r /\
    forall n, n <> name -> sender_keys st' !! n = sender_keys st !! n.
Proof.
  intros Hr. destruct (sender_key_record_store_load r Hr) as (data & E & D).
  destruct (store_sender_key_spec name data (skr_user_record r) st) as (st' & Es & Hv).
  exists st'. unfold signal_protocol_sender_key_store_key, bind, lift. rewrite E.
  simpl in Hv. split_and!; [exact Es| |].
  - unfold sk_holds. by rewrite Hv, lookup_insert_eq.
  - intros n Hn. rewrite Hv. by apply lookup_insert_ne.
Qed.

Lemma record_update_wf r i s : skr_wf r -> sks_wf s -> skr_wf (sender_key_record_update i s r).
Proof.
  intros [Hr Hl] Hs. split; cbn [sender_key_record_update skr_states]; [by apply Forall_insert|].
  by rewrite length_insert.
Qed.

End records.

(* ------------------------------------------------------------------ *)
(** ** Sender and member *)

Section conversation.
Context `{CP : CryptoProvider} {CL : CryptoProviderLaws CP}.
Context `{CV : Curve25519} {CVL : Curve25519Laws CV} {CSL : Curve25519SignatureLaws CV}.
Context {SK : SenderKeyStore} {SKL : SenderKeyStoreLaws SK}.
Context {SKRC : Codec SenderKeyRecordStructure}
  {SKRL : CodecLaws SenderKeyRecordStructure SKRC SenderKeyRecordStructure_ok}.
Context {SKMC : Codec SenderKeyMessage} {SKML : CodecLaws SenderKeyMessage SKMC SenderKeyMessage_ok}.
Context {SKDC : Codec SenderKeyDistributionMessage}
  {SKDL : CodecLaws SenderKeyDistributionMessage SKDC SenderKeyDistributionMessage_ok}.

(** A state the owner of the signature key [p] sends with. *)
Definition own_state (p : ec_key_pair) (s : sender_key_state) : Prop :=
  signing_pair p /\ sks_signature_public_key s = public_key p /\
  sks_signature_private_key s = Some (private_key p).

(** The sender has sent [n] messages since its chain was at [base]. *)
Definition sender_at (w : group_world) (name : signal_protocol_sender_key_name)
    (base : sender_chain_key) (n : nat) (id : Z) (p : ec_key_pair) : Prop :=
  gw_inside_callback w = false /\ sck_wf base /\
  exists r s rest, sk_holds (sender_keys (gw_store w)) name r /\ skr_wf r /\
    skr_states r = s :: rest /\ sks_key_id s = id /\ sks_chain_key s = sender_chain_iter n base /\
    own_state p s.

(** The member has decrypted the messages [seen]. *)
Definition member_at (w : group_world) (name : signal_protocol_sender_key_name)
    (base : sender_chain_key) (pos : nat) (seen : list nat) (id : Z) (pub : ec_public_key) : Prop :=
  gw_inside_callback w = false /\
  exists r i s, sk_holds (sender_keys (gw_store w)) name r /\ skr_wf r /\
    find_key_id id 0 (skr_states r) = Ok (i, s) /\ tracks base pos seen s /\
    sks_signature_public_key s = pub.

(** The [i]-th message of the sender. *)
Definition message_at (base : sender_chain_key) (id : Z) (pub : ec_public_key) (i : nat) (pt : bytes)
    (m : sender_key_message) : Prop :=
  skm_key_id m = id /\ skm_iteration m = sck_iteration base + Z.of_nat i /\
  sender_key_message_verify_signature m pub = Ok tt /\
  (exists ct, skm_ciphertext m = Some ct /\
    encrypt_func SG_CIPHER_AES_CBC_PKCS5 (smk_cipher_key (key_at base i)) (smk_iv (key_at base i)) pt = Ok ct) /\
  forall data, skm_serialized m = Some data -> fits data -> sender_key_message_deserialize data = Ok m.

Lemma encrypt_with_sender_key_inv pt s g m s' g' p n base :
  own_state p s -> sks_wf s -> sks_chain_key s = sender_chain_iter n base ->
  sck_wf base -> sck_iteration base + Z.of_nat n < 2 ^ 32 ->
  encrypt_with_sender_key pt s g = (Ok (m, s'), g') ->
  message_at base (sks_key_id s) (public_key p) n pt m /\
  s' = sender_key_state_set_chain_key (sender_chain_iter (S n) base) s.
Proof.
  intros (Hp & Hpub & Hpriv) (Hid & Hcw & _) Hck Hb Hlt. unfold encrypt_with_sender_key.
  rewrite Hpriv, create_message_key_ok, create_sender_next_ok, Hck.
  unfold bind at 1 2 3, lift at 1 2 3. cbn [require].
  destruct (encrypt_func _ _ _ pt) as [ct| |] eqn:Ect; [|done|done].
  intros (m' & g1 & Hm & H)%bind_ok. unfold bind, lift, ret in H. injection H as <- <- <-.
  assert (smk_iteration (sender_message_key_of (sender_chain_iter n base)) =
    sck_iteration base + Z.of_nat n) as Hit by (by apply (key_at_iteration base n)).
  rewrite Hit in Hm. split; [|done].
  pose proof (sender_key_message_verifies _ _ _ _ _ _ _ Hp Hm) as Hv.
  pose proof Hm as (sig & Em & _)%sender_key_message_create_inv.
  split_and!; [by rewrite Em|by rewrite Em|done|exists ct; by rewrite Em|].
  intros data Hd Hf. eapply (sender_key_message_round_trip _ _ _ _ _ _ _ data); [done| |exact Hm|done..].
  destruct Hb as [Hb _]. unfold is_u32 in *. lia.
Qed.

(** Sending advances the sender and produces its next message. *)
Lemma encrypt_sends w name base n id p pt m w' :
  sender_at w name base n id p -> sck_iteration base + Z.of_nat n < 2 ^ 32 ->
  group_cipher_encrypt name pt w = (Ok m, w') ->
  sender_at w' name base (S n) id p /\ message_at base id (public_key p) n pt m.
Proof.
  intros (Hin & Hb & r & s & rest & Hh & Hr & Hs & Hid & Hck & Hown) Hlt.
  unfold group_cipher_encrypt, map_error, bind at 1, get at 1. rewrite Hin.
  destruct (load_sender_key_held _ _ _ Hh) as (st1 & E1 & V1).
  unfold bind at 1, in_group_store at 1, zoom at 1. rewrite E1.
  unfold sender_key_record_get_sender_key_state. rewrite Hs. unfold bind at 1, lift at 1.
  assert (sks_wf s) as Hsw by (destruct Hr as [Hf _]; rewrite Hs in Hf; by inversion Hf).
  unfold bind at 1, in_group_rng, zoom at 1. cbn [gw_rng gw_store gw_inside_callback].
  destruct (encrypt_with_sender_key pt s (gw_rng w)) as [[[m' s']|e|] g'] eqn:Ee; [|done|done].
  destruct (encrypt_with_sender_key_inv _ _ _ _ _ _ _ _ _ Hown Hsw Hck Hb ltac:(lia) Ee) as [Hm ->].
  set (s' := sender_key_state_set_chain_key _ s) in *.
  assert (sks_wf s') as Hsw'.
  { destruct Hsw as (? & ? & ? & ? & ? & ?). split_and!; try done. apply sender_chain_next_wf. }
  destruct (store_sender_key_held st1 name _ (record_update_wf r 0 s' Hr Hsw')) as (st2 & E2 & H2 & _).
  unfold bind, in_group_store, zoom, ret. cbn [gw_rng gw_store gw_inside_callback]. rewrite E2.
  intros [= <- <-]. rewrite Hid in Hm. split; [|done]. split; [done|]. split; [done|].
  exists (sender_key_record_update 0 s' r), s', rest. cbn [gw_store]. split_and!; [exact H2| |..]; try done.
  - by apply record_update_wf.
  - cbn [sender_key_record_update skr_states]. by rewrite Hs.
Qed.

(** Decrypting a message that was not decrypted before. *)
Lemma decrypt_delivers w name base pos seen id pub i pt m :
  member_at w name base pos seen id pub -> message_at base id pub i pt m -> i ∉ seen ->
  Z.of_nat i <= Z.of_nat pos + GROUP_MAX_SKIP -> sck_iteration base + Z.of_nat i + 1 < 2 ^ 32 ->
  (length (pending (Nat.max pos (S i)) (i :: seen)) <= SENDER_MAX_MESSAGE_KEYS)%nat ->
  exists w', group_cipher_decrypt name None m w = (Ok pt, w') /\
    member_at w' name base (Nat.max pos (S i)) (i :: seen) id pub.
Proof.
  intros (Hin & r & k & s & Hh & Hr & Hf & Ht & Hpub) (Hmid & Hit & Hv & (ct & Hct & Henc) & _)
    Hns Hskip Hlt Hroom.
  destruct (load_sender_key_held _ _ _ Hh) as (st1 & E1 & V1).
  destruct (get_sender_key_once base pos seen s i Ht Hns Hskip Hlt Hroom) as (s' & Eg & Ht' & Hid' & Hpub' & Hpriv').
  pose proof (find_key_id_Some _ _ _ _ _ Hf) as (_ & Hl & Hsid). rewrite Nat.sub_0_r in Hl.
  assert (sks_wf s) as (Hu & _ & Hpw & Hqw & _).
  { destruct Hr as [Hall _]. rewrite Forall_lookup in Hall. by eapply Hall. }
  assert (sks_wf s') as Hsw'.
  { eapply tracks_wf; [exact Ht'|by rewrite Hid'|by rewrite Hpub'|by rewrite Hpriv']. }
  destruct (store_sender_key_held st1 name _ (record_update_wf r k s' Hr Hsw')) as (st2 & E2 & H2 & _).
  eexists. split.
  - unfold group_cipher_decrypt, map_error, bind at 1, get at 1. rewrite Hin.
    unfold bind at 1, in_group_store at 1, zoom at 1. rewrite E1.
    assert (sender_key_record_is_empty r = false) as ->.
    { unfold sender_key_record_is_empty. by destruct (skr_states r). }
    unfold sender_key_record_get_sender_key_state_by_id. rewrite Hmid, Hf.
    unfold bind at 1 2, lift at 1 2. rewrite Hpub, Hv, Hit, Eg.
    unfold bind at 1 2 3, lift. rewrite Hct. cbn [deref]. rewrite (decrypt_encrypt _ _ _ _ _ Henc).
    unfold bind, group_cipher_decrypt_callback, ret, in_group_store, zoom.
    cbn [gw_rng gw_store gw_inside_callback]. rewrite E2. done.
  - split; [done|]. exists (sender_key_record_update k s' r), k, s'. cbn [gw_store].
    split_and!; [exact H2|by apply record_update_wf| |done|by rewrite Hpub'].
    cbn [sender_key_record_update skr_states]. rewrite <- (Nat.sub_0_r k) at 1.
    eapply find_key_id_insert; [exact Hf|]. by rewrite Hid'.
Qed.

(** Decrypting a message again: a duplicate, and nothing is stored. *)
Lemma decrypt_duplicate w name base pos seen id pub i pt m :
  member_at w name base pos seen id pub -> message_at base id pub i pt m -> i ∈ seen ->
  exists w', group_cipher_decrypt name None m w = (Err SG_ERR_DUPLICATE_MESSAGE, w') /\
    sender_keys (gw_store w') = sender_keys (gw_store w) /\
    member_at w' name base pos seen id pub.
Proof.
  intros (Hin & r & k & s & Hh & Hr & Hf & Ht & Hpub) (Hmid & Hit & Hv & _) Hseen.
  destruct (load_sender_key_held _ _ _ Hh) as (st1 & E1 & V1).
  exists (mk_group_world (gw_rng w) st1 (gw_inside_callback w)). split_and!.
  - unfold group_cipher_decrypt, map_error, bind at 1, get at 1. rewrite Hin.
    unfold bind at 1, in_group_store at 1, zoom at 1. rewrite E1.
    assert (sender_key_record_is_empty r = false) as ->.
    { unfold sender_key_record_is_empty. by destruct (skr_states r). }
    unfold sender_key_record_get_sender_key_state_by_id. rewrite Hmid, Hf.
    unfold bind at 1 2, lift at 1 2. rewrite Hpub, Hv, Hit.
    rewrite (get_sender_key_again _ _ _ _ _ Ht Hseen). rewrite Hin. done.
  - done.
  - split; [done|]. exists r, k, s. cbn [gw_store]. rewrite V1. by split_and!.
Qed.

(* ------------------------------------------------------------------ *)
(** ** Conversations *)

(** The links a member has walked after decrypting [seen]. *)
Definition reach (seen : list nat) : nat := list_max (map S seen).

(** The sender's world, a member's world, the messages sent so far with their
    plaintexts, and the indices the member has decrypted. *)
Record group_conv := mk_group_conv {
  gc_sender : group_world; gc_member : group_world;
  gc_sent : list (sender_key_message * bytes); gc_seen : list nat }.

(** A new message may be up to 2000 links ahead, and the skipped ones fit. *)
Definition deliverable (i : nat) (seen : list nat) : Prop :=
  Z.of_nat i <= Z.of_nat (reach seen) + GROUP_MAX_SKIP /\
  (length (pending (reach (i :: seen)) (i :: seen)) <= SENDER_MAX_MESSAGE_KEYS)%nat.

Variable ns nm : signal_protocol_sender_key_name.

(** Messages are sent, and any of them is delivered from its bytes, in any
    order, again and again, or never. *)
Inductive group_step : group_conv -> option (nat * bytes * result bytes) -> group_conv -> Prop :=
| group_send c pt m ws :
    group_cipher_encrypt ns pt (gc_sender c) = (Ok m, ws) -> skm_iteration m + 1 < 2 ^ 32 ->
    group_step c None (mk_group_conv ws (gc_member c) (gc_sent c ++ [(m, pt)]) (gc_seen c))
| group_deliver c i m pt data m' r wm :
    gc_sent c !! i = Some (m, pt) -> skm_serialized m = Some data -> fits data ->
    sender_key_message_deserialize data = Ok m' ->
    i ∈ gc_seen c \/ deliverable i (gc_seen c) ->
    group_cipher_decrypt nm None m' (gc_member c) = (r, wm) ->
    group_step c (Some (i, pt, r))
      (mk_group_conv (gc_sender c) wm (gc_sent c)
         (if decide (i ∈ gc_seen c) then gc_seen c else i :: gc_seen c)).

(** The sender can have a record of its own already, the member any record. *)
Definition sender_ready (w : group_world) : Prop :=
  gw_inside_callback w = false /\
  exists r, sk_holds (sender_keys (gw_store w)) ns r /\ skr_wf r /\
    match skr_states r with [] => True | s :: _ => exists p, own_state p s end.

Definition member_ready (w : group_world) : Prop :=
  gw_inside_callback w = false /\
  exists r, sk_holds (sender_keys (gw_store w)) nm r /\ skr_wf r.

(** The sender creates or looks up its session, the member processes the
    distribution message it parses from its bytes. *)
Definition group_initial (c : group_conv) : Prop :=
  exists ws ws' dm data dm' wm wm' z,
    sender_ready ws /\ group_session_builder_create_session ns ws = (Ok dm, ws') /\
    skdm_serialized dm = Some data /\ fits data /\
    sender_key_distribution_message_deserialize data = Ok dm' /\
    member_ready wm /\ group_session_builder_process_session nm dm' wm = (Ok z, wm') /\
    c = mk_group_conv ws' wm' [] [].

Definition group_inv (base : sender_chain_key) (id : Z) (p : ec_key_pair) (c : group_conv) : Prop :=
  sender_at (gc_sender c) ns base (length (gc_sent c)) id p /\
  member_at (gc_member c) nm base (reach (gc_seen c)) (gc_seen c) id (public_key p) /\
  sck_iteration base + Z.of_nat (length (gc_sent c)) < 2 ^ 32 /\
  forall i m pt, gc_sent c !! i = Some (m, pt) -> message_at base id (public_key p) i pt m.

Lemma reach_cons i seen : reach (i :: seen) = Nat.max (reach seen) (S i).
Proof. unfold reach. simpl. lia. Qed.

Lemma group_step_inv base id p c e c' :
  group_inv base id p c -> group_step c e c' ->
  group_inv base id p c' /\
  match e with
  | Some (i, pt, r) =>
      if decide (i ∈ gc_seen c) then r = Err SG_ERR_DUPLICATE_MESSAGE /\
        sender_keys (gw_store (gc_member c')) = sender_keys (gw_store (gc_member c))
      else r = Ok pt
  | None => True
  end.
Proof.
  intros (Hs & Hm & Hb & Hsent) Hstep. destruct Hstep as
    [c pt m ws He Hlt | c i m pt data m' r wm Hi Hser Hf Hp Hd Hr].
  - split; [|done]. destruct (encrypt_sends _ _ _ _ _ _ _ _ _ Hs Hb He) as [Hs' Hmsg].
    assert (skm_iteration m = sck_iteration base + Z.of_nat (length (gc_sent c))) as Hit by apply Hmsg.
    split_and!; cbn [gc_sender gc_member gc_sent gc_seen]; [|done| |].
    + rewrite length_app. simpl. by rewrite Nat.add_1_r.
    + rewrite length_app. simpl. lia.
    + intros i m1 pt1 [Hi|[Hi Hx]]%lookup_app_Some; [by apply Hsent|].
      apply list_lookup_singleton_Some in Hx as [Hz Hx]. injection Hx as <- <-.
      by replace i with (length (gc_sent c)) by lia.
  - pose proof (Hsent _ _ _ Hi) as Hmsg.
    assert (sck_iteration base + Z.of_nat i + 1 < 2 ^ 32) as Hlt by (apply lookup_lt_Some in Hi; lia).
    assert (m' = m) as ->.
    { destruct Hmsg as (_ & _ & _ & _ & Hparse). rewrite (Hparse data Hser Hf) in Hp. by injection Hp. }
    destruct (decide (i ∈ gc_seen c)) as [Hin|Hin].
    + destruct (decrypt_duplicate _ _ _ _ _ _ _ _ _ _ Hm Hmsg Hin) as (wm' & Er & Hv & Hm').
      rewrite Er in Hr. injection Hr as <- <-. done.
    + destruct Hd as [|[Hskip Hroom]]; [done|]. rewrite reach_cons in Hroom.
      destruct (decrypt_delivers _ _ _ _ _ _ _ _ _ _ Hm Hmsg Hin Hskip Hlt Hroom) as (wm' & Er & Hm').
      rewrite Er in Hr. injection Hr as <- <-. split; [|done].
      split_and!; cbn [gc_sender gc_member gc_sent gc_seen]; try done. by rewrite reach_cons.
Qed.

(** A new sender key state. *)
Lemma create_sender_key_state_inv name r w r' w' :
  gw_inside_callback w = false -> skr_wf r ->
  create_sender_key_state name r w = (Ok r', w') ->
  gw_inside_callback w' = false /\ skr_wf r' /\ sk_holds (sender_keys (gw_store w')) name r' /\
  exists s p, skr_states r' = [s] /\ own_state p s.
Proof.
  intros Hin Hr. unfold create_sender_key_state.
  intros (id & w1 & H1 & (key & w2 & H2 & (p & w3 & H3 & H)%bind_ok)%bind_ok)%bind_ok.
  apply bind_ok in H as (r1 & w4 & [Hadd <-]%lift_ok & H).
  apply bind_ok in H as (z & w5 & Hst & H). injection H as <- <-.
  unfold in_group_rng, zoom in H1, H2, H3.
  destruct (signal_protocol_key_helper_generate_sender_key_id (gw_rng w)) as [x1 g1] eqn:E1.
  injection H1 as -> <-. cbn [gw_rng gw_store gw_inside_callback] in *.
  destruct (signal_protocol_key_helper_generate_sender_key g1) as [x2 g2] eqn:E2.
  injection H2 as -> <-. cbn [gw_rng gw_store gw_inside_callback] in *.
  destruct (signal_protocol_key_helper_generate_sender_signing_key g2) as [x3 g3] eqn:E3.
  injection H3 as -> <-. cbn [gw_rng gw_store gw_inside_callback] in *.
  apply sender_key_id_range in E1. pose proof (curve_generate_signing _ _ _ E3) as Hp.
  pose proof (valid_pair_pub_wf p (proj1 Hp)) as Hpw.
  unfold sender_key_record_set_sender_key_state in Hadd.
  apply add_state_wf in Hadd as [Hr1 (s & Hs & Hk & Es)]; [|by split; [constructor|simpl; lia]|
    unfold INT32_MAX in *; unfold is_u32; lia|unfold is_u32; lia|done|apply Hp].
  destruct (store_sender_key_held (gw_store w) name r1 Hr1) as (st & E & Hh & _).
  unfold in_group_store, zoom in Hst. cbn [gw_store gw_rng gw_inside_callback] in Hst.
  rewrite E in Hst. injection Hst as <- <-. cbn [gw_store gw_rng gw_inside_callback].
  split_and!; [done..|]. exists s, p. split; [exact Hs|]. split; [done|]. by rewrite Es.
Qed.

Lemma create_session_inv ws dm ws' :
  sender_ready ws -> group_session_builder_create_session ns ws = (Ok dm, ws') ->
  exists base id p, sender_at ws' ns base 0 id p /\ is_u32 id /\ pub_wf (public_key p) /\
    sender_key_distribution_message_create id (sck_iteration base) (sck_chain_key base) (public_key p) = Ok dm.
Proof.
  intros (Hin & r & Hh & Hr & Hown). unfold group_session_builder_create_session.
  destruct (load_sender_key_held _ _ _ Hh) as (st1 & E1 & V1).
  unfold bind at 1, in_group_store at 1, zoom at 1. rewrite E1.
  set (w1 := mk_group_world (gw_rng ws) st1 (gw_inside_callback ws)).
  intros (r1 & w2 & H1 & ([i s] & w3 & [Hs <-]%lift_ok & [Hdm <-]%lift_ok)%bind_ok)%bind_ok.
  assert (gw_inside_callback w2 = false /\ skr_wf r1 /\ sk_holds (sender_keys (gw_store w2)) ns r1 /\
    exists s p rest, skr_states r1 = s :: rest /\ own_state p s) as (Hin2 & Hr1 & Hh1 & s0 & p & rest & Hst & Ho).
  { unfold sender_key_record_is_empty in H1. destruct (skr_states r) as [|s0 rest] eqn:Hst.
    - apply create_sender_key_state_inv in H1 as (? & ? & ? & s1 & p & ? & ?); [|done..].
      split_and!; [done..|]. by exists s1, p, [].
    - injection H1 as <- <-. destruct Hown as [p Hp]. split_and!; [done|done| |by exists s0, p, rest].
      cbn [w1 gw_store]. by rewrite V1. }
  unfold sender_key_record_get_sender_key_state in Hs. rewrite Hst in Hs. injection Hs as <- <-.
  assert (sks_wf s0) as (Hid & Hck & Hpw & _) by (destruct Hr1 as [Hf _]; rewrite Hst in Hf; by inversion Hf).
  destruct Ho as (Hp & Hpub & Hpriv). rewrite Hpub in *.
  exists (sks_chain_key s0), (sks_key_id s0), p. split_and!; [|done..].
  split; [done|]. split; [done|]. by exists r1, s0, rest.
Qed.

Lemma process_session_inv base id p dm wm z wm' :
  sck_wf base -> is_u32 id -> pub_wf (public_key p) ->
  sender_key_distribution_message_create id (sck_iteration base) (sck_chain_key base) (public_key p) = Ok dm ->
  member_ready wm -> group_session_builder_process_session nm dm wm = (Ok z, wm') ->
  member_at wm' nm base 0 [] id (public_key p).
Proof.
  intros Hb Hid Hpw Hdm (Hin & r & Hh & Hr). unfold sender_key_distribution_message_create in Hdm.
  rewrite signal_buffer_create_fits in Hdm by apply Hb. apply rbind_ok in Hdm as (buf & _ & Hdm).
  injection Hdm as <-. unfold group_session_builder_process_session.
  destruct (load_sender_key_held _ _ _ Hh) as (st1 & E1 & V1).
  unfold bind at 1, in_group_store at 1, zoom at 1. rewrite E1.
  intros (r1 & w1 & [Hadd <-]%lift_ok & Hst)%bind_ok.
  cbn [skdm_id skdm_iteration skdm_chain_key skdm_signature_key] in Hadd.
  apply add_state_wf in Hadd as [Hr1 (s & Hs & Hk & Es)]; [|done|done|apply Hb|done|done].
  destruct (store_sender_key_held st1 nm r1 Hr1) as (st & E & Hh1 & _).
  unfold in_group_store, zoom in Hst. cbn [gw_store gw_rng gw_inside_callback] in Hst.
  rewrite E in Hst. injection Hst as <- <-. split; [done|].
  exists r1, 0%nat, s. cbn [gw_store]. injection Hk as Hk. rewrite <- Hk in Es.
  split_and!; [exact Hh1|done| | |by rewrite Es].
  - rewrite Hs. cbn [take MAX_STATES]. apply find_key_id_head. by rewrite Es.
  - split_and!; [done| | |..]; rewrite ?Es; try done; [|by destruct base|simpl; lia].
    destruct Hb as [Hb _]. unfold is_u32 in Hb. lia.
Qed.

Lemma group_initial_inv c : group_initial c -> exists base id p, group_inv base id p c.
Proof.
  intros (ws & ws' & dm & data & dm' & wm & wm' & z & Hs & Hc & Hser & Hf & Hp & Hm & Hpr & ->).
  destruct (create_session_inv _ _ _ Hs Hc) as (base & id & p & Hat & Hid & Hpw & Hdm).
  assert (sck_wf base) as Hb by apply Hat.
  assert (dm' = dm) as ->.
  { rewrite (distribution_message_round_trip _ _ _ _ _ _ Hid (proj1 Hb) Hpw (proj2 Hb) Hdm Hser Hf) in Hp.
    by injection Hp. }
  exists base, id, p. split_and!; [done| | |done].
  - by eapply process_session_inv.
  - destruct Hb as [Hb _]. unfold is_u32 in Hb. cbn [gc_sent length]. lia.
Qed.

(** The configurations reachable from one. *)
Inductive group_reachable (c : group_conv) : group_conv -> Prop :=
| group_refl : group_reachable c c
| group_trans c1 e c2 : group_reachable c c1 -> group_step c1 e c2 -> group_reachable c c2.

Lemma group_reachable_inv c0 c :
  group_initial c0 -> group_reachable c0 c -> exists base id p, group_inv base id p c.
Proof.
  intros H0%group_initial_inv Hr. induction Hr as [|c1 e c2 Hr IH Hs]; [done|].
  destruct IH as (base & id & p & IH). exists base, id, p. by eapply group_step_inv.
Qed.

End conversation.
