(* ===== verification/GroupApi.v ===== *)
(** The group cipher as its callers see it: failed calls leave the stored sender
    keys as they were, and a message is only decrypted when it carries the
    signature of the sender. *)

From S2P Require Import Prelude Buffers Crypto Hkdf Curve Ratchet SessionState LocalStorage.
From S2P Require Import SessionSerial Protocol SessionRecord SessionPreKey Store KeyHelper.
From S2P Require Import SenderKey SenderKeyRecord GroupMessages Group GroupConversation.

Lemma map_error_ok {S A} f (m : M S A) s a s' : map_error f m s = (Ok a, s') <-> m s = (Ok a, s').
Proof. unfold map_error. destruct (m s) as [[]]; naive_solver. Qed.

Lemma keeps_map_error {S B A} (obs : S -> B) f (m : M S A) :
  keeps_on_failure obs m -> keeps_on_failure obs (map_error f m).
Proof.
  intros H s. specialize (H s). unfold map_error. destruct (m s) as [[a|e|] s']; cbn [fst snd] in *; [done| |done].
  intros _. by apply H.
Qed.

Section failures.
Context `{CP : CryptoProvider} `{CV : Curve25519}.
Context {SK : SenderKeyStore} {SKV : SenderKeyContent SK} {SKF : FallibleSenderKeyStoreLaws SK SKV}.
Context {SKRC : Codec SenderKeyRecordStructure}.
Context {SKMC : Codec SenderKeyMessage} {SKDC : Codec SenderKeyDistributionMessage}.

(** The sender keys the application has stored. *)
Definition stored_keys (w : group_world) : sk_view := sender_keys (gw_store w).

Lemma keeps_group_rng {A} (m : M rng A) : keeps stored_keys (in_group_rng m).
Proof. intros w. unfold in_group_rng, zoom. by destruct (m (gw_rng w)). Qed.

Lemma load_sender_key_view name st :
  sender_keys (signal_protocol_sender_key_load_key name st).2 = sender_keys st.
Proof.
  unfold signal_protocol_sender_key_load_key, bind.
  destruct (load_sender_key_may name st) as [(st' & -> & Hv)|(e & st' & -> & Hv)]; [|done].
  unfold view_load_sender_key in *. destruct (sender_keys st !! name) as [[b u]|]; cbn in Hv |- *; [|done].
  unfold lift. destruct (sender_key_record_deserialize b); [by destruct u|done|done].
Qed.

Lemma keeps_load_sender_key name :
  keeps stored_keys (in_group_store (signal_protocol_sender_key_load_key name)).
Proof.
  intros w. unfold in_group_store, zoom, stored_keys.
  pose proof (load_sender_key_view name (gw_store w)) as H.
  by destruct (signal_protocol_sender_key_load_key name (gw_store w)).
Qed.

(** Storing only fails before anything is written. *)
Lemma store_sender_key_failure name r :
  keeps_on_failure stored_keys (in_group_store (signal_protocol_sender_key_store_key name r)).
Proof.
  intros w. unfold in_group_store, zoom, signal_protocol_sender_key_store_key, bind, lift.
  destruct (sender_key_record_serialize r) as [data| |]; [|done|done].
  destruct (store_sender_key_may name data (skr_user_record r) (gw_store w))
    as [(s' & -> & _)|(e & s' & -> & Hv)]; cbn.
  - intros H. by destruct (H 0).
  - intros _. exact Hv.
Qed.

(** A callback that does not write sender keys. *)
Definition group_harmless (callback : option (bytes -> M group_world Z)) : Prop :=
  match callback with Some f => forall pt, keeps stored_keys (f pt) | None => True end.

Lemma keeps_group_callback callback pt :
  group_harmless callback -> keeps stored_keys (group_cipher_decrypt_callback callback pt).
Proof.
  intros H. destruct callback as [f|]; [|by intros w]. intros w. simpl.
  specialize (H pt (set_group_inside true w)). by destruct (f pt (set_group_inside true w)).
Qed.

#[local] Hint Resolve keeps_group_rng keeps_load_sender_key keeps_group_callback : sigdb.

Lemma group_encrypt_failure name pt : keeps_on_failure stored_keys (group_cipher_encrypt name pt).
Proof.
  apply keeps_map_error, keeps_get_failure. intros w. destruct (gw_inside_callback w); [auto with sigdb|].
  apply keeps_bind_failure; [auto with sigdb|]. intros record.
  apply keeps_bind_failure; [auto with sigdb|]. intros [i state].
  apply keeps_bind_failure; [auto with sigdb|]. intros [message state'].
  apply keeps_then_total; [apply store_sender_key_failure|]. intros. by eexists.
Qed.

Lemma group_decrypt_failure name callback m :
  group_harmless callback -> keeps_on_failure stored_keys (group_cipher_decrypt name callback m).
Proof.
  intros Hc. apply keeps_map_error, keeps_get_failure. intros w.
  destruct (gw_inside_callback w); [auto with sigdb|].
  apply keeps_bind_failure; [auto with sigdb|]. intros record.
  destruct (sender_key_record_is_empty record); [auto with sigdb|].
  apply keeps_bind_failure; [auto with sigdb|]. intros [i state].
  apply keeps_bind_failure; [auto with sigdb|]. intros _.
  destruct (group_cipher_get_sender_key (skm_iteration m) state) as [r state'].
  apply keeps_bind_failure; [auto with sigdb|]. intros key.
  apply keeps_bind_failure; [auto with sigdb|]. intros body.
  apply keeps_bind_failure; [auto with sigdb|]. intros pt.
  apply keeps_bind_failure; [auto with sigdb|]. intros _.
  apply keeps_then_total; [apply store_sender_key_failure|]. intros. by eexists.
Qed.

Lemma process_session_failure name dm :
  keeps_on_failure stored_keys (group_session_builder_process_session name dm).
Proof.
  apply keeps_bind_failure; [auto with sigdb|]. intros record.
  apply keeps_bind_failure; [auto with sigdb|]. intros record'. apply store_sender_key_failure.
Qed.

End failures.

Section api.
Context `{CP : CryptoProvider} `{CV : Curve25519}.
Context {SK : SenderKeyStore} {SKL : SenderKeyStoreLaws SK}.
Context {SKRC : Codec SenderKeyRecordStructure}.
Context {SKMC : Codec SenderKeyMessage} {SKDC : Codec SenderKeyDistributionMessage}.

(** The signature check: the last 64 bytes sign everything before them. *)
Lemma verify_signature_inv m key :
  sender_key_message_verify_signature m key = Ok tt ->
  exists body sig, skm_serialized m = Some (body ++ sig) /\ length sig = SIGNATURE_LENGTH /\
    curve25519_verify sig (pub_data key) body = true.
Proof.
  unfold sender_key_message_verify_signature. destruct (skm_serialized m) as [data|]; [|done]. cbn [deref rbind].
  destruct (Nat.ltb_spec (length data) SIGNATURE_LENGTH); [done|].
  set (n := (length data - SIGNATURE_LENGTH)%nat). unfold curve_verify_signature.
  rewrite length_slice by lia. unfold slice.
  rewrite (take_ge (drop n data)) by (rewrite length_drop; lia).
  cbn [Nat.eqb negb SIGNATURE_LENGTH].
  change (64 =? CURVE_SIGNATURE_LEN)%nat with true. cbn [negb].
  destruct (curve25519_verify (drop n data) (pub_data key) (take n data)) eqn:E; [|done]. intros _.
  exists (take n data), (drop n data). rewrite take_drop. split_and!; [done|rewrite length_drop; lia|done].
Qed.

Lemma group_decrypt_verified w name callback m pt w' r :
  sk_holds (sender_keys (gw_store w)) name r ->
  group_cipher_decrypt name callback m w = (Ok pt, w') ->
  exists i s, find_key_id (skm_key_id m) 0 (skr_states r) = Ok (i, s) /\
    sender_key_message_verify_signature m (sks_signature_public_key s) = Ok tt.
Proof.
  intros Hh. destruct (load_sender_key_held _ _ _ Hh) as (st1 & E1 & V1).
  unfold group_cipher_decrypt. rewrite map_error_ok. unfold bind at 1, get at 1.
  destruct (gw_inside_callback w); [done|].
  unfold bind at 1, in_group_store at 1, zoom at 1. rewrite E1.
  destruct (sender_key_record_is_empty r); [done|].
  intros ([i s] & w1 & [Hf <-]%lift_ok & H)%bind_ok. exists i, s. split; [exact Hf|].
  apply bind_ok in H as ([] & w2 & [Hv _]%lift_ok & _). exact Hv.
Qed.

(** More than 2000 links ahead of the chain. *)
Lemma group_too_far n s :
  is_u32 (sck_iteration (sks_chain_key s)) -> is_u32 n ->
  sck_iteration (sks_chain_key s) + GROUP_MAX_SKIP < n ->
  group_cipher_get_sender_key n s = (Err SG_ERR_INVALID_MESSAGE, s).
Proof.
  unfold is_u32, GROUP_MAX_SKIP. intros Hs Hn Hlt. unfold group_cipher_get_sender_key, bind, get.
  rewrite (proj2 (Z.ltb_ge _ _)) by lia. unfold GROUP_MAX_SKIP.
  rewrite u32_id by (unfold is_u32; lia). by rewrite (proj2 (Z.ltb_lt _ _)) by lia.
Qed.

End api.
