(* ===== verification/KeyList.v ===== *)
(** The key lists of [curve.c] and the VRF signatures, used by the fingerprints
    and by the device consistency codes.

    An [ec_public_key_list] is a list of keys.  [qsort] leaves the order of
    equal elements open; keys that compare equal have the same bytes, so any
    sorted permutation serializes alike. *)

From S2P Require Import Prelude Buffers Crypto Curve.
From stdpp Require Import sorting.

Open Scope Z_scope.
Open Scope sig_scope.

Abbreviation ec_public_key_list := (list ec_public_key).

Definition ec_public_key_list_copy (l : ec_public_key_list) : ec_public_key_list := l.
Definition ec_public_key_list_push_back (l : ec_public_key_list) (k : ec_public_key)
    : ec_public_key_list := l ++ [k].
Definition ec_public_key_list_size (l : ec_public_key_list) : nat := length l.

(** [assert(index < utarray_len(list->values))] *)
Definition ec_public_key_list_at (l : ec_public_key_list) (i : nat) : result ec_public_key :=
  deref (l !! i).

Definition ec_public_key_list_sort_comparator (a b : ec_public_key) : Z :=
  ec_public_key_memcmp (Some a) (Some b).

Definition key_le (a b : ec_public_key) : Prop := ec_public_key_list_sort_comparator a b <= 0.

#[global] Instance key_le_dec a b : Decision (key_le a b).
Proof. unfold key_le. apply _. Defined.

Definition ec_public_key_list_sort (l : ec_public_key_list) : ec_public_key_list :=
  merge_sort key_le l.

Definition SG_ERR_VRF_SIG_VERIF_FAILED := -1011.
Definition VRF_SIGNATURE_LEN : nat := 96.
Definition VRF_VERIFY_LEN : nat := 32.

Section vrf.
Context `{CP : CryptoProvider} `{XV : Xveddsa}.

(** The VRF output of a valid signature. *)
Definition curve_verify_vrf_signature (signing_key : option ec_public_key) (message signature : bytes)
    : result bytes :=
  let? key := require SG_ERR_INVAL signing_key in
  let? _ := ensure SG_ERR_VRF_SIG_VERIF_FAILED (length signature =? VRF_SIGNATURE_LEN)%nat in
  require SG_ERR_VRF_SIG_VERIF_FAILED (xveddsa_verify signature (pub_data key) message).

Definition curve_calculate_vrf_signature (signing_key : ec_private_key) (message : bytes)
    : M rng bytes :=
  do random_data <- random_func 64;
  lift (require SG_ERR_UNKNOWN (xveddsa_sign (priv_data signing_key) message random_data)).

End vrf.

(* ------------------------------------------------------------------ *)
(** ** Lemmas *)

#[global] Instance key_le_trans : Transitive key_le.
Proof. intros a b c. apply (lex_le_trans (take DJB_KEY_LEN (pub_data a))). Qed.

#[global] Instance key_le_total : Total key_le.
Proof. intros a b. apply (lex_le_total (take DJB_KEY_LEN (pub_data a))). Qed.

Lemma key_le_antisym a b : pub_wf a -> pub_wf b -> key_le a b -> key_le b a -> a = b.
Proof.
  intros Ha Hb H1 H2. pose proof (lex_le_antisym _ _ H1 H2) as E. unfold pub_wf in *.
  rewrite !take_ge in E by lia. destruct a, b. simpl in E. by subst.
Qed.

(** Sorting forgets the order of the keys. *)
Lemma sort_Permutation (l1 l2 : list ec_public_key) :
  Forall pub_wf l1 -> l1 ≡ₚ l2 -> ec_public_key_list_sort l1 = ec_public_key_list_sort l2.
Proof.
  intros Hw Hp. unfold ec_public_key_list_sort.
  assert (Forall pub_wf l2) as Hw2 by (by rewrite <- Hp).
  apply (Sorted_unique_strong key_le).
  - intros a b Ha Hb. rewrite merge_sort_Permutation in Ha, Hb.
    rewrite Forall_forall in Hw, Hw2. auto using key_le_antisym.
  - apply Sorted_merge_sort. apply _.
  - apply Sorted_merge_sort. apply _.
  - by rewrite !(merge_sort_Permutation key_le).
Qed.

Section vrf_laws.
Context `{CP : CryptoProvider} {CL : CryptoProviderLaws CP}.
Context `{CV : Curve25519} {CVL : Curve25519Laws CV}.
Context `{XV : Xveddsa} {XVL : XveddsaLaws XV CV}.

Lemma vrf_signature_verifies p m g sig g' :
  signing_pair p -> curve_calculate_vrf_signature (private_key p) m g = (Ok sig, g') ->
  exists out, curve_verify_vrf_signature (Some (public_key p)) m sig = Ok out /\
    length out = VRF_VERIFY_LEN.
Proof.
  intros [[Hl Hp] Hc]. unfold curve_generate_public_key in Hp.
  destruct (curve25519_donna (priv_data (private_key p)) basepoint) as [pub|] eqn:E; [|done].
  injection Hp as Hp. unfold curve_calculate_vrf_signature.
  intros (r & g1 & _ & [Hs ->]%lift_ok)%bind_ok.
  destruct (xveddsa_sign (priv_data (private_key p)) m r) as [s|] eqn:Es; [|done].
  injection Hs as ->.
  destruct (vrf_sign_verify _ _ _ _ _ Hl Hc E Es) as [H96 (out & Hv & Ho)].
  exists out. split; [|done]. unfold curve_verify_vrf_signature. cbn [require rbind].
  rewrite H96. cbn [Nat.eqb ensure rbind VRF_SIGNATURE_LEN]. rewrite <- Hp. cbn [pub_data]. by rewrite Hv.
Qed.

End vrf_laws.
