(* ===== verification/Fingerprint.v ===== *)
(** [fingerprint.c]: the numeric and the scannable fingerprint of the identity
    keys of two parties.

    A C string is the list of its bytes without the final null byte; [strcmp] is
    the comparison of [Buffers]. *)

From S2P Require Import Prelude Buffers Vpool Crypto Curve Hkdf Ratchet SessionState LocalStorage.
From S2P Require Import Protocol RatchetSession KeyList.

Definition SG_ERR_FP_VERSION_MISMATCH := -1200.
Definition SG_ERR_FP_IDENT_MISMATCH := -1201.

Definition FINGERPRINT_VERSION : Z := 0.
Definition FINGERPRINT_LENGTH : nat := 30.

Record displayable_fingerprint := mk_displayable {
  df_local_fingerprint : bytes;
  df_remote_fingerprint : bytes;
  df_display_text : bytes }.

Record scannable_fingerprint := mk_scannable {
  sf_version : Z;
  sf_local_stable_identifier : option bytes;
  sf_local_fingerprint : option bytes;
  sf_remote_stable_identifier : option bytes;
  sf_remote_fingerprint : option bytes }.

Record fingerprint := mk_fingerprint {
  fp_displayable : displayable_fingerprint;
  fp_scannable : scannable_fingerprint }.

Record fingerprint_generator := mk_generator { fg_iterations : Z; fg_scannable_version : Z }.

Definition fingerprint_generator_create (iterations scannable_version : Z) : result fingerprint_generator :=
  if (scannable_version <? 0) || (1 <? scannable_version) then Err SG_ERR_INVAL
  else Ok (mk_generator iterations scannable_version).

(* ------------------------------------------------------------------ *)
(** ** The displayable fingerprint *)

(** The digit [d] as a character. *)
Definition digit (d : Z) : byte := u8 (48 + d).

(** [snprintf(..., 6, "%05d", n)] for a number below 100000. *)
Definition five_digits (n : Z) : bytes :=
  [digit (n / 10000 mod 10); digit (n / 1000 mod 10); digit (n / 100 mod 10);
   digit (n / 10 mod 10); digit (n mod 10)].

(** The five bytes from position [i] as a 40-bit number, modulo 100000. *)
Definition encoded_chunk (data : bytes) (i : nat) : bytes :=
  let at_ k := byte_at data (i + k) in
  let chunk := Z.lor (Z.lor (Z.lor (Z.lor (Z.shiftl (at_ 0%nat) 32) (Z.shiftl (at_ 1%nat) 24))
                 (Z.shiftl (at_ 2%nat) 16)) (Z.shiftl (at_ 3%nat) 8)) (at_ 4%nat) in
  five_digits (chunk mod 100000).

(** [for(i = 0; i < 5 * n; i += 5)] *)
Fixpoint encoded_chunks (data : bytes) (i n : nat) : bytes :=
  match n with
  | O => []
  | S n' => encoded_chunk data i ++ encoded_chunks data (i + 5) n'
  end.

Definition fingerprint_generator_create_display_string (fingerprint_buffer : bytes) : result bytes :=
  let? _ := ensure SG_ERR_UNKNOWN (negb (length fingerprint_buffer <? FINGERPRINT_LENGTH)%nat) in
  Ok (encoded_chunks fingerprint_buffer 0 6).

Definition displayable_fingerprint_create (local_fingerprint remote_fingerprint : option bytes)
    : result displayable_fingerprint :=
  match local_fingerprint, remote_fingerprint with
  | Some l, Some r => Ok (mk_displayable l r (if memcmp l r <=? 0 then l ++ r else r ++ l))
  | _, _ => Err SG_ERR_INVAL
  end.

(* ------------------------------------------------------------------ *)
(** ** The scannable fingerprint *)

Definition scannable_fingerprint_create (version : Z) (local_stable_identifier local_fingerprint
    remote_stable_identifier remote_fingerprint : option bytes) : result scannable_fingerprint :=
  let missing (o : option bytes) := match o with None => true | Some _ => false end in
  let? _ := ensure SG_ERR_INVAL (negb ((version =? 0) &&
              (missing local_stable_identifier || missing remote_stable_identifier))) in
  let? local := require SG_ERR_INVAL local_fingerprint in
  let? remote := require SG_ERR_INVAL remote_fingerprint in
  let copy (b : bytes) := require SG_ERR_NOMEM
    (if version =? 0 then signal_buffer_copy b else signal_buffer_n_copy b 32) in
  let? local_copy := copy local in
  let? remote_copy := copy remote in
  Ok (mk_scannable version
        (if version =? 0 then local_stable_identifier else None) (Some local_copy)
        (if version =? 0 then remote_stable_identifier else None) (Some remote_copy)).

(** The characters of a buffer read as a C string: up to the first null byte. *)
Fixpoint c_string (b : bytes) : bytes :=
  match b with
  | [] => []
  | c :: b' => if decide (c = x00) then [] else c :: c_string b'
  end.

Definition scannable_fingerprint_compare (s other : scannable_fingerprint) : result bool :=
  match sf_remote_fingerprint other, sf_local_fingerprint other with
  | Some _, Some _ =>
      if negb (sf_version other =? sf_version s) then Err SG_ERR_FP_VERSION_MISMATCH
      else
        let? _ := (if sf_version s =? 0 then
            let? l := deref (sf_local_stable_identifier s) in
            let? other_r := deref (sf_remote_stable_identifier other) in
            let? _ := ensure SG_ERR_FP_IDENT_MISMATCH (memcmp l other_r =? 0) in
            let? r := deref (sf_remote_stable_identifier s) in
            let? other_l := deref (sf_local_stable_identifier other) in
            ensure SG_ERR_FP_IDENT_MISMATCH (memcmp r other_l =? 0)
          else Ok tt) in
        Ok ((signal_buffer_compare (sf_local_fingerprint s) (sf_remote_fingerprint other) =? 0) &&
            (signal_buffer_compare (sf_remote_fingerprint s) (sf_local_fingerprint other) =? 0))
  | _, _ => Err SG_ERR_FP_VERSION_MISMATCH
  end.

Section codec.
Context `{FC : Codec CombinedFingerprints}.

(** One of the two halves, when it has a fingerprint. *)
Definition logical_fingerprint (version : Z) (identifier fp : option bytes) : option LogicalFingerprint :=
  match fp with
  | Some b => Some (mk_LogicalFingerprint (Some b) (if version =? 0 then identifier else None))
  | None => None
  end.

Definition scannable_fingerprint_serialize (s : scannable_fingerprint) : result bytes :=
  packed (mk_CombinedFingerprints (Some (sf_version s))
    (logical_fingerprint (sf_version s) (sf_local_stable_identifier s) (sf_local_fingerprint s))
    (logical_fingerprint (sf_version s) (sf_remote_stable_identifier s) (sf_remote_fingerprint s))).

(** The identifier and the content of one half. *)
Definition read_logical (m : option LogicalFingerprint) : result (option bytes * option bytes) :=
  match m with
  | None => Ok (None, None)
  | Some f =>
      let? content := match lf_content f with
                      | Some b => let? c := require SG_ERR_NOMEM (signal_buffer_create b) in Ok (Some c)
                      | None => Ok None
                      end in
      Ok (c_string <$> lf_identifier f, content)
  end.

Definition scannable_fingerprint_deserialize (data : bytes) : result scannable_fingerprint :=
  let? m := unpacked data in
  let? local := read_logical (cf_localfingerprint m) in
  let? remote := read_logical (cf_remotefingerprint m) in
  scannable_fingerprint_create (default 0 (cf_version m)) local.1 local.2 remote.1 remote.2.

End codec.

(* ------------------------------------------------------------------ *)
(** ** The generator *)

Section generator.
Context `{SP : Sha512Provider}.

(** One round: the digest of the previous hash and the identity key bytes. *)
Fixpoint fingerprint_rounds (n : nat) (c : digest_context) (hash_buffer identity : bytes)
    : result bytes :=
  match n with
  | O => Ok hash_buffer
  | S n' =>
      let? c := sha512_digest_update_func c hash_buffer in
      let? c := sha512_digest_update_func c identity in
      let? '(hash_out, c) := sha512_digest_final_func c in
      fingerprint_rounds n' c hash_out identity
  end.

Definition fingerprint_generator_get_fingerprint (g : fingerprint_generator)
    (stable_identifier identity : bytes) : result bytes :=
  let? c := sha512_digest_init_func in
  let? hash_buffer := require SG_ERR_NOMEM (signal_buffer_create
      ([x00; u8 FINGERPRINT_VERSION] ++ identity ++ stable_identifier)) in
  let? hash_buffer := fingerprint_rounds (Z.to_nat (fg_iterations g)) c hash_buffer identity in
  let? _ := ensure SG_ERR_UNKNOWN (negb (length hash_buffer <? FINGERPRINT_LENGTH)%nat) in
  Ok hash_buffer.

Definition fingerprint_generator_create_for_impl (g : fingerprint_generator)
    (local_id local_identity remote_id remote_identity : bytes) : result fingerprint :=
  let? local_fp := fingerprint_generator_get_fingerprint g local_id local_identity in
  let? remote_fp := fingerprint_generator_get_fingerprint g remote_id remote_identity in
  let? displayable_local := fingerprint_generator_create_display_string local_fp in
  let? displayable_remote := fingerprint_generator_create_display_string remote_fp in
  let? displayable := displayable_fingerprint_create (Some displayable_local) (Some displayable_remote) in
  let? scannable :=
    (if fg_scannable_version g =? 0 then
       scannable_fingerprint_create 0 (Some local_id) (Some local_identity)
         (Some remote_id) (Some remote_identity)
     else if fg_scannable_version g =? 1 then
       scannable_fingerprint_create 1 None (Some local_fp) None (Some remote_fp)
     else Err SG_ERR_INVAL) in
  Ok (mk_fingerprint displayable scannable).

Definition fingerprint_generator_create_for (g : fingerprint_generator) (local_id : bytes)
    (local_key : option ec_public_key) (remote_id : bytes) (remote_key : option ec_public_key)
    : result fingerprint :=
  let? local_buffer := ec_public_key_serialize local_key in
  let? remote_buffer := ec_public_key_serialize remote_key in
  fingerprint_generator_create_for_impl g local_id local_buffer remote_id remote_buffer.

(** The loop that collects the serialized keys from position [i] on. *)
Fixpoint collect_keys (l : ec_public_key_list) (i n : nat) (vp : vpool) : result vpool :=
  match n with
  | O => Ok vp
  | S n' =>
      let? k := ec_public_key_list_at l i in
      let? buffer := ec_public_key_serialize (Some k) in
      let? vp := vpool_add vp buffer in
      collect_keys l (S i) n' vp
  end.

Definition fingerprint_generator_get_logical_key_bytes (unsorted : ec_public_key_list) : result bytes :=
  let sorted := ec_public_key_list_sort (ec_public_key_list_copy unsorted) in
  let? vp := collect_keys sorted 0 (ec_public_key_list_size sorted) (vpool_init 1024 0) in
  require SG_ERR_NOMEM (signal_buffer_create (vpool_get_buf vp)).

Definition fingerprint_generator_create_for_list (g : fingerprint_generator) (local_id : bytes)
    (local_keys : ec_public_key_list) (remote_id : bytes) (remote_keys : ec_public_key_list)
    : result fingerprint :=
  let? local_buffer := fingerprint_generator_get_logical_key_bytes local_keys in
  let? remote_buffer := fingerprint_generator_get_logical_key_bytes remote_keys in
  fingerprint_generator_create_for_impl g local_id local_buffer remote_id remote_buffer.

End generator.

(* ------------------------------------------------------------------ *)
(** ** Lemmas *)

(** An ASCII decimal digit. *)
Definition is_digit (b : byte) : Prop := 48 <= byte_val b <= 57.

Lemma digit_ok d : 0 <= d < 10 -> is_digit (digit d).
Proof. intros H. unfold is_digit, digit. rewrite byte_val_u8, Z.mod_small; lia. Qed.

Lemma five_digits_ok n : length (five_digits n) = 5%nat /\ Forall is_digit (five_digits n).
Proof.
  split; [done|]. unfold five_digits.
  repeat (constructor; [apply digit_ok, Z.mod_pos_bound; lia|]). constructor.
Qed.

Lemma encoded_chunks_ok data i n :
  length (encoded_chunks data i n) = (5 * n)%nat /\ Forall is_digit (encoded_chunks data i n).
Proof.
  revert i. induction n as [|n IH]; intros i; cbn [encoded_chunks]; [by split|].
  destruct (IH (i + 5)%nat) as [IHl IHd].
  unfold encoded_chunk. cbv zeta.
  match goal with |- context [five_digits ?k] => pose proof (five_digits_ok k) as [Hl Hd] end.
  rewrite length_app, Hl, IHl. split; [lia|]. by apply Forall_app.
Qed.

(** The comparison of two byte strings orders the display text the same way on
    both sides. *)
Lemma ordered_text_symmetric (l r : bytes) :
  (if memcmp l r <=? 0 then l ++ r else r ++ l) = (if memcmp r l <=? 0 then r ++ l else l ++ r).
Proof.
  rewrite (memcmp_antisym l r).
  destruct (Z.leb_spec (memcmp l r) 0), (Z.leb_spec (- memcmp l r) 0); try done; [|lia].
  assert (l = r) as -> by (apply memcmp_zero; lia). done.
Qed.

Lemma c_string_id b : Forall (fun c => c <> x00) b -> c_string b = b.
Proof. induction 1; simpl; [done|]. rewrite decide_False by done. by f_equal. Qed.

(** A scannable fingerprint as [scannable_fingerprint_create] makes it: both
    halves present, with identifiers exactly in version 0. *)
Definition scannable_wf (s : scannable_fingerprint) : Prop :=
  (sf_version s = 0 \/ sf_version s = 1) /\
  (exists l r, sf_local_fingerprint s = Some l /\ sf_remote_fingerprint s = Some r /\ fits l /\ fits r /\
     (sf_version s = 1 -> (length l <= 32)%nat /\ (length r <= 32)%nat)) /\
  (if sf_version s =? 0
   then exists a b, sf_local_stable_identifier s = Some a /\ sf_remote_stable_identifier s = Some b /\
          Forall (fun c => c <> x00) a /\ Forall (fun c => c <> x00) b
   else sf_local_stable_identifier s = None /\ sf_remote_stable_identifier s = None).

Lemma fits_take n b : fits b -> fits (take n b).
Proof.
  unfold fits, signal_buffer_alloc_ok. rewrite length_take.
  destruct (Z.ltb_spec (SIZE_MAX - signal_buffer_header) (Z.of_nat (length b))); [done|].
  intros _. rewrite (proj2 (Z.ltb_ge _ _)); [done|lia].
Qed.

Lemma signal_buffer_n_copy_fits b n : fits b -> signal_buffer_n_copy b n = Some (take n b).
Proof.
  intros H. unfold signal_buffer_n_copy.
  rewrite signal_buffer_create_fits by (by apply fits_take). f_equal.
  destruct (Nat.min_spec (length b) n) as [[? ->]|[? ->]]; [|done]. by rewrite !take_ge by lia.
Qed.

(** What [scannable_fingerprint_create] builds in the two versions. *)
Lemma scannable_create_v0 a l b r :
  fits l -> fits r ->
  scannable_fingerprint_create 0 (Some a) (Some l) (Some b) (Some r) =
  Ok (mk_scannable 0 (Some a) (Some l) (Some b) (Some r)).
Proof.
  intros Hl Hr. unfold scannable_fingerprint_create. cbn [Z.eqb orb andb negb ensure rbind require].
  unfold signal_buffer_copy. by rewrite !signal_buffer_create_fits.
Qed.

Lemma scannable_create_v1 a l b r :
  fits l -> fits r ->
  scannable_fingerprint_create 1 a (Some l) b (Some r) =
  Ok (mk_scannable 1 None (Some (take 32 l)) None (Some (take 32 r))).
Proof.
  intros Hl Hr. unfold scannable_fingerprint_create. cbn [Z.eqb orb andb negb ensure rbind require].
  by rewrite !signal_buffer_n_copy_fits.
Qed.

Section scannable_laws.
Context `{FC : Codec CombinedFingerprints} {FL : CodecLaws CombinedFingerprints FC CombinedFingerprints_ok}.

(** Writing a scannable fingerprint and reading it back. *)
Lemma scannable_round_trip s :
  scannable_wf s -> rbind (scannable_fingerprint_serialize s) scannable_fingerprint_deserialize = Ok s.
Proof.
  destruct s as [v a l b r]. intros (Hv & (l' & r' & El & Er & Fl & Fr & Hlen) & Hid). simpl in *. subst l r.
  unfold scannable_fingerprint_serialize. rewrite (packed_ok _ CombinedFingerprints_ok).
  cbn [rbind]. unfold scannable_fingerprint_deserialize, unpacked.
  rewrite (unpack_pack (ok := CombinedFingerprints_ok)) by (red; simpl; red; lia).
  cbn [require rbind sf_version sf_local_stable_identifier sf_local_fingerprint sf_remote_stable_identifier
       sf_remote_fingerprint logical_fingerprint cf_version cf_localfingerprint cf_remotefingerprint
       read_logical lf_content lf_identifier default].
  rewrite !signal_buffer_create_fits by done. cbn [require rbind fst snd].
  destruct Hv as [-> | ->]; cbn [Z.eqb] in *.
  - destruct Hid as (a' & b' & -> & -> & Ha & Hb). cbn [fmap option_fmap option_map].
    rewrite !c_string_id by done. by apply scannable_create_v0.
  - destruct Hid as [-> ->]. rewrite scannable_create_v1 by done. by rewrite !take_ge by (apply Hlen; done).
Qed.

End scannable_laws.

(** The serialized keys of a list, in its order. *)
Definition key_bytes (l : list ec_public_key) : bytes :=
  concat (map (fun k => DJB_TYPE :: take DJB_KEY_LEN (pub_data k)) l).

Lemma length_key_bytes l : (length (key_bytes l) <= 33 * length l)%nat.
Proof.
  unfold key_bytes. induction l as [|k l IH]; simpl; [lia|].
  rewrite length_app, length_take in *. unfold DJB_KEY_LEN in *. lia.
Qed.

Lemma collect_keys_ok l i n vp acc :
  (i + n = length l)%nat -> pool_at vp acc ->
  (length acc + length (key_bytes (drop i l)) <= 4096)%nat ->
  exists vp', collect_keys l i n vp = Ok vp' /\ pool_at vp' (acc ++ key_bytes (drop i l)).
Proof.
  revert i vp acc. induction n as [|n IH]; intros i vp acc Hi Hp Hl; cbn [collect_keys].
  - rewrite drop_ge by lia. eexists. split; [done|]. by rewrite app_nil_r.
  - destruct (lookup_lt_is_Some_2 l i ltac:(lia)) as [k Hk].
    unfold ec_public_key_list_at. rewrite Hk. cbn [deref rbind ec_public_key_serialize].
    rewrite (drop_S _ _ _ Hk) in *. unfold key_bytes in Hl |- *. cbn [map concat] in Hl |- *.
    rewrite length_app in Hl.
    destruct (vpool_add_ok vp acc (DJB_TYPE :: take DJB_KEY_LEN (pub_data k)) Hp ltac:(lia))
      as (vp1 & -> & Hp1). cbn [rbind].
    destruct (IH (S i) vp1 _ ltac:(lia) Hp1) as (vp2 & E & Hp2).
    { unfold key_bytes. rewrite length_app. lia. }
    exists vp2. split; [done|]. by rewrite <- app_assoc in Hp2.
Qed.

Lemma length_sort l : length (ec_public_key_list_sort l) = length l.
Proof. unfold ec_public_key_list_sort. by rewrite (sorting.merge_sort_Permutation key_le). Qed.

(** The logical key of a party: its device keys in ascending order. *)
Lemma get_logical_key_bytes_ok l :
  (length l <= 124)%nat ->
  fingerprint_generator_get_logical_key_bytes l = Ok (key_bytes (ec_public_key_list_sort l)).
Proof.
  intros Hl. unfold fingerprint_generator_get_logical_key_bytes, ec_public_key_list_copy, ec_public_key_list_size.
  pose proof (length_key_bytes (ec_public_key_list_sort l)) as Hb. rewrite length_sort in Hb.
  assert (pool_at (vpool_init 1024 0) []) as H0 by (split_and!; [apply vpool_init_wf; lia|done|done]).
  edestruct (collect_keys_ok (ec_public_key_list_sort l) 0 (length (ec_public_key_list_sort l))
    (vpool_init 1024 0) [] eq_refl H0) as (vp & E & Hp); [rewrite drop_0; simpl; lia|].
  rewrite E. cbn [rbind]. rewrite drop_0 in Hp. destruct Hp as (_ & _ & Hd).
  unfold vpool_get_buf. rewrite Hd. cbn [app].
  rewrite signal_buffer_create_fits; [done|].
  unfold fits, signal_buffer_alloc_ok, SIZE_MAX, signal_buffer_header.
  rewrite (proj2 (Z.ltb_ge _ _)); [done|lia].
Qed.

Section generator_laws.
Context `{SP : Sha512Provider} {SL : Sha512Laws SP}.

(** The fingerprint of one party: the hash of its keys and its identifier,
    chained with the keys [iterations] times. *)
Definition fingerprint_of (iterations : Z) (stable_identifier identity : bytes) : bytes :=
  Nat.iter (Z.to_nat iterations) (fun h => SHA512 (h ++ identity))
    ([x00; u8 FINGERPRINT_VERSION] ++ identity ++ stable_identifier).

Lemma fingerprint_rounds_ok n c h identity :
  absorbed c [] ->
  fingerprint_rounds n c h identity = Ok (Nat.iter n (fun h => SHA512 (h ++ identity)) h).
Proof.
  revert c h. induction n as [|n IH]; intros c h Hc; cbn [fingerprint_rounds]; [done|].
  destruct (sha512_update_ok c [] h Hc) as (c1 & -> & H1). cbn [rbind].
  destruct (sha512_update_ok c1 _ identity H1) as (c2 & -> & H2). cbn [rbind].
  destruct (sha512_final_ok c2 _ H2) as (c3 & -> & H3). cbn [rbind].
  rewrite IH by done. cbn [app]. by rewrite Nat.iter_succ_r.
Qed.

Lemma length_fingerprint_of n i k : 0 < n -> length (fingerprint_of n i k) = 64%nat.
Proof.
  intros Hn. unfold fingerprint_of. destruct (Z.to_nat n) eqn:E; [lia|]. apply SHA512_length.
Qed.

(** The inputs the generator accepts for one party. *)
Definition party_fits (stable_identifier identity : bytes) : Prop :=
  fits ([x00; u8 FINGERPRINT_VERSION] ++ identity ++ stable_identifier).

Lemma party_fits_identity i k : party_fits i k -> fits k.
Proof.
  unfold party_fits, fits, signal_buffer_alloc_ok. rewrite !length_app. simpl.
  destruct (Z.ltb_spec (SIZE_MAX - signal_buffer_header) (Z.of_nat (length k))); [|done].
  rewrite (proj2 (Z.ltb_lt _ _)); [done|lia].
Qed.

Lemma get_fingerprint_ok g i k :
  0 < fg_iterations g -> party_fits i k ->
  fingerprint_generator_get_fingerprint g i k = Ok (fingerprint_of (fg_iterations g) i k).
Proof.
  intros Hn Hf. unfold fingerprint_generator_get_fingerprint.
  destruct sha512_init_ok as (c & -> & Hc). cbn [rbind].
  rewrite signal_buffer_create_fits by done. cbn [require rbind].
  rewrite fingerprint_rounds_ok by done. cbn [rbind]. fold (fingerprint_of (fg_iterations g) i k).
  by rewrite length_fingerprint_of.
Qed.

(** The 30 digits that stand for one party. *)
Definition display_of (iterations : Z) (stable_identifier identity : bytes) : bytes :=
  encoded_chunks (fingerprint_of iterations stable_identifier identity) 0 6.

(** What the scanned code holds in the two versions. *)
Definition scannable_of (g : fingerprint_generator) (li lk ri rk : bytes) : scannable_fingerprint :=
  if fg_scannable_version g =? 0 then mk_scannable 0 (Some li) (Some lk) (Some ri) (Some rk)
  else mk_scannable 1 None (Some (take 32 (fingerprint_of (fg_iterations g) li lk)))
         None (Some (take 32 (fingerprint_of (fg_iterations g) ri rk))).

Definition generator_wf (g : fingerprint_generator) : Prop :=
  0 < fg_iterations g /\ 0 <= fg_scannable_version g <= 1.

Lemma create_for_impl_ok g li lk ri rk :
  generator_wf g -> party_fits li lk -> party_fits ri rk ->
  fingerprint_generator_create_for_impl g li lk ri rk =
  let l := display_of (fg_iterations g) li lk in
  let r := display_of (fg_iterations g) ri rk in
  Ok (mk_fingerprint (mk_displayable l r (if memcmp l r <=? 0 then l ++ r else r ++ l))
        (scannable_of g li lk ri rk)).
Proof.
  intros [Hn Hv] Hl Hr. unfold fingerprint_generator_create_for_impl.
  rewrite !get_fingerprint_ok by done. cbn [rbind].
  unfold fingerprint_generator_create_display_string. rewrite !length_fingerprint_of by done.
  cbn [Nat.ltb Nat.leb negb ensure rbind FINGERPRINT_LENGTH displayable_fingerprint_create].
  assert (forall i k, fits (fingerprint_of (fg_iterations g) i k)) as Hfit.
  { intros. apply fits_small. rewrite length_fingerprint_of by done. lia. }
  unfold scannable_of. assert (fg_scannable_version g = 0 \/ fg_scannable_version g = 1) as [-> | ->] by lia;
    cbn [Z.eqb].
  - by rewrite scannable_create_v0 by eauto using party_fits_identity.
  - by rewrite scannable_create_v1.
Qed.

Lemma scannable_of_wf g li lk ri rk :
  generator_wf g -> party_fits li lk -> party_fits ri rk ->
  Forall (fun c => c <> x00) li -> Forall (fun c => c <> x00) ri ->
  scannable_wf (scannable_of g li lk ri rk).
Proof.
  intros [Hn Hv] Hl Hr Hli Hri. unfold scannable_of, scannable_wf.
  assert (fg_scannable_version g = 0 \/ fg_scannable_version g = 1) as [-> | ->] by lia; cbn [Z.eqb];
    cbn [sf_version sf_local_fingerprint sf_remote_fingerprint sf_local_stable_identifier
         sf_remote_stable_identifier Z.eqb]; split_and!; [by left| |by eauto 10|by right| |done|done].
  - exists lk, rk. split_and!; [done..|eauto using party_fits_identity| eauto using party_fits_identity|done].
  - do 2 eexists. split_and!; [done..|apply fits_small|apply fits_small|];
      rewrite !length_take, !length_fingerprint_of by done; lia.
Qed.

(** Two scanned codes match exactly when each side computed for the other what
    the other computed for itself. *)
Lemma scannable_compare_iff g li lk ri rk lk' rk' :
  generator_wf g ->
  scannable_fingerprint_compare (scannable_of g li lk ri rk) (scannable_of g ri rk' li lk') = Ok true <->
  if fg_scannable_version g =? 0 then lk = lk' /\ rk = rk'
  else let f i k := take 32 (fingerprint_of (fg_iterations g) i k) in f li lk = f li lk' /\ f ri rk = f ri rk'.
Proof.
  intros [Hn Hv]. unfold scannable_of, scannable_fingerprint_compare.
  assert (fg_scannable_version g = 0 \/ fg_scannable_version g = 1) as [-> | ->] by lia; cbn [Z.eqb];
    cbn [sf_version sf_local_fingerprint sf_remote_fingerprint sf_local_stable_identifier
         sf_remote_stable_identifier Z.eqb negb Pos.eqb rbind deref].
  - rewrite !(proj2 (memcmp_zero _ _)) by done. cbn [Z.eqb ensure rbind].
    rewrite <- (inj_iff Some lk lk'), <- (inj_iff Some rk rk'), <- !signal_buffer_compare_zero.
    rewrite (inj_iff Ok), andb_true_iff, !Z.eqb_eq. done.
  - cbv zeta. rewrite <- !(inj_iff Some (take _ _)), <- !signal_buffer_compare_zero.
    rewrite (inj_iff Ok), andb_true_iff, !Z.eqb_eq. done.
Qed.

End generator_laws.
