(* ===== verification/DeviceConsistency.v ===== *)
(** [device_consistency.c]: the commitment to the identity keys of a user's
    devices, the VRF-signed messages over it, and the six-digit code computed
    from their outputs.

    A list of signatures is the list of its elements; [qsort] leaves the order
    of equal elements open, and signatures that compare equal contribute the
    same bytes to the code. *)

From S2P Require Import Prelude Buffers Vpool Crypto Curve Hkdf Ratchet SessionState LocalStorage.
From S2P Require Import Protocol RatchetSession KeyList Fingerprint.
From stdpp Require Import sorting.
From Stdlib Require Strings.String.
Import (notations) Strings.String.StringSyntax.
Open Scope string_scope.
Open Scope Z_scope.
Open Scope sig_scope.

Definition CODE_VERSION : Z := 0.

Record device_consistency_signature := mk_dc_signature {
  dcs_signature : bytes;
  dcs_vrf_output : bytes }.

Record device_consistency_commitment := mk_dc_commitment {
  dcc_generation : Z;
  dcc_serialized : bytes }.

Record device_consistency_message := mk_dc_message {
  dcm_signature : device_consistency_signature;
  dcm_generation : Z;
  dcm_serialized : bytes }.

Definition device_consistency_signature_create (signature vrf_output : bytes)
    : result device_consistency_signature :=
  let? s := require SG_ERR_NOMEM (signal_buffer_create signature) in
  let? o := require SG_ERR_NOMEM (signal_buffer_create vrf_output) in
  Ok (mk_dc_signature s o).

(** [if(result == e1 || ...) result = e';] before the return. *)
Definition remap {A} (codes : list Z) (e' : Z) (r : result A) : result A :=
  match r with
  | Err e => if bool_decide (e ∈ codes) then Err e' else Err e
  | _ => r
  end.

Section commitment.
Context `{SP : Sha512Provider}.

(** The keys from position [i] on, each absorbed in its serialized form. *)
Fixpoint digest_keys (l : ec_public_key_list) (i n : nat) (c : digest_context) : result digest_context :=
  match n with
  | O => Ok c
  | S n' =>
      let? key := ec_public_key_list_at l i in
      let? key_buffer := ec_public_key_serialize (Some key) in
      let? c := sha512_digest_update_func c key_buffer in
      digest_keys l (S i) n' c
  end.

Definition gen_data (generation : Z) : bytes :=
  [u8 (Z.shiftr generation 24); u8 (Z.shiftr generation 16); u8 (Z.shiftr generation 8); u8 generation].

Definition commitment_version : bytes := str "DeviceConsistencyCommitment_V0".

Definition device_consistency_commitment_create (generation : Z) (identity_key_list : ec_public_key_list)
    : result device_consistency_commitment :=
  let sorted_list := ec_public_key_list_sort (ec_public_key_list_copy identity_key_list) in
  let? c := sha512_digest_init_func in
  let? c := sha512_digest_update_func c commitment_version in
  let? c := sha512_digest_update_func c (gen_data generation) in
  let? c := digest_keys sorted_list 0 (ec_public_key_list_size sorted_list) c in
  let? '(serialized, _) := sha512_digest_final_func c in
  Ok (mk_dc_commitment generation serialized).

End commitment.

Section messages.
Context `{CP : CryptoProvider} `{XV : Xveddsa} `{DC : Codec DeviceConsistencyCodeMessage}.

(** The message of one device, made with its identity key pair. *)
Definition create_from_pair_body (commitment : device_consistency_commitment)
    (identity_key_pair : ec_key_pair) : M rng device_consistency_message :=
  do signature <- curve_calculate_vrf_signature (private_key identity_key_pair) (dcc_serialized commitment);
  lift (
    let? vrf_output := curve_verify_vrf_signature (Some (public_key identity_key_pair))
                         (dcc_serialized commitment) signature in
    let? s := device_consistency_signature_create signature vrf_output in
    let? serialized := packed (mk_DeviceConsistencyCodeMessage (Some (dcc_generation commitment))
                         (Some (dcs_signature s))) in
    Ok (mk_dc_message s (dcc_generation commitment) serialized)).

Definition device_consistency_message_create_from_pair (commitment : device_consistency_commitment)
    (identity_key_pair : ec_key_pair) : M rng device_consistency_message := fun g =>
  let '(r, g') := create_from_pair_body commitment identity_key_pair g in
  (remap [SG_ERR_INVALID_KEY; SG_ERR_VRF_SIG_VERIF_FAILED] SG_ERR_UNKNOWN r, g').

(** The message of another device, from its bytes and its identity key. *)
Definition device_consistency_message_create_from_serialized (commitment : device_consistency_commitment)
    (serialized : bytes) (identity_key : option ec_public_key) : result device_consistency_message :=
  remap [SG_ERR_INVALID_PROTO_BUF; SG_ERR_INVALID_KEY; SG_ERR_VRF_SIG_VERIF_FAILED] SG_ERR_INVALID_MESSAGE (
    let? m := unpacked serialized in
    match dccm_generation m, dccm_signature m with
    | Some generation, Some signature =>
        let? vrf_output := curve_verify_vrf_signature identity_key (dcc_serialized commitment) signature in
        let? s := device_consistency_signature_create signature vrf_output in
        let? data := require SG_ERR_NOMEM (signal_buffer_create serialized) in
        Ok (mk_dc_message s generation data)
    | _, _ => Err SG_ERR_INVALID_PROTO_BUF
    end).

End messages.

(* ------------------------------------------------------------------ *)
(** ** Lists of signatures and the code *)

Abbreviation device_consistency_signature_list := (list device_consistency_signature).

Definition device_consistency_signature_list_copy (l : device_consistency_signature_list)
    : device_consistency_signature_list := l.
Definition device_consistency_signature_list_push_back (l : device_consistency_signature_list)
    (s : device_consistency_signature) : device_consistency_signature_list := l ++ [s].
Definition device_consistency_signature_list_size (l : device_consistency_signature_list) : nat := length l.

(** [assert(index < utarray_len(list->values))] *)
Definition device_consistency_signature_list_at (l : device_consistency_signature_list) (i : nat)
    : result device_consistency_signature := deref (l !! i).

(** Shorter outputs first, equal lengths by their bytes. *)
Definition vrf_output_compare (b1 b2 : bytes) : Z :=
  if (length b1 =? length b2)%nat then memcmp b1 b2
  else if (length b1 <? length b2)%nat then -1 else 1.

Definition device_consistency_signature_list_sort_comparator (a b : device_consistency_signature) : Z :=
  vrf_output_compare (dcs_vrf_output a) (dcs_vrf_output b).

Definition sig_le (a b : device_consistency_signature) : Prop :=
  device_consistency_signature_list_sort_comparator a b <= 0.

#[global] Instance sig_le_dec a b : Decision (sig_le a b).
Proof. unfold sig_le. apply _. Defined.

Definition device_consistency_signature_list_sort (l : device_consistency_signature_list)
    : device_consistency_signature_list := merge_sort sig_le l.

Section code.
Context `{SP : Sha512Provider}.

(** The VRF outputs from position [i] on. *)
Fixpoint digest_outputs (l : device_consistency_signature_list) (i n : nat) (c : digest_context)
    : result digest_context :=
  match n with
  | O => Ok c
  | S n' =>
      let? s := device_consistency_signature_list_at l i in
      let? c := sha512_digest_update_func c (dcs_vrf_output s) in
      digest_outputs l (S i) n' c
  end.

Definition device_consistency_code_generate_for (commitment : device_consistency_commitment)
    (signatures : device_consistency_signature_list) : result bytes :=
  let sorted_list := device_consistency_signature_list_sort (device_consistency_signature_list_copy signatures) in
  let? c := sha512_digest_init_func in
  let? c := sha512_digest_update_func c [u8 (Z.shiftr CODE_VERSION 8); u8 CODE_VERSION] in
  let? c := sha512_digest_update_func c (dcc_serialized commitment) in
  let? c := digest_outputs sorted_list 0 (device_consistency_signature_list_size sorted_list) c in
  let? '(data, _) := sha512_digest_final_func c in
  let? _ := ensure SG_ERR_UNKNOWN (negb (length data <? 10)%nat) in
  Ok (take 6 (encoded_chunks data 0 2)).

End code.

(* ------------------------------------------------------------------ *)
(** ** Lemmas *)

(** The order of the VRF outputs. *)
Definition output_le (b1 b2 : bytes) : Prop := vrf_output_compare b1 b2 <= 0.

Lemma output_le_spec b1 b2 :
  output_le b1 b2 <-> (length b1 < length b2)%nat \/ length b1 = length b2 /\ lex_le b1 b2.
Proof.
  unfold output_le, vrf_output_compare, lex_le.
  destruct (Nat.eqb_spec (length b1) (length b2)); [lia|].
  destruct (Nat.ltb_spec (length b1) (length b2)); lia.
Qed.

#[global] Instance output_le_trans : Transitive output_le.
Proof.
  intros a b c. rewrite !output_le_spec. intros [?|[? ?]] [?|[? ?]]; try (left; lia).
  right. split; [lia|]. by etrans.
Qed.

#[global] Instance output_le_antisym : AntiSymm (=) output_le.
Proof. intros a b. rewrite !output_le_spec. intros [?|[? ?]] [?|[? ?]]; try lia. by apply lex_le_antisym. Qed.

#[global] Instance sig_le_total : Total sig_le.
Proof.
  intros a b. change (output_le (dcs_vrf_output a) (dcs_vrf_output b) \/
    output_le (dcs_vrf_output b) (dcs_vrf_output a)). rewrite !output_le_spec.
  destruct (Nat.lt_trichotomy (length (dcs_vrf_output a)) (length (dcs_vrf_output b))) as [?|[E|?]]; [auto| |auto].
  destruct (lex_le_total (dcs_vrf_output a) (dcs_vrf_output b)); auto 10.
Qed.

(** The outputs in the order in which the code absorbs them. *)
Definition sorted_outputs (l : device_consistency_signature_list) : list bytes :=
  dcs_vrf_output <$> device_consistency_signature_list_sort l.

(** It does not depend on the order in which the signatures were collected. *)
Lemma sorted_outputs_Permutation l1 l2 : l1 ≡ₚ l2 -> sorted_outputs l1 = sorted_outputs l2.
Proof.
  intros Hp. unfold sorted_outputs, device_consistency_signature_list_sort.
  apply (Sorted_unique output_le).
  - eapply Sorted_fmap; [|apply Sorted_merge_sort, _]. by intros a b.
  - eapply Sorted_fmap; [|apply Sorted_merge_sort, _]. by intros a b.
  - by rewrite !(merge_sort_Permutation sig_le), Hp.
Qed.

Section digest_laws.
Context `{SP : Sha512Provider} {SL : Sha512Laws SP}.

Lemma digest_keys_ok l i n c m :
  (i + n = length l)%nat -> absorbed c m ->
  exists c', digest_keys l i n c = Ok c' /\ absorbed c' (m ++ key_bytes (drop i l)).
Proof.
  revert i c m. induction n as [|n IH]; intros i c m Hi Hc; cbn [digest_keys].
  - rewrite drop_ge by lia. exists c. by rewrite app_nil_r.
  - destruct (lookup_lt_is_Some_2 l i ltac:(lia)) as [k Hk].
    unfold ec_public_key_list_at. rewrite Hk. cbn [deref rbind ec_public_key_serialize].
    destruct (sha512_update_ok c m (DJB_TYPE :: take DJB_KEY_LEN (pub_data k)) Hc) as (c1 & -> & H1).
    cbn [rbind]. destruct (IH (S i) c1 _ ltac:(lia) H1) as (c2 & E & H2).
    exists c2. split; [done|]. rewrite (drop_S _ _ _ Hk). unfold key_bytes in *. cbn [map concat].
    by rewrite <- app_assoc in H2.
Qed.

Lemma digest_outputs_ok l i n c m :
  (i + n = length l)%nat -> absorbed c m ->
  exists c', digest_outputs l i n c = Ok c' /\
    absorbed c' (m ++ concat (dcs_vrf_output <$> drop i l)).
Proof.
  revert i c m. induction n as [|n IH]; intros i c m Hi Hc; cbn [digest_outputs].
  - rewrite drop_ge by lia. exists c. by rewrite app_nil_r.
  - destruct (lookup_lt_is_Some_2 l i ltac:(lia)) as [s Hs].
    unfold device_consistency_signature_list_at. rewrite Hs. cbn [deref rbind].
    destruct (sha512_update_ok c m (dcs_vrf_output s) Hc) as (c1 & -> & H1).
    cbn [rbind]. destruct (IH (S i) c1 _ ltac:(lia) H1) as (c2 & E & H2).
    exists c2. split; [done|]. rewrite (drop_S _ _ _ Hs). cbn [fmap list_fmap concat].
    by rewrite <- app_assoc in H2.
Qed.

(** The commitment is the hash of the version, the generation and the keys in
    ascending order. *)
Definition commitment_of (generation : Z) (keys : list ec_public_key) : device_consistency_commitment :=
  mk_dc_commitment generation
    (SHA512 (commitment_version ++ gen_data generation ++ key_bytes (ec_public_key_list_sort keys))).

Lemma commitment_create_ok generation keys :
  device_consistency_commitment_create generation keys = Ok (commitment_of generation keys).
Proof.
  unfold device_consistency_commitment_create, ec_public_key_list_copy, ec_public_key_list_size.
  destruct sha512_init_ok as (c & -> & Hc). cbn [rbind].
  destruct (sha512_update_ok c [] commitment_version Hc) as (c1 & -> & H1). cbn [rbind].
  destruct (sha512_update_ok c1 _ (gen_data generation) H1) as (c2 & -> & H2). cbn [rbind].
  destruct (digest_keys_ok (ec_public_key_list_sort keys) 0 _ c2 _ eq_refl H2) as (c3 & -> & H3).
  cbn [rbind]. destruct (sha512_final_ok c3 _ H3) as (c4 & -> & _). cbn [rbind].
  unfold commitment_of. by rewrite drop_0, <- app_assoc.
Qed.

(** The code: the first six digits of the hash of the version, the commitment
    and the sorted outputs. *)
Definition code_of (commitment : device_consistency_commitment) (outputs : list bytes) : bytes :=
  take 6 (encoded_chunks (SHA512 ([x00; x00] ++ dcc_serialized commitment ++ concat outputs)) 0 2).

Lemma code_generate_ok commitment signatures :
  device_consistency_code_generate_for commitment signatures =
  Ok (code_of commitment (sorted_outputs signatures)).
Proof.
  unfold device_consistency_code_generate_for, device_consistency_signature_list_copy,
    device_consistency_signature_list_size.
  destruct sha512_init_ok as (c & -> & Hc). cbn [rbind].
  destruct (sha512_update_ok c [] [u8 (Z.shiftr CODE_VERSION 8); u8 CODE_VERSION] Hc) as (c1 & -> & H1).
  cbn [rbind].
  destruct (sha512_update_ok c1 _ (dcc_serialized commitment) H1) as (c2 & -> & H2). cbn [rbind].
  destruct (digest_outputs_ok (device_consistency_signature_list_sort signatures) 0 _ c2 _ eq_refl H2)
    as (c3 & -> & H3).
  cbn [rbind]. destruct (sha512_final_ok c3 _ H3) as (c4 & -> & _). cbn [rbind].
  rewrite SHA512_length. cbn [Nat.ltb Nat.leb negb ensure rbind].
  unfold code_of, sorted_outputs. by rewrite drop_0, <- app_assoc.
Qed.

Lemma code_of_digits commitment outputs :
  length (code_of commitment outputs) = 6%nat /\ Forall is_digit (code_of commitment outputs).
Proof.
  unfold code_of.
  match goal with |- context [encoded_chunks ?d 0 2] => destruct (encoded_chunks_ok d 0 2) as [Hl Hd] end.
  split; [rewrite length_take, Hl; lia|by apply Forall_take].
Qed.

End digest_laws.

Lemma require_create_ok e b x : require e (signal_buffer_create b) = Ok x -> x = b.
Proof. unfold signal_buffer_create. case_match; [by intros [= ->]|done]. Qed.

Lemma signature_create_ok s o r :
  device_consistency_signature_create s o = Ok r -> r = mk_dc_signature s o.
Proof.
  unfold device_consistency_signature_create.
  intros (x & ->%require_create_ok & (y & ->%require_create_ok & [= <-])%rbind_ok)%rbind_ok. done.
Qed.

Section message_laws.
Context `{CP : CryptoProvider} {CL : CryptoProviderLaws CP}.
Context `{CV : Curve25519} {CVL : Curve25519Laws CV}.
Context `{XV : Xveddsa} {XVL : XveddsaLaws XV CV}.
Context `{DC : Codec DeviceConsistencyCodeMessage}.
Context {DL : CodecLaws DeviceConsistencyCodeMessage DC DeviceConsistencyCodeMessage_ok}.

(** A message made from a key pair is accepted from its bytes under the public
    key, and reads as the same message. *)
Lemma device_message_round_trip c p g m g' :
  signing_pair p -> is_u32 (dcc_generation c) ->
  device_consistency_message_create_from_pair c p g = (Ok m, g') -> fits (dcm_serialized m) ->
  device_consistency_message_create_from_serialized c (dcm_serialized m) (Some (public_key p)) = Ok m.
Proof.
  intros Hp Hg. unfold device_consistency_message_create_from_pair.
  destruct (create_from_pair_body c p g) as [[m'|e|] g1] eqn:E; simpl;
    [intros [= -> ->]|by case_bool_decide|done].
  unfold create_from_pair_body in E. apply bind_ok in E as (sig & g2 & Hs & [E ->]%lift_ok).
  apply rbind_ok in E as (out & Hv & (s & Hc & E)%rbind_ok).
  rewrite (packed_ok _ DeviceConsistencyCodeMessage_ok) in E. cbn [rbind] in E. injection E as <-.
  cbn [dcm_serialized]. intros Hf.
  unfold device_consistency_message_create_from_serialized, unpacked.
  rewrite (unpack_pack (ok := DeviceConsistencyCodeMessage_ok)) by done.
  cbn [require rbind dccm_generation dccm_signature].
  assert (dcs_signature s = sig) as Hds.
  { by apply signature_create_ok in Hc as ->. }
  rewrite Hds in *. rewrite Hv. cbn [rbind]. rewrite Hc. cbn [rbind].
  by rewrite signal_buffer_create_fits.
Qed.

(** An accepted message carries a VRF signature of the commitment, with its
    output. *)
Lemma from_serialized_verified c data key m :
  device_consistency_message_create_from_serialized c data key = Ok m ->
  curve_verify_vrf_signature key (dcc_serialized c) (dcs_signature (dcm_signature m)) =
    Ok (dcs_vrf_output (dcm_signature m)) /\ dcm_serialized m = data.
Proof.
  unfold device_consistency_message_create_from_serialized.
  match goal with |- remap _ _ ?r = _ -> _ => destruct r as [m'|e|] eqn:E end;
    simpl; [intros [= ->]|by case_bool_decide|done].
  apply rbind_ok in E as (st & _ & E).
  destruct (dccm_generation st); [|done]. destruct (dccm_signature st) as [sig|]; [|done].
  apply rbind_ok in E as (out & Hv & (s & Hc & (d & Hd & E)%rbind_ok)%rbind_ok).
  injection E as <-. cbn [dcm_signature dcm_serialized].
  apply signature_create_ok in Hc as ->. by apply require_create_ok in Hd.
Qed.

End message_laws.
