(* ===== verification/Wire.v ===== *)
(** A concrete codec: the protobuf wire format of the messages of
    [LocalStorage].

    [pack] writes the fields in the order of their numbers, as the generated
    descriptors list them; [unpack] reads any sequence of varint, fixed64 and
    length-delimited fields, takes the last occurrence of an optional field and
    all occurrences of a repeated one, and ignores unknown numbers.  The codecs
    satisfy [CodecLaws], which is what the rest of the development assumes of
    the packing and unpacking functions. *)

From S2P Require Import Prelude Crypto LocalStorage.

(* ------------------------------------------------------------------ *)
(** ** Varints and fields *)

Fixpoint enc_varint_aux (fuel : nat) (z : Z) : bytes :=
  match fuel with
  | O => []
  | S fuel' => if z <? 128 then [u8 z] else u8 (z mod 128 + 128) :: enc_varint_aux fuel' (z / 128)
  end.

(** A varint of [z] has one byte for every seven bits. *)
Definition enc_varint (z : Z) : bytes := enc_varint_aux (S (Z.to_nat (Z.log2 z))) z.

Fixpoint dec_varint (l : bytes) : option (Z * bytes) :=
  match l with
  | [] => None
  | b :: l' =>
      if byte_val b <? 128 then Some (byte_val b, l')
      else match dec_varint l' with
           | Some (v, rest) => Some (byte_val b - 128 + 128 * v, rest)
           | None => None
           end
  end.

Lemma dec_enc_varint_aux fuel : forall z rest,
  (0 < fuel)%nat -> 0 <= z -> z < 2 ^ Z.of_nat fuel ->
  dec_varint (enc_varint_aux fuel z ++ rest) = Some (z, rest).
Proof.
  induction fuel as [|fuel IH]; intros z rest Hf Hz Hlt; [lia|].
  cbn [enc_varint_aux]. destruct (Z.ltb_spec z 128) as [H|H]; cbn [app dec_varint].
  - rewrite byte_val_u8, Z.mod_small by lia. by rewrite (proj2 (Z.ltb_lt _ _)) by lia.
  - pose proof (Z.mod_pos_bound z 128 ltac:(lia)).
    rewrite byte_val_u8, Z.mod_small by lia. rewrite (proj2 (Z.ltb_ge _ _)) by lia.
    rewrite IH.
    + do 2 f_equal. pose proof (Z.div_mod z 128 ltac:(lia)). lia.
    + destruct fuel; [simpl in Hlt|]; lia.
    + apply Z.div_pos; lia.
    + rewrite Nat2Z.inj_succ, Z.pow_succ_r in Hlt by lia.
      apply Z.div_lt_upper_bound; [lia|]. pose proof (Z.pow_pos_nonneg 2 (Z.of_nat fuel)). lia.
Qed.

Lemma dec_enc_varint z rest : 0 <= z -> dec_varint (enc_varint z ++ rest) = Some (z, rest).
Proof.
  intros Hz. apply dec_enc_varint_aux; [lia|done|]. rewrite Nat2Z.inj_succ, Z2Nat.id by apply Z.log2_nonneg.
  destruct (Z.eq_dec z 0) as [->|]; [done|]. apply Z.log2_spec. lia.
Qed.

Inductive wire : Type :=
| WVarint (z : Z)
| WFixed64 (z : Z)
| WBytes (b : bytes).

Definition wire_ok (w : wire) : Prop :=
  match w with WVarint z => 0 <= z | WFixed64 z => 0 <= z < 2 ^ 64 | WBytes _ => True end.

Definition field : Type := Z * wire.

Definition enc_field (f : field) : bytes :=
  match f.2 with
  | WVarint z => enc_varint (f.1 * 8) ++ enc_varint z
  | WFixed64 z => enc_varint (f.1 * 8 + 1) ++ le_bytes 8 z
  | WBytes b => enc_varint (f.1 * 8 + 2) ++ enc_varint (Z.of_nat (length b)) ++ b
  end.

Definition dec_field (l : bytes) : option (field * bytes) :=
  match dec_varint l with
  | None => None
  | Some (tag, l) =>
      let n := tag / 8 in
      if tag mod 8 =? 0 then
        match dec_varint l with Some (z, l) => Some ((n, WVarint z), l) | None => None end
      else if tag mod 8 =? 1 then
        if (length l <? 8)%nat then None else Some ((n, WFixed64 (le_val (take 8 l))), drop 8 l)
      else if tag mod 8 =? 2 then
        match dec_varint l with
        | Some (len, l) =>
            if (length l <? Z.to_nat len)%nat then None
            else Some ((n, WBytes (take (Z.to_nat len) l)), drop (Z.to_nat len) l)
        | None => None
        end
      else None
  end.

Fixpoint dec_fields (fuel : nat) (l : bytes) : option (list field) :=
  match l with
  | [] => Some []
  | _ => match fuel with
         | O => None
         | S fuel' => match dec_field l with
                      | Some (f, rest) => match dec_fields fuel' rest with
                                          | Some fs => Some (f :: fs)
                                          | None => None
                                          end
                      | None => None
                      end
         end
  end.

Definition field_ok (f : field) : Prop := 0 <= f.1 /\ wire_ok f.2.

Lemma tag_split n k : 0 <= k < 8 -> (n * 8 + k) / 8 = n /\ (n * 8 + k) mod 8 = k.
Proof.
  intros Hk. split; symmetry; [apply (Z.div_unique _ _ n k)|apply (Z.mod_unique _ _ n k)]; lia.
Qed.

Lemma dec_enc_field f rest : field_ok f -> dec_field (enc_field f ++ rest) = Some (f, rest).
Proof.
  destruct f as [n w]. intros [Hn Hw]. simpl in Hn, Hw. unfold dec_field, enc_field.
  destruct w as [z|z|b]; cbn [fst snd] in *; rewrite <- !app_assoc, dec_enc_varint by lia.
  - rewrite Z.mod_mul, Z.div_mul by lia. cbn [Z.eqb]. by rewrite dec_enc_varint.
  - destruct (tag_split n 1) as [-> ->]; [lia|]. cbn [Z.eqb Pos.eqb].
    rewrite (proj2 (Nat.ltb_ge _ _)) by (rewrite length_app, length_le_bytes; lia).
    rewrite take_app_length', drop_app_length' by (by rewrite length_le_bytes).
    rewrite le_val_le_bytes, Z.mod_small by done. done.
  - destruct (tag_split n 2) as [-> ->]; [lia|]. cbn [Z.eqb Pos.eqb].
    rewrite dec_enc_varint by lia. rewrite Nat2Z.id.
    rewrite (proj2 (Nat.ltb_ge _ _)) by (rewrite length_app; lia).
    by rewrite take_app_length, drop_app_length.
Qed.

Definition enc_fields (fs : list field) : bytes := concat (map enc_field fs).

Lemma enc_varint_nonempty z : enc_varint z <> [].
Proof. unfold enc_varint. cbn [enc_varint_aux]. by case_match. Qed.

Lemma enc_field_nonempty f : enc_field f <> [].
Proof.
  unfold enc_field. pose proof (enc_varint_nonempty (f.1 * 8)).
  pose proof (enc_varint_nonempty (f.1 * 8 + 1)). pose proof (enc_varint_nonempty (f.1 * 8 + 2)).
  destruct f.2; intros [E _]%app_eq_nil; done.
Qed.

Lemma dec_enc_fields fs : forall fuel,
  Forall field_ok fs -> (length fs <= fuel)%nat -> dec_fields fuel (enc_fields fs) = Some fs.
Proof.
  induction fs as [|f fs IH]; intros fuel Hok Hf; [by destruct fuel|].
  apply Forall_cons in Hok as [Hfok Hok]. destruct fuel as [|fuel]; simpl in Hf; [lia|].
  change (enc_fields (f :: fs)) with (enc_field f ++ enc_fields fs).
  pose proof (dec_enc_field f (enc_fields fs) Hfok) as Hd.
  pose proof (enc_field_nonempty f) as Hne.
  destruct (enc_field f) as [|b l] eqn:E; [done|]. cbn [app dec_fields] in *. rewrite Hd.
  rewrite IH by (done || lia). done.
Qed.

Lemma length_enc_fields fs : (length fs <= length (enc_fields fs))%nat.
Proof.
  unfold enc_fields. induction fs as [|f fs IH]; simpl; [done|]. rewrite length_app.
  pose proof (enc_field_nonempty f). destruct (enc_field f); [done|simpl; lia].
Qed.

(* ------------------------------------------------------------------ *)
(** ** Fields of a message *)

(** The occurrences of field [n]. *)
Definition sel (n : Z) (fs : list field) : list wire :=
  map snd (List.filter (fun f => f.1 =? n) fs).

Definition opt_seg {A} (n : Z) (f : A -> wire) (o : option A) : list field :=
  match o with Some a => [(n, f a)] | None => [] end.
Definition rep_seg {A} (n : Z) (f : A -> wire) (l : list A) : list field :=
  map (fun a => (n, f a)) l.

Lemma sel_app n a b : sel n (a ++ b) = sel n a ++ sel n b.
Proof. unfold sel. by rewrite List.filter_app, map_app. Qed.

Lemma sel_opt {A} n m (f : A -> wire) o :
  sel n (opt_seg m f o) = if m =? n then match o with Some a => [f a] | None => [] end else [].
Proof. destruct o; simpl; unfold sel; simpl; destruct (m =? n); done. Qed.

Lemma sel_rep {A} n m (f : A -> wire) l :
  sel n (rep_seg m f l) = if m =? n then map f l else [].
Proof.
  unfold sel, rep_seg. induction l as [|a l IH]; simpl; [by destruct (m =? n)|].
  destruct (m =? n); simpl; congruence.
Qed.

(** Decoding an optional and a repeated field. *)
Definition dec_opt {A} (d : wire -> option A) (n : Z) (fs : list field) : option (option A) :=
  match last (sel n fs) with
  | None => Some None
  | Some w => match d w with Some a => Some (Some a) | None => None end
  end.

Fixpoint dec_all {A} (d : wire -> option A) (l : list wire) : option (list A) :=
  match l with
  | [] => Some []
  | w :: l' => match d w, dec_all d l' with Some a, Some r => Some (a :: r) | _, _ => None end
  end.
Definition dec_rep {A} (d : wire -> option A) (n : Z) (fs : list field) : option (list A) :=
  dec_all d (sel n fs).

(** A value whose encoding [f] is read back by [d]. *)
Definition reads {A} (f : A -> wire) (d : wire -> option A) (a : A) : Prop :=
  wire_ok (f a) /\ d (f a) = Some a.
Definition opt_reads {A} (f : A -> wire) d (o : option A) : Prop :=
  match o with Some a => reads f d a | None => True end.

Lemma dec_opt_reads {A} (f : A -> wire) d n fs o :
  sel n fs = match o with Some a => [f a] | None => [] end ->
  opt_reads f d o -> dec_opt d n fs = Some o.
Proof.
  unfold dec_opt. intros -> H. destruct o as [a|]; [|done]. simpl. by rewrite (proj2 H).
Qed.

Lemma dec_rep_reads {A} (f : A -> wire) d n fs l :
  sel n fs = map f l -> Forall (reads f d) l -> dec_rep d n fs = Some l.
Proof.
  unfold dec_rep. intros ->. induction 1 as [|a l [_ Ha] Hl IH]; [done|].
  simpl. by rewrite Ha, IH.
Qed.

Lemma seg_ok_opt {A} n (f : A -> wire) d o :
  0 <= n -> opt_reads f d o -> Forall field_ok (opt_seg n f o).
Proof. intros Hn. destruct o; simpl; [intros [H _]|]; repeat constructor; done. Qed.

Lemma seg_ok_rep {A} n (f : A -> wire) d l :
  0 <= n -> Forall (reads f d) l -> Forall field_ok (rep_seg n f l).
Proof. intros Hn. induction 1 as [|a l [H _] _ IH]; simpl; constructor; done. Qed.

(** Scalars. *)
Definition w_bytes (b : bytes) : wire := WBytes b.
Definition d_bytes (w : wire) : option bytes := match w with WBytes b => Some b | _ => None end.
Definition w_u32 (z : Z) : wire := WVarint z.
Definition d_u32 (w : wire) : option Z := match w with WVarint z => Some (u32 z) | _ => None end.
Definition w_i32 (z : Z) : wire := WVarint (u64 z).
Definition d_i32 (w : wire) : option Z := match w with WVarint z => Some (i32 z) | _ => None end.
Definition d_bool (w : wire) : option Z :=
  match w with WVarint z => Some (if z =? 0 then 0 else 1) | _ => None end.
Definition w_fixed64 (z : Z) : wire := WFixed64 z.
Definition d_fixed64 (w : wire) : option Z := match w with WFixed64 z => Some z | _ => None end.

Lemma reads_bytes o : opt_reads w_bytes d_bytes o.
Proof. by destruct o. Qed.
Lemma reads_u32 o : opt_u32 o -> opt_reads w_u32 d_u32 o.
Proof.
  destruct o as [z|]; [|done]. intros H. split; [apply H|]. simpl. by rewrite u32_id.
Qed.
Lemma reads_i32 o : opt_i32 o -> opt_reads w_i32 d_i32 o.
Proof.
  destruct o as [z|]; [|done]. simpl. intros H. split; simpl.
  - unfold u64. apply Z.mod_pos_bound. lia.
  - f_equal. unfold i32, u64.
    rewrite <- (Zplus_mod_idemp_l (z mod 2 ^ 64)), Z.mod_mod_divide by (exists (2 ^ 32); lia).
    rewrite Zplus_mod_idemp_l.
    rewrite Z.mod_small by lia. lia.
Qed.
Lemma reads_bool o : opt_bool o -> opt_reads w_u32 d_bool o.
Proof. destruct o as [z|]; [|done]. simpl. intros [->| ->]; split; simpl; (done || lia). Qed.
Lemma reads_fixed64 o :
  match o with Some t => 0 <= t < 2 ^ 64 | None => True end -> opt_reads w_fixed64 d_fixed64 o.
Proof. by destruct o. Qed.

(* ------------------------------------------------------------------ *)
(** ** Messages *)

Definition pack_with {A} (to : A -> list field) (x : A) : bytes := enc_fields (to x).
Definition unpack_with {A} (from : list field -> option A) (l : bytes) : option A :=
  match dec_fields (length l) l with Some fs => from fs | None => None end.
Definition wire_codec {A} (to : A -> list field) (from : list field -> option A) : Codec A :=
  {| get_packed_size x := length (pack_with to x); pack := pack_with to; unpack := unpack_with from |}.

Definition msg_rt {A} (to : A -> list field) (from : list field -> option A) (x : A) : Prop :=
  Forall field_ok (to x) /\ from (to x) = Some x.

Lemma unpack_pack_with {A} (to : A -> list field) from x :
  msg_rt to from x -> unpack_with from (pack_with to x) = Some x.
Proof.
  intros [Hok Hx]. unfold unpack_with, pack_with.
  rewrite dec_enc_fields; [done|done|apply length_enc_fields].
Qed.

Lemma wire_codec_laws {A} `{MessageInit A} (to : A -> list field) from ok :
  (forall x, ok x -> msg_rt to from x) -> from [] = Some init_message ->
  CodecLaws A (wire_codec to from) ok.
Proof.
  intros Hrt Hi. split; [done| |done]. intros x Hx. by apply unpack_pack_with, Hrt.
Qed.

Definition w_msg {A} (to : A -> list field) (a : A) : wire := WBytes (pack_with to a).
Definition d_msg {A} (from : list field -> option A) (w : wire) : option A :=
  match w with WBytes b => unpack_with from b | _ => None end.

Lemma reads_msg {A} (to : A -> list field) from a : msg_rt to from a -> reads (w_msg to) (d_msg from) a.
Proof. intros H. split; [done|]. by apply unpack_pack_with. Qed.

Lemma reads_opt_msg {A} (to : A -> list field) from o :
  match o with Some a => msg_rt to from a | None => True end -> opt_reads (w_msg to) (d_msg from) o.
Proof. destruct o; [apply reads_msg|done]. Qed.

Lemma reads_msgs {A} (to : A -> list field) from l :
  Forall (msg_rt to from) l -> Forall (reads (w_msg to) (d_msg from)) l.
Proof. intros H. eapply Forall_impl; [exact H|]. apply reads_msg. Qed.

(** The occurrences of a field among the segments of a message. *)
Ltac sel_solve :=
  rewrite ?sel_app, ?sel_opt, ?sel_rep; cbn [Z.eqb Pos.eqb]; rewrite ?app_nil_r, ?app_nil_l; done.
Ltac segs_ok :=
  repeat (apply Forall_app; split);
  first [ eapply seg_ok_opt; [lia|eassumption] | eapply seg_ok_rep; [lia|eassumption] ].
Ltac read_fields :=
  repeat first
    [ erewrite dec_opt_reads by first [eassumption | sel_solve]
    | erewrite dec_rep_reads by first [eassumption | sel_solve] ];
  cbn [mbind option_bind].

Open Scope stdpp_scope.

Definition to_ChainKey (m : Chain__ChainKey) : list field :=
  opt_seg 1 w_u32 (ChainKey_index m) ++ opt_seg 2 w_bytes (ChainKey_key m).
Definition of_ChainKey (fs : list field) : option Chain__ChainKey :=
  i ← dec_opt d_u32 1 fs; k ← dec_opt d_bytes 2 fs; Some (mk_ChainKey i k).

Lemma rt_ChainKey m : opt_u32 (ChainKey_index m) -> msg_rt to_ChainKey of_ChainKey m.
Proof.
  destruct m as [i k]. intros Hi%reads_u32. pose proof (reads_bytes k) as Hk.
  unfold to_ChainKey, of_ChainKey. split; simpl; [segs_ok|].
  by read_fields.
Qed.

Definition to_MessageKey (m : Chain__MessageKey) : list field :=
  opt_seg 1 w_u32 (MessageKey_index m) ++
  opt_seg 2 w_bytes (MessageKey_cipherkey m) ++
  opt_seg 3 w_bytes (MessageKey_mackey m) ++
  opt_seg 4 w_bytes (MessageKey_iv m).
Definition of_MessageKey (fs : list field) : option Chain__MessageKey :=
  f1 ← dec_opt d_u32 1 fs;
  f2 ← dec_opt d_bytes 2 fs;
  f3 ← dec_opt d_bytes 3 fs;
  f4 ← dec_opt d_bytes 4 fs;
  Some (mk_MessageKey f1 f2 f3 f4).

Lemma rt_MessageKey m : opt_u32 (MessageKey_index m) -> msg_rt to_MessageKey of_MessageKey m.
Proof.
  destruct m as [i c k v]. intros Hi%reads_u32.
  pose proof (reads_bytes c) as Hc. pose proof (reads_bytes k) as Hk. pose proof (reads_bytes v) as Hv.
  unfold to_MessageKey, of_MessageKey. split; simpl; [segs_ok|]. by read_fields.
Qed.

Definition to_Chain (m : SessionStructure__Chain) : list field :=
  opt_seg 1 w_bytes (Chain_senderratchetkey m) ++
  opt_seg 2 w_bytes (Chain_senderratchetkeyprivate m) ++
  opt_seg 3 (w_msg to_ChainKey) (Chain_chainkey m) ++
  rep_seg 4 (w_msg to_MessageKey) (Chain_messagekeys m).
Definition of_Chain (fs : list field) : option SessionStructure__Chain :=
  f1 ← dec_opt d_bytes 1 fs;
  f2 ← dec_opt d_bytes 2 fs;
  f3 ← dec_opt (d_msg of_ChainKey) 3 fs;
  f4 ← dec_rep (d_msg of_MessageKey) 4 fs;
  Some (mk_Chain f1 f2 f3 f4).

Lemma rt_Chain m : Chain_ok m -> msg_rt to_Chain of_Chain m.
Proof.
  destruct m as [p q k l]. intros [Hk Hl]. simpl in *.
  pose proof (reads_bytes p) as Hp. pose proof (reads_bytes q) as Hq.
  assert (opt_reads (w_msg to_ChainKey) (d_msg of_ChainKey) k) as Hk'.
  { apply reads_opt_msg. destruct k; [by apply rt_ChainKey|done]. }
  assert (Forall (reads (w_msg to_MessageKey) (d_msg of_MessageKey)) l) as Hl'.
  { apply reads_msgs. eapply Forall_impl; [exact Hl|]. apply rt_MessageKey. }
  unfold to_Chain, of_Chain. split; simpl; [segs_ok|]. by read_fields.
Qed.

Definition to_PendingKeyExchange (m : PendingKeyExchange) : list field :=
  opt_seg 1 w_u32 (pke_sequence m) ++
  opt_seg 2 w_bytes (pke_localbasekey m) ++
  opt_seg 3 w_bytes (pke_localbasekeyprivate m) ++
  opt_seg 4 w_bytes (pke_localratchetkey m) ++
  opt_seg 5 w_bytes (pke_localratchetkeyprivate m) ++
  opt_seg 7 w_bytes (pke_localidentitykey m) ++
  opt_seg 8 w_bytes (pke_localidentitykeyprivate m).
Definition of_PendingKeyExchange (fs : list field) : option PendingKeyExchange :=
  f1 ← dec_opt d_u32 1 fs;
  f2 ← dec_opt d_bytes 2 fs;
  f3 ← dec_opt d_bytes 3 fs;
  f4 ← dec_opt d_bytes 4 fs;
  f5 ← dec_opt d_bytes 5 fs;
  f7 ← dec_opt d_bytes 7 fs;
  f8 ← dec_opt d_bytes 8 fs;
  Some (mk_PendingKeyExchange f1 f2 f3 f4 f5 f7 f8).

Lemma rt_PendingKeyExchange m :
  opt_u32 (pke_sequence m) -> msg_rt to_PendingKeyExchange of_PendingKeyExchange m.
Proof.
  destruct m as [n a b c d e f]. intros Hn%reads_u32.
  pose proof (reads_bytes a) as Ha. pose proof (reads_bytes b) as Hb. pose proof (reads_bytes c) as Hc.
  pose proof (reads_bytes d) as Hd. pose proof (reads_bytes e) as He. pose proof (reads_bytes f) as Hf.
  unfold to_PendingKeyExchange, of_PendingKeyExchange. split; simpl; [segs_ok|]. by read_fields.
Qed.

Definition to_PendingPreKey (m : PendingPreKey) : list field :=
  opt_seg 1 w_u32 (ppk_prekeyid m) ++
  opt_seg 2 w_bytes (ppk_basekey m) ++
  opt_seg 3 w_i32 (ppk_signedprekeyid m).
Definition of_PendingPreKey (fs : list field) : option PendingPreKey :=
  f1 ← dec_opt d_u32 1 fs;
  f2 ← dec_opt d_bytes 2 fs;
  f3 ← dec_opt d_i32 3 fs;
  Some (mk_PendingPreKey f1 f3 f2).

Lemma rt_PendingPreKey m :
  opt_u32 (ppk_prekeyid m) -> opt_i32 (ppk_signedprekeyid m) ->
  msg_rt to_PendingPreKey of_PendingPreKey m.
Proof.
  destruct m as [i n b]. intros Hi%reads_u32 Hn%reads_i32. pose proof (reads_bytes b) as Hb.
  unfold to_PendingPreKey, of_PendingPreKey. split; simpl; [segs_ok|]. by read_fields.
Qed.

Definition to_SessionStructure (m : SessionStructure) : list field :=
  opt_seg 1 w_u32 (ss_sessionversion m) ++
  opt_seg 2 w_bytes (ss_localidentitypublic m) ++
  opt_seg 3 w_bytes (ss_remoteidentitypublic m) ++
  opt_seg 4 w_bytes (ss_rootkey m) ++
  opt_seg 5 w_u32 (ss_previouscounter m) ++
  opt_seg 6 (w_msg to_Chain) (ss_senderchain m) ++
  rep_seg 7 (w_msg to_Chain) (ss_receiverchains m) ++
  opt_seg 8 (w_msg to_PendingKeyExchange) (ss_pendingkeyexchange m) ++
  opt_seg 9 (w_msg to_PendingPreKey) (ss_pendingprekey m) ++
  opt_seg 10 w_u32 (ss_remoteregistrationid m) ++
  opt_seg 11 w_u32 (ss_localregistrationid m) ++
  opt_seg 12 w_u32 (ss_needsrefresh m) ++
  opt_seg 13 w_bytes (ss_alicebasekey m).
Definition of_SessionStructure (fs : list field) : option SessionStructure :=
  f1 ← dec_opt d_u32 1 fs;
  f2 ← dec_opt d_bytes 2 fs;
  f3 ← dec_opt d_bytes 3 fs;
  f4 ← dec_opt d_bytes 4 fs;
  f5 ← dec_opt d_u32 5 fs;
  f6 ← dec_opt (d_msg of_Chain) 6 fs;
  f7 ← dec_rep (d_msg of_Chain) 7 fs;
  f8 ← dec_opt (d_msg of_PendingKeyExchange) 8 fs;
  f9 ← dec_opt (d_msg of_PendingPreKey) 9 fs;
  f10 ← dec_opt d_u32 10 fs;
  f11 ← dec_opt d_u32 11 fs;
  f12 ← dec_opt d_bool 12 fs;
  f13 ← dec_opt d_bytes 13 fs;
  Some (mk_SessionStructure f1 f2 f3 f4 f5 f6 f7 f8 f9 f10 f11 f12 f13).

Lemma rt_SessionStructure m :
  SessionStructure_ok m -> msg_rt to_SessionStructure of_SessionStructure m.
Proof.
  destruct m as [v l r rk pc sc rcs ke pk rr lr nr ab].
  intros (Hv & Hpc & Hsc & Hrcs & Hke & Hpk & Hrr & Hlr & Hnr). simpl in *.
  apply reads_u32 in Hv, Hpc, Hrr, Hlr. apply reads_bool in Hnr.
  pose proof (reads_bytes l) as Hl. pose proof (reads_bytes r) as Hr.
  pose proof (reads_bytes rk) as Hrk. pose proof (reads_bytes ab) as Hab.
  assert (opt_reads (w_msg to_Chain) (d_msg of_Chain) sc) as Hsc'.
  { apply reads_opt_msg. destruct sc; [by apply rt_Chain|done]. }
  assert (Forall (reads (w_msg to_Chain) (d_msg of_Chain)) rcs) as Hrcs'.
  { apply reads_msgs. eapply Forall_impl; [exact Hrcs|]. apply rt_Chain. }
  assert (opt_reads (w_msg to_PendingKeyExchange) (d_msg of_PendingKeyExchange) ke) as Hke'.
  { apply reads_opt_msg. destruct ke; [by apply rt_PendingKeyExchange|done]. }
  assert (opt_reads (w_msg to_PendingPreKey) (d_msg of_PendingPreKey) pk) as Hpk'.
  { apply reads_opt_msg. destruct pk; [by destruct Hpk; apply rt_PendingPreKey|done]. }
  unfold to_SessionStructure, of_SessionStructure. split; simpl; [segs_ok|]. by read_fields.
Qed.

Definition to_RecordStructure (m : RecordStructure) : list field :=
  opt_seg 1 (w_msg to_SessionStructure) (rs_currentsession m) ++
  rep_seg 2 (w_msg to_SessionStructure) (rs_previoussessions m).
Definition of_RecordStructure (fs : list field) : option RecordStructure :=
  f1 ← dec_opt (d_msg of_SessionStructure) 1 fs;
  f2 ← dec_rep (d_msg of_SessionStructure) 2 fs;
  Some (mk_RecordStructure f1 f2).

Lemma rt_RecordStructure m : RecordStructure_ok m -> msg_rt to_RecordStructure of_RecordStructure m.
Proof.
  destruct m as [c l]. intros [Hc Hl]. simpl in *.
  assert (opt_reads (w_msg to_SessionStructure) (d_msg of_SessionStructure) c) as Hc'.
  { apply reads_opt_msg. destruct c; [by apply rt_SessionStructure|done]. }
  assert (Forall (reads (w_msg to_SessionStructure) (d_msg of_SessionStructure)) l) as Hl'.
  { apply reads_msgs. eapply Forall_impl; [exact Hl|]. apply rt_SessionStructure. }
  unfold to_RecordStructure, of_RecordStructure. split; simpl; [segs_ok|]. by read_fields.
Qed.

Definition to_PreKeyRecord (m : PreKeyRecordStructure) : list field :=
  opt_seg 1 w_u32 (pkr_id m) ++
  opt_seg 2 w_bytes (pkr_publickey m) ++
  opt_seg 3 w_bytes (pkr_privatekey m).
Definition of_PreKeyRecord (fs : list field) : option PreKeyRecordStructure :=
  f1 ← dec_opt d_u32 1 fs;
  f2 ← dec_opt d_bytes 2 fs;
  f3 ← dec_opt d_bytes 3 fs;
  Some (mk_PreKeyRecordStructure f1 f2 f3).

Lemma rt_PreKeyRecord m : PreKeyRecordStructure_ok m -> msg_rt to_PreKeyRecord of_PreKeyRecord m.
Proof.
  destruct m as [i a b]. intros Hi%reads_u32.
  pose proof (reads_bytes a) as Ha. pose proof (reads_bytes b) as Hb.
  unfold to_PreKeyRecord, of_PreKeyRecord. split; simpl; [segs_ok|]. by read_fields.
Qed.

Definition to_SignedPreKeyRecord (m : SignedPreKeyRecordStructure) : list field :=
  opt_seg 1 w_u32 (spkr_id m) ++
  opt_seg 2 w_bytes (spkr_publickey m) ++
  opt_seg 3 w_bytes (spkr_privatekey m) ++
  opt_seg 4 w_bytes (spkr_signature m) ++
  opt_seg 5 w_fixed64 (spkr_timestamp m).
Definition of_SignedPreKeyRecord (fs : list field) : option SignedPreKeyRecordStructure :=
  f1 ← dec_opt d_u32 1 fs;
  f2 ← dec_opt d_bytes 2 fs;
  f3 ← dec_opt d_bytes 3 fs;
  f4 ← dec_opt d_bytes 4 fs;
  f5 ← dec_opt d_fixed64 5 fs;
  Some (mk_SignedPreKeyRecordStructure f1 f2 f3 f4 f5).

Lemma rt_SignedPreKeyRecord m :
  SignedPreKeyRecordStructure_ok m -> msg_rt to_SignedPreKeyRecord of_SignedPreKeyRecord m.
Proof.
  destruct m as [i a b c t]. intros [Hi%reads_u32 Ht%reads_fixed64].
  pose proof (reads_bytes a) as Ha. pose proof (reads_bytes b) as Hb. pose proof (reads_bytes c) as Hc.
  unfold to_SignedPreKeyRecord, of_SignedPreKeyRecord. split; simpl; [segs_ok|]. by read_fields.
Qed.

Definition to_SignalMessage (m : SignalMessage) : list field :=
  opt_seg 1 w_bytes (sm_ratchetkey m) ++
  opt_seg 2 w_u32 (sm_counter m) ++
  opt_seg 3 w_u32 (sm_previouscounter m) ++
  opt_seg 4 w_bytes (sm_ciphertext m).
Definition of_SignalMessage (fs : list field) : option SignalMessage :=
  f1 ← dec_opt d_bytes 1 fs;
  f2 ← dec_opt d_u32 2 fs;
  f3 ← dec_opt d_u32 3 fs;
  f4 ← dec_opt d_bytes 4 fs;
  Some (mk_SignalMessage f1 f2 f3 f4).

Lemma rt_SignalMessage m : SignalMessage_ok m -> msg_rt to_SignalMessage of_SignalMessage m.
Proof.
  destruct m as [k n p c]. intros [Hn%reads_u32 Hp%reads_u32].
  pose proof (reads_bytes k) as Hk. pose proof (reads_bytes c) as Hc.
  unfold to_SignalMessage, of_SignalMessage. split; simpl; [segs_ok|]. by read_fields.
Qed.

Definition to_PreKeySignalMessage (m : PreKeySignalMessage) : list field :=
  opt_seg 1 w_u32 (pksm_prekeyid m) ++
  opt_seg 2 w_bytes (pksm_basekey m) ++
  opt_seg 3 w_bytes (pksm_identitykey m) ++
  opt_seg 4 w_bytes (pksm_message m) ++
  opt_seg 5 w_u32 (pksm_registrationid m) ++
  opt_seg 6 w_u32 (pksm_signedprekeyid m).
Definition of_PreKeySignalMessage (fs : list field) : option PreKeySignalMessage :=
  f1 ← dec_opt d_u32 1 fs;
  f2 ← dec_opt d_bytes 2 fs;
  f3 ← dec_opt d_bytes 3 fs;
  f4 ← dec_opt d_bytes 4 fs;
  f5 ← dec_opt d_u32 5 fs;
  f6 ← dec_opt d_u32 6 fs;
  Some (mk_PreKeySignalMessage f5 f1 f6 f2 f3 f4).

Lemma rt_PreKeySignalMessage m :
  PreKeySignalMessage_ok m -> msg_rt to_PreKeySignalMessage of_PreKeySignalMessage m.
Proof.
  destruct m as [r p s b i c]. intros (Hr%reads_u32 & Hp%reads_u32 & Hs%reads_u32).
  pose proof (reads_bytes b) as Hb. pose proof (reads_bytes i) as Hi. pose proof (reads_bytes c) as Hc.
  unfold to_PreKeySignalMessage, of_PreKeySignalMessage. split; simpl; [segs_ok|]. by read_fields.
Qed.

(* ------------------------------------------------------------------ *)
(** ** The codecs *)

Definition SessionStructure_wire : Codec SessionStructure := wire_codec to_SessionStructure of_SessionStructure.
Lemma SessionStructure_wire_laws : CodecLaws SessionStructure SessionStructure_wire SessionStructure_ok.
Proof. apply wire_codec_laws; [apply rt_SessionStructure|done]. Qed.

Definition RecordStructure_wire : Codec RecordStructure := wire_codec to_RecordStructure of_RecordStructure.
Lemma RecordStructure_wire_laws : CodecLaws RecordStructure RecordStructure_wire RecordStructure_ok.
Proof. apply wire_codec_laws; [apply rt_RecordStructure|done]. Qed.

Definition PreKeyRecordStructure_wire : Codec PreKeyRecordStructure := wire_codec to_PreKeyRecord of_PreKeyRecord.
Lemma PreKeyRecordStructure_wire_laws : CodecLaws PreKeyRecordStructure PreKeyRecordStructure_wire PreKeyRecordStructure_ok.
Proof. apply wire_codec_laws; [apply rt_PreKeyRecord|done]. Qed.

Definition SignedPreKeyRecordStructure_wire : Codec SignedPreKeyRecordStructure := wire_codec to_SignedPreKeyRecord of_SignedPreKeyRecord.
Lemma SignedPreKeyRecordStructure_wire_laws : CodecLaws SignedPreKeyRecordStructure SignedPreKeyRecordStructure_wire SignedPreKeyRecordStructure_ok.
Proof. apply wire_codec_laws; [apply rt_SignedPreKeyRecord|done]. Qed.

Definition SignalMessage_wire : Codec SignalMessage := wire_codec to_SignalMessage of_SignalMessage.
Lemma SignalMessage_wire_laws : CodecLaws SignalMessage SignalMessage_wire SignalMessage_ok.
Proof. apply wire_codec_laws; [apply rt_SignalMessage|done]. Qed.

Definition PreKeySignalMessage_wire : Codec PreKeySignalMessage := wire_codec to_PreKeySignalMessage of_PreKeySignalMessage.
Lemma PreKeySignalMessage_wire_laws : CodecLaws PreKeySignalMessage PreKeySignalMessage_wire PreKeySignalMessage_ok.
Proof. apply wire_codec_laws; [apply rt_PreKeySignalMessage|done]. Qed.
