(* ===== verification/GroupWire.v ===== *)
(** The protobuf wire codec of the sender key, identity key, fingerprint and
    device consistency messages, built from the field codecs of [Wire]:
    instances of the [Codec] interface that satisfy its laws. *)

From S2P Require Import Prelude LocalStorage Wire.

Open Scope stdpp_scope.

Definition to_SenderChainKey (m : SenderKeyStateStructure__SenderChainKey) : list field :=
  opt_seg 1 w_u32 (SenderChainKey_iteration m) ++ opt_seg 2 w_bytes (SenderChainKey_seed m).
Definition of_SenderChainKey (fs : list field) : option SenderKeyStateStructure__SenderChainKey :=
  f1 ← dec_opt d_u32 1 fs; f2 ← dec_opt d_bytes 2 fs; Some (mk_SenderChainKey f1 f2).

Lemma rt_SenderChainKey m :
  opt_u32 (SenderChainKey_iteration m) -> msg_rt to_SenderChainKey of_SenderChainKey m.
Proof.
  destruct m as [i k]. intros Hi%reads_u32. pose proof (reads_bytes k) as Hk.
  unfold to_SenderChainKey, of_SenderChainKey. split; simpl; [segs_ok|]. by read_fields.
Qed.

Definition to_SenderMessageKey (m : SenderKeyStateStructure__SenderMessageKey) : list field :=
  opt_seg 1 w_u32 (SenderMessageKey_iteration m) ++ opt_seg 2 w_bytes (SenderMessageKey_seed m).
Definition of_SenderMessageKey (fs : list field) : option SenderKeyStateStructure__SenderMessageKey :=
  f1 ← dec_opt d_u32 1 fs; f2 ← dec_opt d_bytes 2 fs; Some (mk_SenderMessageKey f1 f2).

Lemma rt_SenderMessageKey m :
  opt_u32 (SenderMessageKey_iteration m) -> msg_rt to_SenderMessageKey of_SenderMessageKey m.
Proof.
  destruct m as [i k]. intros Hi%reads_u32. pose proof (reads_bytes k) as Hk.
  unfold to_SenderMessageKey, of_SenderMessageKey. split; simpl; [segs_ok|]. by read_fields.
Qed.

Definition to_SenderSigningKey (m : SenderKeyStateStructure__SenderSigningKey) : list field :=
  opt_seg 1 w_bytes (SenderSigningKey_public m) ++ opt_seg 2 w_bytes (SenderSigningKey_private m).
Definition of_SenderSigningKey (fs : list field) : option SenderKeyStateStructure__SenderSigningKey :=
  f1 ← dec_opt d_bytes 1 fs; f2 ← dec_opt d_bytes 2 fs; Some (mk_SenderSigningKey f1 f2).

Lemma rt_SenderSigningKey m : msg_rt to_SenderSigningKey of_SenderSigningKey m.
Proof.
  destruct m as [p q]. pose proof (reads_bytes p) as Hp. pose proof (reads_bytes q) as Hq.
  unfold to_SenderSigningKey, of_SenderSigningKey. split; simpl; [segs_ok|]. by read_fields.
Qed.

Definition to_SenderKeyState (m : SenderKeyStateStructure) : list field :=
  opt_seg 1 w_u32 (skss_senderkeyid m) ++
  opt_seg 2 (w_msg to_SenderChainKey) (skss_senderchainkey m) ++
  opt_seg 3 (w_msg to_SenderSigningKey) (skss_sendersigningkey m) ++
  rep_seg 4 (w_msg to_SenderMessageKey) (skss_sendermessagekeys m).
Definition of_SenderKeyState (fs : list field) : option SenderKeyStateStructure :=
  f1 ← dec_opt d_u32 1 fs;
  f2 ← dec_opt (d_msg of_SenderChainKey) 2 fs;
  f3 ← dec_opt (d_msg of_SenderSigningKey) 3 fs;
  f4 ← dec_rep (d_msg of_SenderMessageKey) 4 fs;
  Some (mk_SenderKeyStateStructure f1 f2 f3 f4).

Lemma rt_SenderKeyState m : SenderKeyStateStructure_ok m -> msg_rt to_SenderKeyState of_SenderKeyState m.
Proof.
  destruct m as [i c k l]. intros (Hi & Hc & Hl). simpl in *. apply reads_u32 in Hi.
  assert (opt_reads (w_msg to_SenderChainKey) (d_msg of_SenderChainKey) c) as Hc'.
  { apply reads_opt_msg. destruct c; [by apply rt_SenderChainKey|done]. }
  assert (opt_reads (w_msg to_SenderSigningKey) (d_msg of_SenderSigningKey) k) as Hk'.
  { apply reads_opt_msg. destruct k; [apply rt_SenderSigningKey|done]. }
  assert (Forall (reads (w_msg to_SenderMessageKey) (d_msg of_SenderMessageKey)) l) as Hl'.
  { apply reads_msgs. eapply Forall_impl; [exact Hl|]. apply rt_SenderMessageKey. }
  unfold to_SenderKeyState, of_SenderKeyState. split; simpl; [segs_ok|]. by read_fields.
Qed.

Definition to_SenderKeyRecord (m : SenderKeyRecordStructure) : list field :=
  rep_seg 1 (w_msg to_SenderKeyState) (skrs_senderkeystates m).
Definition of_SenderKeyRecord (fs : list field) : option SenderKeyRecordStructure :=
  f1 ← dec_rep (d_msg of_SenderKeyState) 1 fs; Some (mk_SenderKeyRecordStructure f1).

Lemma rt_SenderKeyRecord m :
  SenderKeyRecordStructure_ok m -> msg_rt to_SenderKeyRecord of_SenderKeyRecord m.
Proof.
  destruct m as [l]. intros Hl. red in Hl. simpl in Hl.
  assert (Forall (reads (w_msg to_SenderKeyState) (d_msg of_SenderKeyState)) l) as Hl'.
  { apply reads_msgs. eapply Forall_impl; [exact Hl|]. apply rt_SenderKeyState. }
  unfold to_SenderKeyRecord, of_SenderKeyRecord. split; simpl; [segs_ok|]. by read_fields.
Qed.

Definition to_SenderKeyMessage (m : SenderKeyMessage) : list field :=
  opt_seg 1 w_u32 (skms_id m) ++
  opt_seg 2 w_u32 (skms_iteration m) ++
  opt_seg 3 w_bytes (skms_ciphertext m).
Definition of_SenderKeyMessage (fs : list field) : option SenderKeyMessage :=
  f1 ← dec_opt d_u32 1 fs;
  f2 ← dec_opt d_u32 2 fs;
  f3 ← dec_opt d_bytes 3 fs;
  Some (mk_SenderKeyMessage f1 f2 f3).

Lemma rt_SenderKeyMessage m : SenderKeyMessage_ok m -> msg_rt to_SenderKeyMessage of_SenderKeyMessage m.
Proof.
  destruct m as [i n c]. intros [Hi%reads_u32 Hn%reads_u32]. pose proof (reads_bytes c) as Hc.
  unfold to_SenderKeyMessage, of_SenderKeyMessage. split; simpl; [segs_ok|]. by read_fields.
Qed.

Definition to_SenderKeyDistribution (m : SenderKeyDistributionMessage) : list field :=
  opt_seg 1 w_u32 (skdms_id m) ++
  opt_seg 2 w_u32 (skdms_iteration m) ++
  opt_seg 3 w_bytes (skdms_chainkey m) ++
  opt_seg 4 w_bytes (skdms_signingkey m).
Definition of_SenderKeyDistribution (fs : list field) : option SenderKeyDistributionMessage :=
  f1 ← dec_opt d_u32 1 fs;
  f2 ← dec_opt d_u32 2 fs;
  f3 ← dec_opt d_bytes 3 fs;
  f4 ← dec_opt d_bytes 4 fs;
  Some (mk_SenderKeyDistributionMessage f1 f2 f3 f4).

Lemma rt_SenderKeyDistribution m :
  SenderKeyDistributionMessage_ok m -> msg_rt to_SenderKeyDistribution of_SenderKeyDistribution m.
Proof.
  destruct m as [i n c k]. intros [Hi%reads_u32 Hn%reads_u32].
  pose proof (reads_bytes c) as Hc. pose proof (reads_bytes k) as Hk.
  unfold to_SenderKeyDistribution, of_SenderKeyDistribution. split; simpl; [segs_ok|]. by read_fields.
Qed.

Definition to_IdentityKeyPair (m : IdentityKeyPairStructure) : list field :=
  opt_seg 1 w_bytes (ikps_publickey m) ++ opt_seg 2 w_bytes (ikps_privatekey m).
Definition of_IdentityKeyPair (fs : list field) : option IdentityKeyPairStructure :=
  f1 ← dec_opt d_bytes 1 fs; f2 ← dec_opt d_bytes 2 fs; Some (mk_IdentityKeyPairStructure f1 f2).

Lemma rt_IdentityKeyPair m : msg_rt to_IdentityKeyPair of_IdentityKeyPair m.
Proof.
  destruct m as [p q]. pose proof (reads_bytes p) as Hp. pose proof (reads_bytes q) as Hq.
  unfold to_IdentityKeyPair, of_IdentityKeyPair. split; simpl; [segs_ok|]. by read_fields.
Qed.

Definition IdentityKeyPairStructure_wire : Codec IdentityKeyPairStructure :=
  wire_codec to_IdentityKeyPair of_IdentityKeyPair.
Lemma IdentityKeyPairStructure_wire_laws :
  CodecLaws IdentityKeyPairStructure IdentityKeyPairStructure_wire (fun _ => True).
Proof. apply wire_codec_laws; [intros m _; apply rt_IdentityKeyPair|done]. Qed.

Definition SenderKeyStateStructure_wire : Codec SenderKeyStateStructure :=
  wire_codec to_SenderKeyState of_SenderKeyState.
Lemma SenderKeyStateStructure_wire_laws :
  CodecLaws SenderKeyStateStructure SenderKeyStateStructure_wire SenderKeyStateStructure_ok.
Proof. apply wire_codec_laws; [apply rt_SenderKeyState|done]. Qed.

Definition SenderKeyRecordStructure_wire : Codec SenderKeyRecordStructure :=
  wire_codec to_SenderKeyRecord of_SenderKeyRecord.
Lemma SenderKeyRecordStructure_wire_laws :
  CodecLaws SenderKeyRecordStructure SenderKeyRecordStructure_wire SenderKeyRecordStructure_ok.
Proof. apply wire_codec_laws; [apply rt_SenderKeyRecord|done]. Qed.

Definition SenderKeyMessage_wire : Codec SenderKeyMessage :=
  wire_codec to_SenderKeyMessage of_SenderKeyMessage.
Lemma SenderKeyMessage_wire_laws :
  CodecLaws SenderKeyMessage SenderKeyMessage_wire SenderKeyMessage_ok.
Proof. apply wire_codec_laws; [apply rt_SenderKeyMessage|done]. Qed.

Definition SenderKeyDistributionMessage_wire : Codec SenderKeyDistributionMessage :=
  wire_codec to_SenderKeyDistribution of_SenderKeyDistribution.
Lemma SenderKeyDistributionMessage_wire_laws :
  CodecLaws SenderKeyDistributionMessage SenderKeyDistributionMessage_wire
    SenderKeyDistributionMessage_ok.
Proof. apply wire_codec_laws; [apply rt_SenderKeyDistribution|done]. Qed.

Definition to_LogicalFingerprint (m : LogicalFingerprint) : list field :=
  opt_seg 1 w_bytes (lf_content m) ++ opt_seg 2 w_bytes (lf_identifier m).
Definition of_LogicalFingerprint (fs : list field) : option LogicalFingerprint :=
  f1 ← dec_opt d_bytes 1 fs; f2 ← dec_opt d_bytes 2 fs; Some (mk_LogicalFingerprint f1 f2).

Lemma rt_LogicalFingerprint m : msg_rt to_LogicalFingerprint of_LogicalFingerprint m.
Proof.
  destruct m as [c i]. pose proof (reads_bytes c) as Hc. pose proof (reads_bytes i) as Hi.
  unfold to_LogicalFingerprint, of_LogicalFingerprint. split; simpl; [segs_ok|]. by read_fields.
Qed.

Definition to_CombinedFingerprints (m : CombinedFingerprints) : list field :=
  opt_seg 1 w_u32 (cf_version m) ++
  opt_seg 2 (w_msg to_LogicalFingerprint) (cf_localfingerprint m) ++
  opt_seg 3 (w_msg to_LogicalFingerprint) (cf_remotefingerprint m).
Definition of_CombinedFingerprints (fs : list field) : option CombinedFingerprints :=
  f1 ← dec_opt d_u32 1 fs;
  f2 ← dec_opt (d_msg of_LogicalFingerprint) 2 fs;
  f3 ← dec_opt (d_msg of_LogicalFingerprint) 3 fs;
  Some (mk_CombinedFingerprints f1 f2 f3).

Lemma rt_CombinedFingerprints m :
  CombinedFingerprints_ok m -> msg_rt to_CombinedFingerprints of_CombinedFingerprints m.
Proof.
  destruct m as [v l r]. intros Hv. red in Hv. simpl in Hv. apply reads_u32 in Hv.
  assert (forall o, opt_reads (w_msg to_LogicalFingerprint) (d_msg of_LogicalFingerprint) o) as Hf.
  { intros o. apply reads_opt_msg. destruct o; [apply rt_LogicalFingerprint|done]. }
  pose proof (Hf l) as Hl. pose proof (Hf r) as Hr.
  unfold to_CombinedFingerprints, of_CombinedFingerprints. split; simpl; [segs_ok|]. by read_fields.
Qed.

Definition CombinedFingerprints_wire : Codec CombinedFingerprints :=
  wire_codec to_CombinedFingerprints of_CombinedFingerprints.
Lemma CombinedFingerprints_wire_laws :
  CodecLaws CombinedFingerprints CombinedFingerprints_wire CombinedFingerprints_ok.
Proof. apply wire_codec_laws; [apply rt_CombinedFingerprints|done]. Qed.

Definition to_DeviceConsistencyCode (m : DeviceConsistencyCodeMessage) : list field :=
  opt_seg 1 w_u32 (dccm_generation m) ++ opt_seg 2 w_bytes (dccm_signature m).
Definition of_DeviceConsistencyCode (fs : list field) : option DeviceConsistencyCodeMessage :=
  f1 ← dec_opt d_u32 1 fs; f2 ← dec_opt d_bytes 2 fs; Some (mk_DeviceConsistencyCodeMessage f1 f2).

Lemma rt_DeviceConsistencyCode m :
  DeviceConsistencyCodeMessage_ok m -> msg_rt to_DeviceConsistencyCode of_DeviceConsistencyCode m.
Proof.
  destruct m as [g s]. intros Hg. red in Hg. simpl in Hg. apply reads_u32 in Hg.
  pose proof (reads_bytes s) as Hs.
  unfold to_DeviceConsistencyCode, of_DeviceConsistencyCode. split; simpl; [segs_ok|]. by read_fields.
Qed.

Definition DeviceConsistencyCodeMessage_wire : Codec DeviceConsistencyCodeMessage :=
  wire_codec to_DeviceConsistencyCode of_DeviceConsistencyCode.
Lemma DeviceConsistencyCodeMessage_wire_laws :
  CodecLaws DeviceConsistencyCodeMessage DeviceConsistencyCodeMessage_wire DeviceConsistencyCodeMessage_ok.
Proof. apply wire_codec_laws; [apply rt_DeviceConsistencyCode|done]. Qed.
