(* ===== verification/Limbs.v ===== *)
(** Machine arithmetic on arrays of limbs, shared by curve25519-donna.c and the
    field and scalar arithmetic of curve25519/ed25519: windows of bits, bytes, and
    straight-line code.

    The reductions of curve25519/ed25519 (fe_mul.c, sc_reduce.c and the like) are
    long sequences of two kinds of lines, on variables [x0], [x1], ...:
    - [carry = (x_i + round) >> w; x_j += carry * k; x_i -= carry << w;]
    - [x_j += x_i * k;] or [x_j -= x_i * k;] for a few [j], then [x_i = 0;]
    Each such group of lines is a step here.  An interval analysis, run on the
    steps by computation, shows that no step leaves 64 bits and bounds the limbs
    it leaves; a check of the weights shows which number the limbs stand for. *)

From S2P Require Import Prelude Buffers Crypto.

(** Conversion to [int64_t]. *)
Definition i64 (z : Z) : Z := (z + 2 ^ 63) mod 2 ^ 64 - 2 ^ 63.

(** [x[i]] *)
Definition at_ (x : list Z) (i : nat) : Z := nth i x 0.

Lemma i32_small z : Z.abs z < 2 ^ 31 -> i32 z = z.
Proof. intros H. unfold i32. rewrite Z.mod_small; lia. Qed.

Lemma i64_small z : Z.abs z < 2 ^ 63 -> i64 z = z.
Proof. intros H. unfold i64. rewrite Z.mod_small; lia. Qed.

Lemma map_i64 l : Forall (fun z => Z.abs z < 2 ^ 63) l -> map i64 l = l.
Proof. induction 1 as [|z l Hz _ IH]; [done|]. cbn [map]. by rewrite i64_small, IH. Qed.

(** The bound of an expression from the bounds of its parts. *)
Lemma abs_add x y X Y : Z.abs x <= X -> Z.abs y <= Y -> Z.abs (x + y) <= X + Y.
Proof. lia. Qed.
Lemma abs_sub x y X Y : Z.abs x <= X -> Z.abs y <= Y -> Z.abs (x - y) <= Y + X.
Proof. lia. Qed.
Lemma abs_mul x y X Y : Z.abs x <= X -> Z.abs y <= Y -> Z.abs (x * y) <= X * Y.
Proof. intros Hx Hy. rewrite Z.abs_mul. apply Z.mul_le_mono_nonneg; lia. Qed.
Lemma abs_pos (c : positive) : Z.abs (Z.pos c) <= Z.pos c.
Proof. done. Qed.

Ltac bound_expr :=
  first [ eassumption | apply abs_pos
        | apply abs_add; bound_expr | apply abs_sub; bound_expr | apply abs_mul; bound_expr ].
Ltac bound :=
  first [ eapply Z.le_lt_trans; [bound_expr|first [eassumption|vm_compute; reflexivity]]
        | eapply Z.le_trans; [bound_expr|first [apply Z.le_refl|vm_compute; discriminate]] ].
Ltac all_bound := repeat (constructor; [bound|]); constructor.

(* ------------------------------------------------------------------ *)
(** ** Windows of bits and bytes *)

Lemma mod_split V a b : 0 <= a -> 0 <= b ->
  V mod 2 ^ (a + b) = V mod 2 ^ a + 2 ^ a * ((V / 2 ^ a) mod 2 ^ b).
Proof. intros Ha Hb. rewrite Z.pow_add_r by done. apply Z.rem_mul_r; lia. Qed.

Lemma div_pow V a b : 0 <= a -> 0 <= b -> V / 2 ^ a / 2 ^ b = V / 2 ^ (a + b).
Proof. intros Ha Hb. rewrite Z.div_div, Z.pow_add_r; lia. Qed.

(** A window of the bits of a window. *)
Lemma mod_div_mod W a w n : 0 <= a -> 0 <= w -> a + w <= n ->
  (W mod 2 ^ n / 2 ^ a) mod 2 ^ w = (W / 2 ^ a) mod 2 ^ w.
Proof.
  intros Ha Hw Hn. replace n with (a + (w + (n - a - w))) by lia.
  rewrite (mod_split W a) by lia. rewrite (mod_split (W / 2 ^ a) w) by lia.
  rewrite Z.add_comm, Z.mul_comm, Z.div_add_l by lia.
  rewrite (Z.div_small (W mod 2 ^ a)), Z.add_0_r by (apply Z.mod_pos_bound; lia).
  rewrite (Z.mul_comm (2 ^ w)), Z_mod_plus_full. apply Zmod_mod.
Qed.

Lemma byte_at_div l i : byte_at l i = (le_val l / 256 ^ Z.of_nat i) mod 256.
Proof.
  revert i. induction l as [|b l IH]; intros i.
  - unfold byte_at. cbn [le_val]. rewrite Z.div_0_l by lia. by destruct i.
  - pose proof (byte_val_range b). destruct i as [|i]; cbn [le_val].
    + unfold byte_at. cbn [nth]. change (Z.of_nat 0) with 0. rewrite Z.pow_0_r, Z.div_1_r.
      rewrite (Z.mul_comm 256), Z_mod_plus_full, Z.mod_small; lia.
    + change (byte_at (b :: l) (S i)) with (byte_at l i). rewrite IH, Nat2Z.inj_succ, Z.pow_succ_r by lia.
      rewrite <- Z.div_div by lia. rewrite (Z.mul_comm 256), Z.div_add, (Z.div_small (byte_val b)) by lia. done.
Qed.

Lemma byte_at_testbit l i t : 0 <= t < 8 ->
  Z.testbit (byte_at l i) t = Z.testbit (le_val l) (8 * Z.of_nat i + t).
Proof.
  intros Ht. rewrite byte_at_div. change 256 with (2 ^ 8) at 2. rewrite Z.mod_pow2_bits_low by lia.
  change 256 with (2 ^ 8). rewrite <- Z.pow_mul_r, Z.div_pow2_bits by lia. f_equal. lia.
Qed.

(** Four bytes put together. *)
Lemma word_at input s :
  Z.lor (Z.lor (Z.lor (byte_at input s) (Z.shiftl (byte_at input (s + 1)) 8))
    (Z.shiftl (byte_at input (s + 2)) 16)) (Z.shiftl (byte_at input (s + 3)) 24)
  = (le_val input / 2 ^ (8 * Z.of_nat s)) mod 2 ^ 32.
Proof.
  pose proof (byte_at_range input s) as H0. pose proof (byte_at_range input (s + 1)) as H1.
  pose proof (byte_at_range input (s + 2)) as H2. pose proof (byte_at_range input (s + 3)) as H3.
  rewrite (lor_shiftl _ _ 8), (lor_shiftl _ _ 16), (lor_shiftl _ _ 24) by lia.
  rewrite !byte_at_div, !Nat2Z.inj_add. change 256 with (2 ^ 8). rewrite <- !Z.pow_mul_r by lia.
  set (W := le_val input / 2 ^ (8 * Z.of_nat s)).
  change 32 with (8 + (8 + (8 + 8))). rewrite !mod_split, !div_pow by lia. unfold W. rewrite !div_pow by lia.
  rewrite !Z.mul_add_distr_l.
  change (8 * Z.of_nat 1) with 8. change (8 * Z.of_nat 2) with (8 + 8). change (8 * Z.of_nat 3) with (8 + 8 + 8). lia.
Qed.

Lemma le_bytes_le_val l : le_bytes (length l) (le_val l) = l.
Proof.
  induction l as [|b l IH]; [done|]. cbn [length le_bytes le_val]. pose proof (byte_val_range b).
  rewrite (Z.mul_comm 256), Z.div_add, (Z.div_small (byte_val b)) by lia. rewrite Z.add_0_l, IH. f_equal.
  apply byte_val_inj. rewrite byte_val_u8, Z_mod_plus_full. by apply Z.mod_small.
Qed.

Inductive step : Type :=
| Carry (round w : Z) (i j : nat) (k : Z)
| Fold (i : nat) (targets : list (nat * Z)).

(** [a += b * k], or [a -= b * (- k)] for a negative [k]. *)
Definition mac (a b k : Z) : Z := if k <? 0 then i64 (a - i64 (b * - k)) else i64 (a + i64 (b * k)).

Definition run_step (x : list Z) (s : step) : list Z :=
  match s with
  | Carry round w i j k =>
      let carry := Z.shiftr (i64 (at_ x i + round)) w in
      let x := <[j := i64 (at_ x j + i64 (carry * k))]> x in
      <[i := i64 (at_ x i - i64 (Z.shiftl carry w))]> x
  | Fold i targets =>
      <[i := 0]> (foldl (fun x t => <[t.1 := mac (at_ x t.1) (at_ x i) t.2]> x) x targets)
  end.

Definition run (ss : list step) (x : list Z) : list Z := foldl run_step x ss.

(* ------------------------------------------------------------------ *)
(** ** Intervals *)

Definition itv : Type := Z * Z.
Definition inside (r : itv) (x : Z) : Prop := r.1 <= x <= r.2.
Definition fits (r : itv) : bool := (- 2 ^ 63 <=? r.1) && (r.2 <? 2 ^ 63).
Definition itv_add (r s : itv) : itv := (r.1 + s.1, r.2 + s.2).
Definition itv_scale (k : Z) (r : itv) : itv := if k <? 0 then (r.2 * k, r.1 * k) else (r.1 * k, r.2 * k).
Definition itv_at (e : list itv) (i : nat) : itv := nth i e (0, 0).

(** What a line [x_j += x_i * k] does to the intervals. *)
Definition check_mac (e : list itv) (i : nat) (t : nat * Z) : option (list itv) :=
  let prod := itv_scale t.2 (itv_at e i) in
  let sum := itv_add (itv_at e t.1) prod in
  if negb (t.1 =? i)%nat && (t.1 <? length e)%nat && fits prod && fits (itv_scale (- t.2) (itv_at e i)) && fits sum
  then Some (<[t.1 := sum]> e) else None.

Fixpoint check_macs (e : list itv) (i : nat) (ts : list (nat * Z)) : option (list itv) :=
  match ts with
  | [] => Some e
  | t :: ts' => e ← check_mac e i t; check_macs e i ts'
  end.

Definition check_step (e : list itv) (s : step) : option (list itv) :=
  match s with
  | Carry round w i j k =>
      let a := itv_at e i in
      let sum := itv_add a (round, round) in
      let c := (sum.1 / 2 ^ w, sum.2 / 2 ^ w) in
      let prod := itv_scale k c in
      let b := itv_add (itv_at e j) prod in
      let left := if c.1 =? c.2 then itv_add a (- c.1 * 2 ^ w, - c.1 * 2 ^ w) else (- round, 2 ^ w - 1 - round) in
      if negb (i =? j)%nat && (i <? length e)%nat && (j <? length e)%nat && (0 <=? w) &&
         fits sum && fits prod && fits b && fits (itv_scale (2 ^ w) c) && fits left
      then Some (<[i := left]> (<[j := b]> e)) else None
  | Fold i ts => if (i <? length e)%nat then e ← check_macs e i ts; Some (<[i := (0, 0)]> e) else None
  end.

Definition analyse (ss : list step) (e : list itv) : option (list itv) :=
  foldl (fun e s => e ← e; check_step e s) (Some e) ss.

(* ------------------------------------------------------------------ *)
(** ** The number the limbs stand for *)

Definition lin (ws x : list Z) : Z := foldr Z.add 0 (zip_with Z.mul ws x).

(** How much a step adds per unit it moves. *)
Definition gain (ws : list Z) (s : step) : Z :=
  match s with
  | Carry _ w i j k => at_ ws j * k - at_ ws i * 2 ^ w
  | Fold i ts => foldr (fun t z => at_ ws t.1 * t.2 + z) 0 ts - at_ ws i
  end.
Definition moved (x : list Z) (s : step) : Z :=
  match s with
  | Carry round w i _ _ => (at_ x i + round) / 2 ^ w
  | Fold i _ => at_ x i
  end.

(* ------------------------------------------------------------------ *)
(** ** Soundness *)

Definition holds (e : list itv) (x : list Z) : Prop :=
  length x = length e /\ forall i, inside (itv_at e i) (at_ x i).

Lemma i64_fits z : - 2 ^ 63 <= z < 2 ^ 63 -> i64 z = z.
Proof. intros H. unfold i64. rewrite Z.mod_small; lia. Qed.

Lemma fits_inside r z : fits r = true -> inside r z -> i64 z = z.
Proof. unfold fits, inside. intros [H1%Z.leb_le H2%Z.ltb_lt]%andb_true_iff H. apply i64_fits. lia. Qed.

Lemma inside_add r s a b : inside r a -> inside s b -> inside (itv_add r s) (a + b).
Proof. unfold inside, itv_add. simpl. lia. Qed.

Lemma inside_scale k r a : inside r a -> inside (itv_scale k r) (a * k).
Proof. unfold inside, itv_scale. intros H. destruct (Z.ltb_spec k 0); simpl; nia. Qed.

Lemma at_insert x i v j : at_ (<[i := v]> x) j = if decide (i = j /\ (i < length x)%nat) then v else at_ x j.
Proof.
  unfold at_. rewrite !nth_lookup. destruct (decide _) as [[<- Hi]|Hn].
  - by rewrite list_lookup_insert_eq.
  - destruct (decide (i = j)) as [<-|].
    + by rewrite list_insert_ge by lia.
    + by rewrite list_lookup_insert_ne.
Qed.

Lemma itv_at_insert e i v j : itv_at (<[i := v]> e) j = if decide (i = j /\ (i < length e)%nat) then v else itv_at e j.
Proof.
  unfold itv_at. rewrite !nth_lookup. destruct (decide _) as [[<- Hi]|Hn].
  - by rewrite list_lookup_insert_eq.
  - destruct (decide (i = j)) as [<-|].
    + by rewrite list_insert_ge by lia.
    + by rewrite list_lookup_insert_ne.
Qed.

Lemma holds_insert e x i r v : holds e x -> inside r v -> holds (<[i := r]> e) (<[i := v]> x).
Proof.
  intros [Hl Hx] Hv. split; [by rewrite !length_insert|]. intros j. rewrite at_insert, itv_at_insert, Hl.
  by destruct (decide _).
Qed.

Lemma lin_insert ws x i v : (i < length x <= length ws)%nat ->
  lin ws (<[i := v]> x) = lin ws x + at_ ws i * (v - at_ x i).
Proof.
  unfold lin. revert x i. induction ws as [|w ws IH]; intros [|a x] i Hi; simpl in Hi; try lia.
  destruct i as [|i]; cbn [insert list_insert zip_with foldr].
  - unfold at_. cbn [nth]. lia.
  - fold (<[i := v]> x). rewrite IH by lia. unfold at_. cbn [nth]. lia.
Qed.

Lemma mac_exact prod sum neg a b k : fits prod = true -> inside prod (b * k) -> fits neg = true -> inside neg (b * - k) ->
  fits sum = true -> inside sum (a + b * k) -> mac a b k = a + b * k.
Proof.
  intros Hp Ip Hn In Hs Is. unfold mac. destruct (k <? 0).
  - rewrite (fits_inside _ _ Hn In). rewrite (fits_inside _ (a - b * - k) Hs); [lia|].
    replace (a - b * - k) with (a + b * k) by lia. done.
  - by rewrite (fits_inside _ _ Hp Ip), (fits_inside _ _ Hs Is).
Qed.

Lemma check_mac_sound ws e i t e' x : check_mac e i t = Some e' -> holds e x -> (length e <= length ws)%nat ->
  let x' := <[t.1 := mac (at_ x t.1) (at_ x i) t.2]> x in
  holds e' x' /\ length e' = length e /\ at_ x' i = at_ x i /\ lin ws x' = lin ws x + at_ x i * (at_ ws t.1 * t.2).
Proof.
  destruct t as [j k]. unfold check_mac. cbn [fst snd]. cbv zeta. intros H Hx Hws.
  destruct (_ && _) eqn:E; [|done]. injection H as <-. rewrite !andb_true_iff, negb_true_iff, Nat.eqb_neq, Nat.ltb_lt in E.
  destruct E as ((((Hji & Hj) & Hp) & Hn) & Hs). pose proof Hx as [Hl Hin].
  pose proof (inside_scale k _ _ (Hin i)) as Ip. pose proof (inside_scale (- k) _ _ (Hin i)) as In.
  pose proof (inside_add _ _ _ _ (Hin j) Ip) as Is.
  rewrite (mac_exact _ _ _ _ _ _ Hp Ip Hn In Hs Is). split; [by apply holds_insert|].
  split; [by rewrite length_insert|]. split.
  - rewrite at_insert. destruct (decide _) as [[? _]|]; [done|done].
  - rewrite lin_insert by lia. lia.
Qed.

Lemma check_macs_sound ws e i ts e' x : check_macs e i ts = Some e' -> holds e x -> (length e <= length ws)%nat ->
  let x' := foldl (fun x t => <[t.1 := mac (at_ x t.1) (at_ x i) t.2]> x) x ts in
  holds e' x' /\ length e' = length e /\ at_ x' i = at_ x i /\
  lin ws x' = lin ws x + at_ x i * foldr (fun t z => at_ ws t.1 * t.2 + z) 0 ts.
Proof.
  revert e x. induction ts as [|t ts IH]; intros e x H Hx Hws; cbn [check_macs] in H.
  - injection H as <-. cbn [foldl foldr]. split; [done|]. split; [done|]. split; [done|]. lia.
  - destruct (check_mac e i t) as [e1|] eqn:E; [|done]. cbn [mbind option_bind] in H.
    destruct (check_mac_sound ws _ _ _ _ _ E Hx Hws) as (H1 & L1 & A1 & V1). cbn [foldl foldr].
    destruct (IH e1 _ H H1 ltac:(lia)) as (H2 & L2 & A2 & V2). rewrite A1 in A2, V2.
    split; [done|]. split; [lia|]. split; [done|]. rewrite V2, V1. lia.
Qed.

(** What a carry leaves in its limb. *)
Lemma carry_left r a w round : inside r a -> 0 <= w ->
  let c := ((itv_add r (round, round)).1 / 2 ^ w, (itv_add r (round, round)).2 / 2 ^ w) in
  inside (if c.1 =? c.2 then itv_add r (- c.1 * 2 ^ w, - c.1 * 2 ^ w) else (- round, 2 ^ w - 1 - round))
    (a - (a + round) / 2 ^ w * 2 ^ w).
Proof.
  intros Ha Hw. cbn [itv_add fst snd]. assert (0 < 2 ^ w) as Hp by (apply Z.pow_pos_nonneg; lia).
  pose proof (Z.div_mod (a + round) (2 ^ w) ltac:(lia)). pose proof (Z.mod_pos_bound (a + round) (2 ^ w) ltac:(lia)).
  destruct Ha as [H1 H2]. destruct (Z.eqb_spec ((r.1 + round) / 2 ^ w) ((r.2 + round) / 2 ^ w)) as [Ec|].
  - pose proof (Z.div_le_mono (r.1 + round) (a + round) (2 ^ w) Hp ltac:(lia)).
    pose proof (Z.div_le_mono (a + round) (r.2 + round) (2 ^ w) Hp ltac:(lia)).
    assert ((a + round) / 2 ^ w = (r.1 + round) / 2 ^ w) as -> by lia. unfold inside. cbn [itv_add fst snd]. lia.
  - unfold inside. cbn [fst snd]. lia.
Qed.

(** A step keeps within 64 bits, leaves the limbs within the intervals, and
    changes the number by what it moves. *)
Lemma check_step_sound ws e s e' x : check_step e s = Some e' -> holds e x -> (length e <= length ws)%nat ->
  holds e' (run_step x s) /\ length e' = length e /\ lin ws (run_step x s) = lin ws x + moved x s * gain ws s.
Proof.
  intros H Hx Hws. pose proof Hx as [Hl Hin]. destruct s as [round w i j k|i ts]; cbn [check_step run_step moved gain] in *.
  - cbv zeta in *. destruct (_ && _) eqn:E; [|done]. injection H as <-.
    rewrite !andb_true_iff, negb_true_iff, Nat.eqb_neq, !Nat.ltb_lt, Z.leb_le in E.
    destruct E as ((((((((Hij & Hi) & Hj) & Hw) & Hs) & Hp) & Hb) & Hsh) & Hl').
    set (a := at_ x i) in *. pose proof (Hin i) as Ia. fold a in Ia.
    assert (inside (itv_add (itv_at e i) (round, round)) (a + round)) as Is by (apply inside_add; [done|split; simpl; lia]).
    rewrite (fits_inside _ _ Hs Is). rewrite Z.shiftr_div_pow2 by done.
    assert (0 < 2 ^ w) as Hpw by (apply Z.pow_pos_nonneg; lia).
    set (c := (a + round) / 2 ^ w).
    assert (inside ((itv_add (itv_at e i) (round, round)).1 / 2 ^ w, (itv_add (itv_at e i) (round, round)).2 / 2 ^ w) c) as Ic.
    { unfold inside, c in *. simpl in *. split; apply Z.div_le_mono; lia. }
    pose proof (inside_scale k _ _ Ic) as Ip. rewrite (fits_inside _ _ Hp Ip).
    pose proof (inside_add _ _ _ _ (Hin j) Ip) as Ib. rewrite (fits_inside _ _ Hb Ib).
    rewrite Z.shiftl_mul_pow2 by done. pose proof (inside_scale (2 ^ w) _ _ Ic) as Ish. rewrite (fits_inside _ _ Hsh Ish).
    rewrite at_insert. destruct (decide _) as [[? _]|_]; [congruence|]. fold a.
    pose proof (carry_left _ _ w round Ia Hw) as Il. cbv zeta in Il. fold c in Il.
    rewrite (fits_inside _ _ Hl' Il). split; [by repeat apply holds_insert|]. split; [by rewrite !length_insert|].
    rewrite !lin_insert by (rewrite ?length_insert; lia). rewrite at_insert.
    destruct (decide _) as [[? _]|_]; [congruence|]. fold a. lia.
  - destruct (Nat.ltb_spec i (length e)) as [Hi|]; [|done].
    destruct (check_macs e i ts) as [e1|] eqn:E; [|done]. injection H as <-.
    destruct (check_macs_sound ws _ _ _ _ _ E Hx Hws) as (H1 & L1 & A1 & V1). pose proof H1 as [Hl1 _].
    split; [apply holds_insert; [done|split; simpl; lia]|]. split; [by rewrite length_insert|].
    rewrite lin_insert by lia. rewrite V1, A1. lia.
Qed.

Lemma analyse_cons s ss e : analyse (s :: ss) e = (e' ← check_step e s; analyse ss e').
Proof.
  unfold analyse. cbn [foldl]. change ((e0 ← Some e; check_step e0 s)) with (check_step e s).
  destruct (check_step e s) as [e1|]; [done|]. cbn [mbind option_bind]. induction ss as [|s' ss IH]; [done|]. exact IH.
Qed.

(** A whole program: every step gains a multiple of [m]. *)
Theorem analyse_sound ws m ss e e' x : analyse ss e = Some e' -> holds e x -> (length e <= length ws)%nat ->
  Forall (fun s => (m | gain ws s)) ss ->
  holds e' (run ss x) /\ length e' = length e /\ (m | lin ws (run ss x) - lin ws x).
Proof.
  revert e x. induction ss as [|s ss IH]; intros e x H Hx Hws Hg.
  - injection H as <-. split; [done|]. split; [done|]. rewrite Z.sub_diag. apply Z.divide_0_r.
  - rewrite analyse_cons in H. destruct (check_step e s) as [e1|] eqn:E; [|done]. cbn [mbind option_bind] in H.
    apply Forall_cons in Hg as [Hg Hgs]. destruct (check_step_sound ws _ _ _ _ E Hx Hws) as (H1 & L1 & V1).
    destruct (IH e1 _ H H1 ltac:(lia) Hgs) as (H2 & L2 & D2). split; [done|]. split; [lia|].
    change (run (s :: ss) x) with (run ss (run_step x s)).
    replace (lin ws (run ss (run_step x s)) - lin ws x)
      with ((lin ws (run ss (run_step x s)) - lin ws (run_step x s)) + moved x s * gain ws s) by lia.
    apply Z.divide_add_r; [done|]. by apply Z.divide_mul_r.
Qed.

(** The condition on the gains, by computation; [m = 0] is equality. *)
Definition gains (ws : list Z) (m : Z) (ss : list step) : bool :=
  forallb (fun s => (gain ws s mod m =? 0)) ss.

Lemma gains_spec ws m ss : gains ws m ss = true -> Forall (fun s => (m | gain ws s)) ss.
Proof.
  unfold gains. intros H. rewrite forallb_forall in H. apply List.Forall_forall. intros s Hs.
  specialize (H s Hs). apply Z.eqb_eq in H. destruct (Z.eq_dec m 0) as [->|Hm].
  - rewrite Z.mod_0_r in H. rewrite H. done.
  - by apply Z.mod_divide.
Qed.

(** Reading the bounds of a limb off the result of the analysis. *)
Lemma holds_at e x i lo hi : holds e x -> itv_at e i = (lo, hi) -> lo <= at_ x i <= hi.
Proof. intros [_ Hx] E. specialize (Hx i). by rewrite E in Hx. Qed.

(** The bounds of the number. *)
Definition itv_lin (ws : list Z) (e : list itv) : itv := foldr itv_add (0, 0) (zip_with itv_scale ws e).

Lemma lin_inside ws e x : holds e x -> inside (itv_lin ws e) (lin ws x).
Proof.
  intros [Hl Hin]. unfold lin, itv_lin. revert e x Hl Hin. induction ws as [|w ws IH]; intros e x Hl Hin; [by split|].
  destruct e as [|r e], x as [|a x]; try done; cbn [zip_with foldr].
  apply inside_add; [rewrite Z.mul_comm; apply inside_scale, (Hin 0%nat)|].
  apply IH; [by injection Hl|]. intros i. apply (Hin (S i)).
Qed.

(** Limbs of one bound; one limb more. *)
Lemma holds_repeat B x : Forall (fun z => Z.abs z <= B) x -> holds (repeat (- B, B) (length x)) x.
Proof.
  induction 1 as [|a x Ha Hx [Hl IH]]; [by split; [|intros []]|]. split; [cbn; by rewrite repeat_length|].
  intros [|i]; [|apply IH]. unfold inside. cbn. lia.
Qed.

Lemma holds_snoc e x r z : holds e x -> inside r z -> holds (e ++ [r]) (x ++ [z]).
Proof.
  revert e. induction x as [|a x IH]; intros [|s e] [Hl Hx] Hz; try done; cbn [app].
  - split; [done|]. intros [|i]; [done|]. unfold inside, itv_at, at_. cbn [nth]. destruct i; cbn; lia.
  - assert (holds e x) as He by (split; [by injection Hl|]; intros i; exact (Hx (S i))).
    destruct (IH e He Hz) as [Hl' Hx']. split; [cbn [length]; lia|].
    intros [|i]; [exact (Hx 0%nat)|apply Hx'].
Qed.
