(* ===== verification/Scalar.v ===== *)
(** Scalars modulo the order of the base point: curve25519/ed25519/sc_reduce.c,
    sc_muladd.c and additions/sc_neg.c, sc_cmov.c, sc_clamp.c.

    The variables [s0] ... [s23] of the code are an array of limbs of 21 bits, and
    its lines the steps of [Limbs]. *)

From S2P Require Import Prelude Buffers Crypto Limbs.

(** [2 ^ 252 + 27742317777372353535851937790883648493] *)
Definition order : Z := 2 ^ 252 + 27742317777372353535851937790883648493.

Definition load_3 (in_ : bytes) (s : nat) : Z :=
  Z.lor (Z.lor (byte_at in_ s) (Z.shiftl (byte_at in_ (s + 1)) 8)) (Z.shiftl (byte_at in_ (s + 2)) 16).
Definition load_4 (in_ : bytes) (s : nat) : Z :=
  Z.lor (Z.lor (Z.lor (byte_at in_ s) (Z.shiftl (byte_at in_ (s + 1)) 8)) (Z.shiftl (byte_at in_ (s + 2)) 16))
    (Z.shiftl (byte_at in_ (s + 3)) 24).

(** The limbs of 64 and of 32 bytes. *)
Definition load_64 (s : bytes) : list Z :=
  [Z.land 2097151 (load_3 s 0); Z.land 2097151 (Z.shiftr (load_4 s 2) 5);
   Z.land 2097151 (Z.shiftr (load_3 s 5) 2); Z.land 2097151 (Z.shiftr (load_4 s 7) 7);
   Z.land 2097151 (Z.shiftr (load_4 s 10) 4); Z.land 2097151 (Z.shiftr (load_3 s 13) 1);
   Z.land 2097151 (Z.shiftr (load_4 s 15) 6); Z.land 2097151 (Z.shiftr (load_3 s 18) 3);
   Z.land 2097151 (load_3 s 21); Z.land 2097151 (Z.shiftr (load_4 s 23) 5);
   Z.land 2097151 (Z.shiftr (load_3 s 26) 2); Z.land 2097151 (Z.shiftr (load_4 s 28) 7);
   Z.land 2097151 (Z.shiftr (load_4 s 31) 4); Z.land 2097151 (Z.shiftr (load_3 s 34) 1);
   Z.land 2097151 (Z.shiftr (load_4 s 36) 6); Z.land 2097151 (Z.shiftr (load_3 s 39) 3);
   Z.land 2097151 (load_3 s 42); Z.land 2097151 (Z.shiftr (load_4 s 44) 5);
   Z.land 2097151 (Z.shiftr (load_3 s 47) 2); Z.land 2097151 (Z.shiftr (load_4 s 49) 7);
   Z.land 2097151 (Z.shiftr (load_4 s 52) 4); Z.land 2097151 (Z.shiftr (load_3 s 55) 1);
   Z.land 2097151 (Z.shiftr (load_4 s 57) 6); Z.shiftr (load_4 s 60) 3].

Definition load_32 (n : bytes) : list Z :=
  [Z.land 2097151 (load_3 n 0); Z.land 2097151 (Z.shiftr (load_4 n 2) 5);
   Z.land 2097151 (Z.shiftr (load_3 n 5) 2); Z.land 2097151 (Z.shiftr (load_4 n 7) 7);
   Z.land 2097151 (Z.shiftr (load_4 n 10) 4); Z.land 2097151 (Z.shiftr (load_3 n 13) 1);
   Z.land 2097151 (Z.shiftr (load_4 n 15) 6); Z.land 2097151 (Z.shiftr (load_3 n 18) 3);
   Z.land 2097151 (load_3 n 21); Z.land 2097151 (Z.shiftr (load_4 n 23) 5);
   Z.land 2097151 (Z.shiftr (load_3 n 26) 2); Z.shiftr (load_4 n 28) 7].

(** [s_(i-12) += s_i * 666643; ...; s_i = 0;] *)
Definition fold_limb (i : nat) : step :=
  Fold i [((i - 12)%nat, 666643); ((i - 11)%nat, 470296); ((i - 10)%nat, 654183);
          ((i - 9)%nat, -997805); ((i - 8)%nat, 136657); ((i - 7)%nat, -683901)].
(** [carry = (s_i + (1 << 20)) >> 21; s_(i+1) += carry; s_i -= carry << 21;] *)
Definition round_carry (i : nat) : step := Carry (2 ^ 20) 21 i (S i) 1.
(** [carry = s_i >> 21; s_(i+1) += carry; s_i -= carry << 21;] *)
Definition floor_carry (i : nat) : step := Carry 0 21 i (S i) 1.

(** The lines that [sc_reduce] and [sc_muladd] share, up to the bytes. *)
Definition reduce_steps : list step :=
  map fold_limb [23; 22; 21; 20; 19; 18]%nat ++
  map round_carry [6; 8; 10; 12; 14; 16; 7; 9; 11; 13; 15]%nat ++
  map fold_limb [17; 16; 15; 14; 13; 12]%nat ++
  map round_carry [0; 2; 4; 6; 8; 10; 1; 3; 5; 7; 9; 11]%nat ++
  [fold_limb 12].
Definition final_steps : list step :=
  map floor_carry (seq 0 12) ++ [fold_limb 12] ++ map floor_carry (seq 0 11).

(** The first carries of [sc_muladd]. *)
Definition product_steps : list step :=
  map round_carry [0; 2; 4; 6; 8; 10; 12; 14; 16; 18; 20; 22; 1; 3; 5; 7; 9; 11; 13; 15; 17; 19; 21]%nat.

Definition store_32 (x : list Z) : bytes :=
  let s0 := at_ x 0 in let s1 := at_ x 1 in let s2 := at_ x 2 in let s3 := at_ x 3 in
  let s4 := at_ x 4 in let s5 := at_ x 5 in let s6 := at_ x 6 in let s7 := at_ x 7 in
  let s8 := at_ x 8 in let s9 := at_ x 9 in let s10 := at_ x 10 in let s11 := at_ x 11 in
  map u8
  [Z.shiftr s0 0; Z.shiftr s0 8;
   Z.lor (Z.shiftr s0 16) (Z.shiftl s1 5); Z.shiftr s1 3;
   Z.shiftr s1 11; Z.lor (Z.shiftr s1 19) (Z.shiftl s2 2);
   Z.shiftr s2 6; Z.lor (Z.shiftr s2 14) (Z.shiftl s3 7);
   Z.shiftr s3 1; Z.shiftr s3 9;
   Z.lor (Z.shiftr s3 17) (Z.shiftl s4 4); Z.shiftr s4 4;
   Z.shiftr s4 12; Z.lor (Z.shiftr s4 20) (Z.shiftl s5 1);
   Z.shiftr s5 7; Z.lor (Z.shiftr s5 15) (Z.shiftl s6 6);
   Z.shiftr s6 2; Z.shiftr s6 10;
   Z.lor (Z.shiftr s6 18) (Z.shiftl s7 3); Z.shiftr s7 5;
   Z.shiftr s7 13; Z.shiftr s8 0;
   Z.shiftr s8 8; Z.lor (Z.shiftr s8 16) (Z.shiftl s9 5);
   Z.shiftr s9 3; Z.shiftr s9 11;
   Z.lor (Z.shiftr s9 19) (Z.shiftl s10 2); Z.shiftr s10 6;
   Z.lor (Z.shiftr s10 14) (Z.shiftl s11 7); Z.shiftr s11 1;
   Z.shiftr s11 9; Z.shiftr s11 17].

Definition sc_reduce (s : bytes) : bytes :=
  store_32 (run final_steps (run reduce_steps (load_64 s))).

(** [s0 = c0 + a0*b0; ...]; the products are of [int64_t]. *)
Definition sc_product (xa xb xc : list Z) : list Z :=
  let a0 := at_ xa 0 in let a1 := at_ xa 1 in let a2 := at_ xa 2 in let a3 := at_ xa 3 in
  let a4 := at_ xa 4 in let a5 := at_ xa 5 in let a6 := at_ xa 6 in let a7 := at_ xa 7 in
  let a8 := at_ xa 8 in let a9 := at_ xa 9 in let a10 := at_ xa 10 in let a11 := at_ xa 11 in
  let b0 := at_ xb 0 in let b1 := at_ xb 1 in let b2 := at_ xb 2 in let b3 := at_ xb 3 in
  let b4 := at_ xb 4 in let b5 := at_ xb 5 in let b6 := at_ xb 6 in let b7 := at_ xb 7 in
  let b8 := at_ xb 8 in let b9 := at_ xb 9 in let b10 := at_ xb 10 in let b11 := at_ xb 11 in
  let c0 := at_ xc 0 in let c1 := at_ xc 1 in let c2 := at_ xc 2 in let c3 := at_ xc 3 in
  let c4 := at_ xc 4 in let c5 := at_ xc 5 in let c6 := at_ xc 6 in let c7 := at_ xc 7 in
  let c8 := at_ xc 8 in let c9 := at_ xc 9 in let c10 := at_ xc 10 in let c11 := at_ xc 11 in
  map i64
  [c0 + a0 * b0;
   c1 + a0 * b1 + a1 * b0;
   c2 + a0 * b2 + a1 * b1 + a2 * b0;
   c3 + a0 * b3 + a1 * b2 + a2 * b1 + a3 * b0;
   c4 + a0 * b4 + a1 * b3 + a2 * b2 + a3 * b1 + a4 * b0;
   c5 + a0 * b5 + a1 * b4 + a2 * b3 + a3 * b2 + a4 * b1 + a5 * b0;
   c6 + a0 * b6 + a1 * b5 + a2 * b4 + a3 * b3 + a4 * b2 + a5 * b1 + a6 * b0;
   c7 + a0 * b7 + a1 * b6 + a2 * b5 + a3 * b4 + a4 * b3 + a5 * b2 + a6 * b1 + a7 * b0;
   c8 + a0 * b8 + a1 * b7 + a2 * b6 + a3 * b5 + a4 * b4 + a5 * b3 + a6 * b2 + a7 * b1 + a8 * b0;
   c9 + a0 * b9 + a1 * b8 + a2 * b7 + a3 * b6 + a4 * b5 + a5 * b4 + a6 * b3 + a7 * b2 + a8 * b1 + a9 * b0;
   c10 + a0 * b10 + a1 * b9 + a2 * b8 + a3 * b7 + a4 * b6 + a5 * b5 + a6 * b4 + a7 * b3 + a8 * b2 + a9 * b1 + a10 * b0;
   c11 + a0 * b11 + a1 * b10 + a2 * b9 + a3 * b8 + a4 * b7 + a5 * b6 + a6 * b5 + a7 * b4 + a8 * b3 + a9 * b2 + a10 * b1 + a11 * b0;
   a1 * b11 + a2 * b10 + a3 * b9 + a4 * b8 + a5 * b7 + a6 * b6 + a7 * b5 + a8 * b4 + a9 * b3 + a10 * b2 + a11 * b1;
   a2 * b11 + a3 * b10 + a4 * b9 + a5 * b8 + a6 * b7 + a7 * b6 + a8 * b5 + a9 * b4 + a10 * b3 + a11 * b2;
   a3 * b11 + a4 * b10 + a5 * b9 + a6 * b8 + a7 * b7 + a8 * b6 + a9 * b5 + a10 * b4 + a11 * b3;
   a4 * b11 + a5 * b10 + a6 * b9 + a7 * b8 + a8 * b7 + a9 * b6 + a10 * b5 + a11 * b4;
   a5 * b11 + a6 * b10 + a7 * b9 + a8 * b8 + a9 * b7 + a10 * b6 + a11 * b5;
   a6 * b11 + a7 * b10 + a8 * b9 + a9 * b8 + a10 * b7 + a11 * b6;
   a7 * b11 + a8 * b10 + a9 * b9 + a10 * b8 + a11 * b7;
   a8 * b11 + a9 * b10 + a10 * b9 + a11 * b8;
   a9 * b11 + a10 * b10 + a11 * b9;
   a10 * b11 + a11 * b10;
   a11 * b11;
   0].

Definition sc_muladd (a b c : bytes) : bytes :=
  store_32 (run final_steps (run reduce_steps (run product_steps (sc_product (load_32 a) (load_32 b) (load_32 c))))).

Definition lminus1 : bytes :=
  map u8 [236; 211; 245; 92; 26; 99; 18; 88; 214; 156; 247; 162; 222; 249; 222; 20;
          0; 0; 0; 0; 0; 0; 0; 0; 0; 0; 0; 0; 0; 0; 0; 16].

Definition sc_neg (a : bytes) : bytes := sc_muladd lminus1 a (repeat x00 32).

Definition sc_cmov (f g : bytes) (b : Z) : bytes :=
  let b := u8 (- b) in
  zip_with (fun f g => u8 (Z.lxor (byte_val f) (Z.land (Z.lxor (byte_val f) (byte_val g)) (byte_val b))))
    (take 32 f) (take 32 g).

