(* ===== verification/ScalarFacts.v ===== *)
(** The scalar arithmetic is exact: [sc_reduce] and [sc_muladd] answer the 32
    bytes of the canonical residue modulo the order, and no line of them leaves 64
    bits. *)

From S2P Require Import Prelude Buffers Crypto Limbs Scalar.

Definition w21 : list Z := map (fun i => 2 ^ (21 * Z.of_nat i)) (seq 0 24).

(* ------------------------------------------------------------------ *)
(** ** Reading *)

Lemma load_4_spec in_ s : load_4 in_ s = (le_val in_ / 2 ^ (8 * Z.of_nat s)) mod 2 ^ 32.
Proof. apply word_at. Qed.

Lemma load_3_spec in_ s : load_3 in_ s = (le_val in_ / 2 ^ (8 * Z.of_nat s)) mod 2 ^ 24.
Proof.
  unfold load_3. pose proof (byte_at_range in_ s). pose proof (byte_at_range in_ (s + 1)). pose proof (byte_at_range in_ (s + 2)).
  rewrite (lor_shiftl _ _ 8), (lor_shiftl _ _ 16) by lia.
  rewrite !byte_at_div, !Nat2Z.inj_add. change 256 with (2 ^ 8). rewrite <- !Z.pow_mul_r by lia.
  set (W := le_val in_ / 2 ^ (8 * Z.of_nat s)).
  change 24 with (8 + (8 + 8)). rewrite !mod_split, !div_pow by lia. unfold W. rewrite !div_pow by lia.
  rewrite !Z.mul_add_distr_l. change (8 * Z.of_nat 1) with 8. change (8 * Z.of_nat 2) with (8 + 8). lia.
Qed.

(** A limb of 21 bits. *)
Lemma limb_21 V b n sh : 0 <= b -> 0 <= sh -> sh + 21 <= n ->
  Z.land 2097151 (Z.shiftr ((V / 2 ^ b) mod 2 ^ n) sh) = (V / 2 ^ (b + sh)) mod 2 ^ 21.
Proof.
  intros Hb Hs Hn. change 2097151 with (Z.ones 21). rewrite Z.land_comm, Z.land_ones, Z.shiftr_div_pow2 by lia.
  by rewrite mod_div_mod, div_pow by lia.
Qed.

Lemma limb_21_low V b n : 0 <= b -> 21 <= n -> Z.land 2097151 ((V / 2 ^ b) mod 2 ^ n) = (V / 2 ^ b) mod 2 ^ 21.
Proof.
  intros Hb Hn. pose proof (limb_21 V b n 0 Hb) as H. rewrite Z.shiftr_0_r, Z.add_0_r in H. apply H; lia.
Qed.

(** The last limb has all the bits that are left. *)
Lemma limb_top V b n sh : 0 <= b -> 0 <= sh <= n ->
  Z.shiftr ((V / 2 ^ b) mod 2 ^ n) sh = (V / 2 ^ (b + sh)) mod 2 ^ (n - sh).
Proof.
  intros Hb Hs. rewrite Z.shiftr_div_pow2, <- div_pow by lia.
  rewrite <- (mod_div_mod _ sh (n - sh) n) by lia. symmetry. apply Z.mod_small. split.
  - apply Z.div_pos; [apply Z.mod_pos_bound|]; lia.
  - apply Z.div_lt_upper_bound; [lia|]. rewrite <- Z.pow_add_r by lia. replace (sh + (n - sh)) with n by lia.
    apply Z.mod_pos_bound. lia.
Qed.

(** The bits from [21 * i] on, in [n] windows of 21 bits and a last one of [t]. *)
Fixpoint windows (V : Z) (b : Z) (n : nat) (t : Z) : list Z :=
  match n with
  | O => [(V / 2 ^ b) mod 2 ^ t]
  | S n' => (V / 2 ^ b) mod 2 ^ 21 :: windows V (b + 21) n' t
  end.

Lemma load_64_windows s : load_64 s = windows (le_val s) 0 23 29.
Proof.
  unfold load_64. rewrite !load_3_spec, !load_4_spec, !limb_21, !limb_21_low, limb_top by lia. reflexivity.
Qed.

Lemma load_32_windows n : load_32 n = windows (le_val n) 0 11 25.
Proof.
  unfold load_32. rewrite !load_3_spec, !load_4_spec, !limb_21, !limb_21_low, limb_top by lia. reflexivity.
Qed.

Lemma windows_lin V i n t : 0 <= t ->
  lin (map (fun j => 2 ^ (21 * Z.of_nat j)) (seq i (S n))) (windows V (21 * Z.of_nat i) n t)
  = 2 ^ (21 * Z.of_nat i) * ((V / 2 ^ (21 * Z.of_nat i)) mod 2 ^ (21 * Z.of_nat n + t)).
Proof.
  intros Ht. unfold lin. revert i. induction n as [|n IH]; intros i.
  - cbn [seq map windows zip_with foldr]. rewrite Z.add_0_r. done.
  - cbn [windows]. change (seq i (S (S n))) with (i :: seq (S i) (S n)). cbn [map zip_with foldr].
    replace (21 * Z.of_nat i + 21) with (21 * Z.of_nat (S i)) by lia. rewrite IH.
    replace (21 * Z.of_nat (S n) + t) with (21 + (21 * Z.of_nat n + t)) by lia.
    rewrite (mod_split _ 21), div_pow by lia. replace (21 * Z.of_nat i + 21) with (21 * Z.of_nat (S i)) by lia.
    replace (21 * Z.of_nat (S i)) with (21 * Z.of_nat i + 21) at 1 by lia. rewrite Z.pow_add_r by lia. lia.
Qed.

Lemma windows_holds V b n t : 0 <= t -> holds (repeat (0, 2 ^ 21 - 1) n ++ [(0, 2 ^ t - 1)]) (windows V b n t).
Proof.
  intros Ht. revert b. induction n as [|n IH]; intros b; cbn [repeat app windows].
  - split; [done|]. intros [|i]; [|by destruct i]. unfold inside, itv_at, at_. cbn [nth fst snd].
    pose proof (Z.mod_pos_bound (V / 2 ^ b) (2 ^ t) ltac:(lia)). lia.
  - destruct (IH (b + 21)) as [Hl Hi]. split; [cbn [length]; lia|]. intros [|i]; [|apply Hi].
    unfold inside, itv_at, at_. cbn [nth fst snd]. pose proof (Z.mod_pos_bound (V / 2 ^ b) (2 ^ 21) ltac:(lia)). lia.
Qed.

(* ------------------------------------------------------------------ *)
(** ** Writing *)

(** A byte inside a limb, and a byte across two limbs. *)
Lemma byte_in x a : 0 <= a -> byte_val (u8 (Z.shiftr x a)) = (x / 2 ^ a) mod 2 ^ 8.
Proof. intros Ha. by rewrite byte_val_u8, Z.shiftr_div_pow2. Qed.

Lemma byte_across x y a b : 0 <= a -> 0 <= b <= 8 -> 0 <= x < 2 ^ (a + b) ->
  byte_val (u8 (Z.lor (Z.shiftr x a) (Z.shiftl y b))) = x / 2 ^ a + 2 ^ b * (y mod 2 ^ (8 - b)).
Proof.
  intros Ha Hb Hx. rewrite byte_val_u8, Z.shiftr_div_pow2 by done.
  assert (0 <= x / 2 ^ a < 2 ^ b) as Hxa.
  { split; [apply Z.div_pos; lia|]. apply Z.div_lt_upper_bound; [lia|]. rewrite <- Z.pow_add_r; lia. }
  rewrite lor_shiftl by lia. change 256 with (2 ^ 8). replace 8 with (b + (8 - b)) at 1 by lia.
  rewrite (mod_split _ b) by lia. rewrite Z_mod_plus_full, (Z.mod_small _ (2 ^ b)) by lia.
  by rewrite Z.div_add, (Z.div_small (x / 2 ^ a)), Z.add_0_l by lia.
Qed.

(** A number below the cut [a], then a byte at a time. *)
Lemma cut x a : 0 <= a -> x = x mod 2 ^ a + 2 ^ a * (x / 2 ^ a).
Proof. intros Ha. pose proof (Z.div_mod x (2 ^ a) ltac:(lia)). lia. Qed.
Lemma cut_byte x a c : 0 <= a -> c = a + 8 -> x / 2 ^ a = (x / 2 ^ a) mod 2 ^ 8 + 2 ^ 8 * (x / 2 ^ c).
Proof. intros Ha ->. rewrite <- div_pow by lia. apply cut. lia. Qed.

Definition digits21 (x : list Z) : Prop :=
  (forall i, (i < 11)%nat -> 0 <= at_ x i < 2 ^ 21) /\ 0 <= at_ x 11 < 2 ^ 25.

(** The number of the first limbs. *)
Definition low (n : nat) (x : list Z) : Z := lin (take n w21) (map (at_ x) (seq 0 n)).

Lemma store_32_value x : digits21 x -> le_val (store_32 x) = low 12 x.
Proof.
  intros [Hx H11]. unfold store_32, low. cbv zeta. cbn [map le_val seq].
  pose proof (Hx 0%nat ltac:(lia)) as H0. pose proof (Hx 1%nat ltac:(lia)) as H1. pose proof (Hx 2%nat ltac:(lia)) as H2.
  pose proof (Hx 3%nat ltac:(lia)) as H3. pose proof (Hx 4%nat ltac:(lia)) as H4. pose proof (Hx 5%nat ltac:(lia)) as H5.
  pose proof (Hx 6%nat ltac:(lia)) as H6. pose proof (Hx 7%nat ltac:(lia)) as H7. pose proof (Hx 8%nat ltac:(lia)) as H8.
  pose proof (Hx 9%nat ltac:(lia)) as H9. pose proof (Hx 10%nat ltac:(lia)) as H10. clear Hx.
  generalize dependent (at_ x 0). intros s0 H0. generalize dependent (at_ x 1). intros s1 H1.
  generalize dependent (at_ x 2). intros s2 H2. generalize dependent (at_ x 3). intros s3 H3.
  generalize dependent (at_ x 4). intros s4 H4. generalize dependent (at_ x 5). intros s5 H5.
  generalize dependent (at_ x 6). intros s6 H6. generalize dependent (at_ x 7). intros s7 H7.
  generalize dependent (at_ x 8). intros s8 H8. generalize dependent (at_ x 9). intros s9 H9.
  generalize dependent (at_ x 10). intros s10 H10. generalize dependent (at_ x 11). intros s11 H11.
  rewrite !byte_across by (done || lia). rewrite !byte_in by done.
  assert (s7 / 2 ^ 21 = 0) as Z7 by (apply Z.div_small; lia). assert (s11 / 2 ^ 25 = 0) as Z11 by (apply Z.div_small; lia).
  clear H0 H1 H2 H3 H4 H5 H6 H7 H8 H9 H10 H11.
  pose proof (cut s0 8 ltac:(lia)) as C0. pose proof (cut_byte s0 8 16 ltac:(lia) eq_refl) as C0_8.
  pose proof (cut s1 3 ltac:(lia)) as C1. pose proof (cut_byte s1 3 11 ltac:(lia) eq_refl) as C1_3. pose proof (cut_byte s1 11 19 ltac:(lia) eq_refl) as C1_11.
  pose proof (cut s2 6 ltac:(lia)) as C2. pose proof (cut_byte s2 6 14 ltac:(lia) eq_refl) as C2_6.
  pose proof (cut s3 1 ltac:(lia)) as C3. pose proof (cut_byte s3 1 9 ltac:(lia) eq_refl) as C3_1. pose proof (cut_byte s3 9 17 ltac:(lia) eq_refl) as C3_9.
  pose proof (cut s4 4 ltac:(lia)) as C4. pose proof (cut_byte s4 4 12 ltac:(lia) eq_refl) as C4_4. pose proof (cut_byte s4 12 20 ltac:(lia) eq_refl) as C4_12.
  pose proof (cut s5 7 ltac:(lia)) as C5. pose proof (cut_byte s5 7 15 ltac:(lia) eq_refl) as C5_7.
  pose proof (cut s6 2 ltac:(lia)) as C6. pose proof (cut_byte s6 2 10 ltac:(lia) eq_refl) as C6_2. pose proof (cut_byte s6 10 18 ltac:(lia) eq_refl) as C6_10.
  pose proof (cut s7 5 ltac:(lia)) as C7. pose proof (cut_byte s7 5 13 ltac:(lia) eq_refl) as C7_5. pose proof (cut_byte s7 13 21 ltac:(lia) eq_refl) as C7_13.
  pose proof (cut s8 8 ltac:(lia)) as C8. pose proof (cut_byte s8 8 16 ltac:(lia) eq_refl) as C8_8.
  pose proof (cut s9 3 ltac:(lia)) as C9. pose proof (cut_byte s9 3 11 ltac:(lia) eq_refl) as C9_3. pose proof (cut_byte s9 11 19 ltac:(lia) eq_refl) as C9_11.
  pose proof (cut s10 6 ltac:(lia)) as C10. pose proof (cut_byte s10 6 14 ltac:(lia) eq_refl) as C10_6.
  pose proof (cut s11 1 ltac:(lia)) as C11. pose proof (cut_byte s11 1 9 ltac:(lia) eq_refl) as C11_1. pose proof (cut_byte s11 9 17 ltac:(lia) eq_refl) as C11_9. pose proof (cut_byte s11 17 25 ltac:(lia) eq_refl) as C11_17.
  unfold lin. let w := eval vm_compute in (take 12 w21) in change (take 12 w21) with w. cbn [zip_with foldr].
  rewrite !Z.pow_0_r, !Z.div_1_r.
  repeat match goal with |- context [2 ^ (8 - ?b)] => let c := eval vm_compute in (8 - b) in change (8 - b) with c end.
  lia.
Qed.

(* ------------------------------------------------------------------ *)
(** ** The reduction *)

Lemma low_S n x : (n < 24)%nat -> low (S n) x = low n x + 2 ^ (21 * Z.of_nat n) * at_ x n.
Proof.
  intros Hn. unfold low, lin. assert (w21 !! n = Some (2 ^ (21 * Z.of_nat n))) as Hw.
  { unfold w21. rewrite list_lookup_fmap, lookup_seq_lt by done. done. }
  rewrite (take_S_r _ _ _ Hw), seq_S, map_app, zip_with_app.
  - rewrite foldr_app. cbn [map zip_with foldr Nat.add].
    assert (forall l z, foldr Z.add z l = foldr Z.add 0 l + z) as Hf.
    { intros l z. induction l as [|a l IH]; cbn [foldr]; lia. }
    rewrite Hf. lia.
  - rewrite length_take, length_map, length_seq. unfold w21. rewrite length_map, length_seq. lia.
Qed.

Lemma low_bounds n x : (n <= 24)%nat -> (forall i, (i < n)%nat -> 0 <= at_ x i < 2 ^ 21) -> 0 <= low n x < 2 ^ (21 * Z.of_nat n).
Proof.
  induction n as [|n IH]; intros Hn Hx; [done|]. rewrite low_S by lia.
  destruct IH as [H1 H2]; [lia|intros i Hi; apply Hx; lia|]. specialize (Hx n ltac:(lia)).
  rewrite Nat2Z.inj_succ. replace (21 * Z.succ (Z.of_nat n)) with (21 * Z.of_nat n + 21) by lia. rewrite Z.pow_add_r by lia.
  assert (0 < 2 ^ (21 * Z.of_nat n)) by (apply Z.pow_pos_nonneg; lia). nia.
Qed.

Lemma lin_low x : length x = 24%nat -> lin w21 x = low 24 x.
Proof.
  intros Hl. unfold low. f_equal. apply list_eq. intros i. rewrite list_lookup_fmap.
  destruct (decide (i < 24)%nat) as [Hi|Hi].
  - rewrite lookup_seq_lt by done. cbn [fmap option_fmap option_map Nat.add]. unfold at_. rewrite nth_lookup.
    destruct (lookup_lt_is_Some_2 x i ltac:(lia)) as [y ->]. done.
  - rewrite lookup_ge_None_2 by lia. rewrite lookup_seq_ge by lia. done.
Qed.

(** Limbs that are zero do not count. *)
Lemma low_zeros n k x : (n + k <= 24)%nat -> (forall i, (n <= i < n + k)%nat -> at_ x i = 0) -> low (n + k) x = low n x.
Proof.
  induction k as [|k IH]; intros Hn Hz; [by rewrite Nat.add_0_r|].
  rewrite Nat.add_succ_r, low_S by lia. rewrite IH; [|lia|intros i Hi; apply Hz; lia]. rewrite Hz by lia. lia.
Qed.

Lemma run_cons s ss x : run (s :: ss) x = run ss (run_step x s).
Proof. done. Qed.
Lemma run_app a b x : run (a ++ b) x = run b (run a x).
Proof. apply foldl_app. Qed.

(** The checks of the analysis from the intervals [e0] on. *)
Definition within (r s : itv) : bool := (s.1 <=? r.1) && (r.2 <=? s.2).
Definition zeros (e : list itv) (n k : nat) : bool := forallb (fun i => within (itv_at e i) (0, 0)) (seq n k).
Definition narrow (e : list itv) (n : nat) : bool := forallb (fun i => within (itv_at e i) (0, 2 ^ 21 - 1)) (seq 0 n).

Definition reduces (e0 : list itv) : bool :=
  match analyse reduce_steps e0 with
  | Some e1 =>
      within (itv_lin w21 e1) (- 2 ^ 252 + 1, 2 ^ 252 - 1) && zeros e1 12 12 &&
      match analyse (map floor_carry (seq 0 12)) e1 with
      | Some e2 =>
          narrow e2 12 && zeros e2 13 11 &&
          match analyse (fold_limb 12 :: map floor_carry (seq 0 11)) e2 with
          | Some e3 => narrow e3 11 && zeros e3 12 12
          | None => false
          end
      | None => false
      end
  | None => false
  end.

Lemma within_inside r s z : within r s = true -> inside r z -> inside s z.
Proof. unfold within, inside. intros [H1%Z.leb_le H2%Z.leb_le]%andb_true_iff. lia. Qed.

Lemma zeros_spec e x n k : zeros e n k = true -> holds e x -> forall i, (n <= i < n + k)%nat -> at_ x i = 0.
Proof.
  unfold zeros. rewrite forallb_forall. intros H [_ Hx] i Hi. specialize (H i).
  pose proof (within_inside _ _ _ (H ltac:(apply in_seq; lia)) (Hx i)) as Hz. unfold inside in Hz. simpl in Hz. lia.
Qed.

Lemma narrow_spec e x n : narrow e n = true -> holds e x -> forall i, (i < n)%nat -> 0 <= at_ x i < 2 ^ 21.
Proof.
  unfold narrow. rewrite forallb_forall. intros H [_ Hx] i Hi. specialize (H i).
  pose proof (within_inside _ _ _ (H ltac:(apply in_seq; lia)) (Hx i)) as Hz. unfold inside in Hz. simpl in Hz. lia.
Qed.

#[local] Opaque run run_step lin low analyse check_step.

Lemma reduces_sound e0 x : reduces e0 = true -> length e0 = 24%nat -> holds e0 x ->
  store_32 (run final_steps (run reduce_steps x)) = le_bytes 32 (lin w21 x mod order).
Proof.
  unfold reduces. intros H Hl Hx. destruct (analyse reduce_steps e0) as [e1|] eqn:A1; [|done].
  destruct (analyse (map floor_carry (seq 0 12)) e1) as [e2|] eqn:A2; [|by rewrite andb_false_r in H].
  destruct (analyse (fold_limb 12 :: _) e2) as [e3|] eqn:A3; [|by rewrite !andb_false_r in H].
  rewrite !andb_true_iff in H. destruct H as ((R1 & Z1) & (N2 & Z2) & (N3 & Z3)).
  assert (length w21 = 24%nat) as Lw by done.
  destruct (analyse_sound w21 order _ _ _ _ A1 Hx ltac:(lia)) as (H1 & L1 & D1).
  { apply gains_spec. vm_compute. reflexivity. }
  destruct (analyse_sound w21 0 _ _ _ _ A2 H1 ltac:(lia)) as (H2 & L2 & D2).
  { apply gains_spec. vm_compute. reflexivity. }
  apply Z.divide_0_l in D2.
  set (x1 := run reduce_steps x) in *. set (x2 := run (map floor_carry (seq 0 12)) x1) in *.
  assert (run final_steps x1 = run (fold_limb 12 :: map floor_carry (seq 0 11)) x2) as ->.
  { unfold final_steps. rewrite run_app. cbn [app]. reflexivity. }
  rewrite analyse_cons in A3. destruct (check_step e2 (fold_limb 12)) as [e2'|] eqn:A2'; [|done]. cbn [mbind option_bind] in A3.
  destruct (check_step_sound w21 _ _ _ _ A2' H2 ltac:(lia)) as (H2' & L2' & V2').
  destruct (analyse_sound w21 0 _ _ _ _ A3 H2' ltac:(lia)) as (H3 & L3 & D3).
  { apply gains_spec. vm_compute. reflexivity. }
  apply Z.divide_0_l in D3.
  rewrite run_cons.
  set (x3 := run (map floor_carry (seq 0 11)) (run_step x2 (fold_limb 12))) in *.
  pose proof (zeros_spec _ _ _ _ Z1 H1) as Q1. pose proof (zeros_spec _ _ _ _ Z2 H2) as Q2. pose proof (zeros_spec _ _ _ _ Z3 H3) as Q3.
  pose proof (narrow_spec _ _ _ N2 H2) as M2. pose proof (narrow_spec _ _ _ N3 H3) as M3.
  pose proof (within_inside _ _ _ R1 (lin_inside w21 _ _ H1)) as B1. unfold inside in B1. cbn [fst snd] in B1.
  pose proof (low_bounds 12 x2 ltac:(lia) M2) as B2. pose proof (low_bounds 11 x3 ltac:(lia) M3) as B3.
  assert (lin w21 x2 = low 12 x2 + 2 ^ 252 * at_ x2 12) as E2.
  { rewrite lin_low by (destruct H2; lia). rewrite (low_zeros 13 11) by (done || lia). by rewrite low_S by lia. }
  assert (lin w21 x3 = low 11 x3 + 2 ^ 231 * at_ x3 11) as E3.
  { rewrite lin_low by (destruct H3; lia). rewrite (low_zeros 12 12) by (done || lia). by rewrite low_S by lia. }
  change (moved x2 (fold_limb 12)) with (at_ x2 12) in V2'.
  assert (gain w21 (fold_limb 12) = - order) as G by (vm_compute; reflexivity). rewrite G in V2'.
  assert (0 <= lin w21 x3 < order) as B4.
  { clear - B1 B2 E2 D2 D3 V2'. unfold order in *. lia. }
  assert (lin w21 x3 = lin w21 x mod order) as <-.
  { destruct D1 as [k D1]. apply Z.mod_unique with (at_ x2 12 - k); [by left|]. clear - D1 D2 D3 V2'. lia. }
  assert (digits21 x3) as Hd by (split; [exact M3|clear - B3 B4 E3; unfold order in *; lia]).
  rewrite <- (le_bytes_le_val (store_32 x3)), (store_32_value x3 Hd). change (length (store_32 x3)) with 32%nat.
  f_equal. rewrite E3. rewrite (low_S 11 x3) by lia. done.
Qed.

#[local] Transparent lin.

Theorem sc_reduce_spec s : length s = 64%nat -> sc_reduce s = le_bytes 32 (le_val s mod order).
Proof.
  intros Hl. unfold sc_reduce.
  rewrite (reduces_sound (repeat (0, 2 ^ 21 - 1) 23 ++ [(0, 2 ^ 29 - 1)]));
    [|vm_compute; reflexivity|done|rewrite load_64_windows; by apply windows_holds].
  f_equal. f_equal. rewrite load_64_windows. pose proof (windows_lin (le_val s) 0 23 29 ltac:(lia)) as H.
  change (21 * Z.of_nat 0) with 0 in H. rewrite Z.pow_0_r, Z.div_1_r, Z.mul_1_l in H. fold w21 in H. rewrite H.
  apply Z.mod_small. pose proof (le_val_range s). rewrite Hl in *. done.
Qed.

(* ------------------------------------------------------------------ *)
(** ** Multiplication and addition *)

Lemma load_32_inv n : exists a0 a1 a2 a3 a4 a5 a6 a7 a8 a9 a10 a11,
  load_32 n = [a0; a1; a2; a3; a4; a5; a6; a7; a8; a9; a10; a11] /\
  Z.abs a0 <= 2 ^ 21 /\ Z.abs a1 <= 2 ^ 21 /\ Z.abs a2 <= 2 ^ 21 /\ Z.abs a3 <= 2 ^ 21 /\ Z.abs a4 <= 2 ^ 21 /\
  Z.abs a5 <= 2 ^ 21 /\ Z.abs a6 <= 2 ^ 21 /\ Z.abs a7 <= 2 ^ 21 /\ Z.abs a8 <= 2 ^ 21 /\ Z.abs a9 <= 2 ^ 21 /\
  Z.abs a10 <= 2 ^ 21 /\ Z.abs a11 <= 2 ^ 25.
Proof.
  rewrite load_32_windows. cbn [windows]. do 12 eexists. split; [reflexivity|].
  assert (forall z w, 0 <= w -> Z.abs (z mod 2 ^ w) <= 2 ^ w) as H.
  { intros z w Hw. pose proof (Z.mod_pos_bound z (2 ^ w) ltac:(lia)). lia. }
  repeat split; by apply H.
Qed.

Lemma load_32_lin n : length n = 32%nat -> lin (take 12 w21) (load_32 n) = le_val n.
Proof.
  intros Hl. rewrite load_32_windows. pose proof (windows_lin (le_val n) 0 11 25 ltac:(lia)) as H.
  change (21 * Z.of_nat 0) with 0 in H. rewrite Z.pow_0_r, Z.div_1_r, Z.mul_1_l in H.
  change (take 12 w21) with (map (fun j => 2 ^ (21 * Z.of_nat j)) (seq 0 12)). rewrite H.
  apply Z.mod_small. pose proof (le_val_range n). by rewrite Hl in *.
Qed.

Lemma sc_product_spec a b c :
  let x := sc_product (load_32 a) (load_32 b) (load_32 c) in
  holds (repeat (- 2 ^ 51, 2 ^ 51) 23 ++ [(0, 0)]) x /\
  lin w21 x = lin (take 12 w21) (load_32 a) * lin (take 12 w21) (load_32 b) + lin (take 12 w21) (load_32 c).
Proof.
  destruct (load_32_inv a) as (a0&a1&a2&a3&a4&a5&a6&a7&a8&a9&a10&a11&->&?&?&?&?&?&?&?&?&?&?&?&?).
  destruct (load_32_inv b) as (b0&b1&b2&b3&b4&b5&b6&b7&b8&b9&b10&b11&->&?&?&?&?&?&?&?&?&?&?&?&?).
  destruct (load_32_inv c) as (c0&c1&c2&c3&c4&c5&c6&c7&c8&c9&c10&c11&->&?&?&?&?&?&?&?&?&?&?&?&?).
  unfold sc_product, at_. cbn [nth]. cbv zeta.
  match goal with |- holds _ (map i64 ?t) /\ _ =>
    let t' := eval cbn [removelast] in (removelast t) in assert (Forall (fun z => Z.abs z <= 2 ^ 51) t') as Ht;
    [all_bound|change t with (t' ++ [0])] end.
  rewrite map_i64
    by (apply Forall_app; split; [eapply Forall_impl; [exact Ht|]; intros z Hz; simpl in Hz; lia|by repeat constructor]).
  split; [apply (holds_snoc _ _ _ _ (holds_repeat _ _ Ht)); split; simpl; lia|].
  unfold lin. let w := eval vm_compute in w21 in change w21 with w. cbn [take app zip_with foldr]. ring.
Qed.

Theorem sc_muladd_spec a b c : length a = 32%nat -> length b = 32%nat -> length c = 32%nat ->
  sc_muladd a b c = le_bytes 32 ((le_val a * le_val b + le_val c) mod order).
Proof.
  intros Ha Hb Hc. unfold sc_muladd. destruct (sc_product_spec a b c) as [Hx Hv].
  destruct (analyse product_steps (repeat (- 2 ^ 51, 2 ^ 51) 23 ++ [(0, 0)])) as [e|] eqn:A; [|by vm_compute in A].
  destruct (analyse_sound w21 0 _ _ _ _ A Hx ltac:(done)) as (He & Le & D).
  { apply gains_spec. vm_compute. reflexivity. }
  apply Z.divide_0_l in D. rewrite (reduces_sound e); [|vm_compute in A; injection A as <-; vm_compute; reflexivity|done|done].
  f_equal. f_equal. rewrite !load_32_lin in Hv by done. lia.
Qed.

Theorem sc_neg_spec a : length a = 32%nat -> sc_neg a = le_bytes 32 ((- le_val a) mod order).
Proof.
  intros Ha. unfold sc_neg. rewrite sc_muladd_spec by done. f_equal.
  assert (le_val lminus1 = order - 1) as -> by (vm_compute; reflexivity).
  assert (le_val (repeat x00 32) = 0) as -> by (vm_compute; reflexivity).
  replace ((order - 1) * le_val a + 0) with (- le_val a + le_val a * order) by ring. apply Z_mod_plus_full.
Qed.
