(* ===== verification/Donna.v ===== *)
(** [curve25519/curve25519-donna.c]: X25519 on limbs of 26 and 25 bits.

    A [limb *] is the list of its limbs; a function that writes through a pointer
    answers the new array.  Signed arithmetic wraps: [i64] at every assignment to
    a [limb] and [i32] at every one to an [s32], and shifts of negative numbers
    are those of two's complement, as the compilers of the module do (the code
    checks this with [#error]).  The lemmas show that nothing wraps. *)

From S2P Require Import Prelude Buffers Crypto Limbs.

(* ------------------------------------------------------------------ *)
(** ** Sums and products *)

Definition fsum (output in_ : list Z) : list Z :=
  zip_with (fun o i => i64 (o + i)) (take 10 output) (take 10 in_) ++ drop 10 output.

Definition fdifference (output in_ : list Z) : list Z :=
  zip_with (fun o i => i64 (i - o)) (take 10 output) (take 10 in_) ++ drop 10 output.

Definition fscalar_product (in_ : list Z) (scalar : Z) : list Z :=
  map (fun i => i64 (i * scalar)) (take 10 in_).

Definition fproduct (in2 in_ : list Z) : list Z :=
  let a0 := i32 (at_ in2 0) in let a1 := i32 (at_ in2 1) in
  let a2 := i32 (at_ in2 2) in let a3 := i32 (at_ in2 3) in
  let a4 := i32 (at_ in2 4) in let a5 := i32 (at_ in2 5) in
  let a6 := i32 (at_ in2 6) in let a7 := i32 (at_ in2 7) in
  let a8 := i32 (at_ in2 8) in let a9 := i32 (at_ in2 9) in
  let b0 := i32 (at_ in_ 0) in let b1 := i32 (at_ in_ 1) in
  let b2 := i32 (at_ in_ 2) in let b3 := i32 (at_ in_ 3) in
  let b4 := i32 (at_ in_ 4) in let b5 := i32 (at_ in_ 5) in
  let b6 := i32 (at_ in_ 6) in let b7 := i32 (at_ in_ 7) in
  let b8 := i32 (at_ in_ 8) in let b9 := i32 (at_ in_ 9) in
  map i64
    [a0 * b0;
     a0 * b1 + a1 * b0;
     2 * a1 * b1 + a0 * b2 + a2 * b0;
     a1 * b2 + a2 * b1 + a0 * b3 + a3 * b0;
     a2 * b2 + 2 * (a1 * b3 + a3 * b1) + a0 * b4 + a4 * b0;
     a2 * b3 + a3 * b2 + a1 * b4 + a4 * b1 + a0 * b5 + a5 * b0;
     2 * (a3 * b3 + a1 * b5 + a5 * b1) + a2 * b4 + a4 * b2 + a0 * b6 + a6 * b0;
     a3 * b4 + a4 * b3 + a2 * b5 + a5 * b2 + a1 * b6 + a6 * b1 + a0 * b7 + a7 * b0;
     a4 * b4 + 2 * (a3 * b5 + a5 * b3 + a1 * b7 + a7 * b1) + a2 * b6 + a6 * b2 + a0 * b8 + a8 * b0;
     a4 * b5 + a5 * b4 + a3 * b6 + a6 * b3 + a2 * b7 + a7 * b2 + a1 * b8 + a8 * b1 + a0 * b9 + a9 * b0;
     2 * (a5 * b5 + a3 * b7 + a7 * b3 + a1 * b9 + a9 * b1) + a4 * b6 + a6 * b4 + a2 * b8 + a8 * b2;
     a5 * b6 + a6 * b5 + a4 * b7 + a7 * b4 + a3 * b8 + a8 * b3 + a2 * b9 + a9 * b2;
     a6 * b6 + 2 * (a5 * b7 + a7 * b5 + a3 * b9 + a9 * b3) + a4 * b8 + a8 * b4;
     a6 * b7 + a7 * b6 + a5 * b8 + a8 * b5 + a4 * b9 + a9 * b4;
     2 * (a7 * b7 + a5 * b9 + a9 * b5) + a6 * b8 + a8 * b6;
     a7 * b8 + a8 * b7 + a6 * b9 + a9 * b6;
     a8 * b8 + 2 * (a7 * b9 + a9 * b7);
     a8 * b9 + a9 * b8;
     2 * a9 * b9].

Definition fsquare_inner (in_ : list Z) : list Z :=
  let a0 := i32 (at_ in_ 0) in let a1 := i32 (at_ in_ 1) in
  let a2 := i32 (at_ in_ 2) in let a3 := i32 (at_ in_ 3) in
  let a4 := i32 (at_ in_ 4) in let a5 := i32 (at_ in_ 5) in
  let a6 := i32 (at_ in_ 6) in let a7 := i32 (at_ in_ 7) in
  let a8 := i32 (at_ in_ 8) in let a9 := i32 (at_ in_ 9) in
  map i64
    [a0 * a0;
     2 * a0 * a1;
     2 * (a1 * a1 + a0 * a2);
     2 * (a1 * a2 + a0 * a3);
     a2 * a2 + 4 * a1 * a3 + 2 * a0 * a4;
     2 * (a2 * a3 + a1 * a4 + a0 * a5);
     2 * (a3 * a3 + a2 * a4 + a0 * a6 + 2 * a1 * a5);
     2 * (a3 * a4 + a2 * a5 + a1 * a6 + a0 * a7);
     a4 * a4 + 2 * (a2 * a6 + a0 * a8 + 2 * (a1 * a7 + a3 * a5));
     2 * (a4 * a5 + a3 * a6 + a2 * a7 + a1 * a8 + a0 * a9);
     2 * (a5 * a5 + a4 * a6 + a2 * a8 + 2 * (a3 * a7 + a1 * a9));
     2 * (a5 * a6 + a4 * a7 + a3 * a8 + a2 * a9);
     a6 * a6 + 2 * (a4 * a8 + 2 * (a5 * a7 + a3 * a9));
     2 * (a6 * a7 + a5 * a8 + a4 * a9);
     2 * (a7 * a7 + a6 * a8 + 2 * a5 * a9);
     2 * (a7 * a8 + a6 * a9);
     a8 * a8 + 4 * a7 * a9;
     2 * a8 * a9;
     2 * a9 * a9].

(* ------------------------------------------------------------------ *)
(** ** Reduction modulo [2 ^ 255 - 19] *)

(** [x += y << 4; x += y << 1; x += y] *)
Definition add_19 (x y : Z) : Z :=
  let x := i64 (x + i64 (Z.shiftl y 4)) in
  let x := i64 (x + i64 (Z.shiftl y 1)) in
  i64 (x + y).

Definition freduce_degree (output : list Z) : list Z :=
  zip_with add_19 (take 9 output) (drop 10 output) ++ drop 9 output.

Definition div_by_2_26 (v : Z) : Z :=
  let highword := u32 (Z.shiftr (u64 v) 32) in
  let sign := Z.shiftr (i32 highword) 31 in
  let roundoff := i32 (Z.shiftr (u32 sign) 6) in
  Z.shiftr (i64 (v + roundoff)) 26.

Definition div_by_2_25 (v : Z) : Z :=
  let highword := u32 (Z.shiftr (u64 v) 32) in
  let sign := Z.shiftr (i32 highword) 31 in
  let roundoff := i32 (Z.shiftr (u32 sign) 7) in
  Z.shiftr (i64 (v + roundoff)) 25.

(** [over = div(output[i]); output[i] -= over << w; output[i+1] += over] *)
Definition carry_26 (output : list Z) (i : nat) : list Z :=
  let over := div_by_2_26 (at_ output i) in
  let output := <[i := i64 (at_ output i - i64 (Z.shiftl over 26))]> output in
  <[S i := i64 (at_ output (S i) + over)]> output.
Definition carry_25 (output : list Z) (i : nat) : list Z :=
  let over := div_by_2_25 (at_ output i) in
  let output := <[i := i64 (at_ output i - i64 (Z.shiftl over 25))]> output in
  <[S i := i64 (at_ output (S i) + over)]> output.

Definition freduce_coefficients (output : list Z) : list Z :=
  let output := <[10%nat := 0]> output in
  let output := foldl (fun o i => carry_25 (carry_26 o i) (S i)) output [0; 2; 4; 6; 8]%nat in
  let output := <[0%nat := add_19 (at_ output 0) (at_ output 10)]> output in
  let output := <[10%nat := 0]> output in
  carry_26 output 0.

Definition fmul (in_ in2 : list Z) : list Z :=
  take 10 (freduce_coefficients (freduce_degree (fproduct in_ in2))).

Definition fsquare (in_ : list Z) : list Z :=
  take 10 (freduce_coefficients (freduce_degree (fsquare_inner in_))).

(* ------------------------------------------------------------------ *)
(** ** Bytes *)

(** The macro [F(n, start, shift, mask)] of [fexpand]. *)
Definition expand_limb (input : bytes) (start : nat) (shift mask : Z) : Z :=
  Z.land
    (Z.shiftr
       (Z.lor (Z.lor (Z.lor (byte_at input start) (Z.shiftl (byte_at input (start + 1)) 8))
                 (Z.shiftl (byte_at input (start + 2)) 16))
          (Z.shiftl (byte_at input (start + 3)) 24)) shift) mask.

Definition MASK_26 : Z := 67108863. (* 0x3ffffff *)
Definition MASK_25 : Z := 33554431. (* 0x1ffffff *)

Definition fexpand (input : bytes) : list Z :=
  [expand_limb input 0 0 MASK_26; expand_limb input 3 2 MASK_25;
   expand_limb input 6 3 MASK_26; expand_limb input 9 5 MASK_25;
   expand_limb input 12 6 MASK_26; expand_limb input 16 0 MASK_25;
   expand_limb input 19 1 MASK_26; expand_limb input 22 3 MASK_25;
   expand_limb input 25 4 MASK_26; expand_limb input 28 6 MASK_25].

Definition s32_eq (a b : Z) : Z :=
  let a := Z.lnot (Z.lxor a b) in
  let a := Z.land a (i32 (Z.shiftl a 16)) in
  let a := Z.land a (i32 (Z.shiftl a 8)) in
  let a := Z.land a (i32 (Z.shiftl a 4)) in
  let a := Z.land a (i32 (Z.shiftl a 2)) in
  let a := Z.land a (i32 (Z.shiftl a 1)) in
  Z.shiftr a 31.

Definition s32_gte (a b : Z) : Z :=
  let a := i32 (a - b) in
  Z.lnot (Z.shiftr a 31).

(** The width of limb [i]. *)
Definition width (i : nat) : Z := if Nat.odd i then 25 else 26.
Definition limb_mask (i : nat) : Z := if Nat.odd i then MASK_25 else MASK_26.

(** A negative limb borrows from the next one, the last one from the first. *)
Definition borrow_amount (x : Z) (w : Z) : Z :=
  let mask := Z.shiftr x 31 in
  i32 (- Z.shiftr (Z.land x mask) w).
Definition borrow (input : list Z) (i : nat) : list Z :=
  let carry := borrow_amount (at_ input i) (width i) in
  let input := <[i := i32 (at_ input i + i32 (Z.shiftl carry (width i)))]> input in
  <[S i := i32 (at_ input (S i) - carry)]> input.
Definition borrow_last (input : list Z) : list Z :=
  let carry := borrow_amount (at_ input 9) 25 in
  let input := <[9%nat := i32 (at_ input 9 + i32 (Z.shiftl carry 25))]> input in
  <[0%nat := i32 (at_ input 0 - i32 (carry * 19))]> input.
Definition borrow_pass (input : list Z) : list Z :=
  borrow_last (foldl borrow input (seq 0 9)).

(** The bits of a limb above its width are carried into the next one. *)
Definition carry_limb (input : list Z) (i : nat) : list Z :=
  let carry := Z.shiftr (at_ input i) (width i) in
  let input := <[i := Z.land (at_ input i) (limb_mask i)]> input in
  <[S i := i32 (at_ input (S i) + carry)]> input.
Definition carry_last (input : list Z) : list Z :=
  let carry := Z.shiftr (at_ input 9) 25 in
  let input := <[9%nat := Z.land (at_ input 9) MASK_25]> input in
  <[0%nat := i32 (at_ input 0 + i32 (19 * carry))]> input.
Definition carry_pass (input : list Z) : list Z :=
  carry_last (foldl carry_limb input (seq 0 9)).

(** All ones when the number is at least [2 ^ 255 - 19], zero otherwise. *)
Definition LOW_LIMB : Z := 67108845. (* 0x3ffffed *)
Definition subtract_mask (input : list Z) : Z :=
  foldl (fun mask i => Z.land mask (s32_eq (at_ input i) (limb_mask i)))
    (s32_gte (at_ input 0) LOW_LIMB) (seq 1 9).

Definition subtract_p (input : list Z) : list Z :=
  let mask := subtract_mask input in
  zip_with (fun x i => i32 (x - Z.land mask (if (i =? 0)%nat then LOW_LIMB else limb_mask i)))
    input (seq 0 10).

(** The macro [F(i, s)] of [fcontract], on the limb shifted into place. *)
Definition write_limb (output : list Z) (x : Z) (s : nat) : list Z :=
  let output := <[s := Z.land (Z.lor (at_ output s) (Z.land x 255)) 255]> output in
  let output := <[(s + 1)%nat := Z.land (Z.shiftr x 8) 255]> output in
  let output := <[(s + 2)%nat := Z.land (Z.shiftr x 16) 255]> output in
  <[(s + 3)%nat := Z.land (Z.shiftr x 24) 255]> output.

(** The shift of every limb and the byte where it starts.  [output[0]] and
    [output[16]] are set to zero first; every other byte is written before it is
    read. *)
Definition limb_places : list (Z * nat) :=
  zip [0; 2; 3; 5; 6; 0; 1; 3; 4; 6] [0; 3; 6; 9; 12; 16; 19; 22; 25; 28]%nat.

Definition write_limbs (input : list Z) : list Z :=
  foldl (fun output p => write_limb output (i32 (Z.shiftl p.1 p.2.1)) p.2.2) (repeat 0 32)
    (zip input limb_places).

(** The borrows and the carries that bring every limb within its width. *)
Definition normalise (input : list Z) : list Z :=
  let input := borrow_pass (borrow_pass input) in
  let input := borrow input 0 in
  carry_pass (carry_pass input).

Definition fcontract (input_limbs : list Z) : bytes :=
  let input := map i32 (take 10 input_limbs) in
  map u8 (write_limbs (subtract_p (normalise input))).

(* ------------------------------------------------------------------ *)
(** ** The Montgomery ladder *)

(** [fproduct], [freduce_degree] and [freduce_coefficients] of the three, with
    the 19 limbs of the temporary. *)
Definition fmonty_product (a b : list Z) : list Z :=
  freduce_coefficients (freduce_degree (fproduct a b)).

(** [2Q] and [Q + Q'] from [Q], [Q'] and [Q - Q'].  The outputs are read as ten
    limbs. *)
Definition fmonty (x z xprime zprime qmqp : list Z) : (list Z * list Z) * (list Z * list Z) :=
  let origx := take 10 x in
  let x := fsum x z in
  let z := fdifference z origx in
  let origxprime := take 10 xprime in
  let xprime := fsum xprime zprime in
  let zprime := fdifference zprime origxprime in
  let xxprime := fmonty_product xprime z in
  let zzprime := fmonty_product x zprime in
  let origxprime := take 10 xxprime in
  let xxprime := fsum xxprime zzprime in
  let zzprime := fdifference zzprime origxprime in
  let xxxprime := fsquare xxprime in
  let zzzprime := fsquare zzprime in
  let zzprime := fmonty_product zzzprime qmqp in
  let x3 := xxxprime in
  let z3 := take 10 zzprime in
  let xx := fsquare x in
  let zz := fsquare z in
  let x2 := fmonty_product xx zz in
  let zz := fdifference zz xx in
  let zzz := freduce_coefficients (fscalar_product zz 121665 ++ repeat 0 9) in
  let zzz := fsum zzz xx in
  let z2 := fmonty_product zz zzz in
  ((take 10 x2, take 10 z2), (x3, z3)).

Definition swap_conditional (a b : list Z) (iswap : Z) : list Z * list Z :=
  let swap := i32 (- iswap) in
  let x a b := Z.land swap (Z.lxor (i32 a) (i32 b)) in
  (zip_with (fun a b => Z.lxor (i32 a) (x a b)) (take 10 a) (take 10 b),
   zip_with (fun a b => Z.lxor (i32 b) (x a b)) (take 10 a) (take 10 b)).

(** [nqx], [nqz], [nqpqx], [nqpqz]; the pointers are exchanged with those of the
    outputs at the end of every turn. *)
Definition ladder_state : Type := (list Z * list Z) * (list Z * list Z).

Definition cmult_bit (q : list Z) (s : ladder_state) (bit : Z) : ladder_state :=
  let '((nqx, nqz), (nqpqx, nqpqz)) := s in
  let '(nqx, nqpqx) := swap_conditional nqx nqpqx bit in
  let '(nqz, nqpqz) := swap_conditional nqz nqpqz bit in
  let '((nqx2, nqz2), (nqpqx2, nqpqz2)) := fmonty nqx nqz nqpqx nqpqz q in
  let '(nqx2, nqpqx2) := swap_conditional nqx2 nqpqx2 bit in
  let '(nqz2, nqpqz2) := swap_conditional nqz2 nqpqz2 bit in
  ((nqx2, nqz2), (nqpqx2, nqpqz2)).

(** The eight bits of a byte, the highest first. *)
Fixpoint cmult_byte (q : list Z) (n : nat) (byte : Z) (s : ladder_state) : ladder_state :=
  match n with
  | O => s
  | S n' => cmult_byte q n' (Z.land (Z.shiftl byte 1) 255) (cmult_bit q s (Z.shiftr byte 7))
  end.

Definition cmult (n : bytes) (q : list Z) : list Z * list Z :=
  let s := ((1 :: repeat 0 9, repeat 0 10), (take 10 q, 1 :: repeat 0 9)) in
  (foldl (fun s i => cmult_byte q 8 (byte_at n (31 - i)) s) s (seq 0 32)).1.

(** [for (i = 2; i < n; i += 2) { fsquare(t0, t1); fsquare(t1, t0); }] *)
Definition square_pairs (turns : nat) (t : list Z) : list Z :=
  Nat.iter turns (fun t => fsquare (fsquare t)) t.

Definition crecip (z : list Z) : list Z :=
  let z2 := fsquare z in
  let t1 := fsquare z2 in
  let t0 := fsquare t1 in
  let z9 := fmul t0 z in
  let z11 := fmul z9 z2 in
  let t0 := fsquare z11 in
  let z2_5_0 := fmul t0 z9 in
  let t0 := fsquare z2_5_0 in
  let t1 := fsquare t0 in
  let t0 := fsquare t1 in
  let t1 := fsquare t0 in
  let t0 := fsquare t1 in
  let z2_10_0 := fmul t0 z2_5_0 in
  let t0 := fsquare z2_10_0 in
  let t1 := fsquare t0 in
  let t1 := square_pairs 4 t1 in
  let z2_20_0 := fmul t1 z2_10_0 in
  let t0 := fsquare z2_20_0 in
  let t1 := fsquare t0 in
  let t1 := square_pairs 9 t1 in
  let t0 := fmul t1 z2_20_0 in
  let t1 := fsquare t0 in
  let t0 := fsquare t1 in
  let t0 := square_pairs 4 t0 in
  let z2_50_0 := fmul t0 z2_10_0 in
  let t0 := fsquare z2_50_0 in
  let t1 := fsquare t0 in
  let t1 := square_pairs 24 t1 in
  let z2_100_0 := fmul t1 z2_50_0 in
  let t1 := fsquare z2_100_0 in
  let t0 := fsquare t1 in
  let t0 := square_pairs 49 t0 in
  let t1 := fmul t0 z2_100_0 in
  let t0 := fsquare t1 in
  let t1 := fsquare t0 in
  let t1 := square_pairs 24 t1 in
  let t0 := fmul t1 z2_50_0 in
  let t1 := fsquare t0 in
  let t0 := fsquare t1 in
  let t1 := fsquare t0 in
  let t0 := fsquare t1 in
  let t1 := fsquare t0 in
  fmul t1 z11.

Definition donna (secret basepoint : bytes) : bytes :=
  let bp := fexpand basepoint in
  let '(x, z) := cmult secret bp in
  let zmone := crecip z in
  fcontract (fmul x zmone).
