(* ===== verification/DonnaField.v ===== *)
(** The field arithmetic of curve25519-donna: on limbs within the bounds its
    comments state nothing wraps, and the value of the result modulo
    [2 ^ 255 - 19] is the sum, difference, product or square of the values. *)

From S2P Require Import Prelude Buffers Crypto Limbs Donna.

(* ------------------------------------------------------------------ *)
(** ** Values and bounds *)

Definition p25519 : Z := 2 ^ 255 - 19.

(** Limb [i] counts for [2 ^ ceil(25.5 * i)]. *)
Definition weights : list Z := map (fun i => 2 ^ ((51 * Z.of_nat i + 1) / 2)) (seq 0 19).

Definition eval (x : list Z) : Z := foldr Z.add 0 (zip_with Z.mul x weights).

(** An equation between the values of explicit arrays. *)
Ltac eval_ring :=
  unfold eval; let w := eval vm_compute in weights in change weights with w;
  cbn [zip_with foldr app]; ring.

(** Ten limbs of absolute value at most [B]. *)
Definition limbs (B : Z) (x : list Z) : Prop := length x = 10%nat /\ Forall (fun l => Z.abs l <= B) x.

(** The limbs of an array of ten, by name. *)
Lemma limbs_inv B x : limbs B x -> exists x0 x1 x2 x3 x4 x5 x6 x7 x8 x9,
  x = [x0; x1; x2; x3; x4; x5; x6; x7; x8; x9] /\
  Z.abs x0 <= B /\ Z.abs x1 <= B /\ Z.abs x2 <= B /\ Z.abs x3 <= B /\ Z.abs x4 <= B /\
  Z.abs x5 <= B /\ Z.abs x6 <= B /\ Z.abs x7 <= B /\ Z.abs x8 <= B /\ Z.abs x9 <= B.
Proof.
  intros [Hl Hx]. do 10 (destruct x as [|? x]; [done|]). destruct x; [|done]. repeat apply Forall_cons in Hx as [? Hx].
  by repeat eexists.
Qed.

Lemma limbs_weaken B B' x : B <= B' -> limbs B x -> limbs B' x.
Proof. intros H [Hl Hx]. split; [done|]. eapply Forall_impl; [exact Hx|]. intros l Hlt. simpl in *. lia. Qed.

(* ------------------------------------------------------------------ *)
(** ** Sums, differences, scalar products *)

Lemma fsum_spec A B x y rest : limbs A x -> limbs B y -> A + B < 2 ^ 63 ->
  exists r, fsum (x ++ rest) y = r ++ rest /\ limbs (A + B) r /\ eval r = eval x + eval y.
Proof.
  intros (x0&x1&x2&x3&x4&x5&x6&x7&x8&x9&->&?&?&?&?&?&?&?&?&?&?)%limbs_inv
    (y0&y1&y2&y3&y4&y5&y6&y7&y8&y9&->&?&?&?&?&?&?&?&?&?&?)%limbs_inv Hab.
  unfold fsum. cbn [take app zip_with drop]. rewrite !i64_small by bound.
  eexists [_; _; _; _; _; _; _; _; _; _]. split; [reflexivity|]. split.
  - split; [done|]. all_bound.
  - eval_ring.
Qed.

Lemma fdifference_spec A B x y rest : limbs A x -> limbs B y -> A + B < 2 ^ 63 ->
  exists r, fdifference (x ++ rest) y = r ++ rest /\ limbs (A + B) r /\ eval r = eval y - eval x.
Proof.
  intros (x0&x1&x2&x3&x4&x5&x6&x7&x8&x9&->&?&?&?&?&?&?&?&?&?&?)%limbs_inv
    (y0&y1&y2&y3&y4&y5&y6&y7&y8&y9&->&?&?&?&?&?&?&?&?&?&?)%limbs_inv Hab.
  unfold fdifference. cbn [take app zip_with drop]. rewrite !i64_small by bound.
  eexists [_; _; _; _; _; _; _; _; _; _]. split; [reflexivity|]. split.
  - split; [done|]. all_bound.
  - eval_ring.
Qed.

Lemma fscalar_product_spec x : limbs (2 ^ 27) x ->
  limbs (121665 * 2 ^ 27) (fscalar_product x 121665) /\ eval (fscalar_product x 121665) = 121665 * eval x.
Proof.
  intros (x0&x1&x2&x3&x4&x5&x6&x7&x8&x9&->&?&?&?&?&?&?&?&?&?&?)%limbs_inv.
  unfold fscalar_product. cbn [take map]. rewrite !i64_small by bound. split.
  - split; [done|]. all_bound.
  - eval_ring.
Qed.

(* ------------------------------------------------------------------ *)
(** ** Products *)

(** The nineteen limbs of a product, before any reduction. *)
Definition long_limbs (t : list Z) : Prop := length t = 19%nat /\ Forall (fun l => Z.abs l <= 14 * 2 ^ 54) t.

Lemma long_limbs_i64 t : long_limbs t -> map i64 t = t.
Proof. intros [_ H]. apply map_i64. eapply Forall_impl; [exact H|]. intros z Hz. simpl in *. lia. Qed.

Lemma fproduct_spec a b : limbs (2 ^ 27) a -> limbs (2 ^ 27) b ->
  long_limbs (fproduct a b) /\ eval (fproduct a b) = eval a * eval b.
Proof.
  intros (a0&a1&a2&a3&a4&a5&a6&a7&a8&a9&->&?&?&?&?&?&?&?&?&?&?)%limbs_inv
    (b0&b1&b2&b3&b4&b5&b6&b7&b8&b9&->&?&?&?&?&?&?&?&?&?&?)%limbs_inv.
  unfold fproduct, at_. cbn [nth]. cbv zeta. rewrite !i32_small by bound.
  match goal with |- long_limbs (map i64 ?t) /\ _ => assert (long_limbs t) as Ht end.
  { split; [done|]. all_bound. }
  rewrite long_limbs_i64 by done. split; [done|].
  eval_ring.
Qed.

Lemma fsquare_inner_spec a : limbs (2 ^ 27) a ->
  long_limbs (fsquare_inner a) /\ eval (fsquare_inner a) = eval a * eval a.
Proof.
  intros (a0&a1&a2&a3&a4&a5&a6&a7&a8&a9&->&?&?&?&?&?&?&?&?&?&?)%limbs_inv.
  unfold fsquare_inner, at_. cbn [nth]. cbv zeta. rewrite !i32_small by bound.
  match goal with |- long_limbs (map i64 ?t) /\ _ => assert (long_limbs t) as Ht end.
  { split; [done|]. all_bound. }
  rewrite long_limbs_i64 by done. split; [done|].
  eval_ring.
Qed.

(* ------------------------------------------------------------------ *)
(** ** Reduction *)

Lemma add_19_small x y X Y : Z.abs x <= X -> Z.abs y <= Y -> X + 19 * Y < 2 ^ 63 ->
  add_19 x y = x + 19 * y.
Proof.
  intros Hx Hy HXY. unfold add_19. rewrite !Z.shiftl_mul_pow2 by done.
  rewrite (i64_small (y * 2 ^ 4)), (i64_small (y * 2 ^ 1)) by lia.
  rewrite (i64_small (x + y * 2 ^ 4)) by lia. rewrite (i64_small (_ + y * 2 ^ 1)) by lia.
  rewrite i64_small; lia.
Qed.

(** The degree: limb [10 + i] counts for [2 ^ 255] times limb [i]. *)
Lemma freduce_degree_spec t : long_limbs t -> exists lo h hi,
  freduce_degree t = lo ++ h :: hi /\ limbs (280 * 2 ^ 54) lo /\ length hi = 8%nat /\
  eval lo mod p25519 = eval t mod p25519.
Proof.
  intros [Hl Ht]. do 19 (destruct t as [|? t]; [done|]). destruct t; [|done].
  repeat apply Forall_cons in Ht as [? Ht]. unfold freduce_degree. cbn [take drop zip_with app].
  repeat (erewrite add_19_small; [|eassumption|eassumption|done]).
  eexists [_; _; _; _; _; _; _; _; _; _], _, [_; _; _; _; _; _; _; _]. split; [reflexivity|].
  split; [split; [done|]; all_bound|]. split; [done|].
  match goal with |- _ = eval [?a; ?b; ?c; ?d; ?e; ?f; ?g; ?h; ?i; ?j; ?k; ?l; ?m; ?n; ?o; ?p; ?q; ?r; ?s] mod _ =>
    transitivity ((eval [a + 19 * k; b + 19 * l; c + 19 * m; d + 19 * n; e + 19 * o; f + 19 * p;
       g + 19 * q; h + 19 * r; i + 19 * s; j] + eval [k; l; m; n; o; p; q; r; s] * p25519) mod p25519);
    [by rewrite Z_mod_plus_full|f_equal] end.
  change p25519 with (2 ^ 255 - 19). eval_ring.
Qed.

(** The rounding term is that of a division that truncates towards zero. *)
Lemma sign_word v : Z.abs v < 2 ^ 63 ->
  Z.shiftr (i32 (u32 (Z.shiftr (u64 v) 32))) 31 = if v <? 0 then -1 else 0.
Proof.
  intros Hv. unfold u64. rewrite !Z.shiftr_div_pow2 by done.
  assert (v mod 2 ^ 64 = if v <? 0 then v + 2 ^ 64 else v) as ->.
  { destruct (Z.ltb_spec v 0); [|apply Z.mod_small; lia].
    rewrite <- (Z_mod_plus_full v 1), Z.mod_small; lia. }
  unfold u32, i32. destruct (Z.ltb_spec v 0).
  - assert (2 ^ 31 <= (v + 2 ^ 64) / 2 ^ 32 < 2 ^ 32) as [H1 H2].
    { split; [apply Z.div_le_lower_bound|apply Z.div_lt_upper_bound]; lia. }
    set (w := (v + 2 ^ 64) / 2 ^ 32) in *. rewrite (Z.mod_small w) by lia.
    replace ((w + 2 ^ 31) mod 2 ^ 32) with (w - 2 ^ 31)
      by (apply Z.mod_unique with 1; lia).
    symmetry. apply Z.div_unique with (w - 2 ^ 31); lia.
  - assert (0 <= v / 2 ^ 32 < 2 ^ 31) as [H1 H2].
    { split; [apply Z.div_pos|apply Z.div_lt_upper_bound]; lia. }
    rewrite (Z.mod_small (v / 2 ^ 32)) by lia. rewrite Z.mod_small by lia.
    rewrite Z.add_simpl_r. apply Z.div_small. lia.
Qed.

Lemma div_round v w : 0 < w -> (v + (if v <? 0 then w - 1 else 0)) / w = Z.quot v w.
Proof.
  intros Hw. destruct (Z.ltb_spec v 0).
  - rewrite <- (Z.opp_involutive v) at 2. rewrite Z.quot_opp_l, Z.quot_div_nonneg by lia.
    pose proof (Z.div_mod (- v) w ltac:(lia)). pose proof (Z.mod_pos_bound (- v) w Hw).
    symmetry. apply Z.div_unique with (w - 1 - (- v) mod w); lia.
  - rewrite Z.add_0_r, Z.quot_div_nonneg; lia.
Qed.

Lemma div_by_2_26_spec v : Z.abs v < 2 ^ 63 - 2 ^ 26 -> div_by_2_26 v = Z.quot v (2 ^ 26).
Proof.
  intros Hv. unfold div_by_2_26. cbv zeta. rewrite sign_word by lia. rewrite <- div_round by done.
  rewrite Z.shiftr_div_pow2 by done. f_equal.
  destruct (v <? 0); [change (i32 (Z.shiftr (u32 (-1)) 6)) with (2 ^ 26 - 1)
    |change (i32 (Z.shiftr (u32 0) 6)) with 0]; apply i64_small; lia.
Qed.

Lemma div_by_2_25_spec v : Z.abs v < 2 ^ 63 - 2 ^ 26 -> div_by_2_25 v = Z.quot v (2 ^ 25).
Proof.
  intros Hv. unfold div_by_2_25. cbv zeta. rewrite sign_word by lia. rewrite <- div_round by done.
  rewrite Z.shiftr_div_pow2 by done. f_equal.
  destruct (v <? 0); [change (i32 (Z.shiftr (u32 (-1)) 7)) with (2 ^ 25 - 1)
    |change (i32 (Z.shiftr (u32 0) 7)) with 0]; apply i64_small; lia.
Qed.

(** A carry: what it takes from limb [i] it gives to the next one, and what is
    left is below the width. *)
Definition carried (w : Z) (carry : list Z -> nat -> list Z) : Prop :=
  forall pre a b post, Z.abs a <= 281 * 2 ^ 54 -> Z.abs b <= 280 * 2 ^ 54 -> exists r q,
    carry (pre ++ a :: b :: post) (length pre) = pre ++ r :: (b + q) :: post /\
    a = r + q * 2 ^ w /\ Z.abs r <= 2 ^ w - 1 /\ Z.abs q * 2 ^ w <= Z.abs a.

Lemma carry_quot w over pre a b post : 0 < w <= 26 -> over = Z.quot a (2 ^ w) ->
  25 <= w -> Z.abs a <= 281 * 2 ^ 54 -> Z.abs b <= 280 * 2 ^ 54 -> exists r q,
    (let x := pre ++ a :: b :: post in let i := length pre in
     let output := <[i := i64 (at_ x i - i64 (Z.shiftl over w))]> x in
     <[S i := i64 (at_ output (S i) + over)]> output) = pre ++ r :: (b + q) :: post /\
    a = r + q * 2 ^ w /\ Z.abs r <= 2 ^ w - 1 /\ Z.abs q * 2 ^ w <= Z.abs a.
Proof.
  intros Hw -> Hw' Ha Hb. pose proof (Z.quot_rem' a (2 ^ w)) as Hq.
  assert (0 < 2 ^ w) as Hp by (apply Z.pow_pos_nonneg; lia).
  pose proof (Z.rem_bound_abs a (2 ^ w) ltac:(lia)) as Hr.
  set (q := Z.quot a (2 ^ w)) in *. set (r := Z.rem a (2 ^ w)) in *.
  assert (Z.abs (q * 2 ^ w) <= Z.abs a) as Hqa.
  { unfold q. rewrite Z.mul_comm, Z.abs_mul, (Z.abs_eq (2 ^ w)), <- Z.quot_abs, (Z.abs_eq (2 ^ w)) by lia.
    apply Z.mul_quot_le; lia. }
  assert (2 ^ 25 <= 2 ^ w <= 2 ^ 26) as Hww by (split; apply Z.pow_le_mono_r; lia).
  assert (Z.abs q * 2 ^ 25 <= Z.abs (q * 2 ^ w)) as Hqq by (rewrite Z.abs_mul; nia).
  exists r, q. split; [|rewrite Z.abs_mul, (Z.abs_eq (2 ^ w)) in Hqa by lia; lia].
  rewrite Z.shiftl_mul_pow2 by lia. unfold at_. cbv zeta.
  rewrite app_nth2, Nat.sub_diag by lia. cbn [nth].
  rewrite insert_app_r_alt, Nat.sub_diag by lia. cbn [insert list_insert].
  rewrite app_nth2 by lia. replace (S (length pre) - length pre)%nat with 1%nat by lia. cbn [nth].
  rewrite insert_app_r_alt by lia. replace (S (length pre) - length pre)%nat with 1%nat by lia.
  cbn [insert list_insert].
  rewrite (i64_small (q * 2 ^ w)) by lia. rewrite (i64_small (b + q)) by lia.
  replace (a - q * 2 ^ w) with r by lia. rewrite i64_small by lia. done.
Qed.

Lemma at_middle pre (a : Z) post : at_ (pre ++ a :: post) (length pre) = a.
Proof. unfold at_. by rewrite app_nth2, Nat.sub_diag by lia. Qed.

Lemma carry_26_spec : carried 26 carry_26.
Proof. intros pre a b post Ha Hb. apply (carry_quot 26); try lia. rewrite at_middle. apply div_by_2_26_spec. lia. Qed.
Lemma carry_25_spec : carried 25 carry_25.
Proof. intros pre a b post Ha Hb. apply (carry_quot 25); try lia. rewrite at_middle. apply div_by_2_25_spec. lia. Qed.

(** One turn of the loop: two carries. *)
Lemma carry_pair i pre a b c post : i = length pre ->
  Z.abs a <= 281 * 2 ^ 54 -> Z.abs b <= 280 * 2 ^ 54 -> Z.abs c <= 280 * 2 ^ 54 -> exists r0 r1 q,
    carry_25 (carry_26 (pre ++ a :: b :: c :: post) i) (S i) = pre ++ r0 :: r1 :: (c + q) :: post /\
    a + 2 ^ 26 * b = r0 + 2 ^ 26 * r1 + 2 ^ 51 * q /\
    Z.abs r0 <= 2 ^ 26 - 1 /\ Z.abs r1 <= 2 ^ 25 - 1 /\ Z.abs q <= 281 * 2 ^ 29.
Proof.
  intros -> Ha Hb Hc. destruct (carry_26_spec pre a b (c :: post)) as (r0 & q0 & E & Ha' & Hr0 & Hq0); [done..|].
  rewrite E. clear E.
  destruct (carry_25_spec (pre ++ [r0]) (b + q0) c post) as (r1 & q1 & E & Hb' & Hr1 & Hq1); [lia..|].
  rewrite length_app, Nat.add_1_r, <- !app_assoc in E. cbn [app] in E. rewrite E.
  exists r0, r1, q1. split; [done|]. lia.
Qed.

Lemma freduce_coefficients_spec lo h hi : limbs (280 * 2 ^ 54) lo -> exists r,
  freduce_coefficients (lo ++ h :: hi) = r ++ 0 :: hi /\ limbs (2 ^ 26 - 1) r /\
  eval r mod p25519 = eval lo mod p25519.
Proof.
  intros (x0&x1&x2&x3&x4&x5&x6&x7&x8&x9&->&H0&H1&H2&H3&H4&H5&H6&H7&H8&H9)%limbs_inv.
  unfold freduce_coefficients. cbn [app insert list_insert foldl].
  destruct (carry_pair 0 [] x0 x1 x2 (x3 :: x4 :: x5 :: x6 :: x7 :: x8 :: x9 :: 0 :: hi))
    as (r0 & r1 & q1 & E & E1 & B0 & B1 & Q1); [done|bound..|]. cbn [app] in E. rewrite E. clear E.
  destruct (carry_pair 2 [r0; r1] (x2 + q1) x3 x4 (x5 :: x6 :: x7 :: x8 :: x9 :: 0 :: hi))
    as (r2 & r3 & q3 & E & E3 & B2 & B3 & Q3); [done|bound..|]. cbn [app] in E. rewrite E. clear E.
  destruct (carry_pair 4 [r0; r1; r2; r3] (x4 + q3) x5 x6 (x7 :: x8 :: x9 :: 0 :: hi))
    as (r4 & r5 & q5 & E & E5 & B4 & B5 & Q5); [done|bound..|]. cbn [app] in E. rewrite E. clear E.
  destruct (carry_pair 6 [r0; r1; r2; r3; r4; r5] (x6 + q5) x7 x8 (x9 :: 0 :: hi))
    as (r6 & r7 & q7 & E & E7 & B6 & B7 & Q7); [done|bound..|]. cbn [app] in E. rewrite E. clear E.
  destruct (carry_pair 8 [r0; r1; r2; r3; r4; r5; r6; r7] (x8 + q7) x9 0 hi)
    as (r8 & r9 & q9 & E & E9 & B8 & B9 & Q9); [done|bound|bound|done|]. cbn [app] in E. rewrite E. clear E.
  cbn [insert list_insert]. unfold at_. cbn [nth]. rewrite Z.add_0_l.
  rewrite (add_19_small _ _ _ _ B0 Q9) by done.
  destruct (carry_26_spec [] (r0 + 19 * q9) r1 (r2 :: r3 :: r4 :: r5 :: r6 :: r7 :: r8 :: r9 :: 0 :: hi))
    as (s0 & q & E & E10 & B10 & Q10); [clear - B0 Q9; lia|clear - B1; lia|].
  cbn [app length] in E. rewrite E. clear E.
  exists [s0; r1 + q; r2; r3; r4; r5; r6; r7; r8; r9]. split; [done|]. split.
  - split; [done|]. assert (Z.abs (r1 + q) <= 2 ^ 26 - 1) by (clear - B0 B1 Q9 Q10; lia).
    repeat (constructor; [first [eassumption|eapply Z.le_trans; [eassumption|done]]|]). constructor.
  - rewrite <- (Z_mod_plus_full (eval [s0; _; _; _; _; _; _; _; _; _]) q9). f_equal. unfold p25519.
    unfold eval. let w := eval vm_compute in weights in change weights with w.
    cbn [zip_with foldr app]. clear - E1 E3 E5 E7 E9 E10. lia.
Qed.

(* ------------------------------------------------------------------ *)
(** ** Field elements

    [x] is congruent to [y] modulo the prime; the ring operations respect it. *)

Definition feq (x y : Z) : Prop := x mod p25519 = y mod p25519.
Declare Scope field_scope.
Infix "==" := feq (at level 70) : field_scope.
Open Scope field_scope.

#[export] Instance feq_equiv : Equivalence feq.
Proof. split; unfold feq; [by intros ?|by intros ??|intros ???; congruence]. Qed.
#[export] Instance feq_add : Proper (feq ==> feq ==> feq) Z.add.
Proof. unfold feq. intros x x' Hx y y' Hy. by rewrite Z.add_mod, Hx, Hy, <- Z.add_mod. Qed.
#[export] Instance feq_sub : Proper (feq ==> feq ==> feq) Z.sub.
Proof. unfold feq. intros x x' Hx y y' Hy. by rewrite Zminus_mod, Hx, Hy, <- Zminus_mod. Qed.
#[export] Instance feq_mul : Proper (feq ==> feq ==> feq) Z.mul.
Proof. unfold feq. intros x x' Hx y y' Hy. by rewrite Z.mul_mod, Hx, Hy, <- Z.mul_mod. Qed.

(** The array [x], read as ten limbs bounded by [B], stands for [v]. *)
Definition repr (B : Z) (x : list Z) (v : Z) : Prop := limbs B (take 10 x) /\ eval (take 10 x) == v.

(** What the functions leave: the bound of the comments, [|x| < 2 ^ 26]. *)
Abbreviation reduced := (repr (2 ^ 26 - 1)).
(** What they accept: [|x| < 2 ^ 27]. *)
Abbreviation loose := (repr (2 ^ 27)).

Lemma repr_weaken B B' x v : B <= B' -> repr B x v -> repr B' x v.
Proof. intros HB [Hx Hv]. split; [by eapply limbs_weaken|done]. Qed.

Lemma reduced_loose x v : reduced x v -> loose x v.
Proof. by apply repr_weaken. Qed.

Lemma repr_feq B x v v' : v == v' -> repr B x v -> repr B x v'.
Proof. intros Hv [Hx E]. split; [done|]. by rewrite E. Qed.

Lemma repr_take B x v : repr B (take 10 x) v <-> repr B x v.
Proof. unfold repr. by rewrite take_take. Qed.

Lemma repr_limbs B x v : repr B x v -> limbs B (take 10 x).
Proof. by intros [? _]. Qed.

Create HintDb field.
#[export] Hint Resolve reduced_loose repr_limbs : field.

Lemma limbs_take B x : limbs B x -> take 10 x = x.
Proof. intros [Hl _]. apply take_ge. lia. Qed.

Lemma limbs_repr B x : limbs B x -> repr B x (eval x).
Proof. intros Hx. unfold repr. by rewrite (limbs_take _ _ Hx). Qed.

(** A result of ten limbs followed by anything. *)
Lemma repr_app B r rest v : limbs B r -> eval r == v -> repr B (r ++ rest) v.
Proof.
  intros Hr Hv. pose proof Hr as [Hl _]. unfold repr. by rewrite take_app_le, take_ge by lia.
Qed.

Lemma fsum_repr A B x y u v : repr A x u -> repr B y v -> A + B < 2 ^ 63 -> repr (A + B) (fsum x y) (u + v).
Proof.
  intros [Hx Hu] [Hy Hv] HAB. destruct (fsum_spec A B _ _ (drop 10 x) Hx Hy HAB) as (r & E & Hr & Ev).
  assert (fsum x y = r ++ drop 10 x) as ->.
  { rewrite <- E. unfold fsum. rewrite !take_take, take_drop. done. }
  apply repr_app; [done|]. by rewrite Ev, Hu, Hv.
Qed.

Lemma fdifference_repr A B x y u v : repr A x u -> repr B y v -> A + B < 2 ^ 63 ->
  repr (A + B) (fdifference x y) (v - u).
Proof.
  intros [Hx Hu] [Hy Hv] HAB. destruct (fdifference_spec A B _ _ (drop 10 x) Hx Hy HAB) as (r & E & Hr & Ev).
  assert (fdifference x y = r ++ drop 10 x) as ->.
  { rewrite <- E. unfold fdifference. rewrite !take_take, take_drop. done. }
  apply repr_app; [done|]. by rewrite Ev, Hu, Hv.
Qed.

Lemma fscalar_product_repr x u : loose x u -> repr (121665 * 2 ^ 27) (fscalar_product x 121665) (121665 * u).
Proof.
  intros [Hx Hu]. destruct (fscalar_product_spec _ Hx) as [Hr E].
  assert (fscalar_product x 121665 = fscalar_product (take 10 x) 121665) as ->.
  { unfold fscalar_product. by rewrite take_take. }
  split; [by rewrite (limbs_take _ _ Hr)|]. by rewrite (limbs_take _ _ Hr), E, Hu.
Qed.

(** The products read ten limbs. *)
Lemma at_take x i : (i < 10)%nat -> at_ (take 10 x) i = at_ x i.
Proof. intros Hi. unfold at_. rewrite !nth_lookup, lookup_take_lt by done. done. Qed.

Lemma fproduct_take a b : fproduct a b = fproduct (take 10 a) (take 10 b).
Proof. unfold fproduct. by rewrite !at_take by lia. Qed.
Lemma fsquare_inner_take a : fsquare_inner a = fsquare_inner (take 10 a).
Proof. unfold fsquare_inner. by rewrite !at_take by lia. Qed.

#[global] Opaque fproduct fsquare_inner freduce_degree freduce_coefficients.

(** Reducing the limbs of a product. *)
Lemma reduce_repr t v : long_limbs t -> eval t == v -> reduced (freduce_coefficients (freduce_degree t)) v.
Proof.
  intros Ht Hv. destruct (freduce_degree_spec t Ht) as (lo & h & hi & -> & Hlo & _ & E).
  destruct (freduce_coefficients_spec lo h hi Hlo) as (r & -> & Hr & E'). apply repr_app; [done|].
  unfold feq in *. congruence.
Qed.

Lemma fmonty_product_repr a b u v : loose a u -> loose b v -> reduced (fmonty_product a b) (u * v).
Proof.
  intros [Ha Hu] [Hb Hv]. unfold fmonty_product. rewrite fproduct_take.
  destruct (fproduct_spec _ _ Ha Hb) as [Ht E]. apply reduce_repr; [done|]. by rewrite E, Hu, Hv.
Qed.

Lemma fmul_repr a b u v : loose a u -> loose b v -> reduced (fmul a b) (u * v).
Proof. intros Ha Hb. unfold fmul. rewrite repr_take. fold (fmonty_product a b). by apply fmonty_product_repr. Qed.

Lemma fsquare_repr a u : loose a u -> reduced (fsquare a) (u * u).
Proof.
  intros [Ha Hu]. unfold fsquare. rewrite repr_take, fsquare_inner_take.
  destruct (fsquare_inner_spec _ Ha) as [Ht E]. apply reduce_repr; [done|]. by rewrite E, Hu.
Qed.
