(* ===== verification/DonnaLadder.v ===== *)
(** The Montgomery ladder of curve25519-donna, its inversion by exponentiation,
    and that they compute the X25519 function of RFC 7748. *)

From S2P Require Import Prelude Buffers Crypto Limbs Donna DonnaField.

(* ------------------------------------------------------------------ *)
(** ** The reference: RFC 7748, section 5, on integers *)

Definition point : Type := Z * Z.

(** One turn of the loop: [(x_2 : z_2)] doubled, [(x_3 : z_3)] the sum, from the
    two points whose difference has the u-coordinate [x_1]. *)
Definition ladder_step (x1 : Z) (s : point * point) : point * point :=
  let '((x2, z2), (x3, z3)) := s in
  let A := x2 + z2 in
  let AA := A * A in
  let B := x2 - z2 in
  let BB := B * B in
  let E := AA - BB in
  let C := x3 + z3 in
  let D := x3 - z3 in
  let DA := D * A in
  let CB := C * B in
  ((AA * BB mod p25519, E * (AA + 121665 * E) mod p25519),
   ((DA + CB) * (DA + CB) mod p25519, x1 * ((DA - CB) * (DA - CB)) mod p25519)).

Definition swap_points (b : bool) (s : point * point) : point * point := if b then (s.2, s.1) else s.

(** The bits of the scalar from bit [n - 1] down. *)
Fixpoint ladder (k u : Z) (n : nat) (s : point * point) : point * point :=
  match n with
  | O => s
  | S n' =>
      let b := Z.testbit k (Z.of_nat n') in
      ladder k u n' (swap_points b (ladder_step u (swap_points b s)))
  end.

Definition X25519 (k u : Z) : Z :=
  let '((x2, z2), _) := ladder k u 256 ((1, 0), (u, 1)) in
  (x2 * z2 ^ (p25519 - 2)) mod p25519.

(* ------------------------------------------------------------------ *)
(** ** The step *)

Lemma mod_feq v : v mod p25519 == v.
Proof. unfold feq. by rewrite Zmod_mod. Qed.

(** The four coordinates of the state. *)
Definition repr4 (s : ladder_state) (m : point * point) : Prop :=
  reduced s.1.1 m.1.1 /\ reduced s.1.2 m.1.2 /\ reduced s.2.1 m.2.1 /\ reduced s.2.2 m.2.2.

(** Sums and differences of reduced numbers are loose. *)
Lemma fsum_loose x y u v : reduced x u -> reduced y v -> loose (fsum x y) (u + v).
Proof. intros Hx Hy. eapply repr_weaken; [|by apply fsum_repr]. done. Qed.
Lemma fdifference_loose x y u v : reduced x u -> reduced y v -> loose (fdifference x y) (v - u).
Proof. intros Hx Hy. eapply repr_weaken; [|by apply fdifference_repr]. done. Qed.

(** The product by the scalar needs no reduction of its degree. *)
Lemma scalar_reduced x u : loose x u ->
  reduced (freduce_coefficients (fscalar_product x 121665 ++ repeat 0 9)) (121665 * u).
Proof.
  intros [Hx Hu]%fscalar_product_repr.
  assert (take 10 (fscalar_product x 121665) = fscalar_product x 121665) as Et.
  { unfold fscalar_product. by rewrite <- firstn_map, take_take. }
  rewrite Et in Hx, Hu.
  destruct (freduce_coefficients_spec _ 0 (repeat 0 8) (limbs_weaken (121665 * 2 ^ 27) (280 * 2 ^ 54) _ ltac:(done) Hx))
    as (r & E & Hr & Ev). cbn [repeat] in *. rewrite E. apply repr_app; [done|].
  unfold feq in *. congruence.
Qed.

Lemma repr_take_intro B x v : repr B x v -> repr B (take 10 x) v.
Proof. apply repr_take. Qed.

#[export] Hint Resolve repr_take_intro fsum_loose fdifference_loose fmonty_product_repr fsquare_repr scalar_reduced : field.

Lemma fmonty_spec x z x' z' q (s : point * point) u :
  repr4 ((x, z), (x', z')) s -> reduced q u -> repr4 (fmonty x z x' z' q) (ladder_step u s).
Proof.
  destruct s as [[x2 z2] [x3 z3]]. intros (Hx & Hz & Hx' & Hz') Hq. cbn [fst snd] in *.
  unfold fmonty, ladder_step. cbv zeta.
  assert (forall r v w, reduced r v -> v = w -> reduced (take 10 r) (w mod p25519)) as Hout.
  { intros r v w Hr ->. eapply repr_feq; [symmetry; apply mod_feq|by apply repr_take]. }
  assert (forall r v w, reduced r v -> v = w -> reduced r (w mod p25519)) as Hout'.
  { intros r v w Hr ->. eapply repr_feq; [symmetry; apply mod_feq|done]. }
  refine (conj _ (conj _ (conj _ _))); cbn [fst snd]; [eapply Hout|eapply Hout|eapply Hout'|eapply Hout];
    (eauto 20 with field; ring).
Qed.


(* ------------------------------------------------------------------ *)
(** ** The conditional swap *)

Lemma swap_lists (bit : bool) a b :
  Forall (fun l => Z.abs l <= 2 ^ 26 - 1) a -> Forall (fun l => Z.abs l <= 2 ^ 26 - 1) b -> length a = length b ->
  let swap := i32 (- Z.b2z bit) in
  let x a b := Z.land swap (Z.lxor (i32 a) (i32 b)) in
  zip_with (fun a b => Z.lxor (i32 a) (x a b)) a b = (if bit then b else a) /\
  zip_with (fun a b => Z.lxor (i32 b) (x a b)) a b = (if bit then a else b).
Proof.
  intros Ha Hb Hl. cbv zeta. revert b Hb Hl. induction Ha as [|h a Hh Ha IH]; intros [|k b] Hb Hl; try done.
  - by destruct bit.
  - apply Forall_cons in Hb as [Hk Hb]. cbn [zip_with].
    destruct (IH b Hb) as [-> ->]; [by injection Hl|].
    rewrite (i32_small h), (i32_small k) by lia. destruct bit; cbn [Z.b2z].
    + change (i32 (- (1))) with (-1). rewrite Z.land_m1_l.
      rewrite <- Z.lxor_assoc, Z.lxor_nilpotent, Z.lxor_0_l.
      by rewrite (Z.lxor_comm h k), <- Z.lxor_assoc, Z.lxor_nilpotent, Z.lxor_0_l.
    + change (i32 (- (0))) with 0. by rewrite Z.land_0_l, !Z.lxor_0_r.
Qed.

Lemma swap_conditional_spec (bit : bool) a b u v : reduced a u -> reduced b v ->
  swap_conditional a b (Z.b2z bit) = if bit then (take 10 b, take 10 a) else (take 10 a, take 10 b).
Proof.
  intros [[Hla Ha] _] [[Hlb Hb] _]. unfold swap_conditional. cbv zeta.
  destruct (swap_lists bit _ _ Ha Hb ltac:(congruence)) as [-> ->]. by destruct bit.
Qed.

Lemma cmult_bit_spec q u s m (bit : bool) : reduced q u -> repr4 s m ->
  repr4 (cmult_bit q s (Z.b2z bit)) (swap_points bit (ladder_step u (swap_points bit m))).
Proof.
  destruct s as [[nqx nqz] [nqpqx nqpqz]], m as [[x2 z2] [x3 z3]]. intros Hq (H1 & H2 & H3 & H4).
  cbn [fst snd] in *. unfold cmult_bit.
  rewrite (swap_conditional_spec bit nqx nqpqx _ _ H1 H3), (swap_conditional_spec bit nqz nqpqz _ _ H2 H4).
  set (s := (if bit then (take 10 nqpqx, take 10 nqx) else (take 10 nqx, take 10 nqpqx))).
  set (s' := (if bit then (take 10 nqpqz, take 10 nqz) else (take 10 nqz, take 10 nqpqz))).
  assert (repr4 ((s.1, s'.1), (s.2, s'.2)) (swap_points bit ((x2, z2), (x3, z3)))) as Hs.
  { unfold repr4, s, s'. destruct bit; cbn [fst snd swap_points]; by rewrite !repr_take. }
  destruct s as [a b], s' as [c d]. pose proof (fmonty_spec _ _ _ _ _ _ _ Hs Hq) as Hm. cbn [fst snd] in Hm.
  destruct (fmonty a c b d q) as [[p1 p2] [p3 p4]]. destruct Hm as (M1 & M2 & M3 & M4). cbn [fst snd] in *.
  rewrite (swap_conditional_spec bit p1 p3 _ _ M1 M3), (swap_conditional_spec bit p2 p4 _ _ M2 M4).
  unfold repr4. destruct bit; cbn [fst snd swap_points]; by rewrite !repr_take.
Qed.

(* ------------------------------------------------------------------ *)
(** ** The loop over the scalar *)

Lemma top_bit byte : 0 <= byte < 256 -> Z.shiftr byte 7 = Z.b2z (Z.testbit byte 7).
Proof.
  intros Hb. rewrite Z.testbit_spec', Z.shiftr_div_pow2 by lia. symmetry. apply Z.mod_small.
  split; [apply Z.div_pos; lia|apply Z.div_lt_upper_bound; lia].
Qed.

Lemma cmult_byte_spec q u k j n byte s m : (n <= 8)%nat -> 0 <= byte < 256 ->
  (forall i, 0 <= i < Z.of_nat n -> Z.testbit byte (8 - Z.of_nat n + i) = Z.testbit k (Z.of_nat j + i)) ->
  reduced q u -> repr4 s m ->
  exists m', repr4 (cmult_byte q n byte s) m' /\ ladder k u (j + n) m = ladder k u j m'.
Proof.
  revert byte s m. induction n as [|n IH]; intros byte s m Hn Hb Hbits Hq Hs.
  { exists m. by rewrite Nat.add_0_r. }
  rewrite Nat.add_succ_r. cbn [cmult_byte ladder]. rewrite top_bit by done.
  assert (Z.testbit byte 7 = Z.testbit k (Z.of_nat (j + n))) as <-.
  { rewrite Nat2Z.inj_add, <- Hbits by lia. f_equal. lia. }
  apply IH; [lia| | |done|by apply cmult_bit_spec].
  - change 255 with (Z.ones 8). rewrite Z.land_ones by lia. by apply Z.mod_pos_bound.
  - intros i Hi. rewrite Z.land_spec, Z.shiftl_spec by lia.
    change 255 with (Z.ones 8). rewrite (Z.testbit_ones_nonneg 8) by lia.
    destruct (Z.ltb_spec (8 - Z.of_nat n + i) 8); [|lia]. rewrite andb_true_r, <- Hbits by lia. f_equal. lia.
Qed.

Lemma cmult_loop q u n j s m : (j <= 32)%nat -> reduced q u -> repr4 s m ->
  repr4 (foldl (fun s i => cmult_byte q 8 (byte_at n (31 - i)) s) s (seq (32 - j) j))
    (ladder (le_val n) u (8 * j) m).
Proof.
  revert s m. induction j as [|j IH]; intros s m Hj Hq Hs; [done|].
  cbn [seq foldl]. replace (S (32 - S j)) with (32 - j)%nat by lia. replace (31 - (32 - S j))%nat with j by lia.
  destruct (cmult_byte_spec q u (le_val n) (8 * j) 8 (byte_at n j) s m) as (m' & Hm & E);
    [lia|apply byte_at_range| |done|done|].
  - intros i Hi. replace (Z.of_nat (8 * j) + i) with (8 * Z.of_nat j + i) by lia.
    by rewrite <- byte_at_testbit by lia.
  - replace (8 * S j)%nat with (8 * j + 8)%nat by lia. rewrite E. apply IH; [lia|done..].
Qed.

Lemma small_reduced (c : Z) : Z.abs c <= 2 ^ 26 - 1 -> reduced (c :: repeat 0 9) c.
Proof.
  intros Hc. split; cbn [take repeat].
  - split; [done|]. constructor; [done|]. by repeat constructor.
  - unfold eval. let w := eval vm_compute in weights in change weights with w. cbn [zip_with foldr]. unfold feq. f_equal. ring.
Qed.

Lemma cmult_spec n q u : reduced q u ->
  let '(x, z) := cmult n q in let '((x2, z2), _) := ladder (le_val n) u 256 ((1, 0), (u, 1)) in
  reduced x x2 /\ reduced z z2.
Proof.
  intros Hq. unfold cmult. cbv zeta. pose proof (cmult_loop q u n 32
    ((1 :: repeat 0 9, repeat 0 10), (take 10 q, 1 :: repeat 0 9)) ((1, 0), (u, 1)) ltac:(lia) Hq) as H.
  change (8 * 32)%nat with 256%nat in H. change (32 - 32)%nat with 0%nat in H.
  destruct (foldl _ _ (seq 0 32)) as [[x z] s'], (ladder _ _ _ _) as [[x2 z2] p]. destruct H as (H1 & H2 & _); [|done].
  unfold repr4. cbn [fst snd]. split; [by apply small_reduced|]. split; [by apply (small_reduced 0)|].
  split; [by apply repr_take|by apply small_reduced].
Qed.

(* ------------------------------------------------------------------ *)
(** ** Inversion: the chain of exponents *)

(** [x] stands for [v ^ e]. *)
Definition power (v : Z) (x : list Z) (e : Z) : Prop := 0 <= e /\ reduced x (v ^ e).

Lemma power_square v x e : power v x e -> power v (fsquare x) (2 * e).
Proof.
  intros [He Hx]. split; [lia|]. replace (2 * e) with (e + e) by lia. rewrite Z.pow_add_r by done.
  auto with field.
Qed.
Lemma power_mul v x y e f : power v x e -> power v y f -> power v (fmul x y) (e + f).
Proof.
  intros [He Hx] [Hf Hy]. split; [lia|]. rewrite Z.pow_add_r by done. apply fmul_repr; auto with field.
Qed.
Lemma power_pairs v n x e : power v x e -> power v (square_pairs n x) (4 ^ Z.of_nat n * e).
Proof.
  intros Hx. unfold square_pairs. induction n as [|n IH]; [by rewrite Z.mul_1_l|].
  rewrite Nat2Z.inj_succ, Z.pow_succ_r by lia. replace (4 * 4 ^ Z.of_nat n * e) with (2 * (2 * (4 ^ Z.of_nat n * e))) by lia.
  cbn [Nat.iter nat_rect]. do 2 apply power_square. exact IH.
Qed.
Lemma power_eq v x e f : e = f -> power v x e -> power v x f.
Proof. by intros ->. Qed.

(** The exponent of a chain of squares and products. *)
Ltac power_chain :=
  repeat lazymatch goal with
  | |- power _ (fmul _ _) _ => apply power_mul
  | |- power _ (fsquare _) _ => apply power_square
  | |- power _ (square_pairs _ _) _ => apply power_pairs
  | |- power _ _ _ => eassumption
  end.

Lemma crecip_power z v : power v z 1 -> power v (crecip z) (p25519 - 2).
Proof.
  intros Hz. eapply power_eq; [|unfold crecip; cbv zeta; power_chain]. vm_compute. reflexivity.
Qed.

Lemma crecip_spec z v : reduced z v -> reduced (crecip z) (v ^ (p25519 - 2)).
Proof. intros Hz. apply crecip_power. split; [done|by rewrite Z.pow_1_r]. Qed.

Lemma X25519_range k u : 0 <= X25519 k u < p25519.
Proof. unfold X25519. destruct (ladder _ _ _ _) as [[x z] ?]. by apply Z.mod_pos_bound. Qed.
