(* ===== verification/DonnaBytes.v ===== *)
(** Field elements as 32 bytes: [fexpand] reads the number modulo [2 ^ 255], and
    [fcontract] writes the canonical representative modulo [2 ^ 255 - 19]. *)

From S2P Require Import Prelude Buffers Crypto Limbs Donna DonnaField DonnaLadder.

(* ------------------------------------------------------------------ *)
(** ** Reading *)

Lemma expand_limb_spec input s sh w : 0 <= sh -> 0 <= w -> sh + w <= 32 ->
  expand_limb input s sh (Z.ones w) = (le_val input / 2 ^ (8 * Z.of_nat s + sh)) mod 2 ^ w.
Proof.
  intros Hs Hw Hsw. unfold expand_limb. rewrite word_at, Z.land_ones, Z.shiftr_div_pow2 by done.
  rewrite mod_div_mod by done. by rewrite div_pow by lia.
Qed.

Lemma fexpand_windows input : fexpand input =
  map (fun p => (le_val input / 2 ^ p.1) mod 2 ^ p.2)
    [(0, 26); (26, 25); (51, 26); (77, 25); (102, 26); (128, 25); (153, 26); (179, 25); (204, 26); (230, 25)].
Proof.
  unfold fexpand. change MASK_26 with (Z.ones 26). change MASK_25 with (Z.ones 25).
  by rewrite !expand_limb_spec by done.
Qed.

Lemma fexpand_value input : eval (fexpand input) = le_val input mod 2 ^ 255.
Proof.
  rewrite fexpand_windows. cbn [map fst snd]. set (V := le_val input).
  change 255 with (26 + (25 + (26 + (25 + (26 + (25 + (26 + (25 + (26 + 25))))))))).
  rewrite !mod_split by done. rewrite !div_pow by done.
  unfold eval. let w := eval vm_compute in weights in change weights with w. cbn [zip_with foldr].
  repeat match goal with |- context [V / 2 ^ ?e] => let v := eval vm_compute in e in progress change e with v end.
  rewrite Z.div_1_r. ring.
Qed.

Lemma fexpand_spec input : reduced (fexpand input) (le_val input mod 2 ^ 255).
Proof.
  rewrite <- fexpand_value. apply limbs_repr. rewrite fexpand_windows. split; [done|].
  assert (forall x w, 0 <= w <= 26 -> Z.abs (x mod 2 ^ w) <= 2 ^ 26 - 1) as Hb.
  { intros x w Hw. pose proof (Z.mod_pos_bound x (2 ^ w) ltac:(lia)).
    pose proof (Z.pow_le_mono_r 2 w 26 ltac:(lia) ltac:(lia)). lia. }
  cbn [map fst snd]. repeat (constructor; [by apply Hb|]). constructor.
Qed.

(* ------------------------------------------------------------------ *)
(** ** Moving the excess of a limb to the next one

    A step at limb [i] takes [q w a] units of [2 ^ w] out of it, where [w] is its
    width, and adds them to the next limb; a pass does so for every limb, and
    folds what leaves the last one, of weight [2 ^ 255], back as 19 times as
    much. *)

Fixpoint steps (q : Z -> Z -> Z) (i : nat) (xs : list Z) (c : Z) : list Z * Z :=
  match xs with
  | [] => ([], c)
  | x :: xs' =>
      let a := x + c in
      let k := q (width i) a in
      let '(r, o) := steps q (S i) xs' k in
      ((a - k * 2 ^ width i) :: r, o)
  end.

Definition wrap_around (m : Z) (r : list Z * Z) : list Z :=
  match r.1 with [] => [] | x :: xs => (x + m * r.2) :: xs end.

(** The number of a row of limbs from limb [i] on, [o] beyond them. *)
Fixpoint value (i : nat) (xs : list Z) (o : Z) : Z :=
  match xs with [] => o | x :: xs' => x + 2 ^ width i * value (S i) xs' o end.

Lemma width_bounds i : 25 <= width i <= 26.
Proof. unfold width. destruct (Nat.odd i); lia. Qed.

Lemma pow_width_bounds i : 2 ^ 25 <= 2 ^ width i <= 2 ^ 26.
Proof. pose proof (width_bounds i). split; apply Z.pow_le_mono_r; lia. Qed.

Lemma steps_length q i xs c : length (steps q i xs c).1 = length xs.
Proof.
  revert i c. induction xs as [|x xs IH]; intros i c; cbn [steps]; [done|].
  specialize (IH (S i) (q (width i) (x + c))). destruct (steps _ (S i) _ _). cbn in *. lia.
Qed.

Lemma steps_value q i xs c : value i (steps q i xs c).1 (steps q i xs c).2 = value i xs 0 + c.
Proof.
  revert i c. induction xs as [|x xs IH]; intros i c; cbn [steps]; [by cbn|].
  specialize (IH (S i) (q (width i) (x + c))). destruct (steps _ (S i) _ _) as [r o]. cbn [value fst snd] in *.
  rewrite IH. lia.
Qed.

Lemma value_eval x0 x1 x2 x3 x4 x5 x6 x7 x8 x9 o :
  value 0 [x0; x1; x2; x3; x4; x5; x6; x7; x8; x9] o = eval [x0; x1; x2; x3; x4; x5; x6; x7; x8; x9] + 2 ^ 255 * o.
Proof. cbn [value]. unfold width. cbn [Nat.odd Nat.even negb]. eval_ring. Qed.

Lemma ten_limbs (x : list Z) : length x = 10%nat ->
  exists x0 x1 x2 x3 x4 x5 x6 x7 x8 x9, x = [x0; x1; x2; x3; x4; x5; x6; x7; x8; x9].
Proof. intros Hl. do 10 (destruct x as [|? x]; [done|]). destruct x; [|done]. by repeat eexists. Qed.

(** A pass keeps the number modulo the prime. *)
Lemma pass_value q x : length x = 10%nat ->
  length (wrap_around 19 (steps q 0 x 0)) = 10%nat /\ eval (wrap_around 19 (steps q 0 x 0)) == eval x.
Proof.
  intros Hl. pose proof (steps_value q 0 x 0) as Hv. pose proof (steps_length q 0 x 0) as Hr.
  destruct (ten_limbs x Hl) as (x0&x1&x2&x3&x4&x5&x6&x7&x8&x9&E). destruct (steps q 0 x 0) as [r o].
  cbn [fst snd] in *. destruct (ten_limbs r ltac:(lia)) as (r0&r1&r2&r3&r4&r5&r6&r7&r8&r9&->). subst x.
  split; [done|]. rewrite !value_eval in Hv. unfold wrap_around. cbn [fst snd].
  transitivity (eval [r0; r1; r2; r3; r4; r5; r6; r7; r8; r9] + 2 ^ 255 * o);
    [|rewrite Hv; unfold feq; f_equal; ring].
  unfold feq. rewrite <- (Z_mod_plus_full (eval [r0 + _; _; _; _; _; _; _; _; _; _]) o). f_equal.
  change p25519 with (2 ^ 255 - 19). eval_ring.
Qed.

Lemma steps_snoc q i xs y c : steps q i (xs ++ [y]) c =
  (let '(r, o) := steps q i xs c in let w := width (i + length xs) in
   let k := q w (y + o) in (r ++ [y + o - k * 2 ^ w], k)).
Proof.
  revert i c. induction xs as [|x xs IH]; intros i c; cbn [app steps length].
  - by rewrite Nat.add_0_r.
  - rewrite IH. destruct (steps q (S i) xs _) as [r o]. by rewrite Nat.add_succ_r.
Qed.

(** The code of a step and of the step of the last limb. *)
Section pass.
  Context (f : list Z -> nat -> list Z) (last : list Z -> list Z) (q : Z -> Z -> Z) (m : Z).
  Hypothesis moves : forall pre a b post, Z.abs a <= 2 ^ 28 -> Z.abs b <= 2 ^ 28 ->
    let k := q (width (length pre)) a in
    f (pre ++ a :: b :: post) (length pre) = pre ++ (a - k * 2 ^ width (length pre)) :: (b + k) :: post.
  Hypothesis moves_last : forall x mid a, length mid = 8%nat -> Z.abs x <= 2 ^ 30 -> Z.abs a <= 2 ^ 28 ->
    last (x :: mid ++ [a]) = (x + m * q 25 a) :: mid ++ [a - q 25 a * 2 ^ 25].
  Hypothesis small : forall i a, Z.abs a <= 2 ^ 28 -> Z.abs (q (width i) a) <= 8.

Lemma fold_steps pre xs x y c : Forall (fun l => Z.abs l <= 2 ^ 27) (x :: xs) -> Z.abs y <= 2 ^ 27 -> Z.abs c <= 8 ->
  foldl f (pre ++ (x + c) :: xs ++ [y]) (seq (length pre) (S (length xs))) =
    (let '(r, o) := steps q (length pre) (x :: xs) c in pre ++ r ++ [y + o]) /\
  Z.abs (steps q (length pre) (x :: xs) c).2 <= 8.
Proof using moves small.
  revert pre x c. induction xs as [|z xs IH]; intros pre x c Hx Hy Hc; apply Forall_cons in Hx as [Hx Hxs].
  - cbn [seq foldl app steps length snd]. rewrite moves by lia. split; [done|]. apply small. lia.
  - assert (Z.abs z <= 2 ^ 27) as Hz by (by apply Forall_cons in Hxs as [? _]).
    cbn [length]. change (seq (length pre) (S (S (length xs)))) with
      (length pre :: seq (S (length pre)) (S (length xs))). cbn [foldl app].
    rewrite moves by lia. cbv zeta. set (k := q (width (length pre)) (x + c)).
    destruct (IH (pre ++ [x + c - k * 2 ^ width (length pre)]) z k Hxs Hy ltac:(apply small; lia)) as [E Ho].
    rewrite length_app, Nat.add_1_r in E, Ho. rewrite <- !app_assoc in E. cbn [app] in E. rewrite E. clear E.
    remember (z :: xs) as zs. cbn [steps]. fold k. destruct (steps q (S (length pre)) zs k) as [r o].
    by rewrite <- app_assoc.
Qed.

Lemma pass_steps x : limbs (2 ^ 27) x -> last (foldl f x (seq 0 9)) = wrap_around m (steps q 0 x 0).
Proof using moves moves_last small.
  intros (x0&x1&x2&x3&x4&x5&x6&x7&x8&x9&->&H0&H1&H2&H3&H4&H5&H6&H7&H8&H9)%limbs_inv.
  destruct (fold_steps [] [x1; x2; x3; x4; x5; x6; x7; x8] x0 x9 0) as [E Ho]; [by repeat constructor|done..|].
  rewrite Z.add_0_r in E. cbn [app length] in E, Ho. rewrite E. clear E.
  change [x0; x1; x2; x3; x4; x5; x6; x7; x8; x9] with ([x0; x1; x2; x3; x4; x5; x6; x7; x8] ++ [x9]).
  rewrite steps_snoc. pose proof (steps_length q 0 [x0; x1; x2; x3; x4; x5; x6; x7; x8] 0) as Hl.
  assert (exists r0, head (steps q 0 [x0; x1; x2; x3; x4; x5; x6; x7; x8] 0).1 = Some r0 /\ Z.abs r0 <= 2 ^ 30) as (r0 & Hr0 & Hb).
  { remember [x1; x2; x3; x4; x5; x6; x7; x8] as xs. cbn [steps]. destruct (steps q 1 xs _) as [r o]. eexists. split; [done|].
    clear - small H0. pose proof (small 0 (x0 + 0) ltac:(lia)). change (width 0) with 26 in *. lia. }
  destruct (steps q 0 _ 0) as [[|r r'] o]; [done|]. cbn [fst snd head] in *. injection Hr0 as ->.
  cbn [app]. rewrite moves_last; [|by injection Hl|done|clear - H9 Ho; lia]. done.
Qed.
End pass.

(** Borrowing takes out the negative excess, carrying the excess. *)
Definition borrow_units (w a : Z) : Z := if a <? 0 then a / 2 ^ w else 0.
Definition carry_units (w a : Z) : Z := a / 2 ^ w.

Lemma borrow_amount_spec w a : 0 <= w -> Z.abs a <= 2 ^ 30 -> borrow_amount a w = - borrow_units w a.
Proof.
  intros Hw Ha. unfold borrow_amount, borrow_units. cbv zeta.
  assert (0 < 2 ^ w) as Hp by (apply Z.pow_pos_nonneg; lia).
  destruct (Z.ltb_spec a 0) as [Hn|Hn].
  - replace (Z.shiftr a 31) with (-1) by (rewrite Z.shiftr_div_pow2 by done; apply Z.div_unique with (a + 2 ^ 31); lia).
    rewrite Z.land_m1_r, Z.shiftr_div_pow2 by done. apply i32_small.
    pose proof (Z.div_le_lower_bound a (2 ^ w) a ltac:(lia) ltac:(nia)).
    pose proof (Z.div_lt_upper_bound a (2 ^ w) 0 ltac:(lia) ltac:(lia)). lia.
  - replace (Z.shiftr a 31) with 0 by (rewrite Z.shiftr_div_pow2 by done; symmetry; apply Z.div_small; lia).
    by rewrite Z.land_0_r, Z.shiftr_0_l.
Qed.

(** Both amounts are a few units. *)
Lemma units_small i a : Z.abs a <= 2 ^ 28 -> Z.abs (a / 2 ^ width i) <= 8.
Proof.
  intros Ha. pose proof (pow_width_bounds i).
  pose proof (Z.div_le_lower_bound a (2 ^ width i) (-8) ltac:(lia) ltac:(lia)).
  pose proof (Z.div_lt_upper_bound a (2 ^ width i) 9 ltac:(lia) ltac:(lia)). lia.
Qed.

Lemma borrow_units_small i a : Z.abs a <= 2 ^ 28 -> Z.abs (borrow_units (width i) a) <= 8.
Proof. intros Ha. unfold borrow_units. destruct (a <? 0); [by apply units_small|done]. Qed.

(** Two limbs of an array written. *)
Lemma insert_two (pre : list Z) a b post v w :
  (let x := <[length pre := v]> (pre ++ a :: b :: post) in
   <[S (length pre) := w (at_ x (S (length pre)))]> x) = pre ++ v :: w b :: post.
Proof.
  cbv zeta. rewrite insert_app_r_alt, Nat.sub_diag by lia. cbn [insert list_insert].
  unfold at_. rewrite app_nth2 by lia. rewrite insert_app_r_alt by lia.
  replace (S (length pre) - length pre)%nat with 1%nat by lia. done.
Qed.

Lemma borrow_moves pre a b post : Z.abs a <= 2 ^ 28 -> Z.abs b <= 2 ^ 28 ->
  let k := borrow_units (width (length pre)) a in
  borrow (pre ++ a :: b :: post) (length pre) = pre ++ (a - k * 2 ^ width (length pre)) :: (b + k) :: post.
Proof.
  intros Ha Hb k. unfold borrow. cbv zeta. rewrite at_middle. pose proof (width_bounds (length pre)).
  rewrite borrow_amount_spec by lia. fold k. pose proof (borrow_units_small (length pre) a Ha). fold k in H0.
  pose proof (insert_two pre a b post (i32 (a + i32 (Z.shiftl (- k) (width (length pre)))))
    (fun z => i32 (z - - k))) as E. cbv zeta in E. rewrite E. clear E.
  pose proof (pow_width_bounds (length pre)). rewrite Z.shiftl_mul_pow2 by lia.
  assert (Z.abs (- k * 2 ^ width (length pre)) <= 8 * 2 ^ 26) as Hk by (apply abs_mul; lia).
  rewrite !i32_small by (rewrite ?i32_small; lia).
  do 2 f_equal; [lia|]. f_equal. lia.
Qed.

Lemma carry_moves pre a b post : Z.abs a <= 2 ^ 28 -> Z.abs b <= 2 ^ 28 ->
  let k := carry_units (width (length pre)) a in
  carry_limb (pre ++ a :: b :: post) (length pre) = pre ++ (a - k * 2 ^ width (length pre)) :: (b + k) :: post.
Proof.
  intros Ha Hb k. unfold carry_limb. cbv zeta. rewrite at_middle. pose proof (width_bounds (length pre)).
  rewrite Z.shiftr_div_pow2 by lia. fold (carry_units (width (length pre)) a). fold k.
  pose proof (units_small (length pre) a Ha) as Hk. fold (carry_units (width (length pre)) a) in Hk. fold k in Hk.
  pose proof (insert_two pre a b post (Z.land a (limb_mask (length pre))) (fun z => i32 (z + k))) as E.
  cbv zeta in E. rewrite E. clear E. rewrite i32_small by lia.
  assert (limb_mask (length pre) = Z.ones (width (length pre))) as -> by (unfold limb_mask, width; by destruct (Nat.odd _)).
  rewrite Z.land_ones, Z.mod_eq by lia. do 2 f_equal. unfold k, carry_units. lia.
Qed.

(** The last limb. *)
Lemma insert_ends (x a v : Z) mid (w : Z -> Z) : length mid = 8%nat ->
  (let y := <[9%nat := v]> (x :: mid ++ [a]) in <[0%nat := w (at_ y 0)]> y) = w x :: mid ++ [v].
Proof. intros Hl. do 8 (destruct mid as [|? mid]; [done|]). by destruct mid. Qed.

Lemma at_end (x a : Z) mid : length mid = 8%nat -> at_ (x :: mid ++ [a]) 9 = a.
Proof. intros Hl. do 8 (destruct mid as [|? mid]; [done|]). by destruct mid. Qed.

Lemma borrow_last_moves x mid a : length mid = 8%nat -> Z.abs x <= 2 ^ 30 -> Z.abs a <= 2 ^ 28 ->
  borrow_last (x :: mid ++ [a]) = (x + 19 * borrow_units 25 a) :: mid ++ [a - borrow_units 25 a * 2 ^ 25].
Proof.
  intros Hl Hx Ha. unfold borrow_last. cbv zeta. rewrite at_end, borrow_amount_spec by (done || lia).
  set (k := borrow_units 25 a). pose proof (borrow_units_small 1 a Ha) as Hk. change (width 1) with 25 in Hk. fold k in Hk.
  pose proof (insert_ends x a (i32 (a + i32 (Z.shiftl (- k) 25))) mid (fun z => i32 (z - i32 (- k * 19))) Hl) as E.
  cbv zeta in E. rewrite E. clear E. rewrite Z.shiftl_mul_pow2 by done.
  rewrite !i32_small by (rewrite ?i32_small; lia). f_equal; [lia|]. do 2 f_equal. lia.
Qed.

Lemma carry_last_moves x mid a : length mid = 8%nat -> Z.abs x <= 2 ^ 30 -> Z.abs a <= 2 ^ 28 ->
  carry_last (x :: mid ++ [a]) = (x + 19 * carry_units 25 a) :: mid ++ [a - carry_units 25 a * 2 ^ 25].
Proof.
  intros Hl Hx Ha. unfold carry_last. cbv zeta. rewrite at_end, Z.shiftr_div_pow2 by done.
  fold (carry_units 25 a). set (k := carry_units 25 a).
  pose proof (units_small 1 a Ha) as Hk. change (width 1) with 25 in Hk. fold (carry_units 25 a) in Hk. fold k in Hk.
  pose proof (insert_ends x a (Z.land a MASK_25) mid (fun z => i32 (z + i32 (19 * k))) Hl) as E.
  cbv zeta in E. rewrite E. clear E.
  rewrite (i32_small (19 * k)) by lia. rewrite i32_small by lia. do 3 f_equal.
  change MASK_25 with (Z.ones 25). rewrite Z.land_ones, Z.mod_eq by done. unfold k, carry_units. lia.
Qed.

Lemma borrow_pass_steps x : limbs (2 ^ 27) x -> borrow_pass x = wrap_around 19 (steps borrow_units 0 x 0).
Proof. apply pass_steps; [apply borrow_moves|apply borrow_last_moves|apply borrow_units_small]. Qed.
Lemma carry_pass_steps x : limbs (2 ^ 27) x -> carry_pass x = wrap_around 19 (steps carry_units 0 x 0).
Proof. apply pass_steps; [apply carry_moves|apply carry_last_moves|apply units_small]. Qed.

(* ------------------------------------------------------------------ *)
(** ** What the passes leave *)

(** A property of what a step writes and of what it passes on, along the row. *)
Lemma steps_inv q (Pc : Z -> Prop) (P : nat -> Z -> Prop) (R : nat -> Z -> Prop) i xs c :
  (forall j x c', P j x -> Pc c' -> let k := q (width j) (x + c') in R j (x + c' - k * 2 ^ width j) /\ Pc k) ->
  (forall j x, xs !! j = Some x -> P (i + j)%nat x) -> Pc c ->
  (forall j y, (steps q i xs c).1 !! j = Some y -> R (i + j)%nat y) /\ Pc (steps q i xs c).2.
Proof.
  intros Hstep. revert i c. induction xs as [|x xs IH]; intros i c HP Hc; cbn [steps]; [done|].
  destruct (Hstep i x c) as [HR Hk]; [|done|].
  { specialize (HP 0%nat x eq_refl). by rewrite Nat.add_0_r in HP. }
  destruct (IH (S i) (q (width i) (x + c))) as [Hr Ho]; [|done|].
  { intros j y Hj. rewrite Nat.add_succ_comm. by apply HP. }
  destruct (steps _ (S i) _ _) as [r o]. cbn [fst snd] in *. split; [|done].
  intros [|j] y; cbn [lookup list_lookup].
  - intros [= <-]. by rewrite Nat.add_0_r.
  - intros Hy. rewrite <- Nat.add_succ_comm. by apply Hr.
Qed.

(** Non-negative limbs of at most 26 bits. *)
Definition plain (x : list Z) : Prop := length x = 10%nat /\ Forall (fun l => 0 <= l <= 2 ^ 26 - 1) x.
(** All but the first one, which is slightly negative at worst. *)
Definition nearly_plain (x : list Z) : Prop :=
  exists x0 xs, x = x0 :: xs /\ length xs = 9%nat /\ - 57 <= x0 <= 2 ^ 26 - 1 /\ Forall (fun l => 0 <= l <= 2 ^ 26 - 1) xs.
(** Every limb within its width: the digits of a number below [2 ^ 255]. *)
Definition digits (x : list Z) : Prop := length x = 10%nat /\ forall i l, x !! i = Some l -> 0 <= l < 2 ^ width i.
Definition nearly_digits (x : list Z) : Prop :=
  exists x0 xs, x = x0 :: xs /\ length xs = 9%nat /\ 0 <= x0 <= 2 ^ 26 - 1 + 38 /\
    forall i l, xs !! i = Some l -> 0 <= l < 2 ^ width (S i).

(** The units a negative limb borrows. *)
Lemma borrow_bounds i a n : - n * 2 ^ 25 <= a -> 0 <= n ->
  let k := borrow_units (width i) a in
  - n <= k <= 0 /\ 0 <= a - k * 2 ^ width i /\ (0 <= a -> k = 0) /\ (a < 0 -> k <= -1 /\ a - k * 2 ^ width i < 2 ^ width i).
Proof.
  intros Ha Hn. unfold borrow_units. cbv zeta. pose proof (pow_width_bounds i) as Hw.
  destruct (Z.ltb_spec a 0) as [Hneg|]; [|lia].
  pose proof (Z.div_mod a (2 ^ width i) ltac:(lia)). pose proof (Z.mod_pos_bound a (2 ^ width i) ltac:(lia)).
  pose proof (Z.div_le_lower_bound a (2 ^ width i) (- n) ltac:(lia) ltac:(nia)).
  pose proof (Z.div_lt_upper_bound a (2 ^ width i) 0 ltac:(lia) ltac:(lia)). lia.
Qed.

Lemma borrow_pass_1 x : limbs (2 ^ 26 - 1) x -> nearly_plain (wrap_around 19 (steps borrow_units 0 x 0)).
Proof.
  intros [Hl Hx]. destruct (steps_inv borrow_units (fun c => -3 <= c <= 0) (fun _ x => Z.abs x <= 2 ^ 26 - 1)
    (fun _ y => 0 <= y <= 2 ^ 26 - 1) 0 x 0) as [Hr Ho]; [| |lia|].
  - intros j y c Hy Hc k. pose proof (borrow_bounds j (y + c) 3 ltac:(lia) ltac:(lia)) as H. fold k in H.
    pose proof (pow_width_bounds j). cbv zeta in H. lia.
  - intros j y Hj. by eapply (Forall_lookup_1 _ _ _ _ Hx).
  - pose proof (steps_length borrow_units 0 x 0) as Hlen. destruct (steps _ _ _ _) as [[|r0 r] o]; cbn [fst snd] in *; [simpl in *; lia|].
    exists (r0 + 19 * o), r. split; [done|]. split; [simpl in *; lia|].
    specialize (Hr 0%nat r0 eq_refl) as H0. split; [simpl in *; lia|].
    apply Forall_lookup_2. intros j y Hj. by apply (Hr (S j)).
Qed.

Lemma borrow_pass_2 x : nearly_plain x -> plain (wrap_around 19 (steps borrow_units 0 x 0)).
Proof.
  intros (x0 & xs & -> & Hl & Hx0 & Hxs). cbn [steps]. rewrite Z.add_0_r.
  pose proof (borrow_bounds 0 x0 1 ltac:(lia) ltac:(lia)) as Hb. cbv zeta in Hb. change (width 0) with 26 in *.
  set (k := borrow_units 26 x0) in *.
  destruct (steps_inv borrow_units (fun c => k <= c <= 0) (fun _ x => 0 <= x <= 2 ^ 26 - 1)
    (fun _ y => 0 <= y <= 2 ^ 26 - 1) 1 xs k) as [Hr Ho]; [| |lia|].
  - intros j y c Hy Hc k'. pose proof (borrow_bounds j (y + c) 1 ltac:(lia) ltac:(lia)) as H. fold k' in H.
    pose proof (pow_width_bounds j). cbv zeta in H. lia.
  - intros j y Hj. by eapply (Forall_lookup_1 _ _ _ _ Hxs).
  - pose proof (steps_length borrow_units 1 xs k) as Hlen. destruct (steps _ _ _ _) as [r o]; cbn [fst snd] in *.
    split; [simpl; lia|]. constructor; [cbn [fst snd]; lia|].
    apply Forall_lookup_2. intros j y Hj. by apply (Hr j).
Qed.

Lemma carry_bounds i a n : 0 <= a < (n + 1) * 2 ^ width i ->
  let k := carry_units (width i) a in 0 <= k <= n /\ 0 <= a - k * 2 ^ width i < 2 ^ width i.
Proof.
  intros Ha. unfold carry_units. cbv zeta. pose proof (pow_width_bounds i) as Hw.
  pose proof (Z.div_mod a (2 ^ width i) ltac:(lia)). pose proof (Z.mod_pos_bound a (2 ^ width i) ltac:(lia)).
  pose proof (Z.div_pos a (2 ^ width i) ltac:(lia) ltac:(lia)).
  pose proof (Z.div_lt_upper_bound a (2 ^ width i) (n + 1) ltac:(lia) ltac:(lia)). lia.
Qed.

Lemma carry_pass_1 x : plain x -> nearly_digits (wrap_around 19 (steps carry_units 0 x 0)).
Proof.
  intros [Hl Hx]. destruct (steps_inv carry_units (fun c => 0 <= c <= 2) (fun _ x => 0 <= x <= 2 ^ 26 - 1)
    (fun i y => 0 <= y < 2 ^ width i) 0 x 0) as [Hr Ho]; [| |lia|].
  - intros j y c Hy Hc k. pose proof (pow_width_bounds j).
    pose proof (carry_bounds j (y + c) 2 ltac:(lia)) as H'. fold k in H'. cbv zeta in H'. lia.
  - intros j y Hj. by eapply (Forall_lookup_1 _ _ _ _ Hx).
  - pose proof (steps_length carry_units 0 x 0) as Hlen. destruct (steps _ _ _ _) as [[|r0 r] o]; cbn [fst snd] in *; [simpl in *; lia|].
    exists (r0 + 19 * o), r. split; [done|]. split; [simpl in *; lia|].
    specialize (Hr 0%nat r0 eq_refl) as H0. change (width (0 + 0)) with 26 in H0. split; [lia|].
    intros i l Hi. by apply (Hr (S i)).
Qed.

Lemma carry_pass_2 x : nearly_digits x -> digits (wrap_around 19 (steps carry_units 0 x 0)).
Proof.
  intros (x0 & xs & -> & Hl & Hx0 & Hxs). cbn [steps]. rewrite Z.add_0_r.
  pose proof (carry_bounds 0 x0 1) as Hb. cbv zeta in Hb. change (width 0) with 26 in *.
  specialize (Hb ltac:(lia)). set (k := carry_units 26 x0) in *.
  destruct (steps_inv carry_units (fun c => 0 <= c <= k) (fun i x => 0 <= x < 2 ^ width i)
    (fun i y => 0 <= y < 2 ^ width i) 1 xs k) as [Hr Ho]; [|done|lia|].
  - intros j y c Hy Hc k'. pose proof (pow_width_bounds j).
    pose proof (carry_bounds j (y + c) c ltac:(nia)) as H'. fold k' in H'. cbv zeta in H'. lia.
  - pose proof (steps_length carry_units 1 xs k) as Hlen. destruct (steps _ _ _ _) as [r o]; cbn [fst snd] in *.
    split; [simpl; lia|]. intros [|i] l; cbn [lookup list_lookup wrap_around fst snd].
    + intros [= <-]. change (width 0) with 26. lia.
    + intros Hi. by apply (Hr i).
Qed.

Lemma nearly_plain_limbs x : nearly_plain x -> limbs (2 ^ 27) x.
Proof.
  intros (x0 & xs & -> & Hl & Hx & Hxs). split; [simpl; lia|]. constructor; [lia|].
  eapply Forall_impl; [exact Hxs|]. intros l Hll. simpl in *. lia.
Qed.
Lemma plain_limbs x : plain x -> limbs (2 ^ 27) x.
Proof. intros [Hl Hx]. split; [done|]. eapply Forall_impl; [exact Hx|]. intros l Hll. simpl in *. lia. Qed.
Lemma nearly_digits_limbs x : nearly_digits x -> limbs (2 ^ 27) x.
Proof.
  intros (x0 & xs & -> & Hl & Hx & Hxs). split; [simpl; lia|]. constructor; [lia|].
  apply Forall_lookup_2. intros i l Hi. pose proof (Hxs i l Hi). pose proof (pow_width_bounds (S i)). lia.
Qed.

(** The third borrow of the first limb finds nothing to do. *)
Lemma borrow_plain x : plain x -> borrow x 0 = x.
Proof.
  intros [Hl Hx]. destruct x as [|a [|b x]]; [done..|].
  apply Forall_cons in Hx as [Ha Hx]. apply Forall_cons in Hx as [Hb _].
  pose proof (borrow_moves [] a b x ltac:(lia) ltac:(lia)) as E. cbv zeta in E. cbn [app length] in E. rewrite E.
  unfold borrow_units. destruct (Z.ltb_spec a 0); [lia|]. by rewrite Z.mul_0_l, Z.sub_0_r, Z.add_0_r.
Qed.

Lemma normalise_spec x : limbs (2 ^ 26 - 1) x -> digits (normalise x) /\ eval (normalise x) == eval x.
Proof.
  intros Hx. pose proof Hx as [Hl _]. unfold normalise. cbv zeta.
  rewrite (borrow_pass_steps x) by (by eapply limbs_weaken; [|exact Hx]).
  pose proof (borrow_pass_1 x Hx) as H1. destruct (pass_value borrow_units x Hl) as [L1 E1].
  set (y1 := wrap_around _ _) in *. rewrite (borrow_pass_steps y1) by (by apply nearly_plain_limbs).
  pose proof (borrow_pass_2 y1 H1) as H2. destruct (pass_value borrow_units y1 L1) as [L2 E2].
  set (y2 := wrap_around 19 (steps borrow_units 0 y1 0)) in *. rewrite borrow_plain by done.
  rewrite (carry_pass_steps y2) by (by apply plain_limbs).
  pose proof (carry_pass_1 y2 H2) as H3. destruct (pass_value carry_units y2 L2) as [L3 E3].
  set (y3 := wrap_around 19 (steps carry_units 0 y2 0)) in *. rewrite carry_pass_steps by (by apply nearly_digits_limbs).
  destruct (pass_value carry_units y3 L3) as [L4 E4]. split; [by apply carry_pass_2|].
  by rewrite E4, E3, E2, E1.
Qed.

(* ------------------------------------------------------------------ *)
(** ** The comparisons *)

(** All ones or zero. *)
Definition m2z (b : bool) : Z := if b then -1 else 0.

Lemma land_m2z a b : Z.land (m2z a) (m2z b) = m2z (a && b).
Proof. by destruct a, b. Qed.

Lemma s32_gte_spec a b : 0 <= a < 2 ^ 31 -> 0 <= b < 2 ^ 31 -> s32_gte a b = m2z (b <=? a).
Proof.
  intros Ha Hb. unfold s32_gte. cbv zeta. rewrite i32_small, Z.shiftr_div_pow2 by lia.
  destruct (Z.leb_spec b a); cbn [m2z].
  - by rewrite Z.div_small by lia.
  - replace ((a - b) / 2 ^ 31) with (-1) by (apply Z.div_unique with (a - b + 2 ^ 31); lia). done.
Qed.

Lemma i32_testbit z j : 0 <= j < 32 -> Z.testbit (i32 z) j = Z.testbit z j.
Proof.
  intros Hj. rewrite <- (Z.mod_pow2_bits_low (i32 z) 32), <- (Z.mod_pow2_bits_low z 32) by lia.
  f_equal. unfold i32. rewrite Zminus_mod_idemp_l. f_equal. lia.
Qed.

(** The upper [n + k] bits, when the upper [n] bits of [a & (a << k)] are set. *)
Lemma fold_bits a k n : 0 < k <= n -> n + k <= 32 ->
  (forall j, 32 - n <= j < 32 -> Z.testbit (Z.land a (i32 (Z.shiftl a k))) j = true) ->
  forall j, 32 - n - k <= j < 32 -> Z.testbit a j = true.
Proof.
  intros Hk Hn H j Hj. destruct (Z.le_gt_cases (32 - n) j).
  - specialize (H j ltac:(lia)). rewrite Z.land_spec in H. by apply andb_true_iff in H as [? _].
  - specialize (H (j + k) ltac:(lia)). rewrite Z.land_spec, i32_testbit, Z.shiftl_spec, Z.add_simpl_r in H by lia.
    by apply andb_true_iff in H as [_ ?].
Qed.

Lemma sign_bit a : - 2 ^ 31 <= a < 2 ^ 31 -> Z.shiftr a 31 = m2z (Z.testbit a 31).
Proof.
  intros Ha. rewrite Z.shiftr_div_pow2 by done. destruct (Z.lt_ge_cases a 0).
  - replace (a / 2 ^ 31) with (-1) by (apply Z.div_unique with (a + 2 ^ 31); lia).
    rewrite <- (Z.mod_pow2_bits_low a 32) by lia.
    replace (a mod 2 ^ 32) with (a + 2 ^ 32) by (apply Z.mod_unique with (-1); lia).
    assert (Z.testbit (a + 2 ^ 32) 31 = true) as ->; [|done].
    apply Z.testbit_true; [done|]. replace ((a + 2 ^ 32) / 2 ^ 31) with 1; [done|].
    apply Z.div_unique with (a + 2 ^ 31); lia.
  - rewrite Z.div_small by lia. by rewrite (testbit_above a 31) by lia.
Qed.

Lemma land_i32_range a b : - 2 ^ 31 <= a < 2 ^ 31 -> - 2 ^ 31 <= Z.land a (i32 b) < 2 ^ 31.
Proof.
  intros Ha. assert (forall z, - 2 ^ 31 <= z < 2 ^ 31 -> Z.shiftr z 31 = 0 \/ Z.shiftr z 31 = -1) as Hs.
  { intros z Hz. rewrite sign_bit by done. destruct (Z.testbit z 31); cbn; auto. }
  assert (- 2 ^ 31 <= i32 b < 2 ^ 31) as Hb.
  { unfold i32. pose proof (Z.mod_pos_bound (b + 2 ^ 31) (2 ^ 32) ltac:(lia)). lia. }
  assert (Z.shiftr (Z.land a (i32 b)) 31 = 0 \/ Z.shiftr (Z.land a (i32 b)) 31 = -1) as H.
  { rewrite Z.shiftr_land. destruct (Hs a Ha) as [-> | ->], (Hs (i32 b) Hb) as [-> | ->]; cbn; auto. }
  rewrite Z.shiftr_div_pow2 in H by done.
  pose proof (Z.div_mod (Z.land a (i32 b)) (2 ^ 31) ltac:(done)).
  pose proof (Z.mod_pos_bound (Z.land a (i32 b)) (2 ^ 31) ltac:(lia)). lia.
Qed.

Lemma s32_eq_spec a b : 0 <= a < 2 ^ 31 -> 0 <= b < 2 ^ 31 -> s32_eq a b = m2z (a =? b).
Proof.
  intros Ha Hb. unfold s32_eq. cbv zeta. destruct (Z.eqb_spec a b) as [->|Hne].
  { by rewrite Z.lxor_nilpotent. }
  assert (0 <= Z.lxor a b < 2 ^ 31) as Hx.
  { split; [by apply Z.lxor_nonneg; lia|]. destruct (Z.eq_dec (Z.lxor a b) 0) as [->|Hn]; [lia|].
    apply Z.log2_lt_pow2; [pose proof (proj2 (Z.lxor_nonneg a b)); lia|].
    pose proof (Z.log2_lxor a b ltac:(lia) ltac:(lia)).
    assert (forall z, 0 <= z < 2 ^ 31 -> Z.log2 z < 31) as Hlog.
    { intros z Hz. destruct (Z.eq_dec z 0) as [->|]; [done|]. apply Z.log2_lt_pow2; lia. }
    pose proof (Hlog a Ha). pose proof (Hlog b Hb). lia. }
  set (t := Z.lnot (Z.lxor a b)). assert (- 2 ^ 31 <= t < 2 ^ 31) as Ht by (unfold t, Z.lnot; lia).
  set (t1 := Z.land t (i32 (Z.shiftl t 16))). pose proof (land_i32_range t (Z.shiftl t 16) Ht) as Ht1. fold t1 in Ht1.
  set (t2 := Z.land t1 (i32 (Z.shiftl t1 8))). pose proof (land_i32_range t1 (Z.shiftl t1 8) Ht1) as Ht2. fold t2 in Ht2.
  set (t3 := Z.land t2 (i32 (Z.shiftl t2 4))). pose proof (land_i32_range t2 (Z.shiftl t2 4) Ht2) as Ht3. fold t3 in Ht3.
  set (t4 := Z.land t3 (i32 (Z.shiftl t3 2))). pose proof (land_i32_range t3 (Z.shiftl t3 2) Ht3) as Ht4. fold t4 in Ht4.
  set (t5 := Z.land t4 (i32 (Z.shiftl t4 1))). pose proof (land_i32_range t4 (Z.shiftl t4 1) Ht4) as Ht5. fold t5 in Ht5.
  rewrite sign_bit by done. destruct (Z.testbit t5 31) eqn:E; [|done]. exfalso. apply Hne.
  assert (forall j, 0 <= j < 32 -> Z.testbit t j = true) as Hall.
  { apply (fold_bits t 16 16); [lia..|]. apply (fold_bits t1 8 8); [lia..|]. apply (fold_bits t2 4 4); [lia..|].
    apply (fold_bits t3 2 2); [lia..|]. apply (fold_bits t4 1 1); [lia..|].
    intros j Hj. by replace j with 31 by lia. }
  apply Z.lxor_eq. apply Z.bits_inj'. intros j Hj. rewrite Z.bits_0.
  destruct (Z.lt_ge_cases j 31) as [Hlt|]; [|by rewrite (testbit_above _ 31) by lia].
  specialize (Hall j ltac:(lia)). unfold t in Hall. rewrite Z.lnot_spec in Hall by done.
  by apply negb_true_iff in Hall.
Qed.

(* ------------------------------------------------------------------ *)
(** ** The subtraction of the prime *)

Lemma digits_inv x : digits x -> exists x0 x1 x2 x3 x4 x5 x6 x7 x8 x9,
  x = [x0; x1; x2; x3; x4; x5; x6; x7; x8; x9] /\
  0 <= x0 < 2 ^ 26 /\ 0 <= x1 < 2 ^ 25 /\ 0 <= x2 < 2 ^ 26 /\ 0 <= x3 < 2 ^ 25 /\ 0 <= x4 < 2 ^ 26 /\
  0 <= x5 < 2 ^ 25 /\ 0 <= x6 < 2 ^ 26 /\ 0 <= x7 < 2 ^ 25 /\ 0 <= x8 < 2 ^ 26 /\ 0 <= x9 < 2 ^ 25.
Proof.
  intros [Hl Hx]. destruct (ten_limbs x Hl) as (x0&x1&x2&x3&x4&x5&x6&x7&x8&x9&->).
  exists x0, x1, x2, x3, x4, x5, x6, x7, x8, x9.
  exact (conj eq_refl (conj (Hx 0%nat _ eq_refl) (conj (Hx 1%nat _ eq_refl) (conj (Hx 2%nat _ eq_refl)
    (conj (Hx 3%nat _ eq_refl) (conj (Hx 4%nat _ eq_refl) (conj (Hx 5%nat _ eq_refl) (conj (Hx 6%nat _ eq_refl)
    (conj (Hx 7%nat _ eq_refl) (conj (Hx 8%nat _ eq_refl) (Hx 9%nat _ eq_refl))))))))))).
Qed.

(** The mask is set when the digits are those of a number of at least the prime. *)
Lemma subtract_mask_spec x0 x1 x2 x3 x4 x5 x6 x7 x8 x9 : digits [x0; x1; x2; x3; x4; x5; x6; x7; x8; x9] ->
  subtract_mask [x0; x1; x2; x3; x4; x5; x6; x7; x8; x9] =
  m2z ((LOW_LIMB <=? x0) && (x1 =? MASK_25) && (x2 =? MASK_26) && (x3 =? MASK_25) && (x4 =? MASK_26) &&
       (x5 =? MASK_25) && (x6 =? MASK_26) && (x7 =? MASK_25) && (x8 =? MASK_26) && (x9 =? MASK_25)).
Proof.
  intros (?&?&?&?&?&?&?&?&?&?&[= <- <- <- <- <- <- <- <- <- <-]&H0&H1&H2&H3&H4&H5&H6&H7&H8&H9)%digits_inv.
  unfold subtract_mask, at_, limb_mask. cbn [seq foldl nth Nat.odd Nat.even negb].
  assert (0 <= MASK_25 < 2 ^ 31) by done. assert (0 <= MASK_26 < 2 ^ 31) by done. assert (0 <= LOW_LIMB < 2 ^ 31) by done.
  assert (forall z, 0 <= z < 2 ^ 25 -> 0 <= z < 2 ^ 31) as W25 by lia.
  assert (forall z, 0 <= z < 2 ^ 26 -> 0 <= z < 2 ^ 31) as W26 by lia.
  rewrite s32_gte_spec by auto. rewrite !s32_eq_spec by auto. by rewrite !land_m2z.
Qed.

Lemma digits_intro x0 x1 x2 x3 x4 x5 x6 x7 x8 x9 :
  0 <= x0 < 2 ^ 26 -> 0 <= x1 < 2 ^ 25 -> 0 <= x2 < 2 ^ 26 -> 0 <= x3 < 2 ^ 25 -> 0 <= x4 < 2 ^ 26 ->
  0 <= x5 < 2 ^ 25 -> 0 <= x6 < 2 ^ 26 -> 0 <= x7 < 2 ^ 25 -> 0 <= x8 < 2 ^ 26 -> 0 <= x9 < 2 ^ 25 ->
  digits [x0; x1; x2; x3; x4; x5; x6; x7; x8; x9].
Proof. intros. split; [done|]. intros i l Hi. do 10 (destruct i as [|i]; [by injection Hi as <-|]). done. Qed.

Lemma subtract_p_spec x : digits x -> digits (subtract_p x) /\ eval (subtract_p x) = eval x mod p25519.
Proof.
  intros Hx. pose proof Hx as (x0&x1&x2&x3&x4&x5&x6&x7&x8&x9&->&H0&H1&H2&H3&H4&H5&H6&H7&H8&H9)%digits_inv.
  unfold subtract_p. cbv zeta. rewrite subtract_mask_spec by done.
  unfold limb_mask. cbn [seq zip_with Nat.eqb Nat.odd Nat.even negb].
  destruct ((LOW_LIMB <=? x0) && _ && _ && _ && _ && _ && _ && _ && _ && _) eqn:E; cbn [m2z].
  - rewrite !Z.land_m1_l. rewrite !andb_true_iff, Z.leb_le, !Z.eqb_eq in E.
    destruct E as (((((((((E0 & ->) & ->) & ->) & ->) & ->) & ->) & ->) & ->) & ->).
    clear - H0 E0. rewrite !Z.sub_diag, (i32_small (x0 - _)) by (unfold LOW_LIMB in *; lia).
    change (i32 0) with 0. split; [apply digits_intro; unfold LOW_LIMB in *; lia|].
    apply Z.mod_unique with 1; [left|]; unfold eval, p25519, LOW_LIMB, MASK_25, MASK_26 in *;
      let w := eval vm_compute in weights in change weights with w; cbn [zip_with foldr]; lia.
  - rewrite !Z.land_0_l, !Z.sub_0_r. rewrite !i32_small by (rewrite Z.abs_eq by (clear E; lia); clear E; lia).
    split; [done|]. symmetry. apply Z.mod_small.
    unfold eval, p25519; let w := eval vm_compute in weights in change weights with w; cbn [zip_with foldr].
    split; [lia|]. unfold LOW_LIMB, MASK_25, MASK_26 in *.
    rewrite !andb_false_iff, Z.leb_gt, !Z.eqb_neq in E.
    destruct E as [[[[[[[[[E|E]|E]|E]|E]|E]|E]|E]|E]|E]; lia.
Qed.

(* ------------------------------------------------------------------ *)
(** ** Writing *)

(** A byte of a limb shifted into place; the sign of the [s32] does not matter. *)
Lemma byte_of_i32 y k : 0 <= k <= 24 -> Z.land (Z.shiftr (i32 y) k) 255 = (y / 2 ^ k) mod 2 ^ 8.
Proof.
  intros Hk. change 255 with (Z.ones 8). rewrite Z.land_ones, Z.shiftr_div_pow2 by lia.
  rewrite <- (mod_div_mod (i32 y) k 8 32), <- (mod_div_mod y k 8 32) by lia. do 2 f_equal.
  unfold i32. rewrite Zminus_mod_idemp_l. f_equal. lia.
Qed.

Lemma insert_four (pre : list Z) a b c d post v0 v1 v2 v3 :
  <[(length pre + 3)%nat := v3]> (<[(length pre + 2)%nat := v2]> (<[(length pre + 1)%nat := v1]>
    (<[length pre := v0]> (pre ++ a :: b :: c :: d :: post)))) = pre ++ v0 :: v1 :: v2 :: v3 :: post.
Proof.
  rewrite <- (Nat.add_0_r (length pre)) at 4. rewrite !insert_app_r. done.
Qed.

(** A limb of [w] bits shifted by [sh] over the [sh] bits the limb before it left. *)
Lemma write_limb_spec pre a o1 o2 o3 post x sh w : 0 <= sh -> 24 <= w + sh <= 32 ->
  0 <= sh <= 8 -> 0 <= a < 2 ^ sh -> 0 <= x < 2 ^ w -> exists b0 b1 b2 b3,
    write_limb (pre ++ a :: o1 :: o2 :: o3 :: post) (i32 (Z.shiftl x sh)) (length pre) =
      pre ++ b0 :: b1 :: b2 :: b3 :: post /\
    0 <= b0 < 256 /\ 0 <= b1 < 256 /\ 0 <= b2 < 256 /\ 0 <= b3 < 2 ^ (w + sh - 24) /\
    b0 + 256 * b1 + 256 ^ 2 * b2 + 256 ^ 3 * b3 = a + 2 ^ sh * x.
Proof.
  intros Hs Hw Hs8 Ha Hx. unfold write_limb. cbv zeta. rewrite at_middle, insert_four.
  set (y := Z.shiftl x sh). assert (y = x * 2 ^ sh) as Hy by (apply Z.shiftl_mul_pow2; lia).
  assert (0 <= y < 2 ^ 32) as Hyr.
  { rewrite Hy. split; [apply Z.mul_nonneg_nonneg; lia|]. eapply Z.lt_le_trans with (2 ^ w * 2 ^ sh).
    - apply Z.mul_lt_mono_pos_r; lia.
    - rewrite <- Z.pow_add_r by lia. apply Z.pow_le_mono_r; lia. }
  rewrite !byte_of_i32 by lia. pose proof (byte_of_i32 y 0 ltac:(lia)) as E0.
  rewrite Z.shiftr_0_r, Z.div_1_r in E0. rewrite E0. clear E0.
  assert (exists z, y mod 2 ^ 8 = z * 2 ^ sh /\ 0 <= z < 2 ^ (8 - sh)) as (z & Ez & Hz).
  { exists (x mod 2 ^ (8 - sh)). split; [|apply Z.mod_pos_bound; lia].
    rewrite Hy. replace (2 ^ 8) with (2 ^ (8 - sh) * 2 ^ sh) by (rewrite <- Z.pow_add_r by lia; f_equal; lia).
    apply Zmult_mod_distr_r. }
  rewrite Ez, <- Z.shiftl_mul_pow2, lor_shiftl by lia.
  pose proof (Z.mod_pos_bound y (2 ^ 8) ltac:(lia)) as Hm.
  assert (0 <= a + z * 2 ^ sh < 256) as Hb0.
  { split; [lia|]. apply Z.lt_le_trans with (2 ^ sh + z * 2 ^ sh); [lia|].
    replace 256 with (2 ^ (8 - sh) * 2 ^ sh) by (rewrite <- Z.pow_add_r by lia; change 256 with (2 ^ 8); f_equal; lia).
    replace (2 ^ sh + z * 2 ^ sh) with ((z + 1) * 2 ^ sh) by ring. apply Z.mul_le_mono_nonneg_r; lia. }
  change 255 with (Z.ones 8). rewrite Z.land_ones, Z.mod_small by lia.
  eexists _, _, _, _. split; [reflexivity|].
  split; [done|]. split; [apply Z.mod_pos_bound; lia|]. split; [apply Z.mod_pos_bound; lia|]. split.
  - assert (0 <= y / 2 ^ 24 < 2 ^ (w + sh - 24)) as H24.
    { split; [apply Z.div_pos; lia|]. apply Z.div_lt_upper_bound; [lia|]. rewrite <- Z.pow_add_r by lia.
      replace (24 + (w + sh - 24)) with (w + sh) by lia. rewrite Z.pow_add_r, Hy by lia.
      apply Z.mul_lt_mono_pos_r; lia. }
    rewrite Z.mod_small; [done|]. split; [lia|]. eapply Z.lt_le_trans; [apply H24|]. apply Z.pow_le_mono_r; lia.
  - rewrite <- Ez. replace (2 ^ sh * x) with (y mod 2 ^ 32) by (rewrite Z.mod_small by done; lia).
    change 32 with (8 + (8 + (8 + 8))). rewrite !mod_split, !div_pow by lia.
    change (8 + 8 + 8) with 24. change (8 + 8) with 16. lia.
Qed.

Lemma le_val_map_u8 l : Forall (fun b => 0 <= b < 256) l ->
  le_val (map u8 l) = foldr (fun b v => b + 256 * v) 0 l.
Proof.
  induction 1 as [|b l Hb _ IH]; [done|]. cbn [map le_val foldr]. by rewrite byte_val_u8, IH, Z.mod_small.
Qed.

Lemma byte_below n b : 0 <= n <= 8 -> 0 <= b < 2 ^ n -> 0 <= b < 256.
Proof. intros Hn Hb. pose proof (Z.pow_le_mono_r 2 n 8). lia. Qed.

Lemma write_limbs_spec x : digits x -> map u8 (write_limbs x) = le_bytes 32 (eval x).
Proof.
  intros (x0&x1&x2&x3&x4&x5&x6&x7&x8&x9&->&L0&L1&L2&L3&L4&L5&L6&L7&L8&L9)%digits_inv.
  unfold write_limbs, limb_places. cbn [zip zip_with foldl fst snd repeat].
  destruct (write_limb_spec [] 0 0 0 0
    (repeat 0 28) x0 0 26) as (a0&a1&a2&a3&E&A0&A1&A2&A3&EA); [done..|].
  cbn [app length repeat] in E. rewrite E. clear E.
  destruct (write_limb_spec [a0; a1; a2] a3 0 0 0
    (repeat 0 25) x1 2 25) as (b0&b1&b2&b3&E&B0&B1&B2&B3&EB); [done..|].
  cbn [app length repeat] in E. rewrite E. clear E.
  destruct (write_limb_spec [a0; a1; a2; b0; b1; b2] b3 0 0 0
    (repeat 0 22) x2 3 26) as (c0&c1&c2&c3&E&C0&C1&C2&C3&EC); [done..|].
  cbn [app length repeat] in E. rewrite E. clear E.
  destruct (write_limb_spec [a0; a1; a2; b0; b1; b2; c0; c1; c2] c3 0 0 0
    (repeat 0 19) x3 5 25) as (d0&d1&d2&d3&E&D0&D1&D2&D3&ED); [done..|].
  cbn [app length repeat] in E. rewrite E. clear E.
  destruct (write_limb_spec [a0; a1; a2; b0; b1; b2; c0; c1; c2; d0; d1; d2] d3 0 0 0
    (repeat 0 16) x4 6 26) as (e0&e1&e2&e3&E&E0&E1&E2&E3&EE); [done..|].
  cbn [app length repeat] in E. rewrite E. clear E.
  destruct (write_limb_spec [a0; a1; a2; b0; b1; b2; c0; c1; c2; d0; d1; d2; e0; e1; e2; e3] 0 0 0 0
    (repeat 0 12) x5 0 25) as (f0&f1&f2&f3&E&F0&F1&F2&F3&EF); [done..|].
  cbn [app length repeat] in E. rewrite E. clear E.
  destruct (write_limb_spec [a0; a1; a2; b0; b1; b2; c0; c1; c2; d0; d1; d2; e0; e1; e2; e3; f0; f1; f2] f3 0 0 0
    (repeat 0 9) x6 1 26) as (g0&g1&g2&g3&E&G0&G1&G2&G3&EG); [done..|].
  cbn [app length repeat] in E. rewrite E. clear E.
  destruct (write_limb_spec [a0; a1; a2; b0; b1; b2; c0; c1; c2; d0; d1; d2; e0; e1; e2; e3; f0; f1; f2; g0; g1; g2] g3 0 0 0
    (repeat 0 6) x7 3 25) as (h0&h1&h2&h3&E&H0&H1&H2&H3&EH); [done..|].
  cbn [app length repeat] in E. rewrite E. clear E.
  destruct (write_limb_spec [a0; a1; a2; b0; b1; b2; c0; c1; c2; d0; d1; d2; e0; e1; e2; e3; f0; f1; f2; g0; g1; g2; h0; h1; h2] h3 0 0 0
    (repeat 0 3) x8 4 26) as (i0&i1&i2&i3&E&I0&I1&I2&I3&EI); [done..|].
  cbn [app length repeat] in E. rewrite E. clear E.
  destruct (write_limb_spec [a0; a1; a2; b0; b1; b2; c0; c1; c2; d0; d1; d2; e0; e1; e2; e3; f0; f1; f2; g0; g1; g2; h0; h1; h2; i0; i1; i2] i3 0 0 0
    (repeat 0 0) x9 6 25) as (j0&j1&j2&j3&E&J0&J1&J2&J3&EJ); [done..|].
  cbn [app length repeat] in E. rewrite E. clear E.
  match goal with |- map u8 ?l = _ => assert (Forall (fun b => 0 <= b < 256) l) as Hb end.
  { repeat (constructor; [first [eassumption|eapply byte_below; [|eassumption]; done]|]). constructor. }
  rewrite <- (le_bytes_le_val (map u8 _)). rewrite le_val_map_u8 by done. cbn [map length]. f_equal.
  cbn [foldr]. unfold eval. let w := eval vm_compute in weights in change weights with w. cbn [zip_with foldr].
  clear - EA EB EC ED EE EF EG EH EI EJ. lia.
Qed.

Lemma fcontract_spec x v : reduced x v -> fcontract x = le_bytes 32 (v mod p25519).
Proof.
  intros [Hx Hv]. unfold fcontract. cbv zeta.
  assert (map i32 (take 10 x) = take 10 x) as ->.
  { destruct Hx as [_ Hx]. clear - Hx. induction Hx as [|l y Hl _ IH]; [done|].
    cbn [map]. rewrite IH, i32_small; [done|]. simpl in Hl. lia. }
  destruct (normalise_spec _ Hx) as [Hd He]. destruct (subtract_p_spec _ Hd) as [Hd' He'].
  rewrite write_limbs_spec by done. f_equal. rewrite He'. unfold feq in *. congruence.
Qed.

(* ------------------------------------------------------------------ *)
(** ** The whole function *)

Lemma donna_spec secret basepoint :
  donna secret basepoint = le_bytes 32 (X25519 (le_val secret) (le_val basepoint mod 2 ^ 255)).
Proof.
  unfold donna. pose proof (fexpand_spec basepoint) as Hq. cbv zeta.
  pose proof (cmult_spec secret _ _ Hq) as H. destruct (cmult _ _) as [x z]. unfold X25519.
  destruct (ladder _ _ _ _) as [[x2 z2] s]. destruct H as [Hx Hz].
  rewrite (fcontract_spec _ (x2 * z2 ^ (p25519 - 2))); [done|].
  apply fmul_repr; auto using crecip_spec with field.
Qed.
