(* ===== verification/Fe.v ===== *)
(** Field elements of curve25519/ed25519 (fe_*.c and additions/fe_*.c): ten limbs
    of 26 and 25 bits in 32-bit integers, with rounding carries in 64 bits. *)

From S2P Require Import Prelude Buffers Crypto Limbs Scalar Donna.

Abbreviation fe := (list Z).

Definition fe_0 : fe := repeat 0 10.
Definition fe_1 : fe := 1 :: repeat 0 9.

Definition fe_add (f g : fe) : fe := zip_with (fun f g => i32 (f + g)) (take 10 f) (take 10 g).
Definition fe_sub (f g : fe) : fe := zip_with (fun f g => i32 (f - g)) (take 10 f) (take 10 g).
Definition fe_neg (f : fe) : fe := map (fun f => i32 (- f)) (take 10 f).

(** [b] is an [unsigned int], 0 or 1; [b = -b] is a mask. *)
Definition fe_cmov (f g : fe) (b : Z) : fe :=
  let b := u32 (- b) in
  zip_with (fun f g => Z.lxor f (i32 (Z.land (u32 (Z.lxor f g)) b))) (take 10 f) (take 10 g).

(* ------------------------------------------------------------------ *)
(** ** Products *)

Definition fe_products (f g : fe) : list Z :=
  let f0 := at_ f 0 in let f1 := at_ f 1 in let f2 := at_ f 2 in let f3 := at_ f 3 in let f4 := at_ f 4 in
  let f5 := at_ f 5 in let f6 := at_ f 6 in let f7 := at_ f 7 in let f8 := at_ f 8 in let f9 := at_ f 9 in
  let g0 := at_ g 0 in let g1 := at_ g 1 in let g2 := at_ g 2 in let g3 := at_ g 3 in let g4 := at_ g 4 in
  let g5 := at_ g 5 in let g6 := at_ g 6 in let g7 := at_ g 7 in let g8 := at_ g 8 in let g9 := at_ g 9 in
  let g1_19 := i32 (19 * g1) in let g2_19 := i32 (19 * g2) in let g3_19 := i32 (19 * g3) in let g4_19 := i32 (19 * g4) in
  let g5_19 := i32 (19 * g5) in let g6_19 := i32 (19 * g6) in let g7_19 := i32 (19 * g7) in let g8_19 := i32 (19 * g8) in
  let g9_19 := i32 (19 * g9) in let f1_2 := i32 (2 * f1) in let f3_2 := i32 (2 * f3) in let f5_2 := i32 (2 * f5) in
  let f7_2 := i32 (2 * f7) in let f9_2 := i32 (2 * f9) in
  map i64
    [f0 * g0 + f1_2 * g9_19 + f2 * g8_19 + f3_2 * g7_19 + f4 * g6_19 + f5_2 * g5_19 + f6 * g4_19 + f7_2 * g3_19 +
     f8 * g2_19 + f9_2 * g1_19;
     f0 * g1 + f1 * g0 + f2 * g9_19 + f3 * g8_19 + f4 * g7_19 + f5 * g6_19 + f6 * g5_19 + f7 * g4_19 + f8 * g3_19 +
     f9 * g2_19;
     f0 * g2 + f1_2 * g1 + f2 * g0 + f3_2 * g9_19 + f4 * g8_19 + f5_2 * g7_19 + f6 * g6_19 + f7_2 * g5_19 +
     f8 * g4_19 + f9_2 * g3_19;
     f0 * g3 + f1 * g2 + f2 * g1 + f3 * g0 + f4 * g9_19 + f5 * g8_19 + f6 * g7_19 + f7 * g6_19 + f8 * g5_19 +
     f9 * g4_19;
     f0 * g4 + f1_2 * g3 + f2 * g2 + f3_2 * g1 + f4 * g0 + f5_2 * g9_19 + f6 * g8_19 + f7_2 * g7_19 + f8 * g6_19 +
     f9_2 * g5_19;
     f0 * g5 + f1 * g4 + f2 * g3 + f3 * g2 + f4 * g1 + f5 * g0 + f6 * g9_19 + f7 * g8_19 + f8 * g7_19 + f9 * g6_19;
     f0 * g6 + f1_2 * g5 + f2 * g4 + f3_2 * g3 + f4 * g2 + f5_2 * g1 + f6 * g0 + f7_2 * g9_19 + f8 * g8_19 +
     f9_2 * g7_19;
     f0 * g7 + f1 * g6 + f2 * g5 + f3 * g4 + f4 * g3 + f5 * g2 + f6 * g1 + f7 * g0 + f8 * g9_19 + f9 * g8_19;
     f0 * g8 + f1_2 * g7 + f2 * g6 + f3_2 * g5 + f4 * g4 + f5_2 * g3 + f6 * g2 + f7_2 * g1 + f8 * g0 + f9_2 * g9_19;
     f0 * g9 + f1 * g8 + f2 * g7 + f3 * g6 + f4 * g5 + f5 * g4 + f6 * g3 + f7 * g2 + f8 * g1 + f9 * g0].

Definition fe_squares (f : fe) : list Z :=
  let f0 := at_ f 0 in let f1 := at_ f 1 in let f2 := at_ f 2 in let f3 := at_ f 3 in let f4 := at_ f 4 in
  let f5 := at_ f 5 in let f6 := at_ f 6 in let f7 := at_ f 7 in let f8 := at_ f 8 in let f9 := at_ f 9 in
  let f0_2 := i32 (2 * f0) in let f1_2 := i32 (2 * f1) in let f2_2 := i32 (2 * f2) in let f3_2 := i32 (2 * f3) in
  let f4_2 := i32 (2 * f4) in let f5_2 := i32 (2 * f5) in let f6_2 := i32 (2 * f6) in let f7_2 := i32 (2 * f7) in
  let f5_38 := i32 (38 * f5) in let f6_19 := i32 (19 * f6) in let f7_38 := i32 (38 * f7) in let f8_19 := i32 (19 * f8) in
  let f9_38 := i32 (38 * f9) in
  map i64
    [f0 * f0 + f1_2 * f9_38 + f2_2 * f8_19 + f3_2 * f7_38 + f4_2 * f6_19 + f5 * f5_38;
     f0_2 * f1 + f2 * f9_38 + f3_2 * f8_19 + f4 * f7_38 + f5_2 * f6_19;
     f0_2 * f2 + f1_2 * f1 + f3_2 * f9_38 + f4_2 * f8_19 + f5_2 * f7_38 + f6 * f6_19;
     f0_2 * f3 + f1_2 * f2 + f4 * f9_38 + f5_2 * f8_19 + f6 * f7_38;
     f0_2 * f4 + f1_2 * f3_2 + f2 * f2 + f5_2 * f9_38 + f6_2 * f8_19 + f7 * f7_38;
     f0_2 * f5 + f1_2 * f4 + f2_2 * f3 + f6 * f9_38 + f7_2 * f8_19;
     f0_2 * f6 + f1_2 * f5_2 + f2_2 * f4 + f3_2 * f3 + f7_2 * f9_38 + f8 * f8_19;
     f0_2 * f7 + f1_2 * f6 + f2_2 * f5 + f3_2 * f4 + f8 * f9_38;
     f0_2 * f8 + f1_2 * f7_2 + f2_2 * f6 + f3_2 * f5_2 + f4 * f4 + f9 * f9_38;
     f0_2 * f9 + f1_2 * f8 + f2_2 * f7 + f3_2 * f6 + f4_2 * f5].

(** [carry = (h_i + (1 << (w - 1))) >> w; h_(i+1) += carry; h_i -= carry << w;], and
    from the last limb [h_0 += carry * 19;]. *)
Definition fe_carry (i : nat) : step :=
  if (i =? 9)%nat then Carry (2 ^ 24) 25 9 0 19 else Carry (2 ^ (width i - 1)) (width i) i (S i) 1.

Definition mul_carries : list step := map fe_carry [0; 4; 1; 5; 2; 6; 3; 7; 4; 8; 9; 0]%nat.

Definition fe_mul (f g : fe) : fe := map i32 (run mul_carries (fe_products f g)).
Definition fe_sq (f : fe) : fe := map i32 (run mul_carries (fe_squares f)).
Definition fe_sq2 (f : fe) : fe := map i32 (run mul_carries (map (fun h => i64 (h + h)) (fe_squares f))).

(* ------------------------------------------------------------------ *)
(** ** Bytes *)

Definition fe_limbs (s : bytes) : list Z :=
  [load_4 s 0; Z.shiftl (load_3 s 4) 6; Z.shiftl (load_3 s 7) 5;
   Z.shiftl (load_3 s 10) 3; Z.shiftl (load_3 s 13) 2; load_4 s 16;
   Z.shiftl (load_3 s 20) 7; Z.shiftl (load_3 s 23) 5; Z.shiftl (load_3 s 26) 4;
   Z.shiftl (Z.land (load_3 s 29) 8388607) 2].

Definition fe_frombytes (s : bytes) : fe :=
  map i32 (run (map fe_carry [9; 1; 3; 5; 7; 0; 2; 4; 6; 8]%nat) (fe_limbs s)).

(** [q = (h_i + q) >> w] *)
Definition fe_quotient (h : fe) : Z :=
  foldl (fun q i => Z.shiftr (i32 (at_ h i + q)) (width i))
    (Z.shiftr (i32 (i32 (19 * at_ h 9) + 2 ^ 24)) 25) (seq 0 10).

(** [carry = h_i >> w; h_(i+1) += carry; h_i -= carry << w;], in 32 bits. *)
Definition fe_floor (h : fe) (i : nat) : fe :=
  let carry := Z.shiftr (at_ h i) (width i) in
  let h := <[i := i32 (at_ h i - i32 (Z.shiftl carry (width i)))]> h in
  <[S i := i32 (at_ h (S i) + carry)]> h.
Definition fe_floor_last (h : fe) : fe :=
  let carry := Z.shiftr (at_ h 9) 25 in
  <[9%nat := i32 (at_ h 9 - i32 (Z.shiftl carry 25))]> h.

Definition fe_store (h : fe) : bytes :=
  let h0 := at_ h 0 in let h1 := at_ h 1 in let h2 := at_ h 2 in let h3 := at_ h 3 in let h4 := at_ h 4 in
  let h5 := at_ h 5 in let h6 := at_ h 6 in let h7 := at_ h 7 in let h8 := at_ h 8 in let h9 := at_ h 9 in
  map u8
  [Z.shiftr h0 0; Z.shiftr h0 8;
   Z.shiftr h0 16; Z.lor (Z.shiftr h0 24) (Z.shiftl h1 2);
   Z.shiftr h1 6; Z.shiftr h1 14;
   Z.lor (Z.shiftr h1 22) (Z.shiftl h2 3); Z.shiftr h2 5;
   Z.shiftr h2 13; Z.lor (Z.shiftr h2 21) (Z.shiftl h3 5);
   Z.shiftr h3 3; Z.shiftr h3 11;
   Z.lor (Z.shiftr h3 19) (Z.shiftl h4 6); Z.shiftr h4 2;
   Z.shiftr h4 10; Z.shiftr h4 18;
   Z.shiftr h5 0; Z.shiftr h5 8;
   Z.shiftr h5 16; Z.lor (Z.shiftr h5 24) (Z.shiftl h6 1);
   Z.shiftr h6 7; Z.shiftr h6 15;
   Z.lor (Z.shiftr h6 23) (Z.shiftl h7 3); Z.shiftr h7 5;
   Z.shiftr h7 13; Z.lor (Z.shiftr h7 21) (Z.shiftl h8 4);
   Z.shiftr h8 4; Z.shiftr h8 12;
   Z.lor (Z.shiftr h8 20) (Z.shiftl h9 6); Z.shiftr h9 2;
   Z.shiftr h9 10; Z.shiftr h9 18].

Definition fe_tobytes (h : fe) : bytes :=
  let q := fe_quotient h in
  let h := <[0%nat := i32 (at_ h 0 + i32 (19 * q))]> h in
  fe_store (fe_floor_last (foldl fe_floor h (seq 0 9))).

(** [crypto_verify_32]: 0 when the 32 bytes are equal, -1 otherwise. *)
Definition crypto_verify_32 (x y : bytes) : Z :=
  let differentbits := foldl (fun d i => Z.lor d (Z.lxor (byte_at x i) (byte_at y i))) 0 (seq 0 32) in
  Z.land 1 (Z.shiftr (u32 (differentbits - 1)) 8) - 1.

Definition fe_isnegative (f : fe) : Z := Z.land (byte_at (fe_tobytes f) 0) 1.
Definition fe_isnonzero (f : fe) : Z := crypto_verify_32 (fe_tobytes f) (repeat x00 32).
Definition fe_isequal (f g : fe) : Z := Z.lxor 1 (Z.land 1 (Z.shiftr (fe_isnonzero (fe_sub f g)) 8)).
Definition fe_isreduced (s : bytes) : Z :=
  let strict := fe_tobytes (fe_frombytes s) in
  if crypto_verify_32 strict s =? 0 then 1 else 0.

(* ------------------------------------------------------------------ *)
(** ** Powers *)

(** [fe_sq(t, z); for (i = 1; i < n; ++i) fe_sq(t, t);] *)
Definition fe_sqs (n : nat) (z : fe) : fe := Nat.iter n fe_sq z.

Definition fe_invert (z : fe) : fe :=
  let t0 := fe_sqs 1 z in
  let t1 := fe_sqs 2 t0 in
  let t1 := fe_mul z t1 in
  let t0 := fe_mul t0 t1 in
  let t2 := fe_sqs 1 t0 in
  let t1 := fe_mul t1 t2 in
  let t2 := fe_sqs 5 t1 in
  let t1 := fe_mul t2 t1 in
  let t2 := fe_sqs 10 t1 in
  let t2 := fe_mul t2 t1 in
  let t3 := fe_sqs 20 t2 in
  let t2 := fe_mul t3 t2 in
  let t2 := fe_sqs 10 t2 in
  let t1 := fe_mul t2 t1 in
  let t2 := fe_sqs 50 t1 in
  let t2 := fe_mul t2 t1 in
  let t3 := fe_sqs 100 t2 in
  let t2 := fe_mul t3 t2 in
  let t2 := fe_sqs 50 t2 in
  let t1 := fe_mul t2 t1 in
  let t1 := fe_sqs 5 t1 in
  fe_mul t1 t0.

Definition fe_pow22523 (z : fe) : fe :=
  let t0 := fe_sqs 1 z in
  let t1 := fe_sqs 2 t0 in
  let t1 := fe_mul z t1 in
  let t0 := fe_mul t0 t1 in
  let t0 := fe_sqs 1 t0 in
  let t0 := fe_mul t1 t0 in
  let t1 := fe_sqs 5 t0 in
  let t0 := fe_mul t1 t0 in
  let t1 := fe_sqs 10 t0 in
  let t1 := fe_mul t1 t0 in
  let t2 := fe_sqs 20 t1 in
  let t1 := fe_mul t2 t1 in
  let t1 := fe_sqs 10 t1 in
  let t0 := fe_mul t1 t0 in
  let t1 := fe_sqs 50 t0 in
  let t1 := fe_mul t1 t0 in
  let t2 := fe_sqs 100 t1 in
  let t1 := fe_mul t2 t1 in
  let t1 := fe_sqs 50 t1 in
  let t0 := fe_mul t1 t0 in
  let t0 := fe_sqs 2 t0 in
  fe_mul t0 z.

(* ------------------------------------------------------------------ *)
(** ** The Montgomery curve *)

Definition fe_montx_to_edy (u : fe) : fe :=
  let one := fe_1 in
  let um1 := fe_sub u one in
  let up1 := fe_add u one in
  let up1 := fe_invert up1 in
  fe_mul um1 up1.

Definition fe_mont_rhs (u : fe) : fe :=
  let one := fe_1 in
  let A := <[0%nat := 486662]> fe_0 in
  let u2 := fe_sq u in
  let Au := fe_mul A u in
  let inner := fe_add u2 Au in
  let inner := fe_add inner one in
  fe_mul u inner.
