(* ===== verification/FeField.v ===== *)
(** The field operations of curve25519/ed25519: bounds and values modulo
    [2 ^ 255 - 19].  The comments of the code bound the limbs by [1.01], [1.1] and
    [1.65] times powers of two; here a bound is in hundredths of [2 ^ 25] for the
    limbs of 26 bits and of [2 ^ 24] for the others. *)

From S2P Require Import Prelude Buffers Crypto Limbs Scalar ScalarFacts Donna DonnaField DonnaBytes Fe.

Definition within_bound (k : Z) (x : fe) : Prop :=
  length x = 10%nat /\ forall i, 100 * Z.abs (at_ x i) <= k * 2 ^ (width i - 1).

(** [x] stands for [v] within the bound [k]. *)
Definition fe_repr (k : Z) (x : fe) (v : Z) : Prop := within_bound k x /\ eval x == v.

(** What products leave and accept: [1.01 * 2 ^ 25] and [1.65 * 2 ^ 26]. *)
Abbreviation tight := (fe_repr 101).
Abbreviation wide := (fe_repr 330).

Lemma fe_repr_weaken k k' x v : k <= k' -> fe_repr k x v -> fe_repr k' x v.
Proof.
  intros Hk [[Hl Hx] Hv]. split; [|done]. split; [done|]. intros i. specialize (Hx i).
  assert (0 < 2 ^ (width i - 1)) by (pose proof (width_bounds i); apply Z.pow_pos_nonneg; lia). nia.
Qed.

Lemma fe_repr_feq k x v v' : v == v' -> fe_repr k x v -> fe_repr k x v'.
Proof. intros Hv [Hx E]. split; [done|]. by rewrite E. Qed.

Lemma within_bound_inv k x : within_bound k x -> exists x0 x1 x2 x3 x4 x5 x6 x7 x8 x9,
  x = [x0; x1; x2; x3; x4; x5; x6; x7; x8; x9] /\
  Z.abs x0 <= k * 2 ^ 25 / 100 /\ Z.abs x1 <= k * 2 ^ 24 / 100 /\ Z.abs x2 <= k * 2 ^ 25 / 100 /\
  Z.abs x3 <= k * 2 ^ 24 / 100 /\ Z.abs x4 <= k * 2 ^ 25 / 100 /\ Z.abs x5 <= k * 2 ^ 24 / 100 /\
  Z.abs x6 <= k * 2 ^ 25 / 100 /\ Z.abs x7 <= k * 2 ^ 24 / 100 /\ Z.abs x8 <= k * 2 ^ 25 / 100 /\
  Z.abs x9 <= k * 2 ^ 24 / 100.
Proof.
  intros [Hl Hx]. destruct (ten_limbs x Hl) as (x0&x1&x2&x3&x4&x5&x6&x7&x8&x9&->).
  assert (forall i, Z.abs (at_ [x0; x1; x2; x3; x4; x5; x6; x7; x8; x9] i) <= k * 2 ^ (width i - 1) / 100) as Hb.
  { intros i. specialize (Hx i). apply Z.div_le_lower_bound; lia. }
  exists x0, x1, x2, x3, x4, x5, x6, x7, x8, x9.
  exact (conj eq_refl (conj (Hb 0%nat) (conj (Hb 1%nat) (conj (Hb 2%nat) (conj (Hb 3%nat) (conj (Hb 4%nat)
    (conj (Hb 5%nat) (conj (Hb 6%nat) (conj (Hb 7%nat) (conj (Hb 8%nat) (Hb 9%nat))))))))))).
Qed.

(* ------------------------------------------------------------------ *)
(** ** Sums *)

Lemma at_zip (f : Z -> Z -> Z) x y i : f 0 0 = 0 -> length x = length y ->
  at_ (zip_with f x y) i = f (at_ x i) (at_ y i).
Proof.
  intros Hf. unfold at_. revert y i. induction x as [|a x IH]; intros [|b y] i Hl; try done; destruct i; try done; cbn; auto.
Qed.

Lemma zip_ext (f g : Z -> Z -> Z) x y : length x = length y ->
  (forall i, f (at_ x i) (at_ y i) = g (at_ x i) (at_ y i)) -> zip_with f x y = zip_with g x y.
Proof.
  revert y. induction x as [|a x IH]; intros [|b y] Hl H; try done. cbn [zip_with]. f_equal; [exact (H 0%nat)|].
  apply IH; [by injection Hl|]. intros i. exact (H (S i)).
Qed.

Lemma eval_zip_linear c d x y : length x = 10%nat -> length y = 10%nat ->
  eval (zip_with (fun a b => c * a + d * b) x y) = c * eval x + d * eval y.
Proof.
  intros Hx Hy. destruct (ten_limbs x Hx) as (x0&x1&x2&x3&x4&x5&x6&x7&x8&x9&->).
  destruct (ten_limbs y Hy) as (y0&y1&y2&y3&y4&y5&y6&y7&y8&y9&->). cbn [zip_with]. eval_ring.
Qed.

Lemma abs_limb k x i : k <= 900 -> within_bound k x -> Z.abs (at_ x i) < 2 ^ 30.
Proof.
  intros Hk [_ Hx]. specialize (Hx i). unfold width in Hx. destruct (Nat.odd i); simpl in Hx; lia.
Qed.

(** Sums and differences of limbs: the bounds add up. *)
Lemma linear_repr c d f g k l x y u v : (forall a b, f a b = i32 (c * a + d * b)) -> Z.abs c <= 1 -> Z.abs d <= 1 ->
  0 <= k <= 450 -> 0 <= l <= 450 -> g = zip_with f (take 10 x) (take 10 y) -> fe_repr k x u -> fe_repr l y v ->
  fe_repr (k + l) g (c * u + d * v).
Proof.
  intros Hf Hc Hd Hk Hl -> [Wx Hu] [Wy Hv]. pose proof Wx as [Lx Bx]. pose proof Wy as [Ly By].
  rewrite !take_ge by lia. rewrite (zip_ext _ (fun a b => c * a + d * b)); [|lia|].
  - split; [split|].
    + rewrite length_zip_with. lia.
    + intros i. rewrite at_zip by lia. specialize (Bx i). specialize (By i).
      rewrite Z.mul_add_distr_r. nia.
    + rewrite eval_zip_linear by done. by rewrite Hu, Hv.
  - intros i. rewrite Hf. apply i32_small. pose proof (abs_limb k x i ltac:(lia) Wx). pose proof (abs_limb l y i ltac:(lia) Wy). nia.
Qed.

Lemma fe_add_repr k l x y u v : 0 <= k <= 450 -> 0 <= l <= 450 -> fe_repr k x u -> fe_repr l y v ->
  fe_repr (k + l) (fe_add x y) (u + v).
Proof.
  intros Hk Hl Hx Hy. replace (u + v) with (1 * u + 1 * v) by ring.
  eapply (linear_repr 1 1); try eassumption; [|done..]. intros a b. cbv beta. f_equal. ring.
Qed.

Lemma fe_sub_repr k l x y u v : 0 <= k <= 450 -> 0 <= l <= 450 -> fe_repr k x u -> fe_repr l y v ->
  fe_repr (k + l) (fe_sub x y) (u - v).
Proof.
  intros Hk Hl Hx Hy. replace (u - v) with (1 * u + -1 * v) by ring.
  eapply (linear_repr 1 (-1)); try eassumption; [|done..]. intros a b. cbv beta. f_equal. ring.
Qed.

(** The bound needs to be checked on the ten limbs only. *)
Lemma within_bound_intro k x : 0 <= k -> length x = 10%nat ->
  (forall i, (i < 10)%nat -> 100 * Z.abs (at_ x i) <= k * 2 ^ (width i - 1)) -> within_bound k x.
Proof.
  intros Hk Hl Hx. split; [done|]. intros i. destruct (decide (i < 10)%nat); [by apply Hx|].
  unfold at_. rewrite nth_overflow by lia. simpl. assert (0 < 2 ^ (width i - 1)); [|nia].
  pose proof (width_bounds i). apply Z.pow_pos_nonneg; lia.
Qed.

Lemma fe_0_repr : fe_repr 1 fe_0 0.
Proof.
  split; [|done]. apply within_bound_intro; [done..|]. intros i Hi.
  do 10 (destruct i as [|i]; [vm_compute; discriminate|]). lia.
Qed.

Lemma fe_1_repr : fe_repr 1 fe_1 1.
Proof.
  split; [|done]. apply within_bound_intro; [done..|]. intros i Hi.
  do 10 (destruct i as [|i]; [vm_compute; discriminate|]). lia.
Qed.

Lemma fe_neg_repr k x u : 0 <= k <= 450 -> fe_repr k x u -> fe_repr k (fe_neg x) (- u).
Proof.
  intros Hk Hx. replace (fe_neg x) with (fe_sub (repeat 0 10) x).
  - pose proof (fe_sub_repr 0 k (repeat 0 10) x 0 u) as H. replace k with (0 + k) by lia.
    replace (- u) with (0 - u) by lia. apply H; [lia..| |done]. split; [|done].
    apply within_bound_intro; [done..|]. intros i Hi.
    do 10 (destruct i as [|i]; [vm_compute; discriminate|]). lia.
  - destruct Hx as [[Hl _] _]. destruct (ten_limbs x Hl) as (x0&x1&x2&x3&x4&x5&x6&x7&x8&x9&->). done.
Qed.

(** The choice: the mask is all ones or zero. *)
Lemma cmov_limb (b : bool) f g : Z.abs f < 2 ^ 30 -> Z.abs g < 2 ^ 30 ->
  Z.lxor f (i32 (Z.land (u32 (Z.lxor f g)) (u32 (- Z.b2z b)))) = if b then g else f.
Proof.
  intros Hf Hg. destruct b; cbn [Z.b2z].
  - change (u32 (- (1))) with (Z.ones 32). rewrite Z.land_ones by done. unfold u32.
    assert (- 2 ^ 31 <= Z.lxor f g < 2 ^ 31) as Hx.
    { assert (forall z, Z.abs z < 2 ^ 30 -> Z.shiftr z 31 = 0 \/ Z.shiftr z 31 = -1) as Hs.
      { intros z Hz. rewrite sign_bit by lia. destruct (Z.testbit z 31); cbn; auto. }
      assert (Z.shiftr (Z.lxor f g) 31 = 0 \/ Z.shiftr (Z.lxor f g) 31 = -1) as H.
      { rewrite Z.shiftr_lxor. destruct (Hs f Hf) as [-> | ->], (Hs g Hg) as [-> | ->]; cbn; auto. }
      rewrite Z.shiftr_div_pow2 in H by done. pose proof (Z.div_mod (Z.lxor f g) (2 ^ 31) ltac:(done)).
      pose proof (Z.mod_pos_bound (Z.lxor f g) (2 ^ 31) ltac:(lia)). lia. }
    unfold i32. rewrite Zmod_mod, Zplus_mod_idemp_l, (Z.mod_small (_ + _)), Z.add_simpl_r by lia.
    by rewrite <- Z.lxor_assoc, Z.lxor_nilpotent, Z.lxor_0_l.
  - change (u32 (- (0))) with 0. rewrite Z.land_0_r. change (i32 0) with 0. apply Z.lxor_0_r.
Qed.

Lemma fe_cmov_spec (b : bool) k l x y u v : k <= 900 -> l <= 900 -> fe_repr k x u -> fe_repr l y v ->
  fe_cmov x y (Z.b2z b) = if b then y else x.
Proof.
  intros Hk Hl [Wx _] [Wy _]. pose proof Wx as [Lx _]. pose proof Wy as [Ly _]. unfold fe_cmov. cbv zeta.
  rewrite !take_ge by lia. rewrite (zip_ext _ (fun a c => if b then c else a)); [|lia|].
  - clear - Lx Ly. assert (length x = length y) as Hl by lia. clear Lx Ly. revert y Hl.
    induction x as [|a x IH]; intros [|c y] Hl; try done; [by destruct b|]. cbn [zip_with]. injection Hl as Hl.
    rewrite IH by done. by destruct b.
  - intros i. apply cmov_limb; [exact (abs_limb k x i Hk Wx)|exact (abs_limb l y i Hl Wy)].
Qed.

(* ------------------------------------------------------------------ *)
(** ** Products *)

Lemma eval_lin x : length x = 10%nat -> eval x = lin (take 10 weights) x.
Proof.
  intros Hl. destruct (ten_limbs x Hl) as (x0&x1&x2&x3&x4&x5&x6&x7&x8&x9&->). unfold eval, lin.
  let w := eval vm_compute in weights in change weights with w. cbn [take zip_with foldr]. ring.
Qed.

(** The limbs of a product before the carries, folded once. *)
Lemma fe_products_spec f g : within_bound 330 f -> within_bound 330 g ->
  length (fe_products f g) = 10%nat /\ Forall (fun z => Z.abs z <= 2 ^ 61) (fe_products f g) /\
  eval (fe_products f g) == eval f * eval g.
Proof.
  intros (f0&f1&f2&f3&f4&f5&f6&f7&f8&f9&->&?&?&?&?&?&?&?&?&?&?)%within_bound_inv
    (g0&g1&g2&g3&g4&g5&g6&g7&g8&g9&->&?&?&?&?&?&?&?&?&?&?)%within_bound_inv.
  unfold fe_products, at_. cbn [nth]. cbv zeta. rewrite !i32_small by bound.
  match goal with |- length (map i64 ?t) = _ /\ _ => assert (Forall (fun z => Z.abs z <= 2 ^ 61) t) as Ht by all_bound end.
  rewrite map_i64 by (eapply Forall_impl; [exact Ht|]; intros z Hz; simpl in Hz; lia).
  split; [done|]. split; [done|]. unfold feq.
  rewrite <- (Z_mod_plus_full (eval [_; _; _; _; _; _; _; _; _; _]) (eval [
     2 * (f5 * g5 + f3 * g7 + f7 * g3 + f1 * g9 + f9 * g1) + f4 * g6 + f6 * g4 + f2 * g8 + f8 * g2;
     f5 * g6 + f6 * g5 + f4 * g7 + f7 * g4 + f3 * g8 + f8 * g3 + f2 * g9 + f9 * g2;
     f6 * g6 + 2 * (f5 * g7 + f7 * g5 + f3 * g9 + f9 * g3) + f4 * g8 + f8 * g4;
     f6 * g7 + f7 * g6 + f5 * g8 + f8 * g5 + f4 * g9 + f9 * g4;
     2 * (f7 * g7 + f5 * g9 + f9 * g5) + f6 * g8 + f8 * g6;
     f7 * g8 + f8 * g7 + f6 * g9 + f9 * g6;
     f8 * g8 + 2 * (f7 * g9 + f9 * g7);
     f8 * g9 + f9 * g8;
     2 * f9 * g9])). f_equal. change p25519 with (2 ^ 255 - 19). eval_ring.
Qed.

Lemma fe_squares_spec f : within_bound 330 f ->
  length (fe_squares f) = 10%nat /\ Forall (fun z => Z.abs z <= 2 ^ 61) (fe_squares f) /\
  eval (fe_squares f) == eval f * eval f.
Proof.
  intros (f0&f1&f2&f3&f4&f5&f6&f7&f8&f9&->&?&?&?&?&?&?&?&?&?&?)%within_bound_inv.
  unfold fe_squares, at_. cbn [nth]. cbv zeta. rewrite !i32_small by bound.
  match goal with |- length (map i64 ?t) = _ /\ _ => assert (Forall (fun z => Z.abs z <= 2 ^ 61) t) as Ht by all_bound end.
  rewrite map_i64 by (eapply Forall_impl; [exact Ht|]; intros z Hz; simpl in Hz; lia).
  split; [done|]. split; [done|]. unfold feq.
  rewrite <- (Z_mod_plus_full (eval [_; _; _; _; _; _; _; _; _; _]) (eval [
     2 * (f5 * f5 + f4 * f6 + f2 * f8 + 2 * (f3 * f7 + f1 * f9));
     2 * (f5 * f6 + f4 * f7 + f3 * f8 + f2 * f9);
     f6 * f6 + 2 * (f4 * f8 + 2 * (f5 * f7 + f3 * f9));
     2 * (f6 * f7 + f5 * f8 + f4 * f9);
     2 * (f7 * f7 + f6 * f8 + 2 * f5 * f9);
     2 * (f7 * f8 + f6 * f9);
     f8 * f8 + 4 * f7 * f9;
     2 * f8 * f9;
     2 * f9 * f9])). f_equal. change p25519 with (2 ^ 255 - 19). eval_ring.
Qed.

#[global] Opaque fe_products fe_squares.

(** The bounds the analysis must end with. *)
Definition fe_tight (e : list itv) : bool :=
  forallb (fun i => within (itv_at e i) (- (101 * 2 ^ (width i - 1) / 100), 101 * 2 ^ (width i - 1) / 100)) (seq 0 10).

Lemma fe_tight_spec e x : fe_tight e = true -> length e = 10%nat -> holds e x -> within_bound 101 x.
Proof.
  intros H He [Hl Hx]. apply within_bound_intro; [done|lia|]. intros i Hi. unfold fe_tight in H. rewrite forallb_forall in H.
  pose proof (within_inside _ _ _ (H i ltac:(apply in_seq; lia)) (Hx i)) as Hb. unfold inside in Hb. cbn [fst snd] in Hb.
  pose proof (Z.mul_div_le (101 * 2 ^ (width i - 1)) 100 ltac:(lia)). lia.
Qed.

Lemma map_i32 k (x : fe) : k <= 900 -> within_bound k x -> map i32 x = x.
Proof.
  intros Hk Hx. apply list_eq. intros i. rewrite list_lookup_fmap.
  pose proof (abs_limb k x i Hk Hx) as Ha. unfold at_ in Ha. rewrite nth_lookup in Ha.
  destruct (x !! i) as [a|]; cbn in *; [|reflexivity]. f_equal. apply i32_small. lia.
Qed.

(** Carries that the analysis accepts keep the number and end within the bound. *)
Lemma carries_repr ss e0 e1 h v : analyse ss e0 = Some e1 -> length e0 = 10%nat -> fe_tight e1 = true ->
  gains (take 10 weights) p25519 ss = true -> holds e0 h -> eval h == v -> tight (map i32 (run ss h)) v.
Proof.
  intros A He T G Hh Hv. pose proof Hh as [Hl _].
  destruct (analyse_sound (take 10 weights) p25519 ss e0 e1 h A Hh ltac:(rewrite He; done) (gains_spec _ _ _ G)) as (H1 & L1 & D).
  pose proof (fe_tight_spec e1 _ T ltac:(lia) H1) as Hw. pose proof Hw as [Lr _]. rewrite (map_i32 101) by done.
  split; [done|]. rewrite <- Hv, !eval_lin by lia. unfold feq. destruct D as [z D].
  replace (lin (take 10 weights) (run ss h)) with (lin (take 10 weights) h + z * p25519) by lia. apply Z_mod_plus_full.
Qed.

Lemma mul_carries_repr h v : length h = 10%nat -> Forall (fun z => Z.abs z <= 2 ^ 62) h -> eval h == v ->
  tight (map i32 (run mul_carries h)) v.
Proof.
  intros Hl Hh Hv. eapply (carries_repr mul_carries (repeat (- 2 ^ 62, 2 ^ 62) 10));
    [vm_compute; reflexivity|done|vm_compute; reflexivity|vm_compute; reflexivity| |done].
  rewrite <- Hl. by apply holds_repeat.
Qed.

Lemma fe_mul_repr f g u v : wide f u -> wide g v -> tight (fe_mul f g) (u * v).
Proof.
  intros [Hf Hu] [Hg Hv]. destruct (fe_products_spec f g Hf Hg) as (Hl & Hb & E). apply mul_carries_repr; [done| |].
  - eapply Forall_impl; [exact Hb|]. intros z Hz. simpl in *. lia.
  - by rewrite E, Hu, Hv.
Qed.

Lemma fe_sq_repr f u : wide f u -> tight (fe_sq f) (u * u).
Proof.
  intros [Hf Hu]. destruct (fe_squares_spec f Hf) as (Hl & Hb & E). apply mul_carries_repr; [done| |].
  - eapply Forall_impl; [exact Hb|]. intros z Hz. simpl in *. lia.
  - by rewrite E, Hu.
Qed.

Lemma fe_sq2_repr f u : wide f u -> tight (fe_sq2 f) (2 * (u * u)).
Proof.
  intros [Hf Hu]. destruct (fe_squares_spec f Hf) as (Hl & Hb & E). unfold fe_sq2.
  assert (map (fun h => i64 (h + h)) (fe_squares f) = zip_with (fun a b => 1 * a + 1 * b) (fe_squares f) (fe_squares f)) as ->.
  { clear - Hb. induction Hb as [|z l Hz _ IH]; [done|]. cbn [map zip_with]. rewrite IH, i64_small by lia. f_equal. lia. }
  apply mul_carries_repr.
  - by rewrite length_zip_with, Hl.
  - clear - Hb. induction Hb as [|z l Hz _ IH]; [constructor|]. constructor; [lia|exact IH].
  - rewrite eval_zip_linear by done. rewrite E, Hu. unfold feq. f_equal. lia.
Qed.
