(* ===== verification/FeBytes.v ===== *)
(** The bytes of field elements of curve25519/ed25519: reading takes 255 bits,
    writing gives the canonical representative, and the comparisons and powers
    built on them are those of the field. *)

From S2P Require Import Prelude Buffers Crypto Limbs Scalar ScalarFacts Donna DonnaField DonnaLadder DonnaBytes Fe FeField.

(* ------------------------------------------------------------------ *)
(** ** Reading *)

Lemma window_inside V b n sh : 0 <= sh -> 0 <= n -> inside (0, 2 ^ (n + sh)) (Z.shiftl ((V / 2 ^ b) mod 2 ^ n) sh).
Proof.
  intros Hs Hn. rewrite Z.shiftl_mul_pow2 by done. pose proof (Z.mod_pos_bound (V / 2 ^ b) (2 ^ n) ltac:(lia)).
  assert (0 < 2 ^ sh) by (apply Z.pow_pos_nonneg; lia). unfold inside. cbn [fst snd]. rewrite Z.pow_add_r by lia. nia.
Qed.

Definition limb_windows (V : Z) : list Z :=
  map (fun p => Z.shiftl ((V / 2 ^ p.1.1) mod 2 ^ p.1.2) p.2)
    [(0, 32, 0); (32, 24, 6); (56, 24, 5); (80, 24, 3); (104, 24, 2); (128, 32, 0); (160, 24, 7); (184, 24, 5);
     (208, 24, 4); (232, 23, 2)].

Lemma fe_limbs_windows s : fe_limbs s = limb_windows (le_val s).
Proof.
  unfold fe_limbs. change 8388607 with (Z.ones 23). rewrite !load_3_spec, !load_4_spec, Z.land_ones by lia.
  assert ((((le_val s / 2 ^ (8 * Z.of_nat 29)) mod 2 ^ 24) mod 2 ^ 23) = (le_val s / 2 ^ 232) mod 2 ^ 23) as ->.
  { pose proof (mod_div_mod (le_val s / 2 ^ 232) 0 23 24 ltac:(lia) ltac:(lia) ltac:(lia)) as H.
    rewrite Z.pow_0_r, !Z.div_1_r in H. exact H. }
  unfold limb_windows. cbn [map fst snd]. rewrite !Z.shiftl_0_r. reflexivity.
Qed.

Lemma fe_limbs_value s : eval (fe_limbs s) = le_val s mod 2 ^ 255.
Proof.
  rewrite fe_limbs_windows. unfold limb_windows. cbn [map fst snd]. set (V := le_val s).
  change 255 with (32 + (24 + (24 + (24 + (24 + (32 + (24 + (24 + (24 + 23))))))))).
  rewrite !mod_split, !div_pow by done. rewrite !Z.shiftl_mul_pow2 by done.
  unfold eval. let w := eval vm_compute in weights in change weights with w. cbn [zip_with foldr].
  repeat match goal with |- context [V / 2 ^ ?e] => let v := eval vm_compute in e in progress change e with v end.
  rewrite Z.div_1_r. ring.
Qed.

Definition limb_itvs : list itv :=
  [(0, 2 ^ 32); (0, 2 ^ 30); (0, 2 ^ 29); (0, 2 ^ 27); (0, 2 ^ 26); (0, 2 ^ 32); (0, 2 ^ 31); (0, 2 ^ 29); (0, 2 ^ 28); (0, 2 ^ 25)].

Lemma fe_limbs_holds s : holds limb_itvs (fe_limbs s).
Proof.
  rewrite fe_limbs_windows. split; [done|]. intros i. do 10 (destruct i as [|i]; [by apply window_inside|]).
  unfold inside, itv_at, at_. destruct i; cbn; lia.
Qed.

Lemma fe_frombytes_repr s : tight (fe_frombytes s) (le_val s mod 2 ^ 255).
Proof.
  unfold fe_frombytes. eapply (carries_repr _ limb_itvs);
    [vm_compute; reflexivity|done|vm_compute; reflexivity|vm_compute; reflexivity|apply fe_limbs_holds|by rewrite fe_limbs_value].
Qed.

(* ------------------------------------------------------------------ *)
(** ** The quotient *)

(** The carry that leaves the last limb, from a carry [c] into the first. *)
Lemma quotient_steps pre xs c : Forall (fun l => Z.abs l <= 2 ^ 27) xs -> Z.abs c <= 32 ->
  foldl (fun q i => Z.shiftr (i32 (at_ (pre ++ xs) i + q)) (width i)) c (seq (length pre) (length xs)) =
  (steps carry_units (length pre) xs c).2.
Proof.
  intros Hx. revert pre c. induction Hx as [|x xs Hx _ IH]; intros pre c Hc; [done|].
  cbn [length seq foldl steps]. rewrite at_middle, i32_small by lia.
  pose proof (width_bounds (length pre)). rewrite Z.shiftr_div_pow2 by lia.
  pose proof (units_small (length pre) (x + c) ltac:(lia)) as Hk.
  specialize (IH (pre ++ [x]) ((x + c) / 2 ^ width (length pre)) ltac:(lia)).
  rewrite <- app_assoc, length_app, Nat.add_1_r in IH. cbn [app length] in IH. rewrite IH.
  unfold carry_units at 3. by destruct (steps carry_units (S (length pre)) xs _).
Qed.

(** What a pass of carries leaves are digits. *)
Lemma carry_digits xs c : length xs = 10%nat -> digits (steps carry_units 0 xs c).1.
Proof.
  intros Hl. split; [by rewrite steps_length|]. intros i l Hi.
  refine (proj1 (steps_inv carry_units (fun _ => True) (fun _ _ => True) (fun j y => 0 <= y < 2 ^ width j) 0 xs c _ _ I) i l Hi);
    [|done].
  intros j x c' _ _. split; [|done]. pose proof (width_bounds j). unfold carry_units.
  pose proof (Z.mod_pos_bound (x + c') (2 ^ width j) ltac:(lia)). rewrite Z.mod_eq in H0 by lia. lia.
Qed.

Lemma digits_range x : digits x -> 0 <= eval x < 2 ^ 255.
Proof.
  intros (x0&x1&x2&x3&x4&x5&x6&x7&x8&x9&->&H0&H1&H2&H3&H4&H5&H6&H7&H8&H9)%digits_inv.
  unfold eval. let w := eval vm_compute in weights in change weights with w. cbn [zip_with foldr]. lia.
Qed.

Lemma steps_eval c xs : length xs = 10%nat ->
  eval (steps carry_units 0 xs c).1 + 2 ^ 255 * (steps carry_units 0 xs c).2 = eval xs + c.
Proof.
  intros Hl. pose proof (steps_value carry_units 0 xs c) as Hv. pose proof (steps_length carry_units 0 xs c) as Hr.
  destruct (ten_limbs xs Hl) as (x0&x1&x2&x3&x4&x5&x6&x7&x8&x9&E). destruct (steps carry_units 0 xs c) as [r o].
  cbn [fst snd] in *. destruct (ten_limbs r ltac:(lia)) as (r0&r1&r2&r3&r4&r5&r6&r7&r8&r9&->). subst xs.
  rewrite !value_eval in Hv. lia.
Qed.

(** The estimate from the last limb alone is exact enough. *)
Lemma quotient_exact H h9 L q0 rho q s : H = 2 ^ 230 * h9 + L -> Z.abs L < 2 ^ 231 -> Z.abs q0 <= 32 ->
  2 ^ 25 * q0 + rho = 19 * h9 + 2 ^ 24 -> 0 <= rho < 2 ^ 25 -> s + 2 ^ 255 * q = H + q0 -> 0 <= s < 2 ^ 255 ->
  0 <= H - q * p25519 < p25519.
Proof. unfold p25519. lia. Qed.

(** The bounds of the limbs as numbers. *)
Ltac numeric_bounds :=
  repeat match goal with
  | H : Z.abs ?x <= ?b |- _ => let c := eval vm_compute in b in progress change (Z.abs x <= c) in H
  end.

Lemma within_limbs k x : k <= 400 -> within_bound k x -> limbs (2 ^ 27) x.
Proof.
  intros Hk [Hl Hx]. split; [done|]. apply Forall_forall. intros l [i Hi]%list_elem_of_lookup_1. specialize (Hx i).
  assert (at_ x i = l) as E by (by apply nth_lookup_Some). rewrite E in Hx. pose proof (width_bounds i).
  assert (0 < 2 ^ (width i - 1) <= 2 ^ 25) by (split; [apply Z.pow_pos_nonneg|apply Z.pow_le_mono_r]; lia). nia.
Qed.

Lemma fe_quotient_spec x : within_bound 305 x -> 0 <= eval x - fe_quotient x * p25519 < p25519 /\ Z.abs (fe_quotient x) <= 32.
Proof.
  intros Hx. pose proof (within_limbs 305 x ltac:(lia) Hx) as [Hl Hf].
  assert (Z.abs (at_ x 9) <= 51170508) as H9.
  { destruct Hx as [_ Hx]. specialize (Hx 9%nat). change (width 9 - 1) with 24 in Hx.
    lia. }
  unfold fe_quotient. rewrite (i32_small (19 * _)), i32_small, Z.shiftr_div_pow2 by lia.
  set (q0 := (19 * at_ x 9 + 2 ^ 24) / 2 ^ 25).
  pose proof (Z.div_mod (19 * at_ x 9 + 2 ^ 24) (2 ^ 25) ltac:(lia)) as Hq0. fold q0 in Hq0.
  pose proof (Z.mod_pos_bound (19 * at_ x 9 + 2 ^ 24) (2 ^ 25) ltac:(lia)) as Hrho.
  assert (Z.abs q0 <= 32) as Hq by lia.
  pose proof (quotient_steps [] x q0 Hf Hq) as E. cbn [app length] in E. rewrite Hl in E. rewrite E. clear E.
  pose proof (steps_eval q0 x Hl) as Hs. pose proof (digits_range _ (carry_digits x q0 Hl)) as Hr.
  assert (0 <= eval x - (steps carry_units 0 x q0).2 * p25519 < p25519) as Hq'.
  { pose proof Hx as (x0&x1&x2&x3&x4&x5&x6&x7&x8&x9&E&H0&H1&H2&H3&H4&H5&H6&H7&H8&_)%within_bound_inv.
    eapply (quotient_exact _ (at_ x 9) (eval x - 2 ^ 230 * at_ x 9)); [lia| |done|symmetry; exact Hq0|done|exact Hs|done].
    clear - H0 H1 H2 H3 H4 H5 H6 H7 H8 E. subst x. unfold eval.
    let w := eval vm_compute in weights in change weights with w. cbn [zip_with foldr at_ nth]. unfold at_. cbn [nth]. numeric_bounds. lia. }
  split; [done|]. pose proof (within_bound_inv _ _ Hx) as (x0&x1&x2&x3&x4&x5&x6&x7&x8&x9&E&H0&H1&H2&H3&H4&H5&H6&H7&H8&H9').
  assert (Z.abs (eval x) < 2 ^ 258) as He.
  { clear - H0 H1 H2 H3 H4 H5 H6 H7 H8 H9' E. subst x. unfold eval.
    let w := eval vm_compute in weights in change weights with w. cbn [zip_with foldr]. numeric_bounds. lia. }
  clear - He Hs Hr Hq. set (q := (steps carry_units 0 x q0).2) in *. lia.
Qed.

(* ------------------------------------------------------------------ *)
(** ** The last pass *)

Lemma floor_moves pre a b post : Z.abs a <= 2 ^ 28 -> Z.abs b <= 2 ^ 28 ->
  let k := carry_units (width (length pre)) a in
  fe_floor (pre ++ a :: b :: post) (length pre) = pre ++ (a - k * 2 ^ width (length pre)) :: (b + k) :: post.
Proof.
  intros Ha Hb k. unfold fe_floor. cbv zeta. rewrite at_middle. pose proof (width_bounds (length pre)).
  rewrite Z.shiftr_div_pow2 by lia. fold (carry_units (width (length pre)) a). fold k.
  pose proof (units_small (length pre) a Ha) as Hk. fold (carry_units (width (length pre)) a) in Hk. fold k in Hk.
  pose proof (insert_two pre a b post (i32 (a - i32 (Z.shiftl k (width (length pre))))) (fun z => i32 (z + k))) as E.
  cbv zeta in E. etransitivity; [exact E|]. clear E. pose proof (pow_width_bounds (length pre)). rewrite Z.shiftl_mul_pow2 by lia.
  assert (Z.abs (k * 2 ^ width (length pre)) <= 8 * 2 ^ 26) as Hk' by (apply abs_mul; lia).
  by rewrite !i32_small by (rewrite ?i32_small; lia).
Qed.

Lemma floor_last_moves x mid a : length mid = 8%nat -> Z.abs x <= 2 ^ 30 -> Z.abs a <= 2 ^ 28 ->
  fe_floor_last (x :: mid ++ [a]) = (x + 0 * carry_units 25 a) :: mid ++ [a - carry_units 25 a * 2 ^ 25].
Proof.
  intros Hl Hx Ha. unfold fe_floor_last. cbv zeta. rewrite at_end, Z.shiftr_div_pow2 by done.
  fold (carry_units 25 a). set (k := carry_units 25 a).
  pose proof (units_small 1 a Ha) as Hk. change (width 1) with 25 in Hk. fold (carry_units 25 a) in Hk. fold k in Hk.
  rewrite Z.shiftl_mul_pow2 by done. rewrite !i32_small by (rewrite ?i32_small; lia).
  do 8 (destruct mid as [|? mid]; [done|]). destruct mid; [|done]. cbn [app insert list_insert]. f_equal. lia.
Qed.

Lemma floor_pass_steps x : limbs (2 ^ 27) x ->
  fe_floor_last (foldl fe_floor x (seq 0 9)) = (steps carry_units 0 x 0).1.
Proof.
  intros Hx. rewrite (pass_steps fe_floor fe_floor_last carry_units 0 floor_moves floor_last_moves units_small x Hx).
  unfold wrap_around. destruct (steps carry_units 0 x 0).1; [done|]. f_equal. lia.
Qed.

(* ------------------------------------------------------------------ *)
(** ** Writing *)

(** The bytes of [x] from bit [a] on, [n] of them. *)
Ltac cut_bytes x a n :=
  lazymatch n with
  | O => idtac
  | S ?m => let c := eval vm_compute in (a + 8) in pose proof (cut_byte x a c ltac:(lia) eq_refl); cut_bytes x c m
  end.

Lemma fe_store_spec x : digits x -> fe_store x = le_bytes 32 (eval x).
Proof.
  intros (x0&x1&x2&x3&x4&x5&x6&x7&x8&x9&->&H0&H1&H2&H3&H4&H5&H6&H7&H8&H9)%digits_inv.
  rewrite <- (le_bytes_le_val (fe_store _)). assert (forall l, length (fe_store l) = 32%nat) as -> by done. f_equal.
  unfold fe_store, at_. cbv zeta. cbn [nth map le_val].
  rewrite !byte_across by (done || lia). rewrite !byte_in by done.
  assert (x4 / 2 ^ 26 = 0) as Z4 by (apply Z.div_small; lia). assert (x9 / 2 ^ 26 = 0) as Z9 by (apply Z.div_small; lia).
  clear H0 H1 H2 H3 H4 H5 H6 H7 H8 H9. rewrite !Z.pow_0_r, !Z.div_1_r.
  repeat match goal with |- context [2 ^ (8 - ?b)] => let c := eval vm_compute in (8 - b) in change (8 - b) with c end.
  pose proof (cut x0 8 ltac:(lia)). cut_bytes x0 8 2%nat. pose proof (cut x1 6 ltac:(lia)). cut_bytes x1 6 2%nat.
  pose proof (cut x2 5 ltac:(lia)). cut_bytes x2 5 2%nat. pose proof (cut x3 3 ltac:(lia)). cut_bytes x3 3 2%nat.
  pose proof (cut x4 2 ltac:(lia)). cut_bytes x4 2 3%nat. pose proof (cut x5 8 ltac:(lia)). cut_bytes x5 8 2%nat.
  pose proof (cut x6 7 ltac:(lia)). cut_bytes x6 7 2%nat. pose proof (cut x7 5 ltac:(lia)). cut_bytes x7 5 2%nat.
  pose proof (cut x8 4 ltac:(lia)). cut_bytes x8 4 2%nat. pose proof (cut x9 2 ltac:(lia)). cut_bytes x9 2 3%nat.
  unfold eval. let w := eval vm_compute in weights in change weights with w. cbn [zip_with foldr]. lia.
Qed.

(** [fe_tobytes] writes the canonical representative. *)
Lemma fe_tobytes_repr k x v : k <= 305 -> fe_repr k x v -> fe_tobytes x = le_bytes 32 (v mod p25519).
Proof.
  intros Hk [Hx Hv]%(fe_repr_weaken _ 305); [|done]. destruct (fe_quotient_spec x Hx) as [Hq Hqs].
  unfold fe_tobytes. cbv zeta. set (q := fe_quotient x) in *.
  pose proof Hx as (x0&x1&x2&x3&x4&x5&x6&x7&x8&x9&->&H0&H1&H2&H3&H4&H5&H6&H7&H8&H9)%within_bound_inv.
  cbn [insert list_insert]. unfold at_ at 1. cbn [nth]. rewrite (i32_small (19 * q)), i32_small by (clear - H0 Hqs; numeric_bounds; lia).
  assert (eval [x0 + 19 * q; x1; x2; x3; x4; x5; x6; x7; x8; x9] = eval [x0; x1; x2; x3; x4; x5; x6; x7; x8; x9] + 19 * q) as E by eval_ring.
  set (y := [x0 + 19 * q; x1; x2; x3; x4; x5; x6; x7; x8; x9]) in *.
  assert (limbs (2 ^ 27) y) as Hy.
  { split; [done|]. repeat (constructor; [clear - Hqs H0 H1 H2 H3 H4 H5 H6 H7 H8 H9; numeric_bounds; lia|]). constructor. }
  rewrite floor_pass_steps by done. pose proof (steps_eval 0 y eq_refl) as Hs. pose proof (carry_digits y 0 eq_refl) as Hd.
  rewrite fe_store_spec by done. f_equal. pose proof (digits_range _ Hd) as Hr.
  unfold feq in Hv. rewrite <- Hv. apply Z.mod_unique with q; [left; unfold p25519 in *|]; unfold p25519 in *; lia.
Qed.

(* ------------------------------------------------------------------ *)
(** ** Comparisons *)

(** The loop of [crypto_verify_32] is that of [signal_constant_memcmp]. *)
Lemma verify_loop x y d i n :
  foldl (fun d i => Z.lor d (Z.lxor (byte_at x i) (byte_at y i))) d (seq i n) = memcmp_loop x y i n d.
Proof. revert d i. induction n as [|n IH]; intros d i; [done|]. apply IH. Qed.

Lemma verify_memcmp x y n :
  foldl (fun d i => Z.lor d (Z.lxor (byte_at x i) (byte_at y i))) 0 (seq 0 n) = signal_constant_memcmp x y n /\
  0 <= signal_constant_memcmp x y n < 256.
Proof. unfold signal_constant_memcmp. split; [apply verify_loop|by apply memcmp_loop_range]. Qed.

Lemma crypto_verify_32_spec x y : length x = 32%nat -> length y = 32%nat ->
  crypto_verify_32 x y = if decide (x = y) then 0 else -1.
Proof.
  intros Hx Hy. unfold crypto_verify_32. cbv zeta. destruct (verify_memcmp x y 32) as [E Hr]. rewrite E. clear E.
  pose proof (signal_constant_memcmp_zero x y 32 Hx Hy) as Hz. generalize dependent (signal_constant_memcmp x y 32).
  intros d Hr Hz. destruct (decide (x = y)) as [E|E].
  - by rewrite (proj2 Hz E).
  - assert (d <> 0) as Hd by tauto. clear - Hr Hd. unfold u32. rewrite Z.mod_small, Z.shiftr_div_pow2, Z.div_small by lia. done.
Qed.

Lemma le_bytes_inj n a b : 0 <= a < 256 ^ Z.of_nat n -> 0 <= b < 256 ^ Z.of_nat n -> le_bytes n a = le_bytes n b -> a = b.
Proof. intros Ha Hb E%(f_equal le_val). by rewrite !le_val_le_bytes, !Z.mod_small in E. Qed.

Lemma residue_bytes a b : le_bytes 32 (a mod p25519) = le_bytes 32 (b mod p25519) <-> a == b.
Proof.
  split; [|by intros ->]. intros E%le_bytes_inj; [done|..];
    (change (256 ^ Z.of_nat 32) with (2 ^ 256); match goal with |- context [?z mod p25519] => pose proof (Z.mod_pos_bound z p25519 eq_refl) end;
     unfold p25519 in *; lia).
Qed.

#[global] Instance feq_dec a b : Decision (a == b).
Proof. unfold feq. apply _. Defined.

Lemma fe_isnonzero_repr k x v : k <= 305 -> fe_repr k x v -> fe_isnonzero x = if decide (v == 0) then 0 else -1.
Proof.
  intros Hk Hx. unfold fe_isnonzero. rewrite (fe_tobytes_repr k x v Hk Hx).
  change (repeat x00 32) with (le_bytes 32 (0 mod p25519)). rewrite crypto_verify_32_spec by apply length_le_bytes.
  pose proof (residue_bytes v 0). do 2 case_decide; tauto.
Qed.

(** The sign of a field element is the low bit of its canonical representative. *)
Definition odd_residue (v : Z) : bool := Z.odd (v mod p25519).

#[global] Instance odd_residue_proper : Proper (feq ==> eq) odd_residue.
Proof. intros a b E. unfold odd_residue. by rewrite E. Qed.

Lemma residue_le_val v : le_val (le_bytes 32 (v mod p25519)) = v mod p25519.
Proof.
  rewrite le_val_le_bytes. apply Z.mod_small. pose proof (Z.mod_pos_bound v p25519 eq_refl).
  change (256 ^ Z.of_nat 32) with (2 ^ 256). unfold p25519 in *. lia.
Qed.

Lemma land_1 a : Z.land a 1 = Z.b2z (Z.testbit a 0).
Proof. rewrite Z.bit0_mod. apply (Z.land_ones a 1). done. Qed.

Lemma fe_isnegative_repr k x v : k <= 305 -> fe_repr k x v -> fe_isnegative x = Z.b2z (odd_residue v).
Proof.
  intros Hk Hx. unfold fe_isnegative, odd_residue. rewrite (fe_tobytes_repr k x v Hk Hx), land_1, byte_at_testbit by done.
  by rewrite residue_le_val, Z.bit0_odd.
Qed.

Lemma fe_isequal_repr k l x y u v : 0 <= k -> 0 <= l -> k + l <= 305 -> fe_repr k x u -> fe_repr l y v ->
  fe_isequal x y = if decide (u == v) then 1 else 0.
Proof.
  intros Hk Hl Hkl Hx Hy. unfold fe_isequal.
  rewrite (fe_isnonzero_repr (k + l) _ (u - v)) by (done || apply fe_sub_repr; done || lia).
  assert (u - v == 0 <-> u == v) as E.
  { split; intros H; [|rewrite H; by rewrite Z.sub_diag]. replace u with (u - v + v) by lia. by rewrite H. }
  do 2 case_decide; try tauto.
Qed.

(** [fe_isreduced] accepts the canonical encodings. *)
Lemma fe_isreduced_spec s : length s = 32%nat -> fe_isreduced s = if decide (le_val s < p25519) then 1 else 0.
Proof.
  intros Hs. unfold fe_isreduced. cbv zeta. pose proof (fe_tobytes_repr 101 _ _ ltac:(lia) (fe_frombytes_repr s)) as E.
  rewrite E, crypto_verify_32_spec by (done || apply length_le_bytes). clear E.
  pose proof (le_val_range s) as Hr. rewrite Hs in Hr. change (256 ^ Z.of_nat 32) with (2 ^ 256) in Hr.
  case_decide as E.
  - rewrite decide_True; [done|]. rewrite <- E, residue_le_val. apply Z.mod_pos_bound. done.
  - rewrite decide_False; [done|]. intros Hlt. apply E. rewrite <- Hs. transitivity (le_bytes (length s) (le_val s)); [f_equal|apply le_bytes_le_val].
    rewrite (Z.mod_small (le_val s)) by (unfold p25519 in *; lia). apply Z.mod_small. lia.
Qed.

(* ------------------------------------------------------------------ *)
(** ** Powers *)

(** [x] stands for [v ^ e]. *)
Definition fe_power (v : Z) (x : fe) (e : Z) : Prop := 0 <= e /\ wide x (v ^ e).

Lemma tight_wide x v : tight x v -> wide x v.
Proof. apply fe_repr_weaken. done. Qed.
#[export] Hint Resolve tight_wide : field.

(** Whatever the bounds of the factors, a product is tight. *)
Lemma fe_power_last v x y e f g : fe_power v x e -> fe_power v y f -> e + f = g -> tight (fe_mul x y) (v ^ g).
Proof. intros [He Hx] [Hf Hy] <-. rewrite Z.pow_add_r by done. by apply fe_mul_repr. Qed.

Lemma fe_power_mul v x y e f : fe_power v x e -> fe_power v y f -> fe_power v (fe_mul x y) (e + f).
Proof. intros Hx Hy. pose proof (fe_power_last v x y e f _ Hx Hy eq_refl). destruct Hx, Hy. split; [lia|]. auto with field. Qed.

Lemma fe_power_sqs v n x e : fe_power v x e -> fe_power v (fe_sqs n x) (2 ^ Z.of_nat n * e).
Proof.
  intros Hx. unfold fe_sqs. induction n as [|n IH]; [by rewrite Z.mul_1_l|]. destruct IH as [He IH].
  rewrite Nat2Z.inj_succ, Z.pow_succ_r by lia. replace (2 * 2 ^ Z.of_nat n * e) with (2 ^ Z.of_nat n * e + 2 ^ Z.of_nat n * e) by lia.
  split; [lia|]. rewrite Z.pow_add_r by done. cbn [Nat.iter nat_rect]. apply tight_wide, fe_sq_repr. done.
Qed.

(** The exponent of a chain of squares and products. *)
Ltac fe_power_chain :=
  repeat lazymatch goal with
  | |- fe_power _ (fe_mul _ _) _ => apply fe_power_mul
  | |- fe_power _ (fe_sqs _ _) _ => apply fe_power_sqs
  | |- fe_power _ _ _ => eassumption
  end.

Lemma fe_power_1 v x : wide x v -> fe_power v x 1.
Proof. intros Hx. split; [done|]. by rewrite Z.pow_1_r. Qed.

Lemma fe_invert_repr x v : wide x v -> tight (fe_invert x) (v ^ (p25519 - 2)).
Proof.
  intros Hx%fe_power_1. unfold fe_invert. cbv zeta. eapply fe_power_last; [fe_power_chain..|]. vm_compute. reflexivity.
Qed.

Lemma fe_pow22523_repr x v : wide x v -> tight (fe_pow22523 x) (v ^ (2 ^ 252 - 3)).
Proof.
  intros Hx%fe_power_1. unfold fe_pow22523. cbv zeta. eapply fe_power_last; [fe_power_chain..|]. vm_compute. reflexivity.
Qed.

(* ------------------------------------------------------------------ *)
(** ** The Montgomery curve *)

(** [y = (u - 1) / (u + 1)], with [u = -1] sent to 0. *)
Lemma fe_montx_to_edy_repr k x u : 0 <= k <= 305 -> fe_repr k x u ->
  tight (fe_montx_to_edy x) ((u - 1) * (u + 1) ^ (p25519 - 2)).
Proof.
  intros Hk Hx. unfold fe_montx_to_edy. cbv zeta. apply fe_mul_repr.
  - apply (fe_repr_weaken (k + 1)); [lia|]. apply fe_sub_repr; [lia..|done|apply fe_1_repr].
  - apply tight_wide, fe_invert_repr, (fe_repr_weaken (k + 1)); [lia|]. apply fe_add_repr; [lia..|done|apply fe_1_repr].
Qed.

Lemma small_fe c k : 0 <= k -> 100 * Z.abs c <= k * 2 ^ 25 -> fe_repr k (<[0%nat := c]> fe_0) c.
Proof.
  intros Hk Hc. change (<[0%nat := c]> fe_0) with (c :: repeat 0 9). cbn [repeat].
  split; [|unfold feq; f_equal; eval_ring]. split; [done|]. intros i. pose proof (width_bounds i).
  assert (0 < 2 ^ (width i - 1)) by (apply Z.pow_pos_nonneg; lia).
  destruct i as [|i]; [exact Hc|]. unfold at_. cbn [nth]. do 9 (destruct i as [|i]; [cbn; lia|]). destruct i; cbn; lia.
Qed.

(** [u * (u ^ 2 + 486662 * u + 1)] *)
Lemma fe_mont_rhs_repr x u : wide x u -> tight (fe_mont_rhs x) (u * (u * u + 486662 * u + 1)).
Proof.
  intros Hx. unfold fe_mont_rhs. cbv zeta. apply fe_mul_repr; [done|].
  apply (fe_repr_weaken (101 + 101 + 1)); [done|]. apply fe_add_repr; [done..| |apply fe_1_repr].
  apply fe_add_repr; [done..|by apply fe_sq_repr|]. apply fe_mul_repr; [|done]. by apply small_fe.
Qed.
