(* ===== verification/Ge.v ===== *)
(** Points of the twisted Edwards curve of curve25519/ed25519 (ge_*.c and
    additions/ge_*.c), in the four projective forms of ge.h. *)

From S2P Require Import Prelude Buffers Crypto Limbs Scalar Donna Fe.

Record ge_p2 := P2 { p2_X : fe; p2_Y : fe; p2_Z : fe }.
Record ge_p3 := P3 { p3_X : fe; p3_Y : fe; p3_Z : fe; p3_T : fe }.
Record ge_p1p1 := P1P1 { p1_X : fe; p1_Y : fe; p1_Z : fe; p1_T : fe }.
Record ge_precomp := Precomp { yplusx : fe; yminusx : fe; xy2d : fe }.
Record ge_cached := Cached { YplusX : fe; YminusX : fe; c_Z : fe; T2d : fe }.

(** d.h, d2.h, sqrtm1.h *)
Definition fe_d : fe :=
  [-10913610; 13857413; -15372611; 6949391; 114729; -8787816; -6275908; -3247719; -18696448; -12055116].
Definition fe_d2 : fe :=
  [-21827239; -5839606; -30745221; 13898782; 229458; 15978800; -12551817; -6495438; 29715968; 9444199].
Definition fe_sqrtm1 : fe :=
  [-32595792; -7943725; 9377950; 3500415; 12389472; -272473; -25146209; -2005654; 326686; 11406482].

Definition ge_p2_0 : ge_p2 := P2 fe_0 fe_1 fe_1.
Definition ge_p3_0 : ge_p3 := P3 fe_0 fe_1 fe_1 fe_0.
Definition ge_precomp_0 : ge_precomp := Precomp fe_1 fe_1 fe_0.

(* ------------------------------------------------------------------ *)
(** ** Conversions *)

Definition ge_p3_to_p2 (p : ge_p3) : ge_p2 := P2 (p3_X p) (p3_Y p) (p3_Z p).

Definition ge_p3_to_cached (p : ge_p3) : ge_cached :=
  Cached (fe_add (p3_Y p) (p3_X p)) (fe_sub (p3_Y p) (p3_X p)) (p3_Z p) (fe_mul (p3_T p) fe_d2).

Definition ge_p1p1_to_p2 (p : ge_p1p1) : ge_p2 :=
  P2 (fe_mul (p1_X p) (p1_T p)) (fe_mul (p1_Y p) (p1_Z p)) (fe_mul (p1_Z p) (p1_T p)).

Definition ge_p1p1_to_p3 (p : ge_p1p1) : ge_p3 :=
  P3 (fe_mul (p1_X p) (p1_T p)) (fe_mul (p1_Y p) (p1_Z p)) (fe_mul (p1_Z p) (p1_T p)) (fe_mul (p1_X p) (p1_Y p)).

(* ------------------------------------------------------------------ *)
(** ** Additions *)

Definition ge_add (p : ge_p3) (q : ge_cached) : ge_p1p1 :=
  let rX := fe_add (p3_Y p) (p3_X p) in
  let rY := fe_sub (p3_Y p) (p3_X p) in
  let rZ := fe_mul rX (YplusX q) in
  let rY := fe_mul rY (YminusX q) in
  let rT := fe_mul (T2d q) (p3_T p) in
  let rX := fe_mul (p3_Z p) (c_Z q) in
  let t0 := fe_add rX rX in
  P1P1 (fe_sub rZ rY) (fe_add rZ rY) (fe_add t0 rT) (fe_sub t0 rT).

Definition ge_sub (p : ge_p3) (q : ge_cached) : ge_p1p1 :=
  let rX := fe_add (p3_Y p) (p3_X p) in
  let rY := fe_sub (p3_Y p) (p3_X p) in
  let rZ := fe_mul rX (YminusX q) in
  let rY := fe_mul rY (YplusX q) in
  let rT := fe_mul (T2d q) (p3_T p) in
  let rX := fe_mul (p3_Z p) (c_Z q) in
  let t0 := fe_add rX rX in
  P1P1 (fe_sub rZ rY) (fe_add rZ rY) (fe_sub t0 rT) (fe_add t0 rT).

Definition ge_madd (p : ge_p3) (q : ge_precomp) : ge_p1p1 :=
  let rX := fe_add (p3_Y p) (p3_X p) in
  let rY := fe_sub (p3_Y p) (p3_X p) in
  let rZ := fe_mul rX (yplusx q) in
  let rY := fe_mul rY (yminusx q) in
  let rT := fe_mul (xy2d q) (p3_T p) in
  let t0 := fe_add (p3_Z p) (p3_Z p) in
  P1P1 (fe_sub rZ rY) (fe_add rZ rY) (fe_add t0 rT) (fe_sub t0 rT).

Definition ge_msub (p : ge_p3) (q : ge_precomp) : ge_p1p1 :=
  let rX := fe_add (p3_Y p) (p3_X p) in
  let rY := fe_sub (p3_Y p) (p3_X p) in
  let rZ := fe_mul rX (yminusx q) in
  let rY := fe_mul rY (yplusx q) in
  let rT := fe_mul (xy2d q) (p3_T p) in
  let t0 := fe_add (p3_Z p) (p3_Z p) in
  P1P1 (fe_sub rZ rY) (fe_add rZ rY) (fe_sub t0 rT) (fe_add t0 rT).

Definition ge_p2_dbl (p : ge_p2) : ge_p1p1 :=
  let rX := fe_sq (p2_X p) in
  let rZ := fe_sq (p2_Y p) in
  let rT := fe_sq2 (p2_Z p) in
  let rY := fe_add (p2_X p) (p2_Y p) in
  let t0 := fe_sq rY in
  let rY := fe_add rZ rX in
  let rZ := fe_sub rZ rX in
  let rX := fe_sub t0 rY in
  let rT := fe_sub rT rZ in
  P1P1 rX rY rZ rT.

Definition ge_p3_dbl (p : ge_p3) : ge_p1p1 := ge_p2_dbl (ge_p3_to_p2 p).

Definition ge_neg (p : ge_p3) : ge_p3 := P3 (fe_neg (p3_X p)) (p3_Y p) (p3_Z p) (fe_neg (p3_T p)).

Definition ge_isneutral (p : ge_p3) : Z := Z.land (fe_isequal (p3_X p) fe_0) (fe_isequal (p3_Y p) (p3_Z p)).

Definition ge_scalarmult_cofactor (p : ge_p3) : ge_p3 :=
  let p2 := ge_p1p1_to_p2 (ge_p3_dbl p) in
  let p2 := ge_p1p1_to_p2 (ge_p2_dbl p2) in
  ge_p1p1_to_p3 (ge_p2_dbl p2).

(* ------------------------------------------------------------------ *)
(** ** Bytes *)

(** [s[31] ^= fe_isnegative(x) << 7;] *)
Definition set_sign (s : bytes) (sign : Z) : bytes := <[31%nat := u8 (Z.lxor (byte_at s 31) (Z.shiftl sign 7))]> s.

Definition ge_tobytes (h : ge_p2) : bytes :=
  let recip := fe_invert (p2_Z h) in
  let x := fe_mul (p2_X h) recip in
  let y := fe_mul (p2_Y h) recip in
  set_sign (fe_tobytes y) (fe_isnegative x).

Definition ge_p3_tobytes (h : ge_p3) : bytes :=
  let recip := fe_invert (p3_Z h) in
  let x := fe_mul (p3_X h) recip in
  let y := fe_mul (p3_Y h) recip in
  set_sign (fe_tobytes y) (fe_isnegative x).

(** [None] is a return of -1. *)
Definition ge_frombytes_negate_vartime (s : bytes) : option ge_p3 :=
  let hY := fe_frombytes s in
  let hZ := fe_1 in
  let u := fe_sq hY in
  let v := fe_mul u fe_d in
  let u := fe_sub u hZ in
  let v := fe_add v hZ in
  let v3 := fe_sq v in
  let v3 := fe_mul v3 v in
  let hX := fe_sq v3 in
  let hX := fe_mul hX v in
  let hX := fe_mul hX u in
  let hX := fe_pow22523 hX in
  let hX := fe_mul hX v3 in
  let hX := fe_mul hX u in
  let vxx := fe_sq hX in
  let vxx := fe_mul vxx v in
  hX ← (if fe_isnonzero (fe_sub vxx u) =? 0 then Some hX
        else if fe_isnonzero (fe_add vxx u) =? 0 then Some (fe_mul hX fe_sqrtm1)
        else None);
  let hX := if fe_isnegative hX =? Z.shiftr (byte_at s 31) 7 then fe_neg hX else hX in
  Some (P3 hX hY hZ (fe_mul hX hY)).

(* ------------------------------------------------------------------ *)
(** ** The Montgomery curve *)

Definition ge_p3_to_montx (ed : ge_p3) : fe :=
  let y_plus_one := fe_add (p3_Y ed) (p3_Z ed) in
  let one_minus_y := fe_sub (p3_Z ed) (p3_Y ed) in
  let inv_one_minus_y := fe_invert one_minus_y in
  fe_mul y_plus_one inv_one_minus_y.

(** The bytes of a square root of -1. *)
Definition i_bytes : bytes := map u8
  [0xb0; 0xa0; 0x0e; 0x4a; 0x27; 0x1b; 0xee; 0xc4; 0x78; 0xe4; 0x2f; 0xad; 0x06; 0x18; 0x43; 0x2f;
   0xa7; 0xd7; 0xfb; 0x3d; 0x99; 0x00; 0x4d; 0x2b; 0x0b; 0xdf; 0xc1; 0x4f; 0x80; 0x24; 0x83; 0x2b].

(** A failed [assert] is [None]. *)
Definition assert_ (b : bool) : option unit := if b then Some () else None.

Definition fe_sqrt (a : fe) : option fe :=
  let i := fe_frombytes i_bytes in
  let exp := fe_pow22523 a in
  let legendre := fe_sq exp in
  let legendre := fe_sq legendre in
  let legendre := fe_mul legendre a in
  let legendre := fe_mul legendre a in
  _ ← assert_ (negb (fe_isequal legendre fe_0 =? 0) || negb (fe_isequal legendre fe_1 =? 0));
  let b := fe_mul a exp in
  let b2 := fe_sq b in
  let bi := fe_mul b i in
  let b := fe_cmov b bi (Z.lxor 1 (fe_isequal b2 a)) in
  let b2 := fe_sq b in
  _ ← assert_ (negb (fe_isequal a b2 =? 0));
  Some b.

(** The bytes of a square root of [-(A+2)], and of [d]. *)
Definition A_bytes : bytes := map u8
  [0x06; 0x7e; 0x45; 0xff; 0xaa; 0x04; 0x6e; 0xcc; 0x82; 0x1a; 0x7d; 0x4b; 0xd1; 0xd3; 0xa1; 0xc5;
   0x7e; 0x4f; 0xfc; 0x03; 0xdc; 0x08; 0x7b; 0xd2; 0xbb; 0x06; 0xa0; 0x60; 0xf4; 0xed; 0x26; 0x0f].
Definition dbytes : bytes := map u8
  [0xa3; 0x78; 0x59; 0x13; 0xca; 0x4d; 0xeb; 0x75; 0xab; 0xd8; 0x41; 0x41; 0x4d; 0x0a; 0x70; 0x00;
   0x98; 0xe8; 0x79; 0x77; 0x79; 0x40; 0xc7; 0x8c; 0x73; 0xfe; 0x6f; 0x2b; 0xee; 0x6c; 0x03; 0x52].

Definition ge_montx_to_p3 (u : fe) (ed_sign_bit : Z) : option ge_p3 :=
  let A := fe_frombytes A_bytes in
  let y := fe_montx_to_edy u in
  let v2 := fe_mont_rhs u in
  v ← fe_sqrt v2;
  let x := fe_mul u A in
  let iv := fe_invert v in
  let x := fe_mul x iv in
  let nx := fe_neg x in
  let x := fe_cmov x nx (Z.lxor (fe_isnegative x) ed_sign_bit) in
  let p := P3 x y fe_1 (fe_mul x y) in
  let d := fe_frombytes dbytes in
  let x2 := fe_sq (p3_X p) in
  let y2 := fe_sq (p3_Y p) in
  let dx2y2 := fe_mul x2 y2 in
  let dx2y2 := fe_mul dx2y2 d in
  let dx2y2 := fe_add dx2y2 fe_1 in
  let x2y2 := fe_neg x2 in
  let x2y2 := fe_add x2y2 y2 in
  _ ← assert_ (negb (fe_isequal x2y2 dx2y2 =? 0));
  Some p.

Definition legendre_is_nonsquare (in_ : fe) : Z :=
  let temp := fe_pow22523 in_ in
  let temp := fe_sq temp in
  let temp := fe_sq temp in
  let temp := fe_mul temp in_ in
  let temp := fe_mul temp in_ in
  Z.land 1 (byte_at (fe_tobytes temp) 31).

Definition elligator (r : fe) : fe :=
  let one := fe_1 in
  let A := <[0%nat := 486662]> fe_0 in
  let twor2 := fe_sq2 r in
  let twor2plus1 := fe_add twor2 one in
  let twor2plus1inv := fe_invert twor2plus1 in
  let x := fe_mul twor2plus1inv A in
  let x := fe_neg x in
  let e := fe_mont_rhs x in
  let nonsquare := legendre_is_nonsquare e in
  let Atemp := fe_cmov fe_0 A nonsquare in
  let u := fe_add x Atemp in
  let uneg := fe_neg u in
  fe_cmov u uneg nonsquare.
