(* ===== verification/GeScalar.v ===== *)
(** Scalar multiplication on the Edwards curve (ge_scalarmult_base.c,
    ge_double_scalarmult.c, additions/ge_scalarmult.c): signed digits of 4 bits with
    table look-ups in constant time, and sliding windows. *)

From S2P Require Import Prelude Buffers Crypto Limbs Scalar Donna Fe Ge GeTables.

(** A [signed char]. *)
Definition i8 (z : Z) : Z := (z + 2 ^ 7) mod 2 ^ 8 - 2 ^ 7.

(* ------------------------------------------------------------------ *)
(** ** Selection *)

Definition equal (b c : Z) : Z :=
  let ub := b mod 2 ^ 8 in
  let uc := c mod 2 ^ 8 in
  let x := Z.lxor ub uc in
  let y := u32 (x - 1) in
  Z.shiftr y 31.

Definition negative (b : Z) : Z := Z.shiftr (u64 b) 63.

(** [unsigned char babs = b - (((-bnegative) & b) << 1);] *)
Definition abs_digit (b bnegative : Z) : Z := (b - Z.shiftl (Z.land (- bnegative) b) 1) mod 2 ^ 8.

Definition cmov (t u : ge_precomp) (b : Z) : ge_precomp :=
  Precomp (fe_cmov (yplusx t) (yplusx u) b) (fe_cmov (yminusx t) (yminusx u) b) (fe_cmov (xy2d t) (xy2d u) b).

Definition table_at (pos j : nat) : ge_precomp := nth j (nth pos base []) ge_precomp_0.

Definition select (pos : nat) (b : Z) : ge_precomp :=
  let bnegative := negative b in
  let babs := abs_digit b bnegative in
  let t := foldl (fun t j => cmov t (table_at pos j) (equal babs (Z.of_nat (j + 1)))) ge_precomp_0 (seq 0 8) in
  let minust := Precomp (yminusx t) (yplusx t) (fe_neg (xy2d t)) in
  cmov t minust bnegative.

Definition cmov_cached (t u : ge_cached) (b : Z) : ge_cached :=
  Cached (fe_cmov (YplusX t) (YplusX u) b) (fe_cmov (YminusX t) (YminusX u) b) (fe_cmov (c_Z t) (c_Z u) b)
    (fe_cmov (T2d t) (T2d u) b).

Definition cached_0 : ge_cached := Cached fe_1 fe_1 fe_1 fe_0.

Definition select_cached (pre : list ge_cached) (b : Z) : ge_cached :=
  let bnegative := negative b in
  let babs := abs_digit b bnegative in
  let t := foldl (fun t j => cmov_cached t (nth j pre cached_0) (equal babs (Z.of_nat (j + 1)))) cached_0 (seq 0 8) in
  let minust := Cached (YminusX t) (YplusX t) (c_Z t) (fe_neg (T2d t)) in
  cmov_cached t minust bnegative.

(* ------------------------------------------------------------------ *)
(** ** Digits *)

(** [e[2*i+0] = (a[i] >> 0) & 15; e[2*i+1] = (a[i] >> 4) & 15;] *)
Definition nibbles (a : bytes) : list Z :=
  flat_map (fun i => [Z.land (Z.shiftr (byte_at a i) 0) 15; Z.land (Z.shiftr (byte_at a i) 4) 15]) (seq 0 32).

(** [e[i] += carry; carry = e[i] + 8; carry >>= 4; e[i] -= carry << 4;] *)
Definition digit_carry (s : list Z * Z) (i : nat) : list Z * Z :=
  let '(e, carry) := s in
  let ei := i8 (at_ e i + carry) in
  let carry := Z.shiftr (i8 (ei + 8)) 4 in
  (<[i := i8 (ei - Z.shiftl carry 4)]> e, carry).

Definition recode (a : bytes) : list Z :=
  let '(e, carry) := foldl digit_carry (nibbles a, 0) (seq 0 63) in
  <[63%nat := i8 (at_ e 63 + carry)]> e.

Definition ge_scalarmult_base (a : bytes) : ge_p3 :=
  let e := recode a in
  let h := foldl (fun h i => ge_p1p1_to_p3 (ge_madd h (select i (at_ e (2 * i + 1))))) ge_p3_0 (seq 0 32) in
  let s := ge_p1p1_to_p2 (ge_p3_dbl h) in
  let s := ge_p1p1_to_p2 (ge_p2_dbl s) in
  let s := ge_p1p1_to_p2 (ge_p2_dbl s) in
  let h := ge_p1p1_to_p3 (ge_p2_dbl s) in
  foldl (fun h i => ge_p1p1_to_p3 (ge_madd h (select i (at_ e (2 * i))))) h (seq 0 32).

(** [A], [2A], ..., [8A]. *)
Definition multiples (A : ge_p3) : list ge_cached :=
  let pre0 := ge_p3_to_cached A in
  let t0 := ge_p1p1_to_p3 (ge_p3_dbl A) in
  let pre1 := ge_p3_to_cached t0 in
  let t1 := ge_p1p1_to_p3 (ge_add A pre1) in
  let pre2 := ge_p3_to_cached t1 in
  let t0 := ge_p1p1_to_p3 (ge_p3_dbl t0) in
  let pre3 := ge_p3_to_cached t0 in
  let t2 := ge_p1p1_to_p3 (ge_add A pre3) in
  let pre4 := ge_p3_to_cached t2 in
  let t1 := ge_p1p1_to_p3 (ge_p3_dbl t1) in
  let pre5 := ge_p3_to_cached t1 in
  let t1 := ge_p1p1_to_p3 (ge_add A pre5) in
  let pre6 := ge_p3_to_cached t1 in
  let t0 := ge_p1p1_to_p3 (ge_p3_dbl t0) in
  let pre7 := ge_p3_to_cached t0 in
  [pre0; pre1; pre2; pre3; pre4; pre5; pre6; pre7].

(** [i] goes from 63 down to 1. *)
Definition ge_scalarmult (a : bytes) (A : ge_p3) : ge_p3 :=
  let e := recode a in
  let pre := multiples A in
  let h := foldl (fun h i =>
    let r := ge_add h (select_cached pre (at_ e i)) in
    let s := ge_p1p1_to_p2 r in
    let s := ge_p1p1_to_p2 (ge_p2_dbl s) in
    let s := ge_p1p1_to_p2 (ge_p2_dbl s) in
    let s := ge_p1p1_to_p2 (ge_p2_dbl s) in
    ge_p1p1_to_p3 (ge_p2_dbl s)) ge_p3_0 (rev (seq 1 63)) in
  ge_p1p1_to_p3 (ge_add h (select_cached pre (at_ e 0))).

(* ------------------------------------------------------------------ *)
(** ** Sliding windows *)

Definition bits (a : bytes) : list Z :=
  map (fun i => Z.land 1 (Z.shiftr (byte_at a (Nat.div i 8)) (Z.of_nat (i mod 8)))) (seq 0 256).

(** [for (k = i + b; k < 256; ++k) { if (!r[k]) { r[k] = 1; break; } r[k] = 0; }] *)
Fixpoint slide_carry (n k : nat) (r : list Z) : list Z :=
  match n with
  | O => r
  | S n' => if at_ r k =? 0 then <[k := 1]> r else slide_carry n' (S k) (<[k := 0]> r)
  end.

(** [for (b = 1; b <= 6 && i + b < 256; ++b)], from [b] on. *)
Fixpoint slide_window (n b i : nat) (r : list Z) : list Z :=
  match n with
  | O => r
  | S n' =>
      if negb (i + b <? 256)%nat then r
      else if at_ r (i + b) =? 0 then slide_window n' (S b) i r
      else
        let d := Z.shiftl (at_ r (i + b)) (Z.of_nat b) in
        if at_ r i + d <=? 15 then
          slide_window n' (S b) i (<[(i + b)%nat := 0]> (<[i := i8 (at_ r i + d)]> r))
        else if at_ r i - d >=? -15 then
          slide_window n' (S b) i (slide_carry (256 - (i + b)) (i + b) (<[i := i8 (at_ r i - d)]> r))
        else r
  end.

Definition slide (a : bytes) : list Z :=
  foldl (fun r i => if at_ r i =? 0 then r else slide_window 6 1 i r) (bits a) (seq 0 256).

(** [A], [3A], ..., [15A]. *)
Definition odd_multiples (A : ge_p3) : list ge_cached :=
  let A2 := ge_p1p1_to_p3 (ge_p3_dbl A) in
  let next (c : ge_cached) := ge_p3_to_cached (ge_p1p1_to_p3 (ge_add A2 c)) in
  let Ai0 := ge_p3_to_cached A in
  let Ai1 := next Ai0 in
  let Ai2 := next Ai1 in
  let Ai3 := next Ai2 in
  let Ai4 := next Ai3 in
  let Ai5 := next Ai4 in
  let Ai6 := next Ai5 in
  let Ai7 := next Ai6 in
  [Ai0; Ai1; Ai2; Ai3; Ai4; Ai5; Ai6; Ai7].

(** The number of positions up to the highest digit that is not 0. *)
Fixpoint top_digit (n : nat) (aslide bslide : list Z) : nat :=
  match n with
  | O => O
  | S i => if negb (at_ aslide i =? 0) || negb (at_ bslide i =? 0) then S i else top_digit i aslide bslide
  end.

(** A step of the loop, at digits [da] and [db]. *)
Definition double_step (Ai : list ge_cached) (r : ge_p2) (da db : Z) : ge_p2 :=
  let t := ge_p2_dbl r in
  let t :=
    if da >? 0 then ge_add (ge_p1p1_to_p3 t) (nth (Z.to_nat (Z.quot da 2)) Ai cached_0)
    else if da <? 0 then ge_sub (ge_p1p1_to_p3 t) (nth (Z.to_nat (Z.quot (- da) 2)) Ai cached_0)
    else t in
  let t :=
    if db >? 0 then ge_madd (ge_p1p1_to_p3 t) (nth (Z.to_nat (Z.quot db 2)) Bi ge_precomp_0)
    else if db <? 0 then ge_msub (ge_p1p1_to_p3 t) (nth (Z.to_nat (Z.quot (- db) 2)) Bi ge_precomp_0)
    else t in
  ge_p1p1_to_p2 t.

Definition ge_double_scalarmult_vartime (a : bytes) (A : ge_p3) (b : bytes) : ge_p2 :=
  let aslide := slide a in
  let bslide := slide b in
  let Ai := odd_multiples A in
  foldl (fun r i => double_step Ai r (at_ aslide i) (at_ bslide i)) ge_p2_0 (rev (seq 0 (top_digit 256 aslide bslide))).
