(* ===== verification/Sha512.v ===== *)
(** SHA-512 as curve25519/ed25519/nacl_sha512 computes it: [hash.c] pads the
    message in a local buffer, [blocks.c] absorbs blocks of 128 bytes with a
    message schedule of sixteen words that is extended in place. *)

From S2P Require Import Prelude Buffers Crypto Limbs.

(* ------------------------------------------------------------------ *)
(** ** Words *)

Definition load_bigendian (x : bytes) (o : nat) : Z :=
  Z.lor (Z.lor (Z.lor (Z.lor (Z.lor (Z.lor (Z.lor (byte_at x (o + 7)) (Z.shiftl (byte_at x (o + 6)) 8))
    (Z.shiftl (byte_at x (o + 5)) 16)) (Z.shiftl (byte_at x (o + 4)) 24)) (Z.shiftl (byte_at x (o + 3)) 32))
    (Z.shiftl (byte_at x (o + 2)) 40)) (Z.shiftl (byte_at x (o + 1)) 48)) (Z.shiftl (byte_at x o) 56).

(** [x[7] = u; u >>= 8; x[6] = u; ...] *)
Fixpoint store_loop (n : nat) (u : Z) (x : bytes) : bytes :=
  match n with
  | O => x
  | S n' => store_loop n' (Z.shiftr u 8) (u8 u :: x)
  end.
Definition store_bigendian (u : Z) : bytes := store_loop 8 u [].

Definition SHR (x c : Z) : Z := Z.shiftr x c.
Definition ROTR (x c : Z) : Z := Z.lor (Z.shiftr x c) (u64 (Z.shiftl x (64 - c))).
Definition Ch (x y z : Z) : Z := Z.lxor (Z.land x y) (Z.land (u64 (Z.lnot x)) z).
Definition Maj (x y z : Z) : Z := Z.lxor (Z.lxor (Z.land x y) (Z.land x z)) (Z.land y z).
Definition Sigma0 (x : Z) : Z := Z.lxor (Z.lxor (ROTR x 28) (ROTR x 34)) (ROTR x 39).
Definition Sigma1 (x : Z) : Z := Z.lxor (Z.lxor (ROTR x 14) (ROTR x 18)) (ROTR x 41).
Definition sigma0 (x : Z) : Z := Z.lxor (Z.lxor (ROTR x 1) (ROTR x 8)) (SHR x 7).
Definition sigma1 (x : Z) : Z := Z.lxor (Z.lxor (ROTR x 19) (ROTR x 61)) (SHR x 6).

(* ------------------------------------------------------------------ *)
(** ** A block *)

(** The registers [a] to [h]. *)
Definition registers : Type := Z * Z * Z * Z * Z * Z * Z * Z.

(** [M(w0,w14,w9,w1)] at word [i] of the sixteen. *)
Definition M (w : list Z) (i : nat) : list Z :=
  <[i := u64 (sigma1 (at_ w ((i + 14) mod 16)) + at_ w ((i + 9) mod 16) + sigma0 (at_ w ((i + 1) mod 16)) + at_ w i)]> w.
Definition EXPAND (w : list Z) : list Z := foldl M w (seq 0 16).

Definition F (s : registers) (w k : Z) : registers :=
  let '(a, b, c, d, e, f, g, h) := s in
  let T1 := u64 (h + Sigma1 e + Ch e f g + k + w) in
  let T2 := u64 (Sigma0 a + Maj a b c) in
  (u64 (T1 + T2), a, b, c, u64 (d + T1), e, f, g).

Definition round_constants : list Z :=
  [0x428a2f98d728ae22; 0x7137449123ef65cd; 0xb5c0fbcfec4d3b2f; 0xe9b5dba58189dbbc;
   0x3956c25bf348b538; 0x59f111f1b605d019; 0x923f82a4af194f9b; 0xab1c5ed5da6d8118;
   0xd807aa98a3030242; 0x12835b0145706fbe; 0x243185be4ee4b28c; 0x550c7dc3d5ffb4e2;
   0x72be5d74f27b896f; 0x80deb1fe3b1696b1; 0x9bdc06a725c71235; 0xc19bf174cf692694;
   0xe49b69c19ef14ad2; 0xefbe4786384f25e3; 0x0fc19dc68b8cd5b5; 0x240ca1cc77ac9c65;
   0x2de92c6f592b0275; 0x4a7484aa6ea6e483; 0x5cb0a9dcbd41fbd4; 0x76f988da831153b5;
   0x983e5152ee66dfab; 0xa831c66d2db43210; 0xb00327c898fb213f; 0xbf597fc7beef0ee4;
   0xc6e00bf33da88fc2; 0xd5a79147930aa725; 0x06ca6351e003826f; 0x142929670a0e6e70;
   0x27b70a8546d22ffc; 0x2e1b21385c26c926; 0x4d2c6dfc5ac42aed; 0x53380d139d95b3df;
   0x650a73548baf63de; 0x766a0abb3c77b2a8; 0x81c2c92e47edaee6; 0x92722c851482353b;
   0xa2bfe8a14cf10364; 0xa81a664bbc423001; 0xc24b8b70d0f89791; 0xc76c51a30654be30;
   0xd192e819d6ef5218; 0xd69906245565a910; 0xf40e35855771202a; 0x106aa07032bbd1b8;
   0x19a4c116b8d2d0c8; 0x1e376c085141ab53; 0x2748774cdf8eeb99; 0x34b0bcb5e19b48a8;
   0x391c0cb3c5c95a63; 0x4ed8aa4ae3418acb; 0x5b9cca4f7763e373; 0x682e6ff3d6b2b8a3;
   0x748f82ee5defb2fc; 0x78a5636f43172f60; 0x84c87814a1f0ab72; 0x8cc702081a6439ec;
   0x90befffa23631e28; 0xa4506cebde82bde9; 0xbef9a3f7b2c67915; 0xc67178f2e372532b;
   0xca273eceea26619c; 0xd186b8c721c0c207; 0xeada7dd6cde0eb1e; 0xf57d4f7fee6ed178;
   0x06f067aa72176fba; 0x0a637dc5a2c898a6; 0x113f9804bef90dae; 0x1b710b35131c471b;
   0x28db77f523047d84; 0x32caab7b40c72493; 0x3c9ebe0a15c9bebc; 0x431d67c49c100d4c;
   0x4cc5d4becb3e42b6; 0x597f299cfc657e2a; 0x5fcb6fab3ad6faec; 0x6c44198c4a475817].

(** Sixteen rounds, from constant [16 * r] on. *)
Definition rounds (w : list Z) (r : nat) (s : registers) : registers :=
  foldl (fun s i => F s (at_ w i) (at_ round_constants (16 * r + i))) s (seq 0 16).

(** The schedule is extended between groups of sixteen rounds. *)
Fixpoint groups (n : nat) (r : nat) (w : list Z) (s : registers) : registers :=
  match n with
  | O => rounds w r s
  | S n' => groups n' (S r) (EXPAND w) (rounds w r s)
  end.

Definition add_registers (s t : registers) : registers :=
  let '(a, b, c, d, e, f, g, h) := s in
  let '(a', b', c', d', e', f', g', h') := t in
  (u64 (a + a'), u64 (b + b'), u64 (c + c'), u64 (d + d'), u64 (e + e'), u64 (f + f'), u64 (g + g'), u64 (h + h')).

(** The body of the loop, on the block at [in + o]. *)
Definition sha512_block (in_ : bytes) (state : registers) (o : nat) : registers :=
  let w := map (fun i => load_bigendian in_ (o + 8 * i)) (seq 0 16) in
  add_registers (groups 4 0 w state) state.

Definition load_registers (statebytes : bytes) : registers :=
  (load_bigendian statebytes 0, load_bigendian statebytes 8, load_bigendian statebytes 16, load_bigendian statebytes 24,
   load_bigendian statebytes 32, load_bigendian statebytes 40, load_bigendian statebytes 48, load_bigendian statebytes 56).
Definition store_registers (s : registers) : bytes :=
  let '(a, b, c, d, e, f, g, h) := s in
  store_bigendian a ++ store_bigendian b ++ store_bigendian c ++ store_bigendian d ++
  store_bigendian e ++ store_bigendian f ++ store_bigendian g ++ store_bigendian h.

(** [while (inlen >= 128) { ...; in += 128; inlen -= 128; }] *)
Definition crypto_hashblocks_sha512 (statebytes in_ : bytes) : bytes :=
  store_registers (foldl (fun s i => sha512_block in_ s (128 * i)) (load_registers statebytes)
    (seq 0 (length in_ / 128))).

(* ------------------------------------------------------------------ *)
(** ** The hash *)

Definition sha512_iv : bytes :=
  map u8
  [0x6a; 0x09; 0xe6; 0x67; 0xf3; 0xbc; 0xc9; 0x08; 0xbb; 0x67; 0xae; 0x85; 0x84; 0xca; 0xa7; 0x3b;
   0x3c; 0x6e; 0xf3; 0x72; 0xfe; 0x94; 0xf8; 0x2b; 0xa5; 0x4f; 0xf5; 0x3a; 0x5f; 0x1d; 0x36; 0xf1;
   0x51; 0x0e; 0x52; 0x7f; 0xad; 0xe6; 0x82; 0xd1; 0x9b; 0x05; 0x68; 0x8c; 0x2b; 0x3e; 0x6c; 0x1f;
   0x1f; 0x83; 0xd9; 0xab; 0xfb; 0x41; 0xbd; 0x6b; 0x5b; 0xe0; 0xcd; 0x19; 0x13; 0x7e; 0x21; 0x79].

(** [padded[119] = bytes >> 61; ...; padded[126] = bytes >> 5; padded[127] = bytes << 3;] *)
Definition length_bytes (bytes : Z) : list byte :=
  map (fun s => u8 (Z.shiftr bytes s)) [61; 53; 45; 37; 29; 21; 13; 5] ++ [u8 (Z.shiftl bytes 3)].

Definition crypto_hash_sha512 (in_ : bytes) : bytes :=
  let bytes := u64 (Z.of_nat (length in_)) in
  let h := crypto_hashblocks_sha512 sha512_iv in_ in
  let inlen := (length in_ mod 128)%nat in
  let rest := drop (length in_ - inlen) in_ in
  let padded :=
    if (inlen <? 112)%nat
    then rest ++ [u8 128] ++ repeat x00 (119 - (inlen + 1)) ++ length_bytes bytes
    else rest ++ [u8 128] ++ repeat x00 (247 - (inlen + 1)) ++ length_bytes bytes in
  crypto_hashblocks_sha512 h padded.
