(* ===== verification/Sha512Facts.v ===== *)
(** [crypto_hash_sha512] is the SHA-512 of FIPS 180-4: the reference pads the whole
    message, computes the eighty words of the schedule of a block and runs eighty
    rounds; the code pads the last bytes only, and keeps sixteen words. *)

From S2P Require Import Prelude Buffers Crypto Limbs Sha512.

(* ------------------------------------------------------------------ *)
(** ** The reference *)

(** The big-endian word of [n] bytes at [o], and the bytes of a number. *)
Definition be_word (n : nat) (m : bytes) (o : nat) : Z := foldl (fun v i => 256 * v + byte_at m (o + i)) 0 (seq 0 n).
Definition be_bytes (n : nat) (z : Z) : bytes := rev (le_bytes n z).

(** [M], [0x80], the least number of zero bytes, the length in bits on 16 bytes. *)
Definition pad (m : bytes) : bytes :=
  m ++ [u8 128] ++ repeat x00 (Z.to_nat ((111 - Z.of_nat (length m)) mod 128)) ++ be_bytes 16 (8 * Z.of_nat (length m)).

(** [W_t = sigma1(W_(t-2)) + W_(t-7) + sigma0(W_(t-15)) + W_(t-16)] for [t >= 16]. *)
Definition next_word (W : list Z) : Z :=
  let t := length W in u64 (sigma1 (at_ W (t - 2)) + at_ W (t - 7) + sigma0 (at_ W (t - 15)) + at_ W (t - 16)).
Definition extended (words : list Z) (n : nat) : list Z := Nat.iter n (fun W => W ++ [next_word W]) words.
Definition schedule (words : list Z) : list Z := extended words 64.

Definition compress (m : bytes) (H : registers) (i : nat) : registers :=
  let W := schedule (map (fun j => be_word 8 m (128 * i + 8 * j)) (seq 0 16)) in
  add_registers (foldl (fun s t => F s (at_ W t) (at_ round_constants t)) H (seq 0 80)) H.

(** The first 64 bits of the fractional parts of the square roots of the first
    eight primes. *)
Definition H0 : registers :=
  (0x6a09e667f3bcc908, 0xbb67ae8584caa73b, 0x3c6ef372fe94f82b, 0xa54ff53a5f1d36f1,
   0x510e527fade682d1, 0x9b05688c2b3e6c1f, 0x1f83d9abfb41bd6b, 0x5be0cd19137e2179).

Definition digest (H : registers) : bytes :=
  let '(a, b, c, d, e, f, g, h) := H in
  be_bytes 8 a ++ be_bytes 8 b ++ be_bytes 8 c ++ be_bytes 8 d ++ be_bytes 8 e ++ be_bytes 8 f ++ be_bytes 8 g ++ be_bytes 8 h.

Definition SHA_512 (m : bytes) : bytes := digest (foldl (compress (pad m)) H0 (seq 0 (length (pad m) / 128))).

(* ------------------------------------------------------------------ *)
(** ** Words *)

Lemma load_bigendian_spec x o : load_bigendian x o = be_word 8 x o.
Proof.
  unfold load_bigendian, be_word. cbn [seq foldl]. rewrite Nat.add_0_r.
  pose proof (byte_at_range x o). pose proof (byte_at_range x (o + 1)). pose proof (byte_at_range x (o + 2)).
  pose proof (byte_at_range x (o + 3)). pose proof (byte_at_range x (o + 4)). pose proof (byte_at_range x (o + 5)).
  pose proof (byte_at_range x (o + 6)). pose proof (byte_at_range x (o + 7)).
  rewrite (lor_shiftl _ _ 8), (lor_shiftl _ _ 16), (lor_shiftl _ _ 24), (lor_shiftl _ _ 32), (lor_shiftl _ _ 40),
    (lor_shiftl _ _ 48), (lor_shiftl _ _ 56) by lia. lia.
Qed.

Lemma store_loop_spec n u x : store_loop n u x = be_bytes n u ++ x.
Proof.
  revert u x. induction n as [|n IH]; intros u x; [done|]. cbn [store_loop]. rewrite IH, Z.shiftr_div_pow2 by done.
  unfold be_bytes. cbn [le_bytes rev]. by rewrite <- app_assoc.
Qed.

Lemma store_bigendian_spec u : store_bigendian u = be_bytes 8 u.
Proof. unfold store_bigendian. by rewrite store_loop_spec, app_nil_r. Qed.

Lemma length_be_bytes n z : length (be_bytes n z) = n.
Proof. unfold be_bytes. by rewrite length_rev, length_le_bytes. Qed.

Lemma be_word_S n m o : be_word (S n) m o = 256 * be_word n m o + byte_at m (o + n).
Proof. unfold be_word. by rewrite seq_S, foldl_app. Qed.

Lemma be_word_ext n m m' o o' : (forall i, (i < n)%nat -> byte_at m (o + i) = byte_at m' (o' + i)) ->
  be_word n m o = be_word n m' o'.
Proof.
  induction n as [|n IH]; intros H; [done|]. rewrite !be_word_S, IH, H by (intros; lia || apply H; lia). done.
Qed.

Lemma be_word_app n a b c o : o = length a -> length b = n -> be_word n (a ++ b ++ c) o = be_word n b 0.
Proof.
  intros -> <-. apply be_word_ext. intros i Hi. unfold byte_at. by rewrite app_nth2_plus, app_nth1.
Qed.

Lemma be_word_value b : be_word (length b) b 0 = le_val (rev b).
Proof.
  induction b as [|x b IH] using rev_ind; [done|]. rewrite rev_app_distr, length_app, Nat.add_1_r, be_word_S. cbn [rev app le_val].
  rewrite <- IH. rewrite (be_word_ext _ (b ++ [x]) b 0 0) by (intros i Hi; unfold byte_at; by rewrite app_nth1).
  unfold byte_at. rewrite Nat.add_0_l, nth_middle. lia.
Qed.

Lemma be_word_bytes z : be_word 8 (be_bytes 8 z) 0 = u64 z.
Proof.
  pose proof (be_word_value (be_bytes 8 z)) as E. rewrite length_be_bytes in E. rewrite E.
  unfold be_bytes. rewrite rev_involutive, le_val_le_bytes. done.
Qed.

Lemma be_word_range n m o : 0 <= be_word n m o < 256 ^ Z.of_nat n.
Proof.
  induction n as [|n IH]; [done|]. rewrite be_word_S, Nat2Z.inj_succ, Z.pow_succ_r by lia.
  pose proof (byte_at_range m (o + n)). lia.
Qed.

(* ------------------------------------------------------------------ *)
(** ** The registers *)

Definition words_64 (s : registers) : Prop :=
  let '(a, b, c, d, e, f, g, h) := s in
  u64 a = a /\ u64 b = b /\ u64 c = c /\ u64 d = d /\ u64 e = e /\ u64 f = f /\ u64 g = g /\ u64 h = h.

Lemma u64_u64 z : u64 (u64 z) = u64 z.
Proof. apply Zmod_mod. Qed.

Lemma add_registers_64 s t : words_64 (add_registers s t).
Proof. destruct s as [[[[[[[]]]]]]], t as [[[[[[[]]]]]]]. unfold words_64, add_registers. by rewrite !u64_u64. Qed.

Lemma store_registers_spec s : store_registers s = digest s.
Proof. destruct s as [[[[[[[a b] c] d] e] f] g] h]. unfold store_registers. by rewrite !store_bigendian_spec. Qed.

Lemma be_word_concat l k o : o = (8 * k)%nat -> (k < length l)%nat -> be_word 8 (concat (map (be_bytes 8) l)) o = u64 (at_ l k).
Proof.
  intros ->. revert k. induction l as [|z l IH]; intros k Hk; [simpl in Hk; lia|]. cbn [map concat]. destruct k as [|k].
  - rewrite <- be_word_bytes. apply be_word_ext. intros i Hi. unfold byte_at. by rewrite app_nth1 by (by rewrite length_be_bytes).
  - cbn [length] in Hk. change (at_ (z :: l) (S k)) with (at_ l k). rewrite <- (IH k) by lia. apply be_word_ext. intros i Hi. unfold byte_at.
    rewrite app_nth2 by (rewrite length_be_bytes; lia). rewrite length_be_bytes. by replace (8 * S k + i - 8)%nat with (8 * k + i)%nat by lia.
Qed.

Lemma load_store_registers s : words_64 s -> load_registers (store_registers s) = s.
Proof.
  rewrite store_registers_spec. destruct s as [[[[[[[a b] c] d] e] f] g] h]. intros (Ha&Hb&Hc&Hd&He&Hf&Hg&Hh).
  assert (digest (a, b, c, d, e, f, g, h) = concat (map (be_bytes 8) [a; b; c; d; e; f; g; h])) as ->
    by (unfold digest; cbn [map concat]; by rewrite app_nil_r).
  pose proof (be_word_concat [a; b; c; d; e; f; g; h]) as E. unfold load_registers. rewrite !load_bigendian_spec.
  rewrite (E 0%nat 0%nat), (E 1%nat 8%nat), (E 2%nat 16%nat), (E 3%nat 24%nat), (E 4%nat 32%nat), (E 5%nat 40%nat), (E 6%nat 48%nat),
    (E 7%nat 56%nat) by (cbn [length]; lia).
  unfold at_. cbn [nth]. congruence.
Qed.

(* ------------------------------------------------------------------ *)
(** ** The schedule *)

Section rolling.
  Context (W : nat -> Z).
  Hypothesis recurrence : forall t, (16 <= t < 80)%nat ->
    W t = u64 (sigma1 (W (t - 2)%nat) + W (t - 7)%nat + sigma0 (W (t - 15)%nat) + W (t - 16)%nat).

(** The sixteen words after [i] steps of the extension from word [o] on. *)
Definition rolled (o i : nat) : list Z := map (fun j => W (o + if (j <? i)%nat then 16 + j else j)%nat) (seq 0 16).

Lemma at_map (f : nat -> Z) j n : (j < n)%nat -> at_ (map f (seq 0 n)) j = f j.
Proof. intros Hj. unfold at_. rewrite (nth_indep _ 0 (f 0%nat)) by (by rewrite length_map, length_seq). rewrite map_nth, seq_nth by done. done. Qed.

Lemma rolled_at o i k : (i < 16)%nat -> (k < 16)%nat -> at_ (rolled o i) ((i + k) mod 16) = W (o + (i + k))%nat.
Proof.
  intros Hi Hk. unfold rolled. rewrite at_map by (apply Nat.mod_upper_bound; lia). f_equal.
  destruct (Nat.ltb_spec ((i + k) mod 16) i); [|]; pose proof (Nat.div_mod_eq (i + k) 16);
    pose proof (Nat.mod_upper_bound (i + k) 16 ltac:(lia)); lia.
Qed.

Lemma rolled_M o i : (o + 32 <= 80)%nat -> (i < 16)%nat -> M (rolled o i) i = rolled o (S i).
Proof.
  intros Ho Hi. unfold M. rewrite !rolled_at by lia.
  pose proof (rolled_at o i 0 Hi ltac:(lia)) as E. rewrite Nat.add_0_r, Nat.mod_small in E by lia. rewrite E. clear E.
  pose proof (recurrence (o + 16 + i) ltac:(lia)) as R.
  replace (o + 16 + i - 2)%nat with (o + (i + 14))%nat in R by lia. replace (o + 16 + i - 7)%nat with (o + (i + 9))%nat in R by lia.
  replace (o + 16 + i - 15)%nat with (o + (i + 1))%nat in R by lia. replace (o + 16 + i - 16)%nat with (o + i)%nat in R by lia.
  rewrite <- R. clear R. apply list_eq. intros j. unfold rolled. destruct (decide (j = i)) as [->|Hj].
  - rewrite list_lookup_insert_eq by (by rewrite length_map, length_seq). rewrite list_lookup_fmap, lookup_seq_lt by done.
    change (0 + i)%nat with i. cbn [option_fmap option_map fmap]. f_equal. rewrite (proj2 (Nat.ltb_lt i (S i))) by lia. f_equal. lia.
  - rewrite list_lookup_insert_ne by done. rewrite !list_lookup_fmap. destruct (seq 0 16 !! j) as [j'|] eqn:E; [|done].
    apply lookup_seq in E as [-> _]. change (0 + j)%nat with j. cbn [option_fmap option_map fmap]. do 2 f_equal.
    destruct (Nat.ltb_spec j i), (Nat.ltb_spec j (S i)); done || lia.
Qed.

Lemma EXPAND_rolled o : (o + 32 <= 80)%nat -> EXPAND (rolled o 0) = rolled (o + 16) 0.
Proof.
  intros Ho. unfold EXPAND. assert (forall n, (n <= 16)%nat -> foldl M (rolled o 0) (seq 0 n) = rolled o n) as H.
  { induction n as [|n IH]; intros Hn; [done|]. rewrite seq_S, foldl_app, IH by lia. cbn [foldl]. apply rolled_M; lia. }
  rewrite H by lia. unfold rolled. apply map_ext_in. intros j Hj%in_seq. f_equal.
  destruct (Nat.ltb_spec j 16); [|lia]. simpl. lia.
Qed.

Lemma rounds_rolled r s : rounds (rolled (16 * r) 0) r s =
  foldl (fun s t => F s (W t) (at_ round_constants t)) s (seq (16 * r) 16).
Proof.
  unfold rounds. pose proof (fmap_add_seq (16 * r) 0 16) as E. rewrite Nat.add_0_r in E. rewrite <- E, foldl_fmap. clear E.
  assert (forall l s, Forall (fun i => (i < 16)%nat) l ->
    foldl (fun s i => F s (at_ (rolled (16 * r) 0) i) (at_ round_constants (16 * r + i))) s l =
    foldl (fun s i => F s (W (16 * r + i)%nat) (at_ round_constants (16 * r + i))) s l) as H.
  { intros l s' Hl. revert s'. induction Hl as [|i l Hi _ IH]; intros s'; [done|]. cbn [foldl]. rewrite IH.
    unfold rolled. rewrite at_map by done. done. }
  apply H, Forall_forall. intros i Hi%elem_of_seq. lia.
Qed.

Lemma groups_rolled n r s : (16 * r + 16 * n + 16 <= 80)%nat ->
  groups n r (rolled (16 * r) 0) s = foldl (fun s t => F s (W t) (at_ round_constants t)) s (seq (16 * r) (16 * S n)).
Proof.
  revert r s. induction n as [|n IH]; intros r s Hn; cbn [groups].
  - apply rounds_rolled.
  - rewrite EXPAND_rolled by lia. replace (16 * r + 16)%nat with (16 * S r)%nat by lia. rewrite IH by lia.
    rewrite rounds_rolled, <- foldl_app. f_equal. replace (16 * S (S n))%nat with (16 + 16 * S n)%nat by lia.
    rewrite seq_app. do 2 f_equal. lia.
Qed.
End rolling.

Lemma extended_S words n : extended words (S n) = extended words n ++ [next_word (extended words n)].
Proof. done. Qed.

Lemma extended_length words n : length (extended words n) = (length words + n)%nat.
Proof. induction n as [|n IH]; [by rewrite Nat.add_0_r|]. rewrite extended_S, length_app, IH. cbn [length]. lia. Qed.

Lemma at_app_l (a b : list Z) i : (i < length a)%nat -> at_ (a ++ b) i = at_ a i.
Proof. intros Hi. unfold at_. by apply app_nth1. Qed.

Lemma extended_words words n i : (i < length words)%nat -> at_ (extended words n) i = at_ words i.
Proof.
  intros Hi. induction n as [|n IH]; [done|]. rewrite extended_S, at_app_l by (rewrite extended_length; lia). done.
Qed.

Lemma extended_recurrence words n t : length words = 16%nat -> (16 <= t < 16 + n)%nat ->
  let W := at_ (extended words n) in
  W t = u64 (sigma1 (W (t - 2)%nat) + W (t - 7)%nat + sigma0 (W (t - 15)%nat) + W (t - 16)%nat).
Proof.
  intros Hl. induction n as [|n IH]; intros Ht W; [lia|]. unfold W. rewrite extended_S.
  pose proof (extended_length words n) as HW. rewrite Hl in HW. destruct (decide (t = 16 + n)%nat) as [->|Hn].
  - unfold at_ at 1. rewrite <- HW. rewrite nth_middle. unfold next_word. cbv zeta.
    rewrite !at_app_l by lia. done.
  - rewrite !at_app_l by lia. apply IH. lia.
Qed.

Lemma sha512_block_spec m s i : sha512_block m s (128 * i) = compress m s i.
Proof.
  unfold sha512_block, compress. cbv zeta. f_equal.
  set (words := map _ (seq 0 16)). set (ws := map (fun j => be_word 8 m (128 * i + 8 * j)) (seq 0 16)).
  assert (words = ws) as -> by (apply map_ext; intros j; apply load_bigendian_spec).
  assert (length ws = 16%nat) as Hl by (unfold ws; by rewrite length_map, length_seq).
  unfold schedule. pose proof (fun t => extended_recurrence ws 64 t Hl) as R. cbv zeta in R. 
  pose proof (extended_words ws 64) as Hw. set (W := at_ (extended ws 64)) in *.
  assert (ws = rolled W 0 0) as E.
  { unfold rolled. apply list_eq. intros j. destruct (decide (j < 16)%nat) as [Hj|Hj];
      [|rewrite !lookup_ge_None_2; [done|rewrite length_map, length_seq; lia|lia]].
    rewrite list_lookup_fmap, lookup_seq_lt by done. cbn [option_fmap option_map fmap]. change (0 + j)%nat with j.
    cbn [Nat.ltb Nat.leb]. rewrite Hw by lia. unfold at_. rewrite nth_lookup.
    destruct (lookup_lt_is_Some_2 ws j ltac:(lia)) as [x Hx]. rewrite Nat.add_0_l, Hx. done. }
  rewrite E. clear E Hl Hw. clearbody W.
  exact (groups_rolled W R 4 0 s ltac:(lia)).
Qed.

Lemma compress_ext m m' s i i' : (forall j, (j < 128)%nat -> byte_at m (128 * i + j) = byte_at m' (128 * i' + j)) ->
  compress m s i = compress m' s i'.
Proof.
  intros H. unfold compress.
  assert (map (fun j => be_word 8 m (128 * i + 8 * j)) (seq 0 16) = map (fun j => be_word 8 m' (128 * i' + 8 * j)) (seq 0 16)) as ->; [|done].
  apply map_ext_in. intros j Hj%in_seq. apply be_word_ext. intros k Hk. rewrite <- !Nat.add_assoc. apply H. lia.
Qed.

(** Blocks of a message that begins, or ends, with another one. *)
Lemma compress_prefix m m' s i : (128 * i + 128 <= length m)%nat -> compress (m ++ m') s i = compress m s i.
Proof. intros Hi. apply compress_ext. intros j Hj. unfold byte_at. by rewrite app_nth1 by lia. Qed.

Lemma compress_suffix m m' s k i : length m = (128 * k)%nat -> compress (m ++ m') s (k + i) = compress m' s i.
Proof.
  intros Hk. apply compress_ext. intros j Hj. unfold byte_at. rewrite app_nth2 by lia. do 2 f_equal. lia.
Qed.

Lemma blocks_prefix m m' s k : (128 * k <= length m)%nat ->
  foldl (compress (m ++ m')) s (seq 0 k) = foldl (compress m) s (seq 0 k).
Proof.
  induction k as [|k IH]; intros Hk; [done|]. rewrite seq_S, !foldl_app, IH by lia. cbn [foldl]. apply compress_prefix. lia.
Qed.

Lemma blocks_suffix m m' s k n : length m = (128 * k)%nat ->
  foldl (compress (m ++ m')) s (seq k n) = foldl (compress m') s (seq 0 n).
Proof.
  intros Hk. induction n as [|n IH]; [done|]. rewrite !seq_S, !foldl_app, IH. cbn [foldl]. by apply compress_suffix.
Qed.

Lemma blocks_64 m s n : words_64 s -> words_64 (foldl (compress m) s (seq 0 n)).
Proof. intros Hs. destruct n as [|n]; [done|]. rewrite seq_S, foldl_app. apply add_registers_64. Qed.

Lemma hashblocks_spec statebytes m :
  crypto_hashblocks_sha512 statebytes m =
  store_registers (foldl (compress m) (load_registers statebytes) (seq 0 (length m / 128))).
Proof.
  unfold crypto_hashblocks_sha512. f_equal. generalize (load_registers statebytes). intros s. generalize (seq 0 (length m / 128)).
  intros l. revert s. induction l as [|i l IH]; intros s; [done|]. cbn [foldl]. by rewrite IH, sha512_block_spec.
Qed.

(* ------------------------------------------------------------------ *)
(** ** Padding *)

Lemma le_bytes_app a b z : le_bytes (a + b) z = le_bytes a z ++ le_bytes b (z / 256 ^ Z.of_nat a).
Proof.
  revert z. induction a as [|a IH]; intros z; [by rewrite Z.div_1_r|]. cbn [Nat.add le_bytes app]. rewrite IH.
  rewrite Nat2Z.inj_succ, Z.pow_succ_r, Z.div_div by lia. done.
Qed.

Lemma length_bytes_spec n : 0 <= n < 2 ^ 64 -> be_bytes 16 (8 * n) = repeat x00 7 ++ length_bytes n.
Proof.
  intros Hn. unfold be_bytes. change 16%nat with (9 + 7)%nat. rewrite le_bytes_app, rev_app_distr.
  rewrite (Z.div_small (8 * n)) by (change (256 ^ Z.of_nat 9) with (2 ^ 72); lia). f_equal.
  unfold length_bytes. cbn [le_bytes rev map app]. rewrite !Z.div_div by lia.
  rewrite !Z.shiftr_div_pow2, Z.shiftl_mul_pow2 by lia.
  assert (forall k, 0 < k -> 8 * n / (8 * k) = n / k) as E by (intros k Hk; apply Z.div_mul_cancel_l; lia).
  repeat match goal with |- context [8 * n / ?k] =>
    let c := eval vm_compute in (k / 8) in change k with (8 * c); rewrite (E c) by lia end.
  by rewrite (Z.mul_comm n).
Qed.

(** The last bytes of the message, padded. *)
Definition tail (m : bytes) : bytes :=
  let inlen := (length m mod 128)%nat in
  drop (length m - inlen) m ++ [u8 128] ++ repeat x00 ((if (inlen <? 112)%nat then 119 else 247) - (inlen + 1)) ++
  length_bytes (u64 (Z.of_nat (length m))).

Lemma pad_tail m : Z.of_nat (length m) < 2 ^ 64 -> pad m = take (length m - length m mod 128) m ++ tail m.
Proof.
  intros Hm. unfold pad, tail. cbv zeta. rewrite (app_assoc (take _ _)), take_drop. f_equal. f_equal.
  rewrite length_bytes_spec by lia. unfold u64. rewrite (Z.mod_small (Z.of_nat _)) by lia. rewrite app_assoc. f_equal.
  rewrite <- repeat_app. f_equal.
  pose proof (Nat.div_mod_eq (length m) 128) as Hd. pose proof (Nat.mod_upper_bound (length m) 128 ltac:(lia)) as Hu.
  set (r := (length m mod 128)%nat) in *. set (q := (length m / 128)%nat) in *.
  assert (Z.of_nat (length m) = 128 * Z.of_nat q + Z.of_nat r) as E by lia. rewrite E.
  destruct (Nat.ltb_spec r 112).
  - rewrite <- (Z.mod_unique (111 - (128 * Z.of_nat q + Z.of_nat r)) 128 (- Z.of_nat q) (111 - Z.of_nat r)) by lia. lia.
  - rewrite <- (Z.mod_unique (111 - (128 * Z.of_nat q + Z.of_nat r)) 128 (- Z.of_nat q - 1) (239 - Z.of_nat r)) by lia. lia.
Qed.

Lemma load_iv : load_registers sha512_iv = H0.
Proof. vm_compute. reflexivity. Qed.

Theorem crypto_hash_sha512_spec m : Z.of_nat (length m) < 2 ^ 64 -> crypto_hash_sha512 m = SHA_512 m.
Proof.
  intros Hm. unfold crypto_hash_sha512. cbv zeta.
  match goal with |- crypto_hashblocks_sha512 _ ?p = _ => assert (p = tail m) as -> end.
  { unfold tail. cbv zeta. by destruct (_ <? 112)%nat. }
  rewrite !hashblocks_spec, load_iv, load_store_registers by (apply blocks_64; done).
  unfold SHA_512. rewrite store_registers_spec. f_equal. rewrite pad_tail by done.
  set (k := (length m / 128)%nat). set (q := take _ m).
  pose proof (Nat.div_mod_eq (length m) 128) as Hd. fold k in Hd.
  assert (length q = (128 * k)%nat) as Hq by (unfold q; rewrite length_take; lia).
  assert (length (q ++ tail m) / 128 = k + length (tail m) / 128)%nat as ->.
  { rewrite length_app, Hq, (Nat.mul_comm 128), Nat.div_add_l by lia. done. }
  rewrite seq_app, foldl_app, Nat.add_0_l, blocks_suffix by done. f_equal.
  rewrite blocks_prefix by lia. rewrite <- (take_drop (length m - length m mod 128) m) at 1. fold q.
  rewrite blocks_prefix by lia. done.
Qed.

Lemma crypto_hash_sha512_length m : length (crypto_hash_sha512 m) = 64%nat.
Proof.
  unfold crypto_hash_sha512. cbv zeta. rewrite hashblocks_spec, store_registers_spec.
  destruct (foldl _ _ _) as [[[[[[[a b] c] d] e] f] g] h]. unfold digest. by rewrite !length_app, !length_be_bytes.
Qed.
