(* ===== verification/Xeddsa.v ===== *)
(** The signatures of curve25519/ed25519: Ed25519 (sign.c, open.c), its variant with
    an explicit private scalar (additions/sign_modified.c, open_modified.c), the
    Curve25519 signatures of curve_sigs.c that curve.c calls, XEdDSA (xeddsa.c), key
    generation (keygen.c) and hashing to a point (elligator.c).  Allocations
    succeed; buffers the code builds with [memmove] are concatenations, and [zeroize]
    of locals has no effect on results. *)

From S2P Require Import Prelude Buffers Crypto Limbs Scalar Donna Fe Ge GeTables GeScalar Sha512.

(* ------------------------------------------------------------------ *)
(** ** Helpers *)

(** [s[i] = (s[i] & keep) | set;] *)
Definition mask_byte (i : nat) (keep set : Z) (s : bytes) : bytes :=
  <[i := u8 (Z.lor (Z.land (byte_at s i) keep) set)]> s.

Definition sc_clamp (a : bytes) : bytes := mask_byte 31 127 64 (mask_byte 0 248 0 a).

Definition zeroize (b : bytes) (len : nat) : bytes := repeat x00 (len `min` length b) ++ drop len b.

(** The [memmove(dst, src, 32)] of 32 bytes at an offset. *)
Definition slice (o n : nat) (s : bytes) : bytes := take n (drop o s).

(* ------------------------------------------------------------------ *)
(** ** Ed25519 *)

(** [sm] of [mlen + 64] bytes, from a secret key of 64 bytes. *)
Definition crypto_sign (m sk : bytes) : bytes :=
  let pk := slice 32 32 sk in
  let az := crypto_hash_sha512 (slice 0 32 sk) in
  let az := mask_byte 31 63 64 (mask_byte 0 248 0 az) in
  let nonce := crypto_hash_sha512 (slice 32 32 az ++ m) in
  let nonce := sc_reduce nonce in
  let R := ge_p3_tobytes (ge_scalarmult_base nonce) in
  let hram := sc_reduce (crypto_hash_sha512 (R ++ pk ++ m)) in
  R ++ sc_muladd hram az nonce ++ m.

(** The check that both [open] functions share: [true] when [rcheck] is [R]. *)
Definition open_check (sm pk : bytes) : bool :=
  if (length sm <? 64)%nat then false
  else if negb (Z.land (byte_at sm 63) 224 =? 0) then false
  else
    match ge_frombytes_negate_vartime pk with
    | None => false
    | Some A =>
        let rcopy := slice 0 32 sm in
        let scopy := slice 32 32 sm in
        let m := slice 0 32 sm ++ slice 0 32 pk ++ drop 64 sm in
        let h := sc_reduce (crypto_hash_sha512 m) in
        let R := ge_double_scalarmult_vartime h A scopy in
        let rcheck := ge_tobytes R in
        crypto_verify_32 rcheck rcopy =? 0
    end.

(** The return value, [*mlen] (as [unsigned long long]) and the [smlen] bytes of [m]. *)
Definition crypto_sign_open (sm pk : bytes) : Z * Z * bytes :=
  let smlen := length sm in
  if open_check sm pk
  then (0, Z.of_nat (smlen - 64), drop 64 sm ++ repeat x00 64)
  else (-1, 2 ^ 64 - 1, repeat x00 smlen).

(* ------------------------------------------------------------------ *)
(** ** With an explicit private scalar *)

(** [sm[0] = 0xFE; for (count = 1; count < 32; count++) sm[count] = 0xFF;] *)
Definition sign_prefix : bytes := u8 254 :: repeat (u8 255) 31.

(** The first 64 bytes of [sm]. *)
Definition crypto_sign_modified (m sk pk random : bytes) : bytes :=
  let nonce := crypto_hash_sha512 (sign_prefix ++ slice 0 32 sk ++ m ++ slice 0 64 random) in
  let nonce := sc_reduce nonce in
  let R := ge_p3_tobytes (ge_scalarmult_base nonce) in
  let hram := sc_reduce (crypto_hash_sha512 (R ++ slice 0 32 pk ++ m)) in
  R ++ sc_muladd hram sk nonce.

Definition crypto_sign_open_modified (sm pk : bytes) : Z := if open_check sm pk then 0 else -1.

(* ------------------------------------------------------------------ *)
(** ** Curve25519 keys *)

Definition ed_curve25519_sign (curve25519_privkey msg random : bytes) : bytes :=
  let ed_pubkey_point := ge_scalarmult_base curve25519_privkey in
  let ed_pubkey := ge_p3_tobytes ed_pubkey_point in
  let sign_bit := Z.land (byte_at ed_pubkey 31) 128 in
  let sigbuf := crypto_sign_modified msg curve25519_privkey ed_pubkey random in
  mask_byte 63 127 sign_bit sigbuf.

Definition ed_curve25519_verify (signature curve25519_pubkey msg : bytes) : Z :=
  let u := fe_frombytes curve25519_pubkey in
  let y := fe_montx_to_edy u in
  let ed_pubkey := fe_tobytes y in
  let ed_pubkey := mask_byte 31 127 (Z.land (byte_at signature 63) 128) ed_pubkey in
  let verifybuf := mask_byte 63 127 0 (slice 0 64 signature) in
  crypto_sign_open_modified (verifybuf ++ msg) ed_pubkey.

Definition xed25519_sign (curve25519_privkey msg random : bytes) : bytes :=
  let ed_pubkey_point := ge_scalarmult_base curve25519_privkey in
  let A := ge_p3_tobytes ed_pubkey_point in
  let sign_bit := Z.shiftr (Z.land (byte_at A 31) 128) 7 in
  let a := slice 0 32 curve25519_privkey in
  let aneg := sc_neg a in
  let a := sc_cmov a aneg sign_bit in
  let A := mask_byte 31 127 0 A in
  crypto_sign_modified msg a A random.

Definition MAX_MSG_LEN : nat := 256.

Definition xed25519_verify (signature curve25519_pubkey msg : bytes) : Z :=
  if (MAX_MSG_LEN <? length msg)%nat then -1
  else if fe_isreduced curve25519_pubkey =? 0 then -1
  else
    let u := fe_frombytes curve25519_pubkey in
    let y := fe_montx_to_edy u in
    let ed_pubkey := fe_tobytes y in
    crypto_sign_open_modified (slice 0 64 signature ++ msg) ed_pubkey.

Definition curve25519_keygen (curve25519_privkey_in : bytes) : bytes :=
  let ed := ge_scalarmult_base curve25519_privkey_in in
  let u := ge_p3_to_montx ed in
  fe_tobytes u.

(** [None] is a failed [assert]. *)
Definition hash_to_point (in_ : bytes) : option ge_p3 :=
  let hash := crypto_hash_sha512 in_ in
  let sign_bit := Z.shiftr (Z.land (byte_at hash 31) 128) 7 in
  let hash := mask_byte 31 127 0 hash in
  let h := fe_frombytes hash in
  let u := elligator h in
  p3 ← ge_montx_to_p3 u sign_bit;
  Some (ge_scalarmult_cofactor p3).
