(* ===== verification/Primes.v ===== *)
(** Number theory behind curve25519: modular powers on machine words, Pocklington's
    criterion, and the primality of [2 ^ 255 - 19] and of the order of the base point. *)

From Stdlib Require Import ZArith Lia.
From Bignums Require Import BigZ.BigZ.
From Stdlib Require Import Zdivisibility Zpow_facts.
From Stdlib Require Import Zmod.Zmod.
From S2P Require Import Prelude.
#[local] Open Scope Z_scope.

Abbreviation big := BigZ.t.
Abbreviation to_Z := BigZ.to_Z.
Abbreviation of_Z := BigZ.of_Z.

Definition big_mulmod (n x y : big) : big := BigZ.modulo (BigZ.mul x y) n.

Lemma big_mulmod_spec n x y : to_Z (big_mulmod n x y) = (to_Z x * to_Z y) mod to_Z n.
Proof. unfold big_mulmod. now rewrite BigZ.spec_modulo, BigZ.spec_mul. Qed.

Fixpoint big_powmod (n x : big) (e : positive) : big :=
  match e with
  | xH => BigZ.modulo x n
  | xO e' => let y := big_powmod n x e' in big_mulmod n y y
  | xI e' => let y := big_powmod n x e' in big_mulmod n (big_mulmod n y y) x
  end.

Lemma big_powmod_spec n x e : to_Z (big_powmod n x e) = (to_Z x ^ Z.pos e) mod to_Z n.
Proof.
  induction e as [e IH|e IH|]; cbn [big_powmod].
  - rewrite !big_mulmod_spec, IH. replace (Z.pos e~1) with (Z.pos e + Z.pos e + 1) by lia. rewrite !Z.pow_add_r, Z.pow_1_r by lia.
    now rewrite <- Zmult_mod, Zmult_mod_idemp_l.
  - rewrite big_mulmod_spec, IH. replace (Z.pos e~0) with (Z.pos e + Z.pos e) by lia. rewrite Z.pow_add_r by lia.
    now rewrite <- Zmult_mod.
  - now rewrite BigZ.spec_modulo, Z.pow_1_r.
Qed.

(** [a ^ e mod n]. *)
Definition pow_mod (a e n : Z) : Z :=
  match e with
  | Zpos e' => to_Z (big_powmod (of_Z n) (of_Z a) e')
  | _ => a ^ e mod n
  end.

Lemma pow_mod_spec a e n : pow_mod a e n = a ^ e mod n.
Proof. destruct e as [|e|e]; cbn [pow_mod]; try reflexivity. now rewrite big_powmod_spec, !BigZ.spec_of_Z. Qed.

(* ------------------------------------------------------------------ *)
(** ** Congruences *)

Lemma eqm_divide n a b : eqm n a b <-> (n | a - b).
Proof.
  unfold eqm. split.
  - intros H. destruct (Z.eq_dec n 0) as [->|Hn]; [rewrite !Z.mod_0_r in H; exists 0; lia|].
    apply Z.mod_divide; [done|]. by rewrite Zminus_mod, H, Z.sub_diag, Z.mod_0_l.
  - intros [k Hk]. replace a with (b + k * n) by lia. apply Z_mod_plus_full.
Qed.

Lemma eqm_pow n a b k : 0 <= k -> eqm n a b -> eqm n (a ^ k) (b ^ k).
Proof.
  intros Hk H. revert k Hk. apply natlike_ind; [done|]. intros k Hk IH. rewrite !Z.pow_succ_r by done. by apply Zmult_eqm.
Qed.

Lemma eqm_weaken n m a b : (m | n) -> eqm n a b -> eqm m a b.
Proof. rewrite !eqm_divide. apply Z.divide_trans. Qed.

Lemma fermat p a : Z.prime p -> ~ (p | a) -> eqm p (a ^ (p - 1)) 1.
Proof.
  intros Hp Ha. pose proof (Z.prime_ge_2 p Hp). apply Zmod.of_Z_inj. rewrite Zmod.of_Z_pow by lia.
  replace (p - 1) with (Z.pred p) by lia. rewrite Zmod.fermat_nz; [done| |done].
  apply Zmod.of_Z_nz. intros E. apply Ha, Z.mod_divide; [lia|done].
Qed.

(** A number that is not prime has a divisor, found by trying them all. *)
Lemma prime_or_divisor n : 1 < n -> Z.prime n \/ exists d, 1 < d < n /\ (d | n).
Proof.
  intros Hn. destruct (decide (Exists (fun d => n mod d = 0) (map Z.of_nat (seq 2 (Z.to_nat (n - 2)))))) as [H|H].
  - right. apply Exists_exists in H as (d & (k & -> & Hk%elem_of_seq)%list_elem_of_fmap & Hd).
    exists (Z.of_nat k). split; [lia|]. apply Z.mod_divide; [lia|done].
  - left. split; [done|]. intros d Hd Hdiv. apply H, Exists_exists. exists d. split; [|by apply Z.mod_divide; [lia|]].
    apply list_elem_of_fmap. exists (Z.to_nat d). split; [lia|]. apply elem_of_seq. lia.
Qed.

Lemma prime_divisor n : 1 < n -> exists r, Z.prime r /\ (r | n).
Proof.
  intros Hn. assert (0 <= n) as H0 by lia. revert n H0 Hn.
  apply (Z_lt_induction (fun n => 1 < n -> exists r, Z.prime r /\ (r | n))). intros n IH Hn.
  destruct (prime_or_divisor n Hn) as [Hp|(d & Hd & Hdn)]; [by exists n|].
  destruct (IH d) as (r & Hr & Hrd); [lia..|]. exists r. split; [done|]. by transitivity d.
Qed.

(* ------------------------------------------------------------------ *)
(** ** Pocklington's criterion *)

Lemma not_divide_1 r : 2 <= r -> ~ (r | 1).
Proof. intros Hr H%Z.divide_1_r_nonneg; lia. Qed.

(** The order of [a ^ ((n - 1) / q)] modulo a prime divisor of [n] is [q]. *)
Lemma pocklington_divides n a q r : Z.prime r -> (r | n) -> Z.prime q -> (q | n - 1) -> 1 < n ->
  eqm n (a ^ (n - 1)) 1 -> Z.gcd (a ^ ((n - 1) / q) - 1) n = 1 -> (q | r - 1).
Proof.
  intros Hr Hrn Hq [m Hm] Hn Ha Hg. pose proof (Z.prime_ge_2 q Hq). pose proof (Z.prime_ge_2 r Hr).
  rewrite Hm, Z.div_mul in Hg by lia. assert (0 <= m) as Hm0 by nia. set (b := a ^ m) in *.
  assert (eqm r (b ^ q) 1) as Hb.
  { unfold b. rewrite <- Z.pow_mul_r by lia. rewrite <- Hm. by apply (eqm_weaken n). }
  assert (~ eqm r b 1) as Hb1.
  { intros E%eqm_divide. apply (not_divide_1 r); [done|]. rewrite <- Hg. by apply Z.gcd_greatest. }
  assert (~ (r | b)) as Hrb.
  { intros E. assert (eqm r b 0) as E0 by (apply eqm_divide; by rewrite Z.sub_0_r).
    apply (eqm_pow _ _ _ q) in E0; [|lia]. rewrite Z.pow_0_l in E0 by lia. apply eqm_divide in Hb.
    apply eqm_divide in E0. rewrite Z.sub_0_r in E0. apply (not_divide_1 r); [done|].
    replace 1 with (b ^ q - (b ^ q - 1)) by lia. by apply Z.divide_sub_r. }
  pose proof (fermat r b Hr Hrb) as Hf.
  destruct (decide ((r - 1) mod q = 0)) as [E|E]; [by apply Z.mod_divide in E; [|lia]|].
  assert (Z.coprime q (r - 1)) as Hc by (apply Z.coprime_prime_l; [done|]; intros Hd%Z.mod_divide; [done|lia]).
  exfalso. apply Hb1. destruct (Z.Bezout_coprime _ _ Hc) as (u & v & Huv).
  set (u' := u mod (r - 1) + (r - 1)). set (w := (q * u' - 1) / (r - 1)).
  assert (q * u' = 1 + (r - 1) * w) as E'.
  { unfold w. assert (r - 1 | q * u' - 1) as [k Hk].
    { unfold u'. rewrite Z.mod_eq by lia. generalize (u / (r - 1)). intros t. exists (- v + q - q * t). clear - Huv. nia. }
    rewrite Hk, Z.div_mul by lia. lia. }
  pose proof (Z.mod_pos_bound u (r - 1) ltac:(lia)). assert (0 <= u') by lia. assert (0 <= w) by nia.
  apply (eqm_trans r _ (b ^ (q * u'))).
  - rewrite E', Z.pow_add_r, Z.pow_1_r, Z.pow_mul_r by nia.
    apply (eqm_trans r _ (b * 1)); [rewrite Z.mul_1_r; apply eqm_refl|]. apply Zmult_eqm; [apply eqm_refl|]. 
    apply eqm_sym. rewrite <- (Z.pow_1_l w H3) at 2. by apply eqm_pow.
  - rewrite Z.pow_mul_r by lia. rewrite <- (Z.pow_1_l u') by done. by apply eqm_pow.
Qed.

Definition product (l : list Z) : Z := foldr Z.mul 1 l.

Lemma product_divides l m : Forall Z.prime l -> NoDup l -> Forall (fun q => (q | m)) l -> (product l | m).
Proof.
  induction l as [|q l IH]; intros Hp Hn Hd; cbn; [apply Z.divide_1_l|].
  apply Forall_cons in Hp as [Hq Hp]. apply NoDup_cons in Hn as [Hql Hn]. apply Forall_cons in Hd as [[k ->] Hd].
  specialize (IH Hp Hn Hd). fold (product l) in *. rewrite (Z.mul_comm k). apply Z.mul_divide_mono_l.
  apply Z.gauss with q; [by rewrite Z.mul_comm|]. rewrite Z.gcd_comm. clear - Hq Hp Hql.
  induction l as [|x l IH]; [apply Z.gcd_1_r|]. apply Forall_cons in Hp as [Hx Hp]. apply not_elem_of_cons in Hql as [Hqx Hql].
  apply (Z.coprime_mul_r q x (product l)); [|by apply IH]. apply Z.coprime_prime_l; [done|].
  intros E. apply Hqx. by apply Z.divide_prime_prime.
Qed.

Lemma pocklington n a qs : 1 < n -> Forall Z.prime qs -> NoDup qs -> eqm n (a ^ (n - 1)) 1 ->
  Forall (fun q => (q | n - 1) /\ Z.gcd (a ^ ((n - 1) / q) - 1) n = 1) qs -> n < product qs * product qs -> Z.prime n.
Proof.
  intros Hn Hp Hd Ha Hq HF. destruct (prime_or_divisor n Hn) as [|(d & Hd1 & [e He])]; [done|]. exfalso.
  assert (forall r, Z.prime r -> (r | n) -> product qs < r) as Hr.
  { intros r Hr Hrn. pose proof (Z.prime_ge_2 r Hr). assert (product qs | r - 1) as H1; [|apply Z.divide_pos_le in H1; lia].
    apply product_divides; [done..|]. rewrite Forall_forall in Hp, Hq |- *. intros q Hqs. destruct (Hq q Hqs).
    apply (pocklington_divides n a); auto. }
  assert (forall x, 1 < x -> (x | n) -> product qs < x) as Hx.
  { intros x Hx1 Hxn. destruct (prime_divisor x Hx1) as (r & Hrp & Hrx). apply Z.lt_le_trans with r.
    - apply Hr; [done|]. by transitivity x.
    - apply Z.divide_pos_le; [lia|done]. }
  assert (1 < e < n) as He1 by nia. pose proof (Hx d ltac:(lia) ltac:(by exists e)). pose proof (Hx e ltac:(lia) ltac:(exists d; lia)).
  assert (0 < product qs); [|nia]. clear - Hp. induction Hp as [|q l Hq _ IH]; [done|]. cbn. fold (product l).
  pose proof (Z.prime_ge_2 q Hq). lia.
Qed.

(** The conditions, evaluated. *)
Definition pocklington_check (n a : Z) (qs : list Z) : bool :=
  (1 <? n) && bool_decide (NoDup qs) && (pow_mod a (n - 1) n =? 1) &&
  forallb (fun q => (1 <? q) && ((n - 1) mod q =? 0) && (Z.gcd (pow_mod a ((n - 1) / q) n - 1) n =? 1)) qs &&
  (n <? product qs * product qs).

Lemma pocklington_prime n a qs : pocklington_check n a qs = true -> Forall Z.prime qs -> Z.prime n.
Proof.
  intros H Hp. unfold pocklington_check in H. rewrite !andb_true_iff, Z.ltb_lt, bool_decide_eq_true, Z.eqb_eq, Z.ltb_lt in H.
  destruct H as ((((Hn & Hd) & Ha) & Hq) & HF). apply (pocklington n a qs); auto.
  - unfold eqm. rewrite <- pow_mod_spec, Ha by lia. symmetry. apply Z.mod_small. lia.
  - apply Forall_forall. intros q Hqs. rewrite forallb_forall in Hq. specialize (Hq q (proj1 (list_elem_of_In _ _) Hqs)).
    rewrite !andb_true_iff, Z.ltb_lt, !Z.eqb_eq in Hq. destruct Hq as ((Hq1 & Hqn) & Hg).
    split; [by apply Z.mod_divide; [lia|]|]. rewrite pow_mod_spec in Hg by lia. etransitivity; [|exact Hg].
    set (x := a ^ ((n - 1) / q)). rewrite !(Z.gcd_comm _ n). pose proof (Z.div_mod x n ltac:(lia)).
    replace (x - 1) with (x mod n - 1 + x / n * n) by lia. apply Z.gcd_add_mult_diag_r.
Qed.

(** Trial division up to the square root. *)
Definition trial (n : Z) : bool := (1 <? n) && forallb (fun d => negb (n mod Z.of_nat d =? 0)) (seq 2 (Z.to_nat (Z.sqrt n - 1))).

Lemma trial_prime n : trial n = true -> Z.prime n.
Proof.
  intros H. apply andb_true_iff in H as [Hn%Z.ltb_lt H]. split; [done|]. rewrite forallb_forall in H.
  pose proof (Z.sqrt_spec n ltac:(lia)) as Hs. pose proof (Z.sqrt_nonneg n). set (s := Z.sqrt n) in *.
  assert (forall d, 1 < d <= s -> ~ (d | n)) as Hsmall.
  { intros d Hd Hdiv. specialize (H (Z.to_nat d) ltac:(apply in_seq; lia)). rewrite Z2Nat.id in H by lia.
    apply Z.mod_divide in Hdiv; [|lia]. by rewrite Hdiv in H. }
  intros d Hd [e He]. destruct (decide (d <= s)) as [Hds|Hds].
  - apply (Hsmall d); [lia|]. by exists e.
  - assert (1 < e) by nia. assert (e <= s).
    { apply Z.nlt_ge. intros Hes. apply (Z.lt_irrefl n). apply Z.lt_le_trans with (Z.succ s * Z.succ s); [apply Hs|].
      rewrite He. apply Z.mul_le_mono_nonneg; lia. }
    apply (Hsmall e); [lia|]. exists d. lia.
Qed.

(** A certificate: the primes below 10000 by trial, the others by the criterion. *)
Ltac small_prime := apply trial_prime; vm_compute; reflexivity.
Ltac large_prime a qs := apply (pocklington_prime _ a qs); [vm_compute; reflexivity|repeat apply Forall_cons_2; try apply Forall_nil_2].

Lemma prime_75445702479781427272750846543864801 : Z.prime 75445702479781427272750846543864801.
Proof.
  large_prime 2 [1919519569386763; 72106336199].
  - large_prime 2 [8574133; 127]; [|small_prime]. large_prime 2 [991; 103]; small_prime.
  - large_prime 2 [2773320623]. large_prime 2 [569003]. large_prime 2 [419; 97]; small_prime.
Qed.

Lemma prime_31757755568855353 : Z.prime 31757755568855353.
Proof. large_prime 2 [430751; 4153]; [|small_prime]. large_prime 2 [1723]. small_prime. Qed.

Theorem prime_25519 : Z.prime (2 ^ 255 - 19).
Proof.
  large_prime 2 [74058212732561358302231226437062788676166966415465897661863160754340907].
  large_prime 2 [75445702479781427272750846543864801; 31757755568855353].
  - apply prime_75445702479781427272750846543864801.
  - apply prime_31757755568855353.
Qed.

(** The order of the base point. *)
Theorem prime_order : Z.prime (2 ^ 252 + 27742317777372353535851937790883648493).
Proof.
  large_prime 2 [276602624281642239937218680557139826668747].
  large_prime 2 [19757330305831588566944191468367130476339].
  large_prime 2 [172054593956031949258510691].
  large_prime 2 [4434155615661930479]. large_prime 2 [1257559732178653].
  large_prime 2 [1224481; 531581]; [large_prime 2 [2551]|large_prime 2 [3797]]; small_prime.
Qed.
