(* ===== verification/Edwards.v ===== *)
(** Complete twisted Edwards curves [a x^2 + y^2 = 1 + d x^2 y^2] over a field, with [a]
    a square and [d] not: the addition law is defined everywhere and makes the
    points an abelian group.

    The projective forms of points on a curve with [a = -1], and the formulas that add
    and double them without inversion, come last. *)

From Stdlib Require Import Field.
From S2P Require Import Prelude.

(** A field with decidable equality. *)
Class Field (F : Type) := {
  f_0 : F; f_1 : F; f_add : F -> F -> F; f_mul : F -> F -> F; f_sub : F -> F -> F; f_opp : F -> F;
  f_div : F -> F -> F; f_inv : F -> F;
  field_laws : field_theory f_0 f_1 f_add f_mul f_sub f_opp f_div f_inv eq;
  field_dec :: EqDecision F
}.

Declare Scope F_scope.
Delimit Scope F_scope with F.
Notation "0" := f_0 : F_scope.
Notation "1" := f_1 : F_scope.
Infix "+" := f_add : F_scope.
Infix "*" := f_mul : F_scope.
Infix "-" := f_sub : F_scope.
Infix "/" := f_div : F_scope.
Notation "- x" := (f_opp x) : F_scope.

(** The parameters of a complete curve. *)
Class Curve (F : Type) `{Field F} := {
  ca : F; cd : F; root_a : F;
  root_a_square : (root_a * root_a)%F = ca;
  root_a_nonzero : root_a <> f_0;
  nonsquare_d : forall x : F, (x * x)%F <> cd;
  two_nonzero : (1 + 1)%F <> f_0
}.

Section field.
  Context {F : Type} {K : Field F}.
  Add Field field_K : field_laws.
  #[local] Open Scope F_scope.

Lemma f_mul_eq_0 (x y : F) : x * y = 0 -> x = 0 \/ y = 0.
Proof.
  intros E. destruct (decide (x = 0)) as [|Hx]; [by left|right].
  transitivity ((x * y) / x); [field; done|]. rewrite E. field. done.
Qed.

Lemma f_mul_nonzero (x y : F) : x <> 0 -> y <> 0 -> x * y <> 0.
Proof. intros Hx Hy [|]%f_mul_eq_0; done. Qed.

Lemma f_mul_cancel (z x y : F) : z <> 0 -> z * x = z * y -> x = y.
Proof. intros Hz E. transitivity (z * x / z); [field; done|]. rewrite E. field. done. Qed.

Lemma f_sub_eq_0 (x y : F) : x - y = 0 -> x = y.
Proof. intros E. transitivity (x - y + y); [ring|]. rewrite E. ring. Qed.

Lemma f_div_eq (x y z w : F) : y <> 0 -> w <> 0 -> x * w = z * y -> x / y = z / w.
Proof.
  intros Hy Hw E. apply (f_mul_cancel (y * w)); [by apply f_mul_nonzero|].
  transitivity (x * w); [field; done|]. rewrite E. field. done.
Qed.

Lemma square_zero (x : F) : x * x = 0 -> x = 0.
Proof. intros [|]%f_mul_eq_0; done. Qed.

Lemma f_square_eq (x y : F) : x * x = y * y -> x = y \/ x = - y.
Proof.
  intros E. assert ((x - y) * (x + y) = 0) as [H|H]%f_mul_eq_0.
  - transitivity (x * x - y * y); [ring|]. rewrite E. ring.
  - left. by apply f_sub_eq_0.
  - right. apply f_sub_eq_0. rewrite <- H. ring.
Qed.
End field.

Section edwards.
  Context {F : Type} {K : Field F} {C : Curve F}.
  Add Field field_KC : field_laws.
  #[local] Open Scope F_scope.
#[local] Abbreviation a := ca.
#[local] Abbreviation d := cd.

Definition on_curve (P : F * F) : Prop :=
    let '(x, y) := P in a * (x * x) + y * y = 1 + d * (x * x * (y * y)).

  (** The curve equation as a rewriting rule for [d x^2 y^2]. *)
#[local] Definition rule (x y : F) : Prop := d * (x * x * (y * y)) = a * (x * x) + y * y - 1.

Lemma on_curve_rule x y : on_curve (x, y) <-> rule x y.
Proof.
  unfold on_curve, rule. split; intros E.
  - rewrite E. ring.
  - rewrite E. ring.
Qed.

Lemma d_nonzero : d <> 0.
Proof. intros E. apply (nonsquare_d 0). rewrite E. ring. Qed.

Lemma a_nonzero : a <> 0.
Proof. intros E. apply root_a_nonzero, square_zero. by rewrite root_a_square. Qed.

(* ------------------------------------------------------------------ *)
(** ** Completeness *)

Section two_points.
  Context (x1 y1 x2 y2 : F) (H1 : rule x1 y1) (H2 : rule x2 y2).
#[local] Definition kappa : F := d * (x1 * x2 * (y1 * y2)).

(** When [kappa ^ 2 = 1], [d] would be the square of a quotient. *)
Lemma denominator_square (s : F) : s * s = 1 -> kappa * kappa = 1 ->
  (root_a * x1 + s * kappa * y1) * (root_a * x1 + s * kappa * y1) =
  d * (x1 * y1 * (root_a * x2 + s * y2) * (x1 * y1 * (root_a * x2 + s * y2))).
Proof using H1 H2.
  intros Hs Hk. transitivity (a * (x1 * x1) + y1 * y1 + (1 + 1) * (s * root_a * x1 * y1 * kappa)).
  - rewrite <- root_a_square. transitivity (root_a * root_a * (x1 * x1) + (s * s) * (kappa * kappa) * (y1 * y1) +
      (1 + 1) * (s * root_a * x1 * y1 * kappa)); [ring|]. rewrite Hs, Hk. ring.
  - assert (a * (x1 * x1) + y1 * y1 = d * (x1 * x1 * (y1 * y1)) * (a * (x2 * x2) + y2 * y2)) as E.
    { transitivity (d * (x1 * x1 * (y1 * y1)) + 1); [rewrite H1; ring|]. rewrite <- Hk. unfold kappa.
      transitivity (d * (x1 * x1 * (y1 * y1)) * (1 + d * (x2 * x2 * (y2 * y2)))); [ring|]. rewrite H2. ring. }
    rewrite E. unfold kappa. rewrite <- root_a_square.
    transitivity (d * (x1 * x1 * (y1 * y1)) * (root_a * root_a * (x2 * x2) + (s * s) * (y2 * y2) + (1 + 1) * (s * root_a * x2 * y2)));
      [rewrite Hs|]; ring.
Qed.

Lemma denominators : kappa * kappa <> 1.
Proof using H1 H2.
  intros Hk. assert (kappa <> 0) as Hk0.
  { intros E. rewrite E in Hk. apply (f_equal (fun z => z * (1 + 1))) in Hk. apply two_nonzero.
    transitivity (1 * (1 + 1)); [ring|]. rewrite <- Hk. ring. }
  assert (x1 * y1 <> 0 /\ x2 <> 0) as [Hxy Hx2].
  { split; intros E; apply Hk0; unfold kappa; [transitivity (d * (x1 * y1) * (x2 * y2)); [ring|]|]; rewrite E; ring. }
  assert (forall s, s * s = 1 -> root_a * x2 + s * y2 = 0) as H.
  { intros s Hs. destruct (decide (root_a * x2 + s * y2 = 0)) as [|Hn]; [done|]. exfalso.
    pose proof (denominator_square s Hs Hk) as E. set (z := x1 * y1 * (root_a * x2 + s * y2)) in *.
    assert (z <> 0) as Hz by (by apply f_mul_nonzero). apply (nonsquare_d ((root_a * x1 + s * kappa * y1) / z)).
    transitivity ((root_a * x1 + s * kappa * y1) * (root_a * x1 + s * kappa * y1) / (z * z)); [by field|]. rewrite E. by field. }
  assert (root_a * x2 + 1 * y2 = 0) as Hp by (apply H; ring). assert (root_a * x2 + - (1) * y2 = 0) as Hm by (apply H; ring).
  assert ((1 + 1) * (root_a * x2) = 0) as [|[|]%f_mul_eq_0]%f_mul_eq_0.
  - transitivity ((root_a * x2 + 1 * y2) + (root_a * x2 + - (1) * y2)); [ring|]. rewrite Hp, Hm. ring.
  - by apply two_nonzero.
  - by apply root_a_nonzero.
  - done.
Qed.

Lemma denominator_plus : 1 + kappa <> 0.
Proof using H1 H2. intros E. apply denominators. transitivity (1 - (1 + kappa) * (1 - kappa)); [ring|]. rewrite E. ring. Qed.
Lemma denominator_minus : 1 - kappa <> 0.
Proof using H1 H2. intros E. apply denominators. transitivity (1 - (1 + kappa) * (1 - kappa)); [ring|]. rewrite E. ring. Qed.
End two_points.

(* ------------------------------------------------------------------ *)
(** ** Addition *)

Definition add_xy (P Q : F * F) : F * F :=
  let '(x1, y1) := P in let '(x2, y2) := Q in
  let k := d * (x1 * x2 * (y1 * y2)) in
  ((x1 * y2 + y1 * x2) / (1 + k), (y1 * y2 - a * (x1 * x2)) / (1 - k)).

Lemma add_on_curve P Q : on_curve P -> on_curve Q -> on_curve (add_xy P Q).
Proof.
  destruct P as [x1 y1], Q as [x2 y2]. rewrite !on_curve_rule. intros H1 H2.
  pose proof (denominator_plus _ _ _ _ H1 H2) as Hp. pose proof (denominator_minus _ _ _ _ H1 H2) as Hm. unfold kappa in *.
  unfold add_xy, on_curve. set (k := d * (x1 * x2 * (y1 * y2))) in *.
  set (X := x1 * y2 + y1 * x2). set (Y := y1 * y2 - a * (x1 * x2)).
  assert (a * (X * (1 - k) * (X * (1 - k))) + Y * (1 + k) * (Y * (1 + k)) =
    (1 - k) * (1 + k) * ((1 - k) * (1 + k)) + d * (X * X * (Y * Y))) as E.
  { apply (f_mul_cancel (d * d)); [apply f_mul_nonzero; apply d_nonzero|]. unfold X, Y, k. unfold rule in *. ring [H1 H2]. }
  transitivity ((a * (X * (1 - k) * (X * (1 - k))) + Y * (1 + k) * (Y * (1 + k))) / ((1 - k) * (1 + k) * ((1 - k) * (1 + k))));
    [by field|]. rewrite E. by field.
Qed.

(** The sum of three points, with one denominator. *)
Lemma add_three x1 y1 x2 y2 x3 y3 : rule x1 y1 -> rule x2 y2 -> rule x3 y3 ->
  let k := d * (x1 * x2 * (y1 * y2)) in let X := x1 * y2 + y1 * x2 in let Y := y1 * y2 - a * (x1 * x2) in
  let D := 1 - k * k + d * (X * Y * x3 * y3) in let D' := 1 - k * k - d * (X * Y * x3 * y3) in
  D <> 0 /\ D' <> 0 /\
  add_xy (add_xy (x1, y1) (x2, y2)) (x3, y3) =
    ((X * (1 - k) * y3 + Y * (1 + k) * x3) / D, (Y * (1 + k) * y3 - a * (X * (1 - k) * x3)) / D').
Proof.
  intros H1 H2 H3. cbv zeta. pose proof (denominator_plus _ _ _ _ H1 H2) as Hp. pose proof (denominator_minus _ _ _ _ H1 H2) as Hm.
  pose proof (add_on_curve (x1, y1) (x2, y2) (proj2 (on_curve_rule _ _) H1) (proj2 (on_curve_rule _ _) H2)) as H12.
  unfold add_xy in H12 |- *. unfold kappa in *. set (k := d * (x1 * x2 * (y1 * y2))) in *.
  set (X := x1 * y2 + y1 * x2) in *. set (Y := y1 * y2 - a * (x1 * x2)) in *. apply on_curve_rule in H12.
  pose proof (denominator_plus _ _ _ _ H12 H3) as Hp'. pose proof (denominator_minus _ _ _ _ H12 H3) as Hm'. unfold kappa in *.
  set (k' := d * (X / (1 + k) * x3 * (Y / (1 - k) * y3))) in *.
  assert (1 - k * k + d * (X * Y * x3 * y3) = (1 + k) * (1 - k) * (1 + k')) as -> by (unfold k'; field; done).
  assert (1 - k * k - d * (X * Y * x3 * y3) = (1 + k) * (1 - k) * (1 - k')) as -> by (unfold k'; field; done).
  split; [by repeat apply f_mul_nonzero|]. split; [by repeat apply f_mul_nonzero|]. f_equal; field; done.
Qed.

Lemma add_comm_xy P Q : add_xy P Q = add_xy Q P.
Proof.
  destruct P as [x1 y1], Q as [x2 y2]. unfold add_xy.
  replace (x2 * x1 * (y2 * y1)) with (x1 * x2 * (y1 * y2)) by ring. f_equal; f_equal; ring.
Qed.

Lemma add_assoc_xy P Q R : on_curve P -> on_curve Q -> on_curve R -> add_xy (add_xy P Q) R = add_xy P (add_xy Q R).
Proof.
  destruct P as [x1 y1], Q as [x2 y2], R as [x3 y3]. rewrite !on_curve_rule. intros H1 H2 H3.
  destruct (add_three _ _ _ _ _ _ H1 H2 H3) as (Hd & Hd' & ->). rewrite (add_comm_xy (x1, y1)).
  destruct (add_three _ _ _ _ _ _ H2 H3 H1) as (He & He' & ->). unfold rule in *. f_equal; apply f_div_eq; [done..| |done|done|].
  - ring [H1 H2 H3].
  - ring [H1 H2 H3].
Qed.

(* ------------------------------------------------------------------ *)
(** ** The group *)

#[global] Instance on_curve_dec P : Decision (on_curve P).
Proof. destruct P. unfold on_curve. apply _. Defined.

Definition point : Type := dsig on_curve.

Definition padd (P Q : point) : point := dexist (add_xy (`P) (`Q)) (add_on_curve _ _ (proj2_dsig P) (proj2_dsig Q)).

Lemma zero_on_curve : on_curve (0, 1).
Proof. unfold on_curve. ring. Qed.
Definition pzero : point := dexist (0, 1) zero_on_curve.

Definition neg_xy (P : F * F) : F * F := let '(x, y) := P in (- x, y).
Lemma neg_on_curve P : on_curve P -> on_curve (neg_xy P).
Proof. destruct P as [x y]. unfold on_curve, neg_xy. intros E. transitivity (a * (x * x) + y * y); [ring|]. rewrite E. ring. Qed.
Definition pneg (P : point) : point := dexist (neg_xy (`P)) (neg_on_curve _ (proj2_dsig P)).

Lemma padd_comm P Q : padd P Q = padd Q P.
Proof. apply dsig_eq, add_comm_xy. Qed.

Lemma padd_assoc P Q R : padd (padd P Q) R = padd P (padd Q R).
Proof. apply dsig_eq. apply add_assoc_xy; apply proj2_dsig. Qed.

Lemma one_nonzero : (1 : F) <> 0.
Proof. apply (F_1_neq_0 field_laws). Qed.

Lemma padd_zero_l P : padd pzero P = P.
Proof.
  apply dsig_eq. destruct P as [[x y] HP]. cbn. pose proof one_nonzero.
  f_equal; [transitivity (x / 1)|transitivity (y / 1)]; try (field; done); f_equal; ring.
Qed.

Lemma padd_zero_r P : padd P pzero = P.
Proof. rewrite padd_comm. apply padd_zero_l. Qed.

Lemma padd_neg_r P : padd P (pneg P) = pzero.
Proof.
  apply dsig_eq. pose proof (proj2_dsig P) as HP. pose proof (proj2_dsig (pneg P)) as HN. cbn in *. destruct (`P) as [x y]. cbn [neg_xy] in *.
  rewrite !on_curve_rule in *. pose proof (denominator_plus _ _ _ _ HP HN) as Hp. pose proof (denominator_minus _ _ _ _ HP HN) as Hm.
  unfold kappa in *. unfold add_xy. f_equal.
  - transitivity (0 / (1 + d * (x * - x * (y * y)))); [f_equal; ring|]. field. done.
  - apply (f_mul_cancel (1 - d * (x * - x * (y * y)))); [done|].
    transitivity (y * y - a * (x * - x)); [field; done|]. unfold rule in HP. ring [HP].
Qed.

(* ------------------------------------------------------------------ *)
(** ** Multiples *)

Definition nmul (n : nat) (P : point) : point := Nat.iter n (padd P) pzero.
Definition pmul (z : Z) (P : point) : point :=
  match z with
  | Z0 => pzero
  | Zpos n => nmul (Pos.to_nat n) P
  | Zneg n => pneg (nmul (Pos.to_nat n) P)
  end.

Lemma padd_neg_l P : padd (pneg P) P = pzero.
Proof. rewrite padd_comm. apply padd_neg_r. Qed.

Lemma padd_cancel_l P Q R : padd P Q = padd P R -> Q = R.
Proof. intros E%(f_equal (padd (pneg P))). by rewrite <- !padd_assoc, padd_neg_l, !padd_zero_l in E. Qed.

Lemma pneg_unique P Q : padd P Q = pzero -> Q = pneg P.
Proof. intros E. apply (padd_cancel_l P). by rewrite padd_neg_r. Qed.

Lemma pneg_zero : pneg pzero = pzero.
Proof. symmetry. apply pneg_unique, padd_zero_l. Qed.

Lemma pneg_involutive P : pneg (pneg P) = P.
Proof. symmetry. apply pneg_unique, padd_neg_l. Qed.

Lemma padd_swap P Q R : padd P (padd Q R) = padd Q (padd P R).
Proof. by rewrite <- !padd_assoc, (padd_comm P). Qed.

Lemma pneg_padd P Q : pneg (padd P Q) = padd (pneg P) (pneg Q).
Proof.
  symmetry. apply pneg_unique. rewrite padd_assoc, (padd_swap Q), <- padd_assoc, padd_neg_r, padd_zero_l. apply padd_neg_r.
Qed.

Lemma pmul_succ z P : pmul (Z.succ z) P = padd P (pmul z P).
Proof.
  destruct z as [|n|n]; cbn [pmul Z.succ].
  - cbn. done.
  - change (Z.succ (Z.pos n)) with (Z.pos (n + 1)). cbn [pmul]. rewrite Pos2Nat.inj_add, Nat.add_1_r. done.
  - destruct (Pos.eq_dec n 1) as [->|Hn].
    + change (Z.succ (-1)%Z) with 0%Z. unfold nmul. change (Pos.to_nat 1) with 1%nat. cbn [pmul Nat.iter nat_rect].
      rewrite padd_zero_r. symmetry. apply padd_neg_r.
    + replace (Z.succ (Z.neg n)) with (Z.neg (Pos.pred n)) by lia. cbn [pmul].
      rewrite <- (Pos.succ_pred n) at 2 by done. rewrite Pos2Nat.inj_succ. unfold nmul. cbn [Nat.iter nat_rect].
      by rewrite pneg_padd, <- padd_assoc, padd_neg_r, padd_zero_l.
Qed.

Lemma pmul_0 P : pmul 0 P = pzero.
Proof. done. Qed.

Lemma pmul_1 P : pmul 1 P = P.
Proof. apply (padd_zero_r P). Qed.

Lemma pmul_add m n P : pmul (m + n) P = padd (pmul m P) (pmul n P).
Proof.
  revert m. apply Z.bi_induction; [by intros ? ? ->|by rewrite padd_zero_l|]. intros m.
  rewrite Z.add_succ_l, !pmul_succ, padd_assoc. split; [by intros ->|]. apply padd_cancel_l.
Qed.

Lemma pmul_opp m P : pmul (- m) P = pneg (pmul m P).
Proof. apply pneg_unique. by rewrite <- pmul_add, Z.add_opp_diag_r. Qed.

Lemma pmul_sub m n P : pmul (m - n) P = padd (pmul m P) (pneg (pmul n P)).
Proof. by rewrite <- Z.add_opp_r, pmul_add, pmul_opp. Qed.

Lemma pmul_padd m P Q : pmul m (padd P Q) = padd (pmul m P) (pmul m Q).
Proof.
  revert m. apply Z.bi_induction; [by intros ? ? ->|by rewrite padd_zero_l|]. intros m.
  rewrite !pmul_succ. assert (padd (padd P (pmul m P)) (padd Q (pmul m Q)) = padd (padd P Q) (padd (pmul m P) (pmul m Q))) as ->.
  { rewrite !padd_assoc. f_equal. apply padd_swap. }
  split; [by intros ->|]. apply padd_cancel_l.
Qed.

Lemma pmul_zero m : pmul m pzero = pzero.
Proof. revert m. apply Z.bi_induction; [by intros ? ? ->|done|]. intros m. by rewrite pmul_succ, padd_zero_l. Qed.

Lemma pmul_mul m n P : pmul (m * n) P = pmul m (pmul n P).
Proof.
  revert m. apply Z.bi_induction; [by intros ? ? ->|done|]. intros m.
  rewrite Z.mul_succ_l, Z.add_comm, pmul_add, pmul_succ. split; [by intros ->|]. apply padd_cancel_l.
Qed.

Lemma pmul_neg m P : pmul m (pneg P) = pneg (pmul m P).
Proof. apply pneg_unique. by rewrite <- pmul_padd, padd_neg_r, pmul_zero. Qed.

Lemma pmul_mod n L P : L <> 0%Z -> pmul L P = pzero -> pmul (n mod L) P = pmul n P.
Proof.
  intros HL E. rewrite (Z.div_mod n L) at 2 by done. by rewrite pmul_add, (Z.mul_comm L), pmul_mul, E, pmul_zero, padd_zero_l.
Qed.
End edwards.

Section forms.
  Context {F : Type} {K : Field F} {C : Curve F} (minus_one : ca = f_opp f_1).
  Add Field field_forms : field_laws.
  #[local] Open Scope F_scope.

Definition px (P : point) : F := (`P).1.
Definition py (P : point) : F := (`P).2.

  (** ge_p2, ge_p3 and ge_p1p1 of ge.h. *)
Definition projective (P : point) (X Y Z : F) : Prop := Z <> 0 /\ X = px P * Z /\ Y = py P * Z.
Definition extended_form (P : point) (X Y Z T : F) : Prop := Z <> 0 /\ X = px P * Z /\ Y = py P * Z /\ T = px P * py P * Z.
Definition completed (P : point) (X Y Z T : F) : Prop := Z <> 0 /\ T <> 0 /\ X = px P * Z /\ Y = py P * T.

Lemma point_eq P Q : px P = px Q -> py P = py Q -> P = Q.
Proof. intros Ex Ey. apply dsig_eq. unfold px, py in *. destruct (`P), (`Q). cbn in *. congruence. Qed.

Lemma point_curve P : py P * py P - px P * px P = 1 + cd * (px P * px P * (py P * py P)).
Proof using minus_one.
  pose proof (proj2_dsig P) as H. unfold px, py. destruct (`P) as [x y]. unfold on_curve in H. cbn [fst snd].
  rewrite <- H, minus_one. ring.
Qed.

Lemma extended_projective P X Y Z T : extended_form P X Y Z T -> projective P X Y Z.
Proof. intros (?&?&?&?). done. Qed.

Lemma completed_projective P X Y Z T : completed P X Y Z T -> projective P (X * T) (Y * Z) (Z * T).
Proof. intros (HZ&HT&->&->). split; [by apply f_mul_nonzero|]. split; ring. Qed.

Lemma completed_extended P X Y Z T : completed P X Y Z T -> extended_form P (X * T) (Y * Z) (Z * T) (X * Y).
Proof. intros (HZ&HT&->&->). split; [by apply f_mul_nonzero|]. split_and!; ring. Qed.

Lemma extended_neg P X Y Z T : extended_form P X Y Z T -> extended_form (pneg P) (- X) Y Z (- T).
Proof.
  intros (HZ&->&->&->). assert (px (pneg P) = - px P /\ py (pneg P) = py P) as [Ex Ey].
  { unfold px, py. cbn. by destruct (`P). }
  unfold extended_form. rewrite Ex, Ey. split; [done|]. split_and!; ring.
Qed.

(** The denominators of a sum. *)
Lemma padd_coordinates P Q : let k := cd * (px P * px Q * (py P * py Q)) in
  1 + k <> 0 /\ 1 - k <> 0 /\
  px (padd P Q) = (px P * py Q + py P * px Q) / (1 + k) /\ py (padd P Q) = (py P * py Q + px P * px Q) / (1 - k).
Proof using minus_one.
  pose proof (proj2_dsig P) as HP. pose proof (proj2_dsig Q) as HQ. unfold px, py. cbn. destruct (`P) as [x1 y1], (`Q) as [x2 y2]. cbn [fst snd add_xy].
  apply on_curve_rule in HP, HQ. pose proof (denominator_plus _ _ _ _ HP HQ). pose proof (denominator_minus _ _ _ _ HP HQ).
  split; [done|]. split; [done|]. split; [done|]. rewrite minus_one. f_equal. ring.
Qed.

Lemma add_completed P Q X1 Y1 Z1 T1 X2 Y2 Z2 T2 : extended_form P X1 Y1 Z1 T1 -> extended_form Q X2 Y2 Z2 T2 ->
  let A := (Y1 - X1) * (Y2 - X2) in let B := (Y1 + X1) * (Y2 + X2) in
  let C := T2 * (cd + cd) * T1 in let D := Z1 * Z2 + Z1 * Z2 in
  completed (padd P Q) (B - A) (B + A) (D + C) (D - C).
Proof using minus_one.
  intros (HZ1&->&->&->) (HZ2&->&->&->). destruct (padd_coordinates P Q) as (Hp & Hm & Ex & Ey). cbv zeta.
  set (k := cd * (px P * px Q * (py P * py Q))) in *.
  assert (Z1 * Z2 + Z1 * Z2 + px Q * py Q * Z2 * (cd + cd) * (px P * py P * Z1) = (1 + 1) * (Z1 * Z2) * (1 + k)) as -> by (unfold k; ring).
  assert (Z1 * Z2 + Z1 * Z2 - px Q * py Q * Z2 * (cd + cd) * (px P * py P * Z1) = (1 + 1) * (Z1 * Z2) * (1 - k)) as -> by (unfold k; ring).
  pose proof two_nonzero. unfold completed. rewrite Ex, Ey.
  split; [by repeat apply f_mul_nonzero|]. split; [by repeat apply f_mul_nonzero|]. split; field; done.
Qed.

Lemma double_completed P X Y Z : projective P X Y Z ->
  completed (padd P P) ((X + Y) * (X + Y) - (Y * Y + X * X)) (Y * Y + X * X) (Y * Y - X * X)
    ((1 + 1) * (Z * Z) - (Y * Y - X * X)).
Proof using minus_one.
  intros (HZ&->&->). destruct (padd_coordinates P P) as (Hp & Hm & Ex & Ey). pose proof (point_curve P) as HP.
  set (k := cd * (px P * px P * (py P * py P))) in *.
  assert (py P * Z * (py P * Z) - px P * Z * (px P * Z) = Z * Z * (1 + k)) as -> by (rewrite <- HP; ring).
  unfold completed. rewrite Ex, Ey. split; [by repeat apply f_mul_nonzero|].
  assert ((1 + 1) * (Z * Z) - Z * Z * (1 + k) = Z * Z * (1 - k)) as -> by ring.
  split; [by repeat apply f_mul_nonzero|]. split; field; done.
Qed.

(** The affine coordinates. *)
Lemma projective_affine P X Y Z : projective P X Y Z -> X * f_inv Z = px P /\ Y * f_inv Z = py P.
Proof. intros (HZ&->&->). split; field; done. Qed.
End forms.
