(* ===== verification/Field25519.v ===== *)
(** The field of [2 ^ 255 - 19] elements, and the complete Edwards curve of
    Ed25519 over it. *)

From Stdlib Require Import Zmod.Zmod Zpow_facts.
From S2P Require Import Prelude Primes Edwards Donna DonnaField.

Lemma prime_p : Z.prime p25519.
Proof. exact prime_25519. Qed.

Definition F25519 : Type := Zmod p25519.

#[global] Instance F25519_dec : EqDecision F25519.
Proof. intros x y. destruct (Zmod.eqb x y) eqn:E; [left|right]; by destruct (Zmod.eqb_spec x y). Defined.

#[global] Instance F25519_field : Field F25519 := {|
  f_0 := Zmod.zero; f_1 := Zmod.one; f_add := Zmod.add; f_mul := Zmod.mul; f_sub := Zmod.sub; f_opp := Zmod.opp;
  f_div := Zmod.mdiv; f_inv := Zmod.inv; field_laws := Zmod.field_theory p25519 prime_p
|}.

(* ------------------------------------------------------------------ *)
(** ** Integers as field elements *)

Definition inj (z : Z) : F25519 := Zmod.of_Z p25519 z.
(** The canonical representative. *)
Definition res (x : F25519) : Z := Zmod.unsigned x.

Lemma inj_eq a b : inj a = inj b <-> a == b.
Proof. apply Zmod.of_Z_inj. Qed.
Lemma inj_add a b : inj (a + b) = f_add (inj a) (inj b).
Proof. apply Zmod.of_Z_add. Qed.
Lemma inj_sub a b : inj (a - b) = f_sub (inj a) (inj b).
Proof. apply Zmod.of_Z_sub. Qed.
Lemma inj_opp a : inj (- a) = f_opp (inj a).
Proof. apply Zmod.of_Z_opp. Qed.
Lemma inj_mul a b : inj (a * b) = f_mul (inj a) (inj b).
Proof. apply Zmod.of_Z_mul. Qed.
Lemma inj_0 : inj 0 = f_0.
Proof. apply Zmod.of_Z_0. Qed.
Lemma inj_1 : inj 1 = f_1.
Proof. apply Zmod.of_Z_1. Qed.

Lemma inj_res x : inj (res x) = x.
Proof. apply Zmod.of_Z_unsigned. Qed.
Lemma res_inj z : res (inj z) = z mod p25519.
Proof. apply Zmod.unsigned_of_Z. Qed.
Lemma res_range x : 0 <= res x < p25519.
Proof. rewrite <- (inj_res x), res_inj. by apply Z.mod_pos_bound. Qed.
Lemma res_eq x y : res x = res y -> x = y.
Proof. intros E. by rewrite <- (inj_res x), <- (inj_res y), E. Qed.

Lemma inj_nonzero z : inj z <> f_0 <-> ~ (p25519 | z).
Proof.
  rewrite <- inj_0, inj_eq. unfold feq. rewrite Z.mod_0_l by done. split; intros H E; apply H.
  - apply Z.mod_divide in E; done.
  - apply Z.mod_divide; done.
Qed.

Lemma fermat_inj z : inj z <> f_0 -> inj (z ^ (p25519 - 1)) = f_1.
Proof. intros Hz%inj_nonzero. rewrite <- inj_1, inj_eq. apply (fermat _ _ prime_p Hz). Qed.

(** Inversion is the power [p - 2], for 0 too. *)
Lemma inj_inv z : inj (z ^ (p25519 - 2)) = f_inv (inj z).
Proof.
  unfold inj. rewrite Zmod.of_Z_pow by done. destruct (decide (inj z = f_0)) as [E|E].
  - change (Zmod.of_Z p25519 z) with (inj z). rewrite E. rewrite (Zmod.pow_0_l (m := p25519)) by done.
    unfold f_inv. cbn. by rewrite Zmod.inv_0.
  - apply Zmod.fermat_inv; [exact E|exact prime_p].
Qed.

(** A square is not a power that is -1. *)
Lemma nonsquare_power z : pow_mod z ((p25519 - 1) / 2) p25519 = p25519 - 1 -> forall x : F25519, f_mul x x <> inj z.
Proof.
  intros Hz x E. rewrite <- (inj_res x), <- inj_mul, inj_eq in E. set (r := res x) in *.
  rewrite pow_mod_spec in Hz by done.
  assert ((r * r) ^ ((p25519 - 1) / 2) mod p25519 = p25519 - 1) as H.
  { etransitivity; [|exact Hz]. apply (eqm_pow p25519); [done|exact E]. }
  rewrite <- Z.pow_2_r, <- Z.pow_mul_r in H by done. replace (2 * ((p25519 - 1) / 2)) with (p25519 - 1) in H by (vm_compute; reflexivity).
  destruct (decide (r mod p25519 = 0)) as [Hr|Hr].
  - assert (eqm p25519 (r ^ (p25519 - 1)) 0) as H0.
    { rewrite <- (Z.pow_0_l (p25519 - 1)) by done. by apply eqm_pow. }
    unfold eqm in H0. rewrite H0 in H. done.
  - assert (~ (p25519 | r)) as Hd by (intros Hd%Z.mod_divide; done).
    pose proof (fermat _ _ prime_p Hd) as H1. unfold eqm in H1. rewrite H1 in H. done.
Qed.

(** A congruence of constants, evaluated. *)
Ltac inj_compute := rewrite <- ?inj_0, <- ?inj_1, <- ?inj_mul, <- ?inj_add, <- ?inj_sub, <- ?inj_opp;
  apply inj_eq; vm_compute; reflexivity.

(* ------------------------------------------------------------------ *)
(** ** The curve *)

(** [d = -121665/121666], and [sqrt(-1) = 2 ^ ((p - 1) / 4)]. *)
Definition d_value : Z := 37095705934669439343138083508754565189542113879843219016388785533085940283555.
Definition sqrtm1_value : Z := 19681161376707505956807079304988542015446066515923890162744021073123829784752.

Lemma d_fraction : d_value * 121666 == -121665.
Proof. vm_compute. reflexivity. Qed.

#[global] Instance Ed25519 : Curve F25519.
Proof.
  refine {| ca := inj (-1); cd := inj d_value; root_a := inj sqrtm1_value |}.
  - inj_compute.
  - intros E. rewrite <- inj_0, inj_eq in E. revert E. vm_compute. done.
  - apply nonsquare_power. vm_compute. reflexivity.
  - intros E. rewrite <- inj_1, <- inj_add, <- inj_0, inj_eq in E. revert E. vm_compute. done.
Defined.
