(* ===== verification/GeFacts.v ===== *)
(** The group operations of curve25519/ed25519 compute in the group of the curve: each
    form of ge.h stands for a point, and additions, doublings and conversions give
    forms of the sums. *)

From Stdlib Require Import Field.
From S2P Require Import Prelude Buffers Crypto Limbs Scalar Donna DonnaField DonnaLadder DonnaBytes Fe FeField FeBytes Ge Edwards Field25519.

Ltac Zify.zify_post_hook ::= Z.to_euclidean_division_equations.
Add Field field_25519 : (field_laws (F := F25519)).
#[local] Open Scope F_scope.

(* ------------------------------------------------------------------ *)
(** ** Field elements *)

(** [x] has limbs within the bound [k] and stands for the field element [f]. *)
Definition fe_is (k : Z) (x : fe) (f : F25519) : Prop := within_bound k x /\ inj (eval x) = f.

Lemma fe_is_repr k x f : fe_is k x f -> fe_repr k x (res f).
Proof. intros [Hx <-]. split; [done|]. rewrite res_inj. symmetry. apply mod_feq. Qed.

Lemma repr_fe_is k x v f : fe_repr k x v -> inj v = f -> fe_is k x f.
Proof. intros [Hx Hv] <-. split; [done|]. by apply inj_eq. Qed.

Lemma fe_is_weaken k k' x f : (k <= k')%Z -> fe_is k x f -> fe_is k' x f.
Proof. intros Hk [Hx Hf]. split; [|done]. eapply (fe_repr_weaken k k' x (eval x)); [done|]. by split. Qed.

Lemma fe_is_eq k x f g : fe_is k x f -> f = g -> fe_is k x g.
Proof. by intros ? ->. Qed.

Lemma fe_add_is k l x y f g : (0 <= k <= 450)%Z -> (0 <= l <= 450)%Z -> fe_is k x f -> fe_is l y g ->
  fe_is (k + l) (fe_add x y) (f + g).
Proof.
  intros Hk Hl Hx%fe_is_repr Hy%fe_is_repr. eapply repr_fe_is; [by apply fe_add_repr|]. by rewrite inj_add, !inj_res.
Qed.

Lemma fe_sub_is k l x y f g : (0 <= k <= 450)%Z -> (0 <= l <= 450)%Z -> fe_is k x f -> fe_is l y g ->
  fe_is (k + l) (fe_sub x y) (f - g).
Proof.
  intros Hk Hl Hx%fe_is_repr Hy%fe_is_repr. eapply repr_fe_is; [by apply fe_sub_repr|]. by rewrite inj_sub, !inj_res.
Qed.

Lemma fe_neg_is k x f : (0 <= k <= 450)%Z -> fe_is k x f -> fe_is k (fe_neg x) (- f).
Proof. intros Hk Hx%fe_is_repr. eapply repr_fe_is; [by apply fe_neg_repr|]. by rewrite inj_opp, inj_res. Qed.

Lemma fe_mul_is k l x y f g : (k <= 330)%Z -> (l <= 330)%Z -> fe_is k x f -> fe_is l y g -> fe_is 101 (fe_mul x y) (f * g).
Proof.
  intros Hk Hl Hx%fe_is_repr Hy%fe_is_repr. eapply repr_fe_is.
  - apply fe_mul_repr; [by apply (fe_repr_weaken k)|by apply (fe_repr_weaken l)].
  - by rewrite inj_mul, !inj_res.
Qed.

Lemma fe_sq_is k x f : (k <= 330)%Z -> fe_is k x f -> fe_is 101 (fe_sq x) (f * f).
Proof.
  intros Hk Hx%fe_is_repr. eapply repr_fe_is; [apply fe_sq_repr; by eapply fe_repr_weaken|]. by rewrite inj_mul, !inj_res.
Qed.

Lemma fe_sq2_is k x f : (k <= 330)%Z -> fe_is k x f -> fe_is 101 (fe_sq2 x) ((1 + 1) * (f * f)).
Proof.
  intros Hk Hx%fe_is_repr. eapply repr_fe_is; [apply fe_sq2_repr; by eapply fe_repr_weaken|].
  rewrite !inj_mul, !inj_res. change 2%Z with (1 + 1)%Z. by rewrite inj_add, inj_1.
Qed.

Lemma fe_0_is : fe_is 1 fe_0 0.
Proof. eapply repr_fe_is; [apply fe_0_repr|apply inj_0]. Qed.
Lemma fe_1_is : fe_is 1 fe_1 1.
Proof. eapply repr_fe_is; [apply fe_1_repr|apply inj_1]. Qed.

Lemma fe_invert_is k x f : (k <= 330)%Z -> fe_is k x f -> fe_is 101 (fe_invert x) (f_inv f).
Proof.
  intros Hk Hx%fe_is_repr. eapply repr_fe_is; [apply fe_invert_repr; by eapply fe_repr_weaken|].
  by rewrite inj_inv, inj_res.
Qed.

Lemma fe_cmov_is k l x y f g (b : bool) : (k <= 900)%Z -> (l <= 900)%Z -> fe_is k x f -> fe_is l y g ->
  fe_is (if b then l else k) (fe_cmov x y (Z.b2z b)) (if b then g else f).
Proof.
  intros Hk Hl Hx Hy. pose proof (fe_cmov_spec b k l x y _ _ Hk Hl (fe_is_repr _ _ _ Hx) (fe_is_repr _ _ _ Hy)) as ->.
  by destruct b.
Qed.

Lemma fe_tobytes_is k x f : (k <= 305)%Z -> fe_is k x f -> fe_tobytes x = le_bytes 32 (res f).
Proof.
  intros Hk Hx%fe_is_repr. rewrite (fe_tobytes_repr k x (res f)) by done. f_equal. apply Z.mod_small, res_range.
Qed.

Lemma fe_frombytes_is s : fe_is 101 (fe_frombytes s) (inj (le_val s mod 2 ^ 255)).
Proof. eapply repr_fe_is; [apply fe_frombytes_repr|done]. Qed.

Lemma feq_res f g : feq (res f) (res g) <-> f = g.
Proof. rewrite <- inj_eq, !inj_res. done. Qed.

Lemma fe_isnonzero_is k x f : (k <= 305)%Z -> fe_is k x f -> fe_isnonzero x = if decide (f = 0) then 0%Z else (-1)%Z.
Proof.
  intros Hk Hx%fe_is_repr. rewrite (fe_isnonzero_repr k x _ Hk Hx). pose proof (inj_eq (res f) 0) as H. rewrite inj_res, inj_0 in H.
  do 2 case_decide; tauto.
Qed.

(** The sign of a field element. *)
Definition odd (f : F25519) : bool := Z.odd (res f).

Lemma fe_isnegative_is k x f : (k <= 305)%Z -> fe_is k x f -> fe_isnegative x = Z.b2z (odd f).
Proof.
  intros Hk Hx%fe_is_repr. rewrite (fe_isnegative_repr k x _ Hk Hx). unfold odd_residue, odd. by rewrite Z.mod_small by apply res_range.
Qed.

Lemma fe_isequal_is k l x y f g : (0 <= k)%Z -> (0 <= l)%Z -> (k + l <= 305)%Z -> fe_is k x f -> fe_is l y g ->
  fe_isequal x y = if decide (f = g) then 1%Z else 0%Z.
Proof.
  intros Hk Hl Hkl Hx%fe_is_repr Hy%fe_is_repr. rewrite (fe_isequal_repr k l x y _ _ Hk Hl Hkl Hx Hy).
  pose proof (feq_res f g). do 2 case_decide; tauto.
Qed.

(* ------------------------------------------------------------------ *)
(** ** Points *)

Abbreviation pt := (point (F := F25519)).

Definition p2_is (p : ge_p2) (P : pt) : Prop := exists X Y Z,
  fe_is 101 (p2_X p) X /\ fe_is 101 (p2_Y p) Y /\ fe_is 101 (p2_Z p) Z /\ projective P X Y Z.
Definition p3_is (p : ge_p3) (P : pt) : Prop := exists X Y Z T,
  fe_is 101 (p3_X p) X /\ fe_is 101 (p3_Y p) Y /\ fe_is 101 (p3_Z p) Z /\ fe_is 101 (p3_T p) T /\ extended_form P X Y Z T.
Definition p1p1_is (p : ge_p1p1) (P : pt) : Prop := exists X Y Z T,
  fe_is 330 (p1_X p) X /\ fe_is 330 (p1_Y p) Y /\ fe_is 330 (p1_Z p) Z /\ fe_is 330 (p1_T p) T /\ completed P X Y Z T.
Definition precomp_is (q : ge_precomp) (Q : pt) : Prop :=
  fe_is 101 (yplusx q) (py Q + px Q) /\ fe_is 101 (yminusx q) (py Q - px Q) /\ fe_is 101 (xy2d q) (px Q * py Q * (cd + cd)).
Definition cached_is (q : ge_cached) (Q : pt) : Prop := exists X Y Z T,
  fe_is 202 (YplusX q) (Y + X) /\ fe_is 202 (YminusX q) (Y - X) /\ fe_is 101 (c_Z q) Z /\ fe_is 101 (T2d q) (T * (cd + cd)) /\
  extended_form Q X Y Z T.

Lemma minus_one : ca (F := F25519) = - (1).
Proof. change (ca (F := F25519)) with (inj (-1)). by rewrite <- inj_1, <- inj_opp. Qed.

(** The constants of d.h, d2.h and sqrtm1.h. *)
Lemma fe_constant (x : fe) (v : Z) (k : Z) : length x = 10%nat -> (0 <= k)%Z ->
  forallb (fun i => 100 * Z.abs (at_ x i) <=? k * 2 ^ (width i - 1))%Z (seq 0 10) = true ->
  feq (eval x) v -> fe_is k x (inj v).
Proof.
  intros Hl Hk Hb He. eapply repr_fe_is; [|done]. split; [|done]. apply within_bound_intro; [done..|].
  rewrite forallb_forall in Hb. intros i Hi. specialize (Hb i ltac:(apply in_seq; lia)). by apply Z.leb_le in Hb.
Qed.

Ltac constant := apply fe_constant; [reflexivity|done|vm_compute; reflexivity|vm_compute; reflexivity].

Lemma fe_d_is : fe_is 101 fe_d cd.
Proof. change cd with (inj d_value). constant. Qed.
Lemma fe_d2_is : fe_is 101 fe_d2 (cd + cd).
Proof. change (cd + cd) with (inj d_value + inj d_value). rewrite <- inj_add. constant. Qed.
Lemma fe_sqrtm1_is : fe_is 101 fe_sqrtm1 root_a.
Proof. change root_a with (inj sqrtm1_value). constant. Qed.

Lemma px_zero : px (pzero (F := F25519)) = 0.
Proof. done. Qed.
Lemma py_zero : py (pzero (F := F25519)) = 1.
Proof. done. Qed.

Lemma fe_0_is' : fe_is 101 fe_0 0.
Proof. eapply fe_is_weaken; [|apply fe_0_is]. lia. Qed.
Lemma fe_1_is' : fe_is 101 fe_1 1.
Proof. eapply fe_is_weaken; [|apply fe_1_is]. lia. Qed.

Lemma ge_p2_0_is : p2_is ge_p2_0 pzero.
Proof.
  exists 0, 1, 1. split_and!; [apply fe_0_is'|apply fe_1_is'|apply fe_1_is'|]. unfold projective. rewrite px_zero, py_zero.
  split_and!; [apply one_nonzero|ring|ring].
Qed.
Lemma ge_p3_0_is : p3_is ge_p3_0 pzero.
Proof.
  exists 0, 1, 1, 0. split_and!; [apply fe_0_is'|apply fe_1_is'|apply fe_1_is'|apply fe_0_is'|].
  unfold extended_form. rewrite px_zero, py_zero. split_and!; [apply one_nonzero|ring..].
Qed.
Lemma ge_precomp_0_is : precomp_is ge_precomp_0 pzero.
Proof.
  unfold precomp_is. rewrite px_zero, py_zero. split_and!; (eapply fe_is_eq; [apply fe_1_is' || apply fe_0_is'|ring]).
Qed.

(* ------------------------------------------------------------------ *)
(** ** Conversions *)

Lemma ge_p3_to_p2_is p P : p3_is p P -> p2_is (ge_p3_to_p2 p) P.
Proof. intros (X&Y&Z&T&HX&HY&HZ&HT&H). exists X, Y, Z. split_and!; try done. by eapply extended_projective. Qed.

Lemma ge_p3_to_cached_is p P : p3_is p P -> cached_is (ge_p3_to_cached p) P.
Proof.
  intros (X&Y&Z&T&HX&HY&HZ&HT&H). exists X, Y, Z, T. cbn [ge_p3_to_cached YplusX YminusX c_Z T2d].
  split_and!; [apply (fe_add_is 101 101); done|apply (fe_sub_is 101 101); done|done| |done].
  apply (fe_mul_is 101 101); [done..|apply fe_d2_is].
Qed.

Lemma ge_p1p1_to_p2_is p P : p1p1_is p P -> p2_is (ge_p1p1_to_p2 p) P.
Proof.
  intros (X&Y&Z&T&HX&HY&HZ&HT&H). exists (X * T), (Y * Z), (Z * T). cbn [ge_p1p1_to_p2 p2_X p2_Y p2_Z].
  split_and!; [by apply (fe_mul_is 330 330)..|]. by apply completed_projective.
Qed.

Lemma ge_p1p1_to_p3_is p P : p1p1_is p P -> p3_is (ge_p1p1_to_p3 p) P.
Proof.
  intros (X&Y&Z&T&HX&HY&HZ&HT&H). exists (X * T), (Y * Z), (Z * T), (X * Y). cbn [ge_p1p1_to_p3 p3_X p3_Y p3_Z p3_T].
  split_and!; [by apply (fe_mul_is 330 330)..|]. by apply completed_extended.
Qed.

(* ------------------------------------------------------------------ *)
(** ** Sums *)

(** What the last four lines of the additions make of the products. *)
Lemma finish_sum A B C D a b c t P : fe_is 101 a A -> fe_is 101 b B -> fe_is 101 c C -> fe_is 202 t D ->
  completed P (B - A) (B + A) (D + C) (D - C) ->
  p1p1_is (P1P1 (fe_sub b a) (fe_add b a) (fe_add t c) (fe_sub t c)) P.
Proof.
  intros Ha Hb Hc Ht H. exists (B - A), (B + A), (D + C), (D - C). cbn [p1_X p1_Y p1_Z p1_T].
  split_and!; [| | | |done]; (eapply fe_is_weaken; [|first [by apply (fe_sub_is 101 101)|by apply (fe_add_is 101 101)|
    by apply (fe_add_is 202 101)|by apply (fe_sub_is 202 101)]]); done.
Qed.

Lemma finish_difference A B C D a b c t P : fe_is 101 a A -> fe_is 101 b B -> fe_is 101 c C -> fe_is 202 t D ->
  completed P (B - A) (B + A) (D - C) (D + C) ->
  p1p1_is (P1P1 (fe_sub b a) (fe_add b a) (fe_sub t c) (fe_add t c)) P.
Proof.
  intros Ha Hb Hc Ht H. exists (B - A), (B + A), (D - C), (D + C). cbn [p1_X p1_Y p1_Z p1_T].
  split_and!; [| | | |done]; (eapply fe_is_weaken; [|first [by apply (fe_sub_is 101 101)|by apply (fe_add_is 101 101)|
    by apply (fe_add_is 202 101)|by apply (fe_sub_is 202 101)]]); done.
Qed.

Lemma ge_add_is p q P Q : p3_is p P -> cached_is q Q -> p1p1_is (ge_add p q) (padd P Q).
Proof.
  intros (X1&Y1&Z1&T1&HX1&HY1&HZ1&HT1&H1) (X2&Y2&Z2&T2&HP&HM&HZ2&HT2&H2). unfold ge_add. cbv zeta.
  eapply finish_sum; [apply (fe_mul_is 202 202); [done..|apply (fe_sub_is 101 101); done|done]
    |apply (fe_mul_is 202 202); [done..|apply (fe_add_is 101 101); done|done]
    |apply (fe_mul_is 101 101); done
    |apply (fe_add_is 101 101); [done..|apply (fe_mul_is 101 101); done|apply (fe_mul_is 101 101); done]|].
  exact (add_completed minus_one P Q _ _ _ _ _ _ _ _ H1 H2).
Qed.

Lemma completed_eq P X Y Z T X' Y' Z' T' : completed (F := F25519) P X Y Z T -> X = X' -> Y = Y' -> Z = Z' -> T = T' ->
  completed P X' Y' Z' T'.
Proof. by intros ? -> -> -> ->. Qed.

Lemma ge_sub_is p q P Q : p3_is p P -> cached_is q Q -> p1p1_is (ge_sub p q) (padd P (pneg Q)).
Proof.
  intros (X1&Y1&Z1&T1&HX1&HY1&HZ1&HT1&H1) (X2&Y2&Z2&T2&HP&HM&HZ2&HT2&H2). unfold ge_sub. cbv zeta.
  eapply finish_difference; [apply (fe_mul_is 202 202); [done..|apply (fe_sub_is 101 101); done|done]
    |apply (fe_mul_is 202 202); [done..|apply (fe_add_is 101 101); done|done]
    |apply (fe_mul_is 101 101); done
    |apply (fe_add_is 101 101); [done..|apply (fe_mul_is 101 101); done|apply (fe_mul_is 101 101); done]|].
  eapply completed_eq; [exact (add_completed minus_one P (pneg Q) _ _ _ _ _ _ _ _ H1 (extended_neg _ _ _ _ _ H2))|..]; ring.
Qed.

Lemma precomp_extended (Q : pt) : extended_form Q (px Q) (py Q) 1 (px Q * py Q).
Proof. unfold extended_form. split_and!; [apply one_nonzero|ring..]. Qed.

Lemma ge_madd_is p q P Q : p3_is p P -> precomp_is q Q -> p1p1_is (ge_madd p q) (padd P Q).
Proof.
  intros (X1&Y1&Z1&T1&HX1&HY1&HZ1&HT1&H1) (HP&HM&HT2). unfold ge_madd. cbv zeta.
  eapply finish_sum; [apply (fe_mul_is 202 101); [done..|apply (fe_sub_is 101 101); done|done]
    |apply (fe_mul_is 202 101); [done..|apply (fe_add_is 101 101); done|done]
    |apply (fe_mul_is 101 101); done
    |apply (fe_add_is 101 101); done|].
  eapply completed_eq; [exact (add_completed minus_one P Q _ _ _ _ _ _ _ _ H1 (precomp_extended Q))|..]; ring.
Qed.

Lemma ge_msub_is p q P Q : p3_is p P -> precomp_is q Q -> p1p1_is (ge_msub p q) (padd P (pneg Q)).
Proof.
  intros (X1&Y1&Z1&T1&HX1&HY1&HZ1&HT1&H1) (HP&HM&HT2). unfold ge_msub. cbv zeta.
  eapply finish_difference; [apply (fe_mul_is 202 101); [done..|apply (fe_sub_is 101 101); done|done]
    |apply (fe_mul_is 202 101); [done..|apply (fe_add_is 101 101); done|done]
    |apply (fe_mul_is 101 101); done
    |apply (fe_add_is 101 101); done|].
  eapply completed_eq; [exact (add_completed minus_one P (pneg Q) _ _ _ _ _ _ _ _ H1 (extended_neg _ _ _ _ _ (precomp_extended Q)))|..]; ring.
Qed.

Lemma ge_p2_dbl_is p P : p2_is p P -> p1p1_is (ge_p2_dbl p) (padd P P).
Proof.
  intros (X&Y&Z&HX&HY&HZ&H). unfold ge_p2_dbl. cbv zeta.
  pose proof (fe_sq_is 101 _ _ ltac:(done) HX) as Hxx. pose proof (fe_sq_is 101 _ _ ltac:(done) HY) as Hyy.
  pose proof (fe_sq2_is 101 _ _ ltac:(done) HZ) as Hzz.
  assert (fe_is 101 (fe_sq (fe_add (p2_X p) (p2_Y p))) ((X + Y) * (X + Y))) as Ht.
  { apply (fe_sq_is 202); [done|]. by apply (fe_add_is 101 101). }
  eexists _, _, _, _. cbn [p1_X p1_Y p1_Z p1_T].
  split_and!; [| | | |exact (double_completed minus_one P X Y Z H)]; (eapply fe_is_weaken; [|
    first [by apply (fe_add_is 101 101)|by apply (fe_sub_is 101 101)|
    apply (fe_sub_is 101 202); [done..|by apply (fe_add_is 101 101)]|apply (fe_sub_is 101 202); [done..|by apply (fe_sub_is 101 101)]]]); done.
Qed.

Lemma ge_p3_dbl_is p P : p3_is p P -> p1p1_is (ge_p3_dbl p) (padd P P).
Proof. intros H. apply ge_p2_dbl_is. by apply ge_p3_to_p2_is. Qed.

Lemma ge_neg_is p P : p3_is p P -> p3_is (ge_neg p) (pneg P).
Proof.
  intros (X&Y&Z&T&HX&HY&HZ&HT&H). exists (- X), Y, Z, (- T). cbn [ge_neg p3_X p3_Y p3_Z p3_T].
  split_and!; [by apply fe_neg_is|done|done|by apply fe_neg_is|by apply extended_neg].
Qed.

(** Follow the operations of a form down to the forms it starts from. *)
Ltac ge_forms :=
  repeat lazymatch goal with
  | |- p3_is (ge_p1p1_to_p3 _) _ => apply ge_p1p1_to_p3_is
  | |- p2_is (ge_p1p1_to_p2 _) _ => apply ge_p1p1_to_p2_is
  | |- p2_is (ge_p3_to_p2 _) _ => apply ge_p3_to_p2_is
  | |- cached_is (ge_p3_to_cached _) _ => apply ge_p3_to_cached_is
  | |- p1p1_is (ge_p2_dbl _) _ => apply ge_p2_dbl_is
  | |- p1p1_is (ge_p3_dbl _) _ => apply ge_p3_dbl_is
  | |- p1p1_is (ge_add _ _) _ => apply ge_add_is
  | |- p1p1_is (ge_sub _ _) _ => apply ge_sub_is
  | |- p1p1_is (ge_madd _ _) _ => apply ge_madd_is
  | |- p1p1_is (ge_msub _ _) _ => apply ge_msub_is
  | |- _ => assumption
  end.
