(* ===== verification/GeTableFacts.v ===== *)
(** The tables hold the multiples of the base point they claim, and the base point has
    the order of [sc_reduce]. *)

From Stdlib Require Import Field.
From Bignums Require Import BigZ.BigZ.
From S2P Require Import Prelude Primes Buffers Crypto Limbs Scalar Donna DonnaField DonnaLadder DonnaBytes Fe FeField FeBytes Ge GeTables GeScalar Edwards Field25519 GeFacts.

Add Field field_tables : (field_laws (F := F25519)).

(* ------------------------------------------------------------------ *)
(** ** The base point *)

(** [y = 4/5], and the even [x]. *)
Definition B_x : Z := 15112221349535400772501151409588531511454012693041857206046113283949847762202.
Definition B_y : Z := 46316835694926478169428394003475163141307993866256225615783033603165251855960.

Lemma B_on_curve : on_curve (inj B_x, inj B_y).
Proof.
  unfold on_curve. change ca with (inj (-1)). change cd with (inj d_value). rewrite <- inj_1, <- !inj_mul, <- !inj_add.
  apply inj_eq. vm_compute. reflexivity.
Qed.
Definition B : pt := dexist (inj B_x, inj B_y) B_on_curve.

(* ------------------------------------------------------------------ *)
(** ** Evaluation on residues *)

(** Extended coordinates as integers, kept below [p25519]. *)
Definition zpoint : Type := big * big * big * big.
Definition binj (x : big) : F25519 := inj (to_Z x).
Definition zpoint_is (t : zpoint) (P : pt) : Prop :=
  let '(X, Y, Z, T) := t in extended_form P (binj X) (binj Y) (binj Z) (binj T).

Definition big_p : big := Eval vm_compute in of_Z p25519.
Definition mulp (x y : big) : big := big_mulmod big_p x y.
Definition big_2d : big := Eval vm_compute in of_Z (d_value + d_value).

Lemma inj_mod z : inj (z mod p25519) = inj z.
Proof. apply inj_eq, mod_feq. Qed.

Lemma binj_mulp x y : binj (mulp x y) = f_mul (binj x) (binj y).
Proof. unfold binj, mulp. rewrite big_mulmod_spec. change (to_Z big_p) with p25519. by rewrite inj_mod, inj_mul. Qed.
Lemma binj_add x y : binj (BigZ.add x y) = f_add (binj x) (binj y).
Proof. unfold binj. by rewrite BigZ.spec_add, inj_add. Qed.
Lemma binj_sub x y : binj (BigZ.sub x y) = f_sub (binj x) (binj y).
Proof. unfold binj. by rewrite BigZ.spec_sub, inj_sub. Qed.
Lemma binj_of_Z z : binj (of_Z z) = inj z.
Proof. unfold binj. by rewrite BigZ.spec_of_Z. Qed.
Lemma binj_2d : binj big_2d = f_add (inj d_value) (inj d_value).
Proof. unfold binj. change (to_Z big_2d) with (d_value + d_value). apply inj_add. Qed.

Definition zadd (t u : zpoint) : zpoint :=
  let '(X1, Y1, Z1, T1) := t in
  let '(X2, Y2, Z2, T2) := u in
  let A := mulp (BigZ.sub Y1 X1) (BigZ.sub Y2 X2) in
  let B := mulp (BigZ.add Y1 X1) (BigZ.add Y2 X2) in
  let C := mulp (mulp T2 big_2d) T1 in
  let ZZ := mulp Z1 Z2 in
  let D := BigZ.add ZZ ZZ in
  let X := BigZ.sub B A in let Y := BigZ.add B A in let Z := BigZ.add D C in let T := BigZ.sub D C in
  (mulp X T, mulp Y Z, mulp Z T, mulp X Y).

Lemma zadd_is t u P Q : zpoint_is t P -> zpoint_is u Q -> zpoint_is (zadd t u) (padd P Q).
Proof.
  destruct t as [[[X1 Y1] Z1] T1], u as [[[X2 Y2] Z2] T2]. intros H1 H2.
  pose proof (completed_extended _ _ _ _ _ (add_completed minus_one P Q _ _ _ _ _ _ _ _ H1 H2)) as H.
  unfold zadd, zpoint_is. cbv zeta in *. change cd with (inj d_value) in H. rewrite <- binj_2d in H.
  by repeat (rewrite ?binj_mulp, ?binj_sub, ?binj_add).
Qed.

Definition zB : zpoint := (of_Z B_x, of_Z B_y, of_Z 1, of_Z ((B_x * B_y) mod p25519)).
Lemma zB_is : zpoint_is zB B.
Proof.
  unfold zB, zpoint_is, extended_form. change (px B) with (inj B_x). change (py B) with (inj B_y).
  rewrite !binj_of_Z, inj_mod, inj_mul, inj_1. split_and!; [apply one_nonzero|ring..].
Qed.

Fixpoint zmul (n : positive) (t : zpoint) : zpoint :=
  match n with
  | xH => t
  | xO n' => let u := zmul n' t in zadd u u
  | xI n' => let u := zmul n' t in zadd t (zadd u u)
  end.

Lemma zmul_is n t P : zpoint_is t P -> zpoint_is (zmul n t) (pmul (Zpos n) P).
Proof.
  intros Ht. induction n as [n IH|n IH|]; cbn [zmul].
  - replace (Z.pos n~1) with (1 + (Z.pos n + Z.pos n))%Z by lia. rewrite !pmul_add, pmul_1. auto using zadd_is.
  - replace (Z.pos n~0) with (Z.pos n + Z.pos n)%Z by lia. rewrite pmul_add. auto using zadd_is.
  - by rewrite pmul_1.
Qed.

Definition same (a b : big) : bool := BigZ.eqb (BigZ.modulo (BigZ.sub a b) big_p) BigZ.zero.
Lemma same_inj a b : same a b = true -> binj a = binj b.
Proof.
  unfold same, binj. rewrite BigZ.spec_eqb, Z.eqb_eq, BigZ.spec_modulo, BigZ.spec_sub. change (to_Z big_p) with p25519.
  intros H. apply inj_eq. unfold feq. change (to_Z BigZ.zero) with 0 in H. apply f_equal with (f := fun z => (z + to_Z b) mod p25519) in H.
  rewrite Z.add_mod_idemp_l in H by done. rewrite Z.add_0_l in H. rewrite <- H. f_equal. lia.
Qed.

Definition zero_check (t : zpoint) : bool := let '(X, Y, Z, T) := t in same X BigZ.zero && same Y Z.

Lemma zero_check_is t P : zero_check t = true -> zpoint_is t P -> P = pzero.
Proof.
  destruct t as [[[X Y] Z] T]. unfold zero_check. rewrite andb_true_iff. intros [E0%same_inj E1%same_inj] (HZ & EX & EY & _).
  change (binj BigZ.zero) with (inj 0) in E0. rewrite inj_0 in E0.
  apply point_eq.
  - apply (f_mul_cancel (binj Z)); [done|]. change (px pzero) with (f_0 (F := F25519)).
    transitivity (binj X); [rewrite EX; ring|]. rewrite E0. ring.
  - apply (f_mul_cancel (binj Z)); [done|]. change (py pzero) with (f_1 (F := F25519)).
    transitivity (binj Y); [rewrite EY; ring|]. rewrite E1. ring.
Qed.

(** The order. *)
Lemma order_B : pmul order B = pzero.
Proof.
  apply (zero_check_is (zmul (Z.to_pos order) zB)); [vm_compute; reflexivity|]. apply zmul_is, zB_is.
Qed.

(* ------------------------------------------------------------------ *)
(** ** The tables *)

Definition tight_fe (x : fe) : bool :=
  (length x =? 10)%nat && forallb (fun i => 100 * Z.abs (at_ x i) <=? 101 * 2 ^ (width i - 1)) (seq 0 10).

Lemma tight_fe_is x f : tight_fe x = true -> inj (eval x) = f -> fe_is 101 x f.
Proof.
  intros [Hl%Nat.eqb_eq Hb]%andb_true_iff <-. split; [|done]. apply within_bound_intro; [done..|].
  rewrite forallb_forall in Hb. intros i Hi. specialize (Hb i ltac:(apply in_seq; lia)). by apply Z.leb_le in Hb.
Qed.

Definition entry_check (e : ge_precomp) (t : zpoint) : bool :=
  let '(X, Y, Z, T) := t in
  tight_fe (yplusx e) && tight_fe (yminusx e) && tight_fe (xy2d e) &&
  same (mulp (of_Z (eval (yplusx e))) Z) (BigZ.add Y X) && same (mulp (of_Z (eval (yminusx e))) Z) (BigZ.sub Y X) &&
  same (mulp (of_Z (eval (xy2d e))) Z) (mulp T big_2d).

Lemma entry_check_is e t P : entry_check e t = true -> zpoint_is t P -> precomp_is e P.
Proof.
  destruct t as [[[X Y] Z] T]. unfold entry_check. rewrite !andb_true_iff. intros (((((B1 & B2) & B3) & S1) & S2) & S3).
  apply same_inj in S1, S2, S3. rewrite binj_mulp, binj_of_Z, binj_add in S1. rewrite binj_mulp, binj_of_Z, binj_sub in S2.
  rewrite !binj_mulp, binj_of_Z, binj_2d in S3.
  intros (HZ & EX & EY & ET). rewrite EX, EY in S1, S2. rewrite ET in S3.
  split_and!; apply tight_fe_is; try done; apply (f_mul_cancel (binj Z)); try done; change cd with (inj d_value).
  - transitivity (f_mul (inj (eval (yplusx e))) (binj Z)); [ring|]. rewrite S1. ring.
  - transitivity (f_mul (inj (eval (yminusx e))) (binj Z)); [ring|]. rewrite S2. ring.
  - transitivity (f_mul (inj (eval (xy2d e))) (binj Z)); [ring|]. rewrite S3. ring.
Qed.

(** The entries of a row are [P], [P + Q], [P + 2Q], ...; [None] when one is not. *)
Fixpoint row_check (es : list ge_precomp) (t u : zpoint) : option zpoint :=
  match es with
  | [] => Some t
  | e :: es' => if entry_check e t then row_check es' (zadd u t) u else None
  end.

Lemma row_check_is es t u P Q r : row_check es t u = Some r -> zpoint_is t P -> zpoint_is u Q ->
  (forall j e, es !! j = Some e -> precomp_is e (padd (pmul (Z.of_nat j) Q) P)) /\ zpoint_is r (padd (pmul (Z.of_nat (length es)) Q) P).
Proof.
  revert t P. induction es as [|e es IH]; intros t P; cbn [row_check].
  { intros [= ->] Ht Hu. split; [done|]. cbn [length Z.of_nat]. by rewrite pmul_0, padd_zero_l. }
  destruct (entry_check e t) eqn:E; [|done]. intros Hr Ht Hu. destruct (IH _ _ Hr (zadd_is _ _ _ _ Hu Ht) Hu) as [Hes HR].
  assert (forall n, padd (pmul (Z.of_nat n) Q) (padd Q P) = padd (pmul (Z.of_nat (S n)) Q) P) as Hn.
  { intros n. rewrite Nat2Z.inj_succ, pmul_succ, <- padd_assoc. f_equal. apply padd_comm. }
  split.
  - intros [|j] e' Hj; cbn in Hj.
    + injection Hj as <-. cbn [Z.of_nat]. rewrite pmul_0, padd_zero_l. by apply (entry_check_is e t).
    + rewrite <- Hn. by apply Hes.
  - cbn [length]. by rewrite <- Hn.
Qed.

(** Row [i + 1] starts at 256 times the first entry of row [i]. *)
Definition znext (t : zpoint) : zpoint := Nat.iter 8 (fun t => zadd t t) t.

Lemma znext_is t P : zpoint_is t P -> zpoint_is (znext t) (pmul 256 P).
Proof.
  intros Ht. unfold znext. assert (forall n, zpoint_is (Nat.iter n (fun t => zadd t t) t) (pmul (2 ^ Z.of_nat n) P)) as H.
  { induction n as [|n IH]; [by rewrite pmul_1|]. rewrite Nat2Z.inj_succ, Z.pow_succ_r by lia. rewrite <- Z.add_diag, pmul_add.
    cbn [Nat.iter nat_rect]. by apply zadd_is. }
  exact (H 8%nat).
Qed.

Fixpoint rows_check (rs : list (list ge_precomp)) (t : zpoint) : bool :=
  match rs with
  | [] => true
  | es :: rs' => (length es =? 8)%nat && bool_decide (is_Some (row_check es t t)) && rows_check rs' (znext t)
  end.

Lemma rows_check_is rs t P i : rows_check rs t = true -> zpoint_is t P -> (i < length rs)%nat ->
  forall j, (j < 8)%nat -> precomp_is (nth j (nth i rs []) ge_precomp_0) (pmul (Z.of_nat (S j) * 256 ^ Z.of_nat i) P).
Proof.
  revert t P i. induction rs as [|es rs IH]; intros t P i Hr Ht Hi j Hj; [simpl in Hi; lia|].
  cbn [rows_check] in Hr. rewrite !andb_true_iff in Hr. destruct Hr as ((Hl%Nat.eqb_eq & [r E]%bool_decide_eq_true) & Hr). destruct i as [|i].
  - cbn [nth]. destruct (row_check_is es t t P P r E Ht Ht) as [He _]. change (Z.of_nat 0) with 0. rewrite Z.pow_0_r, Z.mul_1_r.
    destruct (lookup_lt_is_Some_2 es j ltac:(lia)) as [e Hej]. rewrite (nth_lookup_Some _ _ _ _ Hej).
    rewrite Nat2Z.inj_succ, pmul_succ, padd_comm. by apply He.
  - cbn [nth]. pose proof (IH (znext t) (pmul 256 P) i Hr (znext_is t P Ht) ltac:(simpl in Hi; lia) j Hj) as H.
    rewrite <- pmul_mul in H. rewrite (Nat2Z.inj_succ i), Z.pow_succ_r by lia.
    by replace (Z.of_nat (S j) * (256 * 256 ^ Z.of_nat i)) with (Z.of_nat (S j) * 256 ^ Z.of_nat i * 256) by lia.
Qed.

Lemma base_rows : rows_check base zB = true.
Proof. vm_compute. reflexivity. Qed.

(** [base[i][j] = (j+1)*256^i*B] *)
Lemma table_at_is i j : (i < 32)%nat -> (j < 8)%nat -> precomp_is (table_at i j) (pmul (Z.of_nat (S j) * 256 ^ Z.of_nat i) B).
Proof. intros Hi Hj. by apply (rows_check_is base zB B i base_rows zB_is). Qed.

Lemma Bi_row : bool_decide (is_Some (row_check Bi zB (zadd zB zB))) = true.
Proof. vm_compute. reflexivity. Qed.

(** [Bi[j] = (2j+1)*B] *)
Lemma Bi_is j : (j < 8)%nat -> precomp_is (nth j Bi ge_precomp_0) (pmul (2 * Z.of_nat j + 1) B).
Proof.
  intros Hj. pose proof Bi_row as [r E]%bool_decide_eq_true.
  destruct (row_check_is Bi _ _ _ _ r E zB_is (zadd_is _ _ _ _ zB_is zB_is)) as [He _].
  assert (length Bi = 8%nat) as Hl by reflexivity. destruct (lookup_lt_is_Some_2 Bi j ltac:(lia)) as [e Hej].
  rewrite (nth_lookup_Some _ _ _ _ Hej). specialize (He j e Hej).
  replace (2 * Z.of_nat j + 1) with (Z.of_nat j + Z.of_nat j + 1) by lia. rewrite !pmul_add, pmul_1. by rewrite <- pmul_padd.
Qed.
