(* ===== verification/GeScalarFacts.v ===== *)
(** Scalar multiplication computes the multiples of the group: the digits a scalar is
    recoded into stand for it, selections give the multiples of a digit, and the loops add
    them up.  In the sliding windows of ge_double_scalarmult.c each digit is 0 or odd and at
    most 15 in absolute value, and no carry runs past bit 255 for scalars up to
    [2 ^ 253]. *)

From S2P Require Import Prelude Buffers Crypto Limbs Scalar Donna DonnaField DonnaLadder DonnaBytes Fe FeField FeBytes Ge GeTables GeScalar Edwards Field25519 GeFacts GeTableFacts.

(* ------------------------------------------------------------------ *)
(** ** Selection *)

Lemma i8_small z : -128 <= z < 128 -> i8 z = z.
Proof. intros Hz. unfold i8. rewrite Z.mod_small; lia. Qed.

(** The digits from -8 to 8. *)
Definition digit8 (b : Z) : Prop := -8 <= b <= 8.

Lemma digit8_ind (P : Z -> Prop) : Forall P [-8; -7; -6; -5; -4; -3; -2; -1; 0; 1; 2; 3; 4; 5; 6; 7; 8] -> forall b, digit8 b -> P b.
Proof.
  intros H b Hb. rewrite Forall_forall in H. apply H. unfold digit8 in Hb.
  assert (b = -8 \/ b = -7 \/ b = -6 \/ b = -5 \/ b = -4 \/ b = -3 \/ b = -2 \/ b = -1 \/ b = 0 \/ b = 1 \/ b = 2 \/ b = 3 \/
    b = 4 \/ b = 5 \/ b = 6 \/ b = 7 \/ b = 8) as Hc by lia.
  repeat (destruct Hc as [->|Hc]; [set_solver|]). subst. set_solver.
Qed.

Lemma negative_spec b : digit8 b -> negative b = Z.b2z (b <? 0).
Proof. revert b. apply digit8_ind. repeat (constructor; [reflexivity|]). constructor. Qed.

Lemma abs_digit_spec b : digit8 b -> abs_digit b (negative b) = Z.abs b.
Proof. revert b. apply digit8_ind. repeat (constructor; [reflexivity|]). constructor. Qed.

Lemma equal_spec b j : digit8 b -> (j < 8)%nat -> equal (Z.abs b) (Z.of_nat (j + 1)) = Z.b2z (Z.abs b =? Z.of_nat (j + 1)).
Proof.
  intros Hb Hj. do 8 (destruct j as [|j]; [revert b Hb; apply digit8_ind; repeat (constructor; [reflexivity|]); constructor|]). lia.
Qed.

(** A conditional move between forms of points. *)
Lemma fe_cmov_if k l x y f g (b : bool) : k <= 900 -> l <= 900 -> fe_is k x f -> fe_is l y g -> fe_cmov x y (Z.b2z b) = if b then y else x.
Proof. intros Hk Hl Hx Hy. exact (fe_cmov_spec b k l x y _ _ Hk Hl (fe_is_repr _ _ _ Hx) (fe_is_repr _ _ _ Hy)). Qed.

Lemma cmov_if t u P Q (b : bool) : precomp_is t P -> precomp_is u Q -> cmov t u (Z.b2z b) = if b then u else t.
Proof.
  intros (H1&H2&H3) (G1&G2&G3). unfold cmov.
  rewrite (fe_cmov_if 101 101 _ _ _ _ b ltac:(done) ltac:(done) H1 G1), (fe_cmov_if 101 101 _ _ _ _ b ltac:(done) ltac:(done) H2 G2),
    (fe_cmov_if 101 101 _ _ _ _ b ltac:(done) ltac:(done) H3 G3).
  destruct t, u. by destruct b.
Qed.

Lemma cmov_cached_if t u P Q (b : bool) : cached_is t P -> cached_is u Q -> cmov_cached t u (Z.b2z b) = if b then u else t.
Proof.
  intros (?&?&?&?&H1&H2&H3&H4&_) (?&?&?&?&G1&G2&G3&G4&_). unfold cmov_cached.
  rewrite (fe_cmov_if 202 202 _ _ _ _ b ltac:(done) ltac:(done) H1 G1), (fe_cmov_if 202 202 _ _ _ _ b ltac:(done) ltac:(done) H2 G2),
    (fe_cmov_if 101 101 _ _ _ _ b ltac:(done) ltac:(done) H3 G3), (fe_cmov_if 101 101 _ _ _ _ b ltac:(done) ltac:(done) H4 G4).
  destruct t, u. by destruct b.
Qed.

(** The loop of [select] over a table of the multiples [P], [2P], ..., [8P]. *)
Section selection.
  Context {A : Type} (rep : A -> pt -> Prop) (move : A -> A -> Z -> A) (zero : A) (table : nat -> A) (P : pt).
  Hypothesis move_if : forall t u Q R (b : bool), rep t Q -> rep u R -> move t u (Z.b2z b) = if b then u else t.
  Hypothesis zero_is : rep zero pzero.
  Hypothesis table_is : forall j, (j < 8)%nat -> rep (table j) (pmul (Z.of_nat (S j)) P).

Lemma select_loop b : digit8 b ->
  rep (foldl (fun t j => move t (table j) (equal (Z.abs b) (Z.of_nat (j + 1)))) zero (seq 0 8)) (pmul (Z.abs b) P).
Proof using move_if zero_is table_is.
  intros Hb. assert (forall n, (n <= 8)%nat ->
    rep (foldl (fun t j => move t (table j) (equal (Z.abs b) (Z.of_nat (j + 1)))) zero (seq 0 n))
      (if Z.abs b <=? Z.of_nat n then pmul (Z.abs b) P else pzero)) as H.
  { induction n as [|n IH]; intros Hn.
    - cbn [seq foldl]. destruct (Z.leb_spec (Z.abs b) (Z.of_nat 0)); [|done]. by replace (Z.abs b) with 0 by lia.
    - rewrite seq_S, foldl_app. cbn [foldl]. rewrite Nat.add_0_l, equal_spec by (done || lia).
      erewrite move_if by (apply IH || apply table_is; lia). specialize (IH ltac:(lia)).
      destruct (Z.eqb_spec (Z.abs b) (Z.of_nat (n + 1))) as [E|E].
      + rewrite E. destruct (Z.leb_spec (Z.of_nat (n + 1)) (Z.of_nat (S n))); [|lia]. rewrite Nat.add_1_r. apply table_is. lia.
      + destruct (Z.leb_spec (Z.abs b) (Z.of_nat n)), (Z.leb_spec (Z.abs b) (Z.of_nat (S n))); done || lia. }
  specialize (H 8%nat ltac:(done)). unfold digit8 in Hb. by destruct (Z.leb_spec (Z.abs b) (Z.of_nat 8)); [|lia].
Qed.
End selection.

Lemma precomp_neg t P : precomp_is t P -> precomp_is (Precomp (yminusx t) (yplusx t) (fe_neg (xy2d t))) (pneg P).
Proof.
  intros (H1&H2&H3). assert (px (pneg P) = f_opp (px P) /\ py (pneg P) = py P) as [Ex Ey] by (unfold px, py; cbn; by destruct (`P)).
  unfold precomp_is. rewrite Ex, Ey. cbn [yplusx yminusx xy2d].
  split_and!; [eapply fe_is_eq; [exact H2|ring]|eapply fe_is_eq; [exact H1|ring]|eapply fe_is_eq; [apply fe_neg_is; [done|exact H3]|ring]].
Qed.

Lemma cached_neg t P : cached_is t P -> cached_is (Cached (YminusX t) (YplusX t) (c_Z t) (fe_neg (T2d t))) (pneg P).
Proof.
  intros (X&Y&Z&T&H1&H2&H3&H4&H). exists (f_opp X), Y, Z, (f_opp T). cbn [YplusX YminusX c_Z T2d].
  split_and!; [eapply fe_is_eq; [exact H2|ring]|eapply fe_is_eq; [exact H1|ring]|done|eapply fe_is_eq; [apply fe_neg_is; [done|exact H4]|ring]|].
  by apply extended_neg.
Qed.

Lemma pmul_sign b (P : pt) : (if b <? 0 then pneg (pmul (Z.abs b) P) else pmul (Z.abs b) P) = pmul b P.
Proof.
  destruct (Z.ltb_spec b 0); [|by rewrite Z.abs_eq]. rewrite <- pmul_opp. f_equal. lia.
Qed.

Lemma select_is pos b : (pos < 32)%nat -> digit8 b -> precomp_is (select pos b) (pmul (b * 256 ^ Z.of_nat pos) B).
Proof.
  intros Hp Hb. unfold select. cbv zeta. rewrite abs_digit_spec by done. rewrite pmul_mul.
  assert (forall j, (j < 8)%nat -> precomp_is (table_at pos j) (pmul (Z.of_nat (S j)) (pmul (256 ^ Z.of_nat pos) B))) as Ht
    by (intros j Hj; rewrite <- pmul_mul; by apply table_at_is).
  pose proof (select_loop precomp_is cmov ge_precomp_0 (table_at pos) _ cmov_if ge_precomp_0_is Ht b Hb) as H.
  set (t := foldl _ _ _) in *. rewrite negative_spec by done.
  rewrite (cmov_if _ _ _ _ _ H (precomp_neg _ _ H)). rewrite <- pmul_sign. destruct (b <? 0); [by apply precomp_neg|done].
Qed.

Lemma cached_0_is : cached_is cached_0 pzero.
Proof.
  exists f_0, f_1, f_1, f_0. cbn [cached_0 YplusX YminusX c_Z T2d].
  split_and!; [eapply fe_is_eq; [eapply fe_is_weaken; [|apply fe_1_is]; done|ring]..|apply fe_1_is'|eapply fe_is_eq; [apply fe_0_is'|ring]|].
  unfold extended_form. rewrite px_zero, py_zero. split_and!; [apply one_nonzero|ring..].
Qed.

Lemma select_cached_is pre (P : pt) b : (forall j, (j < 8)%nat -> cached_is (nth j pre cached_0) (pmul (Z.of_nat (S j)) P)) ->
  digit8 b -> cached_is (select_cached pre b) (pmul b P).
Proof.
  intros Ht Hb. unfold select_cached. cbv zeta. rewrite abs_digit_spec by done.
  pose proof (select_loop cached_is cmov_cached cached_0 (fun j => nth j pre cached_0) _ cmov_cached_if cached_0_is Ht b Hb) as H.
  set (t := foldl _ _ _) in *. rewrite negative_spec by done.
  rewrite (cmov_cached_if _ _ _ _ _ H (cached_neg _ _ H)). rewrite <- pmul_sign. destruct (b <? 0); [by apply cached_neg|done].
Qed.

(* ------------------------------------------------------------------ *)
(** ** Digits of four bits *)

(** The number of a list of digits. *)
Fixpoint number (b : Z) (l : list Z) : Z := match l with [] => 0 | x :: l' => x + b * number b l' end.
Abbreviation eval16 := (number 16).

Lemma nibbles_map a : length a = 32%nat ->
  nibbles a = flat_map (fun b => [Z.land (byte_val b) 15; Z.land (Z.shiftr (byte_val b) 4) 15]) a.
Proof.
  intros Hl. unfold nibbles. rewrite <- Hl. clear Hl. rewrite !flat_map_concat_map. f_equal. apply list_eq. intros i.
  rewrite !list_lookup_fmap. destruct (decide (i < length a)%nat) as [Hi|Hi].
  - rewrite lookup_seq_lt by done. destruct (lookup_lt_is_Some_2 a i Hi) as [b Hb]. rewrite Hb. cbn.
    unfold byte_at. by rewrite (nth_lookup_Some _ _ _ _ Hb).
  - rewrite (lookup_ge_None_2 (seq _ _)) by (rewrite length_seq; lia). by rewrite (lookup_ge_None_2 a) by lia.
Qed.

Lemma nibbles_spec a : length a = 32%nat ->
  eval16 (nibbles a) = le_val a /\ length (nibbles a) = 64%nat /\ Forall (fun x => 0 <= x <= 15) (nibbles a).
Proof.
  intros Hl. rewrite nibbles_map by done. replace 64%nat with (2 * length a)%nat by lia. clear Hl.
  induction a as [|b a (IH1 & IH2 & IH3)]; [done|]. cbn [flat_map app number length le_val].
  rewrite IH1, IH2. pose proof (byte_val_range b).
  assert (forall z, Z.land z 15 = z mod 16) as L by (intros z; apply (Z.land_ones z 4); done).
  rewrite !L, Z.shiftr_div_pow2 by done. change (2 ^ 4) with 16. pose proof (Z.div_mod (byte_val b) 16 ltac:(done)). pose proof (Z.mod_pos_bound (byte_val b) 16 ltac:(lia)).
  assert (0 <= byte_val b / 16 < 16) by lia. rewrite (Z.mod_small (byte_val b / 16)) by done.
  split; [lia|]. split; [lia|]. constructor; [lia|]. constructor; [lia|done].
Qed.

(** The carries, along the digits. *)
Fixpoint carry16 (xs : list Z) (c : Z) : list Z * Z :=
  match xs with
  | [] => ([], c)
  | x :: xs' => let k := (x + c + 8) / 16 in let '(r, o) := carry16 xs' k in ((x + c - 16 * k) :: r, o)
  end.

Lemma carry16_spec xs c : Forall (fun x => 0 <= x <= 15) xs -> 0 <= c <= 1 ->
  eval16 (carry16 xs c).1 + 16 ^ Z.of_nat (length xs) * (carry16 xs c).2 = eval16 xs + c /\
  length (carry16 xs c).1 = length xs /\ Forall digit8 (carry16 xs c).1 /\ 0 <= (carry16 xs c).2 <= 1.
Proof.
  intros Hx. revert c. induction Hx as [|x xs Hx _ IH]; intros c Hc; cbn [carry16].
  { cbn. split_and!; try done; lia. }
  cbv beta in Hx. assert (0 <= (x + c + 8) / 16 <= 1 /\ 0 <= x + c + 8 - 16 * ((x + c + 8) / 16) <= 15) as [Hk Hr] by lia.
  specialize (IH _ Hk). generalize dependent ((x + c + 8) / 16). intros k IH Hk Hr. destruct (carry16 xs k) as [r o].
  cbn [fst snd number length] in *. destruct IH as (E & Hl & Hd & Ho).
  rewrite Nat2Z.inj_succ, Z.pow_succ_r by lia. split_and!; [lia|lia|constructor; [unfold digit8; lia|done]|lia..].
Qed.

Lemma digit_carry_fold pre xs post c : Forall (fun x => 0 <= x <= 15) xs -> 0 <= c <= 1 ->
  foldl digit_carry (pre ++ xs ++ post, c) (seq (length pre) (length xs)) =
  (pre ++ (carry16 xs c).1 ++ post, (carry16 xs c).2).
Proof.
  intros Hx. revert pre c. induction Hx as [|x xs Hx _ IH]; intros pre c Hc; [done|]. cbn [length seq foldl app].
  assert (0 <= (x + c + 8) / 16 <= 1) as Hk by (cbv beta in Hx; lia).
  assert (digit_carry (pre ++ x :: xs ++ post, c) (length pre) = ((pre ++ [x + c - 16 * ((x + c + 8) / 16)]) ++ xs ++ post, (x + c + 8) / 16)) as ->.
  { unfold digit_carry. cbv beta in Hx. rewrite at_middle, (i8_small (x + c)), (i8_small (_ + 8)), Z.shiftr_div_pow2 by lia. change (2 ^ 4) with 16.
    rewrite Z.shiftl_mul_pow2 by done. change (2 ^ 4) with 16. rewrite i8_small by lia. f_equal.
    rewrite insert_app_r_alt, Nat.sub_diag by lia. cbn [insert list_insert]. rewrite <- app_assoc. cbn [app]. do 2 f_equal. lia. }
  specialize (IH (pre ++ [x + c - 16 * ((x + c + 8) / 16)]) _ Hk). rewrite length_app, Nat.add_1_r in IH. rewrite IH.
  cbn [carry16]. destruct (carry16 xs _) as [r o]. cbn [fst snd app]. by rewrite <- app_assoc.
Qed.

Lemma number_app b l x : 0 <= b -> number b (l ++ [x]) = number b l + b ^ Z.of_nat (length l) * x.
Proof.
  intros Hb.
  induction l as [|y l IH]; [cbn; lia|]. cbn [app number length] in *. rewrite IH, Nat2Z.inj_succ, Z.pow_succ_r by lia. lia.
Qed.

Lemma recode_spec a : length a = 32%nat -> le_val a < 2 ^ 255 ->
  eval16 (recode a) = le_val a /\ length (recode a) = 64%nat /\ Forall digit8 (recode a).
Proof.
  intros Ha Hv. destruct (nibbles_spec a Ha) as (He & Hl & Hn). unfold recode.
  assert (exists xs y, nibbles a = xs ++ [y] /\ length xs = 63%nat) as (xs & y & E & Hxs).
  { destruct (nibbles a) as [|n l] using rev_ind; [done|]. exists l, n. rewrite length_app in Hl. split; [done|]. simpl in Hl. lia. }
  rewrite E in *. apply Forall_app in Hn as [Hxs' Hy]. apply Forall_cons in Hy as [Hy _].
  pose proof (digit_carry_fold [] xs [y] 0 Hxs' ltac:(lia)) as F. cbn [app length] in F. rewrite Hxs in F. rewrite F. clear F.
  destruct (carry16_spec xs 0 Hxs' ltac:(lia)) as (EV & EL & ED & EO). destruct (carry16 xs 0) as [r o]. cbn [fst snd] in *.
  rewrite number_app, Hxs in He by done. assert (y <= 7) as Hy7.
  { assert (0 <= eval16 xs) as Hp; [|change (16 ^ Z.of_nat 63) with (2 ^ 252) in He; lia].
    clear - Hxs'. induction Hxs' as [|z l Hz _ IH]; [done|]. cbn [number]. cbv beta in Hz. lia. }
  assert (at_ (r ++ [y]) 63 = y) as ->. { pose proof (at_middle r y []) as M. by rewrite EL, Hxs in M. }
  rewrite i8_small by lia. replace 63%nat with (length r + 0)%nat by lia. rewrite insert_app_r. cbn [insert list_insert].
  rewrite number_app, EL, Hxs by done. split; [rewrite Hxs in EV; lia|]. split; [rewrite length_app; simpl; lia|].
  apply Forall_app. split; [done|]. constructor; [unfold digit8; lia|done].
Qed.

(* ------------------------------------------------------------------ *)
(** ** Multiples of the base point *)

(** [sum(g(i) * 256 ^ i)] for [i < n] *)
Fixpoint sum256 (g : nat -> Z) (n : nat) : Z :=
  match n with O => 0 | S n' => sum256 g n' + g n' * 256 ^ Z.of_nat n' end.

Lemma take_snoc (l : list Z) n : (n < length l)%nat -> take (S n) l = take n l ++ [at_ l n].
Proof.
  intros Hn. destruct (lookup_lt_is_Some_2 l n Hn) as [x Hx]. rewrite (take_S_r _ _ _ Hx). unfold at_. by rewrite (nth_lookup_Some _ _ _ _ Hx).
Qed.

Lemma eval16_pairs l n : (2 * n <= length l)%nat ->
  eval16 (take (2 * n) l) = sum256 (fun i => at_ l (2 * i)) n + 16 * sum256 (fun i => at_ l (2 * i + 1)) n.
Proof.
  induction n as [|n IH]; intros Hn; [done|]. replace (2 * S n)%nat with (S (S (2 * n))) by lia.
  rewrite !take_snoc, !number_app, IH, !length_app, !length_take by (done || lia). cbn [sum256 length].
  rewrite !Nat.min_l by lia. rewrite !Nat2Z.inj_add, Nat2Z.inj_mul, Z.pow_add_r, Z.pow_mul_r by lia.
  change (16 ^ Z.of_nat 2) with 256. change (16 ^ Z.of_nat 1) with 16. replace (2 * n + 1)%nat with (S (2 * n)) by lia. lia.
Qed.

Lemma base_loop g h H n : (n <= 32)%nat -> (forall i, (i < n)%nat -> digit8 (g i)) -> p3_is h H ->
  p3_is (foldl (fun h i => ge_p1p1_to_p3 (ge_madd h (select i (g i)))) h (seq 0 n)) (padd H (pmul (sum256 g n) B)).
Proof.
  intros Hn Hg Hh. induction n as [|n IH]; [by rewrite pmul_0, padd_zero_r|]. rewrite seq_S, foldl_app. cbn [foldl sum256].
  rewrite pmul_add, <- padd_assoc. apply ge_p1p1_to_p3_is, ge_madd_is; [apply IH; [lia|]; intros i Hi; apply Hg; lia|].
  apply select_is; [lia|]. apply Hg. lia.
Qed.

Lemma double_pmul z (P : pt) : padd (pmul z P) (pmul z P) = pmul (2 * z) P.
Proof. by rewrite <- pmul_add, Z.add_diag. Qed.

Lemma digits_at l i : Forall digit8 l -> digit8 (at_ l i).
Proof.
  intros Hl. unfold at_. rewrite nth_lookup. destruct (l !! i) as [x|] eqn:E; [|unfold digit8; cbn; lia].
  rewrite Forall_lookup in Hl. exact (Hl i x E).
Qed.

(** [h = a * B] *)
Lemma ge_scalarmult_base_is a : length a = 32%nat -> le_val a < 2 ^ 255 -> p3_is (ge_scalarmult_base a) (pmul (le_val a) B).
Proof.
  intros Ha Hv. destruct (recode_spec a Ha Hv) as (He & Hl & Hd). unfold ge_scalarmult_base. cbv zeta.
  pose proof (base_loop (fun i => at_ (recode a) (2 * i + 1)) ge_p3_0 pzero 32 ltac:(done) (fun i _ => digits_at _ _ Hd) ge_p3_0_is) as H1.
  cbv beta in H1. set (h := foldl _ ge_p3_0 _) in *. rewrite padd_zero_l in H1.
  set (s1 := sum256 _ 32) in H1.
  assert (p3_is (ge_p1p1_to_p3 (ge_p2_dbl (ge_p1p1_to_p2 (ge_p2_dbl (ge_p1p1_to_p2 (ge_p2_dbl (ge_p1p1_to_p2 (ge_p3_dbl h)))))))) (pmul (16 * s1) B)) as H2.
  { replace (16 * s1) with (2 * (2 * (2 * (2 * s1)))) by lia. rewrite <- !double_pmul. ge_forms. }
  pose proof (base_loop (fun i => at_ (recode a) (2 * i)) _ _ 32 ltac:(done) (fun i _ => digits_at _ _ Hd) H2) as H3.
  cbv beta in H3. rewrite <- pmul_add in H3. pose proof (eval16_pairs (recode a) 32 ltac:(lia)) as E.
  rewrite take_ge, He in E by (rewrite Hl; done). rewrite E, Z.add_comm. exact H3.
Qed.

(* ------------------------------------------------------------------ *)
(** ** Multiples of any point *)

Lemma multiples_is A (P : pt) : p3_is A P -> forall j, (j < 8)%nat -> cached_is (nth j (multiples A) cached_0) (pmul (Z.of_nat (S j)) P).
Proof.
  intros HA. unfold multiples. cbv zeta.
  assert (forall m n x y, p3_is x (pmul m P) -> p3_is y (pmul n P) -> p3_is (ge_p1p1_to_p3 (ge_add x (ge_p3_to_cached y))) (pmul (m + n) P)) as Ha
    by (intros m n x y Hx Hy; rewrite pmul_add; ge_forms).
  assert (forall m x, p3_is x (pmul m P) -> p3_is (ge_p1p1_to_p3 (ge_p3_dbl x)) (pmul (2 * m) P)) as Hd
    by (intros m x Hx; rewrite <- double_pmul; ge_forms).
  rewrite <- (pmul_1 P) in HA.
  pose proof (Hd 1 _ HA) as H2. pose proof (Ha 1 2 _ _ HA H2) as H3. pose proof (Hd 2 _ H2) as H4. pose proof (Ha 1 4 _ _ HA H4) as H5.
  pose proof (Hd 3 _ H3) as H6. pose proof (Ha 1 6 _ _ HA H6) as H7. pose proof (Hd 4 _ H4) as H8.
  intros j Hj. do 8 (destruct j as [|j]; [cbn [nth]; apply ge_p3_to_cached_is; assumption|]). lia.
Qed.

(** The digits from the last one down to digit [i]. *)
Lemma number_drop b l i : (i < length l)%nat -> number b (drop i l) = at_ l i + b * number b (drop (S i) l).
Proof.
  intros Hi. destruct (lookup_lt_is_Some_2 l i Hi) as [x Hx]. rewrite (drop_S _ _ _ Hx). cbn [number].
  unfold at_. by rewrite (nth_lookup_Some _ _ _ _ Hx).
Qed.

Lemma rev_seq_S i n : rev (seq i (S n)) = rev (seq (S i) n) ++ [i].
Proof. done. Qed.

(** [h = a * A] *)
Lemma ge_scalarmult_is a A (P : pt) : length a = 32%nat -> le_val a < 2 ^ 255 -> p3_is A P ->
  p3_is (ge_scalarmult a A) (pmul (le_val a) P).
Proof.
  intros Ha Hv HA. destruct (recode_spec a Ha Hv) as (He & Hl & Hd). pose proof (multiples_is A P HA) as Hm. unfold ge_scalarmult. cbv zeta.
  set (e := recode a) in *. set (pre := multiples A) in *. set (f := fun h i => _).
  assert (forall n, (n <= 63)%nat -> p3_is (foldl f ge_p3_0 (rev (seq (64 - n) n))) (pmul (16 * eval16 (drop (64 - n) e)) P)) as H.
  { induction n as [|n IH]; intros Hn.
    - cbn [seq rev foldl]. rewrite drop_ge by lia. cbn [number]. rewrite Z.mul_0_r, pmul_0. apply ge_p3_0_is.
    - replace (64 - S n)%nat with (63 - n)%nat by lia. rewrite rev_seq_S, foldl_app. replace (S (63 - n)) with (64 - n)%nat by lia.
      cbn [foldl]. specialize (IH ltac:(lia)). set (h := foldl f _ _) in *. unfold f. cbv zeta.
      rewrite (number_drop 16 e (63 - n)) by lia. replace (S (63 - n)) with (64 - n)%nat by lia.
      set (N := eval16 (drop (64 - n) e)) in *. replace (16 * (at_ e (63 - n) + 16 * N)) with (2 * (2 * (2 * (2 * (16 * N + at_ e (63 - n)))))) by lia.
      rewrite <- !double_pmul, !(pmul_add (16 * N)).
      pose proof (select_cached_is pre P (at_ e (63 - n)) Hm ltac:(by apply digits_at)). ge_forms. }
  specialize (H 63%nat ltac:(done)). change (64 - 63)%nat with 1%nat in H. 
  pose proof (number_drop 16 e 0 ltac:(lia)) as E. rewrite drop_0, He in E. rewrite E, Z.add_comm, pmul_add.
  pose proof (select_cached_is pre P (at_ e 0) Hm ltac:(by apply digits_at)). ge_forms.
Qed.

Definition bit (x : Z) : Prop := x = 0 \/ x = 1.

(* ------------------------------------------------------------------ *)
(** ** Bits *)

Lemma number_bits V n : 0 <= V -> number 2 (map (fun i => Z.b2z (Z.testbit V (Z.of_nat i))) (seq 0 n)) = V mod 2 ^ Z.of_nat n.
Proof.
  intros HV. induction n as [|n IH]; [by rewrite Z.mod_1_r|].
  rewrite seq_S, map_app. cbn [map]. rewrite number_app, IH, length_map, length_seq by done. rewrite Nat.add_0_l.
  rewrite Nat2Z.inj_succ, <- Z.add_1_r, mod_split by lia. f_equal. f_equal. rewrite Z.testbit_spec' by lia. done.
Qed.

Lemma bits_spec a : length a = 32%nat ->
  number 2 (bits a) = le_val a /\ length (bits a) = 256%nat /\ Forall bit (bits a).
Proof.
  intros Ha. assert (bits a = map (fun i => Z.b2z (Z.testbit (le_val a) (Z.of_nat i))) (seq 0 256)) as ->.
  { unfold bits. apply map_ext. intros i. rewrite Z.land_comm, land_1, Z.shiftr_spec by done. rewrite Z.add_0_l.
    pose proof (Nat.div_mod_eq i 8). pose proof (Nat.mod_upper_bound i 8 ltac:(done)).
    rewrite byte_at_testbit by lia. do 2 f_equal. lia. }
  rewrite number_bits by apply le_val_range. pose proof (le_val_range a) as Hr. rewrite Ha in Hr.
  split; [apply Z.mod_small; exact Hr|]. split; [by rewrite length_map, length_seq|].
  apply Forall_forall. intros x (i & -> & _)%list_elem_of_fmap. unfold bit. destruct (Z.testbit _ _); auto.
Qed.

Lemma number_bits_range l : Forall bit l -> 0 <= number 2 l < 2 ^ Z.of_nat (length l).
Proof.
  induction 1 as [|x l Hx _ IH]; [done|]. cbn [number length]. rewrite Nat2Z.inj_succ, Z.pow_succ_r by lia. unfold bit in Hx. lia.
Qed.

(* ------------------------------------------------------------------ *)
(** ** The carry *)

Fixpoint increment (l : list Z) : list Z :=
  match l with [] => [] | x :: l' => if x =? 0 then 1 :: l' else 0 :: increment l' end.

Lemma slide_carry_increment pre l : slide_carry (length l) (length pre) (pre ++ l) = pre ++ increment l.
Proof.
  revert pre. induction l as [|x l IH]; intros pre; [done|]. cbn [length slide_carry increment]. rewrite at_middle.
  rewrite !insert_app_r_alt, Nat.sub_diag by lia. cbn [insert list_insert]. destruct (x =? 0); [done|].
  specialize (IH (pre ++ [0])). rewrite length_app, Nat.add_1_r, <- !app_assoc in IH. exact IH.
Qed.

Lemma increment_spec l : Forall bit l -> number 2 l + 1 < 2 ^ Z.of_nat (length l) ->
  number 2 (increment l) = number 2 l + 1 /\ length (increment l) = length l /\ Forall bit (increment l).
Proof.
  induction 1 as [|x l Hx Hl IH]; [done|]. cbn [number length increment]. rewrite Nat2Z.inj_succ, Z.pow_succ_r by lia. intros Hn.
  unfold bit in Hx. destruct (Z.eqb_spec x 0) as [->|Hx0].
  - cbn [number length]. split; [lia|]. split; [done|]. constructor; [by right|done].
  - assert (x = 1) as -> by lia. destruct IH as (E & L & F); [lia|]. cbn [number length]. split; [lia|]. split; [by f_equal|].
    constructor; [by left|done].
Qed.

(* ------------------------------------------------------------------ *)
(** ** The window of a digit *)

(** The digit [x] and the bits from position [b] above it. *)
Fixpoint window (n b : nat) (x : Z) (l : list Z) : Z * list Z :=
  match n, l with
  | S n', y :: l' =>
      let d := 2 ^ Z.of_nat b in
      if y =? 0 then let '(x', t) := window n' (S b) x l' in (x', 0 :: t)
      else if x + d <=? 15 then let '(x', t) := window n' (S b) (x + d) l' in (x', 0 :: t)
      else if x - d >=? -15 then let '(x', t) := window n' (S b) (x - d) (increment l') in (x', 0 :: t)
      else (x, l)
  | _, _ => (x, l)
  end.

Lemma length_increment l : length (increment l) = length l.
Proof. induction l as [|x l IH]; [done|]. cbn. destruct (x =? 0); cbn; [done|by rewrite IH]. Qed.

Lemma bits_increment l : Forall bit l -> Forall bit (increment l).
Proof.
  induction 1 as [|x l Hx Hl IH]; [done|]. cbn. destruct (x =? 0); (constructor; [unfold bit; auto|auto]).
Qed.

Lemma slide_window_pure n b x l pre : (1 <= b)%nat -> Forall bit l -> -15 <= x <= 15 -> (length pre + b + length l = 256)%nat ->
  slide_window n b (length pre) (pre ++ x :: repeat 0 (b - 1) ++ l) =
  (let '(x', t) := window n b x l in pre ++ x' :: repeat 0 (b - 1) ++ t).
Proof.
  revert b x l. induction n as [|n IH]; intros b x l Hb Hl Hx Hlen; [done|]. cbn [slide_window window].
  destruct l as [|y l].
  { destruct (Nat.ltb_spec (length pre + b) 256); [simpl in Hlen; lia|]. done. }
  cbn [length] in Hlen. destruct (Nat.ltb_spec (length pre + b) 256); [|lia]. cbn [negb].
  apply Forall_cons in Hl as [Hy Hl].
  set (front := pre ++ x :: repeat 0 (b - 1)).
  assert (length front = (length pre + b)%nat) as Hf by (unfold front; rewrite length_app; cbn [length]; rewrite repeat_length; lia).
  assert (pre ++ x :: repeat 0 (b - 1) ++ y :: l = front ++ y :: l) as E by (unfold front; by rewrite <- app_assoc).
  assert (forall z t, pre ++ z :: repeat 0 (b - 1) ++ 0 :: t = pre ++ z :: repeat 0 (S b - 1) ++ t) as R.
  { intros z t. do 2 f_equal. replace (S b - 1)%nat with (b - 1 + 1)%nat by lia. rewrite repeat_app, <- app_assoc. done. }
  assert (at_ (front ++ y :: l) (length pre + b) = y) as Ay by (rewrite <- Hf; apply at_middle).
  assert (at_ (front ++ y :: l) (length pre) = x) as Ax by (rewrite <- E; apply at_middle).
  rewrite E, Ay, Ax. unfold bit in Hy. destruct (Z.eqb_spec y 0) as [->|Hy0].
  { rewrite <- E, R, IH by (done || lia). destruct (window n (S b) x l) as [x' t]. by rewrite R. }
  assert (y = 1) as -> by lia. rewrite Z.shiftl_mul_pow2, Z.mul_1_l by lia. set (d := 2 ^ Z.of_nat b).
  assert (0 < d) as Hd by (apply Z.pow_pos_nonneg; lia).
  assert (forall v, <[length pre := v]> (front ++ 1 :: l) = pre ++ v :: repeat 0 (b - 1) ++ 1 :: l) as Ix.
  { intros v. rewrite <- E. rewrite insert_app_r_alt, Nat.sub_diag by lia. done. }
  destruct (Z.leb_spec (x + d) 15).
  { rewrite i8_small, Ix by lia.
    assert (forall v, <[(length pre + b)%nat := 0]> (pre ++ v :: repeat 0 (b - 1) ++ 1 :: l) = pre ++ v :: repeat 0 (b - 1) ++ 0 :: l) as ->.
    { intros v. pose proof (insert_app_r (pre ++ v :: repeat 0 (b - 1)) (1 :: l) 0 0) as Q. rewrite <- !app_assoc in Q.
      rewrite length_app in Q. cbn [length] in Q. rewrite repeat_length in Q.
      by replace (length pre + S (b - 1) + 0)%nat with (length pre + b)%nat in Q by lia. }
    rewrite R, IH by (done || lia). destruct (window n (S b) (x + d) l) as [x' t]. by rewrite R. }
  destruct (Z.geb_spec (x - d) (-15)); [|by rewrite <- E].
  rewrite i8_small, Ix by lia.
  assert (slide_carry (256 - (length pre + b)) (length pre + b) (pre ++ x - d :: repeat 0 (b - 1) ++ 1 :: l) =
    pre ++ x - d :: repeat 0 (b - 1) ++ 0 :: increment l) as ->.
  { pose proof (slide_carry_increment (pre ++ x - d :: repeat 0 (b - 1)) (1 :: l)) as Q. rewrite length_app in Q. cbn [length] in Q. rewrite repeat_length in Q.
    replace (256 - (length pre + b))%nat with (S (length l)) by lia. replace (length pre + S (b - 1))%nat with (length pre + b)%nat in Q by lia.
    rewrite <- !app_assoc in Q. cbn [app increment Z.eqb] in Q. exact Q. }
  rewrite R, IH; [|lia|by apply bits_increment|lia|rewrite length_increment; lia].
  destruct (window n (S b) (x - d) (increment l)) as [x' t]. by rewrite R.
Qed.

Definition odd_digit (x : Z) : Prop := Z.odd x = true /\ -15 <= x <= 15.

Lemma odd_pow x b : (1 <= b)%nat -> Z.odd (x + 2 ^ Z.of_nat b) = Z.odd x /\ Z.odd (x - 2 ^ Z.of_nat b) = Z.odd x.
Proof.
  intros Hb. assert (Z.odd (2 ^ Z.of_nat b) = false) as E.
  { rewrite <- Z.negb_even, Z.even_pow by lia. done. }
  rewrite Z.odd_add, Z.odd_sub, E. by destruct (Z.odd x).
Qed.

Lemma pow_cases b : (1 <= b)%nat -> let d := 2 ^ Z.of_nat b in
  ((b <= 3)%nat /\ d <= 8) \/ (b = 4%nat /\ d = 16) \/ ((5 <= b)%nat /\ 32 <= d).
Proof.
  intros Hb d. unfold d. destruct (decide (b <= 3)%nat).
  - left. split; [done|]. apply (Z.pow_le_mono_r 2 _ 3); lia.
  - destruct (decide (b = 4)%nat) as [->|]; [by right; left|]. right. right. split; [lia|]. apply (Z.pow_le_mono_r 2 5); lia.
Qed.

(** While a window is positive nothing was borrowed, and it is below [2 ^ b]; it becomes
    negative at [b = 4] only, and then takes no more bits. *)
Definition window_ok (i b : nat) (x N : Z) : Prop :=
  (0 < x < 2 ^ Z.of_nat b /\ 2 ^ Z.of_nat (i + b) * N < 2 ^ 253) \/
  (x < 0 /\ (5 <= b)%nat /\ 2 ^ Z.of_nat (i + b) * N <= 2 ^ 253).

Lemma pow_S (i : nat) : 2 ^ Z.of_nat (S i) = 2 * 2 ^ Z.of_nat i.
Proof. rewrite Nat2Z.inj_succ, Z.pow_succ_r by lia. done. Qed.

(** A carry out of bit [e] of a number below [2 ^ 253]. *)
Lemma carry_room e m N : (e + m = 256)%nat -> 2 ^ Z.of_nat e * (1 + 2 * N) < 2 ^ 253 -> 0 <= N ->
  2 ^ Z.of_nat e * (2 * (N + 1)) <= 2 ^ 253 /\ N + 1 < 2 ^ (Z.of_nat m - 1).
Proof.
  intros He HN HN0. assert (0 < 2 ^ Z.of_nat e) as Hp by (apply Z.pow_pos_nonneg; lia).
  assert (Z.of_nat e < 253) as Hlt.
  { destruct (Z.lt_ge_cases (Z.of_nat e) 253) as [|Hge]; [done|]. pose proof (Z.pow_le_mono_r 2 253 (Z.of_nat e) ltac:(lia) Hge). nia. }
  assert (2 ^ 253 = 2 ^ Z.of_nat e * 2 ^ (253 - Z.of_nat e)) as E by (rewrite <- Z.pow_add_r by lia; f_equal; lia).
  assert (2 ^ (253 - Z.of_nat e) = 2 * 2 ^ (252 - Z.of_nat e)) as E' by (rewrite <- Z.pow_succ_r by lia; f_equal; lia).
  rewrite E, E' in *. assert (1 + 2 * N < 2 * 2 ^ (252 - Z.of_nat e)) as HN' by (apply (Z.mul_lt_mono_pos_l (2 ^ Z.of_nat e)); [done|lia]).
  split; [apply Z.mul_le_mono_nonneg_l; lia|].
  pose proof (Z.pow_le_mono_r 2 (253 - Z.of_nat e) (Z.of_nat m - 1) ltac:(lia) ltac:(lia)) as Hm. rewrite E' in Hm. lia.
Qed.

Lemma window_spec n i b x l : Forall bit l -> (1 <= b)%nat -> (i + b + length l = 256)%nat -> odd_digit x ->
  window_ok i b x (number 2 l) ->
  let '(x', t) := window n b x l in
  Forall bit t /\ length t = length l /\ odd_digit x' /\
  x + 2 ^ Z.of_nat b * number 2 l = x' + 2 ^ Z.of_nat b * number 2 t /\ 2 ^ Z.of_nat (i + b) * number 2 t <= 2 ^ 253.
Proof.
  revert b x l. induction n as [|n IH]; intros b x l Hl Hb Hlen Hx Hw; cbn [window].
  { do 4 (split; [done|]). unfold window_ok in Hw. lia. }
  destruct l as [|y l]; [do 4 (split; [done|]); cbn [number]; by rewrite Z.mul_0_r|]. apply Forall_cons in Hl as [Hy Hl]. cbn [length number] in *.
  pose proof (number_bits_range l Hl) as Hr. destruct (odd_pow x b Hb) as [Op Om]. pose proof (pow_cases b Hb) as Hc. cbv zeta in Hc.
  pose proof (pow_S (i + b)) as P1. pose proof (pow_S b) as P2. replace (S (i + b)) with (i + S b)%nat in P1 by lia.
  set (d := 2 ^ Z.of_nat b) in *. destruct Hx as [Ho Hx]. unfold bit in Hy.
  assert (forall x0 l0 r, window n (S b) x0 l0 = r -> Forall bit l0 -> length l0 = length l -> odd_digit x0 -> window_ok i (S b) x0 (number 2 l0) ->
    x + d * (y + 2 * number 2 l) = x0 + 2 * d * number 2 l0 ->
    let '(x', t) := (let '(x', t) := r in (x', 0 :: t)) in
    Forall bit t /\ length t = S (length l) /\ odd_digit x' /\
    x + d * (y + 2 * number 2 l) = x' + d * number 2 t /\ 2 ^ Z.of_nat (i + b) * number 2 t <= 2 ^ 253) as Step.
  { intros x0 l0 r Er Fl Ll Ox Wx Ev. specialize (IH (S b) x0 l0 Fl ltac:(lia) ltac:(lia) Ox Wx). rewrite Er in IH. destruct r as [x' t].
    destruct IH as (Ft & Lt & Ox' & E & B). cbn [length number]. split; [constructor; [by left|done]|]. split; [by f_equal; congruence|].
    split; [done|]. rewrite P1 in B. rewrite P2 in E. split; lia. }
  destruct (Z.eqb_spec y 0) as [->|Hy0].
  { eapply Step; [done|done|done|done| |lia]. unfold window_ok in *. rewrite P1, P2. destruct Hw as [[Hw1 Hw2]|[Hw1 [Hw2 Hw3]]]; [left|right]; lia. }
  assert (y = 1) as -> by lia. destruct (Z.leb_spec (x + d) 15).
  { destruct Hw as [[Hw1 Hw2]|[Hw1 [Hw2 Hw3]]]; [|lia]. eapply Step; [done|done|done|split; [congruence|lia]| |lia].
    unfold window_ok. rewrite P1, P2. left. split; [lia|]. assert (0 < 2 ^ Z.of_nat (i + b)) by (apply Z.pow_pos_nonneg; lia). lia. }
  destruct (Z.geb_spec (x - d) (-15)).
  { destruct Hw as [[Hw1 Hw2]|[Hw1 [Hw2 Hw3]]]; [|lia]. assert (b = 4%nat /\ d = 16) as [-> Hd] by lia.
    destruct (carry_room (i + 4) (S (length l)) (number 2 l) ltac:(lia) Hw2 ltac:(lia)) as [R1 R2].
    replace (Z.of_nat (S (length l)) - 1) with (Z.of_nat (length l)) in R2 by lia.
    destruct (increment_spec l Hl R2) as (E & L & F).
    eapply Step; [done|done|done|split; [congruence|lia]| |rewrite E; lia].
    unfold window_ok. rewrite P1, E. right. split; [lia|]. split; [lia|]. lia. }
  split; [constructor; [by right|done]|]. do 3 (split; [done|]). unfold window_ok in Hw. cbn [number]. lia.
Qed.

(* ------------------------------------------------------------------ *)
(** ** The digits *)

Definition slide_digit (x : Z) : Prop := x = 0 \/ odd_digit x.

(** After position [i]: digits below, bits from there on. *)
Definition slid (A : Z) (i : nat) (r : list Z) : Prop := exists pre l,
  r = pre ++ l /\ length pre = i /\ (i + length l = 256)%nat /\ Forall slide_digit pre /\ Forall bit l /\
  number 2 pre + 2 ^ Z.of_nat i * number 2 l = A /\ 2 ^ Z.of_nat i * number 2 l <= 2 ^ 253.

Lemma slid_step A i r : (i < 256)%nat -> slid A i r -> slid A (S i) (if at_ r i =? 0 then r else slide_window 6 1 i r).
Proof.
  intros Hi (pre & l & -> & Hp & Hl & Hd & Hb & Ev & Hle). destruct l as [|y l]; [simpl in Hl; lia|]. cbn [length number] in *.
  assert (at_ (pre ++ y :: l) i = y) as -> by (rewrite <- Hp; apply at_middle). apply Forall_cons in Hb as [Hy Hb].
  pose proof (pow_S i) as P. unfold bit in Hy.
  assert (forall x t, slide_digit x -> Forall bit t -> length t = length l -> y + 2 * number 2 l = x + 2 * number 2 t ->
    2 ^ Z.of_nat (S i) * number 2 t <= 2 ^ 253 -> slid A (S i) (pre ++ x :: t)) as H.
  { intros x t Hx Ht Lt Et Bt. exists (pre ++ [x]), t. rewrite <- app_assoc, length_app, Lt, Hp. cbn [app length].
    split; [done|]. split; [lia|]. split; [lia|]. split; [apply Forall_app; split; [done|by constructor]|]. split; [done|]. split; [|done].
    rewrite number_app, Hp, P by done. rewrite <- Ev. lia. }
  destruct (Z.eqb_spec y 0) as [->|Hy0]; [apply H; [by left|done|done|lia|lia]|]. assert (y = 1) as -> by lia.
  pose proof (number_bits_range l Hb). assert (0 < 2 ^ Z.of_nat i) by (apply Z.pow_pos_nonneg; lia).
  pose proof (slide_window_pure 6 1 1 l pre ltac:(done) Hb ltac:(lia) ltac:(lia)) as E. cbn [Nat.sub repeat app] in E. rewrite Hp in E. rewrite E. clear E.
  pose proof (window_spec 6 i 1 1 l Hb ltac:(done) ltac:(lia) ltac:(split; [done|lia])) as W. rewrite Nat.add_1_r in W.
  destruct (window 6 1 1 l) as [x t]. destruct W as (Wb & Wl & Wx & We & Wle).
  { left. split; [lia|]. rewrite Nat.add_1_r, P. lia. }
  apply H; [by right|done|done|exact We|done].
Qed.

Theorem slide_spec a : length a = 32%nat -> le_val a <= 2 ^ 253 ->
  number 2 (slide a) = le_val a /\ length (slide a) = 256%nat /\ Forall slide_digit (slide a).
Proof.
  intros Ha Hv. destruct (bits_spec a Ha) as (Eb & Lb & Fb). unfold slide. set (f := fun r i => _).
  assert (forall n, (n <= 256)%nat -> slid (le_val a) n (foldl f (bits a) (seq 0 n))) as H.
  { induction n as [|n IH]; intros Hn.
    - exists [], (bits a). cbn [number seq foldl length app]. rewrite Lb, Eb. change (2 ^ Z.of_nat 0) with 1. split_and!; try done; lia.
    - rewrite seq_S, foldl_app. cbn [foldl]. apply slid_step; [lia|]. apply IH. lia. }
  destruct (H 256%nat ltac:(done)) as (pre & l & E & Lp & Ll & Fp & _ & Ev & _). rewrite E.
  assert (l = []) as -> by (destruct l; [done|simpl in Ll; lia]). rewrite app_nil_r. cbn [number] in Ev. split; [lia|]. done.
Qed.

(* ------------------------------------------------------------------ *)
(** ** Two scalars at once *)

Lemma odd_multiples_is A (P : pt) : p3_is A P ->
  forall j, (j < 8)%nat -> cached_is (nth j (odd_multiples A) cached_0) (pmul (2 * Z.of_nat j + 1) P).
Proof.
  intros HA. unfold odd_multiples. cbv zeta.
  assert (forall m x, cached_is x (pmul m P) ->
    cached_is (ge_p3_to_cached (ge_p1p1_to_p3 (ge_add (ge_p1p1_to_p3 (ge_p3_dbl A)) x))) (pmul (m + 2) P)) as Hn.
  { intros m x Hx. rewrite Z.add_comm, pmul_add. replace 2 with (2 * 1) by lia. rewrite <- double_pmul, pmul_1. ge_forms. }
  assert (cached_is (ge_p3_to_cached A) (pmul 1 P)) as H1 by (rewrite pmul_1; ge_forms).
  pose proof (Hn _ _ H1) as H3. pose proof (Hn _ _ H3) as H5. pose proof (Hn _ _ H5) as H7. pose proof (Hn _ _ H7) as H9.
  pose proof (Hn _ _ H9) as H11. pose proof (Hn _ _ H11) as H13. pose proof (Hn _ _ H13) as H15.
  intros j Hj. do 8 (destruct j as [|j]; [cbn [nth]; assumption|]). lia.
Qed.

(** The entry of an odd digit. *)
Lemma digit_index x : odd_digit x -> 0 < x -> (Z.to_nat (Z.quot x 2) < 8)%nat /\ 2 * Z.of_nat (Z.to_nat (Z.quot x 2)) + 1 = x.
Proof.
  intros [Ho Hx] Hp. apply Z.odd_spec in Ho as [k ->]. rewrite Z.quot_div_nonneg by lia.
  replace ((2 * k + 1) / 2) with k by (apply Z.div_unique with 1; lia). lia.
Qed.

Lemma odd_digit_opp x : odd_digit x -> odd_digit (- x).
Proof. intros [Ho Hx]. split; [by rewrite Z.odd_opp|lia]. Qed.

Lemma double_step_is Ai r R (P : pt) da db :
  (forall j, (j < 8)%nat -> cached_is (nth j Ai cached_0) (pmul (2 * Z.of_nat j + 1) P)) ->
  slide_digit da -> slide_digit db -> p2_is r R ->
  p2_is (double_step Ai r da db) (padd (padd (padd R R) (pmul da P)) (pmul db B)).
Proof.
  intros HA Hda Hdb Hr. unfold double_step. cbv zeta. apply ge_p1p1_to_p2_is.
  set (t := if da >? 0 then _ else _).
  assert (p1p1_is t (padd (padd R R) (pmul da P))) as Ht.
  { unfold t. clear t. destruct (Z.gtb_spec da 0) as [Hp|Hn].
    - destruct Hda as [->|Ho]; [lia|]. destruct (digit_index da Ho Hp) as [Hi E]. rewrite <- E at 2. pose proof (HA _ Hi). ge_forms.
    - destruct (Z.ltb_spec da 0) as [Hneg|].
      + destruct Hda as [->|Ho]; [lia|]. destruct (digit_index (- da) (odd_digit_opp _ Ho) ltac:(lia)) as [Hi E].
        pose proof (HA _ Hi) as H. rewrite E in H. rewrite <- (Z.opp_involutive da) at 2. rewrite pmul_opp. ge_forms.
      + assert (da = 0) as -> by lia. rewrite pmul_0, padd_zero_r. ge_forms. }
  clearbody t. destruct (Z.gtb_spec db 0) as [Hp|Hn].
  - destruct Hdb as [->|Ho]; [lia|]. destruct (digit_index db Ho Hp) as [Hi E]. rewrite <- E at 2. pose proof (Bi_is _ Hi). ge_forms.
  - destruct (Z.ltb_spec db 0) as [Hneg|].
    + destruct Hdb as [->|Ho]; [lia|]. destruct (digit_index (- db) (odd_digit_opp _ Ho) ltac:(lia)) as [Hi E].
      pose proof (Bi_is _ Hi) as H. rewrite E in H. rewrite <- (Z.opp_involutive db) at 2. rewrite pmul_opp. ge_forms.
    + assert (db = 0) as -> by lia. by rewrite pmul_0, padd_zero_r.
Qed.

Lemma top_digit_spec n a b : let k := top_digit n a b in
  (k <= n)%nat /\ forall i, (k <= i < n)%nat -> at_ a i = 0 /\ at_ b i = 0.
Proof.
  induction n as [|n [IH1 IH2]]; cbn [top_digit]; [split; [done|lia]|].
  destruct (Z.eqb_spec (at_ a n) 0), (Z.eqb_spec (at_ b n) 0); cbn [negb orb]; try (split; [done|lia]).
  split; [lia|]. intros i Hi. destruct (decide (i = n)) as [->|]; [done|]. apply IH2. lia.
Qed.

Lemma number_drop_zero b l k n : length l = (k + n)%nat -> (forall i, (k <= i < k + n)%nat -> at_ l i = 0) -> number b (drop k l) = 0.
Proof.
  revert k. induction n as [|n IH]; intros k Hl Hz; [by rewrite drop_ge by lia|].
  rewrite number_drop by lia. rewrite Hz, (IH (S k)) by (lia || intros i Hi; apply Hz; lia). lia.
Qed.

Lemma slide_digits_at l i : Forall slide_digit l -> slide_digit (at_ l i).
Proof.
  intros Hl. unfold at_. rewrite nth_lookup. destruct (l !! i) as [x|] eqn:E; [|by left]. rewrite Forall_lookup in Hl. exact (Hl i x E).
Qed.

(** [r = a * A + b * B] *)
Theorem ge_double_scalarmult_vartime_is a A b (P : pt) : length a = 32%nat -> le_val a <= 2 ^ 253 ->
  length b = 32%nat -> le_val b <= 2 ^ 253 -> p3_is A P ->
  p2_is (ge_double_scalarmult_vartime a A b) (padd (pmul (le_val a) P) (pmul (le_val b) B)).
Proof.
  intros La Va Lb Vb HA. destruct (slide_spec a La Va) as (Ea & Na & Da). destruct (slide_spec b Lb Vb) as (Eb & Nb & Db).
  unfold ge_double_scalarmult_vartime. cbv zeta. set (u := slide a) in *. set (v := slide b) in *.
  pose proof (odd_multiples_is A P HA) as HAi. set (Ai := odd_multiples A) in *.
  destruct (top_digit_spec 256 u v) as [Hk Hz]. set (k := top_digit 256 u v) in *. set (f := fun r i => _).
  assert (forall n, (n <= k)%nat -> p2_is (foldl f ge_p2_0 (rev (seq (k - n) n)))
    (padd (pmul (number 2 (drop (k - n) u)) P) (pmul (number 2 (drop (k - n) v)) B))) as H.
  { induction n as [|n IH]; intros Hn.
    - cbn [seq rev foldl]. rewrite Nat.sub_0_r, !(number_drop_zero 2 _ k (256 - k)) by (lia || intros i Hi; apply Hz; lia).
      rewrite !pmul_0, padd_zero_l. apply ge_p2_0_is.
    - replace (k - n)%nat with (S (k - S n)) in IH by lia. rewrite rev_seq_S, foldl_app. cbn [foldl]. specialize (IH ltac:(lia)).
      pose proof (double_step_is Ai _ _ P (at_ u (k - S n)) (at_ v (k - S n)) HAi (slide_digits_at _ _ Da) (slide_digits_at _ _ Db) IH) as H.
      rewrite (number_drop 2 u), (number_drop 2 v) by lia. rewrite !(Z.add_comm (at_ _ _)), !pmul_add, <- !double_pmul.
      unfold f at 1. set (m := pmul (number 2 (drop (S (k - S n)) u)) P) in *. set (q := pmul (number 2 (drop (S (k - S n)) v)) B) in *.
      set (x := pmul (at_ u (k - S n)) P) in *. set (y := pmul (at_ v (k - S n)) B) in *.
      assert (padd (padd (padd (padd m q) (padd m q)) x) y = padd (padd (padd m m) x) (padd (padd q q) y)) as <-; [|exact H].
      rewrite !padd_assoc. f_equal. rewrite (padd_swap q m). f_equal. by rewrite !(padd_swap x q). }
  specialize (H k ltac:(done)). rewrite Nat.sub_diag, !drop_0, Ea, Eb in H. exact H.
Qed.
