(* ===== verification/EncodeFacts.v ===== *)
(** Powers in the field of [2 ^ 255 - 19] elements, the square root of a fraction that the
    exponent [2 ^ 252 - 3] of fe_pow22523 gives, up to a square root of -1, and points as 32
    bytes: [ge_tobytes] writes [y] with the sign of [x] in the top bit, and
    [ge_frombytes_negate_vartime] recovers the opposite of the point, or fails when no point
    has that [y].  Then the Montgomery coordinate [u = (1 + y) / (1 - y)] of a point, as
    ge_p3_to_montx and fe_montx_to_edy compute it; 0 stands for the point at infinity. *)

From Stdlib Require Import Field.
From S2P Require Import Prelude Buffers Crypto Limbs Scalar Donna DonnaField DonnaLadder DonnaBytes Fe FeField FeBytes Ge Primes Edwards Field25519 GeFacts.

Add Field field_powers : (field_laws (F := F25519)).
#[local] Open Scope F_scope.

Definition fpow (x : F25519) (e : Z) : F25519 := inj (res x ^ e).

Lemma inj_pow z e : (0 <= e)%Z -> inj (z ^ e) = fpow (inj z) e.
Proof. intros He. apply inj_eq. apply (eqm_pow p25519); [done|]. apply inj_eq. by rewrite inj_res. Qed.

Lemma fpow_0_r x : fpow x 0 = 1.
Proof. apply inj_1. Qed.
Lemma fpow_1_r x : fpow x 1 = x.
Proof. unfold fpow. by rewrite Z.pow_1_r, inj_res. Qed.
Lemma fpow_2_r x : fpow x 2 = x * x.
Proof. unfold fpow. by rewrite Z.pow_2_r, inj_mul, inj_res. Qed.
Lemma fpow_add x a b : (0 <= a)%Z -> (0 <= b)%Z -> fpow x (a + b) = fpow x a * fpow x b.
Proof. intros Ha Hb. unfold fpow. by rewrite Z.pow_add_r, inj_mul. Qed.
Lemma fpow_mul_l x y e : (0 <= e)%Z -> fpow (x * y) e = fpow x e * fpow y e.
Proof.
  intros He. unfold fpow at 2 3. rewrite <- inj_mul, <- Z.pow_mul_l, inj_pow, inj_mul, !inj_res by done. done.
Qed.
Lemma fpow_pow x a b : (0 <= a)%Z -> (0 <= b)%Z -> fpow (fpow x a) b = fpow x (a * b).
Proof. intros Ha Hb. unfold fpow at 2 3. by rewrite Z.pow_mul_r, (inj_pow (res x ^ a)) by done. Qed.
Lemma fpow_0_l e : (0 < e)%Z -> fpow 0 e = 0.
Proof. intros He. unfold fpow. change (res 0) with 0%Z. by rewrite Z.pow_0_l, inj_0. Qed.
Lemma fpow_fermat x : x <> 0 -> fpow x (p25519 - 1) = 1.
Proof. intros Hx. apply fermat_inj. by rewrite inj_res. Qed.
Lemma fpow_half x : x <> 0 -> fpow x ((p25519 - 1) / 2) = 1 \/ fpow x ((p25519 - 1) / 2) = - (1).
Proof.
  intros Hx. apply f_square_eq. rewrite <- fpow_2_r, fpow_pow by done.
  change ((p25519 - 1) / 2 * 2)%Z with (p25519 - 1)%Z. rewrite fpow_fermat by done. ring.
Qed.

(** fe_pow22523.c raises to the power [(p - 5) / 8]. *)
Lemma fe_pow22523_is k x f : (k <= 330)%Z -> fe_is k x f -> fe_is 101 (fe_pow22523 x) (fpow f (2 ^ 252 - 3)).
Proof.
  intros Hk Hx%fe_is_repr. eapply repr_fe_is; [apply fe_pow22523_repr; by eapply fe_repr_weaken|done].
Qed.

(** The candidate for a square root of [u / v]. *)
Definition root_candidate (u v : F25519) : F25519 := fpow (v * v * v * (v * v * v) * v * u) (2 ^ 252 - 3) * (v * v * v) * u.

Lemma root_candidate_square u v :
  v * (root_candidate u v * root_candidate u v) = u * fpow (v * v * v * (v * v * v) * v * u) ((p25519 - 1) / 4).
Proof.
  unfold root_candidate. set (t := v * v * v * (v * v * v) * v * u). change ((p25519 - 1) / 4)%Z with (1 + (2 ^ 252 - 3 + (2 ^ 252 - 3)))%Z.
  rewrite !fpow_add, fpow_1_r by done. set (w := fpow t (2 ^ 252 - 3)). unfold t. ring.
Qed.

Lemma root_candidate_ok u v x : v <> 0 -> u = v * (x * x) ->
  v * (root_candidate u v * root_candidate u v) = u \/ v * (root_candidate u v * root_candidate u v) = - u.
Proof.
  intros Hv ->. rewrite root_candidate_square. destruct (decide (x = 0)) as [->|Hx]; [left; ring|].
  replace (v * v * v * (v * v * v) * v * (v * (x * x))) with (v * v * (v * v) * x * (v * v * (v * v) * x)) by ring.
  rewrite <- (fpow_2_r (v * v * (v * v) * x)), fpow_pow by done. change (2 * ((p25519 - 1) / 4))%Z with ((p25519 - 1) / 2)%Z.
  destruct (fpow_half (v * v * (v * v) * x)) as [-> | ->]; [by repeat apply f_mul_nonzero|left; ring|right; ring].
Qed.

(** Parities of opposite elements differ. *)
Lemma res_opp f : f <> 0 -> res (- f) = (p25519 - res f)%Z.
Proof.
  intros Hf. rewrite <- (inj_res f) at 1. rewrite <- inj_opp, res_inj. pose proof (res_range f).
  assert (res f <> 0)%Z by (intros E; apply Hf; rewrite <- (inj_res f), E; apply inj_0).
  symmetry. apply Z.mod_unique with (-1)%Z; lia.
Qed.
Lemma odd_opp f : f <> 0 -> odd (- f) = negb (odd f).
Proof. intros Hf. unfold odd. rewrite res_opp, Z.odd_sub by done. change (Z.odd p25519) with true. by destruct (Z.odd (res f)). Qed.
Lemma odd_0 : odd 0 = false.
Proof. done. Qed.

(** Evaluating a power would iterate over its exponent. *)
#[global] Opaque fpow.

Add Field field_encode : (field_laws (F := F25519)).
#[local] Open Scope F_scope.

(* ------------------------------------------------------------------ *)
(** ** Writing *)

Definition encode (P : pt) : bytes := le_bytes 32 (res (py P) + 2 ^ 255 * Z.b2z (odd (px P))).

Lemma p_below : (p25519 < 2 ^ 255)%Z.
Proof. done. Qed.

Lemma le_bytes_31 z : le_bytes 32 z = le_bytes 31 z ++ [u8 (z / 2 ^ 248)].
Proof.
  assert (forall n z, le_bytes (S n) z = le_bytes n z ++ [u8 (z / 256 ^ Z.of_nat n)%Z]) as H.
  { clear z. induction n as [|n IH]; intros z; [cbn; by rewrite Z.div_1_r|]. cbn [le_bytes app]. f_equal.
    change (u8 (z / 256) :: le_bytes n (z / 256 / 256)) with (le_bytes (S n) (z / 256)). rewrite IH. do 3 f_equal.
    rewrite Z.div_div, Nat2Z.inj_succ, Z.pow_succ_r by lia. done. }
  exact (H 31%nat z).
Qed.

Lemma byte_31 z : (0 <= z < 2 ^ 256)%Z -> byte_at (le_bytes 32 z) 31 = (z / 2 ^ 248)%Z.
Proof.
  intros Hz. rewrite le_bytes_31. pose proof (nth_middle (le_bytes 31 z) [] (u8 (z / 2 ^ 248)) x00) as E. rewrite length_le_bytes in E.
  unfold byte_at. rewrite E, byte_val_u8. apply Z.mod_small. split; [apply Z.div_pos; lia|]. apply Z.div_lt_upper_bound; lia.
Qed.

Lemma insert_31 z b : <[31%nat := b]> (le_bytes 32 z) = le_bytes 31 z ++ [b].
Proof. rewrite le_bytes_31. pose proof (insert_app_r (le_bytes 31 z) [u8 (z / 2 ^ 248)] 0 b) as E. by rewrite length_le_bytes in E. Qed.

(** A number below [2 ^ 255] with bit 255 set to [b]. *)
Lemma top_byte y (b : bool) : (0 <= y < 2 ^ 255)%Z ->
  le_bytes 31 y ++ [u8 (y / 2 ^ 248 + 128 * Z.b2z b)%Z] = le_bytes 32 (y + 2 ^ 255 * Z.b2z b).
Proof.
  intros Hy. rewrite le_bytes_31. f_equal.
  - apply le_bytes_mod. change (256 ^ Z.of_nat 31)%Z with (2 ^ 248)%Z.
    replace (y + 2 ^ 255 * Z.b2z b)%Z with (y + (128 * Z.b2z b) * 2 ^ 248)%Z by (change (2 ^ 255)%Z with (128 * 2 ^ 248)%Z; ring).
    by rewrite Z_mod_plus_full.
  - do 2 f_equal. replace (y + 2 ^ 255 * Z.b2z b)%Z with (y + (128 * Z.b2z b) * 2 ^ 248)%Z by (change (2 ^ 255)%Z with (128 * 2 ^ 248)%Z; ring).
    by rewrite Z.div_add by done.
Qed.

Lemma set_sign_spec y (b : bool) : (0 <= y < 2 ^ 255)%Z ->
  set_sign (le_bytes 32 y) (Z.b2z b) = le_bytes 32 (y + 2 ^ 255 * Z.b2z b).
Proof.
  intros Hy. unfold set_sign. rewrite byte_31, insert_31 by lia. rewrite <- top_byte by done. do 3 f_equal.
  assert (0 <= y / 2 ^ 248 < 128)%Z as Ht by (split; [apply Z.div_pos; lia|apply Z.div_lt_upper_bound; lia]).
  set (t := (y / 2 ^ 248)%Z) in *. destruct b; cbn [Z.b2z]; [|by rewrite Z.lxor_0_r, Z.add_0_r].
  change (Z.shiftl 1 7) with 128%Z. rewrite Z.mul_1_r. symmetry. apply Z.add_nocarry_lxor.
  apply Z.bits_inj'. intros j Hj. rewrite Z.land_spec, Z.bits_0. destruct (decide (j = 7)%Z) as [->|].
  - by rewrite (testbit_above t 7) by (lia || done).
  - change 128%Z with (2 ^ 7)%Z. rewrite Z.pow2_bits_false by lia. apply andb_false_r.
Qed.

Lemma tobytes_encode x y P : fe_is 101 x (px P) -> fe_is 101 y (py P) -> set_sign (fe_tobytes y) (fe_isnegative x) = encode P.
Proof.
  intros Hx Hy. rewrite (fe_tobytes_is 101 y _ ltac:(done) Hy), (fe_isnegative_is 101 x _ ltac:(done) Hx).
  apply set_sign_spec. pose proof (res_range (py P)). pose proof p_below. lia.
Qed.

Lemma ge_tobytes_is h P : p2_is h P -> ge_tobytes h = encode P.
Proof.
  intros (X&Y&Z&HX&HY&HZ&H). destruct (projective_affine P X Y Z H) as [Ex Ey]. unfold ge_tobytes. cbv zeta.
  pose proof (fe_invert_is 101 _ _ ltac:(done) HZ) as Hi. apply tobytes_encode.
  - rewrite <- Ex. by apply (fe_mul_is 101 101).
  - rewrite <- Ey. by apply (fe_mul_is 101 101).
Qed.

Lemma ge_p3_tobytes_is h P : p3_is h P -> ge_p3_tobytes h = encode P.
Proof. intros H%ge_p3_to_p2_is%ge_tobytes_is. done. Qed.

Lemma encode_length P : length (encode P) = 32%nat.
Proof. apply length_le_bytes. Qed.

Lemma encode_le_val P : le_val (encode P) = (res (py P) + 2 ^ 255 * Z.b2z (odd (px P)))%Z.
Proof.
  unfold encode. rewrite le_val_le_bytes. apply Z.mod_small. pose proof (res_range (py P)). pose proof p_below.
  change (256 ^ Z.of_nat 32)%Z with (2 ^ 256)%Z. destruct (odd (px P)); cbn [Z.b2z]; lia.
Qed.

(* ------------------------------------------------------------------ *)
(** ** Reading *)

Definition coordinate (s : bytes) : F25519 := inj (le_val s mod 2 ^ 255).
Definition sign (s : bytes) : bool := Z.testbit (byte_at s 31) 7.

Definition numerator (y : F25519) : F25519 := y * y - 1.
Definition denominator (y : F25519) : F25519 := y * y * cd + 1.

Lemma denominator_nonzero y : denominator y <> 0.
Proof.
  unfold denominator. intros E. pose proof (root_a_square (F := F25519)) as Hr. rewrite minus_one in Hr.
  assert (y * y * cd = root_a * root_a) as Ey by (rewrite Hr; replace (y * y * cd) with (y * y * cd + 1 - 1) by ring; rewrite E; ring).
  destruct (decide (y = 0)) as [->|Hy].
  - apply (one_nonzero (F := F25519)). rewrite <- E. ring.
  - apply (nonsquare_d (root_a / y)). replace cd with (y * y * cd / (y * y)) by (field; done). rewrite Ey. field. done.
Qed.

(** The points over a [y] are the square roots of the fraction. *)
Lemma on_curve_fraction x y : on_curve (x, y) <-> denominator y * (x * x) = numerator y.
Proof.
  unfold on_curve, denominator, numerator. rewrite minus_one. split; intros E.
  - replace (y * y - 1) with (- (1) * (x * x) + y * y - 1 + x * x) by ring. rewrite E. ring.
  - replace (- (1) * (x * x) + y * y) with (y * y - 1 + 1 - x * x) by ring. rewrite <- E. ring.
Qed.

(** The root that the code keeps. *)
Definition decoded_root (y : F25519) : option F25519 :=
  let u := numerator y in let v := denominator y in let w := root_candidate u v in
  if decide (v * (w * w) = u) then Some w else if decide (v * (w * w) = - u) then Some (w * root_a) else None.

Lemma decoded_root_some y x : decoded_root y = Some x -> on_curve (x, y).
Proof.
  unfold decoded_root. cbv zeta. rewrite on_curve_fraction. pose proof (root_a_square (F := F25519)) as Hr. rewrite minus_one in Hr.
  set (w := root_candidate _ _). case_decide as E; [by intros [= <-]|]. case_decide as E'; [|done].
  intros Hx. assert (x = w * root_a) as -> by congruence.
  replace (denominator y * (w * root_a * (w * root_a))) with (denominator y * (w * w) * (root_a * root_a)) by ring.
  rewrite E', Hr. ring.
Qed.

Lemma decoded_root_none y x : decoded_root y = None -> ~ on_curve (x, y).
Proof.
  unfold decoded_root. cbv zeta. rewrite on_curve_fraction. intros H E. symmetry in E.
  destruct (root_candidate_ok _ _ _ (denominator_nonzero y) E) as [E'|E']; rewrite E' in H; repeat case_decide; congruence.
Qed.

Lemma shiftr_7 b : (0 <= b < 256)%Z -> Z.shiftr b 7 = Z.b2z (Z.testbit b 7).
Proof.
  intros Hb. rewrite Z.testbit_spec', Z.shiftr_div_pow2 by done. symmetry. apply Z.mod_small.
  split; [apply Z.div_pos; lia|apply Z.div_lt_upper_bound; lia].
Qed.

Lemma b2z_eqb (a b : bool) : (Z.b2z a =? Z.b2z b)%Z = Bool.eqb a b.
Proof. by destruct a, b. Qed.

(** The opposite of the root with the sign of [s]. *)
Definition signed_root (s : bytes) (x : F25519) : F25519 := if Bool.eqb (odd x) (sign s) then - x else x.

Lemma frombytes_steps s : ge_frombytes_negate_vartime s = None /\ decoded_root (coordinate s) = None \/
  exists x A, ge_frombytes_negate_vartime s = Some A /\ decoded_root (coordinate s) = Some x /\
    fe_is 101 (p3_X A) (signed_root s x) /\ fe_is 101 (p3_Y A) (coordinate s) /\ fe_is 101 (p3_Z A) 1 /\
    fe_is 101 (p3_T A) (signed_root s x * coordinate s).
Proof.
  unfold ge_frombytes_negate_vartime. cbv zeta.
  pose proof (fe_frombytes_is s) as Hy. fold (coordinate s) in Hy. set (hY := fe_frombytes s) in *.
  pose proof (fe_sub_is 101 1 _ _ _ _ ltac:(done) ltac:(done) (fe_sq_is 101 _ _ ltac:(done) Hy) fe_1_is) as Hu.
  pose proof (fe_add_is 101 1 _ _ _ _ ltac:(done) ltac:(done) (fe_mul_is 101 101 _ _ _ _ ltac:(done) ltac:(done) (fe_sq_is 101 _ _ ltac:(done) Hy) fe_d_is) fe_1_is) as Hv.
  fold (numerator (coordinate s)) in Hu. fold (denominator (coordinate s)) in Hv. change (101 + 1)%Z with 102%Z in *.
  set (u := fe_sub _ _) in *. set (v := fe_add _ _) in *.
  set (U := numerator (coordinate s)) in *. set (V := denominator (coordinate s)) in *.
  pose proof (fe_mul_is 101 102 _ _ _ _ ltac:(done) ltac:(done) (fe_sq_is 102 _ _ ltac:(done) Hv) Hv) as H3. set (v3 := fe_mul (fe_sq v) v) in *.
  pose proof (fe_mul_is 101 102 _ _ _ _ ltac:(done) ltac:(done) (fe_mul_is 101 102 _ _ _ _ ltac:(done) ltac:(done) (fe_sq_is 101 _ _ ltac:(done) H3) Hv) Hu) as H7.
  pose proof (fe_mul_is 101 102 _ _ _ _ ltac:(done) ltac:(done) (fe_mul_is 101 101 _ _ _ _ ltac:(done) ltac:(done) (fe_pow22523_is 101 _ _ ltac:(done) H7) H3) Hu) as Hw.
  set (w := fe_mul (fe_mul (fe_pow22523 _) v3) u) in *. fold (root_candidate U V) in Hw.
  pose proof (fe_mul_is 101 102 _ _ _ _ ltac:(done) ltac:(done) (fe_sq_is 101 _ _ ltac:(done) Hw) Hv) as Hx.
  set (vxx := fe_mul (fe_sq w) v) in *. unfold decoded_root. fold U V. set (W := root_candidate U V) in *.
  rewrite (fe_isnonzero_is 203 _ _ ltac:(done) (fe_sub_is 101 102 _ _ _ _ ltac:(done) ltac:(done) Hx Hu)).
  rewrite (fe_isnonzero_is 203 _ _ ltac:(done) (fe_add_is 101 102 _ _ _ _ ltac:(done) ltac:(done) Hx Hu)).
  assert (forall x X, fe_is 101 x X -> exists A, Some (P3 (if fe_isnegative x =? Z.shiftr (byte_at s 31) 7 then fe_neg x else x)%Z hY fe_1
      (fe_mul (if fe_isnegative x =? Z.shiftr (byte_at s 31) 7 then fe_neg x else x)%Z hY)) = Some A /\
    fe_is 101 (p3_X A) (signed_root s X) /\ fe_is 101 (p3_Y A) (coordinate s) /\ fe_is 101 (p3_Z A) 1 /\
    fe_is 101 (p3_T A) (signed_root s X * coordinate s)) as Hfin.
  { intros x X HX. eexists. split; [done|]. cbn [p3_X p3_Y p3_Z p3_T].
    rewrite (fe_isnegative_is 101 x X ltac:(done) HX), shiftr_7, b2z_eqb by apply byte_at_range. fold (sign s). unfold signed_root.
    assert (fe_is 101 (if Bool.eqb (odd X) (sign s) then fe_neg x else x) (if Bool.eqb (odd X) (sign s) then - X else X)) as Hs.
    { destruct (Bool.eqb _ _); [by apply fe_neg_is|done]. }
    split; [exact Hs|]. split; [exact Hy|]. split; [apply fe_1_is'|]. by apply (fe_mul_is 101 101). }
  destruct (decide (W * W * V - U = 0)) as [E|E].
  { right. rewrite Z.eqb_refl. cbn [mbind option_bind]. destruct (Hfin _ _ Hw) as (A & EA & HA). exists W, A. split; [exact EA|]. split; [|exact HA].
    apply decide_True. apply f_sub_eq_0 in E. rewrite <- E. ring. }
  cbn [Z.eqb]. rewrite (decide_False (P := V * (W * W) = U)) by (intros E'; apply E; rewrite <- E'; ring).
  destruct (decide (W * W * V + U = 0)) as [E1|E1].
  { right. rewrite Z.eqb_refl. cbn [mbind option_bind].
    destruct (Hfin _ _ (fe_mul_is 101 101 _ _ _ _ ltac:(done) ltac:(done) Hw fe_sqrtm1_is)) as (A & EA & HA).
    exists (W * root_a), A. split; [exact EA|]. split; [|exact HA].
    apply decide_True. replace (V * (W * W)) with (W * W * V + U - U) by ring. rewrite E1. ring. }
  left. split; [done|]. apply decide_False. intros E'. apply E1. replace (W * W * V) with (V * (W * W)) by ring. rewrite E'. ring.
Qed.

Lemma px_neg (P : pt) : px (pneg P) = - px P.
Proof. unfold px. cbn. by destruct (`P). Qed.
Lemma py_neg (P : pt) : py (pneg P) = py P.
Proof. unfold py. cbn. by destruct (`P). Qed.

Lemma point_on_curve (P : pt) : on_curve (px P, py P).
Proof. unfold px, py. rewrite <- surjective_pairing. apply (proj2_dsig P). Qed.

Lemma affine_extended (P : pt) : extended_form P (px P) (py P) 1 (px P * py P).
Proof. split; [apply one_nonzero|]. split_and!; ring. Qed.

(** A point is its [y] and the sign of its [x]. *)
Lemma same_y (P Q : pt) : py P = py Q -> px P = px Q \/ px P = - px Q.
Proof.
  intros Ey. pose proof (point_on_curve P) as HP. pose proof (point_on_curve Q) as HQ. rewrite on_curve_fraction in HP, HQ. rewrite Ey in HP.
  apply f_square_eq. apply (f_mul_cancel (denominator (py Q))); [apply denominator_nonzero|]. by rewrite HP, HQ.
Qed.
Lemma sign_determines (P Q : pt) : py P = py Q -> px P = 0 \/ odd (px P) = odd (px Q) -> P = Q.
Proof.
  intros Ey Hs. apply point_eq; [|done]. destruct (same_y P Q Ey) as [E|E]; [done|].
  assert (px Q = - px P) as E' by (rewrite E; ring). destruct Hs as [H0|Hs]; [rewrite E', H0; ring|].
  destruct (decide (px Q = 0)) as [H0|H0]; [rewrite E, H0; ring|]. rewrite E, odd_opp in Hs by done. by destruct (odd (px Q)).
Qed.

Lemma point_exists x y : on_curve (x, y) -> exists Q : pt, px Q = x /\ py Q = y.
Proof. intros H. exists (dexist (x, y) H). split; reflexivity. Qed.

Lemma opp_opp (x : F25519) : - - x = x.
Proof. ring. Qed.

Lemma frombytes_some s A : ge_frombytes_negate_vartime s = Some A -> exists Q : pt,
  p3_is A (pneg Q) /\ py Q = coordinate s /\ (px Q = 0 \/ odd (px Q) = sign s).
Proof.
  intros EA. destruct (frombytes_steps s) as [[? _]|(x & A' & EA' & Er & HX & HY & HZ & HT)]; [congruence|].
  assert (A' = A) as -> by congruence. apply decoded_root_some in Er.
  assert (on_curve (- signed_root s x, coordinate s)) as Hc.
  { rewrite on_curve_fraction in *. unfold signed_root. rewrite <- Er. destruct (Bool.eqb _ _); ring. }
  destruct (point_exists _ _ Hc) as (Q & Ex & Ey). exists Q. split; [|split; [done|]].
  - exists (signed_root s x), (coordinate s), 1, (signed_root s x * coordinate s). split; [exact HX|]. split; [exact HY|]. split; [exact HZ|]. split; [exact HT|].
    pose proof (affine_extended (pneg Q)) as H. by rewrite px_neg, py_neg, Ex, Ey, opp_opp in H.
  - rewrite Ex. unfold signed_root. destruct (decide (x = 0)) as [->|Hx]; [left; destruct (Bool.eqb _ _); ring|right].
    destruct (Bool.eqb _ _) eqn:Es; [rewrite opp_opp; by apply Bool.eqb_prop|].
    rewrite odd_opp by done. apply Bool.eqb_false_iff in Es. clear - Es. destruct (odd x), (sign s); cbn in *; congruence.
Qed.

Lemma frombytes_none s : ge_frombytes_negate_vartime s = None -> forall Q : pt, py Q <> coordinate s.
Proof.
  intros EA Q Ey. destruct (frombytes_steps s) as [[_ En]|(x & A' & EA' & _)]; [|congruence].
  apply (decoded_root_none _ (px Q) En). rewrite <- Ey. apply point_on_curve.
Qed.

Lemma encode_range P : (0 <= res (py P) + 2 ^ 255 * Z.b2z (odd (px P)) < 2 ^ 256)%Z.
Proof. pose proof (res_range (py P)). pose proof p_below. destruct (odd (px P)); cbn [Z.b2z]; lia. Qed.

Lemma coordinate_encode P : coordinate (encode P) = py P.
Proof.
  unfold coordinate. rewrite encode_le_val, Z.mul_comm, Z_mod_plus_full. pose proof (res_range (py P)). pose proof p_below.
  rewrite Z.mod_small by lia. apply inj_res.
Qed.
Lemma sign_encode P : sign (encode P) = odd (px P).
Proof.
  unfold sign, encode. rewrite byte_31 by apply encode_range. rewrite Z.div_pow2_bits by done.
  rewrite Z.mul_comm. pose proof (res_range (py P)). pose proof p_below.
  change (7 + 248)%Z with 255%Z. rewrite Z.testbit_eqb by done. rewrite Z.div_add, Z.div_small by lia. by destruct (odd (px P)).
Qed.

(** Decoding an encoded point gives its opposite. *)
Lemma frombytes_encode P : exists A, ge_frombytes_negate_vartime (encode P) = Some A /\ p3_is A (pneg P).
Proof.
  destruct (ge_frombytes_negate_vartime (encode P)) as [A|] eqn:E.
  - exists A. split; [done|]. destruct (frombytes_some _ _ E) as (Q & HA & Ey & Hs). rewrite coordinate_encode in Ey. rewrite sign_encode in Hs.
    by rewrite <- (sign_determines Q P Ey Hs).
  - exfalso. apply (frombytes_none _ E P). by rewrite coordinate_encode.
Qed.

Lemma encode_inj (P Q : pt) : encode P = encode Q -> P = Q.
Proof.
  intros E. apply sign_determines; [by rewrite <- !coordinate_encode, E|]. right. by rewrite <- !sign_encode, E.
Qed.

Section fractions.
  Context {F : Type} {K : Field F}.
  Add Field field_fractions : field_laws.
  #[local] Open Scope F_scope.

Lemma fraction_inverse (y : F) : 1 + 1 <> (0 : F) -> 1 - y <> 0 ->
  ((y + 1) * f_inv (1 - y) - 1) * f_inv ((y + 1) * f_inv (1 - y) + 1) = y.
Proof.
  intros H2 Hy. assert (y + 1 + (1 - y) <> 0) by (intros E; apply H2; rewrite <- E; ring). field. done.
Qed.

Lemma fraction_scale (y z : F) : z <> 0 -> 1 - y <> 0 -> (y * z + z) * f_inv (z - y * z) = (y + 1) * f_inv (1 - y).
Proof.
  intros Hz Hy. assert (z - y * z <> 0) by (replace (z - y * z) with (z * (1 - y)) by ring; by apply f_mul_nonzero). field. done.
Qed.
End fractions.

Add Field field_montgomery : (field_laws (F := F25519)).
#[local] Open Scope F_scope.

Lemma f_inv_0 : f_inv (0 : F25519) = 0.
Proof. rewrite <- inj_0, <- inj_inv. by rewrite Z.pow_0_l by done. Qed.

Definition mont_u (P : pt) : F25519 := (py P + 1) * f_inv (1 - py P).
Definition edwards_y (u : F25519) : F25519 := (u - 1) * f_inv (u + 1).

Lemma one_minus_zero (y : F25519) : 1 - y = 0 -> y = 1.
Proof. intros E. symmetry. by apply f_sub_eq_0. Qed.

(** Only the neutral point has [y = 1]. *)
Lemma y_one (P : pt) : py P = 1 -> P = pzero.
Proof.
  intros Ey. apply point_eq; [|by rewrite Ey, py_zero]. rewrite px_zero. pose proof (point_on_curve P) as H. rewrite on_curve_fraction, Ey in H.
  apply square_zero. apply (f_mul_cancel (denominator 1)); [apply denominator_nonzero|]. rewrite H. unfold numerator. ring.
Qed.

Lemma edwards_y_mont_u P : P <> pzero -> edwards_y (mont_u P) = py P.
Proof.
  intros HP. assert (1 - py P <> 0) as H1 by (intros E%one_minus_zero; by apply HP, y_one).
  apply fraction_inverse; [apply two_nonzero|done].
Qed.

(** The coordinate determines the point up to its sign. *)
Lemma mont_u_neg P : mont_u (pneg P) = mont_u P.
Proof. unfold mont_u. by rewrite py_neg. Qed.

Lemma ge_p3_to_montx_is h P : p3_is h P -> fe_is 101 (ge_p3_to_montx h) (mont_u P).
Proof.
  intros (X&Y&Z&T&_&HY&HZ&_&Hz&_&Ey&_). unfold ge_p3_to_montx. cbv zeta.
  pose proof (fe_add_is 101 101 _ _ _ _ ltac:(done) ltac:(done) HY HZ) as H1.
  pose proof (fe_invert_is 202 _ _ ltac:(done) (fe_sub_is 101 101 _ _ _ _ ltac:(done) ltac:(done) HZ HY)) as H2.
  eapply fe_is_eq; [exact (fe_mul_is 202 101 _ _ _ _ ltac:(done) ltac:(done) H1 H2)|]. subst Y. unfold mont_u.
  destruct (decide (1 - py P = 0)) as [E|E].
  - rewrite E. replace (Z - py P * Z) with (Z * (1 - py P)) by ring. rewrite E. replace (Z * 0) with (0 : F25519) by ring. rewrite f_inv_0. ring.
  - by apply fraction_scale.
Qed.

Lemma fe_montx_to_edy_is k x u : (0 <= k <= 305)%Z -> fe_is k x u -> fe_is 101 (fe_montx_to_edy x) (edwards_y u).
Proof.
  intros Hk Hx%fe_is_repr. eapply repr_fe_is; [by eapply fe_montx_to_edy_repr|]. unfold edwards_y.
  rewrite inj_mul, inj_sub, inj_inv, inj_add, inj_res, inj_1. done.
Qed.
