(* ===== verification/GroupOrder.v ===== *)
(** The curve has [8 * order] points: multiplying by the cofactor and then by the order of
    the base point gives the neutral point, for every point.  No point is counted: the
    base point and a point of order 8 generate a group of [8 * order] elements, a point
    outside it would give [16 * order] distinct points, and there are at most two points
    for each of the [2 ^ 255 - 19] values of [y]. *)

From Stdlib Require Import Field.
From Bignums Require Import BigZ.BigZ.
From S2P Require Import Prelude Primes Limbs Scalar Donna DonnaField Edwards Field25519 GeFacts GeTableFacts EncodeFacts.

(* ------------------------------------------------------------------ *)
(** ** Pigeons *)

Lemma pigeonhole_nat (m n : nat) (f : nat -> nat) : (forall i, (i < m)%nat -> (f i < n)%nat) ->
  (forall i j, (i < m)%nat -> (j < m)%nat -> f i = f j -> i = j) -> (m <= n)%nat.
Proof.
  intros Hf Hi. assert (NoDup (map f (seq 0 m))) as Hn.
  { apply NoDup_ListNoDup. apply Finite.Injective_map_NoDup_in; [|apply seq_NoDup]. intros x y Hx%in_seq Hy%in_seq. apply Hi; lia. }
  pose proof (List.NoDup_incl_length (l := map f (seq 0 m)) (l' := seq 0 n) (proj1 (NoDup_ListNoDup _) Hn)) as H.
  rewrite length_map, !length_seq in H. apply H. intros y (x & <- & Hx%in_seq)%in_map_iff. apply in_seq. specialize (Hf x ltac:(lia)). lia.
Qed.

Lemma pigeonhole (m n : Z) (f : Z -> Z) : (forall i, 0 <= i < m -> 0 <= f i < n) ->
  (forall i j, 0 <= i < m -> 0 <= j < m -> f i = f j -> i = j) -> m <= n \/ m <= 0.
Proof.
  intros Hf Hi. destruct (decide (m <= 0)) as [|Hm]; [by right|left].
  pose proof (pigeonhole_nat (Z.to_nat m) (Z.to_nat n) (fun i => Z.to_nat (f (Z.of_nat i)))) as H.
  assert (Z.to_nat m <= Z.to_nat n)%nat; [|pose proof (Hf 0 ltac:(lia)); lia]. apply H.
  - intros i Hlt. specialize (Hf (Z.of_nat i) ltac:(lia)). lia.
  - intros i j Hi' Hj' E. pose proof (Hf (Z.of_nat i) ltac:(lia)). pose proof (Hf (Z.of_nat j) ltac:(lia)).
    apply Nat2Z.inj, Hi; lia.
Qed.

Add Field field_order : (field_laws (F := F25519)).

(* ------------------------------------------------------------------ *)
(** ** The base point *)

Lemma B_nonzero : B <> pzero.
Proof. intros E. apply (f_equal px) in E. apply (f_equal res) in E. vm_compute in E. done. Qed.

(** A point that the prime order annihilates has that order, unless it is neutral. *)
Lemma order_exact (Q : pt) a : pmul order Q = pzero -> Q <> pzero -> pmul a Q = pzero -> (order | a).
Proof.
  intros HQ Hn Ha. destruct (decide (a mod order = 0)) as [Hd|Hd]; [by apply Z.mod_divide in Hd|]. rewrite Z.mod_divide in Hd by done. exfalso. apply Hn.
  assert (Z.gcd a order = 1) as Hg by (rewrite Z.gcd_comm; apply Z.coprime_prime_l; [apply prime_order|done]).
  destruct (Z.gcd_bezout a order 1 Hg) as (u & v & E). rewrite <- (pmul_1 Q), <- E.
  by rewrite pmul_add, !pmul_mul, Ha, HQ, !pmul_zero, padd_zero_l.
Qed.

(** The base point has exactly that order. *)
Lemma B_order a : pmul a B = pzero -> (order | a).
Proof. exact (order_exact B a order_B B_nonzero). Qed.

(* ------------------------------------------------------------------ *)
(** ** A point of order 8 *)

Definition T_x : Z := 14399317868200118260347934320527232580618823971194345261214217575416788799818.
Definition T_y : Z := 55188659117513257062467267217118295137698188065244968500265048394206261417927.

Lemma T_on_curve : on_curve (inj T_x, inj T_y).
Proof.
  unfold on_curve. change ca with (inj (-1)). change cd with (inj d_value). rewrite <- inj_1, <- !inj_mul, <- !inj_add.
  apply inj_eq. vm_compute. reflexivity.
Qed.
Definition T : pt := dexist (inj T_x, inj T_y) T_on_curve.

Definition zT : zpoint := (of_Z T_x, of_Z T_y, of_Z 1, of_Z ((T_x * T_y) mod p25519)).
Lemma zT_is : zpoint_is zT T.
Proof.
  unfold zT, zpoint_is, extended_form. change (px T) with (inj T_x). change (py T) with (inj T_y).
  rewrite !binj_of_Z, inj_mod, inj_mul, inj_1. split_and!; [apply one_nonzero|ring..].
Qed.

Lemma T_8 : pmul 8 T = pzero.
Proof. apply (zero_check_is (zmul 8 zT)); [vm_compute; reflexivity|]. apply zmul_is, zT_is. Qed.

Lemma inj_same a b : binj a = binj b -> same a b = true.
Proof.
  unfold same, binj. rewrite inj_eq. intros H. rewrite BigZ.spec_eqb, Z.eqb_eq, BigZ.spec_modulo, BigZ.spec_sub. change (to_Z big_p) with p25519.
  change (to_Z BigZ.zero) with 0. unfold feq in H. by rewrite Zminus_mod, H, Z.sub_diag.
Qed.

Lemma nonzero_check_is t P : zero_check t = false -> zpoint_is t P -> P <> pzero.
Proof.
  destruct t as [[[X Y] Z] T']. unfold zero_check. intros H (HZ & EX & EY & _) ->. rewrite px_zero in EX. rewrite py_zero in EY.
  assert (zero_check (X, Y, Z, T') = true) as E; [|unfold zero_check in E; congruence].
  unfold zero_check. rewrite !inj_same; [done|rewrite EY; ring|]. change (binj BigZ.zero) with (inj 0). rewrite inj_0, EX. ring.
Qed.

Lemma T_4 : pmul 4 T <> pzero.
Proof. apply (nonzero_check_is (zmul 4 zT)); [vm_compute; reflexivity|]. apply zmul_is, zT_is. Qed.

Lemma T_order k : -8 < k < 8 -> pmul k T = pzero -> k = 0.
Proof.
  intros Hk Hz. assert (forall a b, pmul (a * k + b * 8) T = pzero) as H.
  { intros a b. by rewrite pmul_add, !pmul_mul, Hz, T_8, !pmul_zero, padd_zero_l. }
  destruct (decide (k = 0)) as [|Hk0]; [done|]. exfalso. apply T_4.
  assert (exists a b, 4 = a * k + b * 8) as (a & b & ->); [|apply H].
  destruct (decide (Z.odd k)) as [Ho|Ho].
  - exists (4 * k), (- ((k * k - 1) / 2)). assert ((k * k - 1) mod 2 = 0). 
    { assert (k = -7 \/ k = -5 \/ k = -3 \/ k = -1 \/ k = 1 \/ k = 3 \/ k = 5 \/ k = 7) as Hc.
      { assert (Z.odd k = true) as Ho' by (by destruct (Z.odd k)). apply Z.odd_spec in Ho' as [m Hm]. lia. }
      by repeat destruct Hc as [->|Hc]; [..|subst]. }
    pose proof (Z.div_mod (k * k - 1) 2 ltac:(done)). lia.
  - assert (k = -6 \/ k = -4 \/ k = -2 \/ k = 2 \/ k = 4 \/ k = 6) as Hc.
    { assert (Z.even k = true) as He by (rewrite <- Z.negb_odd; by destruct (Z.odd k)). apply Z.even_spec in He as [m Hm]. lia. }
    repeat destruct Hc as [->|Hc]; [exists (-2), (-1)|exists (-1), 0|exists (-2), 0|exists 2, 0|exists 1, 0|subst; exists 2, (-1)]; lia.
Qed.

(* ------------------------------------------------------------------ *)
(** ** Counting *)

(** A point as a number below [2 * p25519]. *)
Definition point_code (P : pt) : Z := 2 * res (py P) + Z.b2z (odd (px P)).

Lemma point_code_range P : 0 <= point_code P < 2 * p25519.
Proof. unfold point_code. pose proof (res_range (py P)). destruct (odd (px P)); cbn [Z.b2z]; lia. Qed.

Lemma point_code_inj P Q : point_code P = point_code Q -> P = Q.
Proof.
  unfold point_code. intros E. apply sign_determines; [apply res_eq|right]; destruct (odd (px P)), (odd (px Q)); cbn [Z.b2z] in E; done || lia.
Qed.

Lemma padd_interchange (a b c d : pt) : padd (padd a b) (padd c d) = padd (padd a c) (padd b d).
Proof. rewrite !padd_assoc. f_equal. apply padd_swap. Qed.

(** The elements [i B + j T + e P]. *)
Definition combination (i j e : Z) (P : pt) : pt := padd (padd (pmul i B) (pmul j T)) (pmul e P).

Lemma combination_sub i j e i' j' e' P : combination i j e P = combination i' j' e' P ->
  combination (i - i') (j - j') (e - e') P = pzero.
Proof.
  intros E. assert (combination (i - i') (j - j') (e - e') P = padd (combination i j e P) (pneg (combination i' j' e' P))) as ->.
  { unfold combination. rewrite !pmul_sub, !pneg_padd. symmetry. rewrite padd_interchange. f_equal. apply padd_interchange. }
  rewrite E. apply padd_neg_r.
Qed.

(** The multiple by [8 * order] of a combination is that of its last part. *)
Lemma combination_multiple i j e P : pmul (8 * order) (combination i j e P) = pmul e (pmul (8 * order) P).
Proof.
  unfold combination. rewrite !pmul_padd. rewrite <- !pmul_mul.
  replace (8 * order * i) with (8 * i * order) by lia. replace (8 * order * j) with (order * j * 8) by lia. replace (8 * order * e) with (e * (8 * order)) by lia.
  rewrite (pmul_mul (8 * i)), (pmul_mul (order * j)), order_B, T_8, !pmul_zero, !padd_zero_l. done.
Qed.

Lemma combination_zero i j e P : - order < i < order -> -8 < j < 8 -> -1 <= e <= 1 -> pmul (8 * order) P <> pzero ->
  combination i j e P = pzero -> i = 0 /\ j = 0 /\ e = 0.
Proof.
  intros Hi Hj He HP E. assert (e = 0) as ->.
  { apply (f_equal (pmul (8 * order))) in E. rewrite combination_multiple, pmul_zero in E.
    assert (e = -1 \/ e = 0 \/ e = 1) as [->|[->| ->]] by lia; [|done|].
    - exfalso. apply HP. change (-1) with (- (1)) in E. rewrite pmul_opp, pmul_1 in E. by rewrite <- (pneg_involutive (pmul _ P)), E, pneg_zero.
    - exfalso. apply HP. by rewrite pmul_1 in E. }
  unfold combination in E. rewrite pmul_0, padd_zero_r in E. assert (i = 0) as ->.
  { pose proof (f_equal (pmul 8) E) as E8. rewrite pmul_padd, <- !pmul_mul, (Z.mul_comm 8 j), (pmul_mul j), T_8, !pmul_zero, padd_zero_r in E8.
    apply B_order in E8. apply Z.gauss in E8; [|vm_compute; reflexivity]. destruct E8 as [c Hc]. unfold order in *. nia. }
  rewrite pmul_0, padd_zero_l in E. split_and!; [done|by apply T_order|done].
Qed.

Definition nth_point (P : pt) (n : Z) : pt := combination (n mod order) (n / order mod 8) (n / order / 8) P.

Lemma nth_point_inj P n m : pmul (8 * order) P <> pzero -> 0 <= n < 16 * order -> 0 <= m < 16 * order ->
  nth_point P n = nth_point P m -> n = m.
Proof.
  intros HP Hn Hm E%combination_sub. assert (0 < order) as Ho by done.
  pose proof (Z.mod_pos_bound n order Ho). pose proof (Z.mod_pos_bound m order Ho).
  pose proof (Z.mod_pos_bound (n / order) 8 ltac:(done)). pose proof (Z.mod_pos_bound (m / order) 8 ltac:(done)).
  assert (forall x, 0 <= x < 16 * order -> 0 <= x / order / 8 < 2) as Hb.
  { intros x Hx. assert (0 <= x / order < 16) by (split; [apply Z.div_pos; lia|apply Z.div_lt_upper_bound; lia]).
    set (q := x / order) in *. clearbody q. split; [apply Z.div_pos; lia|apply Z.div_lt_upper_bound; lia]. }
  pose proof (Hb n Hn). pose proof (Hb m Hm).
  pose proof (Z.div_mod n order ltac:(done)) as Dn. pose proof (Z.div_mod m order ltac:(done)) as Dm.
  pose proof (Z.div_mod (n / order) 8 ltac:(done)) as Dn8. pose proof (Z.div_mod (m / order) 8 ltac:(done)) as Dm8. clear Hb.
  set (in_ := n mod order) in *. set (im := m mod order) in *. set (jn := n / order mod 8) in *. set (jm := m / order mod 8) in *.
  set (en := n / order / 8) in *. set (em := m / order / 8) in *. clearbody in_ im jn jm en em.
  destruct (combination_zero (in_ - im) (jn - jm) (en - em) P ltac:(lia) ltac:(lia) ltac:(lia) HP E) as (E1 & E2 & E3).
  rewrite Dn, Dm, Dn8, Dm8. by rewrite (Zminus_eq _ _ E1), (Zminus_eq _ _ E2), (Zminus_eq _ _ E3).
Qed.

Theorem group_order (P : pt) : pmul (8 * order) P = pzero.
Proof.
  destruct (decide (pmul (8 * order) P = pzero)) as [|HP]; [done|exfalso].
  destruct (pigeonhole (16 * order) (2 * p25519) (fun n => point_code (nth_point P n))) as [H|H]; [..|by vm_compute in H|by vm_compute in H].
  - intros i _. apply point_code_range.
  - intros i j Hi Hj E%point_code_inj. by apply (nth_point_inj P).
Qed.

Lemma order_cofactor (P : pt) : pmul order (pmul 8 P) = pzero.
Proof. rewrite <- pmul_mul, Z.mul_comm. apply group_order. Qed.
