(* ===== verification/XeddsaFacts.v ===== *)
(** The signatures are correct: what sign.c, sign_modified.c, curve_sigs.c and xeddsa.c
    sign, the matching open and verify functions accept. *)

From Stdlib Require Import Field.
From S2P Require Import Prelude Buffers Crypto Limbs Scalar ScalarFacts Donna DonnaField DonnaLadder DonnaBytes Fe FeField FeBytes Ge GeTables GeScalar Sha512 Sha512Facts Xeddsa Primes Edwards Field25519 GeFacts GeTableFacts GeScalarFacts EncodeFacts GroupOrder.

Add Field field_xeddsa : (field_laws (F := F25519)).

(* ------------------------------------------------------------------ *)
(** ** Scalars *)

Lemma order_bound : 0 < order < 2 ^ 253.
Proof. done. Qed.

Lemma reduced_val z : le_val (le_bytes 32 (z mod order)) = z mod order.
Proof.
  rewrite le_val_le_bytes. apply Z.mod_small. pose proof (Z.mod_pos_bound z order ltac:(done)). pose proof order_bound.
  change (256 ^ Z.of_nat 32) with (2 ^ 256). lia.
Qed.

Lemma pmul_order z : pmul (z mod order) B = pmul z B.
Proof. apply pmul_mod; [done|apply order_B]. Qed.

Lemma sc_reduce_val s : length s = 64%nat -> le_val (sc_reduce s) = le_val s mod order.
Proof. intros Hs. by rewrite sc_reduce_spec, reduced_val. Qed.
Lemma sc_reduce_length s : length s = 64%nat -> length (sc_reduce s) = 32%nat.
Proof. intros Hs. rewrite sc_reduce_spec by done. apply length_le_bytes. Qed.

Lemma below_253 z : z mod order <= 2 ^ 253.
Proof. pose proof (Z.mod_pos_bound z order ltac:(done)). pose proof order_bound. lia. Qed.
Lemma below_255 z : z mod order < 2 ^ 255.
Proof. pose proof (Z.mod_pos_bound z order ltac:(done)). pose proof order_bound. lia. Qed.

(** The top three bits of a reduced scalar are clear. *)
Lemma reduced_top z : Z.land (byte_at (le_bytes 32 (z mod order)) 31) 224 = 0.
Proof.
  pose proof (Z.mod_pos_bound z order ltac:(done)). pose proof order_bound. rewrite byte_31 by lia.
  set (t := z mod order / 2 ^ 248). assert (0 <= t < 2 ^ 5) as Ht.
  { split; [apply Z.div_pos; lia|]. apply Z.div_lt_upper_bound; [done|]. change (2 ^ 248 * 2 ^ 5) with (2 ^ 253). lia. }
  clearbody t. apply Z.bits_inj'. intros j Hj. rewrite Z.land_spec, Z.bits_0.
  destruct (decide (j < 5)) as [Hj5|Hj5].
  - apply andb_false_iff. right. assert (j = 0 \/ j = 1 \/ j = 2 \/ j = 3 \/ j = 4) as Hc by lia. by destruct Hc as [->|[->|[->|[->| ->]]]].
  - apply andb_false_iff. left. apply (testbit_above t 5); lia.
Qed.

(* ------------------------------------------------------------------ *)
(** ** The equation that both checks test *)

(** [S = h a + r] opens under [A = a B] with [R = r B]. *)
Lemma signature_equation h a r : padd (pmul h (pneg (pmul a B))) (pmul ((h * a + r) mod order) B) = pmul r B.
Proof.
  rewrite pmul_order, pmul_neg, <- pmul_mul, pmul_add, <- padd_assoc, padd_neg_l. apply padd_zero_l.
Qed.

Lemma slice_left n (a b : bytes) : length a = n -> slice 0 n (a ++ b) = a.
Proof. intros <-. unfold slice. rewrite drop_0. apply take_app_length. Qed.

Lemma slice_middle n k (a b c : bytes) : length a = n -> length b = k -> slice n k (a ++ b ++ c) = b.
Proof. intros <- <-. unfold slice. rewrite drop_app_length. apply take_app_length. Qed.

Lemma slice_all n (a : bytes) : length a = n -> slice 0 n a = a.
Proof. intros <-. unfold slice. rewrite drop_0. apply firstn_all. Qed.

Lemma open_check_signed m a r :
  let R := encode (pmul r B) in let pk := encode (pmul a B) in
  let h := le_val (crypto_hash_sha512 (R ++ pk ++ m)) in
  open_check ((R ++ le_bytes 32 ((h * a + r) mod order)) ++ m) pk = true.
Proof.
  cbv zeta. set (P := pmul a B). set (R := pmul r B). set (h := le_val _). set (S := le_bytes 32 _).
  assert (length S = 32%nat) as HS by apply length_le_bytes. pose proof (encode_length R) as HR. pose proof (encode_length P) as HP.
  unfold open_check. rewrite <- app_assoc.
  rewrite (proj2 (Nat.ltb_ge _ _)) by (rewrite !length_app; lia).
  assert (byte_at (encode R ++ S ++ m) 63 = byte_at S 31) as Eb.
  { unfold byte_at. rewrite app_nth2 by lia. rewrite HR, app_nth1 by lia. done. }
  rewrite Eb. unfold S at 1. rewrite reduced_top. cbn [Z.eqb negb].
  destruct (frombytes_encode P) as (A & -> & HA).
  rewrite (slice_left 32 (encode R)), (slice_middle 32 32 (encode R)), (slice_all 32 (encode P)) by done.
  assert (drop 64 (encode R ++ S ++ m) = m) as -> by (rewrite app_assoc; apply drop_app_length'; rewrite length_app; lia).
  set (k := sc_reduce _). assert (length k = 32%nat /\ le_val k = h mod order) as [Hk Ek].
  { split; [apply sc_reduce_length, crypto_hash_sha512_length|apply sc_reduce_val, crypto_hash_sha512_length]. }
  assert (le_val S = (h * a + r) mod order) as ES by apply reduced_val.
  pose proof (ge_double_scalarmult_vartime_is k A S (pneg P) Hk ltac:(rewrite Ek; apply below_253) HS ltac:(rewrite ES; apply below_253) HA) as H2.
  rewrite (ge_tobytes_is _ _ H2). apply Z.eqb_eq. rewrite crypto_verify_32_spec by (done || apply encode_length). apply decide_True. f_equal.
  rewrite Ek, ES. unfold R. rewrite <- (signature_equation (h mod order) a r). fold P. do 2 f_equal.
  by rewrite <- (Z.add_mod_idemp_l (h mod order * a)), Z.mul_mod_idemp_l, Z.add_mod_idemp_l by done.
Qed.

(* ------------------------------------------------------------------ *)
(** ** Signing with an explicit scalar *)

Lemma crypto_sign_modified_spec m sk pk random : length sk = 32%nat -> length pk = 32%nat -> exists r,
  let R := encode (pmul r B) in
  crypto_sign_modified m sk pk random =
    R ++ le_bytes 32 ((le_val (crypto_hash_sha512 (R ++ pk ++ m)) * le_val sk + r) mod order).
Proof.
  intros Hsk Hpk. unfold crypto_sign_modified. cbv zeta. set (n := crypto_hash_sha512 (sign_prefix ++ _)).
  pose proof (crypto_hash_sha512_length _ : length n = 64%nat) as Hn. exists (le_val n mod order).
  rewrite (slice_all 32 pk) by done. rewrite <- sc_reduce_val by done.
  rewrite (ge_p3_tobytes_is _ (pmul (le_val (sc_reduce n)) B)).
  2: { apply ge_scalarmult_base_is; [by apply sc_reduce_length|]. rewrite sc_reduce_val by done. apply below_255. }
  f_equal. rewrite sc_muladd_spec by (done || apply sc_reduce_length; done || apply crypto_hash_sha512_length).
  f_equal. rewrite (sc_reduce_val (crypto_hash_sha512 _)) by apply crypto_hash_sha512_length.
  rewrite <- (Z.add_mod_idemp_l (_ mod order * _)), Z.mul_mod_idemp_l, Z.add_mod_idemp_l by done. done.
Qed.

Lemma sign_modified_opens m sk random : length sk = 32%nat ->
  let pk := encode (pmul (le_val sk) B) in open_check (crypto_sign_modified m sk pk random ++ m) pk = true.
Proof.
  intros Hsk pk. destruct (crypto_sign_modified_spec m sk pk random Hsk (encode_length _)) as (r & ->). apply open_check_signed.
Qed.

Lemma sign_modified_length m sk pk random : length sk = 32%nat -> length pk = 32%nat ->
  length (crypto_sign_modified m sk pk random) = 64%nat.
Proof.
  intros Hsk Hpk. destruct (crypto_sign_modified_spec m sk pk random Hsk Hpk) as (r & ->).
  by rewrite length_app, encode_length, length_le_bytes.
Qed.

(* ------------------------------------------------------------------ *)
(** ** Clamped scalars *)

Lemma byte_0 s : byte_at s 0 = le_val s mod 256.
Proof. by rewrite byte_at_div, Z.div_1_r. Qed.

Lemma clamped_val k : length k = 32%nat -> clamped k -> (8 | le_val k) /\ 2 ^ 254 <= le_val k < 2 ^ 255.
Proof.
  intros Hk (b0 & b31 & H0 & H31 & E0 & E31). pose proof (le_val_range k) as Hr. rewrite Hk in Hr. change (256 ^ Z.of_nat 32) with (2 ^ 256) in Hr.
  assert (byte_val b0 = byte_at k 0) as Eb0 by (unfold byte_at; by rewrite (nth_lookup_Some _ _ _ _ H0)).
  assert (byte_val b31 = byte_at k 31) as Eb31 by (unfold byte_at; by rewrite (nth_lookup_Some _ _ _ _ H31)).
  rewrite Eb0, byte_0 in E0. rewrite Eb31, byte_at_div in E31. change (256 ^ Z.of_nat 31) with (2 ^ 248) in E31. split.
  - apply Z.mod_divide; [done|]. change 7 with (Z.ones 3) in E0. rewrite Z.land_ones in E0 by done. change (2 ^ 3) with 8 in E0.
    rewrite <- E0. change 256 with (8 * 32). rewrite (Z.mul_comm 8 32). symmetry. rewrite Z.mul_comm. apply Z.mod_mod_divide. by exists 32.
  - set (t := le_val k / 2 ^ 248) in *. assert (0 <= t < 256) as Ht by (split; [apply Z.div_pos; lia|apply Z.div_lt_upper_bound; lia]).
    rewrite Z.mod_small in E31 by done. assert (64 <= t < 128) as Ht'.
    { clearbody t. clear - E31 Ht. pose proof (Z.testbit_eqb t 6 ltac:(done)) as H6. pose proof (Z.testbit_eqb t 7 ltac:(done)) as H7.
      apply (f_equal (fun z => (Z.testbit z 6, Z.testbit z 7))) in E31. rewrite !Z.land_spec, H6, H7 in E31.
      change (Z.testbit 192 6) with true in E31. change (Z.testbit 192 7) with true in E31. change (Z.testbit 64 6) with true in E31.
      change (Z.testbit 64 7) with false in E31. rewrite !andb_true_r in E31. injection E31 as E6 E7. apply Z.eqb_eq in E6. apply Z.eqb_neq in E7.
      change (2 ^ 6) with 64 in E6. change (2 ^ 7) with 128 in E7. Z.to_euclidean_division_equations. lia. }
    pose proof (Z.div_mod (le_val k) (2 ^ 248) ltac:(done)) as Hd. fold t in Hd. pose proof (Z.mod_pos_bound (le_val k) (2 ^ 248) ltac:(done)). lia.
Qed.

Lemma clamped_nonzero a : (8 | a) -> 2 ^ 254 <= a < 2 ^ 255 -> pmul a B <> pzero.
Proof.
  intros [c ->] Ha [j Hj]%B_order. assert (8 | j) as [i ->].
  { apply (Z.gauss 8 order j); [|vm_compute; reflexivity]. exists c. lia. }
  unfold order in *. lia.
Qed.

(* ------------------------------------------------------------------ *)
(** ** The sign bit of byte 31 *)

Lemma land_128 t : 0 <= t < 256 -> Z.land t 128 = 128 * Z.b2z (Z.testbit t 7).
Proof.
  intros Ht. apply Z.bits_inj'. intros j Hj. rewrite Z.land_spec. change 128 with (2 ^ 7) at 1. destruct (decide (j = 7)) as [->|].
  - rewrite Z.pow2_bits_true by done. by destruct (Z.testbit t 7).
  - rewrite Z.pow2_bits_false by lia. rewrite andb_false_r. destruct (Z.testbit t 7); cbn [Z.b2z]; [|by rewrite Z.mul_0_r, Z.bits_0].
    change (128 * 1) with (2 ^ 7). by rewrite Z.pow2_bits_false by lia.
Qed.

Lemma split_top z (b : bool) : 0 <= z < 2 ^ 255 ->
  (z + 2 ^ 255 * Z.b2z b) / 2 ^ 248 = z / 2 ^ 248 + 128 * Z.b2z b /\ 0 <= z / 2 ^ 248 < 128.
Proof.
  intros Hz. split; [|split; [apply Z.div_pos; lia|apply Z.div_lt_upper_bound; lia]].
  replace (z + 2 ^ 255 * Z.b2z b) with (z + (128 * Z.b2z b) * 2 ^ 248) by (change (2 ^ 255) with (128 * 2 ^ 248); ring).
  by rewrite Z.div_add by done.
Qed.

(** [t[31] &= 0x7F; t[31] |= c << 7;] *)
Lemma mask_sign z (b c : bool) : 0 <= z < 2 ^ 255 ->
  mask_byte 31 127 (128 * Z.b2z c) (le_bytes 32 (z + 2 ^ 255 * Z.b2z b)) = le_bytes 32 (z + 2 ^ 255 * Z.b2z c).
Proof.
  intros Hz. unfold mask_byte. assert (0 <= z + 2 ^ 255 * Z.b2z b < 2 ^ 256) as Hr by (destruct b; cbn [Z.b2z]; lia).
  rewrite byte_31, insert_31 by done. destruct (split_top z b Hz) as [-> Ht]. rewrite <- top_byte by done.
  set (t := z / 2 ^ 248) in *. f_equal.
  - apply le_bytes_mod. change (256 ^ Z.of_nat 31) with (2 ^ 248).
    replace (z + 2 ^ 255 * Z.b2z b) with (z + (128 * Z.b2z b) * 2 ^ 248) by (change (2 ^ 255) with (128 * 2 ^ 248); ring).
    by rewrite Z_mod_plus_full.
  - do 2 f_equal. change 127 with (Z.ones 7). rewrite Z.land_ones by done. change (2 ^ 7) with 128.
    rewrite (Z.mul_comm 128 (Z.b2z b)), Z_mod_plus_full, Z.mod_small by done.
    destruct c; cbn [Z.b2z]; [|by rewrite Z.lor_0_r, Z.add_0_r]. symmetry. apply Z.add_nocarry_lor.
    apply Z.bits_inj'. intros j Hj. rewrite Z.land_spec, Z.bits_0. change (128 * 1) with (2 ^ 7). destruct (decide (j = 7)) as [->|].
    + by rewrite (testbit_above t 7) by (lia || done).
    + rewrite Z.pow2_bits_false by lia. apply andb_false_r.
Qed.

Lemma encode_sign_bit P : Z.land (byte_at (encode P) 31) 128 = 128 * Z.b2z (odd (px P)).
Proof. rewrite land_128 by apply byte_at_range. fold (sign (encode P)). by rewrite sign_encode. Qed.

Lemma res_below (f : F25519) : 0 <= res f < 2 ^ 255.
Proof. pose proof (res_range f). pose proof p_below. lia. Qed.

Lemma byte_at_app_r (a b : bytes) i n : length a = n -> byte_at (a ++ b) (n + i) = byte_at b i.
Proof. intros <-. unfold byte_at. rewrite app_nth2 by lia. f_equal. f_equal. lia. Qed.

Lemma mask_byte_app (a b : bytes) i n keep set : length a = n -> mask_byte (n + i) keep set (a ++ b) = a ++ mask_byte i keep set b.
Proof. intros Ha. unfold mask_byte. rewrite (byte_at_app_r a b i n Ha). subst n. by rewrite insert_app_r. Qed.

Lemma sign_byte z (b : bool) : 0 <= z < 2 ^ 255 -> Z.land (byte_at (le_bytes 32 (z + 2 ^ 255 * Z.b2z b)) 31) 128 = 128 * Z.b2z b.
Proof.
  intros Hz. rewrite land_128 by apply byte_at_range. do 2 f_equal. rewrite byte_31 by (destruct b; cbn [Z.b2z]; lia).
  destruct (split_top z b Hz) as [-> Ht]. rewrite Z.testbit_eqb by done. change (2 ^ 7) with 128.
  rewrite (Z.mul_comm 128), Z.div_add, Z.div_small by (done || lia). by destruct b.
Qed.

(* ------------------------------------------------------------------ *)
(** ** Public keys *)

(** The Montgomery public key of a point. *)
Definition mont_bytes (P : pt) : bytes := le_bytes 32 (res (mont_u P)).

Lemma curve25519_keygen_is k : length k = 32%nat -> le_val k < 2 ^ 255 -> curve25519_keygen k = mont_bytes (pmul (le_val k) B).
Proof.
  intros Hk Hv. unfold curve25519_keygen. cbv zeta. eapply (fe_tobytes_is 101); [done|].
  by apply ge_p3_to_montx_is, ge_scalarmult_base_is.
Qed.

Lemma le_val_res (f : F25519) : le_val (le_bytes 32 (res f)) = res f.
Proof.
  rewrite le_val_le_bytes. apply Z.mod_small. pose proof (res_below f). change (256 ^ Z.of_nat 32) with (2 ^ 256). lia.
Qed.

Lemma frombytes_res (f : F25519) : fe_is 101 (fe_frombytes (le_bytes 32 (res f))) f.
Proof.
  eapply fe_is_eq; [apply fe_frombytes_is|]. rewrite le_val_res, Z.mod_small by apply res_below. apply inj_res.
Qed.

(** The Edwards [y] that verification computes from the public key. *)
Lemma public_y P : P <> pzero -> fe_tobytes (fe_montx_to_edy (fe_frombytes (mont_bytes P))) = le_bytes 32 (res (py P)).
Proof.
  intros HP. eapply (fe_tobytes_is 101); [done|]. rewrite <- (edwards_y_mont_u P HP).
  eapply fe_montx_to_edy_is; [|apply frombytes_res]. lia.
Qed.

Lemma encode_even P : odd (px P) = false -> encode P = le_bytes 32 (res (py P)).
Proof. intros E. unfold encode. by rewrite E, Z.mul_0_r, Z.add_0_r. Qed.

(* ------------------------------------------------------------------ *)
(** ** curve_sigs.c *)

Lemma ed_curve25519_sign_spec k m random : length k = 32%nat -> le_val k < 2 ^ 255 -> exists r,
  let P := pmul (le_val k) B in let R := encode (pmul r B) in
  ed_curve25519_sign k m random = R ++
    le_bytes 32 ((le_val (crypto_hash_sha512 (R ++ encode P ++ m)) * le_val k + r) mod order + 2 ^ 255 * Z.b2z (odd (px P))).
Proof.
  intros Hk Hv. unfold ed_curve25519_sign. cbv zeta. rewrite (ge_p3_tobytes_is _ _ (ge_scalarmult_base_is k Hk Hv)).
  set (P := pmul (le_val k) B). destruct (crypto_sign_modified_spec m k (encode P) random Hk (encode_length P)) as (r & Es).
  exists r. cbv zeta in Es. rewrite Es, encode_sign_bit. rewrite (mask_byte_app (encode (pmul r B)) _ 31 32) by apply encode_length. f_equal.
  set (x := _ mod order). pose proof (mask_sign x false (odd (px P))) as H. cbn [Z.b2z] in H. rewrite Z.mul_0_r, Z.add_0_r in H. apply H.
  pose proof (Z.mod_pos_bound (le_val (crypto_hash_sha512 (encode (pmul r B) ++ encode P ++ m)) * le_val k + r) order ltac:(done)).
  pose proof order_bound. unfold x. lia.
Qed.

Lemma ed_curve25519_sign_length k m random : length k = 32%nat -> le_val k < 2 ^ 255 -> length (ed_curve25519_sign k m random) = 64%nat.
Proof.
  intros Hk Hv. destruct (ed_curve25519_sign_spec k m random Hk Hv) as (r & ->). by rewrite length_app, encode_length, length_le_bytes.
Qed.

Lemma ed_curve25519_correct k m random : length k = 32%nat -> le_val k < 2 ^ 255 -> pmul (le_val k) B <> pzero ->
  ed_curve25519_verify (ed_curve25519_sign k m random) (mont_bytes (pmul (le_val k) B)) m = 0.
Proof.
  intros Hk Hv HP. destruct (ed_curve25519_sign_spec k m random Hk Hv) as (r & ->). set (P := pmul (le_val k) B) in *.
  unfold ed_curve25519_verify, crypto_sign_open_modified. cbv zeta. set (x := _ mod order). set (R := encode (pmul r B)) in *.
  assert (0 <= x < 2 ^ 255) as Hx.
  { pose proof (Z.mod_pos_bound (le_val (crypto_hash_sha512 (R ++ encode P ++ m)) * le_val k + r) order ltac:(done)).
    pose proof order_bound. unfold x. lia. }
  assert (length R = 32%nat) as HR by apply encode_length.
  rewrite slice_all by (by rewrite length_app, HR, length_le_bytes).
  rewrite (byte_at_app_r R _ 31 32 HR), (mask_byte_app R _ 31 32 127 0 HR). rewrite sign_byte, public_y by done.
  pose proof (mask_sign (res (py P)) false (odd (px P)) (res_below _)) as E1. cbn [Z.b2z] in E1. rewrite Z.mul_0_r, Z.add_0_r in E1.
  rewrite E1. fold (encode P).
  pose proof (mask_sign x (odd (px P)) false Hx) as E2. cbn [Z.b2z] in E2. rewrite !Z.mul_0_r, Z.add_0_r in E2.
  pose proof (open_check_signed m (le_val k) r) as H. cbv zeta in H. fold P in H. fold R in H. fold x in H. by rewrite E2, H.
Qed.

(* ------------------------------------------------------------------ *)
(** ** xeddsa.c *)

Lemma cmov_byte (b : bool) x y :
  u8 (Z.lxor (byte_val x) (Z.land (Z.lxor (byte_val x) (byte_val y)) (byte_val (u8 (- Z.b2z b))))) = if b then y else x.
Proof.
  destruct b; cbn [Z.b2z]; [change (byte_val (u8 (- (1)))) with (Z.ones 8)|change (byte_val (u8 (- (0)))) with 0].
  - rewrite Z.land_ones by done. rewrite Z.mod_small by (apply lxor_byte; apply byte_val_range).
    rewrite <- Z.lxor_assoc, Z.lxor_nilpotent, Z.lxor_0_l. apply u8_byte_val.
  - rewrite Z.land_0_r, Z.lxor_0_r. apply u8_byte_val.
Qed.

Lemma sc_cmov_spec f g (b : bool) : length f = 32%nat -> length g = 32%nat -> sc_cmov f g (Z.b2z b) = if b then g else f.
Proof.
  unfold sc_cmov. intros Hf Hg. rewrite !firstn_all2 by lia. cbv zeta. assert (length f = length g) as Hl by lia. clear Hf Hg.
  revert g Hl. induction f as [|x f IH]; intros [|y g] Hl; try done; [by destruct b|].
  cbn [zip_with]. rewrite cmov_byte, IH by (cbn in Hl; lia). by destruct b.
Qed.

(** The scalar with an even public point, and that point. *)
Lemma even_key k : length k = 32%nat -> le_val k < 2 ^ 255 ->
  let A := ge_p3_tobytes (ge_scalarmult_base k) in
  let a := sc_cmov (slice 0 32 k) (sc_neg (slice 0 32 k)) (Z.shiftr (Z.land (byte_at A 31) 128) 7) in
  length a = 32%nat /\ le_val a < 2 ^ 255 /\
  (pmul (le_val a) B = pmul (le_val k) B \/ pmul (le_val a) B = pneg (pmul (le_val k) B)) /\
  odd (px (pmul (le_val a) B)) = false /\ mask_byte 31 127 0 A = encode (pmul (le_val a) B).
Proof.
  intros Hk Hv. set (P := pmul (le_val k) B). cbv zeta.
  assert (ge_p3_tobytes (ge_scalarmult_base k) = encode P) as -> by (by apply ge_p3_tobytes_is, ge_scalarmult_base_is).
  assert (Z.shiftr (Z.land (byte_at (encode P) 31) 128) 7 = Z.b2z (odd (px P))) as ->.
  { rewrite encode_sign_bit. by destruct (odd (px P)). }
  rewrite slice_all, sc_cmov_spec by (done || rewrite sc_neg_spec by done; apply length_le_bytes).
  assert (mask_byte 31 127 0 (encode P) = le_bytes 32 (res (py P))) as ->.
  { pose proof (mask_sign (res (py P)) (odd (px P)) false (res_below _)) as E. cbn [Z.b2z] in E. by rewrite !Z.mul_0_r, Z.add_0_r in E. }
  destruct (odd (px P)) eqn:Eo.
  - rewrite sc_neg_spec by done. rewrite reduced_val, pmul_order, pmul_opp. fold P. split; [apply length_le_bytes|]. split; [apply below_255|].
    split; [by right|]. assert (px P <> f_0) as H0 by (intros E; rewrite E in Eo; done).
    assert (odd (px (pneg P)) = false) as Hn by (rewrite px_neg, odd_opp, Eo; done).
    split; [done|]. by rewrite (encode_even _ Hn), py_neg.
  - fold P. split; [done|]. split; [done|]. split; [by left|]. split; [done|]. by rewrite (encode_even _ Eo).
Qed.

Lemma xed25519_key k : length k = 32%nat -> le_val k < 2 ^ 255 ->
  exists a, length a = 32%nat /\ (pmul (le_val a) B = pmul (le_val k) B \/ pmul (le_val a) B = pneg (pmul (le_val k) B)) /\
    odd (px (pmul (le_val a) B)) = false /\
    forall m random, xed25519_sign k m random = crypto_sign_modified m a (encode (pmul (le_val a) B)) random.
Proof.
  intros Hk Hv. destruct (even_key k Hk Hv) as (Ha & _ & Hp & Ho & Em). eexists. split; [exact Ha|]. split; [exact Hp|]. split; [exact Ho|].
  intros m random. unfold xed25519_sign. cbv zeta. by rewrite Em.
Qed.

Lemma mont_bytes_neg P : mont_bytes (pneg P) = mont_bytes P.
Proof. unfold mont_bytes. by rewrite mont_u_neg. Qed.

Lemma xed25519_correct k m random : length k = 32%nat -> le_val k < 2 ^ 255 -> pmul (le_val k) B <> pzero -> (length m <= MAX_MSG_LEN)%nat ->
  xed25519_verify (xed25519_sign k m random) (mont_bytes (pmul (le_val k) B)) m = 0.
Proof.
  intros Hk Hv HP Hm. destruct (xed25519_key k Hk Hv) as (a & Ha & Hpm & Ho & ->). set (P := pmul (le_val a) B) in *.
  assert (mont_bytes (pmul (le_val k) B) = mont_bytes P) as ->.
  { destruct Hpm as [-> | ->]; [done|]. by rewrite mont_bytes_neg. }
  assert (P <> pzero) as HP0.
  { intros E. apply HP. destruct Hpm as [E'|E']; rewrite E in E'; [done|]. by rewrite <- (pneg_involutive (pmul _ B)), <- E', pneg_zero. }
  unfold xed25519_verify, crypto_sign_open_modified. rewrite (proj2 (Nat.ltb_ge _ _)) by done.
  rewrite fe_isreduced_spec by apply length_le_bytes. rewrite decide_True by (unfold mont_bytes; rewrite le_val_res; apply res_range).
  cbn [Z.eqb]. cbv zeta. rewrite public_y, <- encode_even by done.
  rewrite slice_all by (apply sign_modified_length; [done|apply encode_length]).
  pose proof (sign_modified_opens m a random Ha) as H. cbv zeta in H. fold P in H. by rewrite H.
Qed.

(* ------------------------------------------------------------------ *)
(** ** sign.c and open.c *)

(** The scalar of a secret key: the first half of [az]. *)
Definition expanded (sk : bytes) : bytes := mask_byte 31 63 64 (mask_byte 0 248 0 (crypto_hash_sha512 (slice 0 32 sk))).
Definition secret_scalar (sk : bytes) : Z := le_val (slice 0 32 (expanded sk)).
(** The public key that belongs to it. *)
Definition public_of (sk : bytes) : bytes := encode (pmul (secret_scalar sk) B).

Lemma mask_byte_length i keep set s : length (mask_byte i keep set s) = length s.
Proof. apply length_insert. Qed.

Lemma expanded_length sk : length (expanded sk) = 64%nat.
Proof. unfold expanded. rewrite !mask_byte_length. apply crypto_hash_sha512_length. Qed.

Lemma byte_at_slice s n i : (i < n)%nat -> byte_at (slice 0 n s) i = byte_at s i.
Proof.
  intros Hi. unfold byte_at, slice. rewrite drop_0. rewrite <- (take_drop n s) at 2. destruct (decide (n <= length s)%nat).
  - rewrite app_nth1; [done|]. rewrite length_take. lia.
  - by rewrite drop_ge, app_nil_r by lia.
Qed.

(** sc_muladd reads 32 bytes of each argument. *)
Lemma load_32_slice s : load_32 (slice 0 32 s) = load_32 s.
Proof. unfold load_32, load_3, load_4. by rewrite !byte_at_slice by lia. Qed.

Lemma crypto_sign_spec m sk : length sk = 64%nat -> slice 32 32 sk = public_of sk -> exists r,
  let R := encode (pmul r B) in
  crypto_sign m sk = R ++ le_bytes 32 ((le_val (crypto_hash_sha512 (R ++ public_of sk ++ m)) * secret_scalar sk + r) mod order) ++ m.
Proof.
  intros Hsk Hpk. unfold crypto_sign. cbv zeta. rewrite Hpk. fold (expanded sk). set (n := crypto_hash_sha512 (_ ++ m)).
  pose proof (crypto_hash_sha512_length _ : length n = 64%nat) as Hn. exists (le_val n mod order).
  rewrite <- sc_reduce_val by done. rewrite (ge_p3_tobytes_is _ (pmul (le_val (sc_reduce n)) B)).
  2: { apply ge_scalarmult_base_is; [by apply sc_reduce_length|]. rewrite sc_reduce_val by done. apply below_255. }
  do 2 f_equal. unfold sc_muladd. rewrite <- (load_32_slice (expanded sk)). fold (sc_muladd (sc_reduce (crypto_hash_sha512
    (encode (pmul (le_val (sc_reduce n)) B) ++ public_of sk ++ m))) (slice 0 32 (expanded sk)) (sc_reduce n)).
  assert (length (slice 0 32 (expanded sk)) = 32%nat) as Hl by (unfold slice; rewrite drop_0, length_take, expanded_length; done).
  rewrite sc_muladd_spec by (done || apply sc_reduce_length; done || apply crypto_hash_sha512_length). f_equal.
  rewrite (sc_reduce_val (crypto_hash_sha512 _)) by apply crypto_hash_sha512_length. unfold secret_scalar.
  by rewrite <- (Z.add_mod_idemp_l (_ mod order * _)), Z.mul_mod_idemp_l, Z.add_mod_idemp_l by done.
Qed.

Lemma crypto_sign_correct m sk : length sk = 64%nat -> slice 32 32 sk = public_of sk ->
  crypto_sign_open (crypto_sign m sk) (public_of sk) = (0, Z.of_nat (length m), m ++ repeat x00 64).
Proof.
  intros Hsk Hpk. destruct (crypto_sign_spec m sk Hsk Hpk) as (r & ->). cbv zeta. rewrite app_assoc. unfold crypto_sign_open.
  pose proof (open_check_signed m (secret_scalar sk) r) as H. cbv zeta in H. fold (public_of sk) in H. rewrite H.
  set (S := le_bytes 32 _). assert (length (encode (pmul r B) ++ S) = 64%nat) as Hl by (rewrite length_app, encode_length; unfold S; by rewrite length_le_bytes).
  rewrite (drop_app_length' (encode (pmul r B) ++ S)) by done. rewrite (length_app (_ ++ S)), Hl. do 3 f_equal. lia.
Qed.
