(* ===== verification/ElligatorFacts.v ===== *)
(** Square roots and Elligator: the assertions of fe_sqrt.c and ge_montx_to_p3.c hold on
    what elligator.c gives them, and [hash_to_point] always answers 8 times a point of
    the curve. *)

From Stdlib Require Import Field.
From S2P Require Import Prelude Primes Buffers Crypto Limbs Scalar Donna DonnaField DonnaLadder DonnaBytes Fe FeField FeBytes Ge GeTables GeScalar Sha512 Sha512Facts Xeddsa Edwards Field25519 GeFacts EncodeFacts.

Section algebra.
  Context {F : Type} {K : Field F}.
  Add Field field_algebra : field_laws.
  #[local] Open Scope F_scope.

Definition mont_rhs (A u : F) : F := u * (u * u + A * u + 1).

(** The two candidates of Elligator differ by a nonsquare times a square. *)
Lemma elligator_candidates (A r w : F) : w = (1 + 1) * (r * r) + 1 -> w <> 0 ->
  let x := - (f_inv w * A) in mont_rhs A (- (x + A)) = (1 + 1) * (r * r) * mont_rhs A x.
Proof.
  intros Ew Hw. cbv zeta. assert ((1 + 1) * (r * r) = w - 1) as -> by (rewrite Ew; ring). unfold mont_rhs. field. done.
Qed.

(** The map from [v ^ 2 = u (u ^ 2 + A u + 1)] to the Edwards curve, with
    [s ^ 2 = -(A + 2)] and [d (A + 2) = -(A - 2)]. *)
Lemma montgomery_to_edwards (A s d u v : F) : s * s = - (A + (1 + 1)) -> d * (A + (1 + 1)) = - (A - (1 + 1)) ->
  v * v = mont_rhs A u -> v <> 0 -> u + 1 <> 0 ->
  let x := u * s * f_inv v in let y := (u - 1) * f_inv (u + 1) in
  - (x * x) + y * y = 1 + d * (x * x * (y * y)).
Proof.
  intros Es Ed Ev Hv Hu. cbv zeta. apply (f_mul_cancel (v * v * ((u + 1) * (u + 1)))); [by repeat apply f_mul_nonzero|].
  transitivity (- (u * u * (s * s)) * ((u + 1) * (u + 1)) + (u - 1) * (u - 1) * (v * v)); [field; done|].
  transitivity (v * v * ((u + 1) * (u + 1)) + d * (u * u * (s * s)) * ((u - 1) * (u - 1))); [|field; done].
  rewrite Es, Ev. transitivity (mont_rhs A u * ((u + 1) * (u + 1)) - (d * (A + (1 + 1))) * (u * u) * ((u - 1) * (u - 1))); [|ring].
  rewrite Ed. unfold mont_rhs. ring.
Qed.
(** A root of [u ^ 2 + A u + 1] would make [d] a square. *)
Lemma quadratic_root (A d i u : F) : i * i = - (1) -> d * (A + (1 + 1)) = - (A - (1 + 1)) -> A + (1 + 1) <> 0 ->
  u * u + A * u + 1 = 0 -> exists x, x * x = d.
Proof.
  intros Hi Hd Hc H. assert (i <> 0) as Hi0.
  { intros ->. assert ((1 : F) = 0) as E by (transitivity (- (0 * 0) : F); [rewrite Hi; ring|ring]). revert E. apply (F_1_neq_0 field_laws). }
  exists (((1 + 1) * u + A) / (i * (A + (1 + 1)))).
  apply (f_mul_cancel (i * i * ((A + (1 + 1)) * (A + (1 + 1))))); [by repeat apply f_mul_nonzero|].
  transitivity (((1 + 1) * u + A) * ((1 + 1) * u + A)); [field; done|].
  transitivity ((1 + 1) * (1 + 1) * (u * u + A * u + 1) + (A - (1 + 1)) * (A + (1 + 1))); [ring|]. rewrite H, Hi.
  transitivity (- (A + (1 + 1)) * (d * (A + (1 + 1)))); [rewrite Hd; ring|ring].
Qed.
End algebra.

Add Field field_elligator : (field_laws (F := F25519)).
#[local] Open Scope F_scope.

(* ------------------------------------------------------------------ *)
(** ** The Legendre symbol *)

Definition chi (f : F25519) : F25519 := fpow f ((p25519 - 1) / 2).

Lemma half_pos : (0 < (p25519 - 1) / 2)%Z.
Proof. done. Qed.
Lemma chi_0 : chi 0 = 0.
Proof. exact (fpow_0_l _ half_pos). Qed.
Lemma chi_mul f g : chi (f * g) = chi f * chi g.
Proof. exact (fpow_mul_l f g _ (Z.lt_le_incl _ _ half_pos)). Qed.
Lemma chi_cases f : chi f = 0 /\ f = 0 \/ chi f = 1 \/ chi f = - (1).
Proof. destruct (decide (f = 0)) as [->|Hf]; [left; by rewrite chi_0|right; exact (fpow_half f Hf)]. Qed.
Lemma chi_square f : chi (f * f) = 0 \/ chi (f * f) = 1.
Proof.
  rewrite chi_mul. destruct (chi_cases f) as [[-> _]|[-> | ->]]; [left|right..]; ring.
Qed.
Lemma chi_2 : chi (1 + 1) = - (1).
Proof.
  Transparent fpow. unfold chi, fpow. Opaque fpow. rewrite <- inj_1, <- inj_add, <- inj_opp, res_inj. apply inj_eq. unfold feq. rewrite <- (pow_mod_spec (1 + 1 mod p25519)%Z).
  vm_compute. reflexivity.
Qed.

Lemma one_minus_one : (1 : F25519) <> - (1).
Proof.
  intros E. apply (two_nonzero (F := F25519)). rewrite E at 1. ring.
Qed.

(** [f ^ ((p - 5) / 8 * 4 + 2)] *)
Lemma legendre_steps k x f : (k <= 330)%Z -> fe_is k x f ->
  fe_is 101 (fe_mul (fe_mul (fe_sq (fe_sq (fe_pow22523 x))) x) x) (chi f).
Proof.
  intros Hk Hx. pose proof (fe_pow22523_is k x f Hk Hx) as He.
  pose proof (fe_sq_is 101 _ _ ltac:(done) (fe_sq_is 101 _ _ ltac:(done) He)) as H4.
  eapply fe_is_eq; [exact (fe_mul_is 101 k _ _ _ _ ltac:(done) Hk (fe_mul_is 101 k _ _ _ _ ltac:(done) Hk H4 Hx) Hx)|].
  unfold chi. change ((p25519 - 1) / 2)%Z with (2 ^ 252 - 3 + (2 ^ 252 - 3) + (2 ^ 252 - 3 + (2 ^ 252 - 3)) + 1 + 1)%Z.
  rewrite !fpow_add, !fpow_1_r by done. done.
Qed.

(** [g0 = f * f ^ ((p - 5) / 8)] is a square root of [f], or of [-f]. *)
Lemma sqrt_candidate f : chi f = 0 \/ chi f = 1 -> let g := f * fpow f (2 ^ 252 - 3) in g * g = f \/ g * g = - f.
Proof.
  intros Hf g. destruct (decide (f = 0)) as [->|H0]; [left; unfold g; ring|].
  assert (g * g = f * fpow f ((p25519 - 1) / 4)) as ->.
  { unfold g. change ((p25519 - 1) / 4)%Z with (1 + (2 ^ 252 - 3 + (2 ^ 252 - 3)))%Z. rewrite !fpow_add, fpow_1_r by done. ring. }
  set (q := fpow f ((p25519 - 1) / 4)). assert (q * q = 1 * 1) as Hq.
  { rewrite <- fpow_2_r. unfold q. rewrite fpow_pow by done. change ((p25519 - 1) / 4 * 2)%Z with ((p25519 - 1) / 2)%Z. fold (chi f).
    destruct Hf as [E|E]; [|rewrite E; ring]. exfalso. destruct (fpow_half f H0) as [E'|E']; fold (chi f) in E'; rewrite E in E'.
    - by apply (one_nonzero (F := F25519)).
    - apply (one_nonzero (F := F25519)). transitivity (- - (1 : F25519)); [ring|]. rewrite <- E'. ring. }
  apply f_square_eq in Hq as [E|E]; rewrite E; [left; ring|right; ring].
Qed.

Lemma i_bytes_is : fe_is 101 (fe_frombytes i_bytes) root_a.
Proof. eapply fe_is_eq; [apply fe_frombytes_is|]. change root_a with (inj sqrtm1_value). done. Qed.

Lemma isequal_true k l x y f g : (0 <= k)%Z -> (0 <= l)%Z -> (k + l <= 305)%Z -> fe_is k x f -> fe_is l y g -> f = g ->
  negb (fe_isequal x y =? 0)%Z = true.
Proof. intros Hk Hl Hs Hx Hy E. by rewrite (fe_isequal_is k l x y f g Hk Hl Hs Hx Hy), decide_True. Qed.

Lemma cmov_pick x y f g (b : bool) : fe_is 101 x f -> fe_is 101 y g -> fe_is 101 (fe_cmov x y (Z.b2z b)) (if b then g else f).
Proof. intros Hx Hy. pose proof (fe_cmov_is 101 101 x y f g b ltac:(done) ltac:(done) Hx Hy) as H. by destruct b. Qed.

#[local] Opaque fe_mul fe_sq fe_pow22523 fe_isequal fe_cmov fe_frombytes fe_invert fe_isnegative fe_neg fe_add fe_sub fe_montx_to_edy fe_mont_rhs.

Lemma bind_some {A B} (a : A) (f : A -> option B) : (Some a ≫= f) = f a.
Proof. done. Qed.

Lemma asserts_square f : chi f = 0 \/ chi f = 1 ->
  assert_ (negb (Z.eqb (if decide (chi f = 0) then 1%Z else 0%Z) 0%Z) || negb (Z.eqb (if decide (chi f = 1) then 1%Z else 0%Z) 0%Z)) = Some ().
Proof. intros [E|E]; rewrite (decide_True _ _ E); [done|]. by rewrite orb_true_r. Qed.

(** The assertions of fe_sqrt.c hold on squares, and the answer is a square root. *)
Lemma fe_sqrt_is x f : fe_is 101 x f -> chi f = 0 \/ chi f = 1 -> exists b g, fe_sqrt x = Some b /\ fe_is 101 b g /\ g * g = f.
Proof.
  intros Hx Hf. unfold fe_sqrt. cbv zeta. pose proof (legendre_steps 101 x f ltac:(done) Hx) as HL.
  generalize dependent (fe_mul (fe_mul (fe_sq (fe_sq (fe_pow22523 x))) x) x). intros L HL.
  pose proof (fe_mul_is 101 101 _ _ _ _ ltac:(done) ltac:(done) Hx (fe_pow22523_is 101 x f ltac:(done) Hx)) as Hb.
  pose proof (sqrt_candidate f Hf) as Hg. cbv zeta in Hg. generalize dependent (f * fpow f (2 ^ 252 - 3)). intros g Hb Hg.
  generalize dependent (fe_mul x (fe_pow22523 x)). intros b Hb.
  pose proof (fe_mul_is 101 101 _ _ _ _ ltac:(done) ltac:(done) Hb i_bytes_is) as Hi. generalize dependent (fe_mul b (fe_frombytes i_bytes)). intros bi Hi.
  pose proof (fe_isequal_is 101 1 _ _ _ _ ltac:(done) ltac:(done) ltac:(done) HL fe_0_is) as E0.
  pose proof (fe_isequal_is 101 1 _ _ _ _ ltac:(done) ltac:(done) ltac:(done) HL fe_1_is) as E1.
  pose proof (fe_isequal_is 101 101 _ _ _ _ ltac:(done) ltac:(done) ltac:(done) (fe_sq_is 101 _ _ ltac:(done) Hb) Hx) as E2.
  rewrite E0, E1, E2, (asserts_square f Hf), bind_some.
  assert (Z.lxor 1 (if decide (g * g = f) then 1%Z else 0%Z) = Z.b2z (if decide (g * g = f) then false else true)) as -> by (by case_decide).
  pose proof (cmov_pick _ _ _ _ (if decide (g * g = f) then false else true) Hb Hi) as Hg'.
  generalize dependent (fe_cmov b bi (Z.b2z (if decide (g * g = f) then false else true))). intros b' Hg'.
  assert (exists g', fe_is 101 b' g' /\ g' * g' = f) as (g' & Hb' & E').
  { destruct (decide (g * g = f)) as [E|E]; [exists g; split; [exact Hg'|exact E]|]. destruct Hg as [?|Hg]; [contradiction|]. exists (g * root_a). split; [exact Hg'|].
    transitivity (g * g * (root_a * root_a)); [ring|]. rewrite Hg, root_a_square, minus_one. ring. }
  rewrite (isequal_true 101 101 x (fe_sq b') f (g' * g') ltac:(done) ltac:(done) ltac:(done) Hx (fe_sq_is 101 _ _ ltac:(done) Hb') (eq_sym E')).
  exists b', g'. split; [reflexivity|]. split; [exact Hb'|exact E'].
Qed.

(* ------------------------------------------------------------------ *)
(** ** From Montgomery to Edwards *)

Definition mont_A : F25519 := inj 486662.

Lemma fe_mont_rhs_is k x u : (k <= 330)%Z -> fe_is k x u -> fe_is 101 (fe_mont_rhs x) (mont_rhs mont_A u).
Proof.
  intros Hk Hx%fe_is_repr. eapply repr_fe_is; [apply fe_mont_rhs_repr; by eapply fe_repr_weaken|].
  unfold mont_rhs, mont_A. by rewrite inj_mul, !inj_add, !inj_mul, inj_res, inj_1.
Qed.

(** A square root of [-(A + 2)]. *)
Definition root_A2 : F25519 := inj (le_val A_bytes mod 2 ^ 255).

Lemma A_bytes_is : fe_is 101 (fe_frombytes A_bytes) root_A2.
Proof. apply fe_frombytes_is. Qed.
Lemma dbytes_is : fe_is 101 (fe_frombytes dbytes) cd.
Proof. eapply fe_is_eq; [apply fe_frombytes_is|]. reflexivity. Qed.

Lemma root_A2_square : root_A2 * root_A2 = - (mont_A + (1 + 1)).
Proof. unfold root_A2, mont_A. inj_compute. Qed.
Lemma d_A2 : cd * (mont_A + (1 + 1)) = - (mont_A - (1 + 1)).
Proof. change cd with (inj d_value). unfold mont_A. inj_compute. Qed.

(** [A - 2] is not a square: [u = -1] is not the coordinate of a point. *)
Lemma minus_one_rhs : chi (mont_rhs mont_A (- (1))) = - (1).
Proof.
  unfold mont_rhs, mont_A. rewrite <- inj_1. Transparent fpow. unfold chi, fpow. Opaque fpow.
  rewrite <- !inj_opp, <- !inj_mul, <- !inj_add, <- !inj_mul, res_inj. apply inj_eq. unfold feq.
  rewrite <- (pow_mod_spec _ ((p25519 - 1) / 2)). vm_compute. reflexivity.
Qed.

Lemma A2_nonzero : mont_A + (1 + 1) <> 0.
Proof. unfold mont_A. rewrite <- inj_1, <- inj_0, <- !inj_add, inj_eq. vm_compute. done. Qed.

(** [u ^ 2 + A u + 1] has no root. *)
Lemma rhs_zero u : mont_rhs mont_A u = 0 -> u = 0.
Proof.
  unfold mont_rhs. intros [H|H]%f_mul_eq_0; [done|]. exfalso.
  destruct (quadratic_root mont_A cd root_a u) as [x Hx]; [|exact d_A2|exact A2_nonzero|exact H|exact (nonsquare_d x Hx)].
  rewrite root_a_square. exact minus_one.
Qed.

Lemma minus_one_excluded u : chi (mont_rhs mont_A u) = 0 \/ chi (mont_rhs mont_A u) = 1 -> u + 1 <> 0.
Proof.
  intros Hc E. assert (u = - (1)) as -> by (transitivity (u + 1 - 1); [ring|rewrite E; ring]). rewrite minus_one_rhs in Hc.
  destruct Hc as [E'|E'].
  - apply (one_nonzero (F := F25519)). transitivity (- - (1 : F25519)); [ring|]. rewrite E'. ring.
  - by apply one_minus_one.
Qed.

(** The image of a coordinate lies on the curve, whatever the sign of [x]. *)
Lemma montx_point u v : chi (mont_rhs mont_A u) = 0 \/ chi (mont_rhs mont_A u) = 1 -> v * v = mont_rhs mont_A u ->
  let x := u * root_A2 * f_inv v in let y := edwards_y u in - (x * x) + y * y = 1 + cd * (x * x * (y * y)).
Proof.
  intros Hc Ev. destruct (decide (v = 0)) as [E0|H0].
  - assert (u = 0) as Eu by (apply rhs_zero; rewrite <- Ev, E0; ring). cbv zeta. unfold edwards_y. rewrite Eu, E0, f_inv_0.
    assert ((0 : F25519) + 1 <> 0) as H1 by (intros E; apply (one_nonzero (F := F25519)); rewrite <- E; ring). field. exact H1.
  - exact (montgomery_to_edwards mont_A root_A2 cd u v root_A2_square d_A2 Ev H0 (minus_one_excluded u Hc)).
Qed.

Lemma b2z_lxor (a b : bool) : Z.lxor (Z.b2z a) (Z.b2z b) = Z.b2z (xorb a b).
Proof. by destruct a, b. Qed.

Lemma square_opp (x : F25519) (b : bool) : (if b then - x else x) * (if b then - x else x) = x * x.
Proof. destruct b; ring. Qed.

(** The assertions of ge_montx_to_p3.c hold, and its answer is a point with that coordinate. *)
Lemma ge_montx_to_p3_is k w u (s : bool) : (0 <= k <= 305)%Z -> fe_is k w u -> chi (mont_rhs mont_A u) = 0 \/ chi (mont_rhs mont_A u) = 1 ->
  exists p P, ge_montx_to_p3 w (Z.b2z s) = Some p /\ p3_is p P /\ py P = edwards_y u.
Proof.
  intros Hk Hw Hc. unfold ge_montx_to_p3. cbv zeta.
  destruct (fe_sqrt_is _ _ (fe_mont_rhs_is k w u ltac:(lia) Hw) Hc) as (b & v & -> & Hb & Ev). rewrite bind_some.
  pose proof (fe_montx_to_edy_is k w u Hk Hw) as Hy. generalize dependent (fe_montx_to_edy w). intros y Hy.
  pose proof (fe_mul_is 101 101 _ _ _ _ ltac:(clear; done) ltac:(clear; done) (fe_mul_is k 101 _ _ _ _ ltac:(lia) ltac:(clear; done) Hw A_bytes_is) (fe_invert_is 101 _ _ ltac:(clear; done) Hb)) as Hx.
  generalize dependent (fe_mul (fe_mul w (fe_frombytes A_bytes)) (fe_invert b)). intros x Hx.
  pose proof (montx_point u v Hc Ev) as Hcurve. cbv zeta in Hcurve. generalize dependent (u * root_A2 * f_inv v). intros X Hx Hcurve.
  rewrite (fe_isnegative_is 101 x X ltac:(clear; done) Hx), b2z_lxor.
  pose proof (cmov_pick _ _ _ _ (xorb (odd X) s) Hx (fe_neg_is 101 _ _ ltac:(clear; done) Hx)) as Hx'.
  generalize dependent (fe_cmov x (fe_neg x) (Z.b2z (xorb (odd X) s))). intros x' Hx'.
  rewrite <- (square_opp X (xorb (odd X) s)) in Hcurve. revert Hcurve Hx'. generalize (if xorb (odd X) s then - X else X). intros X' Hcurve Hx'.
  clear Hx X x. generalize dependent (edwards_y u). intros Y Hy Hcurve. cbn [p3_X p3_Y].
  pose proof (fe_sq_is 101 _ _ ltac:(clear; done) Hx') as Hx2. pose proof (fe_sq_is 101 _ _ ltac:(clear; done) Hy) as Hy2.
  pose proof (fe_add_is 101 1 _ _ _ _ ltac:(clear; done) ltac:(clear; done) (fe_mul_is 101 101 _ _ _ _ ltac:(clear; done) ltac:(clear; done) (fe_mul_is 101 101 _ _ _ _ ltac:(clear; done) ltac:(clear; done) Hx2 Hy2) dbytes_is) fe_1_is) as Hr.
  pose proof (fe_add_is 101 101 _ _ _ _ ltac:(clear; done) ltac:(clear; done) (fe_neg_is 101 _ _ ltac:(clear; done) Hx2) Hy2) as Hl.
  rewrite (isequal_true 202 102 _ _ _ _ ltac:(clear; done) ltac:(clear; done) ltac:(clear; done) Hl Hr) by (rewrite Hcurve; ring).
  destruct (point_exists X' Y) as (P & Ex & Ey).
  { unfold on_curve. rewrite minus_one. transitivity (- (X' * X') + Y * Y); [ring|]. exact Hcurve. }
  eexists _, P. split; [reflexivity|]. split; [|exact Ey].
  exists X', Y, 1, (X' * Y). cbn [p3_X p3_Y p3_Z p3_T]. split; [exact Hx'|]. split; [exact Hy|]. split; [exact fe_1_is'|].
  split; [exact (fe_mul_is 101 101 _ _ _ _ ltac:(clear; done) ltac:(clear; done) Hx' Hy)|]. pose proof (affine_extended P) as H. by rewrite Ex, Ey in H.
Qed.

(* ------------------------------------------------------------------ *)
(** ** Elligator *)

Definition nonsquare (f : F25519) : bool := bool_decide (chi f = - (1)).

Lemma minus_one_nonzero : (0 : F25519) <> - (1).
Proof. intros E. apply (one_nonzero (F := F25519)). transitivity (- - (1 : F25519)); [ring|]. rewrite <- E. ring. Qed.

Lemma legendre_is_nonsquare_is k x f : (k <= 330)%Z -> fe_is k x f -> legendre_is_nonsquare x = Z.b2z (nonsquare f).
Proof.
  intros Hk Hx. unfold legendre_is_nonsquare, nonsquare. cbv zeta.
  rewrite (fe_tobytes_is 101 _ _ ltac:(done) (legendre_steps k x f Hk Hx)). rewrite byte_31 by (pose proof (res_range (chi f)); pose proof p_below; lia).
  destruct (chi_cases f) as [[-> _]|[-> | ->]].
  - rewrite bool_decide_eq_false_2; [reflexivity|exact minus_one_nonzero].
  - rewrite bool_decide_eq_false_2; [reflexivity|exact one_minus_one].
  - rewrite bool_decide_eq_true_2 by reflexivity. rewrite res_opp by apply one_nonzero. reflexivity.
Qed.

Lemma mont_A_is : fe_is 101 (<[0%nat := 486662%Z]> fe_0) mont_A.
Proof. unfold mont_A. constant. Qed.

Lemma elligator_is r rho : fe_is 101 r rho ->
  exists u, fe_is 202 (elligator r) u /\ (chi (mont_rhs mont_A u) = 0 \/ chi (mont_rhs mont_A u) = 1).
Proof.
  intros Hr. unfold elligator. cbv zeta.
  pose proof (fe_add_is 101 1 _ _ _ _ ltac:(done) ltac:(done) (fe_sq2_is 101 _ _ ltac:(done) Hr) fe_1_is) as Hw.
  set (w := (1 + 1) * (rho * rho) + 1) in *.
  pose proof (fe_neg_is 101 _ _ ltac:(done) (fe_mul_is 101 101 _ _ _ _ ltac:(done) ltac:(done) (fe_invert_is 102 _ _ ltac:(done) Hw) mont_A_is)) as Hx.
  generalize dependent (fe_neg (fe_mul (fe_invert (fe_add (fe_sq2 r) fe_1)) (<[0%nat := 486662%Z]> fe_0))). intros x Hx.
  rewrite (legendre_is_nonsquare_is 101 _ _ ltac:(done) (fe_mont_rhs_is 101 _ _ ltac:(done) Hx)). set (X := - (f_inv w * mont_A)) in *.
  set (b := nonsquare (mont_rhs mont_A X)).
  pose proof (fe_add_is 101 101 _ _ _ _ ltac:(done) ltac:(done) Hx (cmov_pick _ _ _ _ b fe_0_is' mont_A_is)) as Hu.
  pose proof (fe_cmov_is 202 202 _ _ _ _ b ltac:(done) ltac:(done) Hu (fe_neg_is 202 _ _ ltac:(done) Hu)) as He.
  exists (if b then - (X + mont_A) else X). split.
  - destruct b; [exact He|]. eapply fe_is_eq; [exact He|]. ring.
  - unfold b, nonsquare. destruct (chi_cases (mont_rhs mont_A X)) as [[E _]|[E|E]]; rewrite E.
    + rewrite bool_decide_eq_false_2 by exact minus_one_nonzero. left. exact E.
    + rewrite bool_decide_eq_false_2 by exact one_minus_one. right. exact E.
    + rewrite bool_decide_eq_true_2 by reflexivity. destruct (decide (w = 0)) as [Ew|Ew].
      { exfalso. apply minus_one_nonzero. rewrite <- E. symmetry. assert (X = 0) as -> by (unfold X; rewrite Ew, f_inv_0; ring).
        unfold mont_rhs. transitivity (chi 0); [f_equal; ring|apply chi_0]. }
      pose proof (elligator_candidates mont_A rho w eq_refl Ew) as Hc. cbv zeta in Hc. fold X in Hc. rewrite Hc, (chi_mul ((1 + 1) * (rho * rho))), (chi_mul (1 + 1)), chi_2, E.
      destruct (chi_square rho) as [-> | ->]; [left|right]; ring.
Qed.

(** [hash_to_point] never fails an assertion, and answers 8 times a point. *)
Lemma ge_scalarmult_cofactor_is p P : p3_is p P -> p3_is (ge_scalarmult_cofactor p) (pmul 8 P).
Proof.
  intros H. unfold ge_scalarmult_cofactor. cbv zeta.
  pose proof (ge_p1p1_to_p3_is _ _ (ge_p2_dbl_is _ _ (ge_p1p1_to_p2_is _ _ (ge_p2_dbl_is _ _ (ge_p1p1_to_p2_is _ _ (ge_p3_dbl_is _ _ H)))))) as H8.
  replace (pmul 8 P) with (padd (padd (padd P P) (padd P P)) (padd (padd P P) (padd P P))); [exact H8|].
  change 8%Z with (1 + 1 + (1 + 1) + (1 + 1 + (1 + 1)))%Z. by rewrite !pmul_add, pmul_1.
Qed.

Lemma hash_to_point_is m : exists p P, hash_to_point m = Some p /\ p3_is p (pmul 8 P).
Proof.
  unfold hash_to_point. cbv zeta. set (h := crypto_hash_sha512 m).
  destruct (elligator_is _ _ (fe_frombytes_is (mask_byte 31 127 0 h))) as (u & Hu & Hc).
  assert (exists s : bool, Z.shiftr (Z.land (byte_at h 31) 128) 7 = Z.b2z s) as (s & ->).
  { exists (Z.testbit (byte_at h 31) 7). rewrite <- shiftr_7 by apply byte_at_range. rewrite Z.shiftr_land. change (Z.shiftr 128 7) with 1%Z.
    rewrite shiftr_7 by apply byte_at_range. destruct (Z.testbit (byte_at h 31) 7); reflexivity. }
  destruct (ge_montx_to_p3_is 202 _ u s ltac:(done) Hu Hc) as (p & P & -> & Hp & _). rewrite bind_some.
  exists (ge_scalarmult_cofactor p), P. split; [reflexivity|]. by apply ge_scalarmult_cofactor_is.
Qed.
