(* ===== verification/MontgomeryLadder.v ===== *)
(** The Montgomery ladder of curve25519-donna multiplies points.

    A coordinate [u] belongs to the curve of Ed25519 or to its quadratic twist.  The twist is
    birational to the complete Edwards curve with the parameters [2 d] and [-2], on which a point
    has the coordinate [-(1 + y) / (1 - y)]; so one argument over complete Edwards curves, with a
    sign, covers every base point that [curve25519_donna] accepts. *)

From Stdlib Require Import Field.
From S2P Require Import Prelude Buffers Crypto Limbs Donna DonnaField DonnaLadder DonnaBytes Primes Edwards Field25519 Fe FeField FeBytes Ge GeFacts EncodeFacts ElligatorFacts.

(* ------------------------------------------------------------------ *)
(** ** Differential addition on Edwards curves *)

Section differential.
  Context {F : Type} {K : Field F} {C : Curve F}.
  Add Field field_differential : field_laws.
  #[local] Open Scope F_scope.

Lemma rule_at (P : Edwards.point) : cd * (px P * px P * (py P * py P)) = ca * (px P * px P) + py P * py P - 1.
Proof. apply on_curve_rule. unfold px, py. rewrite <- surjective_pairing. exact (proj2_dsig P). Qed.

Lemma sum_coordinates (P Q : Edwards.point) : let k := cd * (px P * px Q * (py P * py Q)) in
  1 + k <> 0 /\ 1 - k <> 0 /\
  px (padd P Q) = (px P * py Q + py P * px Q) / (1 + k) /\ py (padd P Q) = (py P * py Q - ca * (px P * px Q)) / (1 - k).
Proof.
  cbv zeta. split; [|split].
  - exact (denominator_plus _ _ _ _ (rule_at P) (rule_at Q)).
  - exact (denominator_minus _ _ _ _ (rule_at P) (rule_at Q)).
  - unfold px, py. cbn. destruct (`P), (`Q). done.
Qed.

Lemma a_d_differ : ca - cd <> 0.
Proof. intros E%f_sub_eq_0. apply (nonsquare_d root_a). by rewrite root_a_square. Qed.

Lemma neg_coordinates (P : Edwards.point) : px (pneg P) = - px P /\ py (pneg P) = py P.
Proof. unfold px, py. cbn. by destruct (`P). Qed.

Lemma double_y P : let y := py P in let y2 := py (padd P P) in
  y * y * (1 - y2) * (ca - cd) = (1 - y * y) * (ca - cd * (y * y)) * (1 + y2).
Proof.
  cbv zeta. destruct (sum_coordinates P P) as (_ & Hm & _ & ->). pose proof (rule_at P) as HP.
  set (x := px P) in *. set (y := py P) in *. set (k := cd * (x * x * (y * y))) in *.
  apply (f_mul_cancel (1 - k)); [done|].
  transitivity (y * y * (1 - k - (y * y - ca * (x * x))) * (ca - cd)); [field; done|].
  transitivity ((1 - y * y) * (ca - cd * (y * y)) * (1 - k + (y * y - ca * (x * x)))); [|field; done].
  unfold k in *. ring [HP].
Qed.

Lemma sum_difference_y P Q : let y := py P in let z := py Q in let s := py (padd P Q) in let t := py (padd P (pneg Q)) in
  (y + z) * (y + z) * ((1 - s) * (1 - t)) = (y - z) * (y - z) * ((1 + s) * (1 + t)).
Proof.
  cbv zeta. destruct (sum_coordinates P Q) as (Hp & Hm & _ & ->). destruct (sum_coordinates P (pneg Q)) as (Hp' & Hm' & _ & ->).
  destruct (neg_coordinates Q) as [Ex Ey]. rewrite Ex, Ey in *. pose proof (rule_at P) as HP. pose proof (rule_at Q) as HQ. clear Hp'.
  set (x := px P) in *. set (w := px Q) in *. set (y := py P) in *. set (z := py Q) in *.
  set (k := cd * (x * w * (y * z))) in *. replace (1 - cd * (x * - w * (y * z))) with (1 + k) in * by (unfold k; ring). clear Hm'.
  apply (f_mul_cancel ((1 - k) * (1 + k))); [by apply f_mul_nonzero|].
  transitivity ((y + z) * (y + z) * ((1 - k - (y * z - ca * (x * w))) * (1 + k - (y * z - ca * (x * - w))))); [field; done|].
  transitivity ((y - z) * (y - z) * ((1 - k + (y * z - ca * (x * w))) * (1 + k + (y * z - ca * (x * - w))))); [|field; done].
  apply (f_mul_cancel (cd * cd)); [apply f_mul_nonzero; apply d_nonzero|]. unfold k. ring [HP HQ].
Qed.

(* ------------------------------------------------------------------ *)
(** ** Projective coordinates *)

(** [X : Z] is [s (1 + y) / (1 - y)], infinite for the neutral point. *)
Definition coordinates (s : F) (P : Edwards.point) (X Z : F) : Prop :=
  exists l, l <> 0 /\ X = l * (1 + py P) /\ Z = s * l * (1 - py P).

Section signed.
  Context (s : F) (Hs : s * s = 1).

Lemma sign_nonzero : s <> 0.
Proof using Hs. intros E. apply (one_nonzero (F := F)). rewrite <- Hs, E. ring. Qed.

Lemma coordinates_intro P X Z : X * (1 - py P) = s * Z * (1 + py P) -> ~ (X = 0 /\ Z = 0) -> coordinates s P X Z.
Proof using Hs.
  intros E Hn. pose proof (two_nonzero (F := F)) as H2. set (y := py P) in *.
  assert (X = (X + s * Z) / (1 + 1) * (1 + y)) as EX.
  { transitivity ((X * (1 + y) + s * Z * (1 + y)) / (1 + 1)); [rewrite <- E; field; done|field; done]. }
  assert (Z = s * ((X + s * Z) / (1 + 1)) * (1 - y)) as EZ.
  { transitivity ((s * (X * (1 - y)) + s * s * (Z * (1 - y))) / (1 + 1)); [|field; done]. rewrite E, Hs.
    transitivity ((s * s * (Z * (1 + y)) + Z * (1 - y)) / (1 + 1)); [rewrite Hs; field; done|field; done]. }
  exists ((X + s * Z) / (1 + 1)). split; [|done]. intros E0. rewrite E0 in EX, EZ. apply Hn. split; [rewrite EX|rewrite EZ]; ring.
Qed.

(** The two branches of a step, on a curve or on its twist. *)
Lemma double_coordinates P X Z a24 : s = 1 /\ a24 * (ca - cd) = cd \/ s = - (1) /\ a24 * (cd - ca) = ca ->
  coordinates s P X Z -> let A := X + Z in let B := X - Z in let E := A * A - B * B in
  coordinates s (padd P P) (A * A * (B * B)) (E * (A * A + a24 * E)).
Proof using Hs.
  intros Ha (l & Hl & -> & ->). cbv zeta. pose proof (double_y P) as Hd. cbv zeta in Hd. set (y := py P) in *. set (y2 := py (padd P P)) in *.
  pose proof a_d_differ as Had. pose proof a_nonzero as Han. pose proof (two_nonzero (F := F)) as H2.
  set (c := (1 + 1) * (1 + 1) * ((1 + 1) * (1 + 1)) * (l * l * (l * l))). assert (c <> 0) as Hc by (repeat apply f_mul_nonzero; done).
  set (X := _ * (_ * _)). set (Z := (_ - _) * _). assert (X = c * (y * y) /\ Z * (ca - cd) = s * c * ((1 - y * y) * (ca - cd * (y * y)))) as [EX EZ].
  { destruct Ha as [[-> Ha]|[-> Ha]]; (split; [unfold X, c; ring|]); unfold Z, c.
    - match goal with |- ?e * (?a + a24 * ?e) * _ = _ => transitivity (e * (a * (ca - cd) + a24 * (ca - cd) * e)); [ring|rewrite Ha; ring] end.
    - match goal with |- ?e * (?a + a24 * ?e) * _ = _ => transitivity (e * (a * (ca - cd) - a24 * (cd - ca) * e)); [ring|rewrite Ha; ring] end. }
  clearbody X Z. apply coordinates_intro; fold y2.
  - apply (f_mul_cancel (ca - cd)); [exact Had|]. transitivity (c * (y * y * (1 - y2) * (ca - cd))); [rewrite EX; ring|]. rewrite Hd.
    transitivity (s * s * (c * ((1 - y * y) * (ca - cd * (y * y)) * (1 + y2)))); [rewrite Hs; ring|].
    transitivity (s * (Z * (ca - cd)) * (1 + y2)); [rewrite EZ; ring|ring].
  - intros [E0 E1]. rewrite E1 in EZ. rewrite E0 in EX. symmetry in EX. apply f_mul_eq_0 in EX as [?|EX]; [contradiction|]. rewrite EX in EZ.
    apply (f_mul_nonzero (s * c) ca); [apply f_mul_nonzero; [apply sign_nonzero|done]|done|]. transitivity (s * c * ((1 - 0) * (ca - cd * 0))); [ring|]. rewrite <- EZ. ring.
Qed.

(** Points with [y = 0] differ by a point with [y ^ 2 = 1]. *)
Lemma zero_difference P Q t : py P = 0 -> py Q = 0 -> t = py (padd P (pneg Q)) -> t * t = 1.
Proof.
  intros EP EQ ->. destruct (sum_coordinates P (pneg Q)) as (_ & Hm & _ & ->). destruct (neg_coordinates Q) as [-> ->].
  pose proof (rule_at P) as HP. pose proof (rule_at Q) as HQ. rewrite EP, EQ in *. set (x := px P) in *. set (w := px Q) in *.
  assert (ca * (x * x) = 1) as Hx by (transitivity (cd * (x * x * (0 * 0)) + 1); [rewrite HP; ring|ring]).
  assert (ca * (w * w) = 1) as Hw by (transitivity (cd * (w * w * (0 * 0)) + 1); [rewrite HQ; ring|ring]).
  clear Hm. replace (1 - cd * (x * - w * (0 * 0))) with (1 : F) by ring. pose proof (one_nonzero (F := F)) as H1.
  transitivity (ca * (x * x) * (ca * (w * w))); [field; exact H1|]. rewrite Hx, Hw. ring.
Qed.

Lemma sum_coordinates_xz P Q X2 Z2 X3 Z3 u t : s = 1 \/ s = - (1) -> t = py (padd P (pneg Q)) -> u * (1 - t) = s * (1 + t) -> u <> 0 ->
  coordinates s P X2 Z2 -> coordinates s Q X3 Z3 ->
  let DA := (X3 - Z3) * (X2 + Z2) in let CB := (X3 + Z3) * (X2 - Z2) in
  coordinates s (padd P Q) ((DA + CB) * (DA + CB)) (u * ((DA - CB) * (DA - CB))).
Proof using Hs.
  intros Hs' Et Eu Hu (l & Hl & -> & ->) (m & Hm & -> & ->). cbv zeta. pose proof (sum_difference_y P Q) as Hd. cbv zeta in Hd. rewrite <- Et in Hd.
  pose proof (zero_difference P Q t) as Hz. set (y := py P) in *. set (z := py Q) in *. set (v := py (padd P Q)) in *.
  pose proof (two_nonzero (F := F)) as H2. set (c := (1 + 1) * (1 + 1) * ((1 + 1) * (1 + 1)) * (l * m * (l * m))).
  assert (c <> 0) as Hc by (repeat apply f_mul_nonzero; done).
  set (X := (_ + _) * (_ + _)). set (Z := u * _). assert (X = c * ((y + z) * (y + z)) /\ Z = u * (c * ((y - z) * (y - z)))) as [EX EZ].
  { unfold X, Z, c. destruct Hs' as [-> | ->]; split; ring. }
  clearbody X Z. assert (1 - t <> 0) as H1t.
  { intros E. rewrite E in Eu. apply H2. assert (1 + t = 0) as E1.
    { transitivity (s * s * (1 + t)); [rewrite Hs; ring|]. transitivity (s * (s * (1 + t))); [ring|]. rewrite <- Eu. ring. }
    transitivity (1 - t + (1 + t)); [ring|]. rewrite E, E1. ring. }
  apply coordinates_intro; fold v.
  - apply (f_mul_cancel (1 - t)); [done|]. transitivity (c * ((y + z) * (y + z) * ((1 - v) * (1 - t)))); [rewrite EX; ring|]. rewrite Hd.
    transitivity (c * s * (u * (1 - t)) * ((y - z) * (y - z)) * (1 + v)); [rewrite Eu|rewrite EZ; ring].
    transitivity (s * s * (c * ((y - z) * (y - z) * ((1 + v) * (1 + t))))); [rewrite Hs; ring|ring].
  - intros [E0 E1]. rewrite E0 in EX. rewrite E1 in EZ. symmetry in EX, EZ.
    apply f_mul_eq_0 in EX as [?|EX%square_zero]; [contradiction|]. apply f_mul_eq_0 in EZ as [?|EZ]; [contradiction|].
    apply f_mul_eq_0 in EZ as [?|EZ%square_zero]; [contradiction|].
    assert (forall q, (1 + 1) * q = 0 -> q = 0) as Hh by (intros q [?|?]%f_mul_eq_0; [contradiction|done]).
    assert (y = 0) as Ey by (apply Hh; transitivity (y + z + (y - z)); [ring|]; rewrite EX, EZ; ring).
    assert (z = 0) as Ez by (apply Hh; transitivity (y + z - (y - z)); [ring|]; rewrite EX, EZ; ring).
    specialize (Hz Ey Ez Et). assert ((1 - t) * (1 + t) = 0) as [?|E]%f_mul_eq_0; [transitivity (1 - t * t); [ring|]; rewrite Hz; ring|contradiction|].
    rewrite E in Eu. replace (s * 0) with (0 : F) in Eu by ring. apply f_mul_eq_0 in Eu as [?|?]; contradiction.
Qed.
End signed.
End differential.

(* ------------------------------------------------------------------ *)
(** ** The ladder *)

Add Field field_ladder : (field_laws (F := F25519)).
#[local] Open Scope F_scope.

Lemma inj_mod_p z : inj (z mod p25519) = inj z.
Proof. apply inj_eq. apply mod_feq. Qed.

Section ladder.
  Context {C : Curve F25519} (s : F25519).
  Context (Ha : s = 1 /\ inj 121665 * (ca - cd) = cd \/ s = - (1) /\ inj 121665 * (cd - ca) = ca).
  Context (u : Z) (P : Edwards.point) (Hu : inj u * (1 - py P) = s * (1 + py P)) (Hn : inj u <> 0).

Lemma sign_square : s * s = 1.
Proof using Ha. clear Hu Hn. destruct Ha as [[-> _]|[-> _]]; ring. Qed.

Definition at_point (Q : Edwards.point) (q : Z * Z) : Prop := coordinates s Q (inj q.1) (inj q.2).

Lemma ladder_step_is (Q R : Edwards.point) st : at_point Q st.1 -> at_point R st.2 -> py (padd Q (pneg R)) = py P ->
  at_point (padd Q Q) (ladder_step u st).1 /\ at_point (padd Q R) (ladder_step u st).2.
Proof using Ha Hu Hn.
  destruct st as [[x2 z2] [x3 z3]]. unfold at_point, ladder_step. cbn [fst snd]. intros HQ HR Ht. cbv zeta. rewrite !inj_mod_p. split.
  - pose proof (double_coordinates s sign_square Q _ _ (inj 121665) Ha HQ) as H. cbv zeta in H.
    rewrite !inj_mul, !inj_add, !inj_mul, !inj_sub, !inj_mul, !inj_add, !inj_sub. exact H.
  - assert (s = 1 \/ s = - (1)) as Hs by (destruct Ha as [[? _]|[? _]]; [left|right]; assumption).
    rewrite <- Ht in Hu. pose proof (sum_coordinates_xz s sign_square Q R _ _ _ _ (inj u) _ Hs eq_refl Hu Hn HQ HR) as H. cbv zeta in H.
    rewrite !inj_mul, !inj_sub, !inj_add, !inj_mul, !inj_sub, !inj_add. exact H.
Qed.

Lemma ladder_is k n m st : (0 <= k)%Z -> (k / 2 ^ Z.of_nat n = m)%Z -> at_point (pmul m P) st.1 -> at_point (pmul (m + 1) P) st.2 ->
  at_point (pmul k P) (ladder k u n st).1.
Proof using Ha Hu Hn.
  intros Hk. revert m st. induction n as [|n IH]; intros m st Hm H2 H3; cbn [ladder].
  - rewrite Z.div_1_r in Hm. subst m. exact H2.
  - set (b := Z.testbit k (Z.of_nat n)). assert (k / 2 ^ Z.of_nat n = 2 * m + Z.b2z b)%Z as Hm'.
    { subst m. unfold b. rewrite Nat2Z.inj_succ, Z.pow_succ_r, (Z.mul_comm 2 (2 ^ _)), <- Z.div_div, Z.testbit_spec' by lia.
      apply Z.div_mod. done. }
    destruct b; cbn [swap_points Z.b2z] in *.
    + destruct (ladder_step_is (pmul (m + 1) P) (pmul m P) (swap_points true st) H3 H2) as [HD HS].
      { rewrite <- pmul_sub. replace (m + 1 - m)%Z with 1%Z by lia. by rewrite pmul_1. }
      rewrite <- pmul_add in HD, HS. apply (IH (2 * m + 1)%Z); [exact Hm'| |].
      * replace (2 * m + 1)%Z with (m + 1 + m)%Z by lia. exact HS.
      * replace (2 * m + 1 + 1)%Z with (m + 1 + (m + 1))%Z by lia. exact HD.
    + destruct (ladder_step_is (pmul m P) (pmul (m + 1) P) st H2 H3) as [HD HS].
      { rewrite <- pmul_sub. replace (m - (m + 1))%Z with (- (1))%Z by lia. rewrite pmul_opp, pmul_1. apply neg_coordinates. }
      rewrite <- pmul_add in HD, HS. apply (IH (2 * m)%Z); [by rewrite Z.add_0_r in Hm'| |].
      * replace (2 * m)%Z with (m + m)%Z by lia. exact HD.
      * replace (2 * m + 1)%Z with (m + (m + 1))%Z by lia. exact HS.
Qed.
End ladder.

(** On the coordinate 0 every step leaves a zero product in each pair. *)
Lemma ladder_zero k u n (st : (Z * Z) * (Z * Z)) : inj u = 0 -> inj st.1.1 * inj st.1.2 = 0 -> inj st.2.1 * inj st.2.2 = 0 ->
  inj (ladder k u n st).1.1 * inj (ladder k u n st).1.2 = 0.
Proof.
  intros Hu. revert st. induction n as [|n IH]; intros st H2 H3; cbn [ladder]; [exact H2|].
  set (b := Z.testbit k (Z.of_nat n)). assert (forall q : (Z * Z) * (Z * Z), inj q.1.1 * inj q.1.2 = 0 -> 
    inj (ladder_step u q).1.1 * inj (ladder_step u q).1.2 = 0 /\ inj (ladder_step u q).2.1 * inj (ladder_step u q).2.2 = 0) as Hq.
  { intros [[x2 z2] [x3 z3]] Hq. unfold ladder_step. cbn [fst snd] in *. cbv zeta. rewrite !inj_mod_p. split.
    - rewrite (inj_mul (_ - _)). replace (inj ((x2 + z2) * (x2 + z2) - (x2 - z2) * (x2 - z2))) with (0 : F25519); [ring|].
      rewrite inj_sub, !inj_mul, inj_add, inj_sub. transitivity ((1 + 1) * (1 + 1) * (inj x2 * inj z2)); [rewrite Hq|]; ring.
    - rewrite (inj_mul u), Hu. ring. }
  destruct b; cbn [swap_points]; [destruct (Hq (swap_points true st) H3)|destruct (Hq st H2)]; apply IH; assumption.
Qed.

Lemma X25519_inj k u : let '((x2, z2), _) := ladder k u 256 ((1, 0), (u, 1))%Z in inj (X25519 k u) = inj x2 * f_inv (inj z2).
Proof. unfold X25519. destruct (ladder _ _ _ _) as [[x2 z2] ?]. rewrite inj_mod_p, inj_mul, inj_inv. reflexivity. Qed.

Lemma X25519_zero k u : inj u = 0 -> inj (X25519 k u) = 0.
Proof.
  intros Hu. pose proof (X25519_inj k u) as E. pose proof (ladder_zero k u 256 ((1, 0), (u, 1))%Z Hu) as H. cbn [fst snd] in H.
  destruct (ladder _ _ _ _) as [[x2 z2] ?]. rewrite E. cbn [fst snd] in H.
  destruct (f_mul_eq_0 (inj x2) (inj z2)) as [-> | ->]; [apply H; rewrite ?Hu, ?inj_0; ring|ring|]. rewrite f_inv_0. ring.
Qed.

Section multiples.
  Context {C : Curve F25519} (s : F25519).
  Context (Ha : s = 1 /\ inj 121665 * (ca - cd) = cd \/ s = - (1) /\ inj 121665 * (cd - ca) = ca).

(** The u-coordinate of a point, 0 for the neutral point too. *)
Definition u_of (P : Edwards.point) : F25519 := s * ((py P + 1) * f_inv (1 - py P)).

Lemma u_of_coordinates P X Z : coordinates s P X Z -> X * f_inv Z = u_of P.
Proof using Ha.
  intros (l & Hl & -> & ->). unfold u_of. pose proof (sign_square s Ha) as Hs. pose proof (sign_nonzero s Hs) as Hs0. set (y := py P).
  destruct (decide (1 - y = 0)) as [E|E].
  - rewrite E. replace (s * l * 0) with (0 : F25519) by ring. rewrite f_inv_0. ring.
  - transitivity (s * s * (l * (1 + y) * f_inv (s * l * (1 - y)))); [rewrite Hs; ring|]. field. repeat split; assumption.
Qed.

Lemma u_of_equation P : u_of P <> 0 -> u_of P * (1 - py P) = s * (1 + py P).
Proof.
  unfold u_of. set (y := py P). intros Hn. destruct (decide (1 - y = 0)) as [E|E].
  - exfalso. apply Hn. rewrite E, f_inv_0. ring.
  - field. exact E.
Qed.

Lemma initial_coordinates P u : inj u * (1 - py P) = s * (1 + py P) -> at_point s pzero (1, 0)%Z /\ at_point s P (u, 1)%Z.
Proof using Ha.
  intros Hu. pose proof (sign_square s Ha) as Hs. unfold at_point. cbn [fst snd]. rewrite inj_0, inj_1.
  pose proof (one_nonzero (F := F25519)) as H1. split; apply coordinates_intro; [exact Hs| |intros [E _]; contradiction|exact Hs| |intros [_ E]; contradiction].
  - change (py pzero) with (1 : F25519). ring.
  - rewrite Hu. ring.
Qed.

(** A point of the coordinate 0 has [x = 0], and so have its multiples. *)
Lemma u_of_zero P : u_of P = 0 <-> px P = 0.
Proof using Ha.
  pose proof (sign_nonzero s (sign_square s Ha)) as Hs. pose proof (rule_at P) as HP. unfold u_of. set (x := px P) in *. set (y := py P) in *. split; intros E.
  - apply f_mul_eq_0 in E as [?|E]; [contradiction|]. assert (y * y = 1) as Ey.
    { apply f_mul_eq_0 in E as [E|E].
      - transitivity ((y + 1) * (y - 1) + 1); [ring|]. rewrite E. ring.
      - destruct (decide (1 - y = 0)) as [E'|E']; [transitivity (1 - (1 - y) * (1 + y)); [ring|]; rewrite E'; ring|].
        exfalso. apply (one_nonzero (F := F25519)). transitivity ((1 - y) * f_inv (1 - y)); [field; exact E'|]. rewrite E. ring. }
    apply square_zero. apply (f_mul_cancel (ca - cd)); [apply a_d_differ|].
    transitivity (ca * (x * x) + y * y - 1 - cd * (x * x * (y * y)) - (y * y - 1) + cd * (x * x) * (y * y - 1)); [ring|]. rewrite <- HP, Ey. ring.
  - rewrite E in HP. assert ((y + 1) * (1 - y) = 0) as [Hy|Hy]%f_mul_eq_0.
    { transitivity (- (ca * (0 * 0) + y * y - 1)); [ring|]. rewrite <- HP. ring. }
    + rewrite Hy. ring.
    + rewrite Hy, f_inv_0. ring.
Qed.

Lemma multiple_zero k P : px P = 0 -> px (pmul k P) = 0.
Proof.
  intros E. revert k. assert (forall Q R : Edwards.point, px Q = 0 -> px R = 0 -> px (padd Q R) = 0) as Hadd.
  { intros Q R EQ ER. destruct (sum_coordinates Q R) as (Hp & _ & -> & _). rewrite EQ, ER in *. set (k := cd * _) in *. clearbody k. field. exact Hp. }
  assert (forall n, px (nmul n P) = 0) as Hn by (intros n; induction n as [|n IH]; [reflexivity|exact (Hadd _ _ E IH)]).
  intros [|n|n]; cbn [pmul]; [reflexivity|apply Hn|]. rewrite (proj1 (neg_coordinates _)), Hn. ring.
Qed.

(** X25519 multiplies by every scalar of 32 bytes. *)
Lemma X25519_multiple k u P : (0 <= k < 2 ^ 256)%Z -> inj u = u_of P -> inj (X25519 k u) = u_of (pmul k P).
Proof using Ha.
  intros Hk Eu. destruct (decide (inj u = 0)) as [E0|Hn].
  - rewrite (X25519_zero k u E0). symmetry. apply u_of_zero, multiple_zero, u_of_zero. by rewrite <- Eu.
  - pose proof (u_of_equation P) as He. rewrite <- Eu in He. specialize (He Hn). destruct (initial_coordinates P u He) as [H0 H1].
    pose proof (ladder_is s Ha u P He Hn k 256 0 ((1, 0), (u, 1))%Z ltac:(lia)) as H. cbn [fst snd] in H.
    rewrite pmul_0, pmul_1 in H. specialize (H (Z.div_small _ _ Hk) H0 H1). pose proof (X25519_inj k u) as E.
    destruct (ladder _ _ _ _) as [[x2 z2] ?]. rewrite E. exact (u_of_coordinates _ _ _ H).
Qed.
End multiples.

(* ------------------------------------------------------------------ *)
(** ** Every coordinate is a point's *)

Definition twist_root : Z := 55487632915927625549282413919184614932259505768049324239291840100650878933168.

Definition Twist25519 : Curve F25519.
Proof.
  refine {| ca := inj (2 * d_value); cd := inj (-2); root_a := inj twist_root |}.
  - inj_compute.
  - intros E. rewrite <- inj_0, inj_eq in E. revert E. vm_compute. done.
  - apply nonsquare_power. vm_compute. reflexivity.
  - exact (two_nonzero (F := F25519)).
Defined.

Abbreviation twist_pt := (@Edwards.point F25519 F25519_field Twist25519).

Lemma curve_sign : (1 : F25519) = 1 /\ inj 121665 * (ca - cd) = cd \/ (1 : F25519) = - (1) /\ inj 121665 * (cd - ca) = (ca : F25519).
Proof. left. split; [reflexivity|]. change ca with (inj (-1)). change cd with (inj d_value). inj_compute. Qed.

Lemma twist_sign : - (1) = (1 : F25519) /\ inj 121665 * (@ca _ _ Twist25519 - @cd _ _ Twist25519) = @cd _ _ Twist25519 \/
  - (1) = - (1 : F25519) /\ inj 121665 * (@cd _ _ Twist25519 - @ca _ _ Twist25519) = @ca _ _ Twist25519.
Proof. right. split; [reflexivity|]. change (@ca _ _ Twist25519) with (inj (2 * d_value)). change (@cd _ _ Twist25519) with (inj (-2)). inj_compute. Qed.

Lemma root_exists f : chi f = 0 \/ chi f = 1 -> exists g, g * g = f.
Proof.
  intros Hf. pose proof (sqrt_candidate f Hf) as Hg. cbv zeta in Hg. set (g := f * _) in *. clearbody g.
  destruct Hg as [E|E]; [by exists g|]. exists (g * root_a). transitivity (g * g * (root_a * root_a)); [ring|].
  rewrite E, root_a_square. change ca with (inj (-1)). replace (inj (-1)) with (- (1) : F25519); [ring|]. rewrite <- inj_1, <- inj_opp. done.
Qed.

Lemma chi_1 : chi 1 = 1.
Proof.
  Transparent fpow. unfold chi, fpow. Opaque fpow. change (res 1) with 1%Z. rewrite Z.pow_1_l by (apply Z.lt_le_incl, half_pos). apply inj_1.
Qed.

Lemma chi_inverse_2 : chi (f_inv (1 + 1)) = - (1).
Proof.
  pose proof (two_nonzero (F := F25519)) as H2. pose proof (chi_mul (f_inv (1 + 1)) (1 + 1)) as E.
  assert (f_inv (1 + 1) * (1 + 1) = (1 : F25519)) as E1 by (field; exact H2). rewrite E1, chi_1, chi_2 in E.
  set (c := chi (f_inv (1 + 1))) in *. clearbody c. transitivity (- (c * - (1))); [ring|]. rewrite <- E. ring.
Qed.

(** The two equations, as one fraction. *)
Lemma curve_point y x : x * x * denominator y = numerator y -> exists P : pt, py P = y.
Proof. intros E. destruct (point_exists x y) as (P & _ & Ey); [apply on_curve_fraction; rewrite <- E; ring|]. by exists P. Qed.

Lemma twist_point y x : (1 + 1) * (x * x) * (cd + y * y) = 1 - y * y -> exists P : twist_pt, py P = y.
Proof.
  intros E. unshelve eexists (dexist (x, y) _); [|reflexivity]. unfold on_curve.
  change (@ca _ _ Twist25519) with (inj (2 * d_value)). change (@cd _ _ Twist25519) with (inj (-2)).
  replace (inj (2 * d_value)) with ((1 + 1) * (cd : F25519)) by (change cd with (inj d_value); inj_compute).
  replace (inj (-2)) with (- (1 + 1) : F25519) by inj_compute.
  transitivity ((1 + 1) * (x * x) * (cd + y * y) - (1 + 1) * (x * x) * (y * y) + y * y); [ring|]. rewrite E. ring.
Qed.

Lemma f_inv_1 : f_inv (1 - 0) = (1 : F25519).
Proof.
  assert (1 - 0 = (1 : F25519)) as E by ring. assert (1 - 0 <> (0 : F25519)) as Hv by (rewrite E; apply one_nonzero).
  apply (f_mul_cancel (1 - 0)); [exact Hv|]. transitivity (1 : F25519); [|ring]. generalize dependent (1 - 0 : F25519). intros v _ Hv. field. exact Hv.
Qed.

Definition on_either (u : F25519) : Prop := (exists P : pt, u = u_of 1 P) \/ (exists P : twist_pt, u = u_of (- (1)) P).

Lemma every_coordinate u : on_either u.
Proof.
  destruct (decide (u = 0)) as [->|H0].
  { left. exists pzero. unfold u_of. change (py pzero) with (1 : F25519). replace (1 - 1) with (0 : F25519) by ring. rewrite f_inv_0. ring. }
  pose proof (two_nonzero (F := F25519)) as H2. destruct (decide (u + 1 = 0)) as [Em|Hm].
  - right. destruct (twist_point 0 (f_inv (inj twist_root))) as [P Ey].
    + assert (inj twist_root <> 0) as Hr by exact (@root_a_nonzero _ _ Twist25519).
      assert (inj twist_root * inj twist_root = (1 + 1) * cd) as E by (change cd with (inj d_value); inj_compute).
      apply (f_mul_cancel (inj twist_root * inj twist_root)); [apply f_mul_nonzero; exact Hr|].
      transitivity ((1 + 1) * (cd : F25519)); [field; exact Hr|]. rewrite E. ring.
    + exists P. unfold u_of. rewrite Ey. transitivity (u + 1 - 1); [ring|]. rewrite Em, f_inv_1. ring.
  - set (y := (u - 1) / (u + 1)). assert (1 - y <> 0) as Hy1.
    { intros E. apply H2. transitivity ((1 - y) * (u + 1)); [unfold y; field; exact Hm|]. rewrite E. ring. }
    assert (u = (y + 1) * f_inv (1 - y)) as Eu.
    { apply (f_mul_cancel (1 - y)); [exact Hy1|]. transitivity (y + 1); [unfold y; field; exact Hm|field; exact Hy1]. }
    pose proof (denominator_nonzero y) as Hd. set (w := numerator y / denominator y).
    assert (w * denominator y = numerator y) as Ew by (unfold w; field; exact Hd). clearbody w.
    destruct (decide (chi w = 0 \/ chi w = 1)) as [Hw|Hw].
    + left. destruct (root_exists w Hw) as [x Ex]. destruct (curve_point y x) as [P Ey]; [rewrite Ex; exact Ew|].
      exists P. unfold u_of. rewrite Ey, Eu. ring.
    + right. assert (chi w = - (1)) as Hc by (destruct (chi_cases w) as [[? _]|[?|?]]; [tauto|tauto|assumption]).
      assert (y <> 0) as Hy0.
      { intros E. apply Hw. assert (w = root_a * root_a) as ->.
        { rewrite root_a_square. change ca with (inj (-1)). replace (inj (-1)) with (- (1) : F25519) by inj_compute.
          transitivity (w * denominator y); [unfold denominator; rewrite E; ring|]. rewrite Ew. unfold numerator. rewrite E. ring. }
        apply chi_square. }
      destruct (root_exists (f_inv (1 + 1) * w)) as [x Ex]; [right; rewrite chi_mul, chi_inverse_2, Hc; ring|].
      destruct (twist_point (f_inv y) x) as [P Ey].
      * apply (f_mul_cancel (y * y)); [apply f_mul_nonzero; exact Hy0|]. rewrite Ex.
        transitivity (w * denominator y); [unfold denominator; field; split; assumption|]. rewrite Ew. unfold numerator. field. exact Hy0.
      * exists P. unfold u_of. rewrite Ey, Eu. assert (1 - f_inv y <> 0) as Hi.
        { intros E. apply Hy1. transitivity (- (y * (1 - f_inv y))); [field; exact Hy0|]. rewrite E. ring. }
        apply (f_mul_cancel (1 - y)); [exact Hy1|]. transitivity (y + 1); [field; exact Hy1|].
        transitivity (- (y * (1 - f_inv y)) * (- (1) * ((f_inv y + 1) * f_inv (1 - f_inv y)))); [|f_equal; field; exact Hy0].
        transitivity (y * (f_inv y + 1) * ((1 - f_inv y) * f_inv (1 - f_inv y))); [|ring].
        replace ((1 - f_inv y) * f_inv (1 - f_inv y)) with (1 : F25519); [field; exact Hy0|]. set (v := 1 - f_inv y) in *. clearbody v. field. exact Hi.
Qed.
