(* ===== verification/Generalized.v ===== *)
(** The generalized signatures of curve25519/ed25519/additions/generalized: label sets and
    the buffer in front of the message (gen_labelset.c), commitments, challenges and
    EdDSA (gen_eddsa.c), the verifiable random function (gen_veddsa.c) and both under
    Curve25519 keys (gen_x.c).

    Pointers into a buffer are offsets and a null pointer is [None]; the arguments that the
    callers never leave null are plain bytes.  [fresh n] stands for [n] bytes of memory
    that was allocated and not written.  [None] is a return of -1 (or a failed assertion
    of [hash_to_point], of which there is none: [hash_to_point_is]). *)

From S2P Require Import Prelude Buffers Crypto Limbs Scalar Donna Fe Ge GeScalar Sha512 Xeddsa.

Definition LABELSETMAXLEN : nat := 512.
Definition LABELMAXLEN : nat := 128.
Definition BUFLEN : nat := Z.to_nat 1024.
Definition BLOCKLEN : nat := 128.
Definition POINTLEN : nat := 32.
Definition SCALARLEN : nat := 32.
Definition RANDLEN : nat := 32.
Definition VRFOUTPUTLEN : nat := 32.
Definition MSTART : nat := Z.to_nat 2048.
Definition MSGMAXLEN : Z := 1048576.

(** The encoding of the base point. *)
Definition B_bytes : bytes := u8 0x58 :: repeat (u8 0x66) 31.

(* ------------------------------------------------------------------ *)
(** ** gen_labelset.c *)

(** [for (count=0; count < in_len; count++) { if (bufptr >= bufend) return NULL; *bufptr++ = *in++; }] *)
Fixpoint write_loop (buf : bytes) (bufptr bufend : nat) (in_ : bytes) : bytes * option nat :=
  match in_ with
  | [] => (buf, Some bufptr)
  | b :: in_' =>
      if (bufend <=? bufptr)%nat then (buf, None)
      else write_loop (<[bufptr := b]> buf) (S bufptr) bufend in_'
  end.

Definition buffer_add (buf : bytes) (bufptr : option nat) (bufend : nat) (in_ : option bytes) : bytes * option nat :=
  match bufptr with
  | None => (buf, None)
  | Some p =>
      if (bufend <? p)%nat then (buf, None)
      else if (bufend - p <? length (default [] in_))%nat then (buf, None)
      else write_loop buf p bufend (default [] in_)
  end.

Definition pad_length (n : nat) : nat := ((BLOCKLEN - n `mod` BLOCKLEN) `mod` BLOCKLEN)%nat.

Definition buffer_pad (buf : bytes) (bufstart : nat) (bufptr : option nat) (bufend : nat) : bytes * option nat :=
  match bufptr with
  | None => (buf, None)
  | Some p =>
      if (bufend <=? p)%nat || (p <? bufstart)%nat then (buf, None)
      else
        let pad_len := pad_length (p - bufstart) in
        if (bufend - p <? pad_len)%nat then (buf, None)
        else write_loop buf p bufend (repeat x00 pad_len)
  end.

(** The array and [*labelset_len]; the lengths of the labels are [unsigned char]. *)
Definition labelset_new (labelset : bytes) (labelset_maxlen : nat) (protocol_name customization_label : option bytes) : option (bytes * nat) :=
  let name := default [] protocol_name in
  let label := default [] customization_label in
  let protocol_name_len := (length name `mod` 256)%nat in
  let customization_label_len := (length label `mod` 256)%nat in
  if (LABELSETMAXLEN <? labelset_maxlen)%nat then None
  else if (labelset_maxlen <? 3 + protocol_name_len + customization_label_len)%nat then None
  else if (LABELMAXLEN <? protocol_name_len)%nat then None
  else if (LABELMAXLEN <? customization_label_len)%nat then None
  else
    let labelset := <[0%nat := u8 2]> labelset in
    let labelset := <[1%nat := u8 (Z.of_nat protocol_name_len)]> labelset in
    let '(labelset, bufptr) := buffer_add labelset (Some 2%nat) labelset_maxlen (Some (take protocol_name_len name)) in
    let '(labelset, bufptr) :=
      match bufptr with
      | Some p => if (p <? labelset_maxlen)%nat then (<[p := u8 (Z.of_nat customization_label_len)]> labelset, Some (S p)) else (labelset, Some p)
      | None => (labelset, None)
      end in
    let '(labelset, bufptr) := buffer_add labelset bufptr labelset_maxlen (Some (take customization_label_len label)) in
    match bufptr with
    | Some p => if (p =? 3 + protocol_name_len + customization_label_len)%nat then Some (labelset, p) else None
    | None => None
    end.

(** The array, [*labelset_len] and whether 0 is returned. *)
Definition labelset_add (labelset : bytes) (labelset_len labelset_maxlen : nat) (label : bytes) : bytes * nat * bool :=
  let label_len := (length label `mod` 256)%nat in
  if (LABELSETMAXLEN <? labelset_len)%nat || (LABELSETMAXLEN <? labelset_maxlen)%nat then (labelset, labelset_len, false)
  else if (labelset_maxlen <=? labelset_len)%nat || (labelset_maxlen <? labelset_len + label_len + 1)%nat then (labelset, labelset_len, false)
  else if (labelset_len <? 3)%nat || (labelset_maxlen <? 4)%nat then (labelset, labelset_len, false)
  else if (LABELMAXLEN <? label_len)%nat then (labelset, labelset_len, false)
  else
    let labelset := <[0%nat := u8 (byte_at labelset 0 + 1)]> labelset in
    let labelset := <[labelset_len := u8 (Z.of_nat label_len)]> labelset in
    let '(labelset, bufptr) := buffer_add labelset (Some (labelset_len + 1)%nat) labelset_maxlen (Some (take label_len label)) in
    match bufptr with
    | None => (labelset, labelset_len, false)
    | Some p =>
        if (labelset_maxlen <=? p)%nat then (labelset, labelset_len, false)
        else if negb (p =? labelset_len + 1 + label_len)%nat then (labelset, labelset_len, false)
        else (labelset, (labelset_len + (1 + label_len))%nat, true)
    end.

(** The loop of [labelset_validate], with [n] labels left: the offset after them. *)
Fixpoint labels_end (labelset : bytes) (labelset_len offset n : nat) : option nat :=
  match n with
  | O => Some offset
  | S n' =>
      let label_len := Z.to_nat (byte_at labelset offset) in
      if (LABELMAXLEN <? label_len)%nat then None
      else
        let offset := (offset + (1 + label_len))%nat in
        if (labelset_len <? offset)%nat then None else labels_end labelset labelset_len offset n'
  end.

Definition labelset_validate (labelset : bytes) (labelset_len : nat) : bool :=
  if (labelset_len <? 3)%nat || (LABELSETMAXLEN <? labelset_len)%nat then false
  else
    match labels_end labelset labelset_len 1 (Z.to_nat (byte_at labelset 0)) with
    | Some offset => (offset =? labelset_len)%nat
    | None => false
    end.

Definition labelset_is_empty (labelset_len : nat) : bool := (labelset_len =? 3)%nat.

(* ------------------------------------------------------------------ *)
(** ** Checks *)

Definition ge_p3_add (p q : ge_p3) : ge_p3 := ge_p1p1_to_p3 (ge_add q (ge_p3_to_cached p)).

Definition point_isreduced (p : bytes) : Z := fe_isreduced (mask_byte 31 127 0 (slice 0 32 p)).

Definition sc_isreduced (s : bytes) : Z :=
  if crypto_verify_32 (sc_reduce (slice 0 32 s ++ repeat x00 32)) s =? 0 then 1 else 0.

(* ------------------------------------------------------------------ *)
(** ** gen_eddsa.c *)

(** [extra] and its length: null, or bytes that are not empty. *)
Definition extra_ok (extra : option bytes) (labelset_len : nat) : bool :=
  match extra with
  | None => true
  | Some e => negb (length e =? 0)%nat && negb (labelset_is_empty labelset_len)
  end.

(** Consecutive [buffer_add] calls. *)
Definition buffer_adds (buf : bytes) (bufptr : option nat) (bufend : nat) (ins : list (option bytes)) : bytes * option nat :=
  foldl (fun '(buf, bufptr) in_ => buffer_add buf bufptr bufend in_) (buf, bufptr) ins.

(** [bufptr != bufend || bufptr - bufstart != prefix_len] *)
Definition filled (bufptr : option nat) (bufstart bufend prefix_len : nat) : bool :=
  match bufptr with
  | Some p => (p =? bufend)%nat && (p - bufstart =? prefix_len)%nat
  | None => false
  end.

(** [R_bytes], [r_scalar] and the buffer with its prefix cleared. *)
Definition generalized_commit (labelset : bytes) (labelset_len : nat) (extra : option bytes) (K_bytes k_scalar Z_ : bytes)
    (M_buf : bytes) (M_start M_len : nat) : option (bytes * bytes * bytes) :=
  if negb (labelset_validate labelset labelset_len) then None
  else if negb (extra_ok extra labelset_len) then None
  else
    let prefix_len := (POINTLEN + labelset_len + RANDLEN)%nat in
    let prefix_len := (prefix_len + pad_length prefix_len)%nat in
    let prefix_len := (prefix_len + SCALARLEN)%nat in
    let prefix_len := (prefix_len + pad_length prefix_len)%nat in
    let prefix_len := (prefix_len + (labelset_len + POINTLEN + length (default [] extra)))%nat in
    if (M_start <? prefix_len)%nat then None
    else
      let bufstart := (M_start - prefix_len)%nat in
      let bufend := M_start in
      let '(M_buf, bufptr) := buffer_adds M_buf (Some bufstart) bufend
          [Some B_bytes; Some (take labelset_len labelset); Some (take RANDLEN Z_)] in
      let '(M_buf, bufptr) := buffer_pad M_buf bufstart bufptr bufend in
      let '(M_buf, bufptr) := buffer_add M_buf bufptr bufend (Some (take SCALARLEN k_scalar)) in
      let '(M_buf, bufptr) := buffer_pad M_buf bufstart bufptr bufend in
      let '(M_buf, bufptr) := buffer_adds M_buf bufptr bufend
          [Some (take labelset_len labelset); Some (take POINTLEN K_bytes); extra] in
      if negb (filled bufptr bufstart bufend prefix_len) then None
      else
        let hash := crypto_hash_sha512 (slice bufstart (prefix_len + M_len) M_buf) in
        let hash := sc_reduce hash in
        let R_bytes := ge_p3_tobytes (ge_scalarmult_base hash) in
        let M_buf := take bufstart M_buf ++ zeroize (drop bufstart M_buf) prefix_len in
        Some (R_bytes, take SCALARLEN hash, M_buf).

(** [h_scalar] and the buffer. *)
Definition generalized_challenge (labelset : bytes) (labelset_len : nat) (extra : option bytes) (R_bytes K_bytes : bytes)
    (M_buf : bytes) (M_start M_len : nat) : option (bytes * bytes) :=
  if negb (labelset_validate labelset labelset_len) then None
  else if negb (extra_ok extra labelset_len) then None
  else
    let hashed M_buf prefix_len :=
      Some (take SCALARLEN (sc_reduce (crypto_hash_sha512 (slice (M_start - prefix_len) (prefix_len + M_len) M_buf))), M_buf) in
    if labelset_is_empty labelset_len then
      if (M_start <? 2 * POINTLEN)%nat then None
      else
        let M_buf := (write_loop M_buf (M_start - 2 * POINTLEN) M_start (take POINTLEN R_bytes)).1 in
        let M_buf := (write_loop M_buf (M_start - 1 * POINTLEN) M_start (take POINTLEN K_bytes)).1 in
        hashed M_buf (2 * POINTLEN)%nat
    else
      let prefix_len := (3 * POINTLEN + 2 * labelset_len + length (default [] extra))%nat in
      if (M_start <? prefix_len)%nat then None
      else
        let bufstart := (M_start - prefix_len)%nat in
        let bufend := M_start in
        let '(M_buf, bufptr) := buffer_adds M_buf (Some bufstart) bufend
            [Some B_bytes; Some (take labelset_len labelset); Some (take POINTLEN R_bytes);
             Some (take labelset_len labelset); Some (take POINTLEN K_bytes); extra] in
        if negb (filled bufptr bufstart bufend prefix_len) then None
        else hashed M_buf prefix_len.

Definition generalized_prove (r_scalar k_scalar h_scalar : bytes) : bytes := sc_muladd h_scalar k_scalar r_scalar.

(** [R_bytes_out] and [K_point_out]. *)
Definition generalized_solve_commitment (B_point : option ge_p3) (s_scalar K_bytes h_scalar : bytes) : option (bytes * ge_p3) :=
  Kneg_point ← ge_frombytes_negate_vartime K_bytes;
  let R_bytes_out :=
    match B_point with
    | None => ge_tobytes (ge_double_scalarmult_vartime h_scalar Kneg_point s_scalar)
    | Some B_point =>
        let sB := ge_scalarmult s_scalar B_point in
        let hK := ge_scalarmult h_scalar Kneg_point in
        ge_p3_tobytes (ge_p3_add sB hK)
    end in
  Some (R_bytes_out, ge_neg Kneg_point).

(** The checks of the arguments that all four functions share, with [msg] copied behind
    [MSTART] bytes. *)
Definition message_buffer (fresh : nat -> bytes) (msg : bytes) (customization_label : option bytes) : option bytes :=
  if (LABELMAXLEN <? length (default [] customization_label))%nat then None
  else if MSGMAXLEN <? Z.of_nat (length msg) then None
  else Some (fresh MSTART ++ msg).

Definition generalized_eddsa_25519_sign (fresh : nat -> bytes) (eddsa_25519_pubkey_bytes eddsa_25519_privkey_scalar msg random : bytes)
    (customization_label : option bytes) : option bytes :=
  M_buf ← message_buffer fresh msg customization_label;
  '(labelset, labelset_len) ← labelset_new (fresh LABELSETMAXLEN) LABELSETMAXLEN None customization_label;
  '(R_bytes, r_scalar, M_buf) ← generalized_commit labelset labelset_len None
      eddsa_25519_pubkey_bytes eddsa_25519_privkey_scalar random M_buf MSTART (length msg);
  '(h_scalar, M_buf) ← generalized_challenge labelset labelset_len None R_bytes eddsa_25519_pubkey_bytes M_buf MSTART (length msg);
  let s_scalar := generalized_prove r_scalar eddsa_25519_privkey_scalar h_scalar in
  Some (R_bytes ++ s_scalar).

Definition generalized_eddsa_25519_verify (fresh : nat -> bytes) (signature eddsa_25519_pubkey_bytes msg : bytes)
    (customization_label : option bytes) : Z :=
  let verified :=
    M_buf ← message_buffer fresh msg customization_label;
    '(labelset, labelset_len) ← labelset_new (fresh LABELSETMAXLEN) LABELSETMAXLEN None customization_label;
    let R_bytes := slice 0 POINTLEN signature in
    let s_scalar := slice POINTLEN SCALARLEN signature in
    if point_isreduced eddsa_25519_pubkey_bytes =? 0 then None
    else if point_isreduced R_bytes =? 0 then None
    else if sc_isreduced s_scalar =? 0 then None
    else
      '(h_scalar, M_buf) ← generalized_challenge labelset labelset_len None R_bytes eddsa_25519_pubkey_bytes M_buf MSTART (length msg);
      '(R_calc_bytes, _) ← generalized_solve_commitment None s_scalar eddsa_25519_pubkey_bytes h_scalar;
      if crypto_verify_32 R_bytes R_calc_bytes =? 0 then Some () else None in
  match verified with Some _ => 0 | None => -1 end.

(* ------------------------------------------------------------------ *)
(** ** gen_veddsa.c *)

(** "VEdDSA_25519_SHA512_Elligator2" *)
Definition protocol_name : bytes := map u8
  [86; 69; 100; 68; 83; 65; 95; 50; 53; 53; 49; 57; 95; 83; 72; 65; 53; 49; 50; 95; 69; 108; 108; 105; 103; 97; 116; 111; 114; 50].

(** [Bv_point] and the buffer. *)
Definition generalized_calculate_Bv (labelset : bytes) (labelset_len : nat) (K_bytes M_buf : bytes) (M_start M_len : nat) : option (ge_p3 * bytes) :=
  if negb (labelset_validate labelset labelset_len) then None
  else
    let prefix_len := (2 * POINTLEN + labelset_len)%nat in
    if (M_start <? prefix_len)%nat then None
    else
      let bufptr := (M_start - prefix_len)%nat in
      let '(M_buf, bufptr) := buffer_adds M_buf (Some bufptr) M_start
          [Some B_bytes; Some (take labelset_len labelset); Some (take POINTLEN K_bytes)] in
      if negb (bool_decide (bufptr = Some M_start)) then None
      else
        Bv_point ← hash_to_point (slice (M_start - prefix_len) (prefix_len + M_len) M_buf);
        if negb (ge_isneutral Bv_point =? 0) then None else Some (Bv_point, M_buf).

Definition generalized_calculate_vrf_output (fresh : nat -> bytes) (labelset : bytes) (labelset_len : nat) (cKv_point : ge_p3) : option bytes :=
  if (BUFLEN <? labelset_len + 2 * POINTLEN)%nat then None
  else if negb (labelset_validate labelset labelset_len) then None
  else
    let cKv_bytes := ge_p3_tobytes cKv_point in
    let '(buf, bufptr) := buffer_adds (fresh BUFLEN) (Some 0%nat) BUFLEN
        [Some B_bytes; Some (take labelset_len labelset); Some (take POINTLEN cKv_bytes)] in
    match bufptr with
    | None => None
    | Some p =>
        if (BUFLEN <? p)%nat then None
        else Some (take VRFOUTPUTLEN (crypto_hash_sha512 (take p buf)))
    end.

(** [labelset[labelset_len-1] = c;] *)
Definition set_last (labelset : bytes) (labelset_len : nat) (c : Z) : bytes := <[(labelset_len - 1)%nat := u8 c]> labelset.

Definition generalized_veddsa_25519_sign (fresh : nat -> bytes) (eddsa_25519_pubkey_bytes eddsa_25519_privkey_scalar msg random : bytes)
    (customization_label : option bytes) : option bytes :=
  M_buf ← message_buffer fresh msg customization_label;
  '(labelset, labelset_len) ← labelset_new (fresh LABELSETMAXLEN) LABELSETMAXLEN (Some protocol_name) customization_label;
  let '(labelset, labelset_len, _) := labelset_add labelset labelset_len LABELSETMAXLEN [u8 49] in
  '(Bv_point, M_buf) ← generalized_calculate_Bv labelset labelset_len eddsa_25519_pubkey_bytes M_buf MSTART (length msg);
  let Kv_point := ge_scalarmult eddsa_25519_privkey_scalar Bv_point in
  let Bv_bytes := ge_p3_tobytes Bv_point in
  let Kv_bytes := ge_p3_tobytes Kv_point in
  let labelset := set_last labelset labelset_len 50 in
  '(R_bytes, r_scalar, M_buf) ← generalized_commit labelset labelset_len (Some (Bv_bytes ++ Kv_bytes))
      eddsa_25519_pubkey_bytes eddsa_25519_privkey_scalar random M_buf MSTART (length msg);
  let Rv_point := ge_scalarmult r_scalar Bv_point in
  let Rv_bytes := ge_p3_tobytes Rv_point in
  let labelset := set_last labelset labelset_len 51 in
  '(h_scalar, M_buf) ← generalized_challenge labelset labelset_len (Some (Bv_bytes ++ Kv_bytes ++ Rv_bytes))
      R_bytes eddsa_25519_pubkey_bytes M_buf MSTART (length msg);
  let s_scalar := generalized_prove r_scalar eddsa_25519_privkey_scalar h_scalar in
  Some (Kv_bytes ++ h_scalar ++ s_scalar).

(** [vrf_out]. *)
Definition generalized_veddsa_25519_verify (fresh : nat -> bytes) (signature eddsa_25519_pubkey_bytes msg : bytes)
    (customization_label : option bytes) : option bytes :=
  M_buf ← message_buffer fresh msg customization_label;
  let Kv_bytes := slice 0 POINTLEN signature in
  let h_scalar := slice POINTLEN SCALARLEN signature in
  let s_scalar := slice (POINTLEN + SCALARLEN) SCALARLEN signature in
  if point_isreduced eddsa_25519_pubkey_bytes =? 0 then None
  else if point_isreduced Kv_bytes =? 0 then None
  else if sc_isreduced h_scalar =? 0 then None
  else if sc_isreduced s_scalar =? 0 then None
  else
    '(labelset, labelset_len) ← labelset_new (fresh LABELSETMAXLEN) LABELSETMAXLEN (Some protocol_name) customization_label;
    let '(labelset, labelset_len, _) := labelset_add labelset labelset_len LABELSETMAXLEN [u8 49] in
    '(Bv_point, M_buf) ← generalized_calculate_Bv labelset labelset_len eddsa_25519_pubkey_bytes M_buf MSTART (length msg);
    let Bv_bytes := ge_p3_tobytes Bv_point in
    '(R_calc_bytes, K_point) ← generalized_solve_commitment None s_scalar eddsa_25519_pubkey_bytes h_scalar;
    '(Rv_calc_bytes, Kv_point) ← generalized_solve_commitment (Some Bv_point) s_scalar Kv_bytes h_scalar;
    let cK_point := ge_scalarmult_cofactor K_point in
    let cKv_point := ge_scalarmult_cofactor Kv_point in
    if negb (ge_isneutral cK_point =? 0) || negb (ge_isneutral cKv_point =? 0) || negb (ge_isneutral Bv_point =? 0) then None
    else
      let labelset := set_last labelset labelset_len 51 in
      '(h_calc_scalar, M_buf) ← generalized_challenge labelset labelset_len (Some (Bv_bytes ++ Kv_bytes ++ Rv_calc_bytes))
          R_calc_bytes eddsa_25519_pubkey_bytes M_buf MSTART (length msg);
      if negb (crypto_verify_32 h_scalar h_calc_scalar =? 0) then None
      else
        let labelset := set_last labelset labelset_len 52 in
        generalized_calculate_vrf_output fresh labelset labelset_len cKv_point.

(* ------------------------------------------------------------------ *)
(** ** gen_x.c *)

Definition convert_25519_pubkey (x25519_pubkey_bytes : bytes) : option bytes :=
  if fe_isreduced x25519_pubkey_bytes =? 0 then None
  else
    let u := fe_frombytes x25519_pubkey_bytes in
    let y := fe_montx_to_edy u in
    Some (fe_tobytes y).

(** [K_bytes] and [k_scalar]. *)
Definition calculate_25519_keypair (x25519_privkey_scalar : bytes) : bytes * bytes :=
  let ed_pubkey_point := ge_scalarmult_base x25519_privkey_scalar in
  let K_bytes := ge_p3_tobytes ed_pubkey_point in
  let sign_bit := Z.shiftr (Z.land (byte_at K_bytes 31) 128) 7 in
  let k_scalar := slice 0 32 x25519_privkey_scalar in
  let kneg := sc_neg k_scalar in
  let k_scalar := sc_cmov k_scalar kneg sign_bit in
  let K_bytes := mask_byte 31 127 0 K_bytes in
  (K_bytes, k_scalar).

Definition generalized_xeddsa_25519_sign (fresh : nat -> bytes) (x25519_privkey_scalar msg random : bytes)
    (customization_label : option bytes) : option bytes :=
  let '(K_bytes, k_scalar) := calculate_25519_keypair x25519_privkey_scalar in
  generalized_eddsa_25519_sign fresh K_bytes k_scalar msg random customization_label.

Definition generalized_xveddsa_25519_sign (fresh : nat -> bytes) (x25519_privkey_scalar msg random : bytes)
    (customization_label : option bytes) : option bytes :=
  let '(K_bytes, k_scalar) := calculate_25519_keypair x25519_privkey_scalar in
  generalized_veddsa_25519_sign fresh K_bytes k_scalar msg random customization_label.

Definition generalized_xeddsa_25519_verify (fresh : nat -> bytes) (signature x25519_pubkey_bytes msg : bytes)
    (customization_label : option bytes) : Z :=
  match convert_25519_pubkey x25519_pubkey_bytes with
  | None => -1
  | Some K_bytes => generalized_eddsa_25519_verify fresh signature K_bytes msg customization_label
  end.

Definition generalized_xveddsa_25519_verify (fresh : nat -> bytes) (signature x25519_pubkey_bytes msg : bytes)
    (customization_label : option bytes) : option bytes :=
  K_bytes ← convert_25519_pubkey x25519_pubkey_bytes;
  generalized_veddsa_25519_verify fresh signature K_bytes msg customization_label.
