(* ===== verification/GeneralizedBuffers.v ===== *)
(** What the label sets and the buffer in front of the message hold: the array operations of
    gen_labelset.c write the concatenation of their arguments, whatever the memory held
    before. *)

From S2P Require Import Prelude Buffers Crypto Limbs Scalar Donna DonnaBytes Fe Ge GeScalar Sha512 Xeddsa Generalized.

(* ------------------------------------------------------------------ *)
(** ** Writing at an offset *)

Lemma write_loop_spec (a s r : bytes) e : (length a + length s <= e)%nat -> (length s <= length r)%nat ->
  write_loop (a ++ r) (length a) e s = (a ++ s ++ drop (length s) r, Some (length a + length s)%nat).
Proof.
  revert a r. induction s as [|b s IH]; intros a r He Hr; cbn [write_loop length app] in *.
  { by rewrite drop_0, Nat.add_0_r. }
  destruct r as [|c r]; cbn [length] in Hr; [lia|]. rewrite (proj2 (Nat.leb_gt _ _)) by lia.
  assert (<[length a := b]> (a ++ c :: r) = (a ++ [b]) ++ r) as ->.
  { rewrite <- (Nat.add_0_r (length a)), insert_app_r, <- app_assoc. done. }
  replace (S (length a)) with (length (a ++ [b])) by (rewrite length_app; cbn; lia).
  rewrite IH by (rewrite ?length_app; cbn [length]; lia). rewrite <- app_assoc, length_app. cbn [app length drop]. do 2 f_equal. lia.
Qed.

Lemma buffer_add_spec (a r : bytes) e (i : option bytes) : let s := default [] i in
  (length a + length s <= e)%nat -> (length s <= length r)%nat ->
  buffer_add (a ++ r) (Some (length a)) e i = (a ++ s ++ drop (length s) r, Some (length a + length s)%nat).
Proof.
  intros s He Hr. unfold buffer_add. fold s. rewrite !(proj2 (Nat.ltb_ge _ _)) by lia. by apply write_loop_spec.
Qed.

Lemma buffer_add_some (a r s : bytes) e : (length a + length s <= e)%nat -> (length s <= length r)%nat ->
  buffer_add (a ++ r) (Some (length a)) e (Some s) = (a ++ s ++ drop (length s) r, Some (length a + length s)%nat).
Proof. exact (buffer_add_spec a r e (Some s)). Qed.

Definition contents (ins : list (option bytes)) : bytes := concat (map (default []) ins).

Lemma buffer_adds_spec ins (a r : bytes) e : (length a + length (contents ins) <= e)%nat -> (length (contents ins) <= length r)%nat ->
  buffer_adds (a ++ r) (Some (length a)) e ins =
    (a ++ contents ins ++ drop (length (contents ins)) r, Some (length a + length (contents ins))%nat).
Proof.
  revert a r. induction ins as [|i ins IH]; intros a r He Hr; unfold contents in *; cbn [map concat] in *.
  { cbn [app length drop]. unfold buffer_adds. cbn. by rewrite drop_0, Nat.add_0_r. }
  rewrite length_app in He, Hr. unfold buffer_adds. cbn [foldl]. rewrite buffer_add_spec by lia. set (s := default [] i) in *.
  rewrite app_assoc. replace (length a + length s)%nat with (length (a ++ s)) by apply length_app.
  fold (buffer_adds ((a ++ s) ++ drop (length s) r) (Some (length (a ++ s))) e ins).
  rewrite IH by (rewrite ?length_app, ?length_drop; lia). rewrite <- !app_assoc, drop_drop, !length_app. do 2 f_equal. lia.
Qed.

Lemma buffer_pad_spec (p w r : bytes) e : let n := pad_length (length w) in
  (length p + length w < e)%nat -> (length p + length w + n <= e)%nat -> (n <= length r)%nat ->
  buffer_pad ((p ++ w) ++ r) (length p) (Some (length (p ++ w))) e =
    ((p ++ w) ++ repeat x00 n ++ drop n r, Some (length (p ++ w) + n)%nat).
Proof.
  intros n He Hn Hr. unfold buffer_pad. rewrite (proj2 (Nat.leb_gt _ _)) by (rewrite length_app; lia).
  rewrite (proj2 (Nat.ltb_ge (length (p ++ w)) _)) by (rewrite length_app; lia). cbn [orb]. cbv zeta.
  replace (length (p ++ w) - length p)%nat with (length w) by (rewrite length_app; lia). fold n.
  rewrite (proj2 (Nat.ltb_ge _ _)) by (rewrite length_app; lia).
  rewrite write_loop_spec by (rewrite ?length_app, ?repeat_length; lia). by rewrite repeat_length.
Qed.

(* ------------------------------------------------------------------ *)
(** ** Label sets *)

Definition label_bytes (l : bytes) : bytes := u8 (Z.of_nat (length l)) :: l.
Definition labels (ls : list bytes) : bytes := u8 (Z.of_nat (length ls)) :: concat (map label_bytes ls).

(** The array holds the labels [ls] in its first [len] bytes. *)
Definition holds_labels (arr : bytes) (len : nat) (ls : list bytes) : Prop :=
  length arr = LABELSETMAXLEN /\ (3 <= len <= LABELSETMAXLEN)%nat /\ take len arr = labels ls /\
  (length ls < 256)%nat /\ Forall (fun l : bytes => (length l <= LABELMAXLEN)%nat) ls.

Lemma holds_labels_length arr len ls : holds_labels arr len ls -> length (labels ls) = len.
Proof. intros (Ha & Hl & E & _). rewrite <- E, length_take. lia. Qed.

Lemma byte_val_length n : (n < 256)%nat -> Z.to_nat (byte_val (u8 (Z.of_nat n))) = n.
Proof. intros Hn. rewrite byte_val_u8, Z.mod_small by lia. lia. Qed.

Lemma byte_at_take (s : bytes) n i : (i < n)%nat -> byte_at (take n s) i = byte_at s i.
Proof.
  intros Hi. unfold byte_at. destruct (decide (i < length s)%nat).
  - f_equal. rewrite <- (take_drop n s) at 2. rewrite app_nth1 by (rewrite length_take; lia). done.
  - rewrite !nth_overflow by (rewrite ?length_take; lia). done.
Qed.

Lemma labels_end_spec arr len ls pre : take len arr = pre ++ concat (map label_bytes ls) -> (len <= length arr)%nat ->
  Forall (fun l : bytes => (length l <= LABELMAXLEN)%nat) ls -> labels_end arr len (length pre) (length ls) = Some len.
Proof.
  revert pre. induction ls as [|l ls IH]; intros pre E Hl Hf; cbn [labels_end length map concat] in *.
  { f_equal. rewrite app_nil_r in E. rewrite <- E, length_take. lia. }
  apply Forall_cons in Hf as [Hl1 Hf].
  assert (length pre + length (concat (map label_bytes (l :: ls))) = len)%nat as Hlen by (rewrite <- length_app; cbn [map concat]; rewrite <- E, length_take; lia).
  cbn [map concat label_bytes app length] in Hlen. rewrite length_app in Hlen.
  assert (byte_at arr (length pre) = byte_val (u8 (Z.of_nat (length l)))) as ->.
  { rewrite <- (byte_at_take arr len) by lia. rewrite E. unfold byte_at. rewrite app_nth2, Nat.sub_diag by lia. done. }
  unfold LABELMAXLEN in *. rewrite byte_val_length by lia. rewrite !(proj2 (Nat.ltb_ge _ _)) by lia.
  replace (length pre + (1 + length l))%nat with (length (pre ++ label_bytes l)) by (rewrite length_app; cbn; lia).
  apply IH; [|done..]. by rewrite <- app_assoc.
Qed.

Lemma labelset_validate_spec arr len ls : holds_labels arr len ls -> labelset_validate arr len = true.
Proof.
  intros (Ha & Hl & E & Hn & Hf). unfold labelset_validate. rewrite !(proj2 (Nat.ltb_ge _ _)) by lia. cbn [orb].
  assert (byte_at arr 0 = byte_val (u8 (Z.of_nat (length ls)))) as ->.
  { rewrite <- (byte_at_take arr len) by lia. by rewrite E. }
  rewrite byte_val_length by lia. pose proof (labels_end_spec arr len ls [u8 (Z.of_nat (length ls))] E ltac:(lia) Hf) as H. cbn [length] in H. rewrite H.
  apply Nat.eqb_refl.
Qed.

Lemma two_writes (a b : byte) (arr : bytes) : (2 <= length arr)%nat -> <[1%nat := b]> (<[0%nat := a]> arr) = [a; b] ++ drop 2 arr.
Proof. destruct arr as [|x [|y arr]]; cbn; [lia..|]. by rewrite drop_0. Qed.

Lemma labelset_new_spec arr (name label : bytes) (pn cl : option bytes) : length arr = LABELSETMAXLEN ->
  default [] pn = name -> default [] cl = label -> (length name <= LABELMAXLEN)%nat -> (length label <= LABELMAXLEN)%nat ->
  exists arr' len, labelset_new arr LABELSETMAXLEN pn cl = Some (arr', len) /\ holds_labels arr' len [name; label] /\
    len = (3 + length name + length label)%nat.
Proof.
  intros Ha En El Hn Hc. unfold LABELMAXLEN, LABELSETMAXLEN in *. unfold labelset_new. cbv zeta. rewrite En, El.
  rewrite !(Nat.mod_small _ 256) by lia. unfold LABELSETMAXLEN, LABELMAXLEN. rewrite !(proj2 (Nat.ltb_ge _ _)) by lia.
  rewrite !firstn_all. rewrite two_writes by lia.
  pose proof (buffer_add_some [u8 2; u8 (Z.of_nat (length name))] (drop 2 arr) name 512) as E1. cbn [length] in E1.
  rewrite E1 by (rewrite ?length_drop; lia). clear E1. rewrite (proj2 (Nat.ltb_lt _ _)) by lia.
  set (w := [u8 2; u8 (Z.of_nat (length name))] ++ name). rewrite drop_drop, app_assoc. fold w.
  assert (length w = (2 + length name)%nat) as Hw by (unfold w; rewrite length_app; done).
  assert (<[(2 + length name)%nat := u8 (Z.of_nat (length label))]> (w ++ drop (2 + length name) arr) =
    (w ++ [u8 (Z.of_nat (length label))]) ++ drop (3 + length name) arr) as ->.
  { rewrite <- Hw. rewrite <- (Nat.add_0_r (length w)) at 1. rewrite insert_app_r, <- app_assoc, Hw. f_equal.
    destruct (drop (2 + length name) arr) as [|x r] eqn:E; [apply (f_equal length) in E; rewrite length_drop in E; cbn in E; lia|].
    cbn [insert list_insert app]. f_equal. replace (3 + length name)%nat with (2 + length name + 1)%nat by lia. by rewrite <- drop_drop, E. }
  replace (S (2 + length name)) with (length (w ++ [u8 (Z.of_nat (length label))])) by (rewrite length_app, Hw; cbn; lia).
  set (w' := w ++ [u8 (Z.of_nat (length label))]). assert (length w' = (3 + length name)%nat) as Hw' by (unfold w'; rewrite length_app, Hw; cbn; lia).
  rewrite buffer_add_some by (rewrite ?length_drop; lia). rewrite Hw'. rewrite Nat.eqb_refl. eexists _, _. split; [done|]. split; [|done].
  unfold holds_labels, LABELSETMAXLEN, LABELMAXLEN. rewrite !length_app, !length_drop, Hw'. split; [lia|]. split; [lia|]. split; [|split; [cbn; lia|]].
  2: { constructor; [done|]. constructor; [done|constructor]. }
  rewrite app_assoc, take_app_length' by (rewrite length_app, Hw'; done). unfold w', w, labels, label_bytes. cbn [map concat length app].
  by rewrite app_nil_r, <- !app_assoc.
Qed.

(** Appending a label of one character. *)
Lemma labelset_add_spec arr len ls c : holds_labels arr len ls -> (len + 2 < LABELSETMAXLEN)%nat -> (length ls < 255)%nat ->
  exists arr', labelset_add arr len LABELSETMAXLEN [c] = (arr', (len + 2)%nat, true) /\ holds_labels arr' (len + 2) (ls ++ [[c]]).
Proof.
  intros (Ha & Hl & E & Hn & Hf) Hlen Hls. unfold LABELSETMAXLEN, LABELMAXLEN in *. unfold labelset_add. cbn [length]. change (1 `mod` 256)%nat with 1%nat. cbv zeta.
  unfold LABELSETMAXLEN, LABELMAXLEN. rewrite !(proj2 (Nat.ltb_ge _ _)) by lia. rewrite (proj2 (Nat.leb_gt _ _)) by lia. cbn [orb take].
  set (r := drop len arr). assert (arr = labels ls ++ r) as Ea by (unfold r; by rewrite <- E, take_drop).
  assert (length (labels ls) = len) as Hll by (rewrite <- E, length_take; lia). assert (length r = (512 - len)%nat) as Hr by (unfold r; rewrite length_drop; lia).
  assert (byte_at arr 0 = Z.of_nat (length ls)) as ->.
  { rewrite Ea. unfold byte_at, labels. cbn [app nth]. rewrite byte_val_u8, Z.mod_small by lia. done. }
  change (Z.of_nat 1) with 1. set (h := u8 (Z.of_nat (length ls) + 1)). set (body := concat (map label_bytes ls)).
  assert (length body = (len - 1)%nat) as Hb by (unfold labels in Hll; cbn [length] in Hll; fold body in Hll; lia).
  assert (<[len := u8 1]> (<[0%nat := h]> arr) = (h :: body ++ [u8 1]) ++ drop 1 r) as ->.
  { assert (<[0%nat := h]> arr = (h :: body) ++ r) as -> by (by rewrite Ea).
    replace len with (length (h :: body) + 0)%nat by (cbn [length]; lia). rewrite insert_app_r.
    destruct r as [|x r']; [cbn in Hr; lia|]. cbn. rewrite drop_0, <- app_assoc. done. }
  replace (len + 1)%nat with (length (h :: body ++ [u8 1])) by (cbn [length]; rewrite length_app; cbn; lia).
  rewrite (buffer_add_some (h :: body ++ [u8 1]) (drop 1 r) [c]) by (cbn [length]; rewrite ?length_drop, ?length_app; cbn; lia).
  cbn [length]. rewrite !length_app. cbn [length]. rewrite Hb. rewrite (proj2 (Nat.leb_gt _ _)) by lia.
  replace (S (len - 1 + 1) + 1)%nat with (len + 2)%nat by lia. replace (S (len - 1 + 1)) with (len + 1)%nat by lia.
  replace (len + 1 + 1)%nat with (len + 2)%nat by lia. rewrite Nat.eqb_refl. cbn [negb]. eexists. split; [done|].
  unfold holds_labels, LABELSETMAXLEN, LABELMAXLEN. rewrite !length_app. cbn [length]. rewrite !length_drop, !length_app. cbn [length].
  split; [lia|]. split; [lia|]. split; [|split; [lia|apply Forall_app; split; [done|repeat constructor; cbn; lia]]].
  rewrite app_assoc, take_app_length' by (rewrite !length_app; cbn [length]; rewrite length_app; cbn; lia).
  unfold labels, h. rewrite length_app, map_app, concat_app. cbn [length map concat label_bytes app]. fold body. rewrite <- !app_assoc. cbn [app].
  f_equal. f_equal. lia.
Qed.

Lemma set_last_spec arr len ls c d : holds_labels arr len (ls ++ [[c]]) -> holds_labels (set_last arr len d) len (ls ++ [[u8 d]]).
Proof.
  intros (Ha & Hl & E & Hn & Hf). rewrite length_app in Hn. cbn [length] in Hn. unfold holds_labels, set_last.
  split; [by rewrite length_insert|]. split; [done|]. split; [|split; [rewrite length_app; cbn [length]; lia|]].
  2: { apply Forall_app in Hf as [Hf _]. apply Forall_app. split; [done|]. constructor; [unfold LABELMAXLEN; cbn [length]; lia|constructor]. }
  set (r := drop len arr). assert (arr = labels (ls ++ [[c]]) ++ r) as Ea by (unfold r; by rewrite <- E, take_drop).
  assert (length (labels (ls ++ [[c]])) = len) as Hll by (rewrite <- E, length_take; lia).
  assert (forall x, labels (ls ++ [[x]]) = (u8 (Z.of_nat (length (ls ++ [[x]]))) :: concat (map label_bytes ls) ++ [u8 1]) ++ [x]) as Hlab.
  { intros x. unfold labels. rewrite map_app, concat_app. cbn [map concat label_bytes length app]. rewrite <- !app_assoc. done. }
  rewrite Ea, !Hlab, !length_app in *. cbn [length] in *. rewrite !length_app in *. cbn [length] in *.
  set (w := u8 (Z.of_nat (length ls + 1)) :: concat (map label_bytes ls) ++ [u8 1]) in *.
  assert (length w = (len - 1)%nat) as Hw by (unfold w; cbn [length]; rewrite length_app; cbn [length]; lia).
  rewrite <- app_assoc. rewrite <- Hw, <- (Nat.add_0_r (length w)) at 1. rewrite insert_app_r. cbn [app insert list_insert].
  rewrite (app_assoc w [u8 d] r : w ++ u8 d :: r = (w ++ [u8 d]) ++ r). rewrite take_app_length'; [done|]. rewrite length_app. cbn [length]. lia.
Qed.

(* ------------------------------------------------------------------ *)
(** ** The prefix of the message *)

Lemma slice_middle_all (p w m : bytes) n : n = (length w + length m)%nat -> slice (length p) n (p ++ w ++ m) = w ++ m.
Proof. intros ->. unfold slice. rewrite drop_app_length. apply firstn_all2. rewrite length_app. lia. Qed.

(** A buffer with [start] bytes in front of the message [msg]. *)
Definition holds_message (buf : bytes) (start : nat) (msg : bytes) : Prop :=
  length buf = (start + length msg)%nat /\ drop start buf = msg.

Lemma holds_message_split buf start msg n : holds_message buf start msg -> (n <= start)%nat ->
  exists p old, buf = p ++ old ++ msg /\ length p = (start - n)%nat /\ length old = n.
Proof.
  intros [Hl Hd] Hn. exists (take (start - n) buf), (drop (start - n) (take start buf)).
  rewrite length_drop, !length_take. split; [|lia]. rewrite <- (take_drop start buf) at 1. rewrite Hd, app_assoc. f_equal.
  rewrite <- (take_drop (start - n) (take start buf)) at 1. rewrite take_take. do 2 f_equal. lia.
Qed.

Lemma holds_message_app p w msg start : (length p + length w)%nat = start -> holds_message (p ++ w ++ msg) start msg.
Proof. intros <-. split; [rewrite !length_app; lia|]. by rewrite app_assoc, drop_app_length' by (by rewrite length_app). Qed.

(** What is hashed for a challenge. *)
Definition challenge_prefix (ls extra R K : bytes) : bytes :=
  if (length ls =? 3)%nat then R ++ K else B_bytes ++ ls ++ R ++ ls ++ K ++ extra.

(** The same, behind what was written since [length p]. *)
Lemma adds_at (p w r : bytes) e ins c : contents ins = c -> (length p + length w + length c <= e)%nat -> (length c <= length r)%nat ->
  buffer_adds ((p ++ w) ++ r) (Some (length (p ++ w))) e ins = ((p ++ w ++ c) ++ drop (length c) r, Some (length (p ++ w ++ c))).
Proof. intros <- He Hr. rewrite buffer_adds_spec by (rewrite ?length_app; lia). by rewrite !app_assoc, !(length_app (p ++ w)). Qed.

Lemma add_at (p w r : bytes) e s : (length p + length w + length s <= e)%nat -> (length s <= length r)%nat ->
  buffer_add ((p ++ w) ++ r) (Some (length (p ++ w))) e (Some s) = ((p ++ w ++ s) ++ drop (length s) r, Some (length (p ++ w ++ s))).
Proof. intros He Hr. rewrite buffer_add_some by (rewrite ?length_app; lia). by rewrite !app_assoc, !(length_app (p ++ w)). Qed.

Lemma pad_at (p w r : bytes) e : let n := pad_length (length w) in (length p + length w < e)%nat -> (length p + length w + n <= e)%nat -> (n <= length r)%nat ->
  buffer_pad ((p ++ w) ++ r) (length p) (Some (length (p ++ w))) e = ((p ++ w ++ repeat x00 n) ++ drop n r, Some (length (p ++ w ++ repeat x00 n))).
Proof. intros n H1 H2 H3. rewrite buffer_pad_spec by done. fold n. by rewrite !app_assoc, !(length_app (p ++ w)), repeat_length. Qed.

Lemma contents_3 (a b c : bytes) : contents [Some a; Some b; Some c] = a ++ b ++ c.
Proof. unfold contents. cbn [map concat]. by rewrite app_nil_r. Qed.

(** What is hashed for a commitment. *)
Definition commit_prefix (ls Z_ k K extra : bytes) : bytes :=
  let w := B_bytes ++ ls ++ take RANDLEN Z_ in
  let w := (w ++ repeat x00 (pad_length (length w))) ++ k in
  (w ++ repeat x00 (pad_length (length w))) ++ ls ++ K ++ extra.

Lemma pad_length_bound n : (pad_length n < 128)%nat.
Proof. unfold pad_length, BLOCKLEN. apply Nat.mod_upper_bound. lia. Qed.

Section prefix.
Context (arr : bytes) (len : nat) (ls : list bytes) (Hls : holds_labels arr len ls).
Context (M_buf msg : bytes) (M_start : nat) (Hbuf : holds_message M_buf M_start msg).

Lemma labels_taken : take len arr = labels ls.
Proof using Hls. apply Hls. Qed.

Lemma B_bytes_length : length B_bytes = 32%nat.
Proof. done. Qed.

Lemma filled_true (p w : bytes) n : length w = n -> (length p = M_start - n)%nat -> (n <= M_start)%nat ->
  filled (Some (length p + length w)%nat) (M_start - n) M_start n = true.
Proof. intros <- Hp Hn. unfold filled. rewrite Hp. apply andb_true_iff. split; apply Nat.eqb_eq; lia. Qed.

Lemma filled_at (p w : bytes) n : length w = n -> (length p = M_start - n)%nat -> (n <= M_start)%nat ->
  filled (Some (length (p ++ w))) (length p) M_start n = true.
Proof. intros Hw Hp Hn. rewrite length_app. rewrite Hp at 2. by apply filled_true. Qed.

Lemma generalized_challenge_spec extra R K : extra_ok extra len = true -> length R = 32%nat -> length K = 32%nat ->
  (96 + 2 * len + length (default [] extra) <= M_start)%nat ->
  exists M_buf', holds_message M_buf' M_start msg /\
    generalized_challenge arr len extra R K M_buf M_start (length msg) =
      Some (take SCALARLEN (sc_reduce (crypto_hash_sha512 (challenge_prefix (labels ls) (default [] extra) R K ++ msg))), M_buf').
Proof using Hls Hbuf.
  intros Hx HR HK Hs. pose proof (holds_labels_length _ _ _ Hls) as Hll. unfold generalized_challenge, challenge_prefix.
  rewrite (labelset_validate_spec _ _ _ Hls), Hx, Hll. cbn [negb]. unfold labelset_is_empty. cbv zeta. unfold POINTLEN.
  rewrite (take_ge R 32), (take_ge K 32) by lia. destruct (len =? 3)%nat.
  - rewrite (proj2 (Nat.ltb_ge _ _)) by lia. destruct (holds_message_split _ _ _ 64 Hbuf ltac:(lia)) as (p & old & -> & Hp & Ho).
    change (2 * 32)%nat with 64%nat. change (1 * 32)%nat with 32%nat. rewrite <- Hp.
    rewrite write_loop_spec by (rewrite ?length_app; lia). cbn [fst]. rewrite app_assoc.
    replace (M_start - 32)%nat with (length (p ++ R)) by (rewrite length_app; lia).
    rewrite write_loop_spec by (rewrite ?length_app, ?length_drop, ?length_app; lia). cbn [fst]. rewrite drop_drop, <- app_assoc, (app_assoc R), HR, HK.
    rewrite (drop_app_length' old) by done. eexists. split; [|by rewrite (slice_middle_all p (R ++ K)) by (rewrite length_app; lia)].
    apply holds_message_app. rewrite length_app. lia.
  - rewrite labels_taken. set (ins := [Some B_bytes; Some (labels ls); Some R; Some (labels ls); Some K; extra]).
    set (n := (3 * 32 + 2 * len + length (default [] extra))%nat).
    assert (contents ins = B_bytes ++ labels ls ++ R ++ labels ls ++ K ++ default [] extra) as Ec by (unfold contents, ins; cbn [map concat]; by rewrite app_nil_r).
    assert (length (contents ins) = n) as Hn by (rewrite Ec, !length_app, B_bytes_length; unfold n; lia).
    rewrite (proj2 (Nat.ltb_ge _ _)) by lia. destruct (holds_message_split _ _ _ n Hbuf ltac:(lia)) as (p & old & -> & Hp & Ho).
    assert (buffer_adds (p ++ old ++ msg) (Some (M_start - n)%nat) M_start ins = (p ++ contents ins ++ msg, Some (length p + length (contents ins))%nat)) as ->.
    { rewrite <- Hp, buffer_adds_spec by (rewrite ?length_app; lia). by rewrite (drop_app_length' old) by lia. }
    rewrite filled_true by (done || lia). cbn [negb]. rewrite <- Ec.
    eexists. split; [|by rewrite <- Hp, (slice_middle_all p (contents ins)) by lia]. apply holds_message_app. lia.
Qed.

Lemma generalized_commit_spec extra K k Z_ : extra_ok extra len = true -> length K = 32%nat -> length k = 32%nat -> (32 <= length Z_)%nat ->
  (2 * len + length (default [] extra) + 512 <= M_start)%nat ->
  let r := sc_reduce (crypto_hash_sha512 (commit_prefix (labels ls) Z_ k K (default [] extra) ++ msg)) in
  exists M_buf', holds_message M_buf' M_start msg /\
    generalized_commit arr len extra K k Z_ M_buf M_start (length msg) =
      Some (ge_p3_tobytes (ge_scalarmult_base r), take SCALARLEN r, M_buf').
Proof using Hls Hbuf.
  intros Hx HK Hk HZ Hs r. pose proof (holds_labels_length _ _ _ Hls) as Hll. unfold generalized_commit.
  rewrite (labelset_validate_spec _ _ _ Hls), Hx. cbn [negb]. cbv zeta. rewrite labels_taken, (take_ge K), (take_ge k) by (unfold POINTLEN, SCALARLEN; lia).
  set (w1 := B_bytes ++ labels ls ++ take RANDLEN Z_). assert (length w1 = 32 + len + 32)%nat as H1.
  { unfold w1, RANDLEN. rewrite !length_app, length_take, B_bytes_length. lia. }
  set (w2 := (w1 ++ repeat x00 (pad_length (length w1))) ++ k).
  assert (length w2 = 32 + len + 32 + pad_length (32 + len + 32) + 32)%nat as H2 by (unfold w2; rewrite !length_app, repeat_length, H1; lia).
  set (w3 := (w2 ++ repeat x00 (pad_length (length w2))) ++ labels ls ++ K ++ default [] extra).
  assert (pad_length (length w1) = pad_length (32 + len + 32)) as Hpad by (by rewrite H1).
  unfold POINTLEN, RANDLEN, SCALARLEN. rewrite <- H2.
  set (n := (length w2 + pad_length (length w2) + (len + 32 + length (default [] extra)))%nat).
  assert (length w3 = n) as H3 by (unfold w3, n; rewrite !length_app, repeat_length; lia).
  pose proof (pad_length_bound (32 + len + 32)). pose proof (pad_length_bound (length w2)). assert (n <= M_start)%nat as Hn by (unfold n; lia).
  rewrite (proj2 (Nat.ltb_ge _ _)) by lia. destruct (holds_message_split _ _ _ n Hbuf Hn) as (p & old & -> & Hp & Ho).
  assert (length (old ++ msg) = n + length msg)%nat as Hr by (rewrite length_app; lia).
  replace (p ++ old ++ msg) with ((p ++ []) ++ old ++ msg) by (by rewrite app_nil_r). rewrite <- Hp.
  replace (Some (length p)) with (Some (length (p ++ []))) by (by rewrite app_nil_r).
  rewrite (adds_at p [] (old ++ msg) _ _ w1) by (apply contents_3 || (cbn [length]; unfold n in *; lia)). cbn [app].
  rewrite pad_at by (rewrite ?length_drop; unfold n in *; lia). rewrite drop_drop.
  rewrite (add_at p (w1 ++ _) _ _ k) by (rewrite ?length_drop, ?length_app, ?repeat_length; unfold n in *; lia). rewrite drop_drop. fold w2.
  rewrite pad_at by (rewrite ?length_drop; unfold n in *; lia). rewrite drop_drop.
  rewrite (adds_at p (w2 ++ _) _ _ _ (labels ls ++ K ++ default [] extra)).
  2: { unfold contents. cbn [map concat]. by rewrite app_nil_r. }
  2,3: rewrite ?length_drop, ?length_app, ?repeat_length; unfold n in *; lia.
  fold w3. rewrite drop_drop. replace (length w1 + pad_length (length w1) + length k + pad_length (length w2) + length (labels ls ++ K ++ default [] extra))%nat
    with (length old) by (rewrite !length_app; unfold n in *; lia).
  rewrite drop_app_length, filled_at by (done || lia). cbn [negb]. rewrite <- app_assoc.
  rewrite (slice_middle_all p w3) by lia. rewrite take_app_length, drop_app_length. eexists. split; [|done].
  unfold zeroize. rewrite drop_app_length' by done. replace (n `min` length (w3 ++ msg))%nat with n by (rewrite length_app; lia).
  apply holds_message_app. rewrite repeat_length. lia.
Qed.

Lemma generalized_calculate_Bv_spec K : length K = 32%nat -> (64 + len <= M_start)%nat ->
  exists M_buf', holds_message M_buf' M_start msg /\
    generalized_calculate_Bv arr len K M_buf M_start (length msg) =
      (Bv_point ← hash_to_point ((B_bytes ++ labels ls ++ K) ++ msg);
       if negb (ge_isneutral Bv_point =? 0) then None else Some (Bv_point, M_buf')).
Proof using Hls Hbuf.
  intros HK Hs. pose proof (holds_labels_length _ _ _ Hls) as Hll. unfold generalized_calculate_Bv.
  rewrite (labelset_validate_spec _ _ _ Hls). cbn [negb]. cbv zeta. rewrite labels_taken, (take_ge K) by (unfold POINTLEN; lia).
  unfold POINTLEN. set (n := (2 * 32 + len)%nat). assert (n = 64 + len)%nat as En by (unfold n; lia). clearbody n.
  rewrite (proj2 (Nat.ltb_ge _ _)) by lia. destruct (holds_message_split _ _ _ n Hbuf ltac:(lia)) as (p & old & -> & Hp & Ho). rewrite <- Hp.
  set (w := B_bytes ++ labels ls ++ K). assert (length w = n) as Hw by (unfold w; rewrite !length_app, B_bytes_length; lia).
  rewrite buffer_adds_spec; rewrite contents_3; fold w; [|rewrite ?length_app; lia..]. rewrite drop_app_length' by lia.
  rewrite bool_decide_eq_true_2 by (f_equal; lia). cbn [negb]. rewrite (slice_middle_all p w) by lia.
  eexists. split; [|reflexivity]. apply holds_message_app. lia.
Qed.

Lemma generalized_calculate_vrf_output_spec fresh P : length (fresh BUFLEN) = BUFLEN -> length (ge_p3_tobytes P) = 32%nat ->
  generalized_calculate_vrf_output fresh arr len P =
    Some (take VRFOUTPUTLEN (crypto_hash_sha512 (B_bytes ++ labels ls ++ ge_p3_tobytes P))).
Proof using Hls.
  intros Hf HP. pose proof (holds_labels_length _ _ _ Hls) as Hll. destruct Hls as (_ & Hl & _). unfold LABELSETMAXLEN in Hl.
  unfold generalized_calculate_vrf_output. rewrite (labelset_validate_spec _ _ _ Hls). cbn [negb]. cbv zeta.
  rewrite labels_taken. unfold POINTLEN. rewrite (take_ge (ge_p3_tobytes P)) by lia.
  rewrite (proj2 (Nat.ltb_ge _ _)) by (unfold BUFLEN; lia).
  set (w := B_bytes ++ labels ls ++ ge_p3_tobytes P). assert (length w = 64 + len)%nat as Hw by (unfold w; rewrite !length_app, B_bytes_length; lia).
  pose proof (buffer_adds_spec [Some B_bytes; Some (labels ls); Some (ge_p3_tobytes P)] [] (fresh BUFLEN) BUFLEN) as E. rewrite contents_3 in E. fold w in E.
  cbn [app length] in E. rewrite E by (rewrite ?Hf; unfold BUFLEN; lia). rewrite (proj2 (Nat.ltb_ge _ _)) by (unfold BUFLEN; lia).
  rewrite Nat.add_0_l, take_app_length. done.
Qed.
End prefix.
