(* ===== verification/GeneralizedFacts.v ===== *)
(** The generalized signatures are correct: what gen_x.c signs, it verifies, and the output of
    the verifiable random function is a function of the key, the message and the label. *)

From Stdlib Require Import Field.
From S2P Require Import Prelude Buffers Crypto Limbs Scalar ScalarFacts Donna DonnaField DonnaLadder DonnaBytes Fe FeField FeBytes Ge GeTables GeScalar Sha512 Sha512Facts Xeddsa Primes Edwards Field25519 GeFacts GeTableFacts GeScalarFacts EncodeFacts GroupOrder XeddsaFacts ElligatorFacts Generalized GeneralizedBuffers.

Add Field field_generalized : (field_laws (F := F25519)).

(* ------------------------------------------------------------------ *)
(** ** Checks *)

Lemma ge_p3_add_is p q P Q : p3_is p P -> p3_is q Q -> p3_is (ge_p3_add p q) (padd P Q).
Proof. intros Hp Hq. rewrite padd_comm. exact (ge_p1p1_to_p3_is _ _ (ge_add_is _ _ _ _ Hq (ge_p3_to_cached_is _ _ Hp))). Qed.

Lemma pzero_coordinates (P : pt) : P = pzero <-> px P = f_0 /\ py P = f_1.
Proof.
  split; [intros ->; split; [apply px_zero|apply py_zero]|]. intros [Ex Ey]. apply point_eq; [by rewrite px_zero|by rewrite py_zero].
Qed.

Lemma ge_isneutral_is p P : p3_is p P -> ge_isneutral p = if decide (P = pzero) then 1 else 0.
Proof.
  intros (X & Y & Z & T & HX & HY & HZ & _ & Hz & EX & EY & _). unfold ge_isneutral.
  rewrite (fe_isequal_is 101 1 _ _ _ _ ltac:(done) ltac:(done) ltac:(done) HX fe_0_is).
  rewrite (fe_isequal_is 101 101 _ _ _ _ ltac:(done) ltac:(done) ltac:(done) HY HZ).
  assert (X = f_0 <-> px P = f_0) as Hx.
  { rewrite EX. split; [intros [E|E]%f_mul_eq_0; [exact E|contradiction]|]. intros ->. ring. }
  assert (Y = Z <-> py P = f_1) as Hy.
  { rewrite EY. split; [|intros ->; ring]. intros E. apply (f_mul_cancel Z); [exact Hz|]. transitivity (f_mul (py P) Z); [ring|]. rewrite E. ring. }
  pose proof (pzero_coordinates P) as H. repeat case_decide; try tauto; reflexivity.
Qed.

Lemma point_isreduced_encode P : point_isreduced (encode P) = 1.
Proof.
  unfold point_isreduced. rewrite slice_all by apply encode_length.
  pose proof (mask_sign (res (py P)) (odd (px P)) false (res_below _)) as E. cbn [Z.b2z] in E. rewrite !Z.mul_0_r, Z.add_0_r in E.
  fold (encode P) in E. rewrite E, fe_isreduced_spec by apply length_le_bytes. rewrite le_val_res. apply decide_True, res_range.
Qed.

Lemma le_val_zeros (s : bytes) n : le_val (s ++ repeat x00 n) = le_val s.
Proof.
  induction s as [|b s IH]; cbn [app le_val]; [|by rewrite IH]. induction n as [|n IHn]; cbn [repeat le_val]; [done|]. rewrite IHn. done.
Qed.

Lemma sc_isreduced_canonical a : length a = 32%nat -> sc_isreduced a = 1 -> a = le_bytes 32 (le_val a mod order).
Proof.
  intros Ha. unfold sc_isreduced. rewrite slice_all by exact Ha. rewrite sc_reduce_spec by (rewrite length_app, Ha, repeat_length; reflexivity).
  rewrite le_val_zeros, crypto_verify_32_spec by (exact Ha || apply length_le_bytes). case_decide as E; [intros _; by rewrite E at 1|discriminate].
Qed.

Lemma sc_isreduced_reduced z : sc_isreduced (le_bytes 32 (z mod order)) = 1.
Proof.
  unfold sc_isreduced. rewrite slice_all by apply length_le_bytes. rewrite sc_reduce_spec by (rewrite length_app, length_le_bytes, repeat_length; done).
  rewrite le_val_zeros, reduced_val, Zmod_mod, crypto_verify_32_spec by apply length_le_bytes. by rewrite decide_True.
Qed.

Lemma take_reduced s : length s = 64%nat -> take SCALARLEN (sc_reduce s) = le_bytes 32 (le_val s mod order).
Proof. intros Hs. rewrite take_ge by (rewrite sc_reduce_length by done; unfold SCALARLEN; lia). by apply sc_reduce_spec. Qed.

(** [take 32] of a reduced scalar, as its bytes. *)
Lemma hash_scalar m : take SCALARLEN (sc_reduce (crypto_hash_sha512 m)) = le_bytes 32 (le_val (crypto_hash_sha512 m) mod order).
Proof. apply take_reduced, crypto_hash_sha512_length. Qed.

(* ------------------------------------------------------------------ *)
(** ** Commitments *)

Lemma prove_spec r a h : length a = 32%nat ->
  generalized_prove (le_bytes 32 (r mod order)) a (le_bytes 32 (h mod order)) = le_bytes 32 ((h * le_val a + r) mod order).
Proof.
  intros Ha. unfold generalized_prove. rewrite sc_muladd_spec by (done || apply length_le_bytes). rewrite !reduced_val. f_equal.
  by rewrite Z.add_mod_idemp_r, <- (Z.add_mod_idemp_l (_ mod order * _)), Z.mul_mod_idemp_l, Z.add_mod_idemp_l by done.
Qed.

Lemma order_nonzero : order <> 0.
Proof. done. Qed.

(** A point that the order of the base point annihilates. *)
Lemma equation_at (Q : pt) h a r : pmul order Q = pzero ->
  padd (pmul ((h * a + r) mod order) Q) (pmul (h mod order) (pneg (pmul a Q))) = pmul r Q.
Proof.
  intros HQ. assert (pmul order (pneg (pmul a Q)) = pzero) as HQ'.
  { rewrite pmul_neg, <- pmul_mul, Z.mul_comm, pmul_mul, HQ, pmul_zero. apply pneg_zero. }
  rewrite (pmul_mod (h * a + r) order Q order_nonzero HQ), (pmul_mod h order _ order_nonzero HQ').
  rewrite pmul_neg, <- pmul_mul, (Z.add_comm (h * a)), pmul_add, padd_assoc, padd_neg_r. apply padd_zero_r.
Qed.

Lemma solve_base h a r : let P := pmul a B in
  exists K, p3_is K P /\ generalized_solve_commitment None (le_bytes 32 ((h * a + r) mod order)) (encode P) (le_bytes 32 (h mod order)) =
    Some (encode (pmul r B), K).
Proof.
  intros P. unfold generalized_solve_commitment. destruct (frombytes_encode P) as (A & -> & HA). rewrite bind_some.
  exists (ge_neg A). split; [rewrite <- (pneg_involutive P); by apply ge_neg_is|]. do 2 f_equal.
  rewrite <- (equation_at B h a r order_B), padd_comm. apply ge_tobytes_is.
  pose proof (ge_double_scalarmult_vartime_is (le_bytes 32 (h mod order)) A (le_bytes 32 ((h * a + r) mod order)) (pneg P)) as H.
  rewrite !reduced_val in H. apply H; [apply length_le_bytes|apply below_253|apply length_le_bytes|apply below_253|exact HA].
Qed.

Lemma solve_at Bv (Q : pt) h a r : p3_is Bv Q -> pmul order Q = pzero -> let P := pmul a Q in
  exists K, p3_is K P /\ generalized_solve_commitment (Some Bv) (le_bytes 32 ((h * a + r) mod order)) (encode P) (le_bytes 32 (h mod order)) =
    Some (encode (pmul r Q), K).
Proof.
  intros HB HQ P. unfold generalized_solve_commitment. destruct (frombytes_encode P) as (A & -> & HA). rewrite bind_some.
  exists (ge_neg A). split; [rewrite <- (pneg_involutive P); by apply ge_neg_is|]. do 2 f_equal.
  rewrite <- (equation_at Q h a r HQ). apply ge_p3_tobytes_is.
  pose proof (ge_scalarmult_is (le_bytes 32 ((h * a + r) mod order)) Bv Q) as Hs. pose proof (ge_scalarmult_is (le_bytes 32 (h mod order)) A (pneg P)) as Hh.
  rewrite reduced_val in Hs, Hh. apply ge_p3_add_is; [apply Hs|apply Hh]; (apply length_le_bytes || apply below_255 || assumption).
Qed.

(* ------------------------------------------------------------------ *)
(** ** EdDSA *)

(** Memory of the requested size, with any contents. *)
Definition allocates (fresh : nat -> bytes) : Prop := forall n, length (fresh n) = n.

Lemma message_buffer_spec fresh msg label : allocates fresh -> (length (default [] label) <= LABELMAXLEN)%nat ->
  Z.of_nat (length msg) <= MSGMAXLEN -> exists buf, message_buffer fresh msg label = Some buf /\ holds_message buf MSTART msg.
Proof.
  intros Hf Hl Hm. unfold message_buffer. rewrite (proj2 (Nat.ltb_ge _ _)), (proj2 (Z.ltb_ge _ _)) by done. eexists. split; [done|].
  split; [by rewrite length_app, Hf|]. apply drop_app_length'. by rewrite Hf.
Qed.

(** The lengths are refused before anything else. *)
Lemma message_buffer_some fresh msg label buf : message_buffer fresh msg label = Some buf ->
  (length (default [] label) <= LABELMAXLEN)%nat /\ Z.of_nat (length msg) <= MSGMAXLEN.
Proof.
  unfold message_buffer. destruct (_ <? _)%nat eqn:E1; [done|]. destruct (MSGMAXLEN <? _) eqn:E2; [done|].
  intros _. apply Nat.ltb_ge in E1. apply Z.ltb_ge in E2. done.
Qed.

Lemma mstart : MSTART = Z.to_nat 2048.
Proof. done. Qed.

Lemma nonce_point m : ge_p3_tobytes (ge_scalarmult_base (sc_reduce (crypto_hash_sha512 m))) = encode (pmul (le_val (crypto_hash_sha512 m)) B).
Proof.
  pose proof (crypto_hash_sha512_length m) as Hl. rewrite <- pmul_order, <- sc_reduce_val by done.
  apply ge_p3_tobytes_is, ge_scalarmult_base_is; [by apply sc_reduce_length|]. rewrite sc_reduce_val by done. apply below_255.
Qed.

(** The label set of a signature without a protocol name. *)
Definition eddsa_labels (label : option bytes) : bytes := labels [[]; default [] label].

Definition eddsa_challenge (label : option bytes) (R K msg : bytes) : Z :=
  le_val (crypto_hash_sha512 (challenge_prefix (eddsa_labels label) [] R K ++ msg)).

Lemma eddsa_sign_spec fresh a msg random label : allocates fresh -> length a = 32%nat -> (32 <= length random)%nat ->
  (length (default [] label) <= LABELMAXLEN)%nat -> Z.of_nat (length msg) <= MSGMAXLEN ->
  exists r, let K := encode (pmul (le_val a) B) in let R := encode (pmul r B) in
    generalized_eddsa_25519_sign fresh K a msg random label =
      Some (R ++ le_bytes 32 ((eddsa_challenge label R K msg * le_val a + r) mod order)).
Proof.
  intros Hf Ha Hr Hl Hm. set (K := encode (pmul (le_val a) B)). unfold generalized_eddsa_25519_sign.
  destruct (message_buffer_spec fresh msg label Hf Hl Hm) as (buf & -> & Hb). rewrite bind_some.
  destruct (labelset_new_spec (fresh LABELSETMAXLEN) [] (default [] label) None label (Hf _) eq_refl eq_refl ltac:(cbn; lia) Hl) as (arr & len & -> & Hls & Hlen).
  rewrite bind_some. cbn [length] in Hlen. unfold LABELMAXLEN in Hl.
  destruct (generalized_commit_spec arr len _ Hls buf msg MSTART Hb None K a random eq_refl (encode_length _) Ha Hr ltac:(rewrite mstart; cbn [default length]; lia))
    as (buf1 & Hb1 & ->). rewrite bind_some, nonce_point, hash_scalar. cbn [default].
  set (n := le_val (crypto_hash_sha512 (commit_prefix _ _ _ _ _ ++ msg))). exists n. cbv zeta.
  destruct (generalized_challenge_spec arr len _ Hls buf1 msg MSTART Hb1 None (encode (pmul n B)) K eq_refl (encode_length _) (encode_length _)
    ltac:(rewrite mstart; cbn [default length]; lia)) as (buf2 & Hb2 & ->).
  rewrite bind_some, hash_scalar, prove_spec by done. done.
Qed.

Lemma eddsa_verify_spec fresh a r msg label : allocates fresh ->
  (length (default [] label) <= LABELMAXLEN)%nat -> Z.of_nat (length msg) <= MSGMAXLEN ->
  let K := encode (pmul a B) in let R := encode (pmul r B) in
  generalized_eddsa_25519_verify fresh (R ++ le_bytes 32 ((eddsa_challenge label R K msg * a + r) mod order)) K msg label = 0.
Proof.
  intros Hf Hl Hm K R. set (h := eddsa_challenge label R K msg). unfold generalized_eddsa_25519_verify. cbv zeta.
  destruct (message_buffer_spec fresh msg label Hf Hl Hm) as (buf & -> & Hb). rewrite bind_some.
  destruct (labelset_new_spec (fresh LABELSETMAXLEN) [] (default [] label) None label (Hf _) eq_refl eq_refl ltac:(cbn; lia) Hl) as (arr & len & -> & Hls & Hlen).
  rewrite bind_some. cbn [length] in Hlen. unfold LABELMAXLEN in Hl. set (S := le_bytes 32 ((h * a + r) mod order)).
  assert (slice 0 POINTLEN (R ++ S) = R) as -> by apply slice_left, encode_length.
  assert (slice POINTLEN SCALARLEN (R ++ S) = S) as ->.
  { rewrite <- (app_nil_r S) at 1. apply slice_middle; [apply encode_length|apply length_le_bytes]. }
  unfold K at 1, R at 1, S at 1. rewrite !point_isreduced_encode, sc_isreduced_reduced. cbn [Z.eqb].
  destruct (generalized_challenge_spec arr len _ Hls buf msg MSTART Hb None R K eq_refl (encode_length _) (encode_length _)
    ltac:(rewrite mstart; cbn [default length]; lia)) as (buf2 & Hb2 & ->).
  rewrite bind_some, hash_scalar. change (le_val (crypto_hash_sha512 _)) with h.
  destruct (solve_base h a r) as (Kp & _ & E). fold K S R in E. rewrite E, bind_some.
  rewrite crypto_verify_32_spec by apply encode_length. by rewrite decide_True.
Qed.

(* ------------------------------------------------------------------ *)
(** ** Curve25519 keys *)

Lemma keypair_spec k : length k = 32%nat -> clamped k -> exists a,
  calculate_25519_keypair k = (encode (pmul (le_val a) B), a) /\ length a = 32%nat /\ le_val a < 2 ^ 255 /\
  ~ (order | le_val a) /\ odd (px (pmul (le_val a) B)) = false /\ mont_bytes (pmul (le_val k) B) = mont_bytes (pmul (le_val a) B).
Proof.
  intros Hk Hc. destruct (clamped_val k Hk Hc) as [H8 Hv]. pose proof (clamped_nonzero _ H8 Hv) as HP.
  destruct (even_key k Hk ltac:(lia)) as (Ha & Hv' & Hp & Ho & Em). eexists. split; [unfold calculate_25519_keypair; cbv zeta; by rewrite Em|].
  split; [exact Ha|]. split; [exact Hv'|]. split; [|split; [exact Ho|]].
  - intros [c Ec]. rewrite Ec, pmul_mul, order_B, pmul_zero in Hp. apply HP. destruct Hp as [<-|E]; [done|].
    by rewrite <- (pneg_involutive (pmul _ B)), <- E, pneg_zero.
  - destruct Hp as [-> | ->]; [done|]. by rewrite mont_bytes_neg.
Qed.

Lemma convert_spec P : P <> pzero -> odd (px P) = false -> convert_25519_pubkey (mont_bytes P) = Some (encode P).
Proof.
  intros HP Ho. unfold convert_25519_pubkey. rewrite fe_isreduced_spec by apply length_le_bytes.
  rewrite decide_True by (unfold mont_bytes; rewrite le_val_res; apply res_range). cbn [Z.eqb]. cbv zeta. by rewrite public_y, encode_even.
Qed.

Lemma not_divided_nonzero a : ~ (order | a) -> pmul a B <> pzero.
Proof. intros Ha E. by apply Ha, B_order. Qed.

Lemma xeddsa_correct fresh1 fresh2 k msg random label : allocates fresh1 -> allocates fresh2 -> length k = 32%nat -> clamped k ->
  (32 <= length random)%nat -> (length (default [] label) <= LABELMAXLEN)%nat -> Z.of_nat (length msg) <= MSGMAXLEN ->
  exists sig, generalized_xeddsa_25519_sign fresh1 k msg random label = Some sig /\ length sig = 64%nat /\
    generalized_xeddsa_25519_verify fresh2 sig (mont_bytes (pmul (le_val k) B)) msg label = 0.
Proof.
  intros Hf1 Hf2 Hk Hc Hr Hl Hm. destruct (keypair_spec k Hk Hc) as (a & Ek & Ha & _ & Hd & Ho & ->).
  unfold generalized_xeddsa_25519_sign, generalized_xeddsa_25519_verify. rewrite Ek.
  destruct (eddsa_sign_spec fresh1 a msg random label Hf1 Ha Hr Hl Hm) as (r & ->). eexists. split; [reflexivity|].
  split; [by rewrite length_app, encode_length, length_le_bytes|]. rewrite (convert_spec _ (not_divided_nonzero _ Hd) Ho).
  exact (eddsa_verify_spec fresh2 (le_val a) r msg label Hf2 Hl Hm).
Qed.

(* ------------------------------------------------------------------ *)
(** ** The verifiable random function *)

(** The label sets "1", "2", "3" and "4" under the protocol name. *)
Definition veddsa_labels (label : option bytes) (c : Z) : list bytes := [protocol_name; default [] label; [u8 c]].

(** The point that a key and a message hash to. *)
Definition vrf_point (label : option bytes) (K msg : bytes) : option ge_p3 :=
  hash_to_point ((B_bytes ++ labels (veddsa_labels label 49) ++ K) ++ msg).

(** The output for that point. *)
Definition vrf_output (label : option bytes) (a : Z) (Q : pt) : bytes :=
  take VRFOUTPUTLEN (crypto_hash_sha512 (B_bytes ++ labels (veddsa_labels label 52) ++ encode (pmul 8 (pmul a Q)))).

Lemma vrf_point_at label K msg : vrf_point label K msg = hash_to_point ((B_bytes ++ labels (veddsa_labels label 49) ++ K) ++ msg).
Proof. reflexivity. Qed.

Lemma vrf_point_is label K msg : exists p Q, vrf_point label K msg = Some p /\ p3_is p Q /\ pmul order Q = pzero.
Proof. destruct (hash_to_point_is ((B_bytes ++ labels (veddsa_labels label 49) ++ K) ++ msg)) as (p & P & E & H). exists p, (pmul 8 P). split_and!; [exact E|exact H|apply order_cofactor]. Qed.

Definition veddsa_challenge (label : option bytes) (a r : Z) (Q : pt) (msg : bytes) : Z :=
  le_val (crypto_hash_sha512 (challenge_prefix (labels (veddsa_labels label 51))
    (encode Q ++ encode (pmul a Q) ++ encode (pmul r Q)) (encode (pmul r B)) (encode (pmul a B)) ++ msg)).

(** The label set is made the same way on both sides. *)
Lemma veddsa_labelset fresh label : allocates fresh -> (length (default [] label) <= LABELMAXLEN)%nat ->
  exists arr0 len0 arr len, labelset_new (fresh LABELSETMAXLEN) LABELSETMAXLEN (Some protocol_name) label = Some (arr0, len0) /\
    labelset_add arr0 len0 LABELSETMAXLEN [u8 49] = (arr, len, true) /\ holds_labels arr len (veddsa_labels label 49) /\
    (3 < len <= 163)%nat.
Proof.
  intros Hf Hl. destruct (labelset_new_spec (fresh LABELSETMAXLEN) protocol_name (default [] label) (Some protocol_name) label
    (Hf _) eq_refl eq_refl ltac:(unfold LABELMAXLEN; change (length protocol_name) with 30%nat; lia) Hl) as (arr0 & len0 & E0 & H0 & Hlen). change (length protocol_name) with 30%nat in Hlen. unfold LABELMAXLEN in Hl.
  destruct (labelset_add_spec arr0 len0 _ (u8 49) H0 ltac:(unfold LABELSETMAXLEN; lia) ltac:(cbn; lia)) as (arr & Ea & Ha).
  exists arr0, len0, arr, (len0 + 2)%nat. split; [exact E0|]. split; [exact Ea|]. split; [exact Ha|]. lia.
Qed.

Lemma next_label arr len label c d : holds_labels arr len (veddsa_labels label c) -> holds_labels (set_last arr len d) len (veddsa_labels label d).
Proof. exact (set_last_spec arr len [protocol_name; default [] label] (u8 c) d). Qed.

Lemma veddsa_extra (l : bytes) len : l <> [] -> (3 < len)%nat -> extra_ok (Some l) len = true.
Proof.
  intros Hl Hn. unfold extra_ok, labelset_is_empty. rewrite (proj2 (Nat.eqb_neq (length l) 0)) by (intros E; by apply Hl, nil_length_inv).
  rewrite (proj2 (Nat.eqb_neq len 3)) by lia. reflexivity.
Qed.

Lemma encode_app_nonempty P l : encode P ++ l <> [].
Proof. intros E. apply (f_equal length) in E. rewrite length_app, encode_length in E. discriminate. Qed.

Lemma nonce_at m p (Q : pt) : p3_is p Q -> pmul order Q = pzero -> let r := le_val (crypto_hash_sha512 m) in
  ge_p3_tobytes (ge_scalarmult (le_bytes 32 (r mod order)) p) = encode (pmul r Q).
Proof.
  intros Hp HQ r. apply ge_p3_tobytes_is. rewrite <- (pmul_mod r order Q order_nonzero HQ).
  pose proof (ge_scalarmult_is (le_bytes 32 (r mod order)) p Q) as H. rewrite reduced_val in H. apply H; [apply length_le_bytes|apply below_255|exact Hp].
Qed.

Section Vrf.
Context (a : bytes) (Ha : length a = 32%nat) (Hv : le_val a < 2 ^ 255).
Context (msg : bytes) (Hm : Z.of_nat (length msg) <= MSGMAXLEN) (label : option bytes) (Hl : (length (default [] label) <= LABELMAXLEN)%nat).
Let K := encode (pmul (le_val a) B).
Context (p : ge_p3) (Q : pt) (Ep : vrf_point label K msg = Some p) (Hp : p3_is p Q) (HQ : pmul order Q = pzero).

(** The proof for a commitment. *)
Definition veddsa_proof (r : Z) : bytes :=
  let h := veddsa_challenge label (le_val a) r Q msg in
  encode (pmul (le_val a) Q) ++ le_bytes 32 (h mod order) ++ le_bytes 32 ((h * le_val a + r) mod order).

Lemma calculate_Bv_at arr len buf : holds_labels arr len (veddsa_labels label 49) -> holds_message buf MSTART msg -> (len <= 163)%nat ->
  exists buf', holds_message buf' MSTART msg /\
    generalized_calculate_Bv arr len K buf MSTART (length msg) = if decide (Q = pzero) then None else Some (p, buf').
Proof using Ep Hp.
  intros Hls Hb Hlen. destruct (generalized_calculate_Bv_spec arr len _ Hls buf msg MSTART Hb K (encode_length _) ltac:(clear - Hlen; rewrite mstart; lia)) as (buf' & Hb' & E).
  exists buf'. split; [exact Hb'|]. rewrite E, <- vrf_point_at, Ep, bind_some, (ge_isneutral_is _ _ Hp). destruct (decide (Q = pzero)); reflexivity.
Qed.

Lemma veddsa_sign_spec fresh random : allocates fresh -> (32 <= length random)%nat -> exists r,
  generalized_veddsa_25519_sign fresh K a msg random label = if decide (Q = pzero) then None else Some (veddsa_proof r).
Proof using Ha Hv Hm Hl Ep Hp HQ.
  intros Hf Hr. unfold generalized_veddsa_25519_sign. destruct (message_buffer_spec fresh msg label Hf Hl Hm) as (buf & -> & Hb). rewrite bind_some.
  destruct (veddsa_labelset fresh label Hf Hl) as (arr0 & len0 & arr & len & -> & Ea & H1 & Hlen). rewrite bind_some, Ea.
  destruct (calculate_Bv_at arr len buf H1 Hb ltac:(lia)) as (buf1 & Hb1 & ->). destruct (decide (Q = pzero)) as [_|Hn]; [exists 0; reflexivity|].
  rewrite bind_some, (ge_p3_tobytes_is _ _ Hp), (ge_p3_tobytes_is _ _ (ge_scalarmult_is a p Q Ha Hv Hp)). cbv zeta.
  destruct (generalized_commit_spec _ _ _ (next_label _ _ _ _ 50 H1) buf1 msg MSTART Hb1 (Some (encode Q ++ encode (pmul (le_val a) Q))) K a random
    (veddsa_extra _ len (encode_app_nonempty _ _) (proj1 Hlen)) (encode_length _) Ha Hr ltac:(rewrite mstart; cbn [default id]; rewrite length_app, !encode_length; lia)) as (buf2 & Hb2 & ->).
  rewrite bind_some, nonce_point, hash_scalar. cbn [default]. set (m := commit_prefix _ _ _ _ _ ++ msg).
  rewrite (nonce_at m p Q Hp HQ). set (r := le_val (crypto_hash_sha512 m)). exists r.
  destruct (generalized_challenge_spec _ _ _ (next_label _ _ _ _ 51 (next_label _ _ _ _ 50 H1)) buf2 msg MSTART Hb2
    (Some (encode Q ++ encode (pmul (le_val a) Q) ++ encode (pmul r Q))) (encode (pmul r B)) K
    (veddsa_extra _ len (encode_app_nonempty _ _) (proj1 Hlen)) (encode_length _) (encode_length _)
    ltac:(rewrite mstart; cbn [default id]; rewrite !length_app, !encode_length; lia)) as (buf3 & _ & ->).
  rewrite bind_some, hash_scalar, (prove_spec r a _ Ha). reflexivity.
Qed.

(** The parts of a proof. *)
Lemma proof_parts (x y z : bytes) : length x = 32%nat -> length y = 32%nat -> length z = 32%nat ->
  slice 0 POINTLEN (x ++ y ++ z) = x /\ slice POINTLEN SCALARLEN (x ++ y ++ z) = y /\ slice (POINTLEN + SCALARLEN) SCALARLEN (x ++ y ++ z) = z.
Proof.
  intros Hx Hy Hz. split; [by apply slice_left|]. split; [by apply slice_middle|].
  rewrite app_assoc, <- (app_nil_r z) at 1. apply slice_middle; [by rewrite length_app, Hx, Hy|exact Hz].
Qed.

(** A multiple by a number the order does not divide stays non-neutral when the cofactor is cleared. *)
Lemma cofactor_nonzero x (P : pt) : ~ (order | x) -> pmul order P = pzero -> P <> pzero -> pmul 8 (pmul x P) <> pzero.
Proof.
  intros Hx HP Hn E. rewrite <- pmul_mul in E. apply Hx. apply (order_exact P _ HP Hn) in E.
  apply Z.gauss with 8; [exact E|reflexivity].
Qed.

Lemma veddsa_verify_spec fresh r : allocates fresh -> Q <> pzero -> ~ (order | le_val a) ->
  generalized_veddsa_25519_verify fresh (veddsa_proof r) K msg label = Some (vrf_output label (le_val a) Q).
Proof using Ha Hv Hm Hl Ep Hp HQ.
  intros Hf Hn Hd. unfold generalized_veddsa_25519_verify, veddsa_proof. destruct (message_buffer_spec fresh msg label Hf Hl Hm) as (buf & -> & Hb). rewrite bind_some.
  set (h := veddsa_challenge label (le_val a) r Q msg). set (S := le_bytes 32 ((h * le_val a + r) mod order)). set (H := le_bytes 32 (h mod order)).
  destruct (proof_parts (encode (pmul (le_val a) Q)) H S (encode_length _) (length_le_bytes _ _) (length_le_bytes _ _)) as (-> & -> & ->).
  unfold K at 1, H at 1, S at 1. rewrite !point_isreduced_encode, !sc_isreduced_reduced. cbn [Z.eqb].
  destruct (veddsa_labelset fresh label Hf Hl) as (arr0 & len0 & arr & len & -> & Ea & H1 & Hlen). rewrite bind_some, Ea.
  destruct (calculate_Bv_at arr len buf H1 Hb (proj2 Hlen)) as (buf1 & Hb1 & ->). destruct (decide (Q = pzero)) as [E|_]; [contradiction|].
  rewrite bind_some, (ge_p3_tobytes_is _ _ Hp).
  destruct (solve_base h (le_val a) r) as (Kp & HK & EK). fold K S H in EK. rewrite EK, bind_some.
  destruct (solve_at p Q h (le_val a) r Hp HQ) as (Kv & HKv & EKv). fold S H in EKv. rewrite EKv, bind_some. cbv zeta.
  rewrite (ge_isneutral_is _ _ (ge_scalarmult_cofactor_is _ _ HK)), (ge_isneutral_is _ _ (ge_scalarmult_cofactor_is _ _ HKv)), (ge_isneutral_is _ _ Hp).
  destruct (decide _) as [E|_]; [contradiction (cofactor_nonzero _ _ Hd order_B B_nonzero E)|].
  destruct (decide _) as [E|_]; [contradiction (cofactor_nonzero _ _ Hd HQ Hn E)|].
  destruct (decide (Q = pzero)) as [E|_]; [contradiction|]. cbn [Z.eqb negb orb].
  destruct (generalized_challenge_spec _ _ _ (next_label _ _ _ _ 51 H1) buf1 msg MSTART Hb1
    (Some (encode Q ++ encode (pmul (le_val a) Q) ++ encode (pmul r Q))) (encode (pmul r B)) K
    (veddsa_extra _ len (encode_app_nonempty _ _) (proj1 Hlen)) (encode_length _) (encode_length _)
    ltac:(rewrite mstart; cbn [default id]; rewrite !length_app, !encode_length; lia)) as (buf3 & _ & ->).
  rewrite bind_some, hash_scalar. fold H. rewrite crypto_verify_32_spec by apply length_le_bytes.
  rewrite decide_True by reflexivity. cbn [Z.eqb negb].
  rewrite (generalized_calculate_vrf_output_spec _ _ _ (next_label _ _ _ _ 52 (next_label _ _ _ _ 51 H1)) fresh _ (Hf _)).
  - rewrite (ge_p3_tobytes_is _ _ (ge_scalarmult_cofactor_is _ _ HKv)). reflexivity.
  - rewrite (ge_p3_tobytes_is _ _ (ge_scalarmult_cofactor_is _ _ HKv)). apply encode_length.
Qed.
End Vrf.

(** What gen_x.c signs as a verifiable random function, it verifies, whatever random bytes and
    memory each side has: the output is a function of the key, the message and the label.  A key
    and a message that hash to the neutral point are refused by the signer. *)
Lemma xveddsa_correct k msg label : length k = 32%nat -> clamped k ->
  (length (default [] label) <= LABELMAXLEN)%nat -> Z.of_nat (length msg) <= MSGMAXLEN ->
  exists (a : Z) (p : ge_p3) (Q : pt), ~ (order | a) /\ vrf_point label (encode (pmul a B)) msg = Some p /\ p3_is p Q /\
    forall fresh1 fresh2 random, allocates fresh1 -> allocates fresh2 -> (32 <= length random)%nat ->
      match generalized_xveddsa_25519_sign fresh1 k msg random label with
      | None => Q = pzero
      | Some sig => Q <> pzero /\ length sig = 96%nat /\
          generalized_xveddsa_25519_verify fresh2 sig (mont_bytes (pmul (le_val k) B)) msg label = Some (vrf_output label a Q)
      end.
Proof.
  intros Hk Hc Hl Hm. destruct (keypair_spec k Hk Hc) as (a & Ek & Ha & Hv & Hd & Ho & Em). rewrite Em.
  destruct (vrf_point_is label (encode (pmul (le_val a) B)) msg) as (p & Q & Ep & Hp & HQ).
  exists (le_val a), p, Q. split; [exact Hd|]. split; [exact Ep|]. split; [exact Hp|]. intros fresh1 fresh2 random Hf1 Hf2 Hr.
  unfold generalized_xveddsa_25519_sign, generalized_xveddsa_25519_verify. rewrite Ek.
  destruct (veddsa_sign_spec a Ha Hv msg Hm label Hl p Q Ep Hp HQ fresh1 random Hf1 Hr) as (r & ->).
  destruct (decide (Q = pzero)) as [E|Hn]; [exact E|]. split; [exact Hn|].
  split; [unfold veddsa_proof; rewrite !length_app, encode_length, !length_le_bytes; reflexivity|].
  rewrite (convert_spec _ (not_divided_nonzero _ Hd) Ho), bind_some.
  exact (veddsa_verify_spec a Ha Hv msg Hm label Hl p Q Ep Hp HQ fresh2 r Hf2 Hn Hd).
Qed.
