(* ===== verification/CurveInstance.v ===== *)
(** The laws that [curve.c] and the sessions rely on, proved of the code of the curve25519
    directory: Diffie-Hellman with curve25519-donna commutes for every base point, and what
    curve_sigs.c and gen_x.c sign, they verify under donna's public keys.  The instances
    discharge [Curve25519Laws], [Curve25519SignatureLaws] and [XveddsaLaws]. *)

From Stdlib Require Import Field.
From S2P Require Import Prelude Buffers Crypto Limbs Scalar Donna DonnaField DonnaLadder DonnaBytes Primes Edwards Field25519 Fe FeField FeBytes Ge GeTables GeScalar Sha512 Sha512Facts Xeddsa GeFacts GeTableFacts GeScalarFacts EncodeFacts GroupOrder XeddsaFacts ElligatorFacts MontgomeryLadder Generalized GeneralizedBuffers GeneralizedFacts.

Add Field field_instance : (field_laws (F := F25519)).

(* ------------------------------------------------------------------ *)
(** ** X25519 *)

Lemma X25519_res k u : X25519 k u = res (inj (X25519 k u)).
Proof. rewrite res_inj. symmetry. apply Z.mod_small, X25519_range. Qed.

(** The coordinate of a multiple, on either curve. *)
Lemma X25519_comm k l u : 0 <= k < 2 ^ 256 -> 0 <= l < 2 ^ 256 -> X25519 k (X25519 l u) = X25519 l (X25519 k u).
Proof.
  intros Hk Hl. rewrite (X25519_res k), (X25519_res l (X25519 k u)). f_equal.
  destruct (every_coordinate (inj u)) as [[P E]|[P E]].
  - pose proof (fun k u P => X25519_multiple 1%F curve_sign k u P) as H.
    rewrite (H k _ _ Hk (H l u P Hl E)), (H l _ _ Hl (H k u P Hk E)), <- !pmul_mul, Z.mul_comm. reflexivity.
  - pose proof (fun k u P => X25519_multiple (- (1))%F twist_sign k u P) as H.
    rewrite (H k _ _ Hk (H l u P Hl E)), (H l _ _ Hl (H k u P Hk E)), <- !pmul_mul, Z.mul_comm. reflexivity.
Qed.

Lemma secret_range (k : bytes) : length k = 32%nat -> 0 <= le_val k < 2 ^ 256.
Proof. intros Hk. pose proof (le_val_range k) as H. rewrite Hk in H. exact H. Qed.

Lemma donna_val k b : le_val (donna k b) mod 2 ^ 255 = X25519 (le_val k) (le_val b mod 2 ^ 255).
Proof.
  rewrite donna_spec, le_val_le_bytes. pose proof (X25519_range (le_val k) (le_val b mod 2 ^ 255)) as H. unfold p25519 in H.
  set (x := X25519 _ _) in *. change (256 ^ Z.of_nat 32) with (2 ^ 256). rewrite (Z.mod_small x), Z.mod_small; lia.
Qed.

Lemma donna_commutes a b base : length a = 32%nat -> length b = 32%nat -> donna a (donna b base) = donna b (donna a base).
Proof.
  intros Ha%secret_range Hb%secret_range. rewrite (donna_spec a), (donna_spec b (donna a base)), !donna_val. f_equal. by apply X25519_comm.
Qed.

(** The base point 9 is the base point of the Edwards curve. *)
Definition nine : bytes := u8 9 :: repeat x00 31.

Lemma nine_is_B : inj 9 = u_of 1%F B.
Proof.
  unfold u_of. change (py B) with (inj B_y). assert (f_sub f_1 (inj B_y) <> f_0) as Hn.
  { rewrite <- inj_0, <- inj_1, <- inj_sub, inj_eq. vm_compute. discriminate. }
  apply (f_mul_cancel (f_sub f_1 (inj B_y))); [exact Hn|]. transitivity (f_add (inj B_y) f_1).
  - inj_compute.
  - field. exact Hn.
Qed.

Lemma donna_base k : length k = 32%nat -> donna k nine = mont_bytes (pmul (le_val k) B).
Proof.
  intros Hk. rewrite donna_spec. change (le_val nine mod 2 ^ 255) with 9. unfold mont_bytes. f_equal. rewrite X25519_res. f_equal.
  rewrite (X25519_multiple 1%F curve_sign _ _ B (secret_range k Hk) nine_is_B). unfold u_of, mont_u. ring.
Qed.

(** The two ways to compute a public key agree. *)
Lemma keygen_is_donna k : length k = 32%nat -> le_val k < 2 ^ 255 -> curve25519_keygen k = donna k nine.
Proof. intros Hk Hv. rewrite donna_base by done. by apply curve25519_keygen_is. Qed.

(* ------------------------------------------------------------------ *)
(** ** The instances *)

Lemma some_eq {A} (x y : A) : Some x = Some y -> y = x.
Proof. congruence. Qed.

Definition SignalCurve : Curve25519 := {|
  curve25519_donna s b := Some (donna s b);
  curve25519_sign k msg random := Ok (ed_curve25519_sign k msg random);
  curve25519_verify sig pub msg := ed_curve25519_verify sig pub msg =? 0
|}.

#[global] Instance SignalCurveLaws : Curve25519Laws SignalCurve.
Proof.
  split; cbn [curve25519_donna SignalCurve].
  - intros s b out E. assert (out = donna s b) as -> by congruence. rewrite donna_spec. apply length_le_bytes.
  - intros s b _ _. by eexists.
  - intros a b base pa pb Ha Hb _ Ea Eb. assert (pa = donna a base) as -> by congruence. assert (pb = donna b base) as -> by congruence.
    exact (f_equal Some (donna_commutes a b base Ha Hb)).
Qed.

#[global] Instance SignalCurveSignatureLaws : Curve25519SignatureLaws SignalCurve.
Proof.
  split. cbn [curve25519_donna curve25519_sign curve25519_verify SignalCurve]. intros k pub msg random sig Hk Hc Ep Es.
  assert (pub = donna k nine) as -> by exact (some_eq _ _ Ep). assert (sig = ed_curve25519_sign k msg random) as -> by congruence.
  destruct (clamped_val k Hk Hc) as [H8 Hv]. rewrite (donna_base k Hk), (ed_curve25519_correct k msg random Hk (proj2 Hv) (clamped_nonzero _ H8 Hv)).
  split; [exact (ed_curve25519_sign_length k msg random Hk (proj2 Hv))|reflexivity].
Qed.

Section vrf.
  Context (fresh : nat -> bytes) (Hf : allocates fresh).

(** curve.c gives no label, and 64 random bytes. *)
Definition SignalXveddsa : Xveddsa := {|
  xveddsa_sign k msg random := if (length random <? RANDLEN)%nat then None else generalized_xveddsa_25519_sign fresh k msg random None;
  xveddsa_verify sig pub msg := generalized_xveddsa_25519_verify fresh sig pub msg None
|}.

Lemma vrf_output_length label a Q : length (vrf_output label a Q) = 32%nat.
Proof. unfold vrf_output. rewrite length_take, crypto_hash_sha512_length. reflexivity. Qed.

(** Only messages of at most MSGMAXLEN bytes are signed. *)
Lemma signed_length k msg random sig label : generalized_xveddsa_25519_sign fresh k msg random label = Some sig -> Z.of_nat (length msg) <= MSGMAXLEN.
Proof.
  unfold generalized_xveddsa_25519_sign, generalized_veddsa_25519_sign. destruct (calculate_25519_keypair k).
  destruct (message_buffer fresh msg label) as [buf|] eqn:E; [intros _|discriminate]. exact (proj2 (message_buffer_some _ _ _ _ E)).
Qed.

Lemma SignalXveddsaLaws : XveddsaLaws SignalXveddsa SignalCurve.
Proof using Hf.
  split. cbn [curve25519_donna SignalCurve xveddsa_sign xveddsa_verify SignalXveddsa]. intros k pub msg random sig Hk Hc Ep Es.
  assert (pub = donna k nine) as -> by exact (some_eq _ _ Ep). rewrite (donna_base k Hk). destruct (Nat.ltb_spec (length random) RANDLEN) as [_|Hr]; [discriminate|].
  destruct (xveddsa_correct k msg None Hk Hc ltac:(cbn; lia) (signed_length _ _ _ _ _ Es)) as (a & p & Q & _ & _ & _ & H).
  specialize (H fresh fresh random Hf Hf Hr). rewrite Es in H. destruct H as (_ & Hl & Hv).
  split; [exact Hl|]. eexists. split; [exact Hv|apply vrf_output_length].
Qed.
End vrf.

(* ------------------------------------------------------------------ *)
(** ** What verification accepts *)

Lemma top_bits (s : bytes) : length s = 32%nat -> Z.land (byte_at s 31) 224 = 0 <-> le_val s < 2 ^ 253.
Proof.
  intros Hs. pose proof (le_val_range s) as Hr. rewrite Hs in Hr. change (256 ^ Z.of_nat 32) with (2 ^ 256) in Hr.
  rewrite byte_at_div. change (256 ^ Z.of_nat 31) with (2 ^ 248). set (v := le_val s) in *.
  assert (0 <= v / 2 ^ 248 < 256) as Ht by (split; [apply Z.div_pos; lia|apply Z.div_lt_upper_bound; lia]). rewrite Z.mod_small by done.
  assert (v < 2 ^ 253 <-> v / 2 ^ 248 < 32) as ->.
  { split; intros H; [apply Z.div_lt_upper_bound; lia|]. pose proof (Z.mod_pos_bound v (2 ^ 248) ltac:(lia)). pose proof (Z.div_mod v (2 ^ 248) ltac:(lia)). lia. }
  set (t := v / 2 ^ 248) in *. clearbody t. assert (Forall (fun z => Z.land z 224 = 0 <-> z < 32) (seqZ 0 256)) as Hf.
  { apply Forall_forall. intros z Hz%elem_of_seqZ. change 224 with (Z.shiftl 7 5). split; intros H.
    - apply Z.nle_gt. intros Hge. assert (Z.land (Z.shiftr z 5) 7 = 0) as E.
      { transitivity (Z.shiftr (Z.land z (Z.shiftl 7 5)) 5); [|by rewrite H]. rewrite Z.shiftr_land, Z.shiftr_shiftl_l by lia. done. }
      change 7 with (Z.ones 3) in E. rewrite Z.land_ones, Z.shiftr_div_pow2 in E by lia. rewrite Z.mod_small in E; [|split; [apply Z.div_pos; lia|apply Z.div_lt_upper_bound; lia]].
      assert (32 <= z) by lia. assert (1 <= z / 2 ^ 5) by (apply Z.div_le_lower_bound; lia). lia.
    - apply Z.bits_inj'. intros j Hj. rewrite Z.land_spec, Z.bits_0. destruct (decide (j < 5)).
      + rewrite Z.shiftl_spec_low by lia. apply andb_false_r.
      + rewrite (testbit_above z 5) by lia. done. }
  rewrite Forall_forall in Hf. apply Hf. apply elem_of_seqZ. lia.
Qed.

Lemma byte_at_slice_at s o n i : (i < n)%nat -> byte_at (slice o n s) i = byte_at s (o + i).
Proof.
  intros Hi. change (slice o n s) with (slice 0 n (drop o s)). rewrite byte_at_slice by done. unfold byte_at. by rewrite nth_skipn.
Qed.

(** The point that 32 bytes encode, by its coordinate and the sign bit of the other one. *)
Definition decodes (s : bytes) (Q : pt) : Prop := py Q = coordinate s /\ (px Q = f_0 \/ odd (px Q) = sign s).

Definition verification_challenge (sm pk : bytes) : Z := le_val (crypto_hash_sha512 (slice 0 32 sm ++ pk ++ drop 64 sm)) mod order.

Lemma open_check_iff sm pk : length pk = 32%nat ->
  open_check sm pk = true <-> (64 <= length sm)%nat /\ le_val (slice 32 32 sm) < 2 ^ 253 /\
    exists Q, decodes pk Q /\ slice 0 32 sm = encode (padd (pmul (verification_challenge sm pk) (pneg Q)) (pmul (le_val (slice 32 32 sm)) B)).
Proof.
  intros Hpk. unfold open_check. destruct (Nat.ltb_spec (length sm) 64) as [Hl|Hl]; [split; [discriminate|intros [H _]; lia]|].
  assert (length (slice 0 32 sm) = 32%nat /\ length (slice 32 32 sm) = 32%nat) as [HR HS] by (unfold slice; rewrite !length_take, !length_drop; lia).
  assert (byte_at sm 63 = byte_at (slice 32 32 sm) 31) as ->.
  { by rewrite byte_at_slice_at by lia. }
  pose proof (top_bits _ HS) as Ht. destruct (Z.eqb_spec (Z.land (byte_at (slice 32 32 sm) 31) 224) 0) as [E0|E0]; cbn [negb];
    [apply Ht in E0|split; [discriminate|intros (_ & H & _); tauto]].
  rewrite (slice_all 32 pk Hpk). set (k := sc_reduce _). assert (length k = 32%nat /\ le_val k = verification_challenge sm pk) as [Hk Ek].
  { split; [apply sc_reduce_length, crypto_hash_sha512_length|apply sc_reduce_val, crypto_hash_sha512_length]. }
  clearbody k. destruct (ge_frombytes_negate_vartime pk) as [A|] eqn:EA.
  - destruct (frombytes_some _ _ EA) as (Q & HA & HQ). set (S := slice 32 32 sm) in *.
    pose proof (ge_double_scalarmult_vartime_is k A S (pneg Q) Hk ltac:(rewrite Ek; apply below_253) HS ltac:(lia) HA) as H2.
    rewrite (ge_tobytes_is _ _ H2), Z.eqb_eq, (crypto_verify_32_spec _ _ (encode_length _) HR), Ek.
    assert (forall Q', decodes pk Q' -> Q' = Q) as Hu.
    { intros Q' [Ey Hs]. destruct HQ as [Ey0 Hs0]. assert (py Q' = py Q) as E by (rewrite Ey0; exact Ey).
      destruct Hs as [Hs|Hs]; [exact (sign_determines _ _ E (or_introl Hs))|].
      destruct Hs0 as [Hs0|Hs0]; [symmetry; exact (sign_determines _ _ (eq_sym E) (or_introl Hs0))|].
      apply (sign_determines _ _ E). right. rewrite Hs. exact (eq_sym Hs0). }
    split.
    + case_decide as E; [intros _|discriminate]. split; [exact Hl|]. split; [exact E0|]. exists Q. split; [exact HQ|]. by rewrite E.
    + intros (_ & _ & Q' & HQ' & E). rewrite (Hu Q' HQ') in E. rewrite E. by rewrite decide_True.
  - split; [discriminate|]. intros (_ & _ & Q & [Ey _] & _). contradiction (frombytes_none _ EA Q Ey).
Qed.
