(* ===== verification/SignatureGuarantees.v ===== *)
(** What the curve25519 directory promises to [curve.c]: the field arithmetic of
    curve25519-donna, Diffie-Hellman, signatures and the verifiable random function, and the
    parts they are made of. *)

From S2P Require Import Prelude Buffers Crypto Limbs Scalar ScalarFacts Donna DonnaField DonnaLadder DonnaBytes Fe FeField FeBytes Ge GeTables GeScalar Sha512 Sha512Facts Xeddsa Primes Edwards Field25519 GeFacts GeTableFacts GeScalarFacts EncodeFacts GroupOrder XeddsaFacts ElligatorFacts MontgomeryLadder Generalized GeneralizedBuffers GeneralizedFacts CurveInstance.

(** C35: On any 32-byte secret and base point [curve25519_donna] answers the 32
    bytes of the X25519 function of RFC 7748 (the Montgomery ladder over all 256
    bits of the secret as it is, the top bit of the base point ignored, the
    division by the power [p - 2]), reduced below [2 ^ 255 - 19]: the limb
    arithmetic, the conditional swaps, the chain of exponents and the conversions
    lose nothing. *)
Theorem donna_is_x25519 secret basepoint :
  donna secret basepoint = le_bytes 32 (X25519 (le_val secret) (le_val basepoint mod 2 ^ 255)) /\
  le_val (donna secret basepoint) = X25519 (le_val secret) (le_val basepoint mod 2 ^ 255) /\
  le_val (donna secret basepoint) < 2 ^ 255 - 19.
Proof.
  pose proof (X25519_range (le_val secret) (le_val basepoint mod 2 ^ 255)) as H. unfold p25519 in H.
  rewrite donna_spec, le_val_le_bytes. split; [done|]. rewrite Z.mod_small; lia.
Qed.

(** On limbs of absolute value at most [2 ^ 27], as sums and differences leave
    them, multiplication and squaring stay within the 64-bit limbs and leave limbs
    below [2 ^ 26] that stand for the product and the square modulo the prime. *)
Theorem products_within_bounds a b : limbs (2 ^ 27) a -> limbs (2 ^ 27) b ->
  long_limbs (fproduct a b) /\ eval (fproduct a b) = eval a * eval b /\
  limbs (2 ^ 26 - 1) (fmul a b) /\ eval (fmul a b) mod p25519 = (eval a * eval b) mod p25519 /\
  limbs (2 ^ 26 - 1) (fsquare a) /\ eval (fsquare a) mod p25519 = (eval a * eval a) mod p25519.
Proof.
  intros Ha Hb. destruct (fproduct_spec a b Ha Hb) as [H1 H2]. do 2 (split; [done|]).
  pose proof (limbs_repr _ _ Ha) as La. pose proof (limbs_repr _ _ Hb) as Lb.
  destruct (fmul_repr a b _ _ La Lb) as [H3 H4], (fsquare_repr a _ La) as [H5 H6].
  unfold fmul, fsquare in *. rewrite take_take in H3, H4, H5, H6. done.
Qed.

Lemma products_within_bounds_witness :
  limbs (2 ^ 26 - 1) (fmul (repeat (2 ^ 27) 10) (repeat (- 2 ^ 27) 10)) /\
  limbs (2 ^ 26 - 1) (fsquare (repeat (2 ^ 27) 10)).
Proof.
  destruct (products_within_bounds (repeat (2 ^ 27) 10) (repeat (- 2 ^ 27) 10)) as (_ & _ & H1 & _ & H2 & _);
    [by split; [|repeat constructor]..|]. exact (conj H1 H2).
Defined.

(** [fcontract] writes any limbs below [2 ^ 26] as the 32 bytes of the one
    number below [2 ^ 255 - 19] they stand for, and [fexpand] reads them back as
    that number; the 32 bytes of any number below the prime are written again as
    they were read. *)
Theorem contract_expand x c : limbs (2 ^ 26 - 1) x -> length c = 32%nat -> le_val c < 2 ^ 255 - 19 ->
  length (fcontract x) = 32%nat /\ le_val (fcontract x) = eval x mod p25519 /\
  eval (fexpand (fcontract x)) = eval x mod p25519 /\
  fcontract (fexpand c) = c.
Proof.
  intros Hx Hl Hc. pose proof (limbs_repr _ _ Hx) as Rx. rewrite (fcontract_spec _ _ Rx).
  pose proof (Z.mod_pos_bound (eval x) p25519 ltac:(done)) as Hm. unfold p25519 in Hm at 2.
  split; [apply length_le_bytes|]. rewrite fexpand_value, le_val_le_bytes, !(Z.mod_small (_ mod _)) by (unfold p25519 in *; lia).
  do 2 (split; [done|]). pose proof (le_val_range c).
  rewrite (fcontract_spec _ _ (fexpand_spec c)), !Z.mod_small by (unfold p25519; rewrite ?Z.mod_small; lia).
  rewrite <- Hl. apply le_bytes_le_val.
Qed.

Lemma contract_expand_witness :
  le_val (fcontract (repeat (- (2 ^ 26 - 1)) 10)) = eval (repeat (- (2 ^ 26 - 1)) 10) mod p25519 /\
  fcontract (fexpand (u8 9 :: repeat x00 31)) = u8 9 :: repeat x00 31.
Proof.
  destruct (contract_expand (repeat (- (2 ^ 26 - 1)) 10) (u8 9 :: repeat x00 31)) as (_ & H1 & _ & H2);
    [by split; [|repeat constructor]|done|vm_compute; reflexivity|]. exact (conj H1 H2).
Defined.

(** A clamped secret, and memory that happens to be zero. *)
Definition sample_key : bytes := repeat x00 31 ++ [u8 64].
Definition zeroed (n : nat) : bytes := repeat x00 n.

Lemma sample_clamped : clamped sample_key.
Proof. exists x00, (u8 64). repeat split. Qed.
Lemma zeroed_allocates : allocates zeroed.
Proof. intros n. apply repeat_length. Qed.

(** C6: For any two secrets of 32 bytes and any base point, on the curve or on its twist, of any
    order, both orders of applying curve25519_donna give the same bytes; on the base point 9 it
    answers the u-coordinate of the multiple of the base point of Ed25519, which is what
    curve25519_keygen computes on Edwards coordinates for every secret below [2 ^ 255]. *)
Theorem diffie_hellman_commutes a b base : length a = 32%nat -> length b = 32%nat ->
  donna a (donna b base) = donna b (donna a base) /\
  donna a nine = mont_bytes (pmul (le_val a) B) /\
  (le_val a < 2 ^ 255 -> curve25519_keygen a = donna a nine).
Proof.
  intros Ha Hb. split; [exact (donna_commutes a b base Ha Hb)|]. split; [exact (donna_base a Ha)|exact (keygen_is_donna a Ha)].
Qed.

Lemma diffie_hellman_commutes_witness :
  donna sample_key (donna (repeat (u8 255) 32) (repeat (u8 2) 32)) = donna (repeat (u8 255) 32) (donna sample_key (repeat (u8 2) 32)) /\
  curve25519_keygen sample_key = donna sample_key nine.
Proof.
  destruct (diffie_hellman_commutes sample_key (repeat (u8 255) 32) (repeat (u8 2) 32) eq_refl eq_refl) as (H1 & _ & H2).
  split; [exact H1|]. apply H2. vm_compute. reflexivity.
Defined.

(** C7: With a clamped secret, what curve25519_sign makes has 64 bytes and curve25519_verify
    accepts it under the public key of curve25519_donna, for every message and every random
    bytes; so does xed25519_verify what xed25519_sign makes, up to its limit of 256 bytes, and
    beyond it xed25519_verify refuses. *)
Theorem curve_signatures_verify k msg random : length k = 32%nat -> clamped k ->
  length (ed_curve25519_sign k msg random) = 64%nat /\
  ed_curve25519_verify (ed_curve25519_sign k msg random) (donna k nine) msg = 0 /\
  xed25519_verify (xed25519_sign k msg random) (donna k nine) msg = if (length msg <=? MAX_MSG_LEN)%nat then 0 else -1.
Proof.
  intros Hk Hc. destruct (clamped_val k Hk Hc) as [H8 [H254 Hv]]. pose proof (clamped_nonzero _ H8 (conj H254 Hv)) as Hn. rewrite (donna_base k Hk).
  split; [exact (ed_curve25519_sign_length k msg random Hk Hv)|]. split; [exact (ed_curve25519_correct k msg random Hk Hv Hn)|].
  destruct (Nat.leb_spec (length msg) MAX_MSG_LEN) as [Hm|Hm]; [exact (xed25519_correct k msg random Hk Hv Hn Hm)|].
  unfold xed25519_verify. rewrite (proj2 (Nat.ltb_lt _ _) Hm). reflexivity.
Qed.

Lemma curve_signatures_verify_witness :
  ed_curve25519_verify (ed_curve25519_sign sample_key [u8 1] []) (donna sample_key nine) [u8 1] = 0 /\
  xed25519_verify (xed25519_sign sample_key [u8 1] []) (donna sample_key nine) [u8 1] = 0.
Proof. exact (proj2 (curve_signatures_verify sample_key [u8 1] [] eq_refl sample_clamped)). Defined.

(** C8: Under a clamped secret, a label of at most 128 bytes and a message of at most 1048576,
    generalized_xeddsa_25519_verify accepts what generalized_xeddsa_25519_sign makes, and
    generalized_xveddsa_25519_sign makes 96 bytes from which generalized_xveddsa_25519_verify
    computes an output that is a function of the key, the label and the message: the random
    bytes and the contents of fresh memory on either side do not matter.  Only a key and a message
    that hash to the neutral point are refused. *)
Theorem generalized_signatures_verify k msg label : length k = 32%nat -> clamped k ->
  (length (default [] label) <= LABELMAXLEN)%nat -> Z.of_nat (length msg) <= MSGMAXLEN ->
  exists (a : Z) (p : ge_p3) (Q : pt), ~ (order | a) /\ vrf_point label (encode (pmul a B)) msg = Some p /\ p3_is p Q /\
    forall fresh1 fresh2 random, allocates fresh1 -> allocates fresh2 -> (32 <= length random)%nat ->
      (exists sig, generalized_xeddsa_25519_sign fresh1 k msg random label = Some sig /\ length sig = 64%nat /\
         generalized_xeddsa_25519_verify fresh2 sig (donna k nine) msg label = 0) /\
      match generalized_xveddsa_25519_sign fresh1 k msg random label with
      | None => Q = pzero
      | Some sig => Q <> pzero /\ length sig = 96%nat /\
          generalized_xveddsa_25519_verify fresh2 sig (donna k nine) msg label = Some (vrf_output label a Q)
      end.
Proof.
  intros Hk Hc Hl Hm. rewrite (donna_base k Hk). destruct (xveddsa_correct k msg label Hk Hc Hl Hm) as (a & p & Q & Ha & Ep & Hp & H).
  exists a, p, Q. split; [exact Ha|]. split; [exact Ep|]. split; [exact Hp|]. intros fresh1 fresh2 random Hf1 Hf2 Hr.
  split; [exact (xeddsa_correct fresh1 fresh2 k msg random label Hf1 Hf2 Hk Hc Hr Hl Hm)|exact (H fresh1 fresh2 random Hf1 Hf2 Hr)].
Qed.

Lemma generalized_signatures_verify_witness :
  (exists sig, generalized_xeddsa_25519_sign zeroed sample_key [u8 1] (repeat x00 32) None = Some sig /\
    generalized_xeddsa_25519_verify zeroed sig (donna sample_key nine) [u8 1] None = 0) /\
  exists (a : Z) (Q : pt),
    generalized_xveddsa_25519_sign zeroed sample_key [u8 1] (repeat x00 32) None = None /\ Q = pzero \/
    exists sig, generalized_xveddsa_25519_sign zeroed sample_key [u8 1] (repeat x00 32) None = Some sig /\
      generalized_xveddsa_25519_verify zeroed sig (donna sample_key nine) [u8 1] None = Some (vrf_output None a Q).
Proof.
  destruct (generalized_signatures_verify sample_key [u8 1] None eq_refl sample_clamped) as (a & p & Q & _ & _ & _ & H); [cbn; lia|vm_compute; discriminate|].
  destruct (H zeroed zeroed (repeat x00 32) zeroed_allocates zeroed_allocates (le_n _)) as [(sig & Es & _ & Ev) Hv].
  split; [exists sig; exact (conj Es Ev)|]. exists a, Q. clear Es Ev.
  destruct (generalized_xveddsa_25519_sign zeroed sample_key [u8 1] (repeat x00 32) None) as [sig'|].
  - right. exists sig'. exact (conj eq_refl (proj2 (proj2 Hv))).
  - left. exact (conj eq_refl Hv).
Defined.

(** C9: The code of the curve25519 directory satisfies what the rest of the library is proved
    against: Diffie-Hellman agreement on 32-byte keys, signatures that verify, and the
    verifiable random function, whatever fresh memory holds. *)
Theorem curve_discharges_interface fresh : allocates fresh ->
  Curve25519Laws SignalCurve /\ Curve25519SignatureLaws SignalCurve /\ XveddsaLaws (SignalXveddsa fresh) SignalCurve.
Proof. intros Hf. exact (conj SignalCurveLaws (conj SignalCurveSignatureLaws (SignalXveddsaLaws fresh Hf))). Qed.

Lemma curve_discharges_interface_witness : XveddsaLaws (SignalXveddsa zeroed) SignalCurve.
Proof. exact (proj2 (proj2 (curve_discharges_interface zeroed zeroed_allocates))). Defined.

(** C29: For any 32-byte public key, open.c accepts a signed message exactly when it has at
    least 64 bytes, the scalar in it is below [2 ^ 253], the key decodes to a point [Q] of the
    curve, and the first 32 bytes are the encoding of [S B - h Q], with [h] the hash of these
    bytes, the key and the message modulo the order; the message is then returned, and otherwise
    zeros. *)
Theorem opens_exactly_signatures sm pk : length pk = 32%nat ->
  let S := le_val (slice 32 32 sm) in
  let valid := (64 <= length sm)%nat /\ S < 2 ^ 253 /\ exists Q, decodes pk Q /\
      slice 0 32 sm = encode (padd (pmul (verification_challenge sm pk) (pneg Q)) (pmul S B)) in
  (valid /\ crypto_sign_open sm pk = (0, Z.of_nat (length sm - 64), drop 64 sm ++ repeat x00 64)) \/
  (~ valid /\ crypto_sign_open sm pk = (-1, 2 ^ 64 - 1, repeat x00 (length sm))).
Proof.
  intros Hpk S valid. pose proof (open_check_iff sm pk Hpk) as H. fold S in H. fold valid in H. unfold crypto_sign_open.
  destruct (open_check sm pk); [left|right]; (split; [|reflexivity]).
  - exact (proj1 H eq_refl).
  - intros Hv. discriminate (proj2 H Hv).
Qed.

(** C30: What sign.c makes with a secret key and the public key that belongs to it, open.c opens
    to the message. *)
Theorem ed25519_round_trip m sk : length sk = 64%nat -> slice 32 32 sk = public_of sk ->
  crypto_sign_open (crypto_sign m sk) (public_of sk) = (0, Z.of_nat (length m), m ++ repeat x00 64).
Proof. exact (crypto_sign_correct m sk). Qed.

Definition sample_seed : bytes := repeat x00 32.
Definition sample_sk : bytes := sample_seed ++ public_of (sample_seed ++ sample_seed).

Lemma public_of_seed (a b : bytes) : length a = 32%nat -> let sk := a ++ public_of (a ++ b) in
  length sk = 64%nat /\ slice 32 32 sk = public_of sk.
Proof.
  intros Ha sk. assert (forall c, public_of (a ++ c) = public_of (a ++ b)) as Hp.
  { intros c. unfold public_of, secret_scalar, expanded. rewrite !(slice_left 32 a) by exact Ha. reflexivity. }
  unfold sk at 3. rewrite Hp. unfold sk. set (q := public_of (a ++ b)). assert (length q = 32%nat) as Hq by apply encode_length. clearbody q.
  split; [rewrite length_app, Ha, Hq; reflexivity|]. rewrite <- (app_nil_r q) at 1. exact (slice_middle 32 32 a q [] Ha Hq).
Qed.

Lemma sample_sk_ok : length sample_sk = 64%nat /\ slice 32 32 sample_sk = public_of sample_sk.
Proof. exact (public_of_seed sample_seed sample_seed eq_refl). Qed.

Lemma opens_exactly_signatures_witness :
  crypto_sign_open (repeat x00 40) (encode B) = (-1, 2 ^ 64 - 1, repeat x00 40) /\
  let sm := crypto_sign [u8 7] sample_sk in
  le_val (slice 32 32 sm) < 2 ^ 253 /\
  exists Q, decodes (public_of sample_sk) Q /\
    slice 0 32 sm = encode (padd (pmul (verification_challenge sm (public_of sample_sk)) (pneg Q))
      (pmul (le_val (slice 32 32 sm)) B)).
Proof.
  split.
  - destruct (opens_exactly_signatures (repeat x00 40) (encode B) (encode_length B)) as [[[H _] _]|[_ H]]; [cbn in H; lia|exact H].
  - destruct (opens_exactly_signatures (crypto_sign [u8 7] sample_sk) (public_of sample_sk) (encode_length _))
      as [[[_ H] _]|[_ H]]; [exact H|].
    rewrite (crypto_sign_correct [u8 7] sample_sk (proj1 sample_sk_ok) (proj2 sample_sk_ok)) in H. discriminate H.
Defined.

Lemma ed25519_round_trip_witness : crypto_sign_open (crypto_sign [u8 7] sample_sk) (public_of sample_sk) = (0, 1, [u8 7] ++ repeat x00 64).
Proof. exact (ed25519_round_trip [u8 7] sample_sk (proj1 sample_sk_ok) (proj2 sample_sk_ok)). Defined.

(** C31: crypto_hash_sha512, with its unrolled rounds, its rolling message schedule and its
    padding of one or two blocks, is SHA-512 of FIPS 180-4 on every message whose length in bytes
    an unsigned long long holds. *)
Theorem sha512_is_fips_180_4 m : Z.of_nat (length m) < 2 ^ 64 -> crypto_hash_sha512 m = SHA_512 m.
Proof. exact (crypto_hash_sha512_spec m). Qed.

Lemma sha512_is_fips_180_4_witness :
  crypto_hash_sha512 [u8 97; u8 98; u8 99] = SHA_512 [u8 97; u8 98; u8 99] /\
  le_val (rev (SHA_512 [u8 97; u8 98; u8 99])) =
    0xddaf35a193617abacc417349ae20413112e6fa4e89a97ea20a9eeee64b55d39a2192992a274fc1a836ba3c23a3feebbd454d4423643ce80e2a9ac94fa54ca49f.
Proof. split; [apply (sha512_is_fips_180_4 [u8 97; u8 98; u8 99]); reflexivity|vm_compute; reflexivity]. Defined.

(** C32: Scalars modulo the order of the base point are exact: sc_reduce gives the remainder of
    any 64 bytes, sc_muladd that of [a b + c] for any 32 bytes each, sc_neg that of [-a], as the
    32 bytes of the one remainder below the order; sc_isreduced accepts just these. *)
Theorem scalar_arithmetic_exact s a b c : length s = 64%nat -> length a = 32%nat -> length b = 32%nat -> length c = 32%nat ->
  sc_reduce s = le_bytes 32 (le_val s mod order) /\
  sc_muladd a b c = le_bytes 32 ((le_val a * le_val b + le_val c) mod order) /\
  sc_neg a = le_bytes 32 ((- le_val a) mod order) /\
  (sc_isreduced a = 1 <-> le_val a < order).
Proof.
  intros Hs Ha Hb Hc. split; [exact (sc_reduce_spec s Hs)|]. split; [exact (sc_muladd_spec a b c Ha Hb Hc)|]. split; [exact (sc_neg_spec a Ha)|].
  split; [intros E|intros Hv].
  - pose proof (sc_isreduced_canonical a Ha E) as E'. rewrite E'. rewrite reduced_val. apply Z.mod_pos_bound. reflexivity.
  - pose proof (le_val_range a) as Hr. rewrite <- (sc_isreduced_reduced (le_val a)). f_equal. rewrite Z.mod_small by lia. rewrite <- Ha. symmetry. apply le_bytes_le_val.
Qed.

Lemma scalar_arithmetic_exact_witness :
  sc_muladd (repeat (u8 255) 32) (repeat (u8 255) 32) (repeat (u8 255) 32) = le_bytes 32 (((2 ^ 256 - 1) * (2 ^ 256 - 1) + (2 ^ 256 - 1)) mod order).
Proof.
  exact (proj1 (proj2 (scalar_arithmetic_exact (repeat x00 64) (repeat (u8 255) 32) (repeat (u8 255) 32) (repeat (u8 255) 32) eq_refl eq_refl eq_refl eq_refl))).
Defined.

(** C33: The three ways of multiplying points are multiplication in the group: by 64 signed digits
    of 4 bits with the precomputed table of the base point, by the same digits with a table of any
    point, and the sum of two multiples in sliding windows; so is the cofactor by three doublings. *)
Theorem multiplications_exact a b A (P : pt) : length a = 32%nat -> length b = 32%nat -> p3_is A P ->
  (le_val a < 2 ^ 255 -> ge_p3_tobytes (ge_scalarmult_base a) = encode (pmul (le_val a) B) /\
                         ge_p3_tobytes (ge_scalarmult a A) = encode (pmul (le_val a) P)) /\
  (le_val a <= 2 ^ 253 -> le_val b <= 2 ^ 253 ->
     ge_tobytes (ge_double_scalarmult_vartime a A b) = encode (padd (pmul (le_val a) P) (pmul (le_val b) B))) /\
  ge_p3_tobytes (ge_scalarmult_cofactor A) = encode (pmul 8 P).
Proof.
  intros Ha Hb HA. split; [intros Hv; split|split; [intros Hv Hw|]].
  - exact (ge_p3_tobytes_is _ _ (ge_scalarmult_base_is a Ha Hv)).
  - exact (ge_p3_tobytes_is _ _ (ge_scalarmult_is a A P Ha Hv HA)).
  - exact (ge_tobytes_is _ _ (ge_double_scalarmult_vartime_is a A b P Ha Hv Hb Hw HA)).
  - exact (ge_p3_tobytes_is _ _ (ge_scalarmult_cofactor_is A P HA)).
Qed.

Lemma multiplications_exact_witness :
  ge_p3_tobytes (ge_scalarmult sample_key (ge_scalarmult_base sample_key)) = encode (pmul (le_val sample_key) (pmul (le_val sample_key) B)).
Proof.
  assert (le_val sample_key < 2 ^ 255) as Hv by (vm_compute; reflexivity).
  destruct (multiplications_exact sample_key sample_key _ _ eq_refl eq_refl (ge_scalarmult_base_is sample_key eq_refl Hv)) as [H _]. exact (proj2 (H Hv)).
Defined.

(** C34: Decoding inverts encoding (ge_frombytes_negate_vartime answers the opposite of the
    point, as its name says), different points have different encodings, and any other bytes are
    refused exactly when no point of the curve has the y-coordinate they hold modulo the prime. *)
Theorem point_encoding_exact (P Q : pt) s :
  (exists A, ge_frombytes_negate_vartime (encode P) = Some A /\ p3_is A (pneg P)) /\
  (encode P = encode Q -> P = Q) /\
  match ge_frombytes_negate_vartime s with
  | Some A => exists R : pt, decodes s R /\ p3_is A (pneg R)
  | None => forall R : pt, py R <> coordinate s
  end.
Proof.
  split; [exact (frombytes_encode P)|]. split; [exact (encode_inj P Q)|].
  destruct (ge_frombytes_negate_vartime s) as [A|] eqn:E; [|exact (frombytes_none s E)].
  destruct (frombytes_some s A E) as (R & HA & HR). exists R. exact (conj HR HA).
Qed.
