(* ===== verification/Protobuf.v ===== *)
(** The protobuf-c runtime, [protobuf-c/protobuf-c.c]: sizes, packing, scanning
    and parsing of messages described by a table of fields.

    The messages of the library have optional fields of types INT32, UINT32,
    FIXED64, BOOL, BYTES and MESSAGE, and repeated fields of type MESSAGE,
    without default values and without the PACKED and ONEOF flags; the branches
    of the runtime for other labels, types and flags are left out.

    A descriptor holds its fields in the order of their numbers and the ranges of
    those numbers; a message holds one member per field and the fields it did not
    know.  A pointer into the input is the list of the bytes from there on, so a
    read outside the input has no value: [Stuck].  A [NULL] or [FALSE] return is
    [Err 0].  [size_t] is 64 bits and [unsigned] 32 bits wide, and the machine is
    little-endian. *)

From S2P Require Import Prelude Crypto.

(* ------------------------------------------------------------------ *)
(** ** Descriptors and messages *)

Inductive ProtobufCLabel := LABEL_OPTIONAL | LABEL_REPEATED.

Inductive ProtobufCType :=
| TYPE_INT32 | TYPE_UINT32 | TYPE_FIXED64 | TYPE_BOOL | TYPE_BYTES | TYPE_MESSAGE.

Definition WIRE_TYPE_VARINT : Z := 0.
Definition WIRE_TYPE_64BIT : Z := 1.
Definition WIRE_TYPE_LENGTH_PREFIXED : Z := 2.
Definition WIRE_TYPE_32BIT : Z := 5.

(** [start_value] and [orig_index] of a range of field numbers. *)
Abbreviation ProtobufCIntRange := (Z * Z)%type.

Record ProtobufCFieldDescriptor (D : Type) := mk_field {
  f_id : Z;
  f_label : ProtobufCLabel;
  f_type : ProtobufCType;
  f_descriptor : option D }.
Arguments mk_field {D} _ _ _ _.
Arguments f_id {D} _.
Arguments f_label {D} _.
Arguments f_type {D} _.
Arguments f_descriptor {D} _.

Inductive ProtobufCMessageDescriptor :=
| mk_descriptor (fields : list (ProtobufCFieldDescriptor ProtobufCMessageDescriptor))
    (field_ranges : list ProtobufCIntRange).

Abbreviation field_descriptor := (ProtobufCFieldDescriptor ProtobufCMessageDescriptor).

Definition d_fields (d : ProtobufCMessageDescriptor) : list field_descriptor :=
  match d with mk_descriptor fs _ => fs end.
Definition d_ranges (d : ProtobufCMessageDescriptor) : list ProtobufCIntRange :=
  match d with mk_descriptor _ rs => rs end.

Record ProtobufCMessageUnknownField := mk_unknown {
  uf_tag : Z; uf_wire_type : Z; uf_data : bytes }.

(** The storage of one field: a number with its [has_] flag, the bytes of a
    [ProtobufCBinaryData] (its pointer is null when it has none) with their
    flag, a pointer to a message, an array of messages with its count. *)
Inductive member_of (A : Type) :=
| Scalar (has : bool) (value : Z)
| Binary (has : bool) (data : bytes)
| Submessage (m : option A)
| Repeated (l : list A).
Arguments Scalar {A} _ _.
Arguments Binary {A} _ _.
Arguments Submessage {A} _.
Arguments Repeated {A} _.

Inductive ProtobufCMessage :=
| mk_message (members : list (member_of ProtobufCMessage)) (unknown_fields : list ProtobufCMessageUnknownField).

Abbreviation member := (member_of ProtobufCMessage).

(** "return NULL", "return FALSE" *)
Definition fails {A} : result A := Err 0.

(* ------------------------------------------------------------------ *)
(** ** Sizes *)

Definition get_tag_size (number : Z) : Z :=
  if number <? Z.shiftl 1 4 then 1
  else if number <? Z.shiftl 1 11 then 2
  else if number <? Z.shiftl 1 18 then 3
  else if number <? Z.shiftl 1 25 then 4
  else 5.

Definition uint32_size (v : Z) : Z :=
  if v <? Z.shiftl 1 7 then 1
  else if v <? Z.shiftl 1 14 then 2
  else if v <? Z.shiftl 1 21 then 3
  else if v <? Z.shiftl 1 28 then 4
  else 5.

Definition int32_size (v : Z) : Z :=
  if v <? 0 then 10
  else if v <? Z.shiftl 1 7 then 1
  else if v <? Z.shiftl 1 14 then 2
  else if v <? Z.shiftl 1 21 then 3
  else if v <? Z.shiftl 1 28 then 4
  else 5.

(** The size of a length-prefixed payload, with the prefix. *)
Definition prefixed_size (len : Z) : Z := uint32_size (u32 len) + len.

Section sizes.
(** [protobuf_c_message_get_packed_size] of a message inside the field. *)
Variable message_size : ProtobufCMessage -> Z.

Definition required_field_get_packed_size (f : field_descriptor) (x : member) : Z :=
  let rv := get_tag_size (f_id f) in
  match f_type f, x with
  | TYPE_INT32, Scalar _ v => rv + int32_size (i32 v)
  | TYPE_UINT32, Scalar _ v => rv + uint32_size v
  | TYPE_FIXED64, _ => rv + 8
  | TYPE_BOOL, _ => rv + 1
  | TYPE_BYTES, Binary _ b => rv + prefixed_size (Z.of_nat (length b))
  | TYPE_MESSAGE, Submessage m =>
      rv + prefixed_size (match m with Some m => message_size m | None => 0 end)
  | _, _ => 0
  end.

Definition optional_field_get_packed_size (f : field_descriptor) (x : member) : Z :=
  match f_type f, x with
  | TYPE_MESSAGE, Submessage None => 0
  | TYPE_MESSAGE, _ => required_field_get_packed_size f x
  | _, Scalar has _ | _, Binary has _ => if has then required_field_get_packed_size f x else 0
  | _, _ => 0
  end.

Definition repeated_field_get_packed_size (f : field_descriptor) (x : member) : Z :=
  match x with
  | Repeated [] => 0
  | Repeated l =>
      get_tag_size (f_id f) * Z.of_nat (length l) +
      foldr (fun m acc => prefixed_size (message_size m) + acc) 0 l
  | _ => 0
  end.

Definition field_size (f : field_descriptor) (x : member) : Z :=
  match f_label f with
  | LABEL_OPTIONAL => optional_field_get_packed_size f x
  | LABEL_REPEATED => repeated_field_get_packed_size f x
  end.

End sizes.

Definition unknown_field_get_packed_size (u : ProtobufCMessageUnknownField) : Z :=
  get_tag_size (uf_tag u) + Z.of_nat (length (uf_data u)).

Fixpoint protobuf_c_message_get_packed_size (d : ProtobufCMessageDescriptor) (m : ProtobufCMessage) : Z :=
  match d, m with
  | mk_descriptor fs _, mk_message xs us =>
      (fix go fs xs :=
         match fs, xs with
         | f :: fs', x :: xs' =>
             field_size (match f_descriptor f with
                         | Some d' => protobuf_c_message_get_packed_size d'
                         | None => fun _ => 0
                         end) f x + go fs' xs'
         | _, _ => 0
         end) fs xs +
      foldr (fun u acc => unknown_field_get_packed_size u + acc) 0 us
  end.

(* ------------------------------------------------------------------ *)
(** ** Packing *)

Definition more (v : Z) : byte := u8 (Z.lor v 128).

Definition uint32_pack (value : Z) : bytes :=
  if value <? 128 then [u8 value] else
  let v1 := Z.shiftr value 7 in
  if v1 <? 128 then [more value; u8 v1] else
  let v2 := Z.shiftr v1 7 in
  if v2 <? 128 then [more value; more v1; u8 v2] else
  let v3 := Z.shiftr v2 7 in
  if v3 <? 128 then [more value; more v1; more v2; u8 v3] else
  let v4 := Z.shiftr v3 7 in
  [more value; more v1; more v2; more v3; u8 v4].

(** The value is an [int32_t]; its right shifts are arithmetic. *)
Definition int32_pack (value : Z) : bytes :=
  if value <? 0 then
    [more value; more (Z.shiftr value 7); more (Z.shiftr value 14); more (Z.shiftr value 21);
     more (Z.shiftr value 28)] ++ repeat (u8 255) 4 ++ [u8 1]
  else uint32_pack value.

(** [while(hi >= 128)]: [hi] has at most 29 bits. *)
Fixpoint hi_loop (fuel : nat) (hi : Z) : bytes :=
  match fuel with
  | O => [u8 hi]
  | S fuel' => if 128 <=? hi then more hi :: hi_loop fuel' (Z.shiftr hi 7) else [u8 hi]
  end.

Definition uint64_pack (value : Z) : bytes :=
  let hi := u32 (Z.shiftr value 32) in
  let lo := u32 value in
  if hi =? 0 then uint32_pack lo
  else
    [more lo; more (Z.shiftr lo 7); more (Z.shiftr lo 14); more (Z.shiftr lo 21)] ++
    (if hi <? 8 then [u8 (Z.lor (Z.shiftl hi 4) (Z.shiftr lo 28))]
     else u8 (Z.lor (Z.lor (Z.shiftl (Z.land hi 7) 4) (Z.shiftr lo 28)) 128) :: hi_loop 5 (Z.shiftr hi 3)).

Definition fixed64_pack (value : Z) : bytes := le_bytes 8 value.
Definition boolean_pack (value : Z) : bytes := [u8 (if value =? 0 then 0 else 1)].

Definition binary_data_pack (b : bytes) : bytes := uint32_pack (u32 (Z.of_nat (length b))) ++ b.

Definition tag_pack (id : Z) : bytes :=
  if id <? Z.shiftl 1 29 then uint32_pack (u32 (Z.shiftl id 3)) else uint64_pack (Z.shiftl id 3).

(** [out[0] |= wire_type] *)
Definition or_first (b : bytes) (wire_type : Z) : bytes :=
  match b with
  | c :: b' => u8 (Z.lor (byte_val c) wire_type) :: b'
  | [] => []
  end.

Section packing.
(** [protobuf_c_message_pack] of a message inside the field. *)
Variable message_pack : ProtobufCMessage -> bytes.

(** The body is written one byte after the start and moved when its length
    needs more than one byte. *)
Definition prefixed_message_pack (m : option ProtobufCMessage) : bytes :=
  match m with
  | None => [u8 0]
  | Some m => let body := message_pack m in uint32_pack (u32 (Z.of_nat (length body))) ++ body
  end.

Definition required_field_pack (f : field_descriptor) (x : member) : bytes :=
  let tag := tag_pack (f_id f) in
  match f_type f, x with
  | TYPE_INT32, Scalar _ v => or_first tag WIRE_TYPE_VARINT ++ int32_pack (i32 v)
  | TYPE_UINT32, Scalar _ v => or_first tag WIRE_TYPE_VARINT ++ uint32_pack v
  | TYPE_FIXED64, Scalar _ v => or_first tag WIRE_TYPE_64BIT ++ fixed64_pack v
  | TYPE_BOOL, Scalar _ v => or_first tag WIRE_TYPE_VARINT ++ boolean_pack v
  | TYPE_BYTES, Binary _ b => or_first tag WIRE_TYPE_LENGTH_PREFIXED ++ binary_data_pack b
  | TYPE_MESSAGE, Submessage m => or_first tag WIRE_TYPE_LENGTH_PREFIXED ++ prefixed_message_pack m
  | _, _ => []
  end.

Definition optional_field_pack (f : field_descriptor) (x : member) : bytes :=
  match f_type f, x with
  | TYPE_MESSAGE, Submessage None => []
  | TYPE_MESSAGE, _ => required_field_pack f x
  | _, Scalar has _ | _, Binary has _ => if has then required_field_pack f x else []
  | _, _ => []
  end.

Definition repeated_field_pack (f : field_descriptor) (x : member) : bytes :=
  match x with
  | Repeated l => concat (map (fun m => required_field_pack f (Submessage (Some m))) l)
  | _ => []
  end.

Definition field_pack (f : field_descriptor) (x : member) : bytes :=
  match f_label f with
  | LABEL_OPTIONAL => optional_field_pack f x
  | LABEL_REPEATED => repeated_field_pack f x
  end.

End packing.

Definition unknown_field_pack (u : ProtobufCMessageUnknownField) : bytes :=
  or_first (tag_pack (uf_tag u)) (uf_wire_type u) ++ uf_data u.

Fixpoint protobuf_c_message_pack (d : ProtobufCMessageDescriptor) (m : ProtobufCMessage) : bytes :=
  match d, m with
  | mk_descriptor fs _, mk_message xs us =>
      (fix go fs xs :=
         match fs, xs with
         | f :: fs', x :: xs' =>
             field_pack (match f_descriptor f with
                         | Some d' => protobuf_c_message_pack d'
                         | None => fun _ => []
                         end) f x ++ go fs' xs'
         | _, _ => []
         end) fs xs ++
      concat (map unknown_field_pack us)
  end.

(* ------------------------------------------------------------------ *)
(** ** Looking up a field number *)

Definition range_at (ranges : list ProtobufCIntRange) (i : nat) : result ProtobufCIntRange :=
  deref (ranges !! i).

(** [while (n > 1)]: the answer, or the [start] and [n] the loop leaves.  Every
    turn makes [n] smaller. *)
Fixpoint range_loop (fuel : nat) (ranges : list ProtobufCIntRange) (value : Z) (start n : nat)
    : result (Z + nat * nat) :=
  match fuel with
  | O => Stuck
  | S fuel' =>
      if (1 <? n)%nat then
        let mid := (start + n / 2)%nat in
        let? r := range_at ranges mid in
        if value <? r.1 then range_loop fuel' ranges value start (mid - start)
        else
          let? r' := range_at ranges (S mid) in
          if r.1 + i32 (u32 (r'.2 - r.2)) <=? value then
            let new_start := S mid in
            range_loop fuel' ranges value new_start (start + n - new_start)
          else Ok (inl (i32 (u32 (value - r.1 + r.2))))
      else Ok (inr (start, n))
  end.

Definition int_range_lookup (n_ranges : nat) (ranges : list ProtobufCIntRange) (value : Z) : result Z :=
  if (n_ranges =? 0)%nat then Ok (-1)
  else
    let? r := range_loop (S n_ranges) ranges value 0 n_ranges in
    match r with
    | inl i => Ok i
    | inr (start, n) =>
        if (0 <? n)%nat then
          let? r := range_at ranges start in
          let? r' := range_at ranges (S start) in
          let range_size := u32 (r'.2 - r.2) in
          if (r.1 <=? value) && (value <? i32 (u32 (r.1 + range_size)))
          then Ok (i32 (u32 (value - r.1 + r.2))) else Ok (-1)
        else Ok (-1)
    end.

(** The table ends with a sentinel that is not counted. *)
Definition n_field_ranges (ranges : list ProtobufCIntRange) : nat := pred (length ranges).

(* ------------------------------------------------------------------ *)
(** ** Scanning *)

Definition continues (b : byte) : bool := negb (Z.land (byte_val b) 128 =? 0).

(** The loop over the at most four bytes that follow the first one; the answer
    holds the bytes used and the field number. *)
Fixpoint tag_loop (n : nat) (data : bytes) (tag shift : Z) (rv : nat) : option (nat * Z) :=
  match n, data with
  | S n', b :: data' =>
      if continues b then
        tag_loop n' data' (u32 (Z.lor tag (Z.shiftl (Z.land (byte_val b) 127) shift))) (shift + 7) (S rv)
      else Some (S rv, u32 (Z.lor tag (Z.shiftl (byte_val b) shift)))
  | _, _ => None
  end.

(** The bytes used, the field number and the wire type; [None] is the return
    of 0. *)
Definition parse_tag_and_wiretype (data : bytes) : result (option (nat * Z * Z)) :=
  let? b := deref (head data) in
  let tag := Z.shiftr (Z.land (byte_val b) 127) 3 in
  let wire_type := Z.land (byte_val b) 7 in
  if continues b then
    Ok (match tag_loop 4 (tail data) tag 4 1 with
        | Some (used, tag) => Some (used, tag, wire_type)
        | None => None
        end)
  else Ok (Some (1%nat, tag, wire_type)).

Record ScannedMember := mk_scanned {
  sm_tag : Z;
  sm_wire_type : Z;
  sm_length_prefix_len : nat;
  sm_field : option nat;       (* the index of the field in the descriptor *)
  sm_len : nat;
  sm_data : bytes }.

(** The length written in at most five bytes, and the number of those bytes. *)
Fixpoint header_loop (n : nat) (data : bytes) (val shift : Z) (i : nat) : option (Z * nat) :=
  match n, data with
  | S n', b :: data' =>
      let val := u32 (Z.lor val (Z.shiftl (Z.land (byte_val b) 127) shift)) in
      if continues b then header_loop n' data' val (shift + 7) (S i) else Some (val, S i)
  | _, _ => None
  end.

(** The returned length, 0 for an error, and [*prefix_len_out].  The sum is an
    [unsigned]. *)
Definition scan_length_prefixed_data (data : bytes) : Z * nat :=
  match header_loop 5 data 0 0 0 with
  | None => (0, 0%nat)
  | Some (val, hdr_len) =>
      let sum := u32 (Z.of_nat hdr_len + val) in
      if Z.of_nat (length data) <? sum then (0, hdr_len) else (sum, hdr_len)
  end.

(** The length of a varint of at most [n] bytes. *)
Fixpoint varint_loop (n : nat) (data : bytes) (i : nat) : option nat :=
  match n, data with
  | S n', b :: data' => if continues b then varint_loop n' data' (S i) else Some (S i)
  | _, _ => None
  end.
Definition scan_varint (data : bytes) : option nat := varint_loop 10 data 0.

(** [switch (wire_type)]: the length of the payload and of its prefix. *)
Definition scan_payload (wire_type : Z) (at_ : bytes) : result (nat * nat) :=
  if wire_type =? WIRE_TYPE_VARINT then
    match scan_varint at_ with Some n => Ok (n, 0%nat) | None => fails end
  else if wire_type =? WIRE_TYPE_64BIT then
    if (length at_ <? 8)%nat then fails else Ok (8%nat, 0%nat)
  else if wire_type =? WIRE_TYPE_LENGTH_PREFIXED then
    let '(len, pref_len) := scan_length_prefixed_data at_ in
    if len =? 0 then fails else Ok (Z.to_nat len, pref_len)
  else if wire_type =? WIRE_TYPE_32BIT then
    if (length at_ <? 4)%nat then fails else Ok (4%nat, 0%nat)
  else fails.

Section scanning.
Context (fields : list field_descriptor) (ranges : list ProtobufCIntRange).

(** The field of a number, and the new [last_field]. *)
Definition lookup_field (last_field : nat) (tag : Z) : result (option nat * nat) :=
  let? lf := deref (fields !! last_field) in
  if f_id lf =? tag then Ok (Some last_field, last_field)
  else
    let? field_index := int_range_lookup (n_field_ranges ranges) ranges (i32 tag) in
    if field_index <? 0 then Ok (None, last_field)
    else Ok (Some (Z.to_nat field_index), Z.to_nat field_index).

(** One turn of the scanning loop: the member, the bytes after it, and the new
    [last_field]. *)
Definition scan_member (last_field : nat) (at_ : bytes) : result (ScannedMember * bytes * nat) :=
  let? t := parse_tag_and_wiretype at_ in
  match t with
  | None => fails
  | Some (used, tag, wire_type) =>
      let? '(field, last_field) := lookup_field last_field tag in
      let? _ := match field with Some i => rmap (fun _ => tt) (deref (fields !! i)) | None => Ok tt end in
      let at_ := drop used at_ in
      let? '(len, pref_len) := scan_payload wire_type at_ in
      Ok (mk_scanned tag wire_type pref_len field len at_, drop len at_, last_field)
  end.

(** The members fill slabs of [16], [32], ... places; there are 23 slabs. *)
Definition FIRST_SCANNED_MEMBER_SLAB_SIZE_LOG2 : Z := 4.
Definition MAX_SCANNED_MEMBER_SLAB : Z := 22.

(** The place of the next member, after a new slab where the last one is full. *)
Definition next_place (which_slab in_slab_index : Z) : result (Z * Z) :=
  if in_slab_index =? Z.shiftl 1 (which_slab + FIRST_SCANNED_MEMBER_SLAB_SIZE_LOG2) then
    if which_slab =? MAX_SCANNED_MEMBER_SLAB then fails else Ok (which_slab + 1, 0)
  else Ok (which_slab, in_slab_index).

(** [while (rem > 0)]: every turn takes at least the byte of the tag. *)
Fixpoint scan_loop (fuel : nat) (last_field : nat) (which_slab in_slab_index : Z) (at_ : bytes)
    : result (list ScannedMember) :=
  match at_ with
  | [] => Ok []
  | _ =>
      match fuel with
      | O => Stuck
      | S fuel' =>
          let? '(m, rest, last_field) := scan_member last_field at_ in
          let? '(which_slab, in_slab_index) := next_place which_slab in_slab_index in
          rmap (cons m) (scan_loop fuel' last_field which_slab (in_slab_index + 1) rest)
      end
  end.

End scanning.

(* ------------------------------------------------------------------ *)
(** ** Parsing a member *)

(** [data[i]] *)
Definition byte_in (data : bytes) (i : nat) : result Z := rmap byte_val (deref (data !! i)).

Definition parse_uint32 (len : Z) (data : bytes) : result Z :=
  let? b0 := byte_in data 0 in
  let rv := Z.land b0 127 in
  if 1 <? len then
    let? b1 := byte_in data 1 in
    let rv := Z.lor rv (Z.shiftl (Z.land b1 127) 7) in
    if 2 <? len then
      let? b2 := byte_in data 2 in
      let rv := Z.lor rv (Z.shiftl (Z.land b2 127) 14) in
      if 3 <? len then
        let? b3 := byte_in data 3 in
        let rv := Z.lor rv (Z.shiftl (Z.land b3 127) 21) in
        if 4 <? len then
          let? b4 := byte_in data 4 in
          Ok (Z.lor rv (u32 (Z.shiftl b4 28)))
        else Ok rv
      else Ok rv
    else Ok rv
  else Ok rv.

Definition parse_int32 (len : Z) (data : bytes) : result Z := parse_uint32 len data.

(** [memcpy] of [n] bytes from [data + off]. *)
Definition region (off n : Z) (data : bytes) : result bytes :=
  if Z.of_nat (length data) <? off + n then Stuck
  else Ok (slice (Z.to_nat off) (Z.to_nat n) data).

Definition parse_fixed_uint64 (data : bytes) : result Z := rmap le_val (region 0 8 data).

Fixpoint parse_boolean (len : nat) (data : bytes) : result Z :=
  match len with
  | O => Ok 0
  | S len' =>
      match data with
      | [] => Stuck
      | b :: data' => if Z.land (byte_val b) 127 =? 0 then parse_boolean len' data' else Ok 1
      end
  end.

(** The payload after its prefix; [len - pref_len] is an [unsigned]. *)
Definition prefixed_payload (sm : ScannedMember) : result bytes :=
  let pref_len := Z.of_nat (sm_length_prefix_len sm) in
  region pref_len (u32 (u32 (Z.of_nat (sm_len sm)) - pref_len)) (sm_data sm).

Section parsing.
(** [protobuf_c_message_unpack] and [merge_messages] for the type of the field. *)
Variables (message_unpack : bytes -> result ProtobufCMessage)
  (message_merge : ProtobufCMessage -> ProtobufCMessage -> ProtobufCMessage).

(** An INT32 is stored through a [uint32_t] pointer and read as an [int32_t]. *)
Definition parse_required_member (f : field_descriptor) (sm : ScannedMember) (x : member)
    (maybe_clear : bool) : result member :=
  let len := u32 (Z.of_nat (sm_len sm)) in
  let data := sm_data sm in
  let wire_type := sm_wire_type sm in
  match f_type f, x with
  | TYPE_INT32, Scalar has _ =>
      if wire_type =? WIRE_TYPE_VARINT
      then rmap (fun v => Scalar has (i32 v)) (parse_int32 len data) else fails
  | TYPE_UINT32, Scalar has _ =>
      if wire_type =? WIRE_TYPE_VARINT
      then rmap (Scalar has) (parse_uint32 len data) else fails
  | TYPE_FIXED64, Scalar has _ =>
      if wire_type =? WIRE_TYPE_64BIT
      then rmap (Scalar has) (parse_fixed_uint64 data) else fails
  | TYPE_BOOL, Scalar has _ => rmap (Scalar has) (parse_boolean (Z.to_nat len) data)
  | TYPE_BYTES, Binary has _ =>
      if wire_type =? WIRE_TYPE_LENGTH_PREFIXED
      then rmap (Binary has) (prefixed_payload sm) else fails
  | TYPE_MESSAGE, Submessage p =>
      if wire_type =? WIRE_TYPE_LENGTH_PREFIXED then
        let? body := prefixed_payload sm in
        let? subm := message_unpack body in
        Ok (Submessage (Some (match p with
                              | Some previous => if maybe_clear then message_merge previous subm else subm
                              | None => subm
                              end)))
      else fails
  | _, _ => Stuck
  end.

(** The [has_] flag, of the fields that have one. *)
Definition set_has (x : member) : member :=
  match x with Scalar _ v => Scalar true v | Binary _ b => Binary true b | x => x end.

Definition parse_optional_member (f : field_descriptor) (sm : ScannedMember) (x : member) : result member :=
  let? y := parse_required_member f sm x true in Ok (set_has y).

(** The element is written into an array with [capacity] places. *)
Definition parse_repeated_member (f : field_descriptor) (capacity : nat) (sm : ScannedMember) (x : member)
    : result member :=
  match x with
  | Repeated l =>
      if (length l <? capacity)%nat then
        let? y := parse_required_member f sm (Submessage None) false in
        match y with
        | Submessage (Some m) => Ok (Repeated (l ++ [m]))
        | _ => Stuck
        end
      else Stuck
  | _ => Stuck
  end.

Definition parse_known_member (f : field_descriptor) (capacity : nat) (sm : ScannedMember) (x : member)
    : result member :=
  match f_label f with
  | LABEL_OPTIONAL => parse_optional_member f sm x
  | LABEL_REPEATED => parse_repeated_member f capacity sm x
  end.

(** One field of [merge_messages]; a [ProtobufCBinaryData] counts as set when
    its pointer is not null. *)
Definition merge_member (earlier latter : member) : member :=
  match earlier, latter with
  | Repeated e, Repeated l => Repeated (e ++ l)
  | Submessage (Some e), Submessage (Some l) => Submessage (Some (message_merge e l))
  | Submessage (Some e), Submessage None => Submessage (Some e)
  | Binary has_e e, Binary _ [] => match e with [] => latter | _ => Binary has_e e end
  | Scalar true e, Scalar false _ => Scalar true e
  | _, _ => latter
  end.

End parsing.

(** The unknown fields of the earlier message are dropped with it. *)
Fixpoint merge_messages (d : ProtobufCMessageDescriptor) (earlier latter : ProtobufCMessage)
    : ProtobufCMessage :=
  match d, earlier, latter with
  | mk_descriptor fs _, mk_message es _, mk_message ls us =>
      mk_message
        ((fix go fs es ls :=
            match fs, es, ls with
            | f :: fs', e :: es', l :: ls' =>
                merge_member (match f_descriptor f with
                              | Some d' => merge_messages d'
                              | None => fun _ l => l
                              end) e l :: go fs' es' ls'
            | _, _, _ => ls
            end) fs es ls) us
  end.

(* ------------------------------------------------------------------ *)
(** ** Unpacking *)

(** The generated [init] functions. *)
Definition init_member (f : field_descriptor) : member :=
  match f_label f, f_type f with
  | LABEL_REPEATED, _ => Repeated []
  | _, TYPE_BYTES => Binary false []
  | _, TYPE_MESSAGE => Submessage None
  | _, _ => Scalar false 0
  end.

Definition protobuf_c_message_init (d : ProtobufCMessageDescriptor) : ProtobufCMessage :=
  mk_message (map init_member (d_fields d)) [].

(** The places allocated for the occurrences of a field.  No more than
    [2 ^ 27] members are scanned, so the count fits an [unsigned]. *)
Definition is_field (o : option nat) (sm : ScannedMember) : bool := bool_decide (sm_field sm = o).
Definition n_members (o : option nat) (l : list ScannedMember) : nat :=
  length (List.filter (is_field o) l).

Section unpacking.
Context (fields : list field_descriptor)
  (unpacks : list (bytes -> result ProtobufCMessage))
  (merges : list (ProtobufCMessage -> ProtobufCMessage -> ProtobufCMessage)).

Definition parse_member (scanned : list ScannedMember) (sm : ScannedMember) (m : ProtobufCMessage)
    : result ProtobufCMessage :=
  let 'mk_message xs us := m in
  match sm_field sm with
  | None =>
      if (length us <? n_members None scanned)%nat then
        let? data := region 0 (Z.of_nat (sm_len sm)) (sm_data sm) in
        Ok (mk_message xs (us ++ [mk_unknown (sm_tag sm) (sm_wire_type sm) data]))
      else Stuck
  | Some i =>
      let? f := deref (fields !! i) in
      let? x := deref (xs !! i) in
      let? unpack := deref (unpacks !! i) in
      let? merge := deref (merges !! i) in
      let? y := parse_known_member unpack merge f (n_members (Some i) scanned) sm x in
      Ok (mk_message (<[i := y]> xs) us)
  end.

Fixpoint parse_members (scanned : list ScannedMember) (l : list ScannedMember) (m : ProtobufCMessage)
    : result ProtobufCMessage :=
  match l with
  | [] => Ok m
  | sm :: l' => let? m' := parse_member scanned sm m in parse_members scanned l' m'
  end.

End unpacking.

(** The scan of the whole input, then the members in the order of the scan.  On
    an error the code also frees what it has built, which is not modelled. *)
Fixpoint protobuf_c_message_unpack (d : ProtobufCMessageDescriptor) (data : bytes)
    : result ProtobufCMessage :=
  match d with
  | mk_descriptor fs ranges =>
      let? scanned := scan_loop fs ranges (length data) 0 0 0 data in
      parse_members fs
        (map (fun f => match f_descriptor f with
                       | Some d' => protobuf_c_message_unpack d'
                       | None => fun _ => Stuck
                       end) fs)
        (map (fun f => match f_descriptor f with
                       | Some d' => merge_messages d'
                       | None => fun _ l => l
                       end) fs)
        scanned scanned (mk_message (map init_member fs) [])
  end.
