(* ===== verification/ProtobufDescriptor.v ===== *)
(** The varint routines of [protobuf-c/protobuf-c.c] against the reference encoding
    [enc_varint] (the packing functions write it, the size functions give its length, and
    the scanning and parsing loops read it back), well-formed tables and messages, and the
    correctness of the binary search over the ranges of field numbers. *)

From S2P Require Import Prelude Crypto Wire Protobuf.

(* ------------------------------------------------------------------ *)
(** ** Bit operations as arithmetic *)

Lemma land_127 a : Z.land a 127 = a mod 128.
Proof. apply (Z.land_ones a 7). lia. Qed.

Lemma land_7 a : Z.land a 7 = a mod 8.
Proof. apply (Z.land_ones a 3). lia. Qed.

Lemma shiftr_div a k : 0 <= k -> Z.shiftr a k = a / 2 ^ k.
Proof. apply Z.shiftr_div_pow2. Qed.

Lemma lor_128_mod v : Z.lor v 128 mod 256 = v mod 128 + 128.
Proof.
  change 256 with (2 ^ 8). rewrite <- Z.land_ones, Z.land_lor_distr_l by lia.
  change (Z.land 128 (Z.ones 8)) with 128.
  pose proof (lor_shiftl (v mod 128) 1 7 ltac:(lia) (Z.mod_pos_bound v 128 ltac:(lia))) as E.
  change (1 * 2 ^ 7) with 128 in E. rewrite <- E. change (Z.shiftl 1 7) with 128.
  rewrite <- (land_127 v). change 127 with (Z.ones 7).
  apply Z.bits_inj'. intros i Hi. rewrite !Z.lor_spec, !Z.land_spec, !Z.testbit_ones by lia.
  change 128 with (2 ^ 7). destruct (Z.eq_dec i 7) as [->|Hn].
  - rewrite Z.pow2_bits_true by lia. by rewrite !orb_true_r.
  - rewrite Z.pow2_bits_false by lia. rewrite !orb_false_r. f_equal.
    destruct (Z.ltb_spec i 8), (Z.ltb_spec i 7); try done; lia.
Qed.

Lemma more_spec v : more v = u8 (v mod 128 + 128).
Proof.
  unfold more. apply byte_val_inj. rewrite !byte_val_u8, lor_128_mod.
  pose proof (Z.mod_pos_bound v 128). rewrite (Z.mod_small (_ + _)); lia.
Qed.

Lemma more_cong a b : a mod 128 = b mod 128 -> more a = more b.
Proof. rewrite !more_spec. by intros ->. Qed.

Lemma continues_spec b : continues b = (128 <=? byte_val b).
Proof.
  unfold continues. pose proof (byte_val_range b) as Hb. generalize dependent (byte_val b). intros z Hz.
  assert (Z.land z 128 = 128 * (z / 128)) as ->.
  { replace (Z.land z 128) with (Z.shiftl (Z.shiftr z 7) 7).
    - rewrite Z.shiftl_mul_pow2, shiftr_div by lia. apply Z.mul_comm.
    - apply Z.bits_inj'. intros i Hi. rewrite Z.land_spec, Z.shiftl_spec by lia.
      change 128 with (2 ^ 7). destruct (Z.eq_dec i 7) as [->|Hn].
      + rewrite Z.shiftr_spec, Z.pow2_bits_true by lia. by rewrite andb_true_r.
      + rewrite (Z.pow2_bits_false 7 i) by lia. rewrite andb_false_r.
        destruct (Z.lt_ge_cases i 7); [by rewrite Z.testbit_neg_r by lia|].
        rewrite Z.shiftr_spec by lia. apply (testbit_above z 8); lia. }
  destruct (Z.leb_spec 128 z).
  - replace (z / 128) with 1; [done|]. apply (Z.div_unique z 128 1 (z - 128)); lia.
  - by rewrite Z.div_small by lia.
Qed.

(* ------------------------------------------------------------------ *)
(** ** The reference encoding, digit by digit *)

Lemma enc_varint_aux_fuel f : forall g z,
  (0 < f)%nat -> (0 < g)%nat -> 0 <= z -> z < 2 ^ Z.of_nat f -> z < 2 ^ Z.of_nat g ->
  enc_varint_aux f z = enc_varint_aux g z.
Proof.
  induction f as [|f IH]; intros [|g] z Hf Hg H0 H1 H2; try lia. cbn [enc_varint_aux].
  destruct (Z.ltb_spec z 128); [done|]. f_equal.
  rewrite !Nat2Z.inj_succ, !Z.pow_succ_r in H1, H2 by lia.
  assert (z / 128 <= z / 2) by (apply Z.div_le_compat_l; lia).
  assert (forall n : nat, z < 2 * 2 ^ Z.of_nat n -> (0 < n)%nat).
  { intros [|n]; [simpl|]; lia. }
  apply IH; eauto; try (apply Z.div_pos; lia); (eapply Z.le_lt_trans; [eassumption|];
    apply Z.div_lt_upper_bound; lia).
Qed.

Lemma enc_varint_small z : 0 <= z < 128 -> enc_varint z = [u8 z].
Proof. intros H. unfold enc_varint. cbn [enc_varint_aux]. by rewrite (proj2 (Z.ltb_lt _ _)) by lia. Qed.

Lemma enc_varint_cons z : 128 <= z -> enc_varint z = more z :: enc_varint (z / 128).
Proof.
  intros H. unfold enc_varint at 1. cbn [enc_varint_aux].
  rewrite (proj2 (Z.ltb_ge _ _)) by lia. rewrite more_spec. f_equal.
  assert (0 < z / 128) by (apply Z.div_str_pos; lia).
  pose proof (Z.log2_spec z ltac:(lia)) as [Hl1 Hl2]. pose proof (Z.log2_nonneg z) as Hl0.
  assert (7 <= Z.log2 z) by (change 7 with (Z.log2 128); apply Z.log2_le_mono; lia).
  apply enc_varint_aux_fuel; try lia.
  - rewrite Z2Nat.id by lia. apply Z.div_lt_upper_bound; [lia|].
    rewrite Z.pow_succ_r in Hl2 by lia. pose proof (Z.pow_pos_nonneg 2 (Z.log2 z)). lia.
  - rewrite Nat2Z.inj_succ, Z2Nat.id by apply Z.log2_nonneg. apply Z.log2_spec. lia.
Qed.

Lemma enc_varint_digit z : 0 <= z ->
  (z < 128 /\ enc_varint z = [u8 z]) \/ (128 <= z /\ enc_varint z = more z :: enc_varint (z / 128)).
Proof.
  intros Hz. destruct (Z.lt_ge_cases z 128); [left|right]; split; try lia;
    [apply enc_varint_small|apply enc_varint_cons]; lia.
Qed.

Lemma div_div_pow2 z a b : 0 <= a -> 0 <= b -> z / 2 ^ a / 2 ^ b = z / 2 ^ (a + b).
Proof. intros Ha Hb. rewrite Z.div_div, <- Z.pow_add_r by (try apply Z.pow_pos_nonneg; lia). done. Qed.

(* ------------------------------------------------------------------ *)
(** ** Packing *)

(** The positions of the digits. *)
Ltac digit_sums :=
  change (7 + 7) with 14; change (14 + 7) with 21; change (21 + 7) with 28.

Lemma uint32_pack_spec v : is_u32 v -> uint32_pack v = enc_varint v.
Proof.
  intros [H0 H1]. unfold uint32_pack. cbv zeta.
  rewrite !Z.shiftr_shiftr, !shiftr_div by lia. digit_sums.
  destruct (Z.ltb_spec v 128); [by rewrite enc_varint_small|].
  assert (forall k, 0 <= k -> v / 2 ^ k / 128 = v / 2 ^ (k + 7)) as Hk.
  { intros k ?. by apply (div_div_pow2 v k 7). }
  rewrite enc_varint_cons by lia. change (v / 128) with (v / 2 ^ 7).
  destruct (Z.ltb_spec (v / 2 ^ 7) 128).
  { rewrite enc_varint_small; [done|]. split; [apply Z.div_pos; lia|done]. }
  rewrite enc_varint_cons, Hk by lia. digit_sums.
  destruct (Z.ltb_spec (v / 2 ^ 14) 128).
  { rewrite enc_varint_small; [done|]. split; [apply Z.div_pos; lia|done]. }
  rewrite enc_varint_cons, Hk by lia. digit_sums.
  destruct (Z.ltb_spec (v / 2 ^ 21) 128).
  { rewrite enc_varint_small; [done|]. split; [apply Z.div_pos; lia|done]. }
  rewrite enc_varint_cons, Hk by lia. digit_sums.
  rewrite enc_varint_small; [done|]. split; [apply Z.div_pos; lia|].
  apply Z.div_lt_upper_bound; lia.
Qed.

Lemma uint32_size_spec v : is_u32 v -> uint32_size v = Z.of_nat (length (enc_varint v)).
Proof.
  intros [H0 H1]. rewrite <- uint32_pack_spec by done. unfold uint32_size, uint32_pack. cbv zeta.
  rewrite !Z.shiftr_shiftr, !shiftr_div by lia. digit_sums.
  rewrite !Z.shiftl_1_l.
  assert (forall k, 0 <= k -> (v / 2 ^ k <? 128) = (v <? 2 ^ (k + 7))) as Hk.
  { intros k ?. rewrite Z.pow_add_r by lia. pose proof (Z.pow_pos_nonneg 2 k).
    apply eq_true_iff_eq. rewrite !Z.ltb_lt. split; intros.
    - apply Z.lt_nge. intros Hc. apply (Z.div_le_mono _ _ (2 ^ k)) in Hc; [|lia].
      rewrite Z.mul_comm, Z.div_mul in Hc; lia.
    - apply Z.div_lt_upper_bound; lia. }
  rewrite !Hk by lia. change (v <? 128) with (v <? 2 ^ 7). digit_sums.
  repeat (case_match; [done|]). done.
Qed.

Ltac digit_positions :=
  repeat match goal with
  | |- context [7 * Z.of_nat ?n] => let p := eval vm_compute in (7 * Z.of_nat n) in change (7 * Z.of_nat n) with p
  end.

(** The first [k] digits of a number that has more of them. *)
Lemma enc_varint_unroll k : forall z, 2 ^ (7 * Z.of_nat k) <= z ->
  enc_varint z = map (fun i => more (z / 2 ^ (7 * Z.of_nat i))) (seq 0 k)
                 ++ enc_varint (z / 2 ^ (7 * Z.of_nat k)).
Proof.
  induction k as [|k IH]; intros z Hz; [by rewrite Z.div_1_r|].
  assert (2 ^ (7 * Z.of_nat (S k)) = 128 * 2 ^ (7 * Z.of_nat k)) as Hp.
  { replace (7 * Z.of_nat (S k)) with (7 + 7 * Z.of_nat k) by lia. by rewrite Z.pow_add_r by lia. }
  rewrite Hp in Hz |- *. pose proof (Z.pow_pos_nonneg 2 (7 * Z.of_nat k)).
  rewrite enc_varint_cons by lia. rewrite IH by (apply Z.div_le_lower_bound; lia).
  cbn [seq map app]. change (2 ^ (7 * Z.of_nat 0)) with 1. rewrite Z.div_1_r. f_equal.
  rewrite <- seq_shift, map_map. f_equal; [|by rewrite Z.div_div by lia].
  apply map_ext. intros i. f_equal. replace (7 * Z.of_nat (S i)) with (7 + 7 * Z.of_nat i) by lia.
  change 128 with (2 ^ 7). by rewrite div_div_pow2 by lia.
Qed.

Lemma div_add_pow2 v n k : 0 <= k <= n -> (v + 2 ^ n) / 2 ^ k = v / 2 ^ k + 2 ^ (n - k).
Proof.
  intros H. replace (2 ^ n) with (2 ^ (n - k) * 2 ^ k) by (rewrite <- Z.pow_add_r by lia; f_equal; lia).
  rewrite Z.div_add; [done|]. pose proof (Z.pow_pos_nonneg 2 k). lia.
Qed.

Lemma more_top v n : 7 <= n -> more (v + 2 ^ n) = more v.
Proof.
  intros H. apply more_cong. replace (2 ^ n) with (2 ^ (n - 7) * 128).
  - by rewrite Z.mod_add by lia.
  - change 128 with (2 ^ 7). rewrite <- Z.pow_add_r by lia. f_equal. lia.
Qed.

Lemma int32_pack_spec v : - 2 ^ 31 <= v < 2 ^ 31 -> int32_pack v = enc_varint (u64 v).
Proof.
  intros Hv. unfold int32_pack. destruct (Z.ltb_spec v 0) as [Hn|Hp].
  - assert (u64 v = v + 2 ^ 64) as ->.
    { unfold u64. symmetry. apply (Z.mod_unique v (2 ^ 64) (-1)); lia. }
    rewrite (enc_varint_unroll 9) by lia. cbn [seq map app repeat].
    rewrite !div_add_pow2, !more_top by lia. rewrite !shiftr_div by lia.
    digit_positions. rewrite Z.div_1_r.
    assert (forall k, 31 <= k -> v / 2 ^ k = -1) as Hm.
    { intros k Hk. symmetry. pose proof (Z.pow_le_mono_r 2 31 k). apply (Z.div_unique v (2 ^ k) (-1) (v + 2 ^ k)); lia. }
    rewrite (Hm 35), (Hm 42), (Hm 49), (Hm 56), (Hm 63) by lia. done.
  - rewrite uint32_pack_spec by (split; lia). unfold u64. by rewrite Z.mod_small by lia.
Qed.

Lemma int32_size_spec v : - 2 ^ 31 <= v < 2 ^ 31 -> int32_size v = Z.of_nat (length (int32_pack v)).
Proof.
  intros Hv. unfold int32_size, int32_pack. destruct (Z.ltb_spec v 0); [done|].
  rewrite uint32_pack_spec by (split; lia). apply (uint32_size_spec v). split; lia.
Qed.

Lemma hi_loop_spec fuel : forall hi, 0 <= hi < 2 ^ (7 * Z.of_nat (S fuel)) -> hi_loop fuel hi = enc_varint hi.
Proof.
  induction fuel as [|fuel IH]; intros hi Hh; cbn [hi_loop].
  - by rewrite enc_varint_small.
  - destruct (Z.leb_spec 128 hi); [|by rewrite enc_varint_small by lia].
    rewrite enc_varint_cons, shiftr_div by lia. f_equal. apply IH. split; [apply Z.div_pos; lia|].
    replace (7 * Z.of_nat (S (S fuel))) with (7 + 7 * Z.of_nat (S fuel)) in Hh by lia.
    rewrite Z.pow_add_r in Hh by lia. apply Z.div_lt_upper_bound; lia.
Qed.

Lemma uint64_pack_spec v : 0 <= v < 2 ^ 64 -> uint64_pack v = enc_varint v.
Proof.
  intros Hv. unfold uint64_pack, u32. rewrite !shiftr_div by lia.
  assert (0 <= v / 2 ^ 32 < 2 ^ 32) as Hhi.
  { split; [apply Z.div_pos; lia|]. apply Z.div_lt_upper_bound; lia. }
  rewrite (Z.mod_small (v / 2 ^ 32)) by lia.
  pose proof (Z.div_mod v (2 ^ 32) ltac:(lia)) as Hd. pose proof (Z.mod_pos_bound v (2 ^ 32) ltac:(lia)) as Hlo.
  set (hi := v / 2 ^ 32) in *. set (lo := v mod 2 ^ 32) in *. clearbody hi lo. subst v.
  destruct (Z.eqb_spec hi 0) as [->|Hnz]; [by rewrite uint32_pack_spec by (split; lia)|].
  assert (forall k, 0 <= k <= 25 -> more (lo / 2 ^ k) = more ((2 ^ 32 * hi + lo) / 2 ^ k)) as Hm.
  { intros k Hk. replace (2 ^ 32 * hi + lo) with (lo + hi * 2 ^ (25 - k) * 128 * 2 ^ k).
    - rewrite Z.div_add by (pose proof (Z.pow_pos_nonneg 2 k); lia). apply more_cong. by rewrite Z.mod_add.
    - replace (2 ^ 32) with (2 ^ (25 - k) * 2 ^ 7 * 2 ^ k); [ring|].
      rewrite <- !Z.pow_add_r by lia. f_equal. lia. }
  assert (0 <= lo / 2 ^ 28 < 2 ^ 4) as Hq.
  { split; [apply Z.div_pos; lia|]. apply Z.div_lt_upper_bound; lia. }
  rewrite (enc_varint_unroll 4) by lia. cbn [seq map app].
  digit_positions.
  rewrite <- !Hm by lia. rewrite Z.div_1_r. do 4 f_equal.
  replace ((2 ^ 32 * hi + lo) / 2 ^ 28) with (lo / 2 ^ 28 + hi * 2 ^ 4).
  2:{ rewrite <- Z.div_add by lia. f_equal. lia. }
  rewrite (Z.lor_comm (Z.shiftl hi 4)), lor_shiftl by lia.
  destruct (Z.ltb_spec hi 8); [by rewrite enc_varint_small by lia|].
  rewrite enc_varint_cons by lia. rewrite (Z.lor_comm (Z.shiftl _ 4)), lor_shiftl, land_7 by lia. f_equal.
  - apply more_cong. rewrite (Z.div_mod hi 8) at 2 by lia.
    replace (lo / 2 ^ 28 + (8 * (hi / 8) + hi mod 8) * 2 ^ 4)
      with (lo / 2 ^ 28 + hi mod 8 * 2 ^ 4 + hi / 8 * 128) by ring.
    by rewrite Z.mod_add by lia.
  - replace ((lo / 2 ^ 28 + hi * 2 ^ 4) / 128) with (hi / 2 ^ 3).
    + apply hi_loop_spec. split; [apply Z.div_pos; lia|]. apply Z.div_lt_upper_bound; lia.
    + symmetry. change 128 with (16 * 8). rewrite <- Z.div_div by lia. f_equal.
      symmetry. apply (Z.div_unique _ 16 hi (lo / 2 ^ 28)); lia.
Qed.

(* ------------------------------------------------------------------ *)
(** ** Tags *)

Lemma byte_val_more z : byte_val (more z) = z mod 128 + 128.
Proof.
  rewrite more_spec, byte_val_u8. pose proof (Z.mod_pos_bound z 128). rewrite Z.mod_small; lia.
Qed.

Lemma byte_val_small z : 0 <= z < 256 -> byte_val (u8 z) = z.
Proof. intros H. by rewrite byte_val_u8, Z.mod_small. Qed.

Lemma continues_more z : continues (more z) = true.
Proof.
  rewrite continues_spec, byte_val_more. pose proof (Z.mod_pos_bound z 128). apply Z.leb_le. lia.
Qed.

Lemma continues_small z : 0 <= z < 128 -> continues (u8 z) = false.
Proof. intros H. rewrite continues_spec, byte_val_small by lia. apply Z.leb_gt. lia. Qed.

Lemma land_more z : Z.land (byte_val (more z)) 127 = z mod 128.
Proof.
  rewrite land_127, byte_val_more. replace (z mod 128 + 128) with (z mod 128 + 1 * 128) by lia.
  rewrite Z.mod_add by lia. apply Z.mod_mod. lia.
Qed.

Lemma land_small z : 0 <= z < 128 -> Z.land (byte_val (u8 z)) 127 = z.
Proof. intros H. rewrite land_127, byte_val_small by lia. by apply Z.mod_small. Qed.

#[export] Hint Rewrite byte_val_more continues_more land_more : sigdb.

Lemma tag_pack_spec id : is_u32 id -> tag_pack id = enc_varint (id * 8).
Proof.
  intros [H0 H1]. unfold tag_pack. rewrite Z.shiftl_1_l, Z.shiftl_mul_pow2 by lia. change (2 ^ 3) with 8.
  destruct (Z.ltb_spec id (2 ^ 29)).
  - rewrite u32_id by (split; lia). apply uint32_pack_spec. split; lia.
  - apply uint64_pack_spec. lia.
Qed.

(** The number is shifted by three bits and the wire type put below it. *)
Lemma tag_spec id w : is_u32 id -> 0 <= w < 8 -> or_first (tag_pack id) w = enc_varint (id * 8 + w).
Proof.
  intros Hid Hw. rewrite tag_pack_spec by done. destruct Hid as [H0 H1].
  assert (forall a, Z.lor (a * 8) w = a * 8 + w) as Hlor.
  { intros a. rewrite Z.lor_comm. change 8 with (2 ^ 3). rewrite <- (Z.shiftl_mul_pow2 a 3), lor_shiftl by lia.
    rewrite Z.shiftl_mul_pow2 by lia. lia. }
  assert ((id * 8) mod 128 = id mod 16 * 8) as Hm.
  { change 128 with (16 * 8). by rewrite Z.mul_mod_distr_r by lia. }
  pose proof (Z.div_mod id 16 ltac:(lia)). pose proof (Z.mod_pos_bound id 16 ltac:(lia)).
  destruct (enc_varint_digit (id * 8)) as [[Hs ->]|[Hs ->]]; [lia| |]; cbn [or_first].
  - rewrite byte_val_small, Hlor by lia.
    assert (id < 16) by lia. by rewrite enc_varint_small by lia.
  - rewrite byte_val_more, Hm. replace (id mod 16 * 8 + 128) with ((id mod 16 + 16) * 8) by lia.
    rewrite Hlor, (enc_varint_cons (_ + w)), (more_spec (_ + w)) by lia.
    replace ((id * 8 + w) mod 128) with (id mod 16 * 8 + w).
    + f_equal; [f_equal; lia|]. f_equal.
      trans (id / 16); [symmetry; apply (Z.div_unique _ 128 _ (id mod 16 * 8)); lia|].
      apply (Z.div_unique _ 128 _ (id mod 16 * 8 + w)); lia.
    + apply (Z.mod_unique _ 128 (id / 16)); lia.
Qed.

Lemma length_enc_varint k : forall z, (0 < k)%nat -> 0 <= z < 2 ^ (7 * Z.of_nat k) ->
  (length (enc_varint z) <= k)%nat.
Proof.
  induction k as [|k IH]; intros z Hk Hz; [lia|].
  destruct (enc_varint_digit z) as [[Hs ->]|[Hs ->]]; [lia|simpl; lia|]. cbn [length].
  replace (7 * Z.of_nat (S k)) with (7 + 7 * Z.of_nat k) in Hz by lia. rewrite Z.pow_add_r in Hz by lia.
  destruct k as [|k]; [simpl in Hz; lia|].
  specialize (IH (z / 128) ltac:(lia)). apply le_n_S, IH. split; [apply Z.div_pos; lia|].
  apply Z.div_lt_upper_bound; lia.
Qed.

Lemma length_enc_varint_u32 z : is_u32 z -> (length (enc_varint z) <= 5)%nat.
Proof. intros [H0 H1]. apply length_enc_varint; [lia|]. split; [done|]. eapply Z.lt_le_trans; [exact H1|]. simpl. lia. Qed.

Lemma length_enc_varint_u64 z : 0 <= z < 2 ^ 64 -> (length (enc_varint z) <= 10)%nat.
Proof. intros [H0 H1]. apply length_enc_varint; [lia|]. split; [done|]. eapply Z.lt_le_trans; [exact H1|]. simpl. lia. Qed.

Lemma length_enc_varint_ge k z : 2 ^ (7 * Z.of_nat k) <= z -> (k < length (enc_varint z))%nat.
Proof.
  intros Hz. rewrite (enc_varint_unroll k), length_app, length_map, length_seq by done.
  pose proof (enc_varint_nonempty (z / 2 ^ (7 * Z.of_nat k))).
  destruct (enc_varint (z / 2 ^ (7 * Z.of_nat k))); [done|]. simpl. lia.
Qed.

Lemma get_tag_size_spec id w : is_u32 id -> 0 <= w < 8 ->
  get_tag_size id = Z.of_nat (length (enc_varint (id * 8 + w))).
Proof.
  intros [H0 H1] Hw. unfold get_tag_size. rewrite !Z.shiftl_1_l.
  assert (forall k, (0 < k)%nat -> id * 8 + w < 2 ^ (7 * Z.of_nat k) ->
    2 ^ (7 * Z.of_nat (pred k)) <= id * 8 + w \/ k = 1%nat -> Z.of_nat k = Z.of_nat (length (enc_varint (id * 8 + w)))) as Hk.
  { intros k Hk Hup Hlow. f_equal.
    pose proof (length_enc_varint k (id * 8 + w) Hk ltac:(lia)).
    destruct Hlow as [Hlow| ->].
    - apply length_enc_varint_ge in Hlow. lia.
    - pose proof (enc_varint_nonempty (id * 8 + w)). destruct (enc_varint (id * 8 + w)); [done|]. simpl in *. lia. }
  repeat match goal with |- context [?a <? ?b] => destruct (Z.ltb_spec a b) end;
    [apply (Hk 1%nat)|apply (Hk 2%nat)|apply (Hk 3%nat)|apply (Hk 4%nat)|apply (Hk 5%nat)];
    cbn [Nat.pred]; digit_positions; lia.
Qed.

(* ------------------------------------------------------------------ *)
(** ** Reading *)

Lemma varint_loop_spec n : forall z rest i, 0 <= z -> (length (enc_varint z) <= n)%nat ->
  varint_loop n (enc_varint z ++ rest) i = Some (i + length (enc_varint z))%nat.
Proof.
  induction n as [|n IH]; intros z rest i Hz; destruct (enc_varint_digit z Hz) as [[Hs ->]|[Hs ->]];
    cbn [length]; intros Hl; try lia; cbn [app varint_loop].
  - rewrite continues_small by lia. f_equal. lia.
  - rewrite continues_more, IH by (try apply Z.div_pos; lia). f_equal. lia.
Qed.

Lemma scan_varint_spec z rest : 0 <= z < 2 ^ 64 ->
  scan_varint (enc_varint z ++ rest) = Some (length (enc_varint z)).
Proof. intros Hz. apply (varint_loop_spec 10); [lia|]. by apply length_enc_varint_u64. Qed.

(** One more digit on top of an accumulator that fills the bits below it. *)
Lemma add_digit acc d shift : 0 <= shift -> 0 <= acc < 2 ^ shift -> acc + d * 2 ^ shift < 2 ^ 32 -> 0 <= d ->
  u32 (Z.lor acc (Z.shiftl d shift)) = acc + d * 2 ^ shift.
Proof. intros Hs Ha Hb Hd. rewrite lor_shiftl by done. apply u32_id. unfold is_u32. nia. Qed.

Lemma digit_step z acc shift : 128 <= z -> 0 <= shift -> 0 <= acc < 2 ^ shift -> acc + z * 2 ^ shift < 2 ^ 32 ->
  0 <= acc + z mod 128 * 2 ^ shift < 2 ^ (shift + 7) /\
  acc + z mod 128 * 2 ^ shift < 2 ^ 32 /\
  acc + z mod 128 * 2 ^ shift + z / 128 * 2 ^ (shift + 7) = acc + z * 2 ^ shift.
Proof.
  intros Hz Hs Ha Hb. pose proof (Z.div_mod z 128 ltac:(lia)) as Hd.
  pose proof (Z.mod_pos_bound z 128 ltac:(lia)) as Hm. assert (0 <= z / 128) by (apply Z.div_pos; lia).
  rewrite Z.pow_add_r by lia. change (2 ^ 7) with 128. pose proof (Z.pow_pos_nonneg 2 shift).
  split_and!; [nia|nia|nia|]. rewrite Hd at 3. ring.
Qed.

Lemma header_loop_spec n : forall z rest val shift i,
  0 <= z -> 0 <= shift -> 0 <= val < 2 ^ shift -> val + z * 2 ^ shift < 2 ^ 32 ->
  (length (enc_varint z) <= n)%nat ->
  header_loop n (enc_varint z ++ rest) val shift i = Some (val + z * 2 ^ shift, (i + length (enc_varint z))%nat).
Proof.
  induction n as [|n IH]; intros z rest val shift i Hz Hs Hv Hb;
    destruct (enc_varint_digit z Hz) as [[Hd ->]|[Hd ->]]; cbn [length]; intros Hl; try lia;
    cbn [app header_loop].
  - rewrite land_small, continues_small, add_digit by lia. do 2 f_equal. lia.
  - destruct (digit_step z val shift) as (H1 & H2 & H3); [done..|].
    pose proof (Z.mod_pos_bound z 128 ltac:(lia)).
    rewrite land_more, continues_more, add_digit by (done || lia).
    rewrite IH by (rewrite ?H3; try apply Z.div_pos; lia). rewrite H3. do 2 f_equal. lia.
Qed.

Lemma tag_loop_spec n : forall z rest tag shift rv,
  0 <= z -> 0 <= shift -> 0 <= tag < 2 ^ shift -> tag + z * 2 ^ shift < 2 ^ 32 ->
  (length (enc_varint z) <= n)%nat ->
  tag_loop n (enc_varint z ++ rest) tag shift rv = Some ((rv + length (enc_varint z))%nat, tag + z * 2 ^ shift).
Proof.
  induction n as [|n IH]; intros z rest tag shift rv Hz Hs Hv Hb;
    destruct (enc_varint_digit z Hz) as [[Hd ->]|[Hd ->]]; cbn [length]; intros Hl; try lia;
    cbn [app tag_loop].
  - rewrite continues_small, byte_val_small, add_digit by lia. do 2 f_equal. lia.
  - destruct (digit_step z tag shift) as (H1 & H2 & H3); [done..|].
    pose proof (Z.mod_pos_bound z 128 ltac:(lia)).
    rewrite land_more, continues_more, add_digit by (done || lia).
    rewrite IH by (rewrite ?H3; try apply Z.div_pos; lia). rewrite H3. do 2 f_equal. lia.
Qed.

Lemma parse_tag_spec id w rest : is_u32 id -> 0 <= w < 8 ->
  parse_tag_and_wiretype (enc_varint (id * 8 + w) ++ rest)
  = Ok (Some (length (enc_varint (id * 8 + w)), id, w)).
Proof.
  intros [H0 H1] Hw. unfold parse_tag_and_wiretype.
  assert ((id * 8 + w) mod 8 = w) as Hw8 by (symmetry; apply (Z.mod_unique _ 8 id); lia).
  destruct (enc_varint_digit (id * 8 + w)) as [[Hs E]|[Hs E]]; [lia| |]; rewrite E;
    cbn [app head deref rbind tail length].
  - rewrite continues_small, land_small, land_7, byte_val_small, shiftr_div by lia. do 4 f_equal; [|done].
    symmetry. apply (Z.div_unique _ _ id w); lia.
  - rewrite continues_more, land_more, land_7, byte_val_more, shiftr_div by lia.
    set (z := id * 8 + w) in *.
    pose proof (Z.div_mod z 128 ltac:(lia)) as Hd. pose proof (Z.mod_pos_bound z 128 ltac:(lia)) as Hm.
    assert (z mod 128 = z mod 128 / 8 * 8 + w) as Hm8.
    { rewrite (Z.div_mod (z mod 128) 8) at 1 by lia.
      change 128 with (8 * 16) at 2. rewrite Z.rem_mul_r by lia.
      rewrite (Z.mul_comm 8 ((z / 8) mod 16)), Z.mod_add, Z.mod_mod by lia. lia. }
    rewrite tag_loop_spec.
    + do 4 f_equal; [change (2 ^ 3) with 8; change (2 ^ 4) with 16; subst z; lia|].
      symmetry. apply (Z.mod_unique _ 8 (z mod 128 / 8 + 16)); lia.
    + apply Z.div_pos; lia.
    + lia.
    + change (2 ^ 3) with 8. change (2 ^ 4) with 16. lia.
    + change (2 ^ 3) with 8. change (2 ^ 4) with 16. subst z. lia.
    + pose proof (length_enc_varint 5 z ltac:(lia)) as Hl. rewrite E in Hl. cbn [length] in Hl.
      digit_positions. subst z. lia.
Qed.

Lemma enc_varint_head z : 0 <= z -> exists b l, enc_varint z = b :: l /\ byte_val b mod 128 = z mod 128.
Proof.
  intros Hz. destruct (enc_varint_digit z Hz) as [[Hs ->]|[Hs ->]]; eexists _, _; (split; [done|]).
  - by rewrite byte_val_small by lia.
  - by rewrite <- land_127, land_more.
Qed.

(** The byte at position [i] holds the [i]-th digit; there is one when the number
    has more than [i] digits. *)
Lemma enc_varint_lookup z i rest : 0 <= z -> (i < length (enc_varint z))%nat ->
  exists b, byte_in (enc_varint z ++ rest) i = Ok b /\ b mod 128 = (z / 2 ^ (7 * Z.of_nat i)) mod 128.
Proof.
  revert z rest. induction i as [|i IH]; intros z rest Hz Hi.
  - destruct (enc_varint_head z Hz) as (b & l & -> & Hb). exists (byte_val b).
    change (2 ^ (7 * Z.of_nat 0)) with 1. by rewrite Z.div_1_r.
  - destruct (enc_varint_digit z Hz) as [[Hs E]|[Hs E]]; rewrite E in Hi |- *; cbn [length] in Hi; [lia|].
    destruct (IH (z / 128) rest) as (b & Hb & Hd); [apply Z.div_pos; lia|lia|]. exists b. split; [exact Hb|].
    rewrite Hd. replace (7 * Z.of_nat (S i)) with (7 + 7 * Z.of_nat i) by lia.
    by rewrite <- div_div_pow2 by lia.
Qed.

Lemma digits_below z k : 0 <= k -> Z.lor (z mod 2 ^ k) (Z.shiftl ((z / 2 ^ k) mod 128) k) = z mod 2 ^ (k + 7).
Proof.
  intros Hk. pose proof (Z.pow_pos_nonneg 2 k). rewrite lor_shiftl by (try apply Z.mod_pos_bound; lia).
  rewrite Z.pow_add_r, Z.rem_mul_r by lia. change (2 ^ 7) with 128. lia.
Qed.

Lemma short_varint z k : 0 <= z -> (length (enc_varint z) <= k)%nat -> z < 2 ^ (7 * Z.of_nat k).
Proof. intros Hz Hl. apply Z.nle_gt. intros H%length_enc_varint_ge. lia. Qed.

Lemma parse_uint32_spec z rest : 0 <= z < 2 ^ 64 ->
  parse_uint32 (Z.of_nat (length (enc_varint z))) (enc_varint z ++ rest) = Ok (u32 z).
Proof.
  intros Hz. unfold parse_uint32.
  assert (forall i, (i < length (enc_varint z))%nat -> exists b,
    byte_in (enc_varint z ++ rest) i = Ok b /\ Z.land b 127 = (z / 2 ^ (7 * Z.of_nat i)) mod 128) as Hb.
  { intros i Hi. destruct (enc_varint_lookup z i rest) as (b & Hb & Hd); [lia|done|].
    exists b. by rewrite land_127. }
  assert (forall k, (k <= 4)%nat -> Z.of_nat (length (enc_varint z)) <= Z.of_nat k ->
    z mod 2 ^ (7 * Z.of_nat k) = u32 z) as Hend.
  { intros k Hk Hl. pose proof (short_varint z k ltac:(lia) ltac:(lia)) as Hs.
    pose proof (Z.pow_le_mono_r 2 (7 * Z.of_nat k) 28 ltac:(lia) ltac:(lia)).
    rewrite Z.mod_small by lia. symmetry. apply u32_id. split; lia. }
  pose proof (enc_varint_nonempty z) as Hne.
  destruct (Hb 0%nat) as (b0 & E0 & D0); [destruct (enc_varint z); [done|simpl; lia]|].
  rewrite E0. cbn [rbind]. rewrite D0. change (2 ^ (7 * Z.of_nat 0)) with 1. rewrite Z.div_1_r.
  destruct (Z.ltb_spec 1 (Z.of_nat (length (enc_varint z)))); [|f_equal; by apply (Hend 1%nat); [lia|]].
  destruct (Hb 1%nat) as (b1 & E1 & D1); [lia|]. rewrite E1. cbn [rbind]. rewrite D1.
  change (z mod 128) with (z mod 2 ^ 7). digit_positions. rewrite digits_below by lia. change (7 + 7) with 14.
  destruct (Z.ltb_spec 2 (Z.of_nat (length (enc_varint z)))); [|f_equal; by apply (Hend 2%nat); [lia|]].
  destruct (Hb 2%nat) as (b2 & E2 & D2); [lia|]. rewrite E2. cbn [rbind]. rewrite D2.
  digit_positions. rewrite digits_below by lia. change (14 + 7) with 21.
  destruct (Z.ltb_spec 3 (Z.of_nat (length (enc_varint z)))); [|f_equal; by apply (Hend 3%nat); [lia|]].
  destruct (Hb 3%nat) as (b3 & E3 & D3); [lia|]. rewrite E3. cbn [rbind]. rewrite D3.
  digit_positions. rewrite digits_below by lia. change (21 + 7) with 28.
  destruct (Z.ltb_spec 4 (Z.of_nat (length (enc_varint z)))); [|f_equal; by apply (Hend 4%nat); [lia|]].
  destruct (Hb 4%nat) as (b4 & -> & Hb4); [lia|]. cbn [rbind]. rewrite land_127 in Hb4.
  f_equal. unfold u32. rewrite Z.shiftl_mul_pow2 by lia.
  assert ((b4 * 2 ^ 28) mod 2 ^ 32 = (z / 2 ^ 28) mod 16 * 2 ^ 28) as ->.
  { change (2 ^ 32) with (16 * 2 ^ 28). rewrite Z.mul_mod_distr_r by lia. f_equal.
    change (7 * Z.of_nat 4) with 28 in Hb4.
    rewrite <- (Z.mod_mod_divide b4 128 16), Hb4, Z.mod_mod_divide by (exists 8; lia). done. }
  rewrite <- (Z.shiftl_mul_pow2 _ 28), lor_shiftl by (try apply Z.mod_pos_bound; lia).
  change (2 ^ 32) with (2 ^ 28 * 16). rewrite Z.rem_mul_r by lia. lia.
Qed.

Lemma parse_boolean_spec z rest : z = 0 \/ z = 1 -> parse_boolean (length (enc_varint z)) (enc_varint z ++ rest) = Ok z.
Proof. intros [->| ->]; reflexivity. Qed.

(* ------------------------------------------------------------------ *)
(** ** Ranges of field numbers *)

(** The range at position [j] and the one after it hold the number [v]. *)
Definition holds (rs : list ProtobufCIntRange) (j : nat) (v : Z) (r r' : ProtobufCIntRange) : Prop :=
  rs !! j = Some r /\ rs !! S j = Some r' /\ r.1 <= v < r.1 + (r'.2 - r.2).

(** The numbers of a table, in its order. *)
Fixpoint ids_of (rs : list ProtobufCIntRange) : list Z :=
  match rs with
  | r :: ((r' :: _) as rest) => seqZ r.1 (r'.2 - r.2) ++ ids_of rest
  | _ => []
  end.

(** The ranges are increasing and disjoint above [lo], the indices start at [o]
    and count the numbers before each range. *)
Fixpoint ranges_from (lo o : Z) (rs : list ProtobufCIntRange) : bool :=
  match rs with
  | [] => false
  | r :: rest =>
      (r.2 =? o) &&
      match rest with
      | [] => true
      | r' :: _ =>
          (lo <=? r.1) && (o <? r'.2) && (r.1 + (r'.2 - o) <=? 2 ^ 29) &&
          ranges_from (r.1 + (r'.2 - o)) r'.2 rest
      end
  end.

Lemma ranges_from_cons lo o r r' rest : ranges_from lo o (r :: r' :: rest) = true ->
  r.2 = o /\ lo <= r.1 /\ o < r'.2 /\ r.1 + (r'.2 - o) <= 2 ^ 29 /\
  ranges_from (r.1 + (r'.2 - o)) r'.2 (r' :: rest) = true.
Proof.
  cbn [ranges_from]. rewrite !andb_true_iff, Z.eqb_eq, !Z.leb_le, Z.ltb_lt. naive_solver.
Qed.

(** Where the entries of a table lie. *)
Lemma ranges_from_bounds rs : forall lo o j r r', ranges_from lo o rs = true ->
  rs !! j = Some r -> rs !! S j = Some r' ->
  lo <= r.1 /\ o <= r.2 < r'.2 /\ r.1 + (r'.2 - r.2) <= 2 ^ 29 /\ r'.2 - o <= 2 ^ 29 - lo.
Proof.
  induction rs as [|a [|b rs] IH]; intros lo o j r r' Hw Hr Hr'; [done|by destruct j|].
  apply ranges_from_cons in Hw as (Ho & Hlo & Hlt & Hb & Hw). destruct j as [|j].
  - injection Hr as <-. injection Hr' as <-. lia.
  - destruct (IH _ _ j r r' Hw Hr Hr') as (?&?&?&?). lia.
Qed.

Lemma ranges_from_disjoint rs : forall lo o j k r r' q q', ranges_from lo o rs = true -> (j < k)%nat ->
  rs !! j = Some r -> rs !! S j = Some r' -> rs !! k = Some q -> rs !! S k = Some q' ->
  r.1 + (r'.2 - r.2) <= q.1.
Proof.
  induction rs as [|a [|b rs] IH]; intros lo o j k r r' q q' Hw Hjk Hr Hr' Hq Hq'; [done|by destruct k|].
  apply ranges_from_cons in Hw as (Ho & Hlo & Hlt & Hb & Hw). destruct k as [|k]; [lia|]. destruct j as [|j].
  - injection Hr as <-. injection Hr' as <-.
    destruct (ranges_from_bounds _ _ _ k q q' Hw Hq Hq') as (?&?&?&?). lia.
  - apply (IH _ _ j k r r' q q' Hw); [lia|done..].
Qed.

(** A number is at the index its range gives it. *)
Lemma ids_of_holds rs : forall lo o i v, ranges_from lo o rs = true ->
  ids_of rs !! i = Some v <-> exists j r r', holds rs j v r r' /\ Z.of_nat i + o = v - r.1 + r.2.
Proof.
  induction rs as [|a [|b rs] IH]; intros lo o i v Hw; [done| |].
  { split; [done|]. intros (j & r & r' & (_ & H & _) & _). by destruct j. }
  apply ranges_from_cons in Hw as (Ho & Hlo & Hlt & Hb & Hw).
  change (ids_of (a :: b :: rs)) with (seqZ a.1 (b.2 - a.2) ++ ids_of (b :: rs)).
  assert (length (seqZ a.1 (b.2 - a.2)) = Z.to_nat (b.2 - a.2)) as Hlen by apply length_seqZ.
  rewrite lookup_app_Some, lookup_seqZ, Hlen, (IH _ _ _ _ Hw). split.
  - intros [[-> Hi]|[Hi (j & r & r' & (H1 & H2 & H3) & H4)]].
    + exists 0%nat, a, b. repeat split; [lia..|simpl; lia].
    + exists (S j), r, r'. repeat split; [done|done|lia..].
  - intros ([|j] & r & r' & (H1 & H2 & H3) & H4).
    + injection H1 as <-. injection H2 as <-. left. lia.
    + right. destruct (ranges_from_bounds _ _ _ j r r' Hw H1 H2) as (?&?&?&?).
      split; [lia|]. exists j, r, r'. repeat split; [done|done|lia..].
Qed.

Lemma i32_id z : - 2 ^ 31 <= z < 2 ^ 31 -> i32 z = z.
Proof. intros H. unfold i32. rewrite Z.mod_small; lia. Qed.

Section lookup.
Context (rs : list ProtobufCIntRange) (Hwf : ranges_from 0 0 rs = true).

Lemma holds_unique v j k r r' q q' : holds rs j v r r' -> holds rs k v q q' -> j = k.
Proof using Hwf.
  intros (H1 & H2 & H3) (K1 & K2 & K3). destruct (Nat.lt_trichotomy j k) as [H|[H|H]]; [|done|].
  - pose proof (ranges_from_disjoint _ _ _ j k _ _ _ _ Hwf H H1 H2 K1 K2). lia.
  - pose proof (ranges_from_disjoint _ _ _ k j _ _ _ _ Hwf H K1 K2 H1 H2). lia.
Qed.

(** Every range that holds the number is among the [n] from [start] on. *)
Definition inside (v : Z) (start n : nat) : Prop :=
  forall j r r', holds rs j v r r' -> (start <= j < start + n)%nat.

Definition loop_answer (v : Z) (a : Z + nat * nat) : Prop :=
  match a with
  | inl i => exists j r r', holds rs j v r r' /\ i = v - r.1 + r.2
  | inr (start, n) => (n <= 1)%nat /\ (start + n <= n_field_ranges rs)%nat /\ inside v start n
  end.

Lemma range_at_ok j : (j < length rs)%nat -> exists r, rs !! j = Some r /\ range_at rs j = Ok r.
Proof using Type.
  intros [r Hr]%lookup_lt_is_Some. exists r. unfold range_at. by rewrite Hr.
Qed.

Lemma cast_size j r r' : rs !! j = Some r -> rs !! S j = Some r' -> i32 (u32 (r'.2 - r.2)) = r'.2 - r.2.
Proof using Hwf.
  intros H1 H2. destruct (ranges_from_bounds _ _ _ j r r' Hwf H1 H2) as (?&?&?&?).
  rewrite u32_id by (split; lia). apply i32_id. lia.
Qed.

Lemma cast_index v j r r' : holds rs j v r r' -> i32 (u32 (v - r.1 + r.2)) = v - r.1 + r.2.
Proof using Hwf.
  intros (H1 & H2 & H3). destruct (ranges_from_bounds _ _ _ j r r' Hwf H1 H2) as (?&?&?&?).
  rewrite u32_id by (split; lia). apply i32_id. lia.
Qed.

Lemma range_loop_spec v fuel : forall start n, (n < fuel)%nat -> (start + n <= n_field_ranges rs)%nat ->
  inside v start n -> exists a, range_loop fuel rs v start n = Ok a /\ loop_answer v a.
Proof using Hwf.
  induction fuel as [|fuel IH]; intros start n Hf Hn Hin; [lia|]. cbn [range_loop].
  destruct (Nat.ltb_spec 1 n) as [Hgt|Hle]; [|by exists (inr (start, n))].
  pose proof (Nat.div_lt n 2 ltac:(lia) ltac:(lia)). pose proof (Nat.div_str_pos n 2 ltac:(lia)).
  unfold n_field_ranges in *. set (mid := (start + n / 2)%nat) in *.
  destruct (range_at_ok mid) as (r & Hr & ->); [lia|]. cbn [rbind].
  destruct (range_at_ok (S mid)) as (r' & Hr' & Hat'); [lia|].
  destruct (ranges_from_bounds _ _ _ mid r r' Hwf Hr Hr') as (?&?&?&?).
  destruct (Z.ltb_spec v r.1) as [Hlow|Hup]; [|rewrite Hat'; cbn [rbind]; rewrite (cast_size mid) by done;
    destruct (Z.leb_spec (r.1 + (r'.2 - r.2)) v) as [Hhigh|Hmid]].
  - apply IH; [lia|lia|]. intros j q q' Hq. pose proof (Hin _ _ _ Hq).
    destruct (decide (j < mid)%nat); [lia|]. exfalso. destruct Hq as (Hq1 & Hq2 & Hq3).
    destruct (decide (j = mid)) as [->|]; [simplify_eq; lia|].
    pose proof (ranges_from_disjoint _ _ _ mid j _ _ _ _ Hwf ltac:(lia) Hr Hr' Hq1 Hq2). lia.
  - apply IH; [lia|lia|]. intros j q q' Hq. pose proof (Hin _ _ _ Hq).
    destruct (decide (mid < j)%nat); [lia|]. exfalso. destruct Hq as (Hq1 & Hq2 & Hq3).
    destruct (decide (j = mid)) as [->|]; [simplify_eq; lia|].
    pose proof (ranges_from_disjoint _ _ _ j mid _ _ _ _ Hwf ltac:(lia) Hq1 Hq2 Hr Hr'). lia.
  - assert (holds rs mid v r r') as Hh by (repeat split; (done || lia)).
    rewrite (cast_index v mid r r') by done. eexists. split; [done|]. by exists mid, r, r'.
Qed.

Lemma int_range_lookup_spec v : - 2 ^ 31 <= v < 2 ^ 31 ->
  (exists i, int_range_lookup (n_field_ranges rs) rs v = Ok (Z.of_nat i) /\ ids_of rs !! i = Some v) \/
  (int_range_lookup (n_field_ranges rs) rs v = Ok (-1) /\ v ∉ ids_of rs).
Proof using Hwf.
  intros Hv.
  assert ((forall j r r', ~ holds rs j v r r') -> v ∉ ids_of rs) as Hnone.
  { intros Hno [i Hi]%list_elem_of_lookup. apply (ids_of_holds _ _ _ _ _ Hwf) in Hi.
    destruct Hi as (j & r & r' & Hh & _). by eapply Hno. }
  assert (forall j r r', holds rs j v r r' -> exists i, Z.of_nat i = v - r.1 + r.2 /\ ids_of rs !! i = Some v) as Hsome.
  { intros j r r' Hh. destruct Hh as (H1 & H2 & H3) eqn:E. pose proof (ranges_from_bounds _ _ _ j r r' Hwf H1 H2).
    exists (Z.to_nat (v - r.1 + r.2)). split; [lia|]. apply (ids_of_holds _ _ _ _ _ Hwf).
    exists j, r, r'. split; [done|]. lia. }
  assert (inside v 0 (n_field_ranges rs)) as Hin.
  { intros j r r' (_ & H2 & _). apply lookup_lt_Some in H2. unfold n_field_ranges. lia. }
  unfold int_range_lookup. destruct (Nat.eqb_spec (n_field_ranges rs) 0) as [E|Hpos].
  { right. split; [done|]. apply Hnone. intros j r r' H%Hin. lia. }
  destruct (range_loop_spec v (S (n_field_ranges rs)) 0 (n_field_ranges rs)) as (a & -> & Ha); [lia|lia|done|].
  cbn [rbind]. destruct a as [i|[start n]]; cbn [loop_answer] in Ha.
  { destruct Ha as (j & r & r' & Hh & ->). left. destruct (Hsome j r r' Hh) as (i & <- & Hi). by exists i. }
  destruct Ha as (Hn & Hbound & Hwin). destruct (Nat.ltb_spec 0 n) as [Hgt|Hle].
  2:{ right. split; [done|]. apply Hnone. intros j r r' H%Hwin. lia. }
  unfold n_field_ranges in Hbound, Hpos.
  destruct (range_at_ok start) as (r & Hr & ->); [lia|]. cbn [rbind].
  destruct (range_at_ok (S start)) as (r' & Hr' & ->); [lia|]. cbn [rbind].
  destruct (ranges_from_bounds _ _ _ start r r' Hwf Hr Hr') as (?&?&?&?).
  rewrite (u32_id (r'.2 - r.2)), (u32_id (r.1 + _)), (i32_id (r.1 + _)) by (try split; lia).
  destruct (Z.leb_spec r.1 v), (Z.ltb_spec v (r.1 + (r'.2 - r.2))); cbn [andb].
  1:{ assert (holds rs start v r r') as Hh by (repeat split; (done || lia)).
    rewrite (cast_index v start r r') by done. left. destruct (Hsome _ _ _ Hh) as (i & <- & Hi). by exists i. }
  all: right; split; [done|]; apply Hnone; intros j q q' Hq; pose proof (Hwin _ _ _ Hq);
    assert (j = start) as -> by lia; destruct Hq as (Hq1 & Hq2 & Hq3); simplify_eq; lia.
Qed.

End lookup.

(* ------------------------------------------------------------------ *)
(** ** Descriptors *)

(** Exactly the message fields name the descriptor of their messages, and only
    they are repeated. *)
Definition field_wf (sub : ProtobufCMessageDescriptor -> bool) (f : field_descriptor) : bool :=
  match f_descriptor f, f_type f, f_label f with
  | Some d, TYPE_MESSAGE, _ => sub d
  | Some _, _, _ | None, TYPE_MESSAGE, _ | None, _, LABEL_REPEATED => false
  | None, _, LABEL_OPTIONAL => true
  end.

Fixpoint descriptor_wf (d : ProtobufCMessageDescriptor) : bool :=
  match d with
  | mk_descriptor fs rs =>
      ranges_from 0 0 rs && bool_decide (map f_id fs = ids_of rs) && (0 <? length fs)%nat &&
      forallb (fun f => field_wf descriptor_wf f) fs
  end.

(** Induction over a descriptor and the descriptors of its fields. *)
Lemma descriptor_induction (P : ProtobufCMessageDescriptor -> Prop) :
  (forall fs rs, (forall f d, f ∈ fs -> f_descriptor f = Some d -> P d) -> P (mk_descriptor fs rs)) ->
  forall d, P d.
Proof.
  intros Hstep. fix IH 1. intros [fs rs]. apply Hstep.
  induction fs as [|[id l t o] fs IHfs]; intros f d Hin Hd; [exfalso; exact (not_elem_of_nil f Hin)|].
  apply elem_of_cons in Hin as [->|Hin].
  - cbn [f_descriptor] in Hd. destruct o as [d'|]; [|discriminate]. injection Hd as <-. apply IH.
  - exact (IHfs f d Hin Hd).
Qed.

Lemma descriptor_wf_inv fs rs : descriptor_wf (mk_descriptor fs rs) = true ->
  ranges_from 0 0 rs = true /\ map f_id fs = ids_of rs /\ (0 < length fs)%nat /\
  forall f, f ∈ fs -> field_wf descriptor_wf f = true.
Proof.
  cbn [descriptor_wf]. rewrite !andb_true_iff, bool_decide_eq_true, Nat.ltb_lt.
  intros [[[H1 H2] H3] H4]. split_and!; [done..|]. intros f Hf. rewrite forallb_forall in H4.
  apply H4. by apply list_elem_of_In.
Qed.

(** The descriptor of a field is one of messages, and well formed. *)
Lemma sub_descriptor_wf fs rs f d : descriptor_wf (mk_descriptor fs rs) = true -> f ∈ fs ->
  f_descriptor f = Some d -> f_type f = TYPE_MESSAGE /\ descriptor_wf d = true.
Proof.
  intros (_ & _ & _ & H)%descriptor_wf_inv Hf Hd. specialize (H f Hf). unfold field_wf in H.
  rewrite Hd in H. by destruct (f_type f).
Qed.

Lemma field_id_range fs rs f : descriptor_wf (mk_descriptor fs rs) = true -> f ∈ fs -> 0 <= f_id f < 2 ^ 29.
Proof.
  intros (H1 & H2 & _)%descriptor_wf_inv [i Hi]%list_elem_of_lookup.
  assert (ids_of rs !! i = Some (f_id f)) as Hid by (rewrite <- H2, list_lookup_fmap, Hi; done).
  apply (ids_of_holds _ _ _ _ _ H1) in Hid as (j & r & r' & (E1 & E2 & E3) & _).
  destruct (ranges_from_bounds _ _ _ j r r' H1 E1 E2) as (?&?&?&?). lia.
Qed.

Lemma ids_of_NoDup rs : ranges_from 0 0 rs = true -> NoDup (ids_of rs).
Proof.
  intros Hw. apply NoDup_alt. intros i j v Hi Hj.
  apply (ids_of_holds _ _ _ _ _ Hw) in Hi as (a & r & r' & H1 & E1).
  apply (ids_of_holds _ _ _ _ _ Hw) in Hj as (b & q & q' & H2 & E2).
  assert (a = b) as -> by by eapply (holds_unique rs Hw). destruct H1 as (H1&_), H2 as (H2&_). simplify_eq. lia.
Qed.

(** The lookup finds the field of a number, and no other. *)
Lemma lookup_known fs rs i f : descriptor_wf (mk_descriptor fs rs) = true -> fs !! i = Some f ->
  int_range_lookup (n_field_ranges rs) rs (i32 (f_id f)) = Ok (Z.of_nat i).
Proof.
  intros Hw Hi. pose proof (field_id_range fs rs f Hw (list_elem_of_lookup_2 _ _ _ Hi)) as Hr.
  apply descriptor_wf_inv in Hw as (H1 & H2 & _).
  assert (ids_of rs !! i = Some (f_id f)) as Hid by (rewrite <- H2, list_lookup_fmap, Hi; done).
  rewrite i32_id by lia.
  destruct (int_range_lookup_spec rs H1 (f_id f)) as [(k & -> & Hk)|[_ Hn]]; [lia| |].
  - do 2 f_equal. eapply NoDup_lookup; [by apply ids_of_NoDup|done..].
  - destruct Hn. by eapply list_elem_of_lookup_2.
Qed.

Lemma lookup_unknown fs rs tag : descriptor_wf (mk_descriptor fs rs) = true -> is_u32 tag ->
  tag ∉ map f_id fs -> int_range_lookup (n_field_ranges rs) rs (i32 tag) = Ok (-1).
Proof.
  intros (H1 & H2 & _)%descriptor_wf_inv [Ht0 Ht1] Hn. rewrite H2 in Hn.
  assert (- 2 ^ 31 <= i32 tag < 2 ^ 31) as Hi.
  { unfold i32. pose proof (Z.mod_pos_bound (tag + 2 ^ 31) (2 ^ 32) ltac:(lia)). lia. }
  destruct (int_range_lookup_spec rs H1 (i32 tag) Hi) as [(k & _ & Hk)|[H _]]; [|done].
  destruct Hn. pose proof Hk as Hk'. apply (ids_of_holds _ _ _ _ _ H1) in Hk' as (j & r & r' & (E1 & E2 & E3) & _).
  destruct (ranges_from_bounds _ _ _ j r r' H1 E1 E2) as (?&?&?&?).
  assert (i32 tag = tag) as Heq.
  { unfold i32 in *. pose proof (Z.mod_eq (tag + 2 ^ 31) (2 ^ 32) ltac:(lia)) as Hm.
    destruct (Z.lt_ge_cases tag (2 ^ 31)); [rewrite Z.mod_small in *; lia|].
    assert ((tag + 2 ^ 31) / 2 ^ 32 = 1); [|lia].
    symmetry. apply (Z.div_unique _ _ 1 (tag - 2 ^ 31)); lia. }
  rewrite Heq in Hk. by eapply list_elem_of_lookup_2.
Qed.

Lemma lookup_in_range fs rs tag i : descriptor_wf (mk_descriptor fs rs) = true ->
  int_range_lookup (n_field_ranges rs) rs (i32 tag) = Ok i -> i < Z.of_nat (length fs).
Proof.
  intros (H1 & H2 & _)%descriptor_wf_inv Hl.
  assert (- 2 ^ 31 <= i32 tag < 2 ^ 31) as Hi.
  { unfold i32. pose proof (Z.mod_pos_bound (tag + 2 ^ 31) (2 ^ 32) ltac:(lia)). lia. }
  rewrite <- (length_map f_id), H2.
  destruct (int_range_lookup_spec rs H1 (i32 tag) Hi) as [(k & E & Hk)|[E _]]; rewrite E in Hl; injection Hl as <-.
  - apply lookup_lt_Some in Hk. lia.
  - lia.
Qed.

(* ------------------------------------------------------------------ *)
(** ** Messages *)

(** The member has the type of the field; an absent one holds what the [init]
    function leaves. *)
Definition member_ok (sub : ProtobufCMessage -> Prop) (f : field_descriptor) (x : member) : Prop :=
  match f_label f, f_type f, x with
  | LABEL_REPEATED, TYPE_MESSAGE, Repeated l => Forall sub l
  | LABEL_OPTIONAL, TYPE_INT32, Scalar has v => - 2 ^ 31 <= v < 2 ^ 31 /\ (has = false -> v = 0)
  | LABEL_OPTIONAL, TYPE_UINT32, Scalar has v => is_u32 v /\ (has = false -> v = 0)
  | LABEL_OPTIONAL, TYPE_FIXED64, Scalar has v => 0 <= v < 2 ^ 64 /\ (has = false -> v = 0)
  | LABEL_OPTIONAL, TYPE_BOOL, Scalar has v => (v = 0 \/ v = 1) /\ (has = false -> v = 0)
  | LABEL_OPTIONAL, TYPE_BYTES, Binary has b => has = false -> b = []
  | LABEL_OPTIONAL, TYPE_MESSAGE, Submessage o => match o with Some m => sub m | None => True end
  | _, _, _ => False
  end.

(** A field whose number the descriptor does not have, with the payload of its
    wire type. *)
Definition unknown_ok (fs : list field_descriptor) (u : ProtobufCMessageUnknownField) : Prop :=
  is_u32 (uf_tag u) /\ (uf_tag u ∉ map f_id fs) /\ 0 <= uf_wire_type u < 8 /\
  exists pref, forall rest, scan_payload (uf_wire_type u) (uf_data u ++ rest) = Ok (length (uf_data u), pref).

Fixpoint message_ok (d : ProtobufCMessageDescriptor) (m : ProtobufCMessage) : Prop :=
  match d, m with
  | mk_descriptor fs _, mk_message xs us =>
      (fix go fs xs :=
         match fs, xs with
         | [], [] => True
         | f :: fs', x :: xs' =>
             member_ok (match f_descriptor f with Some d' => message_ok d' | None => fun _ => False end) f x /\
             go fs' xs'
         | _, _ => False
         end) fs xs /\ Forall (unknown_ok fs) us
  end.

(** What the field's own descriptor says of a message in it. *)
Definition on_sub {A} (none : A) (g : ProtobufCMessageDescriptor -> A) (f : field_descriptor) : A :=
  match f_descriptor f with Some d => g d | None => none end.

Definition sub_ok (f : field_descriptor) : ProtobufCMessage -> Prop := on_sub (fun _ => False) message_ok f.

Lemma message_ok_inv fs rs xs us : message_ok (mk_descriptor fs rs) (mk_message xs us) <->
  Forall2 (fun f x => member_ok (sub_ok f) f x) fs xs /\ Forall (unknown_ok fs) us.
Proof.
  cbn [message_ok]. apply and_iff_compat_r. revert xs. clear us rs.
  induction fs as [|f fs IH]; intros [|x xs]; split; try done; try (by intros ?%Forall2_length).
  - intros [H1 H2]. constructor; [exact H1|by apply IH].
  - intros [H1 H2]%Forall2_cons. split; [exact H1|by apply IH].
Qed.
