(* ===== verification/ProtobufPack.v ===== *)
(** Packing: the runtime writes the fields of a message in the reference wire
    format, in as many bytes as [protobuf_c_message_get_packed_size] says. *)

From S2P Require Import Prelude Crypto Wire Protobuf ProtobufDescriptor.

(* ------------------------------------------------------------------ *)
(** ** The recursive functions, one level at a time *)

Definition sub_pack (f : field_descriptor) : ProtobufCMessage -> bytes :=
  on_sub (fun _ => []) protobuf_c_message_pack f.
Definition sub_size (f : field_descriptor) : ProtobufCMessage -> Z :=
  on_sub (fun _ => 0) protobuf_c_message_get_packed_size f.

Definition total (l : list Z) : Z := foldr Z.add 0 l.

Lemma total_app a b : total (a ++ b) = total a + total b.
Proof. induction a as [|x a IH]; simpl; [done|]. rewrite IH. lia. Qed.

Lemma pack_unfold fs rs xs us :
  protobuf_c_message_pack (mk_descriptor fs rs) (mk_message xs us) =
  concat (zip_with (fun f x => field_pack (sub_pack f) f x) fs xs) ++ concat (map unknown_field_pack us).
Proof.
  cbn [protobuf_c_message_pack]. f_equal. revert xs. induction fs as [|f fs IH]; intros [|x xs]; [done..|].
  cbn [zip_with concat]. by rewrite <- IH.
Qed.

Lemma size_unfold fs rs xs us :
  protobuf_c_message_get_packed_size (mk_descriptor fs rs) (mk_message xs us) =
  total (zip_with (fun f x => field_size (sub_size f) f x) fs xs) + total (map unknown_field_get_packed_size us).
Proof.
  cbn [protobuf_c_message_get_packed_size]. f_equal.
  - revert xs. induction fs as [|f fs IH]; intros [|x xs]; [done..|]. cbn [zip_with total foldr]. by rewrite <- IH.
  - induction us as [|u us IH]; [done|]. cbn [map total foldr]. by rewrite IH.
Qed.

(* ------------------------------------------------------------------ *)
(** ** Sizes *)

Lemma length_tag id w : is_u32 id -> 0 <= w < 8 -> Z.of_nat (length (or_first (tag_pack id) w)) = get_tag_size id.
Proof. intros Hid Hw. rewrite tag_spec by done. symmetry. by apply get_tag_size_spec. Qed.

Lemma length_prefixed (b : bytes) :
  Z.of_nat (length (uint32_pack (u32 (Z.of_nat (length b))) ++ b)) = prefixed_size (Z.of_nat (length b)).
Proof.
  unfold prefixed_size. pose proof (u32_range (Z.of_nat (length b))).
  rewrite length_app, Nat2Z.inj_add, uint32_pack_spec, uint32_size_spec by done. done.
Qed.

(** The branch of the type [Et] names. *)
Tactic Notation "required" ident(Et) :=
  unfold required_field_pack, required_field_get_packed_size; rewrite Et.

Section member_sizes.
Context (f : field_descriptor) (Hid : is_u32 (f_id f)).
Context (ok : ProtobufCMessage -> Prop)
  (Hsub : forall m, ok m -> Z.of_nat (length (sub_pack f m)) = sub_size f m).

Lemma length_message m : ok m ->
  Z.of_nat (length (required_field_pack (sub_pack f) f (Submessage (Some m)))) =
  match f_type f with
  | TYPE_MESSAGE => get_tag_size (f_id f) + prefixed_size (sub_size f m)
  | _ => 0
  end.
Proof using Hid Hsub.
  intros Hm. unfold required_field_pack. destruct (f_type f); [done..|].
  cbn [prefixed_message_pack]. rewrite length_app, Nat2Z.inj_add, length_tag, length_prefixed, Hsub by (done || lia). done.
Qed.

Lemma length_field x : member_ok ok f x -> Z.of_nat (length (field_pack (sub_pack f) f x)) = field_size (sub_size f) f x.
Proof using Hid Hsub.
  unfold member_ok, field_pack, field_size, optional_field_pack, optional_field_get_packed_size,
    repeated_field_pack, repeated_field_get_packed_size.
  destruct (f_label f); destruct (f_type f) eqn:Et, x as [has v|has b|o|l]; try done.
  - intros [Hv _]. destruct has; [|done]. required Et.
    rewrite i32_id, length_app, Nat2Z.inj_add, length_tag, int32_size_spec by (done || lia). done.
  - intros [Hv _]. destruct has; [|done]. required Et.
    rewrite length_app, Nat2Z.inj_add, length_tag, uint32_size_spec, uint32_pack_spec by (done || lia). done.
  - intros [Hv _]. destruct has; [|done]. required Et.
    rewrite length_app, Nat2Z.inj_add, length_tag by (done || lia). unfold fixed64_pack. by rewrite length_le_bytes.
  - intros _. destruct has; [|done]. required Et.
    rewrite length_app, Nat2Z.inj_add, length_tag by (done || lia). done.
  - intros _. destruct has; [|done]. required Et.
    rewrite length_app, Nat2Z.inj_add, length_tag by (done || lia). unfold binary_data_pack. by rewrite length_prefixed.
  - destruct o as [m|]; [|done]. intros Hm. rewrite length_message by done. by required Et.
  - intros Hl. transitivity (get_tag_size (f_id f) * Z.of_nat (length l) +
      foldr (fun m acc => prefixed_size (sub_size f m) + acc) 0 l).
    + induction Hl as [|m l Hm Hl IH]; [simpl; lia|]. cbn [map concat length foldr].
      rewrite length_app, Nat2Z.inj_add, IH, length_message by done. rewrite Et. lia.
    + destruct l; [simpl; lia|done].
Qed.

End member_sizes.

Lemma length_unknown fs u : unknown_ok fs u ->
  Z.of_nat (length (unknown_field_pack u)) = unknown_field_get_packed_size u.
Proof.
  intros (Ht & _ & Hw & _). unfold unknown_field_pack, unknown_field_get_packed_size.
  by rewrite length_app, Nat2Z.inj_add, length_tag.
Qed.

Lemma length_pack d : forall m, descriptor_wf d = true -> message_ok d m ->
  Z.of_nat (length (protobuf_c_message_pack d m)) = protobuf_c_message_get_packed_size d m.
Proof.
  induction d as [fs rs IH] using descriptor_induction. intros [xs us] Hw [Hxs Hus]%message_ok_inv.
  rewrite pack_unfold, size_unfold, length_app, Nat2Z.inj_add. f_equal.
  - assert (forall f, f ∈ fs -> is_u32 (f_id f) /\
      forall m, sub_ok f m -> Z.of_nat (length (sub_pack f m)) = sub_size f m) as Hf.
    { intros f Hf. pose proof (field_id_range _ _ f Hw Hf). split; [split; lia|].
      unfold sub_ok, sub_pack, sub_size, on_sub. destruct (f_descriptor f) as [d|] eqn:E; [|done].
      destruct (sub_descriptor_wf _ _ f d Hw Hf E) as [_ Hd]. intros m Hm. by apply (IH f d). }
    clear IH Hw Hus. induction Hxs as [|f x fs xs Hx Hxs IH']; [done|]. cbn [zip_with concat total foldr].
    rewrite length_app, Nat2Z.inj_add, IH' by (intros g Hg; apply Hf; set_solver). f_equal.
    destruct (Hf f) as [Hid Hs]; [set_solver|]. by apply (length_field f Hid (sub_ok f)).
  - induction Hus as [|u us Hu Hus IHu]; [done|]. cbn [map concat total foldr].
    by rewrite length_app, Nat2Z.inj_add, IHu, (length_unknown fs).
Qed.

(* ------------------------------------------------------------------ *)
(** ** The fields on the wire *)

Definition scalar_wire (t : ProtobufCType) (v : Z) : wire :=
  match t with
  | TYPE_INT32 => WVarint (u64 v)
  | TYPE_FIXED64 => WFixed64 v
  | _ => WVarint v
  end.

(** The occurrences of a field that its member stands for. *)
Definition member_fields (sub : ProtobufCMessage -> bytes) (f : field_descriptor) (x : member) : list field :=
  match x with
  | Scalar true v => [(f_id f, scalar_wire (f_type f) v)]
  | Binary true b => [(f_id f, WBytes b)]
  | Submessage (Some m) => [(f_id f, WBytes (sub m))]
  | Repeated l => map (fun m => (f_id f, WBytes (sub m))) l
  | _ => []
  end.

Definition message_fields (d : ProtobufCMessageDescriptor) (m : ProtobufCMessage) : list field :=
  match d, m with
  | mk_descriptor fs _, mk_message xs _ => concat (zip_with (fun f x => member_fields (sub_pack f) f x) fs xs)
  end.

Lemma prefixed_fields id (b : bytes) : is_u32 id -> Z.of_nat (length b) < 2 ^ 32 ->
  or_first (tag_pack id) WIRE_TYPE_LENGTH_PREFIXED ++ uint32_pack (u32 (Z.of_nat (length b))) ++ b
  = enc_fields [(id, WBytes b)].
Proof.
  intros Hid Hb. unfold enc_fields. simpl. rewrite app_nil_r, tag_spec by (done || lia).
  rewrite u32_id by (split; lia). rewrite uint32_pack_spec by (split; lia). done.
Qed.

Lemma required_message sub f m : is_u32 (f_id f) -> f_type f = TYPE_MESSAGE ->
  Z.of_nat (length (required_field_pack sub f (Submessage (Some m)))) < 2 ^ 32 ->
  required_field_pack sub f (Submessage (Some m)) = enc_fields [(f_id f, WBytes (sub m))].
Proof.
  intros Hid Et. required Et. cbn [prefixed_message_pack]. intros Hl. apply prefixed_fields; [done|].
  rewrite !length_app in Hl. lia.
Qed.

Lemma enc_fields_app a b : enc_fields (a ++ b) = enc_fields a ++ enc_fields b.
Proof. unfold enc_fields. by rewrite map_app, concat_app. Qed.

Lemma field_pack_fields ok sub f x : is_u32 (f_id f) -> member_ok ok f x ->
  Z.of_nat (length (field_pack sub f x)) < 2 ^ 32 -> field_pack sub f x = enc_fields (member_fields sub f x).
Proof.
  intros Hid. unfold member_ok, field_pack, optional_field_pack, repeated_field_pack.
  destruct (f_label f); destruct (f_type f) eqn:Et, x as [has v|has b|o|l]; try done.
  all: try (destruct has; [|done]); cbn [member_fields].
  - intros [Hv _] _. required Et. rewrite i32_id, tag_spec, int32_pack_spec by (done || lia).
    unfold enc_fields. simpl. by rewrite app_nil_r, Z.add_0_r.
  - intros [Hv _] _. required Et. rewrite tag_spec, uint32_pack_spec by (done || lia).
    unfold enc_fields. simpl. by rewrite app_nil_r, Z.add_0_r.
  - intros [Hv _] _. required Et. rewrite tag_spec by (done || lia).
    unfold enc_fields. cbn [map concat scalar_wire enc_field fst snd]. by rewrite app_nil_r.
  - intros [Hv _] _. required Et. rewrite tag_spec by (done || lia).
    unfold enc_fields. simpl. rewrite app_nil_r, Z.add_0_r. f_equal. by destruct Hv as [->| ->].
  - intros _. required Et. unfold binary_data_pack. intros Hl. apply prefixed_fields; [done|].
    rewrite !length_app in Hl. lia.
  - destruct o as [m|]; [|done]. intros _. by apply required_message.
  - intros _. induction l as [|m l IH]; [done|]. cbn [map concat]. intros Hl. rewrite length_app in Hl.
    rewrite required_message, IH by (done || lia). by rewrite <- (enc_fields_app [_]).
Qed.

Lemma pack_fields fs rs xs us : descriptor_wf (mk_descriptor fs rs) = true ->
  message_ok (mk_descriptor fs rs) (mk_message xs us) ->
  Z.of_nat (length (protobuf_c_message_pack (mk_descriptor fs rs) (mk_message xs us))) < 2 ^ 32 ->
  protobuf_c_message_pack (mk_descriptor fs rs) (mk_message xs us) =
  enc_fields (message_fields (mk_descriptor fs rs) (mk_message xs us)) ++ concat (map unknown_field_pack us).
Proof.
  intros Hw [Hxs _]%message_ok_inv. rewrite pack_unfold, length_app. intros Hl. f_equal. cbn [message_fields].
  assert (forall f, f ∈ fs -> is_u32 (f_id f)) as Hf.
  { intros f Hf. pose proof (field_id_range _ _ f Hw Hf). split; lia. }
  clear Hw. induction Hxs as [|f x fs xs Hx Hxs IH]; [done|]. cbn [zip_with concat] in *.
  rewrite length_app in Hl. rewrite enc_fields_app, <- IH by (lia || intros g Hg; apply Hf; set_solver). f_equal.
  eapply field_pack_fields; [apply Hf; set_solver|done|lia].
Qed.
