(* ===== verification/ProtobufUnpack.v ===== *)
(** Unpacking what was packed: the scan finds the fields one after the other,
    and parsing them rebuilds the message. *)

From S2P Require Import Prelude Crypto Wire Protobuf ProtobufDescriptor ProtobufPack.

(* ------------------------------------------------------------------ *)
(** ** Slabs *)

(** The number of members that the slabs hold. *)
Definition SLAB_CAPACITY : Z := 2 ^ 27 - 16.

(** The members stored so far, when the current slab is [which_slab]. *)
Definition stored (which_slab in_slab_index : Z) : Z := 16 * (2 ^ which_slab - 1) + in_slab_index.

Definition slab_ok (which_slab in_slab_index : Z) : Prop :=
  0 <= which_slab <= MAX_SCANNED_MEMBER_SLAB /\ 0 <= in_slab_index <= 2 ^ (which_slab + 4).

Lemma next_place_spec w i : slab_ok w i ->
  (exists w' i', next_place w i = Ok (w', i') /\ slab_ok w' (i' + 1) /\ stored w' (i' + 1) = stored w i + 1) \/
  (next_place w i = fails /\ stored w i = SLAB_CAPACITY).
Proof.
  unfold slab_ok, stored, next_place, MAX_SCANNED_MEMBER_SLAB, FIRST_SCANNED_MEMBER_SLAB_SIZE_LOG2, SLAB_CAPACITY.
  intros [Hw Hi]. rewrite Z.shiftl_1_l. assert (2 ^ (w + 4) = 16 * 2 ^ w) as Hp.
  { rewrite Z.pow_add_r by lia. lia. }
  destruct (Z.eqb_spec i (2 ^ (w + 4))) as [->|Hn].
  - destruct (Z.eqb_spec w 22) as [->|Hw']; [right; split; [done|lia]|].
    left. exists (w + 1), 0. split; [done|]. replace (w + 1 + 4) with (w + 4 + 1) by lia.
    rewrite !(Z.pow_add_r 2 _ 1) by lia. pose proof (Z.pow_pos_nonneg 2 w). lia.
  - left. exists w, i. split; [done|]. lia.
Qed.

(* ------------------------------------------------------------------ *)
(** ** Items: the fields of an input, before they are scanned *)

Record item := mk_item {
  it_tag : Z; it_wire_type : Z; it_pref : nat; it_field : option nat; it_payload : bytes }.

Definition item_bytes (it : item) : bytes := enc_varint (it_tag it * 8 + it_wire_type it) ++ it_payload it.

Definition item_ok (fs : list field_descriptor) (it : item) : Prop :=
  is_u32 (it_tag it) /\ 0 <= it_wire_type it < 8 /\
  (forall rest, scan_payload (it_wire_type it) (it_payload it ++ rest) = Ok (length (it_payload it), it_pref it)) /\
  match it_field it with
  | Some i => exists f, fs !! i = Some f /\ f_id f = it_tag it
  | None => it_tag it ∉ map f_id fs
  end.

Definition scanned_item (it : item) (rest : bytes) : ScannedMember :=
  mk_scanned (it_tag it) (it_wire_type it) (it_pref it) (it_field it) (length (it_payload it))
    (it_payload it ++ rest).

Fixpoint scanned_items (its : list item) : list ScannedMember :=
  match its with
  | [] => []
  | it :: its' => scanned_item it (concat (map item_bytes its')) :: scanned_items its'
  end.

Section scan.
Context (fs : list field_descriptor) (rs : list ProtobufCIntRange)
  (Hwf : descriptor_wf (mk_descriptor fs rs) = true).

Lemma field_index_unique i j f g : fs !! i = Some f -> fs !! j = Some g -> f_id f = f_id g -> i = j.
Proof using Hwf.
  destruct (descriptor_wf_inv _ _ Hwf) as (H1 & H2 & _). intros Hi Hj E.
  apply (NoDup_lookup (ids_of rs) i j (f_id f) (ids_of_NoDup rs H1));
    rewrite <- H2, list_lookup_fmap; [by rewrite Hi|rewrite Hj; by rewrite E].
Qed.

Lemma lookup_field_item it last : item_ok fs it -> (last < length fs)%nat ->
  exists last', lookup_field fs rs last (it_tag it) = Ok (it_field it, last') /\ (last' < length fs)%nat.
Proof using Hwf.
  intros (Ht & _ & _ & Hf) [lf Hlf]%lookup_lt_is_Some. unfold lookup_field. rewrite Hlf. cbn [deref rbind].
  destruct (it_field it) as [i|].
  - destruct Hf as (f & Hf & <-). destruct (Z.eqb_spec (f_id lf) (f_id f)) as [E|_].
    + rewrite (field_index_unique last i lf f) by done. exists i. split; [done|]. by eapply lookup_lt_Some.
    + rewrite (lookup_known fs rs i f) by done. cbn [rbind]. rewrite (proj2 (Z.ltb_ge _ _)) by lia.
      rewrite Nat2Z.id. exists i. split; [done|]. by eapply lookup_lt_Some.
  - destruct (Z.eqb_spec (f_id lf) (it_tag it)) as [E|_].
    + destruct Hf. rewrite <- E. apply list_elem_of_fmap. exists lf. split; [done|]. by eapply list_elem_of_lookup_2.
    + rewrite (lookup_unknown fs rs) by done. exists last. split; [done|]. by eapply lookup_lt_Some.
Qed.

Lemma scan_member_item it rest last : item_ok fs it -> (last < length fs)%nat ->
  exists last', scan_member fs rs last (item_bytes it ++ rest) = Ok (scanned_item it rest, rest, last') /\
    (last' < length fs)%nat.
Proof using Hwf.
  intros Hit Hlast. destruct (lookup_field_item it last Hit Hlast) as (last' & Hl & Hlast').
  exists last'. split; [|done]. destruct Hit as (Ht & Hw & Hp & Hf).
  unfold scan_member, item_bytes. rewrite <- app_assoc, parse_tag_spec by done. cbn [rbind].
  rewrite Hl. cbn [rbind].
  assert (match it_field it with Some i => rmap (fun _ => tt) (deref (fs !! i)) | None => Ok tt end = Ok tt) as ->.
  { destruct (it_field it); [|done]. by destruct Hf as (f & -> & _). }
  cbn [rbind]. rewrite drop_app_length, Hp. cbn [rbind]. by rewrite drop_app_length.
Qed.

Lemma item_bytes_nonempty it : item_bytes it <> [].
Proof using Type.
  unfold item_bytes. intros [E _]%app_eq_nil. by apply enc_varint_nonempty in E.
Qed.

Lemma scan_loop_items its : forall fuel last w i, Forall (item_ok fs) its -> (last < length fs)%nat ->
  slab_ok w i -> stored w i + Z.of_nat (length its) <= SLAB_CAPACITY -> (length its <= fuel)%nat ->
  scan_loop fs rs fuel last w i (concat (map item_bytes its)) = Ok (scanned_items its).
Proof using Hwf.
  induction its as [|it its IH]; intros fuel last w i Hits Hlast Hs Hc Hf; [by destruct fuel|].
  apply Forall_cons in Hits as [Hit Hits]. destruct fuel as [|fuel]; cbn [length] in *; [lia|].
  cbn [map concat]. pose proof (item_bytes_nonempty it) as Hne.
  destruct (scan_member_item it (concat (map item_bytes its)) last Hit Hlast) as (last' & Hm & Hlast').
  destruct (item_bytes it ++ concat (map item_bytes its)) as [|b l] eqn:E.
  { by apply app_eq_nil in E as [E _]. }
  cbn [scan_loop]. rewrite Hm. cbn [rbind].
  destruct (next_place_spec w i Hs) as [(w' & i' & -> & Hs' & Hst)|[_ Hfull]]; [|lia].
  cbn [rbind]. rewrite IH by (done || lia). done.
Qed.

End scan.

(* ------------------------------------------------------------------ *)
(** ** The payload of a field *)

Definition wire_type_of (w : wire) : Z :=
  match w with
  | WVarint _ => WIRE_TYPE_VARINT
  | WFixed64 _ => WIRE_TYPE_64BIT
  | WBytes _ => WIRE_TYPE_LENGTH_PREFIXED
  end.
Definition payload_of (w : wire) : bytes :=
  match w with
  | WVarint z => enc_varint z
  | WFixed64 z => le_bytes 8 z
  | WBytes b => enc_varint (Z.of_nat (length b)) ++ b
  end.
Definition pref_of (w : wire) : nat :=
  match w with WBytes b => length (enc_varint (Z.of_nat (length b))) | _ => 0%nat end.

(** A payload short enough for the 32-bit sums of the scan. *)
Definition wire_fits (w : wire) : Prop :=
  match w with
  | WVarint z => 0 <= z < 2 ^ 64
  | WFixed64 z => True
  | WBytes b => Z.of_nat (length b) <= SLAB_CAPACITY
  end.

Lemma enc_field_payload id w : enc_field (id, w) = enc_varint (id * 8 + wire_type_of w) ++ payload_of w.
Proof. destruct w; unfold enc_field; simpl; [by rewrite Z.add_0_r|done|done]. Qed.

Lemma scan_prefixed (b rest : bytes) : Z.of_nat (length b) <= SLAB_CAPACITY ->
  scan_length_prefixed_data ((enc_varint (Z.of_nat (length b)) ++ b) ++ rest) =
  (Z.of_nat (length (enc_varint (Z.of_nat (length b)) ++ b)), length (enc_varint (Z.of_nat (length b)))).
Proof.
  unfold SLAB_CAPACITY. intros Hb. unfold scan_length_prefixed_data.
  pose proof (length_enc_varint_u32 (Z.of_nat (length b)) ltac:(split; lia)) as Hl.
  rewrite <- app_assoc, header_loop_spec by (try done; lia).
  rewrite Z.mul_1_r, Z.add_0_l, Nat.add_0_l, u32_id by (split; lia).
  rewrite !length_app. rewrite (proj2 (Z.ltb_ge _ _)) by lia. f_equal. lia.
Qed.

Lemma scan_payload_wire w rest : wire_fits w ->
  scan_payload (wire_type_of w) (payload_of w ++ rest) = Ok (length (payload_of w), pref_of w).
Proof.
  destruct w as [z|z|b]; cbn [wire_fits wire_type_of payload_of pref_of]; intros H; unfold scan_payload;
    cbn [Z.eqb Pos.eqb WIRE_TYPE_VARINT WIRE_TYPE_64BIT WIRE_TYPE_LENGTH_PREFIXED].
  - by rewrite scan_varint_spec.
  - by rewrite length_app, length_le_bytes.
  - rewrite scan_prefixed by done. pose proof (enc_varint_nonempty (Z.of_nat (length b))) as Hne.
    assert (0 < length (enc_varint (Z.of_nat (length b)) ++ b))%nat as Hpos.
    { rewrite length_app. destruct (enc_varint _); [done|simpl; lia]. }
    rewrite (proj2 (Z.eqb_neq _ _)) by lia. by rewrite Nat2Z.id.
Qed.

(** The item of a field of the message. *)
Definition wire_item (i : nat) (f : field) : item :=
  mk_item f.1 (wire_type_of f.2) (pref_of f.2) (Some i) (payload_of f.2).

Lemma wire_item_bytes i f : item_bytes (wire_item i f) = enc_field f.
Proof. destruct f as [id w]. by rewrite enc_field_payload. Qed.

Lemma prefixed_payload_wire i id b rest : Z.of_nat (length b) <= SLAB_CAPACITY ->
  prefixed_payload (scanned_item (wire_item i (id, WBytes b)) rest) = Ok b.
Proof.
  unfold SLAB_CAPACITY. intros Hb. unfold prefixed_payload, region.
  cbn [scanned_item wire_item sm_length_prefix_len sm_len sm_data it_pref it_payload pref_of payload_of fst snd].
  set (e := enc_varint (Z.of_nat (length b))).
  assert (length e <= 5)%nat as Hl by (apply length_enc_varint_u32; split; lia).
  rewrite (u32_id (Z.of_nat _)) by (rewrite length_app; split; lia).
  rewrite u32_id by (rewrite length_app; split; lia).
  rewrite !length_app, (proj2 (Z.ltb_ge _ _)) by lia. f_equal. unfold slice.
  rewrite Nat2Z.id, <- app_assoc, drop_app_length.
  replace (Z.to_nat _) with (length b) by lia. by rewrite take_app_length.
Qed.

(* ------------------------------------------------------------------ *)
(** ** Parsing one field *)

Section parse_one.
Context (unpack : bytes -> result ProtobufCMessage)
  (merge : ProtobufCMessage -> ProtobufCMessage -> ProtobufCMessage)
  (sub : ProtobufCMessage -> bytes) (ok : ProtobufCMessage -> Prop).
Context (Hsub : forall m, ok m -> Z.of_nat (length (sub m)) <= SLAB_CAPACITY -> unpack (sub m) = Ok m).
Context (f : field_descriptor) (i : nat).

Abbreviation scanned_wire w rest := (scanned_item (wire_item i (f_id f, w)) rest).

Lemma parse_scalar cap has v rest : f_label f = LABEL_OPTIONAL -> member_ok ok f (Scalar has v) ->
  parse_known_member unpack merge f cap (scanned_wire (scalar_wire (f_type f) v) rest) (init_member f) = Ok (Scalar true v).
Proof using Type.
  intros El. unfold member_ok, parse_known_member, parse_optional_member, init_member, parse_required_member.
  rewrite El. destruct (f_type f) eqn:Et; try done; intros [Hv _];
    cbn [scalar_wire scanned_item wire_item sm_len sm_data sm_wire_type it_wire_type it_payload wire_type_of payload_of
      fst snd Z.eqb Pos.eqb WIRE_TYPE_VARINT WIRE_TYPE_64BIT].
  - rewrite u32_id by (pose proof (length_enc_varint_u64 (u64 v) ltac:(unfold u64; apply Z.mod_pos_bound; lia)); split; lia).
    unfold parse_int32. rewrite parse_uint32_spec by (unfold u64; apply Z.mod_pos_bound; lia). cbn. do 2 f_equal.
    unfold u32, u64, i32. rewrite Z.mod_mod_divide by (exists (2 ^ 32); lia).
    rewrite Zplus_mod_idemp_l, Z.mod_small by lia. lia.
  - destruct Hv as [H0 H1]. rewrite u32_id by (pose proof (length_enc_varint_u32 v ltac:(split; lia)); split; lia).
    rewrite parse_uint32_spec by lia. cbn. by rewrite u32_id by (split; lia).
  - unfold parse_fixed_uint64, region. rewrite length_app, length_le_bytes.
    rewrite (proj2 (Z.ltb_ge _ _)) by lia. cbn [rmap rbind set_has]. do 2 f_equal. unfold slice.
    change (Z.to_nat 0) with 0%nat. rewrite drop_0, take_app_length' by (by rewrite length_le_bytes).
    rewrite le_val_le_bytes. by apply Z.mod_small.
  - destruct Hv as [->| ->]; reflexivity.
Qed.

Lemma parse_required_message x b c sm m : f_type f = TYPE_MESSAGE -> sm_wire_type sm = WIRE_TYPE_LENGTH_PREFIXED ->
  prefixed_payload sm = Ok b -> unpack b = Ok m -> x = None \/ c = false ->
  parse_required_member unpack merge f sm (Submessage x) c = Ok (Submessage (Some m)).
Proof using Type.
  intros Et Hw Hp Hu Hx. unfold parse_required_member. rewrite Et, Hw, Hp. cbn. rewrite Hu. cbn.
  by destruct x as [y|], c; destruct Hx.
Qed.

(** The scanned occurrences of a list of fields. *)
Definition occurrences (ws : list field) (sms : list ScannedMember) : Prop :=
  Forall2 (fun w sm => wire_fits w.2 /\ exists rest, sm = scanned_item (wire_item i w) rest) ws sms.

Definition parse_all (cap : nat) (x : result member) (sms : list ScannedMember) : result member :=
  foldl (fun r sm => let? y := r in parse_known_member unpack merge f cap sm y) x sms.

Lemma occurrences_nil sms : occurrences [] sms -> sms = [].
Proof using Type. by intros ?%Forall2_nil_inv_l. Qed.

Lemma occurrences_one w sms : occurrences [w] sms ->
  exists rest, sms = [scanned_item (wire_item i w) rest] /\ wire_fits w.2.
Proof using Type.
  intros (sm & l & [Hf [rest ->]] & ->%Forall2_nil_inv_l & ->)%Forall2_cons_inv_l. by exists rest.
Qed.

Lemma parse_repeated cap l : forall acc sms, f_label f = LABEL_REPEATED -> f_type f = TYPE_MESSAGE -> Forall ok l ->
  occurrences (member_fields sub f (Repeated l)) sms -> (length acc + length sms <= cap)%nat ->
  parse_all cap (Ok (Repeated acc)) sms = Ok (Repeated (acc ++ l)).
Proof using Hsub.
  induction l as [|m l IH]; intros acc sms El Et Hok Hs Hc; cbn [member_fields map] in Hs.
  - apply occurrences_nil in Hs as ->. by rewrite app_nil_r.
  - apply Forall_cons in Hok as [Hm Hok].
    apply Forall2_cons_inv_l in Hs as (sm & sms' & [Hf [rest ->]] & Hs & ->). cbn [length] in Hc.
    cbn [parse_all foldl rbind]. unfold parse_known_member at 2. rewrite El. cbn [parse_repeated_member].
    rewrite (proj2 (Nat.ltb_lt _ _)) by lia.
    rewrite (parse_required_message _ (sub m) _ _ m); [|done|done|by apply prefixed_payload_wire|by apply Hsub|by left].
    cbn [rbind]. fold (parse_all cap (Ok (Repeated (acc ++ [m]))) sms').
    rewrite IH; [by rewrite <- app_assoc|done..|]. rewrite length_app. simpl. lia.
Qed.

(** The occurrences of a member rebuild it from the initial one. *)
Lemma parse_occurrences cap x sms : member_ok ok f x -> occurrences (member_fields sub f x) sms ->
  (length sms <= cap)%nat -> parse_all cap (Ok (init_member f)) sms = Ok x.
Proof using Hsub.
  intros Hx Hs Hc. destruct (f_label f) eqn:El; unfold member_ok in Hx; rewrite El in Hx.
  - destruct x as [[|] v|[|] b|[m|]|l]; cbn [member_fields] in Hs; destruct (f_type f) eqn:Et; try done.
    all: first [apply occurrences_one in Hs as (rest & -> & Hf) | apply occurrences_nil in Hs as ->];
      unfold parse_all; cbn [foldl rbind].
    all: try (pose proof (parse_scalar cap true v rest El) as Hp; unfold member_ok in Hp; rewrite El, Et in Hp;
      by apply Hp).
    all: try (unfold init_member; rewrite El, Et; first [by rewrite Hx | by rewrite (proj2 Hx) | done]).
    + unfold parse_known_member, parse_optional_member, init_member, parse_required_member. rewrite El, Et.
      cbn [scanned_item sm_wire_type wire_item it_wire_type wire_type_of snd]. rewrite Z.eqb_refl.
      fold (scanned_wire (WBytes b) rest). rewrite prefixed_payload_wire by done. done.
    + unfold parse_known_member, parse_optional_member, init_member. rewrite El, Et.
      rewrite (parse_required_message _ (sub m) _ _ m); [done|done|done|by apply prefixed_payload_wire|by apply Hsub|by left].
  - destruct (f_type f) eqn:Et, x; try done. replace (init_member f) with (Repeated (A := ProtobufCMessage) []).
    + by apply (parse_repeated cap _ []).
    + unfold init_member. by rewrite El.
Qed.

End parse_one.

(* ------------------------------------------------------------------ *)
(** ** Parsing a message *)

Definition sub_unpack (f : field_descriptor) : bytes -> result ProtobufCMessage :=
  on_sub (fun _ => Stuck) protobuf_c_message_unpack f.
Definition sub_merge (f : field_descriptor) : ProtobufCMessage -> ProtobufCMessage -> ProtobufCMessage :=
  on_sub (fun _ l => l) merge_messages f.

Lemma unpack_unfold fs rs data :
  protobuf_c_message_unpack (mk_descriptor fs rs) data =
  let? scanned := scan_loop fs rs (length data) 0 0 0 data in
  parse_members fs (map sub_unpack fs) (map sub_merge fs) scanned scanned (mk_message (map init_member fs) []).
Proof. done. Qed.

Lemma parse_members_app fs un me sc l1 l2 m :
  parse_members fs un me sc (l1 ++ l2) m =
  let? m' := parse_members fs un me sc l1 m in parse_members fs un me sc l2 m'.
Proof.
  revert m. induction l1 as [|sm l1 IH]; intros m; [done|]. cbn [app parse_members].
  rewrite rbind_assoc. by destruct (parse_member fs un me sc sm m); cbn [rbind].
Qed.

(** The items of the members from the field at index [k] on. *)
Fixpoint items_from (k : nat) (fs : list field_descriptor) (xs : list member) : list item :=
  match fs, xs with
  | f :: fs', x :: xs' => map (wire_item k) (member_fields (sub_pack f) f x) ++ items_from (S k) fs' xs'
  | _, _ => []
  end.

Definition unknown_item (pref : nat) (u : ProtobufCMessageUnknownField) : item :=
  mk_item (uf_tag u) (uf_wire_type u) pref None (uf_data u).

(** A scanned member comes from an item. *)
Definition scan_of (it : item) (sm : ScannedMember) : Prop := exists rest, sm = scanned_item it rest.

Lemma scanned_items_scan_of its : Forall2 scan_of its (scanned_items its).
Proof. induction its as [|it its IH]; cbn [scanned_items]; constructor; [by eexists|done]. Qed.

Lemma n_members_scan_of o its sms : Forall2 scan_of its sms ->
  n_members o sms = length (List.filter (fun it => bool_decide (it_field it = o)) its).
Proof.
  unfold n_members. induction 1 as [|it sm its sms [rest ->] _ IH]; [done|]. cbn [List.filter is_field scanned_item sm_field].
  unfold is_field in *. cbn [scanned_item sm_field]. by destruct (bool_decide (it_field it = o)); cbn [length]; rewrite IH.
Qed.

Lemma list_filter_true {A} (p : A -> bool) l : Forall (fun a => p a = true) l -> List.filter p l = l.
Proof. induction 1 as [|a l Ha _ IH]; [done|]. simpl. by rewrite Ha, IH. Qed.

(** The varints of a member have at most ten bytes. *)
Lemma member_fields_varint ok sub f x : member_ok ok f x ->
  Forall (fun w => match w.2 with WVarint z => 0 <= z < 2 ^ 64 | _ => True end) (member_fields sub f x).
Proof.
  unfold member_ok, is_u32. destruct (f_label f), (f_type f) eqn:Et, x as [[|] v|[|] b|[m|]|l]; try done; intros Hx;
    cbn [member_fields]; rewrite ?Et; try (repeat constructor; simpl; lia).
  - constructor; [|done]. cbn. unfold u64. apply Z.mod_pos_bound. lia.
  - apply Forall_map. by apply Forall_true.
Qed.

Lemma occurrences_scan_of k ok sub f x sms : member_ok ok f x ->
  Forall2 scan_of (map (wire_item k) (member_fields sub f x)) sms ->
  Forall (fun it => Z.of_nat (length (it_payload it)) <= SLAB_CAPACITY)
    (map (wire_item k) (member_fields sub f x)) ->
  occurrences k (member_fields sub f x) sms.
Proof.
  intros Hx%(member_fields_varint ok sub) Hs Hfit. revert Hs Hfit. revert sms.
  induction Hx as [|w ws Hw _ IH]; intros sms Hs Hfit.
  - apply Forall2_nil_inv_l in Hs as ->. constructor.
  - apply Forall2_cons_inv_l in Hs as (sm & sms' & Hsm & Hs & ->). apply Forall_cons in Hfit as [Hf Hfit].
    constructor; [|by apply IH]. split; [|done]. destruct w as [id [z|z|b]]; simpl in *; [done..|].
    rewrite length_app in Hf. lia.
Qed.

Lemma length_snoc_S {A} (l : list A) x : length (l ++ [x]) = S (length l).
Proof. rewrite length_app. simpl. lia. Qed.

Section parse_all.
Context (fs : list field_descriptor) (scanned : list ScannedMember).
Context (Hsub : forall f, f ∈ fs -> forall m, sub_ok f m ->
  Z.of_nat (length (sub_pack f m)) <= SLAB_CAPACITY -> sub_unpack f (sub_pack f m) = Ok m).

Abbreviation parse := (parse_members fs (map sub_unpack fs) (map sub_merge fs) scanned).

Lemma parse_at i f x xs us sms : fs !! i = Some f -> xs !! i = Some x ->
  Forall (fun sm => sm_field sm = Some i) sms ->
  parse sms (mk_message xs us) =
  rmap (fun y => mk_message (<[i := y]> xs) us)
    (parse_all (sub_unpack f) (sub_merge f) f (n_members (Some i) scanned) (Ok x) sms).
Proof using Type.
  intros Hf Hx Hs. revert x xs Hx. induction Hs as [|sm sms Hsm Hs IH]; intros x xs Hx.
  - cbn. by rewrite list_insert_id.
  - cbn [parse_members parse_all foldl rbind]. unfold parse_member. rewrite Hsm, Hf, Hx, !list_lookup_fmap, Hf.
    cbn [fmap option_fmap option_map deref rbind].
    destruct (parse_known_member _ _ f _ sm x) as [y|e|] eqn:E; cbn [rbind].
    + rewrite (IH y) by (apply list_lookup_insert_eq; by eapply lookup_lt_Some).
      unfold parse_all. cbn [rbind]. unfold rmap. destruct (foldl _ (Ok y) sms); cbn [rbind]; [|done..].
      by rewrite list_insert_insert_eq.
    + clear. by induction sms as [|sm sms IH]; [|apply IH].
    + clear. by induction sms as [|sm sms IH]; [|apply IH].
Qed.

Lemma parse_fields fs2 xs2 : Forall2 (fun f x => member_ok (sub_ok f) f x) fs2 xs2 ->
  forall fs1 xs1 us sms, fs = fs1 ++ fs2 -> length fs1 = length xs1 ->
  Forall2 scan_of (items_from (length fs1) fs2 xs2) sms ->
  Forall (fun it => Z.of_nat (length (it_payload it)) <= SLAB_CAPACITY) (items_from (length fs1) fs2 xs2) ->
  (forall i f x, fs2 !! i = Some f -> xs2 !! i = Some x ->
     (length (member_fields (sub_pack f) f x) <= n_members (Some (length fs1 + i)%nat) scanned)%nat) ->
  parse sms (mk_message (xs1 ++ map init_member fs2) us) = Ok (mk_message (xs1 ++ xs2) us).
Proof using Hsub.
  induction 1 as [|f x fs2 xs2 Hx Hxs IH]; intros fs1 xs1 us sms Hfs Hlen Hsms Hfit Hcap.
  - by apply Forall2_nil_inv_l in Hsms as ->.
  - cbn [items_from] in Hsms, Hfit. apply Forall2_app_inv_l in Hsms as (sms1 & sms2 & H1 & H2 & ->).
    apply Forall_app in Hfit as [Hf1 Hf2]. rewrite parse_members_app.
    assert (fs !! length fs1 = Some f) as Hi by (rewrite Hfs; by apply list_lookup_middle).
    assert (occurrences (length fs1) (member_fields (sub_pack f) f x) sms1) as Hocc.
    { by eapply occurrences_scan_of. }
    cbn [map]. rewrite (parse_at (length fs1) f (init_member f)).
    + rewrite (parse_occurrences _ _ (sub_pack f) (sub_ok f) (Hsub f ltac:(by eapply list_elem_of_lookup_2)) f
        (length fs1) _ x); [|done|done|].
      * cbn [rmap rbind]. rewrite Hlen, insert_app_r_alt, Nat.sub_diag by lia. cbn [insert list_insert].
        rewrite (cons_middle x xs1), (cons_middle x xs1 xs2), !app_assoc.
        apply (IH (fs1 ++ [f]) (xs1 ++ [x])); rewrite ?length_snoc_S; [by rewrite <- app_assoc|by rewrite Hlen|done|done|].
        intros i g y Hg Hy. specialize (Hcap (S i) g y Hg Hy). by rewrite Nat.add_succ_r in Hcap.
      * rewrite <- (Forall2_length _ _ _ Hocc). specialize (Hcap 0%nat f x). rewrite Nat.add_0_r in Hcap. by apply Hcap.
    + done.
    + rewrite Hlen. by apply list_lookup_middle.
    + eapply Forall2_Forall_r; [exact H1|]. apply Forall_map, Forall_true. intros w _ [rest ->]. done.
Qed.

End parse_all.

Lemma items_from_count fs : forall k i xs f x, fs !! i = Some f -> xs !! i = Some x ->
  (length (member_fields (sub_pack f) f x) <=
   length (List.filter (fun it => bool_decide (it_field it = Some (k + i)%nat)) (items_from k fs xs)))%nat.
Proof.
  induction fs as [|g fs IH]; intros k i [|y xs] f x Hf Hx; [done..|]. cbn [items_from].
  rewrite List.filter_app, length_app. destruct i as [|i].
  - injection Hf as ->. injection Hx as ->. rewrite list_filter_true; [rewrite length_map; lia|].
    apply Forall_map, Forall_true. intros w. by rewrite Nat.add_0_r, bool_decide_eq_true.
  - pose proof (IH (S k) i xs f x Hf Hx) as H. rewrite Nat.add_succ_comm in H. lia.
Qed.

Lemma member_fields_id sub f x : Forall (fun w => w.1 = f_id f) (member_fields sub f x).
Proof.
  destruct x as [[|] v|[|] b|[m|]|l]; cbn [member_fields]; try by repeat constructor.
  apply Forall_map. by apply Forall_true.
Qed.

Lemma occurrences_fit k ws sms : occurrences k ws sms -> Forall (fun w => wire_fits w.2) ws.
Proof. induction 1 as [|w sm ws sms [H _] _ IH]; by constructor. Qed.

Lemma items_from_ok fs rs : descriptor_wf (mk_descriptor fs rs) = true ->
  forall fs1 fs2 xs2, fs = fs1 ++ fs2 -> Forall2 (fun f x => member_ok (sub_ok f) f x) fs2 xs2 ->
  Forall (fun it => Z.of_nat (length (it_payload it)) <= SLAB_CAPACITY) (items_from (length fs1) fs2 xs2) ->
  Forall (item_ok fs) (items_from (length fs1) fs2 xs2).
Proof.
  intros Hw fs1 fs2 xs2 Hfs Hx. revert fs1 Hfs.
  induction Hx as [|f x fs2 xs2 Hx _ IH]; intros fs1 Hfs Hfit; [done|]. cbn [items_from] in *.
  assert (fs !! length fs1 = Some f) as Hi by (rewrite Hfs; by apply list_lookup_middle).
  apply Forall_app in Hfit as [Hf1 Hf2]. apply Forall_app. split.
  - pose proof (occurrences_scan_of _ _ _ _ _ _ Hx (scanned_items_scan_of _) Hf1) as Hocc.
    pose proof (field_id_range fs rs f Hw ltac:(by eapply list_elem_of_lookup_2)).
    apply occurrences_fit in Hocc. apply Forall_map.
    eapply Forall_impl; [apply Forall_and; split; [exact Hocc|apply (member_fields_id (sub_pack f) f x)]|].
    intros w [Hfit Hid]. unfold item_ok, is_u32. cbn [wire_item it_tag it_wire_type it_payload it_pref it_field].
    split_and!; [lia|lia|by destruct w.2|by destruct w.2|intros rest; by apply scan_payload_wire|]. by exists f.
  - specialize (IH (fs1 ++ [f])). rewrite length_snoc_S in IH. apply IH; [by rewrite <- app_assoc|done].
Qed.

Lemma unknown_items fs us : Forall (unknown_ok fs) us ->
  exists its, Forall2 (fun u it => exists pref, it = unknown_item pref u) us its /\ Forall (item_ok fs) its /\
    concat (map unknown_field_pack us) = concat (map item_bytes its).
Proof.
  induction 1 as [|u us (Ht & Hn & Hw & [pref Hp]) _ (its & H1 & H2 & H3)]; [by exists []|].
  exists (unknown_item pref u :: its). split; [|split].
  - constructor; [by exists pref|done].
  - constructor; [|done]. done.
  - cbn [map concat]. rewrite H3. f_equal. unfold unknown_field_pack. by rewrite tag_spec.
Qed.

Lemma parse_unknowns fs un me scanned xs us its : Forall2 (fun u it => exists pref, it = unknown_item pref u) us its ->
  forall us0 sms, Forall2 scan_of its sms -> (length us0 + length sms <= n_members None scanned)%nat ->
  parse_members fs un me scanned sms (mk_message xs us0) = Ok (mk_message xs (us0 ++ us)).
Proof.
  induction 1 as [|u it us its [pref ->] _ IH]; intros us0 sms Hs Hc.
  - apply Forall2_nil_inv_l in Hs as ->. by rewrite app_nil_r.
  - apply Forall2_cons_inv_l in Hs as (sm & sms' & [rest ->] & Hs & ->). cbn [length] in Hc.
    cbn [parse_members parse_member scanned_item unknown_item sm_field it_field].
    rewrite (proj2 (Nat.ltb_lt _ _)) by lia.
    cbn [sm_len sm_data sm_tag sm_wire_type it_payload it_tag it_wire_type unknown_item scanned_item]. unfold region.
    rewrite length_app, (proj2 (Z.ltb_ge _ _)) by lia. cbn [rbind]. unfold slice.
    rewrite Nat2Z.id, drop_0, take_app_length. change (mk_unknown _ _ _) with (mk_unknown (uf_tag u) (uf_wire_type u) (uf_data u)).
    rewrite (IH (us0 ++ [_])) by (done || rewrite length_snoc_S; lia). rewrite <- app_assoc. by destruct u.
Qed.

Lemma items_bytes k fs xs :
  concat (map item_bytes (items_from k fs xs)) =
  enc_fields (concat (zip_with (fun f x => member_fields (sub_pack f) f x) fs xs)).
Proof.
  revert k xs. induction fs as [|f fs IH]; intros k [|x xs]; [done..|]. cbn [items_from zip_with concat].
  rewrite map_app, concat_app, enc_fields_app, IH. f_equal. unfold enc_fields. rewrite map_map. f_equal.
  apply map_ext. apply wire_item_bytes.
Qed.

Lemma payload_le its : Forall (fun it => (length (it_payload it) <= length (concat (map item_bytes its)))%nat) its.
Proof.
  induction its as [|it its IH]; [done|]. cbn [map concat]. constructor.
  - unfold item_bytes. rewrite !length_app. lia.
  - eapply Forall_impl; [exact IH|]. intros it' H. simpl in H. rewrite length_app. lia.
Qed.

Lemma length_items its : (length its <= length (concat (map item_bytes its)))%nat.
Proof.
  induction its as [|it its IH]; [done|]. cbn [map concat length]. rewrite length_app.
  pose proof (item_bytes_nonempty it). destruct (item_bytes it); [done|]. simpl. lia.
Qed.

(** Unpacking inverts packing, unknown fields included, for every message that
    packs into no more bytes than the slabs have places. *)
Lemma unpack_pack d : forall m, descriptor_wf d = true -> message_ok d m ->
  Z.of_nat (length (protobuf_c_message_pack d m)) <= SLAB_CAPACITY ->
  protobuf_c_message_unpack d (protobuf_c_message_pack d m) = Ok m.
Proof.
  induction d as [fs rs IHd] using descriptor_induction. intros [xs us] Hw Hok Hlen.
  rewrite pack_fields in Hlen |- * by (try done; unfold SLAB_CAPACITY in Hlen; lia).
  apply message_ok_inv in Hok as [Hxs Hus]. cbn [message_fields] in *. rewrite <- (items_bytes 0) in *.
  destruct (unknown_items fs us Hus) as (uits & Hu1 & Hu2 & Hu3). rewrite Hu3, <- concat_app, <- map_app in *.
  set (its := items_from 0 fs xs ++ uits) in *.
  assert (Forall (fun it => Z.of_nat (length (it_payload it)) <= SLAB_CAPACITY) its) as Hfit.
  { eapply Forall_impl; [apply payload_le|]. intros it H. simpl in H. lia. }
  pose proof (length_items its) as Hits. apply Forall_app in Hfit as [Hfit _].
  assert (Forall (item_ok fs) its) as Hitems.
  { apply Forall_app. split; [|done]. by apply (items_from_ok fs rs Hw [] fs xs). }
  rewrite unpack_unfold. destruct (descriptor_wf_inv fs rs Hw) as (_ & _ & Hpos & _).
  rewrite (scan_loop_items fs rs Hw); [|done|done|done|unfold stored; simpl; lia|done]. cbn [rbind].
  pose proof (scanned_items_scan_of its) as Hsc. set (scanned := scanned_items its) in *. clearbody scanned.
  pose proof (fun o => n_members_scan_of o its scanned Hsc) as Hn.
  apply Forall2_app_inv_l in Hsc as (sms1 & sms2 & Hs1 & Hs2 & Escan).
  rewrite Escan at 2. rewrite parse_members_app.
  assert (forall f, f ∈ fs -> forall m, sub_ok f m ->
    Z.of_nat (length (sub_pack f m)) <= SLAB_CAPACITY -> sub_unpack f (sub_pack f m) = Ok m) as Hsub.
  { intros f Hf m. unfold sub_ok, sub_pack, sub_unpack, on_sub. destruct (f_descriptor f) as [d|] eqn:E; [|done].
    apply (IHd f d Hf E). by destruct (sub_descriptor_wf fs rs f d Hw Hf E). }
  pose proof (parse_fields fs scanned Hsub fs xs Hxs [] [] [] sms1 eq_refl eq_refl Hs1 Hfit) as Hp.
  cbn [app] in Hp. rewrite Hp; clear Hp.
  2:{ intros i f x Hf Hx. rewrite Hn. unfold its. rewrite List.filter_app, length_app.
    pose proof (items_from_count fs 0 i xs f x Hf Hx). cbn [length]. lia. }
  cbn [rbind app]. rewrite (parse_unknowns _ _ _ _ _ us uits Hu1 []); [done|done|].
  rewrite Hn. unfold its. rewrite List.filter_app, length_app, <- (Forall2_length _ _ _ Hs2). cbn [length].
  rewrite (list_filter_true _ uits); [lia|]. clear -Hu1. induction Hu1 as [|u it us its [pref ->] _ IH]; by constructor.
Qed.
