(* ===== verification/ProtobufSafety.v ===== *)
(** Unpacking arbitrary bytes: the runtime never reads or writes outside its
    buffers, ends, and answers a message of the descriptor's type.

    The sum of a length prefix and its own size is 32 bits wide in
    [scan_length_prefixed_data] and wraps for lengths from [2 ^ 32 - 5] on.  Such
    a member has fewer bytes than its prefix; the next turn of the scan then
    starts inside the prefix, on a byte whose wire type is 7, and fails, so the
    member is never parsed. *)

From S2P Require Import Prelude Crypto Wire Protobuf ProtobufDescriptor ProtobufPack ProtobufUnpack.

(* ------------------------------------------------------------------ *)
(** ** Outcomes that do not go wrong *)

Definition safely {A} (P : A -> Prop) (r : result A) : Prop :=
  match r with Ok a => P a | Err _ => True | Stuck => False end.

Lemma safely_bind {A B} (P : A -> Prop) (Q : B -> Prop) (r : result A) (k : A -> result B) :
  safely P r -> (forall a, P a -> safely Q (k a)) -> safely Q (rbind r k).
Proof. destruct r; simpl; auto. Qed.

Lemma safely_rmap {A B} (P : A -> Prop) (Q : B -> Prop) (f : A -> B) (r : result A) :
  safely P r -> (forall a, P a -> Q (f a)) -> safely Q (rmap f r).
Proof. destruct r; simpl; auto. Qed.

Lemma safely_impl {A} (P Q : A -> Prop) (r : result A) : safely P r -> (forall a, P a -> Q a) -> safely Q r.
Proof. destruct r; simpl; auto. Qed.

Lemma safely_fails {A} (P : A -> Prop) : safely P fails.
Proof. done. Qed.

#[export] Hint Resolve safely_fails : sigdb.

(* ------------------------------------------------------------------ *)
(** ** Length prefixes *)

(** A byte whose wire type does not exist. *)
Definition bad_head (l : bytes) : Prop := exists b l', l = b :: l' /\ Z.land (byte_val b) 7 = 7.

Definition digit (b : byte) : Z := byte_val b mod 128.

Lemma digit_range b : 0 <= digit b < 128.
Proof. apply Z.mod_pos_bound. lia. Qed.

Lemma digit_mod8 b : Z.land (byte_val b) 7 = digit b mod 8.
Proof. unfold digit. rewrite land_7, Z.mod_mod_divide; [done|by exists 16]. Qed.

(** The loop adds the digits of the prefix, the last one modulo [2 ^ 32]. *)
Lemma header_step val b shift : 0 <= shift <= 21 -> 0 <= val < 2 ^ shift ->
  u32 (Z.lor val (Z.shiftl (Z.land (byte_val b) 127) shift)) = val + digit b * 2 ^ shift /\
  0 <= val + digit b * 2 ^ shift < 2 ^ (shift + 7).
Proof.
  intros Hs Hv. pose proof (digit_range b) as Hd. rewrite land_127. fold (digit b).
  pose proof (Z.pow_le_mono_r 2 shift 21 ltac:(lia) ltac:(lia)). pose proof (Z.pow_pos_nonneg 2 shift ltac:(lia) ltac:(lia)).
  rewrite Z.pow_add_r by lia. change (2 ^ 7) with 128.
  split; [|nia]. apply add_digit; [lia|done|nia|lia].
Qed.

Lemma header_loop_cases data val h : header_loop 5 data 0 0 0 = Some (val, h) ->
  (h <= 4)%nat /\ 0 <= val < 2 ^ 28 \/
  h = 5%nat /\ exists b0 b1 b2 b3 b4 rest, data = b0 :: b1 :: b2 :: b3 :: b4 :: rest /\
    val = digit b0 + digit b1 * 2 ^ 7 + digit b2 * 2 ^ 14 + digit b3 * 2 ^ 21 + (digit b4 mod 16) * 2 ^ 28.
Proof.
  destruct data as [|b0 data]; cbn [header_loop]; [done|].
  destruct (header_step 0 b0 0) as [-> H0]; [lia|lia|]. change (0 + 7) with 7 in *.
  destruct (continues b0); [|intros [= <- <-]; left; lia].
  destruct data as [|b1 data]; [done|].
  destruct (header_step _ b1 7 ltac:(lia) H0) as [-> H1]. change (7 + 7) with 14 in *.
  destruct (continues b1); [|intros [= <- <-]; left; lia].
  destruct data as [|b2 data]; [done|].
  destruct (header_step _ b2 14 ltac:(lia) H1) as [-> H2]. change (14 + 7) with 21 in *.
  destruct (continues b2); [|intros [= <- <-]; left; lia].
  destruct data as [|b3 data]; [done|].
  destruct (header_step _ b3 21 ltac:(lia) H2) as [-> H3]. change (21 + 7) with 28 in *.
  destruct (continues b3); [|intros [= <- <-]; left; lia].
  destruct data as [|b4 data]; [done|].
  destruct (continues b4); [done|]. intros [= <- <-]. right. split; [done|].
  exists b0, b1, b2, b3, b4, data. split; [done|]. rewrite land_127, lor_shiftl by (done || lia). fold (digit b4).
  unfold u32. set (low := 0 + digit b0 * 2 ^ 0 + digit b1 * 2 ^ 7 + digit b2 * 2 ^ 14 + digit b3 * 2 ^ 21) in *.
  change (2 ^ 0) with 1 in low. rewrite (Z.div_mod (digit b4) 16) at 1 by lia.
  replace (low + (16 * (digit b4 / 16) + digit b4 mod 16) * 2 ^ 28)
    with (low + digit b4 mod 16 * 2 ^ 28 + digit b4 / 16 * 2 ^ 32) by (change (2 ^ 32) with (16 * 2 ^ 28); ring).
  rewrite Z.mod_add by lia. pose proof (Z.mod_pos_bound (digit b4) 16 ltac:(lia)).
  rewrite Z.mod_small by lia. subst low. lia.
Qed.

(** A length that wraps leaves the scan on a byte of the prefix. *)
Lemma wrapped_prefix data val h : header_loop 5 data 0 0 0 = Some (val, h) -> 2 ^ 32 <= Z.of_nat h + val ->
  h = 5%nat /\ (5 <= length data)%nat /\ exists k, u32 (Z.of_nat h + val) = Z.of_nat k /\ (k < 5)%nat /\ (k = 0%nat \/ bad_head (drop k data)).
Proof.
  intros [[Hh Hv]|(-> & b0 & b1 & b2 & b3 & b4 & rest & -> & Hval)]%header_loop_cases Hw; [lia|].
  pose proof (digit_range b0). pose proof (digit_range b1). pose proof (digit_range b2). pose proof (digit_range b3).
  pose proof (Z.mod_pos_bound (digit b4) 16 ltac:(lia)).
  assert (digit b1 = 127 /\ digit b2 = 127 /\ digit b3 = 127 /\ digit b4 mod 16 = 15) as (E1 & E2 & E3 & E4) by lia.
  split; [done|]. split; [simpl; lia|]. exists (Z.to_nat (digit b0 - 123)).
  assert (u32 (Z.of_nat 5 + val) = digit b0 - 123) as ->.
  { unfold u32. symmetry. apply (Z.mod_unique _ _ 1); lia. }
  split; [lia|]. split; [lia|].
  assert (digit b4 mod 8 = 7) as E4'.
  { rewrite <- (Z.mod_mod_divide (digit b4) 16 8), E4 by (by exists 2). done. }
  assert (forall b, digit b = 127 -> Z.land (byte_val b) 7 = 7) as H127 by (intros b E; by rewrite digit_mod8, E).
  rewrite <- digit_mod8 in E4'. assert (123 <= digit b0) by lia.
  assert (digit b0 = 123 \/ digit b0 = 124 \/ digit b0 = 125 \/ digit b0 = 126 \/ digit b0 = 127) as Hc by lia.
  destruct Hc as [->|[->|[->|[->| ->]]]]; [by left|right; eexists _, _; split; [reflexivity|auto]..].
Qed.

(* ------------------------------------------------------------------ *)
(** ** What a successful scan of a payload says *)

Lemma varint_loop_prefix n : forall data i k, varint_loop n data i = Some k ->
  (i < k)%nat /\ (k - i <= length data)%nat /\
  forall rest, varint_loop n (take (k - i) data ++ rest) i = Some k.
Proof.
  induction n as [|n IH]; intros [|b data] i k; cbn [varint_loop]; [done..|].
  destruct (continues b) eqn:Eb.
  - intros (H1 & H2 & H3)%IH. split; [lia|]. split; [cbn [length]; lia|]. intros rest.
    replace (k - i)%nat with (S (k - S i)) by lia. cbn [firstn app varint_loop]. by rewrite Eb.
  - intros [= <-]. replace (S i - i)%nat with 1%nat by lia. split; [lia|]. split; [cbn [length]; lia|].
    intros rest. cbn [firstn app varint_loop]. by rewrite Eb.
Qed.

Lemma header_loop_prefix n : forall data v s i val h, header_loop n data v s i = Some (val, h) ->
  (i < h)%nat /\ (h - i <= length data)%nat /\
  forall t rest, (h - i <= t)%nat -> header_loop n (take t data ++ rest) v s i = Some (val, h).
Proof.
  induction n as [|n IH]; intros [|b data] v s i val h; cbn [header_loop]; [done..|].
  destruct (continues b) eqn:Eb.
  - intros (H1 & H2 & H3)%IH. split; [lia|]. split; [cbn [length]; lia|]. intros [|t] rest Ht; [lia|].
    cbn [firstn app header_loop]. rewrite Eb. apply H3. lia.
  - intros [= <- <-]. split; [lia|]. split; [cbn [length]; lia|].
    intros [|t] rest Ht; [lia|]. cbn [firstn app header_loop]. by rewrite Eb.
Qed.

Lemma header_val_range n : forall data v s i val h, is_u32 v -> header_loop n data v s i = Some (val, h) -> is_u32 val.
Proof.
  induction n as [|n IH]; intros [|b data] v s i val h Hv; cbn [header_loop]; [done..|].
  destruct (continues b); [apply IH, u32_range|]. intros [= <- _]. apply u32_range.
Qed.

(** The payload is complete, and is what the scan finds whatever follows it; or
    the length wrapped. *)
Definition payload_scanned (wt : Z) (data : bytes) (len pref : nat) : Prop :=
  (1 <= len <= length data)%nat /\
  ((forall rest, scan_payload wt (take len data ++ rest) = Ok (len, pref)) \/ bad_head (drop len data)).

Lemma scan_prefixed_cases data len pref : scan_length_prefixed_data data = (len, pref) -> len <> 0 ->
  (1 <= Z.to_nat len <= length data)%nat /\
  ((forall rest, scan_length_prefixed_data (take (Z.to_nat len) data ++ rest) = (len, pref)) \/
   bad_head (drop (Z.to_nat len) data)).
Proof.
  unfold scan_length_prefixed_data at 1. destruct (header_loop 5 data 0 0 0) as [[val h]|] eqn:E; [|by intros [= <- <-]].
  destruct (header_loop_prefix _ _ _ _ _ _ _ E) as (Hh1 & Hh2 & Hh3). rewrite Nat.sub_0_r in *.
  destruct (header_val_range _ _ _ _ _ _ _ (u32_range 0) E) as [Hv0 Hv1].
  destruct (Z.lt_ge_cases (Z.of_nat h + val) (2 ^ 32)) as [Hlt|Hge].
  - rewrite u32_id by (split; lia). destruct (Z.ltb_spec (Z.of_nat (length data)) (Z.of_nat h + val)) as [Hlong|Hle];
      intros [= <- <-] Hn; [lia|]. split; [lia|]. left. intros rest. unfold scan_length_prefixed_data.
    rewrite Hh3 by lia. rewrite u32_id by (split; lia). rewrite length_app, length_take.
    by rewrite (proj2 (Z.ltb_ge _ _)) by lia.
  - destruct (wrapped_prefix _ _ _ E Hge) as (-> & Hlen & k & -> & Hk & Hbad).
    rewrite (proj2 (Z.ltb_ge _ _)) by lia. intros [= <- <-] Hn. rewrite Nat2Z.id.
    split; [lia|]. right. destruct Hbad; [lia|done].
Qed.

Lemma scan_payload_safe wt data : safely (fun p => payload_scanned wt data p.1 p.2) (scan_payload wt data).
Proof.
  destruct (scan_payload wt data) as [[len pref]|e|] eqn:E; [|done|].
  all: unfold scan_payload in E.
  - assert (forall n : nat, (n <= length data)%nat -> forall rest, (length (take n data ++ rest) <? n)%nat = false) as Hlen.
    { intros n Hn rest. rewrite length_app, length_take. apply Nat.ltb_ge. lia. }
    cbn [safely fst snd]. unfold payload_scanned, scan_payload.
    destruct (wt =? WIRE_TYPE_VARINT).
    { unfold scan_varint in E. destruct (varint_loop 10 data 0) as [k|] eqn:Ev; [|done]. injection E as <- <-.
      destruct (varint_loop_prefix _ _ _ _ Ev) as (H1 & H2 & H3). rewrite Nat.sub_0_r in *.
      split; [lia|]. left. intros rest. unfold scan_varint. by rewrite H3. }
    destruct (wt =? WIRE_TYPE_64BIT).
    { destruct (Nat.ltb_spec (length data) 8); [done|]. injection E as <- <-. split; [lia|]. left. intros rest. by rewrite Hlen. }
    destruct (wt =? WIRE_TYPE_LENGTH_PREFIXED).
    { destruct (scan_length_prefixed_data data) as [l p] eqn:Es. destruct (Z.eqb_spec l 0) as [|Hl]; [done|].
      injection E as <- <-. destruct (scan_prefixed_cases _ _ _ Es Hl) as [H1 H2]. split; [done|].
      destruct H2 as [H2|H2]; [left|by right]. intros rest. rewrite H2. by rewrite (proj2 (Z.eqb_neq _ _)). }
    destruct (wt =? WIRE_TYPE_32BIT); [|done].
    destruct (Nat.ltb_spec (length data) 4); [done|]. injection E as <- <-. split; [lia|]. left. intros rest. by rewrite Hlen.
  - exfalso. repeat case_match; done.
Qed.

(* ------------------------------------------------------------------ *)
(** ** The scan *)

Lemma tag_loop_prefix n : forall data tag shift rv used t, is_u32 tag -> tag_loop n data tag shift rv = Some (used, t) ->
  is_u32 t /\ (rv < used <= rv + length data)%nat.
Proof.
  induction n as [|n IH]; intros [|b data] tag shift rv used t Ht; cbn [tag_loop]; [done..|].
  destruct (continues b).
  - intros [H1 H2]%IH; [|apply u32_range]. cbn [length]. split; [done|lia].
  - intros [= <- <-]. split; [apply u32_range|]. cbn [length]. lia.
Qed.

Lemma parse_tag_safe data : data <> [] -> safely (fun o => forall used tag wt, o = Some (used, tag, wt) ->
  is_u32 tag /\ 0 <= wt < 8 /\ (1 <= used <= length data)%nat /\ (bad_head data -> wt = 7)) (parse_tag_and_wiretype data).
Proof.
  destruct data as [|b data]; [done|]. intros _. unfold parse_tag_and_wiretype. cbn [head deref rbind tail].
  pose proof (byte_val_range b) as Hb. rewrite land_127.
  assert (is_u32 (Z.shiftr (byte_val b mod 128) 3)) as Ht.
  { rewrite shiftr_div by lia. pose proof (Z.mod_pos_bound (byte_val b) 128 ltac:(lia)).
    split; [apply Z.div_pos; lia|]. apply Z.div_lt_upper_bound; lia. }
  assert (0 <= Z.land (byte_val b) 7 < 8 /\ (bad_head (b :: data) -> Z.land (byte_val b) 7 = 7)) as [Hw Hbad].
  { split; [rewrite land_7; apply Z.mod_pos_bound; lia|]. by intros (c & l & [= -> ->] & H). }
  destruct (continues b); cbn [safely]; [|intros used tag wt [= <- <- <-]; cbn [length]; split_and!; (done || lia)].
  destruct (tag_loop 4 data _ 4 1) as [[u t]|] eqn:E; intros used tag wt [= <- <- <-].
  apply tag_loop_prefix in E as [H1 H2]; [|done]. cbn [length]. split_and!; (done || lia).
Qed.

Section scan_safe.
Context (fs : list field_descriptor) (rs : list ProtobufCIntRange)
  (Hwf : descriptor_wf (mk_descriptor fs rs) = true).

Lemma lookup_field_safe last tag : (last < length fs)%nat -> is_u32 tag ->
  safely (fun p => (p.2 < length fs)%nat /\
      match p.1 with
      | Some i => exists f, fs !! i = Some f /\ f_id f = tag
      | None => tag ∉ map f_id fs
      end) (lookup_field fs rs last tag).
Proof using Hwf.
  intros [lf Hlf]%lookup_lt_is_Some Htag. unfold lookup_field. rewrite Hlf. cbn [deref rbind].
  pose proof (lookup_lt_Some _ _ _ Hlf) as Hlast.
  destruct (Z.eqb_spec (f_id lf) tag) as [E|_]; [split; [done|by exists lf]|].
  destruct (decide (tag ∈ map f_id fs)) as [Hin|Hn].
  - apply list_elem_of_fmap in Hin as (f & -> & Hf). apply list_elem_of_lookup in Hf as [i Hi].
    rewrite (lookup_known fs rs i f Hwf Hi). cbn [rbind]. rewrite (proj2 (Z.ltb_ge _ _)) by lia.
    rewrite Nat2Z.id. split; [by eapply lookup_lt_Some|]. by exists f.
  - by rewrite (lookup_unknown fs rs tag Hwf Htag Hn).
Qed.

(** A member comes from an item, or the rest of the input cannot be scanned. *)
Definition member_scanned (at_ : bytes) (p : ScannedMember * bytes * nat) : Prop :=
  let '(sm, rest, last) := p in
  (last < length fs)%nat /\ (length rest < length at_)%nat /\ ~ bad_head at_ /\
  ((exists it, item_ok fs it /\ scan_of it sm) \/ bad_head rest).

Lemma scan_member_safe last at_ : at_ <> [] -> (last < length fs)%nat ->
  safely (member_scanned at_) (scan_member fs rs last at_).
Proof using Hwf.
  intros Hne Hlast. unfold scan_member. eapply safely_bind; [by apply parse_tag_safe|].
  intros [[[used tag] wt]|] Ht; [|done]. destruct (Ht used tag wt eq_refl) as (Htag & Hwt & Hused & Hbad).
  eapply safely_bind; [by apply lookup_field_safe|]. intros [o last'] [Hlast' Ho]. cbn [fst snd] in *.
  eapply (safely_bind (fun _ => True)).
  { destruct o as [i|]; [|done]. by destruct Ho as (f & -> & _). }
  intros _ _. destruct (Z.eq_dec wt 7) as [->|H7]; [done|].
  eapply safely_bind; [apply scan_payload_safe|]. intros [len pref] [Hlen Hp]. cbn [fst snd safely member_scanned] in *.
  split; [done|]. split; [rewrite !length_drop in *; lia|]. split.
  - by intros Hb%Hbad.
  - destruct Hp as [Hp|Hp]; [left|by right]. set (at' := drop used at_) in *.
    exists (mk_item tag wt pref o (take len at')). assert (length (take len at') = len) as Hl by (rewrite length_take; lia).
    split.
    + unfold item_ok. cbn [it_tag it_wire_type it_payload it_pref it_field]. rewrite Hl. done.
    + exists (drop len at'). unfold scanned_item. cbn [it_tag it_wire_type it_payload it_pref it_field].
      by rewrite Hl, take_drop.
Qed.

Lemma scan_loop_safe fuel : forall last w i at_, (last < length fs)%nat -> slab_ok w i -> (length at_ <= fuel)%nat ->
  safely (fun sms => ~ bad_head at_ /\ exists its, Forall (item_ok fs) its /\ Forall2 scan_of its sms)
    (scan_loop fs rs fuel last w i at_).
Proof using Hwf.
  induction fuel as [|fuel IH]; intros last w i [|b at_] Hlast Hs Hf; cbn [length] in Hf; [|lia| |];
    cbn [scan_loop]; try (split; [by intros (c & l & H & _)|by exists []]).
  eapply safely_bind; [by apply scan_member_safe|]. intros [[sm rest] last'] (Hlast' & Hrest & Hb & Hit).
  cbn [length] in Hrest.
  destruct (next_place_spec w i Hs) as [(w' & i' & -> & Hs' & _)|[-> _]]; [|done]. cbn [rbind].
  eapply safely_rmap; [apply IH; [done|done|lia]|]. intros sms (Hb' & its & H1 & H2). split; [done|].
  destruct Hit as [(it & Hit & Hsm)|]; [|done]. exists (it :: its). by split; constructor.
Qed.

End scan_safe.

(* ------------------------------------------------------------------ *)
(** ** Parsing a member *)

Lemma byte_in_ok data i : (i < length data)%nat -> exists b, byte_in data i = Ok b /\ 0 <= b < 256.
Proof.
  intros [b Hb]%lookup_lt_is_Some. exists (byte_val b). unfold byte_in. rewrite Hb. split; [done|]. apply byte_val_range.
Qed.

Lemma lor_digit acc d k : 0 <= k -> 0 <= acc < 2 ^ k -> 0 <= Z.lor acc (Z.shiftl (Z.land d 127) k) < 2 ^ (k + 7).
Proof.
  intros Hk Ha. rewrite lor_shiftl, land_127, Z.pow_add_r by lia. pose proof (Z.mod_pos_bound d 128 ltac:(lia)).
  pose proof (Z.pow_pos_nonneg 2 k). change (2 ^ 7) with 128. nia.
Qed.

Lemma parse_uint32_safe len data : 1 <= len <= Z.of_nat (length data) -> safely is_u32 (parse_uint32 len data).
Proof.
  intros Hlen. unfold parse_uint32, is_u32.
  destruct (byte_in_ok data 0) as (b0 & -> & _); [lia|]. cbn [rbind].
  assert (0 <= Z.land b0 127 < 2 ^ 7) as R0 by (rewrite land_127; apply Z.mod_pos_bound; lia).
  destruct (Z.ltb_spec 1 len); [|cbn; lia]. destruct (byte_in_ok data 1) as (b1 & -> & _); [lia|]. cbn [rbind].
  pose proof (lor_digit _ b1 7 ltac:(lia) R0) as R1. change (7 + 7) with 14 in R1.
  destruct (Z.ltb_spec 2 len); [|cbn [safely]; lia]. destruct (byte_in_ok data 2) as (b2 & -> & _); [lia|]. cbn [rbind].
  pose proof (lor_digit _ b2 14 ltac:(lia) R1) as R2. change (14 + 7) with 21 in R2.
  destruct (Z.ltb_spec 3 len); [|cbn [safely]; lia]. destruct (byte_in_ok data 3) as (b3 & -> & _); [lia|]. cbn [rbind].
  pose proof (lor_digit _ b3 21 ltac:(lia) R2) as R3. change (21 + 7) with 28 in R3.
  destruct (Z.ltb_spec 4 len); [|cbn [safely]; lia]. destruct (byte_in_ok data 4) as (b4 & -> & _); [lia|]. cbn [rbind safely].
  assert (u32 (Z.shiftl b4 28) = Z.shiftl (b4 mod 16) 28) as ->.
  { unfold u32. rewrite !Z.shiftl_mul_pow2 by lia. change (2 ^ 32) with (16 * 2 ^ 28). by rewrite Z.mul_mod_distr_r by lia. }
  rewrite lor_shiftl by lia. pose proof (Z.mod_pos_bound b4 16 ltac:(lia)). lia.
Qed.

Lemma region_ok off n (data : bytes) : 0 <= off -> 0 <= n -> off + n <= Z.of_nat (length data) ->
  safely (fun b => Z.of_nat (length b) = n) (region off n data).
Proof.
  intros Ho Hn Hl. unfold region. rewrite (proj2 (Z.ltb_ge _ _)) by lia. cbn [safely].
  rewrite length_slice by lia. lia.
Qed.

Lemma parse_boolean_safe len : forall data, (len <= length data)%nat -> safely (fun v => v = 0 \/ v = 1) (parse_boolean len data).
Proof.
  induction len as [|len IH]; intros data Hl; cbn [parse_boolean]; [by left|].
  destruct data as [|b data]; cbn [length] in Hl; [lia|]. destruct (Z.land (byte_val b) 127 =? 0); [apply IH; lia|by right].
Qed.

Lemma varint_loop_bound n : forall data i k, varint_loop n data i = Some k -> (k <= i + n)%nat.
Proof.
  induction n as [|n IH]; intros [|b data] i k; cbn [varint_loop]; [done..|].
  destruct (continues b); [|intros [= <-]; lia]. intros H%IH. lia.
Qed.

(** The payload of an item, and where its prefix ends. *)
Lemma item_lengths fs it : item_ok fs it ->
  (1 <= length (it_payload it))%nat /\ Z.of_nat (length (it_payload it)) < 2 ^ 32 /\
  (it_wire_type it = WIRE_TYPE_64BIT -> length (it_payload it) = 8%nat) /\
  (it_pref it <= length (it_payload it))%nat.
Proof.
  intros (_ & _ & Hp & _). specialize (Hp []). rewrite app_nil_r in Hp.
  pose proof (scan_payload_safe (it_wire_type it) (it_payload it)) as Hs. rewrite Hp in Hs. destruct Hs as [Hlen _].
  split; [simpl in Hlen; lia|]. clear Hlen. unfold scan_payload in Hp.
  destruct (Z.eqb_spec (it_wire_type it) WIRE_TYPE_VARINT) as [->|_].
  { destruct (scan_varint (it_payload it)) as [k|] eqn:E; [|done]. injection Hp as Hk <-.
    apply varint_loop_bound in E. split_and!; [lia|done|lia]. }
  destruct (Z.eqb_spec (it_wire_type it) WIRE_TYPE_64BIT) as [_|Hn].
  { destruct (length (it_payload it) <? 8)%nat; [done|]. injection Hp as <- <-. split_and!; [lia|done|lia]. }
  destruct (Z.eqb_spec (it_wire_type it) WIRE_TYPE_LENGTH_PREFIXED) as [_|_].
  - destruct (scan_length_prefixed_data (it_payload it)) as [l p] eqn:E.
    destruct (Z.eqb_spec l 0) as [|Hl]; [done|]. injection Hp as Hk <-. unfold scan_length_prefixed_data in E.
    destruct (header_loop 5 (it_payload it) 0 0 0) as [[val h]|] eqn:Eh; [|by injection E as <- _].
    destruct (header_loop_prefix _ _ _ _ _ _ _ Eh) as (_ & Hh & _). rewrite Nat.sub_0_r in Hh.
    pose proof (u32_range (Z.of_nat h + val)) as [Hu0 Hu1].
    destruct (Z.of_nat (length (it_payload it)) <? u32 (Z.of_nat h + val)); injection E as <- <-; [done|].
    split_and!; [lia|done|lia].
  - destruct (it_wire_type it =? WIRE_TYPE_32BIT); [|done]. destruct (length (it_payload it) <? 4)%nat; [done|].
    injection Hp as <- <-. split_and!; [lia|done|lia].
Qed.

Lemma prefixed_payload_safe fs it sm : item_ok fs it -> scan_of it sm -> safely (fun _ => True) (prefixed_payload sm).
Proof.
  intros (H1 & H2 & _ & H3)%item_lengths [rest ->]. unfold prefixed_payload, scanned_item.
  cbn [sm_length_prefix_len sm_len sm_data]. rewrite (u32_id (Z.of_nat _)), u32_id by (split; lia).
  eapply safely_impl; [apply region_ok; rewrite ?length_app; lia|done].
Qed.

(** The elements of a repeated member. *)
Definition rep_len (x : member) : nat := match x with Repeated l => length l | _ => 0%nat end.

Section parse_safe.
Context (unpack : bytes -> result ProtobufCMessage)
  (merge : ProtobufCMessage -> ProtobufCMessage -> ProtobufCMessage) (ok : ProtobufCMessage -> Prop).
Context (f : field_descriptor) (Hunpack : f_type f = TYPE_MESSAGE -> forall b, safely ok (unpack b)) (Hmerge : forall e l, ok e -> ok l -> ok (merge e l)).

Lemma parse_message_safe fs it sm x c : item_ok fs it -> scan_of it sm -> f_type f = TYPE_MESSAGE ->
  match x with Some m => ok m | None => True end ->
  safely (fun y => exists m, y = Submessage (Some m) /\ ok m)
    (parse_required_member unpack merge f sm (Submessage x) c).
Proof using Hunpack Hmerge.
  intros Hit Hsm Et Hx. unfold parse_required_member. rewrite Et.
  destruct (sm_wire_type sm =? WIRE_TYPE_LENGTH_PREFIXED); [|done].
  eapply safely_bind; [by eapply prefixed_payload_safe|]. intros b _.
  eapply safely_bind; [by apply Hunpack|]. intros m Hm. eexists. split; [done|].
  destruct x as [e|], c; auto.
Qed.

(** A stored value, with its [has_] flag. *)
Lemma safely_set {A} (P : A -> Prop) (mk : A -> member) (Q : member -> Prop) (r : result A) :
  safely P r -> (forall a, P a -> Q (set_has (mk a))) -> safely Q (let? y := rmap mk r in Ok (set_has y)).
Proof using Type. destruct r; simpl; auto. Qed.

Lemma parse_optional_safe fs it sm x : item_ok fs it -> scan_of it sm -> f_label f = LABEL_OPTIONAL ->
  member_ok ok f x -> safely (member_ok ok f) (parse_optional_member unpack merge f sm x).
Proof using Hunpack Hmerge.
  intros Hit Hsm El Hx. pose proof (parse_message_safe fs it sm) as Hmsg. destruct (item_lengths fs it Hit) as (H1 & H2 & H8 & _).
  assert (sm_wire_type sm = it_wire_type it /\ u32 (Z.of_nat (sm_len sm)) = Z.of_nat (length (it_payload it)) /\
    (length (it_payload it) <= length (sm_data sm))%nat) as (Hwt & Hlen & Hdata).
  { destruct Hsm as [rest ->]. cbn [scanned_item sm_len sm_wire_type sm_data]. rewrite length_app.
    split_and!; [done|apply u32_id; split; lia|lia]. }
  unfold parse_optional_member, member_ok in *. rewrite El in *.
  destruct (f_type f) eqn:Et, x as [has v|has b|o|l]; try done.
  6:{ eapply safely_bind; [by apply (Hmsg o true Hit Hsm)|]. by intros y (m & -> & Hm). }
  all: unfold parse_required_member; rewrite Et; try (case_match; [|done]).
  - eapply safely_set; [apply parse_uint32_safe; lia|]. intros n Hn. cbn [set_has]. unfold i32.
    pose proof (Z.mod_pos_bound (n + 2 ^ 31) (2 ^ 32) ltac:(lia)). split; [lia|done].
  - eapply safely_set; [apply parse_uint32_safe; lia|]. done.
  - eapply (safely_set (fun n => 0 <= n < 2 ^ 64)); [|intros n Hn; split; [exact Hn|done]].
    eapply safely_rmap; [apply region_ok; rewrite ?H8 in Hdata by (rewrite <- Hwt; by apply Z.eqb_eq); lia|].
    intros b Hb. pose proof (le_val_range b) as Hr. rewrite Hb in Hr. exact Hr.
  - eapply safely_set; [apply parse_boolean_safe; lia|]. done.
  - eapply safely_set; [by eapply prefixed_payload_safe|]. done.
Qed.

Lemma parse_known_safe fs it sm cap x : item_ok fs it -> scan_of it sm -> member_ok ok f x ->
  (f_label f = LABEL_REPEATED -> (rep_len x < cap)%nat) ->
  safely (fun y => member_ok ok f y /\ (rep_len y <= S (rep_len x))%nat) (parse_known_member unpack merge f cap sm x).
Proof using Hunpack Hmerge.
  intros Hit Hsm Hx Hcap. pose proof (parse_message_safe fs it sm) as Hmsg.
  unfold parse_known_member. destruct (f_label f) eqn:El.
  - eapply safely_impl; [by eapply parse_optional_safe|]. intros y Hy. split; [done|].
    unfold member_ok in Hy. rewrite El in Hy. destruct y; simpl; [lia..|]. by destruct (f_type f).
  - unfold member_ok in *. rewrite El in *. destruct (f_type f) eqn:Et, x as [has v|has b|o|l]; try done.
    cbn [parse_repeated_member]. specialize (Hcap eq_refl). cbn [rep_len] in Hcap.
    rewrite (proj2 (Nat.ltb_lt _ _)) by done.
    eapply safely_bind; [by apply (Hmsg None false Hit Hsm)|]. intros y (m & -> & Hm).
    split; [apply Forall_app; by repeat constructor|]. cbn [rep_len]. rewrite length_app. simpl. lia.
Qed.

Lemma merge_member_ok e l : member_ok ok f e -> member_ok ok f l -> member_ok ok f (merge_member merge e l).
Proof using Hmerge.
  clear Hunpack unpack. unfold member_ok. destruct (f_label f), (f_type f), e as [[] ev|eh eb|[em|]|el], l as [[] lv|lh lb|[lm|]|ll];
    try done; cbn [merge_member]; intros He Hl; auto.
  - destruct lb; [|done]. by destruct eb.
  - by apply Forall_app.
Qed.

End parse_safe.

(* ------------------------------------------------------------------ *)
(** ** Messages *)

Lemma merge_messages_ok d : forall e l, message_ok d e -> message_ok d l -> message_ok d (merge_messages d e l).
Proof.
  induction d as [fs rs IH] using descriptor_induction. intros [es eus] [ls lus] [He _]%message_ok_inv [Hl Hus]%message_ok_inv.
  cbn [merge_messages]. apply message_ok_inv. split; [|done]. clear Hus.
  assert (forall f, f ∈ fs -> forall e l, sub_ok f e -> sub_ok f l -> sub_ok f (sub_merge f e l)) as Hsub.
  { intros f Hf e l. unfold sub_ok, sub_merge, on_sub. destruct (f_descriptor f) as [d|] eqn:E; [|done].
    by apply (IH f d). }
  clear IH rs. revert ls Hl. induction He as [|f e fs es He _ IH]; intros ls Hl.
  - by apply Forall2_nil_inv_l in Hl as ->.
  - apply Forall2_cons_inv_l in Hl as (l & ls' & Hl & Hls & ->). constructor.
    + apply (merge_member_ok (sub_merge f)); [apply Hsub; set_solver|done|done].
    + apply IH; [intros g Hg; apply Hsub; set_solver|done].
Qed.

Section unpack_safe.
Context (fs : list field_descriptor) (scanned : list ScannedMember)
  (Hun : forall f, f ∈ fs -> f_type f = TYPE_MESSAGE -> forall b, safely (sub_ok f) (sub_unpack f b)).

(** The places that the members still to be parsed need. *)
Definition room (xs : list member) (us : list ProtobufCMessageUnknownField) (sms : list ScannedMember) : Prop :=
  (forall i x, xs !! i = Some x -> (rep_len x + n_members (Some i) sms <= n_members (Some i) scanned)%nat) /\
  (length us + n_members None sms <= n_members None scanned)%nat.

Lemma n_members_cons o sm sms :
  n_members o (sm :: sms) = ((if bool_decide (sm_field sm = o) then 1 else 0) + n_members o sms)%nat.
Proof using Type. unfold n_members, is_field. cbn [List.filter]. by destruct (bool_decide (sm_field sm = o)). Qed.

Lemma unknown_item_ok it : item_ok fs it -> it_field it = None ->
  unknown_ok fs (mk_unknown (it_tag it) (it_wire_type it) (it_payload it)).
Proof using Type.
  intros (Ht & Hw & Hp & Hf) E. rewrite E in Hf. unfold unknown_ok. cbn. do 3 (split; [done|]).
  by exists (it_pref it).
Qed.

Lemma parse_member_safe it sm xs us sms : item_ok fs it -> scan_of it sm ->
  Forall2 (fun f x => member_ok (sub_ok f) f x) fs xs -> Forall (unknown_ok fs) us -> room xs us (sm :: sms) ->
  safely (fun m => let 'mk_message xs' us' := m in
            Forall2 (fun f x => member_ok (sub_ok f) f x) fs xs' /\ Forall (unknown_ok fs) us' /\ room xs' us' sms)
    (parse_member fs (map sub_unpack fs) (map sub_merge fs) scanned sm (mk_message xs us)).
Proof using Hun.
  intros Hit Hsm Hxs Hus [Hr1 Hr2]. unfold parse_member.
  assert (sm_field sm = it_field it) as Hfield by (by destruct Hsm as [rest ->]).
  rewrite n_members_cons in Hr2. destruct (sm_field sm) as [i|] eqn:Ei; symmetry in Hfield.
  - destruct Hit as (Ht & Hw & Hp & Hf) eqn:EHit. clear EHit. rewrite Hfield in Hf. destruct Hf as (f & Hf & _).
    destruct (Forall2_lookup_l _ _ _ i f Hxs Hf) as (x & Hx & Hxok).
    rewrite Hf, Hx, !list_lookup_fmap, Hf. cbn [fmap option_fmap option_map deref rbind].
    pose proof (list_elem_of_lookup_2 _ _ _ Hf) as Hin.
    pose proof (Hr1 i x Hx) as Hri. rewrite n_members_cons, Ei, bool_decide_eq_true_2 in Hri by done.
    eapply safely_bind.
    { apply (parse_known_safe (sub_unpack f) (sub_merge f) (sub_ok f) f (Hun f Hin)) with (fs := fs) (it := it); try done.
      - intros e l. unfold sub_ok, sub_merge, on_sub. destruct (f_descriptor f); [apply merge_messages_ok|done].
      - intros _. lia. }
    intros y [Hy Hlen]. cbn [safely]. split; [|split; [done|split]].
    + rewrite <- (list_insert_id fs i f Hf). by apply Forall2_insert.
    + intros j z Hz. destruct (decide (i = j)) as [<-|Hij].
      * rewrite list_lookup_insert_eq in Hz by (by eapply lookup_lt_Some). injection Hz as <-. lia.
      * rewrite list_lookup_insert_ne in Hz by done. pose proof (Hr1 j z Hz) as Hrj.
        rewrite n_members_cons, Ei, bool_decide_eq_false_2 in Hrj by congruence. lia.
    + rewrite bool_decide_eq_false_2 in Hr2 by done. lia.
  - rewrite bool_decide_eq_true_2 in Hr2 by done. rewrite (proj2 (Nat.ltb_lt _ _)) by lia.
    destruct Hsm as [rest ->]. cbn [scanned_item sm_len sm_data sm_tag sm_wire_type]. unfold region.
    rewrite length_app, (proj2 (Z.ltb_ge _ _)) by lia. cbn [rbind safely]. unfold slice.
    rewrite Nat2Z.id, drop_0, take_app_length. split; [done|]. split; [|split].
    + apply Forall_app. split; [done|]. constructor; [|done]. by apply unknown_item_ok.
    + intros i x Hx. pose proof (Hr1 i x Hx) as H. rewrite n_members_cons in H. lia.
    + rewrite length_app. simpl. lia.
Qed.

Lemma parse_members_safe its sms : Forall (item_ok fs) its -> Forall2 scan_of its sms -> forall xs us,
  Forall2 (fun f x => member_ok (sub_ok f) f x) fs xs -> Forall (unknown_ok fs) us -> room xs us sms ->
  safely (fun m => let 'mk_message xs' us' := m in
            Forall2 (fun f x => member_ok (sub_ok f) f x) fs xs' /\ Forall (unknown_ok fs) us')
    (parse_members fs (map sub_unpack fs) (map sub_merge fs) scanned sms (mk_message xs us)).
Proof using Hun.
  intros Hits Hs. revert Hits. induction Hs as [|it sm its sms Hsm _ IH]; intros Hits xs us Hxs Hus Hroom; [done|].
  apply Forall_cons in Hits as [Hit Hits]. cbn [parse_members].
  eapply safely_bind; [by apply (parse_member_safe it)|]. intros [xs' us'] (H1 & H2 & H3). by apply IH.
Qed.

End unpack_safe.

Lemma init_members_ok fs rs : descriptor_wf (mk_descriptor fs rs) = true ->
  Forall2 (fun f x => member_ok (sub_ok f) f x) fs (map init_member fs).
Proof.
  intros (_ & _ & _ & H)%descriptor_wf_inv. induction fs as [|f fs IH]; constructor; [|apply IH; intros g Hg; apply H; set_solver].
  specialize (H f ltac:(set_solver)). unfold field_wf in H. unfold member_ok, init_member, is_u32.
  by destruct (f_label f), (f_type f), (f_descriptor f); auto with lia.
Qed.

(** Whatever the input, unpacking ends without an access outside its buffers,
    and a message it answers has the descriptor's type. *)
Lemma unpack_safe d : forall data, descriptor_wf d = true -> safely (message_ok d) (protobuf_c_message_unpack d data).
Proof.
  induction d as [fs rs IH] using descriptor_induction. intros data Hw. rewrite unpack_unfold.
  destruct (descriptor_wf_inv fs rs Hw) as (_ & _ & Hpos & Hfields).
  eapply safely_bind; [apply (scan_loop_safe fs rs Hw); [done|done|done]|]. intros sms (_ & its & Hits & Hs).
  eapply safely_impl; [apply (parse_members_safe fs sms) with (its := its)|].
  - intros f Hf Et b. unfold sub_ok, sub_unpack, on_sub. destruct (f_descriptor f) as [d|] eqn:E.
    + apply (IH f d Hf E). by destruct (sub_descriptor_wf fs rs f d Hw Hf E).
    + specialize (Hfields f Hf). unfold field_wf in Hfields. by rewrite E, Et in Hfields.
  - done.
  - done.
  - by apply (init_members_ok fs rs).
  - done.
  - split; [|done]. intros i x Hx. rewrite list_lookup_fmap in Hx.
    destruct (fs !! i) as [f|]; [|done]. injection Hx as <-. unfold init_member. by destruct (f_label f), (f_type f).
  - intros [xs us] Hm. by apply message_ok_inv.
Qed.
