(* ===== verification/ProtobufTables.v ===== *)
(** The generated tables of [LocalStorageProtocol.pb-c.c],
    [WhisperTextProtocol.pb-c.c] and [FingerprintProtocol.pb-c.c], and the
    generated structs as messages of the protobuf-c runtime.

    A struct of the code has a member per field: a number or a
    [ProtobufCBinaryData] with its [has_] flag, a pointer, or a pointer with its
    [n_] count; absent members hold the zeros of the [init] functions. *)

From S2P Require Import Prelude LocalStorage Protobuf.

Definition m_scalar (o : option Z) : member :=
  match o with Some v => Scalar true v | None => Scalar false 0 end.
Definition m_bytes (o : option bytes) : member :=
  match o with Some b => Binary true b | None => Binary false [] end.
Definition m_message {A} (f : A -> ProtobufCMessage) (o : option A) : member := Submessage (f <$> o).
Definition m_messages {A} (f : A -> ProtobufCMessage) (l : list A) : member := Repeated (f <$> l).

(** The descriptor of a struct type, and the struct as a message. *)
Class Generated (A : Type) := {
  descriptor_of : ProtobufCMessageDescriptor;
  struct_of : A -> ProtobufCMessage }.
Arguments descriptor_of A {_}.

(** The generated [*__get_packed_size], [*__pack] and [*__unpack]. *)
Definition generated_get_packed_size {A} `{Generated A} (x : A) : Z :=
  protobuf_c_message_get_packed_size (descriptor_of A) (struct_of x).
Definition generated_pack {A} `{Generated A} (x : A) : bytes :=
  protobuf_c_message_pack (descriptor_of A) (struct_of x).
Definition generated_unpack (A : Type) `{Generated A} (data : bytes) : result ProtobufCMessage :=
  protobuf_c_message_unpack (descriptor_of A) data.

Definition textsecure__session_structure__chain__chain_key__descriptor : ProtobufCMessageDescriptor :=
  mk_descriptor
    [mk_field 1 LABEL_OPTIONAL TYPE_UINT32 None;
     mk_field 2 LABEL_OPTIONAL TYPE_BYTES None]
    [(1, 0); (0, 2)].
Definition struct_Chain__ChainKey (m : Chain__ChainKey) : ProtobufCMessage :=
  mk_message
    [m_scalar (ChainKey_index m);
     m_bytes (ChainKey_key m)] [].
#[global] Instance Chain__ChainKey_generated : Generated Chain__ChainKey :=
  {| descriptor_of := textsecure__session_structure__chain__chain_key__descriptor; struct_of := struct_Chain__ChainKey |}.

Definition textsecure__session_structure__chain__message_key__descriptor : ProtobufCMessageDescriptor :=
  mk_descriptor
    [mk_field 1 LABEL_OPTIONAL TYPE_UINT32 None;
     mk_field 2 LABEL_OPTIONAL TYPE_BYTES None;
     mk_field 3 LABEL_OPTIONAL TYPE_BYTES None;
     mk_field 4 LABEL_OPTIONAL TYPE_BYTES None]
    [(1, 0); (0, 4)].
Definition struct_Chain__MessageKey (m : Chain__MessageKey) : ProtobufCMessage :=
  mk_message
    [m_scalar (MessageKey_index m);
     m_bytes (MessageKey_cipherkey m);
     m_bytes (MessageKey_mackey m);
     m_bytes (MessageKey_iv m)] [].
#[global] Instance Chain__MessageKey_generated : Generated Chain__MessageKey :=
  {| descriptor_of := textsecure__session_structure__chain__message_key__descriptor; struct_of := struct_Chain__MessageKey |}.

Definition textsecure__session_structure__chain__descriptor : ProtobufCMessageDescriptor :=
  mk_descriptor
    [mk_field 1 LABEL_OPTIONAL TYPE_BYTES None;
     mk_field 2 LABEL_OPTIONAL TYPE_BYTES None;
     mk_field 3 LABEL_OPTIONAL TYPE_MESSAGE (Some textsecure__session_structure__chain__chain_key__descriptor);
     mk_field 4 LABEL_REPEATED TYPE_MESSAGE (Some textsecure__session_structure__chain__message_key__descriptor)]
    [(1, 0); (0, 4)].
Definition struct_SessionStructure__Chain (m : SessionStructure__Chain) : ProtobufCMessage :=
  mk_message
    [m_bytes (Chain_senderratchetkey m);
     m_bytes (Chain_senderratchetkeyprivate m);
     m_message struct_Chain__ChainKey (Chain_chainkey m);
     m_messages struct_Chain__MessageKey (Chain_messagekeys m)] [].
#[global] Instance SessionStructure__Chain_generated : Generated SessionStructure__Chain :=
  {| descriptor_of := textsecure__session_structure__chain__descriptor; struct_of := struct_SessionStructure__Chain |}.

Definition textsecure__session_structure__pending_key_exchange__descriptor : ProtobufCMessageDescriptor :=
  mk_descriptor
    [mk_field 1 LABEL_OPTIONAL TYPE_UINT32 None;
     mk_field 2 LABEL_OPTIONAL TYPE_BYTES None;
     mk_field 3 LABEL_OPTIONAL TYPE_BYTES None;
     mk_field 4 LABEL_OPTIONAL TYPE_BYTES None;
     mk_field 5 LABEL_OPTIONAL TYPE_BYTES None;
     mk_field 7 LABEL_OPTIONAL TYPE_BYTES None;
     mk_field 8 LABEL_OPTIONAL TYPE_BYTES None]
    [(1, 0); (7, 5); (0, 7)].
Definition struct_PendingKeyExchange (m : PendingKeyExchange) : ProtobufCMessage :=
  mk_message
    [m_scalar (pke_sequence m);
     m_bytes (pke_localbasekey m);
     m_bytes (pke_localbasekeyprivate m);
     m_bytes (pke_localratchetkey m);
     m_bytes (pke_localratchetkeyprivate m);
     m_bytes (pke_localidentitykey m);
     m_bytes (pke_localidentitykeyprivate m)] [].
#[global] Instance PendingKeyExchange_generated : Generated PendingKeyExchange :=
  {| descriptor_of := textsecure__session_structure__pending_key_exchange__descriptor; struct_of := struct_PendingKeyExchange |}.

Definition textsecure__session_structure__pending_pre_key__descriptor : ProtobufCMessageDescriptor :=
  mk_descriptor
    [mk_field 1 LABEL_OPTIONAL TYPE_UINT32 None;
     mk_field 2 LABEL_OPTIONAL TYPE_BYTES None;
     mk_field 3 LABEL_OPTIONAL TYPE_INT32 None]
    [(1, 0); (0, 3)].
Definition struct_PendingPreKey (m : PendingPreKey) : ProtobufCMessage :=
  mk_message
    [m_scalar (ppk_prekeyid m);
     m_bytes (ppk_basekey m);
     m_scalar (ppk_signedprekeyid m)] [].
#[global] Instance PendingPreKey_generated : Generated PendingPreKey :=
  {| descriptor_of := textsecure__session_structure__pending_pre_key__descriptor; struct_of := struct_PendingPreKey |}.

Definition textsecure__session_structure__descriptor : ProtobufCMessageDescriptor :=
  mk_descriptor
    [mk_field 1 LABEL_OPTIONAL TYPE_UINT32 None;
     mk_field 2 LABEL_OPTIONAL TYPE_BYTES None;
     mk_field 3 LABEL_OPTIONAL TYPE_BYTES None;
     mk_field 4 LABEL_OPTIONAL TYPE_BYTES None;
     mk_field 5 LABEL_OPTIONAL TYPE_UINT32 None;
     mk_field 6 LABEL_OPTIONAL TYPE_MESSAGE (Some textsecure__session_structure__chain__descriptor);
     mk_field 7 LABEL_REPEATED TYPE_MESSAGE (Some textsecure__session_structure__chain__descriptor);
     mk_field 8 LABEL_OPTIONAL TYPE_MESSAGE (Some textsecure__session_structure__pending_key_exchange__descriptor);
     mk_field 9 LABEL_OPTIONAL TYPE_MESSAGE (Some textsecure__session_structure__pending_pre_key__descriptor);
     mk_field 10 LABEL_OPTIONAL TYPE_UINT32 None;
     mk_field 11 LABEL_OPTIONAL TYPE_UINT32 None;
     mk_field 12 LABEL_OPTIONAL TYPE_BOOL None;
     mk_field 13 LABEL_OPTIONAL TYPE_BYTES None]
    [(1, 0); (0, 13)].
Definition struct_SessionStructure (m : SessionStructure) : ProtobufCMessage :=
  mk_message
    [m_scalar (ss_sessionversion m);
     m_bytes (ss_localidentitypublic m);
     m_bytes (ss_remoteidentitypublic m);
     m_bytes (ss_rootkey m);
     m_scalar (ss_previouscounter m);
     m_message struct_SessionStructure__Chain (ss_senderchain m);
     m_messages struct_SessionStructure__Chain (ss_receiverchains m);
     m_message struct_PendingKeyExchange (ss_pendingkeyexchange m);
     m_message struct_PendingPreKey (ss_pendingprekey m);
     m_scalar (ss_remoteregistrationid m);
     m_scalar (ss_localregistrationid m);
     m_scalar (ss_needsrefresh m);
     m_bytes (ss_alicebasekey m)] [].
#[global] Instance SessionStructure_generated : Generated SessionStructure :=
  {| descriptor_of := textsecure__session_structure__descriptor; struct_of := struct_SessionStructure |}.

Definition textsecure__record_structure__descriptor : ProtobufCMessageDescriptor :=
  mk_descriptor
    [mk_field 1 LABEL_OPTIONAL TYPE_MESSAGE (Some textsecure__session_structure__descriptor);
     mk_field 2 LABEL_REPEATED TYPE_MESSAGE (Some textsecure__session_structure__descriptor)]
    [(1, 0); (0, 2)].
Definition struct_RecordStructure (m : RecordStructure) : ProtobufCMessage :=
  mk_message
    [m_message struct_SessionStructure (rs_currentsession m);
     m_messages struct_SessionStructure (rs_previoussessions m)] [].
#[global] Instance RecordStructure_generated : Generated RecordStructure :=
  {| descriptor_of := textsecure__record_structure__descriptor; struct_of := struct_RecordStructure |}.

Definition textsecure__pre_key_record_structure__descriptor : ProtobufCMessageDescriptor :=
  mk_descriptor
    [mk_field 1 LABEL_OPTIONAL TYPE_UINT32 None;
     mk_field 2 LABEL_OPTIONAL TYPE_BYTES None;
     mk_field 3 LABEL_OPTIONAL TYPE_BYTES None]
    [(1, 0); (0, 3)].
Definition struct_PreKeyRecordStructure (m : PreKeyRecordStructure) : ProtobufCMessage :=
  mk_message
    [m_scalar (pkr_id m);
     m_bytes (pkr_publickey m);
     m_bytes (pkr_privatekey m)] [].
#[global] Instance PreKeyRecordStructure_generated : Generated PreKeyRecordStructure :=
  {| descriptor_of := textsecure__pre_key_record_structure__descriptor; struct_of := struct_PreKeyRecordStructure |}.

Definition textsecure__signed_pre_key_record_structure__descriptor : ProtobufCMessageDescriptor :=
  mk_descriptor
    [mk_field 1 LABEL_OPTIONAL TYPE_UINT32 None;
     mk_field 2 LABEL_OPTIONAL TYPE_BYTES None;
     mk_field 3 LABEL_OPTIONAL TYPE_BYTES None;
     mk_field 4 LABEL_OPTIONAL TYPE_BYTES None;
     mk_field 5 LABEL_OPTIONAL TYPE_FIXED64 None]
    [(1, 0); (0, 5)].
Definition struct_SignedPreKeyRecordStructure (m : SignedPreKeyRecordStructure) : ProtobufCMessage :=
  mk_message
    [m_scalar (spkr_id m);
     m_bytes (spkr_publickey m);
     m_bytes (spkr_privatekey m);
     m_bytes (spkr_signature m);
     m_scalar (spkr_timestamp m)] [].
#[global] Instance SignedPreKeyRecordStructure_generated : Generated SignedPreKeyRecordStructure :=
  {| descriptor_of := textsecure__signed_pre_key_record_structure__descriptor; struct_of := struct_SignedPreKeyRecordStructure |}.

Definition textsecure__identity_key_pair_structure__descriptor : ProtobufCMessageDescriptor :=
  mk_descriptor
    [mk_field 1 LABEL_OPTIONAL TYPE_BYTES None;
     mk_field 2 LABEL_OPTIONAL TYPE_BYTES None]
    [(1, 0); (0, 2)].
Definition struct_IdentityKeyPairStructure (m : IdentityKeyPairStructure) : ProtobufCMessage :=
  mk_message
    [m_bytes (ikps_publickey m);
     m_bytes (ikps_privatekey m)] [].
#[global] Instance IdentityKeyPairStructure_generated : Generated IdentityKeyPairStructure :=
  {| descriptor_of := textsecure__identity_key_pair_structure__descriptor; struct_of := struct_IdentityKeyPairStructure |}.

Definition textsecure__sender_key_state_structure__sender_chain_key__descriptor : ProtobufCMessageDescriptor :=
  mk_descriptor
    [mk_field 1 LABEL_OPTIONAL TYPE_UINT32 None;
     mk_field 2 LABEL_OPTIONAL TYPE_BYTES None]
    [(1, 0); (0, 2)].
Definition struct_SenderKeyStateStructure__SenderChainKey (m : SenderKeyStateStructure__SenderChainKey) : ProtobufCMessage :=
  mk_message
    [m_scalar (SenderChainKey_iteration m);
     m_bytes (SenderChainKey_seed m)] [].
#[global] Instance SenderKeyStateStructure__SenderChainKey_generated : Generated SenderKeyStateStructure__SenderChainKey :=
  {| descriptor_of := textsecure__sender_key_state_structure__sender_chain_key__descriptor; struct_of := struct_SenderKeyStateStructure__SenderChainKey |}.

Definition textsecure__sender_key_state_structure__sender_message_key__descriptor : ProtobufCMessageDescriptor :=
  mk_descriptor
    [mk_field 1 LABEL_OPTIONAL TYPE_UINT32 None;
     mk_field 2 LABEL_OPTIONAL TYPE_BYTES None]
    [(1, 0); (0, 2)].
Definition struct_SenderKeyStateStructure__SenderMessageKey (m : SenderKeyStateStructure__SenderMessageKey) : ProtobufCMessage :=
  mk_message
    [m_scalar (SenderMessageKey_iteration m);
     m_bytes (SenderMessageKey_seed m)] [].
#[global] Instance SenderKeyStateStructure__SenderMessageKey_generated : Generated SenderKeyStateStructure__SenderMessageKey :=
  {| descriptor_of := textsecure__sender_key_state_structure__sender_message_key__descriptor; struct_of := struct_SenderKeyStateStructure__SenderMessageKey |}.

Definition textsecure__sender_key_state_structure__sender_signing_key__descriptor : ProtobufCMessageDescriptor :=
  mk_descriptor
    [mk_field 1 LABEL_OPTIONAL TYPE_BYTES None;
     mk_field 2 LABEL_OPTIONAL TYPE_BYTES None]
    [(1, 0); (0, 2)].
Definition struct_SenderKeyStateStructure__SenderSigningKey (m : SenderKeyStateStructure__SenderSigningKey) : ProtobufCMessage :=
  mk_message
    [m_bytes (SenderSigningKey_public m);
     m_bytes (SenderSigningKey_private m)] [].
#[global] Instance SenderKeyStateStructure__SenderSigningKey_generated : Generated SenderKeyStateStructure__SenderSigningKey :=
  {| descriptor_of := textsecure__sender_key_state_structure__sender_signing_key__descriptor; struct_of := struct_SenderKeyStateStructure__SenderSigningKey |}.

Definition textsecure__sender_key_state_structure__descriptor : ProtobufCMessageDescriptor :=
  mk_descriptor
    [mk_field 1 LABEL_OPTIONAL TYPE_UINT32 None;
     mk_field 2 LABEL_OPTIONAL TYPE_MESSAGE (Some textsecure__sender_key_state_structure__sender_chain_key__descriptor);
     mk_field 3 LABEL_OPTIONAL TYPE_MESSAGE (Some textsecure__sender_key_state_structure__sender_signing_key__descriptor);
     mk_field 4 LABEL_REPEATED TYPE_MESSAGE (Some textsecure__sender_key_state_structure__sender_message_key__descriptor)]
    [(1, 0); (0, 4)].
Definition struct_SenderKeyStateStructure (m : SenderKeyStateStructure) : ProtobufCMessage :=
  mk_message
    [m_scalar (skss_senderkeyid m);
     m_message struct_SenderKeyStateStructure__SenderChainKey (skss_senderchainkey m);
     m_message struct_SenderKeyStateStructure__SenderSigningKey (skss_sendersigningkey m);
     m_messages struct_SenderKeyStateStructure__SenderMessageKey (skss_sendermessagekeys m)] [].
#[global] Instance SenderKeyStateStructure_generated : Generated SenderKeyStateStructure :=
  {| descriptor_of := textsecure__sender_key_state_structure__descriptor; struct_of := struct_SenderKeyStateStructure |}.

Definition textsecure__sender_key_record_structure__descriptor : ProtobufCMessageDescriptor :=
  mk_descriptor
    [mk_field 1 LABEL_REPEATED TYPE_MESSAGE (Some textsecure__sender_key_state_structure__descriptor)]
    [(1, 0); (0, 1)].
Definition struct_SenderKeyRecordStructure (m : SenderKeyRecordStructure) : ProtobufCMessage :=
  mk_message
    [m_messages struct_SenderKeyStateStructure (skrs_senderkeystates m)] [].
#[global] Instance SenderKeyRecordStructure_generated : Generated SenderKeyRecordStructure :=
  {| descriptor_of := textsecure__sender_key_record_structure__descriptor; struct_of := struct_SenderKeyRecordStructure |}.

Definition textsecure__signal_message__descriptor : ProtobufCMessageDescriptor :=
  mk_descriptor
    [mk_field 1 LABEL_OPTIONAL TYPE_BYTES None;
     mk_field 2 LABEL_OPTIONAL TYPE_UINT32 None;
     mk_field 3 LABEL_OPTIONAL TYPE_UINT32 None;
     mk_field 4 LABEL_OPTIONAL TYPE_BYTES None]
    [(1, 0); (0, 4)].
Definition struct_SignalMessage (m : SignalMessage) : ProtobufCMessage :=
  mk_message
    [m_bytes (sm_ratchetkey m);
     m_scalar (sm_counter m);
     m_scalar (sm_previouscounter m);
     m_bytes (sm_ciphertext m)] [].
#[global] Instance SignalMessage_generated : Generated SignalMessage :=
  {| descriptor_of := textsecure__signal_message__descriptor; struct_of := struct_SignalMessage |}.

Definition textsecure__pre_key_signal_message__descriptor : ProtobufCMessageDescriptor :=
  mk_descriptor
    [mk_field 1 LABEL_OPTIONAL TYPE_UINT32 None;
     mk_field 2 LABEL_OPTIONAL TYPE_BYTES None;
     mk_field 3 LABEL_OPTIONAL TYPE_BYTES None;
     mk_field 4 LABEL_OPTIONAL TYPE_BYTES None;
     mk_field 5 LABEL_OPTIONAL TYPE_UINT32 None;
     mk_field 6 LABEL_OPTIONAL TYPE_UINT32 None]
    [(1, 0); (0, 6)].
Definition struct_PreKeySignalMessage (m : PreKeySignalMessage) : ProtobufCMessage :=
  mk_message
    [m_scalar (pksm_prekeyid m);
     m_bytes (pksm_basekey m);
     m_bytes (pksm_identitykey m);
     m_bytes (pksm_message m);
     m_scalar (pksm_registrationid m);
     m_scalar (pksm_signedprekeyid m)] [].
#[global] Instance PreKeySignalMessage_generated : Generated PreKeySignalMessage :=
  {| descriptor_of := textsecure__pre_key_signal_message__descriptor; struct_of := struct_PreKeySignalMessage |}.

Definition textsecure__key_exchange_message__descriptor : ProtobufCMessageDescriptor :=
  mk_descriptor
    [mk_field 1 LABEL_OPTIONAL TYPE_UINT32 None;
     mk_field 2 LABEL_OPTIONAL TYPE_BYTES None;
     mk_field 3 LABEL_OPTIONAL TYPE_BYTES None;
     mk_field 4 LABEL_OPTIONAL TYPE_BYTES None;
     mk_field 5 LABEL_OPTIONAL TYPE_BYTES None]
    [(1, 0); (0, 5)].

Definition textsecure__sender_key_message__descriptor : ProtobufCMessageDescriptor :=
  mk_descriptor
    [mk_field 1 LABEL_OPTIONAL TYPE_UINT32 None;
     mk_field 2 LABEL_OPTIONAL TYPE_UINT32 None;
     mk_field 3 LABEL_OPTIONAL TYPE_BYTES None]
    [(1, 0); (0, 3)].
Definition struct_SenderKeyMessage (m : SenderKeyMessage) : ProtobufCMessage :=
  mk_message
    [m_scalar (skms_id m);
     m_scalar (skms_iteration m);
     m_bytes (skms_ciphertext m)] [].
#[global] Instance SenderKeyMessage_generated : Generated SenderKeyMessage :=
  {| descriptor_of := textsecure__sender_key_message__descriptor; struct_of := struct_SenderKeyMessage |}.

Definition textsecure__sender_key_distribution_message__descriptor : ProtobufCMessageDescriptor :=
  mk_descriptor
    [mk_field 1 LABEL_OPTIONAL TYPE_UINT32 None;
     mk_field 2 LABEL_OPTIONAL TYPE_UINT32 None;
     mk_field 3 LABEL_OPTIONAL TYPE_BYTES None;
     mk_field 4 LABEL_OPTIONAL TYPE_BYTES None]
    [(1, 0); (0, 4)].
Definition struct_SenderKeyDistributionMessage (m : SenderKeyDistributionMessage) : ProtobufCMessage :=
  mk_message
    [m_scalar (skdms_id m);
     m_scalar (skdms_iteration m);
     m_bytes (skdms_chainkey m);
     m_bytes (skdms_signingkey m)] [].
#[global] Instance SenderKeyDistributionMessage_generated : Generated SenderKeyDistributionMessage :=
  {| descriptor_of := textsecure__sender_key_distribution_message__descriptor; struct_of := struct_SenderKeyDistributionMessage |}.

Definition textsecure__device_consistency_code_message__descriptor : ProtobufCMessageDescriptor :=
  mk_descriptor
    [mk_field 1 LABEL_OPTIONAL TYPE_UINT32 None;
     mk_field 2 LABEL_OPTIONAL TYPE_BYTES None]
    [(1, 0); (0, 2)].
Definition struct_DeviceConsistencyCodeMessage (m : DeviceConsistencyCodeMessage) : ProtobufCMessage :=
  mk_message
    [m_scalar (dccm_generation m);
     m_bytes (dccm_signature m)] [].
#[global] Instance DeviceConsistencyCodeMessage_generated : Generated DeviceConsistencyCodeMessage :=
  {| descriptor_of := textsecure__device_consistency_code_message__descriptor; struct_of := struct_DeviceConsistencyCodeMessage |}.

Definition textsecure__logical_fingerprint__descriptor : ProtobufCMessageDescriptor :=
  mk_descriptor
    [mk_field 1 LABEL_OPTIONAL TYPE_BYTES None;
     mk_field 2 LABEL_OPTIONAL TYPE_BYTES None]
    [(1, 0); (0, 2)].
Definition struct_LogicalFingerprint (m : LogicalFingerprint) : ProtobufCMessage :=
  mk_message
    [m_bytes (lf_content m);
     m_bytes (lf_identifier m)] [].
#[global] Instance LogicalFingerprint_generated : Generated LogicalFingerprint :=
  {| descriptor_of := textsecure__logical_fingerprint__descriptor; struct_of := struct_LogicalFingerprint |}.

Definition textsecure__combined_fingerprints__descriptor : ProtobufCMessageDescriptor :=
  mk_descriptor
    [mk_field 1 LABEL_OPTIONAL TYPE_UINT32 None;
     mk_field 2 LABEL_OPTIONAL TYPE_MESSAGE (Some textsecure__logical_fingerprint__descriptor);
     mk_field 3 LABEL_OPTIONAL TYPE_MESSAGE (Some textsecure__logical_fingerprint__descriptor)]
    [(1, 0); (0, 3)].
Definition struct_CombinedFingerprints (m : CombinedFingerprints) : ProtobufCMessage :=
  mk_message
    [m_scalar (cf_version m);
     m_message struct_LogicalFingerprint (cf_localfingerprint m);
     m_message struct_LogicalFingerprint (cf_remotefingerprint m)] [].
#[global] Instance CombinedFingerprints_generated : Generated CombinedFingerprints :=
  {| descriptor_of := textsecure__combined_fingerprints__descriptor; struct_of := struct_CombinedFingerprints |}.
