(* ===== verification/ProtobufMirror.v ===== *)
(** The structs of the library in the protobuf-c runtime: well formed for their
    descriptors, and packed into the bytes of the wire codecs.

    [mirrors] relates a member of a struct to the fields the codec writes for it,
    [struct_mirrors] a struct to all its fields; they compose, so the statement
    for a type follows from those of the types inside it. *)

From S2P Require Import Prelude LocalStorage Wire GroupWire Protobuf ProtobufDescriptor ProtobufPack ProtobufUnpack.
From S2P Require Import ProtobufTables.

Definition mirrors (f : field_descriptor) (x : member) (fields : list field) : Prop :=
  member_ok (sub_ok f) f x /\
  (Z.of_nat (length (field_pack (sub_pack f) f x)) < 2 ^ 32 -> field_pack (sub_pack f) f x = enc_fields fields).

Definition struct_mirrors (d : ProtobufCMessageDescriptor) (m : ProtobufCMessage) (fields : list field) : Prop :=
  message_ok d m /\
  (Z.of_nat (length (protobuf_c_message_pack d m)) < 2 ^ 32 -> protobuf_c_message_pack d m = enc_fields fields).

(* ------------------------------------------------------------------ *)
(** ** Members *)

Lemma mirrors_fields f x fields : is_u32 (f_id f) -> member_ok (sub_ok f) f x ->
  member_fields (sub_pack f) f x = fields -> mirrors f x fields.
Proof. intros Hid Hx <-. split; [done|]. by eapply field_pack_fields. Qed.

Section members.
Context (n : Z) (Hn : is_u32 n).

Lemma mirror_u32 o : opt_u32 o -> mirrors (mk_field n LABEL_OPTIONAL TYPE_UINT32 None) (m_scalar o) (opt_seg n w_u32 o).
Proof using Hn. intros H. by apply mirrors_fields; [done|destruct o|destruct o]. Qed.

Lemma mirror_i32 o : opt_i32 o -> mirrors (mk_field n LABEL_OPTIONAL TYPE_INT32 None) (m_scalar o) (opt_seg n w_i32 o).
Proof using Hn. intros H. by apply mirrors_fields; [done|destruct o|destruct o]. Qed.

Lemma mirror_bool o : opt_bool o -> mirrors (mk_field n LABEL_OPTIONAL TYPE_BOOL None) (m_scalar o) (opt_seg n w_u32 o).
Proof using Hn. intros H. apply mirrors_fields; [done| |by destruct o]. destruct o; split; [exact H|done|by left|done]. Qed.

Lemma mirror_fixed64 o : match o with Some t => 0 <= t < 2 ^ 64 | None => True end ->
  mirrors (mk_field n LABEL_OPTIONAL TYPE_FIXED64 None) (m_scalar o) (opt_seg n w_fixed64 o).
Proof using Hn. intros H. by apply mirrors_fields; [done|destruct o|destruct o]. Qed.

Lemma mirror_bytes o : mirrors (mk_field n LABEL_OPTIONAL TYPE_BYTES None) (m_bytes o) (opt_seg n w_bytes o).
Proof using Hn. by apply mirrors_fields; [done|destruct o|destruct o]. Qed.

Context {A : Type} (d : ProtobufCMessageDescriptor) (struct : A -> ProtobufCMessage) (to : A -> list field).

Lemma enc_submessage y : struct_mirrors d (struct y) (to y) ->
  Z.of_nat (length (enc_field (n, WBytes (protobuf_c_message_pack d (struct y))))) < 2 ^ 32 ->
  enc_field (n, WBytes (protobuf_c_message_pack d (struct y))) = enc_field (n, w_msg to y).
Proof using Type.
  intros [_ Hp] Hl. rewrite Hp; [done|]. unfold enc_field in Hl. cbn [snd] in Hl. rewrite !length_app in Hl. lia.
Qed.

Lemma mirror_message o : match o with Some y => struct_mirrors d (struct y) (to y) | None => True end ->
  mirrors (mk_field n LABEL_OPTIONAL TYPE_MESSAGE (Some d)) (m_message struct o) (opt_seg n (w_msg to) o).
Proof using Hn.
  destruct o as [y|]; [|done]. intros Hy. assert (member_ok (message_ok d) (mk_field n LABEL_OPTIONAL TYPE_MESSAGE (Some d)) (m_message struct (Some y))) as Hok
    by apply Hy.
  split; [done|]. intros Hl.
  pose proof (field_pack_fields (message_ok d) _ (mk_field n LABEL_OPTIONAL TYPE_MESSAGE (Some d)) _ Hn Hok Hl) as E.
  rewrite E in Hl |- *.
  cbn in Hl |- *. rewrite !app_nil_r in *. by apply enc_submessage.
Qed.

Lemma mirror_messages l : Forall (fun y => struct_mirrors d (struct y) (to y)) l ->
  mirrors (mk_field n LABEL_REPEATED TYPE_MESSAGE (Some d)) (m_messages struct l) (rep_seg n (w_msg to) l).
Proof using Hn.
  intros H. assert (member_ok (message_ok d) (mk_field n LABEL_REPEATED TYPE_MESSAGE (Some d)) (m_messages struct l)) as Hok.
  { apply Forall_fmap. eapply Forall_impl; [exact H|]. by intros y [Hy _]. }
  split; [done|]. intros Hl. pose proof (field_pack_fields (message_ok d) _ (mk_field n LABEL_REPEATED TYPE_MESSAGE (Some d)) _ Hn Hok Hl) as E.
  rewrite E in Hl |- *. clear Hok E. unfold enc_fields in *. cbn [member_fields m_messages f_id] in *.
  induction H as [|y l Hy _ IH]; [done|]. cbn [fmap list_fmap map concat rep_seg] in *. rewrite length_app in Hl.
  f_equal; [apply enc_submessage; [done|]|apply IH]; cbn in *; lia.
Qed.

End members.

(* ------------------------------------------------------------------ *)
(** ** Structs *)

Lemma struct_mirrors_intro fs rs xs segs : Forall2 (fun p seg => mirrors p.1 p.2 seg) (zip fs xs) segs ->
  length fs = length xs -> struct_mirrors (mk_descriptor fs rs) (mk_message xs []) (concat segs).
Proof.
  intros H Hlen. split.
  - apply message_ok_inv. split; [|done]. revert xs Hlen segs H.
    induction fs as [|f fs IH]; intros [|x xs] Hlen segs H; try done.
    apply Forall2_cons_inv_l in H as (seg & segs' & [Hx _] & H & ->). constructor; [done|]. apply (IH xs) with segs'; auto.
  - rewrite pack_unfold. cbn [map concat]. rewrite app_nil_r. revert xs Hlen segs H.
    induction fs as [|f fs IH]; intros [|x xs] Hlen segs H Hl; try done.
    + by apply Forall2_nil_inv_l in H as ->.
    + apply Forall2_cons_inv_l in H as (seg & segs' & [_ Hx] & H & ->). cbn [zip_with concat] in *.
      rewrite length_app in Hl. cbn [fst snd] in *. rewrite enc_fields_app, Hx by lia. f_equal.
      apply IH; [by injection Hlen|done|lia].
Qed.

Lemma struct_mirrors_of fs rs xs segs fields : Forall2 (fun p seg => mirrors p.1 p.2 seg) (zip fs xs) segs ->
  length fs = length xs -> fields = concat segs -> struct_mirrors (mk_descriptor fs rs) (mk_message xs []) fields.
Proof. intros H1 H2 ->. by apply struct_mirrors_intro. Qed.

Create HintDb mirrordb.
#[export] Hint Resolve mirror_u32 mirror_i32 mirror_bool mirror_fixed64 mirror_bytes mirror_message mirror_messages
  : mirrordb.
#[export] Hint Extern 1 (is_u32 _) => split; lia : mirrordb.

(** The members one by one, then the concatenation of their fields. *)
Ltac mirror_struct :=
  lazymatch goal with |- struct_mirrors _ _ (?t _) => unfold t end;
  eapply struct_mirrors_of;
  [ cbn [zip zip_with]; repeat apply Forall2_cons_2; [cbn [fst snd]; eauto with mirrordb ..|apply Forall2_nil_2]
  | done
  | cbn [concat]; by rewrite ?app_nil_r ].

Lemma opt_mirrors {A} (P Q : A -> Prop) (o : option A) : (forall y, P y -> Q y) ->
  match o with Some y => P y | None => True end -> match o with Some y => Q y | None => True end.
Proof. destruct o; auto. Qed.

(** Every struct of type [A] in [ok] mirrors the fields that [to] lists. *)
Abbreviation mirrored A ok to := (forall m : A, ok m -> struct_mirrors (descriptor_of A) (struct_of m) (to m)).

Lemma mirror_ChainKey : mirrored Chain__ChainKey (fun m => opt_u32 (ChainKey_index m)) to_ChainKey.
Proof. intros m H. mirror_struct. Qed.

Lemma mirror_MessageKey : mirrored Chain__MessageKey (fun m => opt_u32 (MessageKey_index m)) to_MessageKey.
Proof. intros m H. mirror_struct. Qed.

Lemma mirror_Chain : mirrored SessionStructure__Chain Chain_ok to_Chain.
Proof.
  intros m [Hk Hl]. apply (opt_mirrors _ _ _ mirror_ChainKey) in Hk.
  pose proof (Forall_impl _ _ _ Hl mirror_MessageKey). mirror_struct.
Qed.

Lemma mirror_PendingKeyExchange : mirrored PendingKeyExchange (fun m => opt_u32 (pke_sequence m)) to_PendingKeyExchange.
Proof. intros m H. mirror_struct. Qed.

Lemma mirror_PendingPreKey : mirrored PendingPreKey (fun m => opt_u32 (ppk_prekeyid m) /\ opt_i32 (ppk_signedprekeyid m)) to_PendingPreKey.
Proof. intros m [H1 H2]. mirror_struct. Qed.

Lemma mirror_SessionStructure : mirrored SessionStructure SessionStructure_ok to_SessionStructure.
Proof.
  intros m (Hv & Hpc & Hsc & Hrcs & Hke & Hpk & Hrr & Hlr & Hnr).
  apply (opt_mirrors _ _ _ mirror_Chain) in Hsc. pose proof (Forall_impl _ _ _ Hrcs mirror_Chain).
  apply (opt_mirrors _ _ _ mirror_PendingKeyExchange) in Hke. apply (opt_mirrors _ _ _ mirror_PendingPreKey) in Hpk.
  mirror_struct.
Qed.

Lemma mirror_RecordStructure : mirrored RecordStructure RecordStructure_ok to_RecordStructure.
Proof.
  intros m [Hc Hl]. apply (opt_mirrors _ _ _ mirror_SessionStructure) in Hc.
  pose proof (Forall_impl _ _ _ Hl mirror_SessionStructure). mirror_struct.
Qed.

Lemma mirror_PreKeyRecord : mirrored PreKeyRecordStructure PreKeyRecordStructure_ok to_PreKeyRecord.
Proof. intros m H. mirror_struct. Qed.

Lemma mirror_SignedPreKeyRecord : mirrored SignedPreKeyRecordStructure SignedPreKeyRecordStructure_ok to_SignedPreKeyRecord.
Proof. intros m [H1 H2]. mirror_struct. Qed.

Lemma mirror_IdentityKeyPair : mirrored IdentityKeyPairStructure (fun _ => True) to_IdentityKeyPair.
Proof. intros m _. mirror_struct. Qed.

Lemma mirror_SenderChainKey : mirrored SenderKeyStateStructure__SenderChainKey (fun m => opt_u32 (SenderChainKey_iteration m)) to_SenderChainKey.
Proof. intros m H. mirror_struct. Qed.

Lemma mirror_SenderMessageKey : mirrored SenderKeyStateStructure__SenderMessageKey (fun m => opt_u32 (SenderMessageKey_iteration m)) to_SenderMessageKey.
Proof. intros m H. mirror_struct. Qed.

Lemma mirror_SenderSigningKey : mirrored SenderKeyStateStructure__SenderSigningKey (fun _ => True) to_SenderSigningKey.
Proof. intros m _. mirror_struct. Qed.

Lemma mirror_SenderKeyState : mirrored SenderKeyStateStructure SenderKeyStateStructure_ok to_SenderKeyState.
Proof.
  intros m (Hi & Hc & Hl). apply (opt_mirrors _ _ _ mirror_SenderChainKey) in Hc.
  pose proof (Forall_impl _ _ _ Hl mirror_SenderMessageKey).
  assert (match skss_sendersigningkey m with
          | Some k => struct_mirrors (descriptor_of SenderKeyStateStructure__SenderSigningKey) (struct_of k) (to_SenderSigningKey k) | None => True end).
  { destruct (skss_sendersigningkey m); [by apply mirror_SenderSigningKey|done]. }
  mirror_struct.
Qed.

Lemma mirror_SenderKeyRecord : mirrored SenderKeyRecordStructure SenderKeyRecordStructure_ok to_SenderKeyRecord.
Proof. intros m Hl. pose proof (Forall_impl _ _ _ Hl mirror_SenderKeyState). mirror_struct. Qed.

Lemma mirror_SignalMessage : mirrored SignalMessage SignalMessage_ok to_SignalMessage.
Proof. intros m [H1 H2]. mirror_struct. Qed.

Lemma mirror_PreKeySignalMessage : mirrored PreKeySignalMessage PreKeySignalMessage_ok to_PreKeySignalMessage.
Proof. intros m (H1 & H2 & H3). mirror_struct. Qed.

Lemma mirror_SenderKeyMessage : mirrored SenderKeyMessage SenderKeyMessage_ok to_SenderKeyMessage.
Proof. intros m [H1 H2]. mirror_struct. Qed.

Lemma mirror_SenderKeyDistribution : mirrored SenderKeyDistributionMessage SenderKeyDistributionMessage_ok to_SenderKeyDistribution.
Proof. intros m [H1 H2]. mirror_struct. Qed.

Lemma mirror_DeviceConsistencyCode : mirrored DeviceConsistencyCodeMessage DeviceConsistencyCodeMessage_ok to_DeviceConsistencyCode.
Proof. intros m H. mirror_struct. Qed.

Lemma mirror_LogicalFingerprint : mirrored LogicalFingerprint (fun _ => True) to_LogicalFingerprint.
Proof. intros m _. mirror_struct. Qed.

Lemma mirror_CombinedFingerprints : mirrored CombinedFingerprints CombinedFingerprints_ok to_CombinedFingerprints.
Proof.
  intros m Hv. assert (forall o, match o with
    | Some k => struct_mirrors (descriptor_of LogicalFingerprint) (struct_of k) (to_LogicalFingerprint k) | None => True end) as Hf.
  { intros [k|]; [by apply mirror_LogicalFingerprint|done]. }
  pose proof (Hf (cf_localfingerprint m)). pose proof (Hf (cf_remotefingerprint m)). mirror_struct.
Qed.

(* ------------------------------------------------------------------ *)
(** ** The generated functions and the wire codecs *)

(** The generated functions of [A] do what the wire codec given by [to] does:
    they pack the same bytes, as many as they announce, and unpack the struct,
    for structs that pack into no more bytes than the scan has places. *)
Definition runs_codec (A : Type) `{Generated A} (to : A -> list field) (x : A) : Prop :=
  generated_get_packed_size x <= SLAB_CAPACITY ->
  generated_pack x = pack_with to x /\
  generated_get_packed_size x = Z.of_nat (length (pack_with to x)) /\
  generated_unpack A (pack_with to x) = Ok (struct_of x).

Lemma mirrored_runs_codec {A} `{Generated A} ok to : descriptor_wf (descriptor_of A) = true -> mirrored A ok to ->
  forall x, ok x -> runs_codec A to x.
Proof.
  intros Hw Hm x [Hok Hp]%Hm. unfold runs_codec, generated_get_packed_size, generated_pack, generated_unpack.
  rewrite <- length_pack by done. intros Hl.
  assert (protobuf_c_message_pack (descriptor_of A) (struct_of x) = pack_with to x) as E.
  { apply Hp. unfold SLAB_CAPACITY in Hl. lia. }
  rewrite <- E. split; [done|]. split; [done|]. by apply unpack_pack.
Qed.
