(* ===== verification/ProtobufGuarantees.v ===== *)
(** The guarantees of the protobuf-c runtime and of the generated code, with
    witnesses on messages of the library and on hostile inputs. *)

From S2P Require Import Prelude Crypto LocalStorage Wire GroupWire Protobuf ProtobufDescriptor ProtobufPack.
From S2P Require Import ProtobufUnpack ProtobufSafety ProtobufTables ProtobufMirror.

(** C25: Whatever the bytes, [protobuf_c_message_unpack] with a well-formed
    descriptor ends, and reads and writes only inside the input, the arrays it
    allocates for repeated and unknown fields, and its tables.  This covers the
    length prefixes for which the 32-bit sum of [scan_length_prefixed_data]
    wraps. *)
Theorem unpack_memory_safe d data :
  descriptor_wf d = true -> protobuf_c_message_unpack d data <> Stuck.
Proof. intros Hw E. pose proof (unpack_safe d data Hw) as H. by rewrite E in H. Qed.

(** C26: A message that [protobuf_c_message_unpack] answers has the type of its
    descriptor: a member of the right kind for every field, numbers in the range
    of their types, sub-messages of the type of their field, and unknown fields
    that hold a complete payload of their wire type. *)
Theorem unpack_well_typed d data m :
  descriptor_wf d = true -> protobuf_c_message_unpack d data = Ok m -> message_ok d m.
Proof. intros Hw E. pose proof (unpack_safe d data Hw) as H. by rewrite E in H. Qed.

(** C27: Unpacking inverts packing: a well-typed message comes back exactly, with
    its unknown fields, when it packs into at most [2 ^ 27 - 16] bytes, the number
    of members the scan can hold. *)
Theorem unpack_inverts_pack d m :
  descriptor_wf d = true -> message_ok d m -> protobuf_c_message_get_packed_size d m <= SLAB_CAPACITY ->
  protobuf_c_message_unpack d (protobuf_c_message_pack d m) = Ok m.
Proof. intros Hw Hm Hs. apply unpack_pack; [done|done|]. by rewrite length_pack. Qed.

(** [protobuf_c_message_pack] writes exactly as many bytes as
    [protobuf_c_message_get_packed_size] announces, the size callers allocate. *)
Theorem packed_size_exact d m :
  descriptor_wf d = true -> message_ok d m ->
  Z.of_nat (length (protobuf_c_message_pack d m)) = protobuf_c_message_get_packed_size d m.
Proof. intros Hw Hm. by apply length_pack. Qed.

(** The binary search of [int_range_lookup] over a well-formed table gives
    the index of a field number among all the numbers of the table, and -1 for
    every other [int]. *)
Theorem range_lookup_correct rs value :
  ranges_from 0 0 rs = true -> - 2 ^ 31 <= value < 2 ^ 31 ->
  int_range_lookup (n_field_ranges rs) rs value =
  Ok (match list_find (value =.) (ids_of rs) with Some (i, _) => Z.of_nat i | None => -1 end).
Proof.
  intros Hw Hv. destruct (int_range_lookup_spec rs Hw value Hv) as [(i & -> & Hi)|[-> Hn]].
  - assert (list_find (value =.) (ids_of rs) = Some (i, value)) as ->; [|done].
    apply list_find_Some. split; [done|]. split; [done|]. intros j y Hj Hlt ->.
    pose proof (NoDup_lookup _ _ _ _ (ids_of_NoDup rs Hw) Hi Hj). lia.
  - destruct (list_find (value =.) (ids_of rs)) as [[i v]|] eqn:E; [|done].
    apply list_find_Some in E as (Hi & -> & _). destruct Hn. by eapply list_elem_of_lookup_2.
Qed.

(** C28: The generated functions of every message type the library stores or
    sends are the wire codec of that type: the same bytes, the announced number
    of them, and the struct back, for structs of at most [2 ^ 27 - 16] packed
    bytes whose numbers fit their fields. *)
Theorem generated_code_is_codec :
  (forall x, SessionStructure_ok x -> runs_codec SessionStructure to_SessionStructure x) /\
  (forall x, RecordStructure_ok x -> runs_codec RecordStructure to_RecordStructure x) /\
  (forall x, PreKeyRecordStructure_ok x -> runs_codec PreKeyRecordStructure to_PreKeyRecord x) /\
  (forall x, SignedPreKeyRecordStructure_ok x -> runs_codec SignedPreKeyRecordStructure to_SignedPreKeyRecord x) /\
  (forall x, runs_codec IdentityKeyPairStructure to_IdentityKeyPair x) /\
  (forall x, SenderKeyStateStructure_ok x -> runs_codec SenderKeyStateStructure to_SenderKeyState x) /\
  (forall x, SenderKeyRecordStructure_ok x -> runs_codec SenderKeyRecordStructure to_SenderKeyRecord x) /\
  (forall x, SignalMessage_ok x -> runs_codec SignalMessage to_SignalMessage x) /\
  (forall x, PreKeySignalMessage_ok x -> runs_codec PreKeySignalMessage to_PreKeySignalMessage x) /\
  (forall x, SenderKeyMessage_ok x -> runs_codec SenderKeyMessage to_SenderKeyMessage x) /\
  (forall x, SenderKeyDistributionMessage_ok x ->
     runs_codec SenderKeyDistributionMessage to_SenderKeyDistribution x) /\
  (forall x, DeviceConsistencyCodeMessage_ok x ->
     runs_codec DeviceConsistencyCodeMessage to_DeviceConsistencyCode x) /\
  (forall x, CombinedFingerprints_ok x -> runs_codec CombinedFingerprints to_CombinedFingerprints x).
Proof.
  split_and!.
  - apply mirrored_runs_codec; [done|apply mirror_SessionStructure].
  - apply mirrored_runs_codec; [done|apply mirror_RecordStructure].
  - apply mirrored_runs_codec; [done|apply mirror_PreKeyRecord].
  - apply mirrored_runs_codec; [done|apply mirror_SignedPreKeyRecord].
  - intros x. by apply (mirrored_runs_codec (fun _ => True)); [|apply mirror_IdentityKeyPair|].
  - apply mirrored_runs_codec; [done|apply mirror_SenderKeyState].
  - apply mirrored_runs_codec; [done|apply mirror_SenderKeyRecord].
  - apply mirrored_runs_codec; [done|apply mirror_SignalMessage].
  - apply mirrored_runs_codec; [done|apply mirror_PreKeySignalMessage].
  - apply mirrored_runs_codec; [done|apply mirror_SenderKeyMessage].
  - apply mirrored_runs_codec; [done|apply mirror_SenderKeyDistribution].
  - apply mirrored_runs_codec; [done|apply mirror_DeviceConsistencyCode].
  - apply mirrored_runs_codec; [done|apply mirror_CombinedFingerprints].
Qed.

(* ------------------------------------------------------------------ *)
(** ** Witnesses *)

Module ProtobufSample.

(** A session record with a session, its chains and a pending pre-key. *)
Definition chain : SessionStructure__Chain :=
  mk_Chain (Some [u8 5; u8 1]) None (Some (mk_ChainKey (Some 300) (Some [u8 7])))
    [mk_MessageKey (Some 1) (Some [u8 8]) None (Some []); mk_MessageKey None None None None].
Definition session : SessionStructure :=
  mk_SessionStructure (Some 3) (Some [u8 1]) None (Some [u8 2; u8 3]) (Some 0) (Some chain) [chain; chain]
    None (Some (mk_PendingPreKey (Some 70000) (Some (-5)) (Some [u8 9]))) (Some (2 ^ 32 - 1)) None (Some 1) None.
Definition record : RecordStructure := mk_RecordStructure (Some session) [session].
Definition record_descriptor := textsecure__record_structure__descriptor.

(** A ciphertext field of [2 ^ 32 - 4] announced bytes, inside a signal message. *)
Definition wrapped_length : bytes := map u8 [34; 252; 255; 255; 255; 15; 1; 2; 3; 4; 5].

(** A signal message with a field that the table does not have. *)
Definition with_unknown : ProtobufCMessage :=
  mk_message [m_bytes (Some [u8 5]); m_scalar (Some 2); m_scalar None; m_bytes None]
    [mk_unknown 99 WIRE_TYPE_VARINT [u8 200; u8 1]].

Lemma record_ok : RecordStructure_ok record.
Proof. repeat (split || constructor); try done; (lia || by right). Qed.

Lemma with_unknown_ok : message_ok textsecure__signal_message__descriptor with_unknown.
Proof.
  apply message_ok_inv. split; [repeat (split || constructor); try done|].
  constructor; [|done]. split; [by split|]. split; [set_solver by lia|]. split; [by cbn|]. by exists 0%nat.
Qed.

End ProtobufSample.

Lemma unpack_memory_safe_witness :
  protobuf_c_message_unpack textsecure__signal_message__descriptor ProtobufSample.wrapped_length <> Stuck /\
  protobuf_c_message_unpack textsecure__signal_message__descriptor ProtobufSample.wrapped_length = Err 0.
Proof. split; [apply unpack_memory_safe; reflexivity|vm_compute; reflexivity]. Defined.

Lemma unpack_well_typed_witness :
  message_ok textsecure__signal_message__descriptor ProtobufSample.with_unknown.
Proof.
  refine (unpack_well_typed textsecure__signal_message__descriptor (map u8 [10; 1; 5; 152; 6; 200; 1; 16; 2])
    ProtobufSample.with_unknown _ _); vm_compute; reflexivity.
Defined.

Lemma unpack_inverts_pack_witness :
  protobuf_c_message_unpack textsecure__signal_message__descriptor
    (protobuf_c_message_pack textsecure__signal_message__descriptor ProtobufSample.with_unknown)
  = Ok ProtobufSample.with_unknown.
Proof. apply unpack_inverts_pack; [reflexivity|apply ProtobufSample.with_unknown_ok|vm_compute; discriminate]. Defined.

Lemma packed_size_exact_witness :
  Z.of_nat (length (protobuf_c_message_pack ProtobufSample.record_descriptor (struct_of ProtobufSample.record))) =
  protobuf_c_message_get_packed_size ProtobufSample.record_descriptor (struct_of ProtobufSample.record).
Proof.
  apply packed_size_exact; [reflexivity|]. apply (mirror_RecordStructure ProtobufSample.record ProtobufSample.record_ok).
Defined.

Lemma range_lookup_correct_witness :
  int_range_lookup 2 [(1, 0); (7, 5); (0, 7)] 8 = Ok 6 /\ int_range_lookup 2 [(1, 0); (7, 5); (0, 7)] 6 = Ok (-1).
Proof. split; apply (range_lookup_correct [(1, 0); (7, 5); (0, 7)]); (reflexivity || lia). Defined.

Lemma generated_code_is_codec_witness :
  generated_unpack RecordStructure (pack_with to_RecordStructure ProtobufSample.record)
  = Ok (struct_of ProtobufSample.record).
Proof.
  destruct generated_code_is_codec as (_ & H & _).
  destruct (H ProtobufSample.record ProtobufSample.record_ok) as (_ & _ & E); [vm_compute; discriminate|exact E].
Defined.
