(* ===== verification/Guarantees.v ===== *)
(** The guarantees of the session layer: the statements the components' lemmas
    add up to.  [Witnesses] evaluates each of them on a concrete provider,
    store and codec. *)

From S2P Require Import Prelude Buffers Vpool Crypto Hkdf Curve Ratchet SessionState LocalStorage.
From S2P Require Import SessionSerial Protocol RatchetSession SessionRecord Receive SessionPreKey.
From S2P Require Import Store SessionBuilder SessionCipher Conversation Storable SessionApi.
From S2P Require Import FirstContact Network.

(* ------------------------------------------------------------------ *)
(** ** Messages between two parties *)

Section parties.
Context `{CP : CryptoProvider} {CL : CryptoProviderLaws CP}.
Context `{CV : Curve25519} {CVL : Curve25519Laws CV}.
Context {ST : SignalStore} {SL : SignalStoreLaws ST}.
Context {SC : Codec SessionStructure} {SCL : CodecLaws SessionStructure SC SessionStructure_ok}.
Context {RC : Codec RecordStructure} {RCL : CodecLaws RecordStructure RC RecordStructure_ok}.
Context {MC : Codec SignalMessage} {MCL : CodecLaws SignalMessage MC SignalMessage_ok}.
Context {PC : Codec PreKeySignalMessage} {PCL : CodecLaws PreKeySignalMessage PC PreKeySignalMessage_ok}.
Context {PK : Codec PreKeyRecordStructure} {SPK : Codec SignedPreKeyRecordStructure}.

(** C1: first contact.  Alice, who has no session with Bob and no saved identity
    for him, processes the bundle of his public keys, whose signed pre-key
    carries a valid signature.  The call succeeds, and whatever she then encrypts
    is a pre-key message that parses back from its bytes and that Bob, who has the
    private keys, and no session and no saved identity either, decrypts to her
    plaintext, when the ratchet key he generates is not his signed pre-key.  Both
    stores then hold the session, with synchronised ratchets, and the one-time
    pre-key, unless it is the last-resort one, is removed from Bob's store. *)
Theorem first_contact k wa wb to_b to_a reg dev id sid sig rega regb g1 g2 a0 new gb' :
  x3dh_valid k -> in_range reg dev id sid -> inside_callback wa = false -> inside_callback wb = false ->
  unknown (view (w_store wa)) to_b -> owns (view (w_store wa)) (k_ia k) rega ->
  unknown (view (w_store wb)) to_a -> owns (view (w_store wb)) (k_ib k) regb ->
  published (view (w_store wb)) (k_sb k) sid (k_ob k) id ->
  length sig = CURVE_SIGNATURE_LEN ->
  curve25519_verify sig (pub_data (public_key (k_ib k))) (ser (public_key (k_sb k))) = true ->
  curve_generate_key_pair (w_rng wa) = (Ok (k_ea k), g1) ->
  ratcheting_session_alice_initialize (alice_of k) (g1, session_state_create) = (Ok tt, (g2, a0)) ->
  curve_generate_key_pair (w_rng wb) = (Ok new, gb') -> public_key new <> public_key (k_sb k) ->
  exists wa1,
    session_builder_process_pre_key_bundle to_b (bundle_of k reg dev id sid sig) wa = (Ok 0, wa1) /\
    forall pt out wa2, session_cipher_encrypt to_b pt wa1 = (Ok out, wa2) ->
    exists pm data wb' ra rb a b,
      out = CIPHERTEXT_PREKEY_TYPE pm /\ pkm_serialized pm = Some data /\
      pre_key_signal_message_deserialize data = Ok pm /\
      session_cipher_decrypt_pre_key_signal_message to_a None pm wb = (Ok pt, wb') /\
      holds wa2 to_b ra /\ rec_state ra = Some a /\ holds wb' to_a rb /\ rec_state rb = Some b /\
      conv_synced (mk_party (w_rng wa2) a, mk_party (w_rng wb') b) /\
      (forall i, used_pre_key k id = Some i -> v_pre_keys (view (w_store wb')) !! i = None).
Proof. apply first_message. Qed.

(** C2: conversations.  From two sessions set up by X3DH on valid keys, whatever
    the two parties send and however the network behaves (messages lost, late,
    out of order, crossing messages of the other direction, delivered again,
    mixed with bytes that are refused), a delivered message decrypts to what was
    encrypted the first time, and is refused with [SG_ERR_DUPLICATE_MESSAGE] from
    then on.  This is for deliveries in the window of the receiver: it still has
    the chain of the message (it keeps five), or the message is of the sender's
    current chain; it then has at most 2000 skipped keys on that chain; a ratchet
    key it generates is new; and counters stay below 2^32. *)
Theorem conversation_delivers k c0 c e r c' :
  x3dh_valid k -> net_initial k c0 -> net_reachable c0 c -> net_step c (Some (e, r)) c' ->
  r = if pkt_received e then Err SG_ERR_DUPLICATE_MESSAGE else Ok (pkt_plaintext e).
Proof.
  intros Hk Hi Hr Hs. pose proof (net_reachable_inv c0 c (net_initial_inv k c0 Hk Hi) Hr) as Hc.
  by eapply (net_step_inv c (Some (e, r)) c') in Hs as [_ H]; [apply H|].
Qed.

(** C3: conversations through the stores.  Two applications whose stores hold the
    sessions of two parties in step, with nothing on the way, implement the
    network of C2, step by step and in either direction: outside a callback, when
    encryption succeeds and the counter stays below 2^32, [session_cipher_encrypt]
    returns the message and stores the sender's next state; and the entry point
    for the type of a message in the window of C2 (chain kept, at most 2000
    skipped keys on it, a generated ratchet key new) returns its plaintext the
    first time and [SG_ERR_DUPLICATE_MESSAGE] again, and leaves the receiver's
    next state stored.  A pre-key message is to be one of a session of the record,
    under the saved identity if there is one. *)
Theorem stored_sessions_deliver c0 c wx wy to_bob to_alice rx ry :
  conv_synced (net_x c0, net_y c0) -> to_y c0 = [] -> to_x c0 = [] -> net_reachable c0 c ->
  represents wx to_bob rx (net_x c) -> represents wy to_alice ry (net_y c) ->
  (forall pt out s', encrypt_with_state pt (p_state (net_x c)) = (Ok out, s') ->
    next_counter (p_state (net_x c)) + 1 < 2 ^ 32 ->
    exists wx' c', session_cipher_encrypt to_bob pt wx = (Ok out, wx') /\ net_step c None c' /\
      represents wx' to_bob (session_record_set_state s' rx) (net_x c') /\ net_y c' = net_y c /\
      to_y c' = to_y c ++ [mk_packet out pt false] /\ to_x c' = to_x c) /\
  (forall i e, to_y c !! i = Some e -> in_window (p_state (net_x c)) (net_y c) (to_x c) e ->
    acquainted wy to_alice ry (pkt_out e) ->
    exists wy' c', api_receive to_alice (pkt_out e) wy = (outcome e, wy') /\
      net_step c (Some (e, outcome e)) c' /\
      represents wy' to_alice (session_record_set_state (p_state (net_y c')) ry) (net_y c') /\
      net_x c' = net_x c /\ to_y c' = <[i := mark e]> (to_y c) /\ to_x c' = to_x c) /\
  net_reachable (net_swap c0) (net_swap c).
Proof.
  intros Hs Hy Hx Hr Hrx Hry. pose proof (net_reachable_inv c0 c (net_start c0 Hs Hy Hx) Hr) as Hc.
  split_and!; [|intros i e; by apply store_deliver|by apply net_reachable_swap].
  intros pt out s'. by apply store_send.
Qed.

(** C5: the X3DH agreement.  On valid key pairs Bob's set-up succeeds, and with
    Alice's it leaves two synchronised sessions: the same root and chain keys,
    derived from the same master secret. *)
Theorem x3dh_agreement k ga ga' a :
  x3dh_valid k ->
  ratcheting_session_alice_initialize (alice_of k) (ga, session_state_create) = (Ok tt, (ga', a)) ->
  exists b secret,
    ratcheting_session_bob_initialize (bob_of k) session_state_create = (Ok tt, b) /\
    alice_master_secret (alice_of k) = Ok secret /\ bob_master_secret (bob_of k) = Ok secret /\
    synced a b.
Proof.
  intros Hk Ha. destruct (bob_initialize_ok k session_state_create Hk) as (b & Hb).
  destruct (master_secret_agree k Hk) as (secret & H1 & H2).
  exists b, secret. split_and!; [done..|]. by eapply x3dh_synced.
Qed.

(* ------------------------------------------------------------------ *)
(** ** The receiving chain *)

(** C10: out of order, exactly once.  When message [n] of a chain is accepted, an
    earlier message [j] that was skipped is still decryptable, with the keys of
    its own link; a second delivery of [j] or of [n] is a duplicate and leaves
    the state as it is. *)
Theorem out_of_order_exactly_once s k c ck n j :
  session_state_find_receiver_chain s k = Some c -> receiver_chain_wf c -> chain_inv c ck ->
  ck_index ck <= j < n -> n <= ck_index ck + MAX_SKIP -> n + 1 < 2 ^ 32 ->
  exists s1 s2 next,
    session_cipher_get_or_create_message_keys k ck n s =
      (Ok (chain_message_keys (chain_iter (Z.to_nat (n - ck_index ck)) ck)), s1) /\
    session_state_get_receiver_chain_key s1 k = Some next /\ ck_index next = n + 1 /\
    session_cipher_get_or_create_message_keys k next n s1 = (Err SG_ERR_DUPLICATE_MESSAGE, s1) /\
    session_cipher_get_or_create_message_keys k next j s1 =
      (Ok (chain_message_keys (chain_iter (Z.to_nat (j - ck_index ck)) ck)), s2) /\
    session_cipher_get_or_create_message_keys k next j s2 = (Err SG_ERR_DUPLICATE_MESSAGE, s2).
Proof.
  intros Hf Hwf Hinv Hj Hn Hlt.
  destruct (receive_chain_inv s k c ck n Hf Hwf Hinv) as (s1 & c1 & E1 & Hf1 & Hinv1 & Hidx & Hne & Hin);
    [lia|done|].
  set (next := chain_iter (S (Z.to_nat (n - ck_index ck))) ck) in *.
  assert (chain_wf ck) as Hcw.
  { destruct Hwf as (_ & H & _). by rewrite (proj1 Hinv) in H. }
  specialize (Hin (Z.to_nat (j - ck_index ck)) ltac:(lia)).
  destruct (stored_key_once s1 k c1 next j _ Hf1 Hinv1 Hin) as (s2 & c2 & E2 & _ & _ & E3).
  { rewrite skipped_counter by (done || lia). lia. }
  exists s1, s2, next. split_and!; try done.
  - unfold session_state_get_receiver_chain_key. rewrite Hf1. apply Hinv1.
  - eapply no_key_duplicate; [exact Hf1|apply Hinv1|lia|done].
Qed.

(** C11: too far ahead.  A message more than 2000 links ahead of the chain is
    refused without changing the state. *)
Theorem too_far_ahead_refused s k ck n :
  chain_wf ck -> ck_index ck + MAX_SKIP < n -> n < 2 ^ 32 ->
  session_cipher_get_or_create_message_keys k ck n s = (Err SG_ERR_INVALID_MESSAGE, s).
Proof. apply too_far_rejected. Qed.

(** C12: invariants of the cipher.  Whatever the outcome of encryption or of
    decryption, the state it leaves is well formed (key lengths, 32-bit fields,
    at most 5 receiver chains and 2000 skipped keys) and survives storage. *)
Theorem cipher_keeps_storable v m pt :
  opt_all pub_wf (sm_sender_ratchet_key m) ->
  preserves (good v) (encrypt_with_state pt) /\
  preserves (fun p : rng * session_state => good v p.2)
    (session_cipher_decrypt_from_state_and_signal_message m).
Proof.
  intros Hk. split; [apply encrypt_with_state_good|by apply decrypt_from_state_good].
Qed.

(* ------------------------------------------------------------------ *)
(** ** Records and the store *)

(** C13: the record after a decryption.  A failed decryption leaves the record
    alone.  A successful one makes the state that decrypted, advanced, the
    current state; when it was an archived one it leaves the archive, and the
    former current state comes first in it. *)
Theorem decrypt_updates_record m g r :
  record_storable r -> opt_all pub_wf (sm_sender_ratchet_key m) ->
  match session_cipher_decrypt_from_record_and_signal_message m (g, r) with
  | (Ok pt, (g', r')) => decrypted m r pt r' /\ record_storable r'
  | (_, (g', r')) => r' = r
  end.
Proof. apply decrypt_record_cases. Qed.

(** C16: storing and loading a session.  A stored record is loaded with its
    states, its archive and the application's data, and no other session
    changes. *)
Theorem session_store_round_trip a r st :
  record_storable r ->
  exists st', signal_protocol_session_store_session a r st = (Ok 0, st') /\
    exists st'', signal_protocol_session_load_session a st' =
      (Ok (mk_record (rec_state r) (previous_states r) false (user_record r)), st'') /\
    view st'' = view st' /\
    forall b, b <> a -> v_sessions (view st') !! b = v_sessions (view st) !! b.
Proof. apply store_then_load_session. Qed.

(** the copy of a session state through its serialized form, on which
    decryption works, is the state itself. *)
Theorem session_state_copy_exact s : state_storable s -> session_state_copy s = Ok s.
Proof. apply session_state_copy_id. Qed.

(** re-entrancy.  Inside the decryption callback the three entry points
    answer [SG_ERR_INVAL] and change nothing, so a callback that encrypts makes
    the decryption fail. *)
Theorem callback_cannot_reenter a w pt m pm callback :
  inside_callback w = true ->
  session_cipher_encrypt a pt w = (Err SG_ERR_INVAL, w) /\
  session_cipher_decrypt_signal_message a callback m w = (Err SG_ERR_INVAL, w) /\
  session_cipher_decrypt_pre_key_signal_message a callback pm w = (Err SG_ERR_INVAL, w) /\
  forall w0 x, session_cipher_decrypt_callback
    (Some (fun _ => bind (session_cipher_encrypt a x) (fun _ => ret 0))) pt w0 =
    (Err SG_ERR_INVAL, set_inside false w0).
Proof.
  intros Hin. unfold session_cipher_encrypt, session_cipher_decrypt_signal_message,
    session_cipher_decrypt_pre_key_signal_message, session_cipher_decrypt_callback.
  unfold bind, get, fail. rewrite Hin. by destruct w.
Qed.

(** C36: identities.  A bundle or a pre-key message whose identity key is not
    the saved one of the contact is refused with [SG_ERR_UNTRUSTED_IDENTITY],
    before anything is written. *)
Theorem untrusted_identity_refused a w bundle pm key r saved :
  bundle_identity_key bundle = Some key -> pkm_identity_key pm = Some key ->
  v_trusted (view (w_store w)) !! a = Some saved -> saved <> ser key ->
  (exists w', session_builder_process_pre_key_bundle a bundle w = (Err SG_ERR_UNTRUSTED_IDENTITY, w') /\
    view (w_store w') = view (w_store w) /\ w_rng w' = w_rng w) /\
  (exists s', session_builder_process_pre_key_signal_message a pm (w_store w, r) =
    (Err SG_ERR_UNTRUSTED_IDENTITY, (s', r)) /\ view s' = view (w_store w)).
Proof.
  intros Hb Hp Ht Hne. destruct (is_trusted_spec a (ser key) (w_store w)) as (s' & E & Hv).
  unfold view_is_trusted in *. simpl in E, Hv. rewrite Ht, decide_False in E by done. split.
  - eexists. unfold session_builder_process_pre_key_bundle. rewrite Hb.
    unfold bind at 1, in_store at 1, zoom at 1.
    assert (signal_protocol_identity_is_trusted_identity a (Some key) (w_store w) = (Ok 0, s')) as ->
      by exact E.
    by split_and!.
  - exists s'. split; [|done]. unfold session_builder_process_pre_key_signal_message. rewrite Hp.
    unfold bind at 1, on_fst at 1, zoom at 1. cbn [fst snd].
    assert (signal_protocol_identity_is_trusted_identity a (Some key) (w_store w) = (Ok 0, s')) as ->
      by exact E.
    done.
Qed.


End parties.

(* ------------------------------------------------------------------ *)
(** ** Failed calls, with callbacks that may fail *)

Section failures.
Context `{CP : CryptoProvider} {CL : CryptoProviderLaws CP} `{CV : Curve25519}.
Context {ST : SignalStore} {SV : StoreContent ST} {FL : FallibleStoreLaws ST SV}.
Context {SC : Codec SessionStructure} {RC : Codec RecordStructure}.
Context {MC : Codec SignalMessage} {PC : Codec PreKeySignalMessage}.
Context {PK : Codec PreKeyRecordStructure} {SPK : Codec SignedPreKeyRecordStructure}.

(** C14: failed calls.  When encryption or decryption fails, for whatever reason,
    a failing store callback included, the content of the store is what it was.
    A failing callback is taken to have changed nothing, and the decryption
    callback not to write to the store itself. *)
Theorem failed_call_keeps_store a pt callback m :
  harmless (fun v => v) callback ->
  keeps_on_failure (observed (fun v => v)) (session_cipher_encrypt a pt) /\
  keeps_on_failure (observed (fun v => v)) (session_cipher_decrypt_signal_message a callback m).
Proof. intros Hc. split; [apply encrypt_failure|by apply decrypt_failure]. Qed.

(** C15: failed pre-key messages.  When decrypting a pre-key message fails, a
    failing store callback included, the stored pre-keys and signed pre-keys are
    what they were, so the one-time pre-key is not used up; the stored sessions
    are too, unless what failed is the very last action, the removal of the
    one-time pre-key of the message: the session of the sender, and no other, is
    then already replaced, and the call returns the error of the removal.  A
    failing store callback is taken to have changed nothing, and the decryption
    callback not to write sessions or pre-keys. *)
Theorem failed_pre_key_message_keeps_keys a callback m w r w' :
  harmless sessions_and_keys callback ->
  session_cipher_decrypt_pre_key_signal_message a callback m w = (r, w') -> (forall pt, r <> Ok pt) ->
  v_pre_keys (view (w_store w')) = v_pre_keys (view (w_store w)) /\
  v_signed_pre_keys (view (w_store w')) = v_signed_pre_keys (view (w_store w)) /\
  (v_sessions (view (w_store w')) = v_sessions (view (w_store w)) \/
   exists st e data user,
     pkm_has_pre_key_id m = true /\ pkm_pre_key_id m <> PRE_KEY_MEDIUM_MAX_VALUE /\
     remove_pre_key (pkm_pre_key_id m) st = (Err e, w_store w') /\ r = Err e /\
     v_sessions (view (w_store w')) = <[a := (data, user)]> (v_sessions (view (w_store w)))).
Proof.
  intros Hc H Hfail. destruct (pre_key_decrypt_failure a callback m w r w' Hc H Hfail)
    as [[= H1 H2 H3]|(st & e & data & u & P1 & P2 & P3 & P4 & [= H1 H2 H3])].
  - by split_and!; [..|left].
  - split_and!; [done|done|]. right. by exists st, e, data, u.
Qed.

End failures.

(** reachable states.  Every session state the library's mutators can
    produce from a new one, in any order and number, is well formed. *)
Theorem reachable_states_wf s : rtc state_step session_state_create s -> state_wf s.
Proof.
  intros H. pose proof session_state_create_wf as H0.
  induction H as [|x y z Hs _ IH]; [done|]. apply IH. by eapply state_step_wf.
Qed.

(* ------------------------------------------------------------------ *)
(** ** Messages on the wire *)

Section wire.
Context `{CP : CryptoProvider} {CL : CryptoProviderLaws CP}.
Context {MC : Codec SignalMessage} {MCL : CodecLaws SignalMessage MC SignalMessage_ok}.
Context {PC : Codec PreKeySignalMessage} {PCL : CodecLaws PreKeySignalMessage PC PreKeySignalMessage_ok}.

(** C38: authentication.  The MAC check of a message accepts exactly when its
    last 8 bytes are the truncated HMAC, under the message's MAC key, of the two
    identity keys (from version 3 on) and of everything before them. *)
Theorem mac_accepts_iff m s r mk data :
  msg_serialized m = Some data ->
  signal_message_verify_mac m (Some s) (Some r) mk = Ok true <->
  exists body, data = body ++ take SIGNAL_MESSAGE_MAC_LENGTH
    (HMAC mk (mac_input (message_version m) s r body)).
Proof.
  intros Hd. split.
  - intros H. by eapply verify_mac_sound.
  - intros (body & E). apply (verify_mac_complete _ _ _ _ body). by rewrite Hd, E.
Qed.

(** messages are parsed back.  What [signal_message_create] makes, for a
    current version and arguments in the range of their C types, is what
    [signal_message_deserialize] reads from its bytes, and the receiver's MAC
    check with the same keys accepts it; a pre-key message made around it is
    parsed back with the message inside. *)
Theorem messages_parse version mk rk n pn ct s r m :
  2 <= version <= 3 -> pub_wf rk -> is_u32 n -> is_u32 pn ->
  signal_message_create version mk rk n pn ct (Some s) (Some r) = Ok m ->
  (exists data, msg_serialized m = Some data /\ signal_message_deserialize data = Ok m /\
    signal_message_verify_mac m (Some s) (Some r) mk = Ok true) /\
  forall reg id sid bk ik pm,
    pub_wf bk -> pub_wf ik -> is_u32 reg -> opt_u32 id -> is_u32 sid ->
    version = CIPHERTEXT_CURRENT_VERSION ->
    pre_key_signal_message_create version reg id sid bk ik m = Ok pm ->
    exists data, pkm_serialized pm = Some data /\ pre_key_signal_message_deserialize data = Ok pm.
Proof.
  intros Hv Hk Hn Hpn Hm. pose proof (signal_message_round_trip _ _ _ _ _ _ _ _ _ Hv Hk Hn Hpn Hm) as Hc. split.
  - unfold signal_message_copy in Hc. destruct (msg_serialized m) as [data|]; [|done].
    exists data. split_and!; [done|done|]. by eapply verify_mac_create.
  - intros reg id sid bk ik pm Hbk Hik Hreg Hid Hsid Hver Hpm.
    pose proof Hpm as (d & _ & E)%pre_key_signal_message_create_inv. rewrite Hver in *.
    eexists. assert (pkm_serialized pm = Some _) as Hs by (rewrite E; reflexivity). split; [exact Hs|].
    apply (pre_key_signal_message_round_trip reg id sid bk ik m pm); try done.
    by apply signal_message_create_inv in Hm as ->.
Qed.

(* ------------------------------------------------------------------ *)
(** ** Key derivation *)

(** C39: key derivation is HKDF.  [hkdf_derive_secrets] computes the HKDF of RFC
    5869 over the provider's HMAC, with block numbers from 1 (version 3) or 0
    (version 2), as long as the number of blocks plus the first number is at most
    255, so that the last block has number 254 at most: 254 blocks (8128 bytes)
    for version 3, 255 blocks for version 2.  The one more block RFC 5869 allows
    is the first length for which the loop does not end (C40). *)
Theorem hkdf_is_rfc5869 version c ikm salt info len :
  hkdf_create version = Ok c ->
  hkdf_iterations len + iteration_start_offset c <= 255 ->
  hkdf_derive_secrets c ikm salt (Some info) len =
    Ok (hkdf_spec (if version =? 3 then 1 else 0) ikm salt info len) /\
  length (hkdf_spec (if version =? 3 then 1 else 0) ikm salt info len) = len.
Proof.
  intros Hc Hl. pose proof (hkdf_create_wf version c Hc) as Hw.
  assert ((if version =? 3 then 1 else 0) = iteration_start_offset c) as ->.
  { unfold hkdf_create in Hc. destruct (Z.eqb_spec version 2) as [->|]; [by injection Hc as <-|].
    by destruct (version =? 3); [injection Hc as <-|]. }
  split; [by apply hkdf_derive_secrets_ok|apply length_hkdf_spec].
Qed.

(** C40: long derivations never end.  When the block number would exceed 255 the
    8-bit loop counter wraps and the expansion loop does not terminate, for any
    number of rounds: 8160 bytes, the maximum RFC 5869 allows, is out of reach
    for version 3.  (For lengths of 2^36 bytes and more the conversion to [int] of
    the number of blocks is not modelled: see [hkdf_iterations].) *)
Theorem hkdf_too_long_diverges c prk info len :
  hkdf_wf c -> 255 < hkdf_iterations len + iteration_start_offset c ->
  hkdf_expand c prk info len = Stuck /\
  forall rounds, hkdf_expand_loop rounds (hkdf_iterations len + iteration_start_offset c) prk info
    (iteration_start_offset c) None [] len = Stuck.
Proof.
  intros Hc Hl. split; [|intros rounds]; apply hkdf_expand_loop_diverges; try done; destruct Hc; lia.
Qed.

Context `{CV : Curve25519} {CVL : Curve25519Laws CV}.

(** the symmetric ratchet.  On a well-formed chain key the message keys and
    the next link are the specified ones: cipher key, MAC key and IV are the
    80 bytes derived from HMAC(key, 1), the next key is HMAC(key, 2), and the
    index advances by one modulo 2^32. *)
Theorem chain_step_spec ck :
  chain_wf ck ->
  ratchet_chain_key_get_message_keys ck = Ok (chain_message_keys ck) /\
  ratchet_chain_key_create_next ck = Ok (chain_next ck) /\
  keys_wf (chain_message_keys ck) /\ chain_wf (chain_next ck) /\
  ck_index (chain_next ck) = (ck_index ck + 1) mod 2 ^ 32.
Proof.
  intros H. split_and!; [by apply get_message_keys_ok|apply create_next_ok|
    by apply chain_message_keys_wf|by apply chain_next_wf|done].
Qed.

(** the Diffie-Hellman ratchet.  Two parties with the same root key and
    valid ratchet key pairs derive the same next root key and chain key. *)
Theorem root_step_agrees rk p q :
  root_wf rk -> valid_pair p -> valid_pair q ->
  exists next, ratchet_root_key_create_chain rk (Some (public_key q)) (Some (private_key p)) = Ok next /\
    ratchet_root_key_create_chain rk (Some (public_key p)) (Some (private_key q)) = Ok next /\
    root_wf next.1 /\ chain_wf next.2 /\ ck_index next.2 = 0.
Proof.
  intros Hr Hp Hq. destruct (agreement_comm p q Hp Hq) as (s & _ & H1 & H2).
  exists (root_step rk s). split_and!; [by apply create_chain_ok..|apply root_step_wf; done|
    apply root_step_wf; done|done].
Qed.

(** generated keys.  A generated private key is a clamped 32-byte scalar,
    the public key belongs to it, and any two generated pairs agree on a shared
    secret. *)
Theorem generated_keys_agree g p g' h q h' :
  curve_generate_key_pair g = (Ok p, g') -> curve_generate_key_pair h = (Ok q, h') ->
  valid_pair p /\
  (exists b0 b31, priv_data (private_key p) !! 0%nat = Some b0 /\
    priv_data (private_key p) !! 31%nat = Some b31 /\
    Z.land (byte_val b0) 7 = 0 /\ Z.land (byte_val b31) 192 = 64) /\
  exists s, curve_calculate_agreement (Some (public_key q)) (Some (private_key p)) = Ok s /\
    curve_calculate_agreement (Some (public_key p)) (Some (private_key q)) = Ok s.
Proof.
  intros Hp Hq. destruct (curve_generate_key_pair_valid _ _ _ Hp) as [Vp _].
  destruct (curve_generate_key_pair_valid _ _ _ Hq) as [Vq _]. split_and!; [done| |].
  - apply curve_generate_clamped in Hp as (d & Hl & E). rewrite E. by apply clamp_bits.
  - destruct (agreement_comm p q Vp Vq) as (s & _ & H). eauto.
Qed.

End wire.

(* ------------------------------------------------------------------ *)
(** ** Keys *)

(** public keys are canonical.  [curve_decode_point] accepts exactly the
    33-byte strings that start with the type byte 5, and the decoded key
    serializes to the same bytes. *)
Theorem decode_point_canonical d k :
  curve_decode_point d = Ok k <->
  pub_wf k /\ ec_public_key_serialize (Some k) = Ok d.
Proof.
  split.
  - intros [Hw ->]%curve_decode_point_ok. split; [done|]. cbn [ec_public_key_serialize].
    by rewrite take_ge by (rewrite Hw; done).
  - intros [Hw Hs]. injection Hs as <-. exact (curve_decode_serialize k Hw).
Qed.

(** roles.  Two parties that start a symmetric session with distinct base
    keys never take the same role. *)
Theorem symmetric_roles_differ p q :
  sym_their_base_key p = public_key (sym_our_base_key q) ->
  sym_their_base_key q = public_key (sym_our_base_key p) ->
  pub_wf (sym_their_base_key p) -> pub_wf (sym_their_base_key q) ->
  sym_their_base_key p <> sym_their_base_key q ->
  ratcheting_session_symmetric_is_alice p = negb (ratcheting_session_symmetric_is_alice q).
Proof.
  intros Hp Hq Hw Hw' Hne. unfold ratcheting_session_symmetric_is_alice, ec_public_key_memcmp.
  rewrite <- Hp, <- Hq. unfold pub_wf in *. rewrite !take_ge by lia.
  rewrite (memcmp_antisym (pub_data (sym_their_base_key q))).
  assert (memcmp (pub_data (sym_their_base_key q)) (pub_data (sym_their_base_key p)) <> 0) as Hn.
  { rewrite memcmp_zero by lia. intros E. apply Hne.
    by destruct (sym_their_base_key p), (sym_their_base_key q); simpl in E; subst. }
  destruct (Z.ltb_spec (memcmp (pub_data (sym_their_base_key q)) (pub_data (sym_their_base_key p))) 0),
    (Z.ltb_spec (- memcmp (pub_data (sym_their_base_key q)) (pub_data (sym_their_base_key p))) 0);
    (done || lia).
Qed.

Section pre_keys.
Context {PK : Codec PreKeyRecordStructure} {PKL : CodecLaws _ PK PreKeyRecordStructure_ok}.
Context {SPK : Codec SignedPreKeyRecordStructure}
  {SPKL : CodecLaws _ SPK SignedPreKeyRecordStructure_ok}.
Context {IK : Codec IdentityKeyPairStructure} {IKL : CodecLaws _ IK (fun _ => True)}.

(** keys survive storage.  Pre-keys, signed pre-keys and identity key pairs
    are read back from their serialized form. *)
Theorem keys_store_round_trip k sk i :
  pre_key_wf k -> signed_pre_key_wf sk -> pub_wf (id_public i) -> priv_wf (id_private i) ->
  (exists data, session_pre_key_serialize (Some k) = Ok data /\ session_pre_key_deserialize data = Ok k) /\
  (exists data, session_signed_pre_key_serialize sk = Ok data /\
    session_signed_pre_key_deserialize data = Ok sk) /\
  (exists data, ratchet_identity_key_pair_serialize (Some i) = Ok data /\
    ratchet_identity_key_pair_deserialize data = Ok i).
Proof.
  intros Hk Hsk Hp Hq. split_and!; [by apply session_pre_key_store_load|
    by apply session_signed_pre_key_store_load|by apply identity_store_load].
Qed.

End pre_keys.

(* ------------------------------------------------------------------ *)
(** ** Defects *)

(** a defect.  The result of decoding the sender chain of a stored session
    is ignored: a session that is otherwise empty and whose sender ratchet key
    does not decode loads successfully, marked as having a sender chain, with
    null keys in it. *)
Theorem bad_sender_chain_ignored key priv e :
  curve_decode_point key = Err e ->
  exists s, session_state_deserialize_protobuf
      (mk_SessionStructure None None None None None (Some (mk_Chain (Some key) (Some priv) None []))
         [] None None None None None None) = Ok s /\
    has_sender_chain s = true /\ session_state_get_sender_ratchet_key_pair s = None /\
    session_state_get_sender_chain_key s = None.
Proof.
  intros He. unfold session_state_deserialize_protobuf, decode_sender_chain,
    session_state_deserialize_protobuf_sender_chain, decode_pair. cbn. rewrite He. cbn. by eexists.
Qed.

(** a defect.  A stored session of an unknown version with a receiver chain
    that has a chain key is not refused with an error code: after the failing
    [hkdf_create] the clean-up uses the freed key derivation context. *)
Theorem unknown_version_uses_freed_kdf version c index key :
  i32 version <> 2 -> i32 version <> 3 ->
  Chain_senderratchetkey c = None -> Chain_chainkey c = Some (mk_ChainKey (Some index) (Some key)) ->
  session_state_deserialize_protobuf
    (mk_SessionStructure (Some version) None None None None None [c] None None None None None None) = Stuck.
Proof.
  intros H2 H3 Hs Hc. unfold session_state_deserialize_protobuf. cbn.
  unfold session_state_deserialize_protobuf_receiver_chain. rewrite Hs, Hc. cbn.
  unfold hkdf_create. rewrite (proj2 (Z.eqb_neq _ _) H2), (proj2 (Z.eqb_neq _ _) H3). done.
Qed.

Section bundle_defect.
Context `{CP : CryptoProvider} `{CV : Curve25519} {ST : SignalStore} {SL : SignalStoreLaws ST}.
Context {RC : Codec RecordStructure}.
Context {PK : Codec PreKeyRecordStructure} {SPK : Codec SignedPreKeyRecordStructure}.

(** a defect.  A bundle with a signed pre-key and no signature, which
    [session_pre_key_bundle_create] builds from an empty one, is not refused:
    the null signature buffer is dereferenced. *)
Theorem unsigned_bundle_null_dereference a w reg dev id spk sid key :
  unknown (view (w_store w)) a ->
  exists bundle w', session_pre_key_bundle_create reg dev id None sid (Some spk) (Some []) (Some key)
      = Ok bundle /\
    session_builder_process_pre_key_bundle a bundle w = (Stuck, w').
Proof.
  intros Hun. destruct (is_trusted_unknown (w_store w) a key Hun) as (s1 & E1 & V1).
  eexists _, (mk_world (w_rng w) s1 (inside_callback w)). split; [done|].
  unfold session_builder_process_pre_key_bundle, bind, in_store, zoom, lift.
  cbn [bundle_identity_key bundle_signed_pre_key_public bundle_signed_pre_key_signature]. by rewrite E1.
Qed.

End bundle_defect.
