(* ===== verification/GroupGuarantees.v ===== *)
(** The guarantees of group messaging, of the safety numbers and of the device
    consistency codes, and of the key helper.  [GroupWitnesses] evaluates each
    of them on concrete inputs. *)

From S2P Require Import Prelude Buffers Vpool Crypto Hkdf Curve Ratchet SessionState LocalStorage.
From S2P Require Import SessionSerial Protocol RatchetSession SessionRecord SessionPreKey Store KeyHelper.
From S2P Require Import SenderKey SenderKeyRecord GroupMessages Group GroupConversation GroupApi.
From S2P Require Import KeyList Fingerprint DeviceConsistency.

(* ------------------------------------------------------------------ *)
(** ** Groups *)

Section group_failures.
Context `{CP : CryptoProvider} `{CV : Curve25519}.
Context {SK : SenderKeyStore} {SKV : SenderKeyContent SK} {SKF : FallibleSenderKeyStoreLaws SK SKV}.
Context {SKRC : Codec SenderKeyRecordStructure}.
Context {SKMC : Codec SenderKeyMessage} {SKDC : Codec SenderKeyDistributionMessage}.

(** C18: failed group calls.  When encrypting, decrypting or processing a
    distribution message fails, for whatever reason, a failing store callback
    included, the stored sender keys are what they were; inside the decryption
    callback both ciphers answer [SG_ERR_INVAL] and change nothing.  A failing
    store callback is taken to have changed nothing, and the decryption callback
    not to write sender keys. *)
Theorem group_failed_call_keeps_keys name callback m pt dm :
  group_harmless callback ->
  keeps_on_failure stored_keys (group_cipher_encrypt name pt) /\
  keeps_on_failure stored_keys (group_cipher_decrypt name callback m) /\
  keeps_on_failure stored_keys (group_session_builder_process_session name dm) /\
  forall w, gw_inside_callback w = true ->
    group_cipher_encrypt name pt w = (Err SG_ERR_INVAL, w) /\
    group_cipher_decrypt name callback m w = (Err SG_ERR_INVAL, w).
Proof.
  intros Hc. split_and!; [apply group_encrypt_failure|by apply group_decrypt_failure|
    apply process_session_failure|].
  intros w Hw. unfold group_cipher_encrypt, group_cipher_decrypt, map_error, bind, get, fail. by rewrite Hw.
Qed.

End group_failures.

Section groups.
Context `{CP : CryptoProvider} {CL : CryptoProviderLaws CP}.
Context `{CV : Curve25519} {CVL : Curve25519Laws CV} {CSL : Curve25519SignatureLaws CV}.
Context {SK : SenderKeyStore} {SKL : SenderKeyStoreLaws SK}.
Context {SKRC : Codec SenderKeyRecordStructure}
  {SKRL : CodecLaws SenderKeyRecordStructure SKRC SenderKeyRecordStructure_ok}.
Context {SKMC : Codec SenderKeyMessage} {SKML : CodecLaws SenderKeyMessage SKMC SenderKeyMessage_ok}.
Context {SKDC : Codec SenderKeyDistributionMessage}
  {SKDL : CodecLaws SenderKeyDistributionMessage SKDC SenderKeyDistributionMessage_ok}.

(** C4: group messages, in any order and exactly once.  A member processes the
    distribution message a sender made, parsed from its bytes; after any sequence
    of sendings and of deliveries (out of order, repeated, or lost), each sent
    message parses back from its bytes; one that was not decrypted yet decrypts
    to its plaintext (up to 2000 links ahead, with at most 2000 skipped messages
    outstanding), and one that was is a duplicate that changes no stored key. *)
Theorem group_delivers_once ns nm c0 c i m pt data :
  group_initial ns nm c0 -> group_reachable ns nm c0 c ->
  gc_sent c !! i = Some (m, pt) -> skm_serialized m = Some data -> fits data ->
  sender_key_message_deserialize data = Ok m /\
  (i ∉ gc_seen c -> deliverable i (gc_seen c) ->
     exists wm, group_cipher_decrypt nm None m (gc_member c) = (Ok pt, wm)) /\
  (i ∈ gc_seen c ->
     exists wm, group_cipher_decrypt nm None m (gc_member c) = (Err SG_ERR_DUPLICATE_MESSAGE, wm) /\
       stored_keys wm = stored_keys (gc_member c)).
Proof.
  intros H0 Hr Hi Hser Hf. destruct (group_reachable_inv ns nm c0 c H0 Hr) as (base & id & p & Hs & Hm & Hb & Hsent).
  pose proof (Hsent _ _ _ Hi) as Hmsg. apply lookup_lt_Some in Hi. split_and!.
  - by apply Hmsg.
  - intros Hns [Hskip Hroom]. rewrite reach_cons in Hroom.
    destruct (decrypt_delivers _ _ _ _ _ _ _ _ _ _ Hm Hmsg Hns Hskip ltac:(lia) Hroom) as (wm & E & _). eauto.
  - intros Hin. destruct (decrypt_duplicate _ _ _ _ _ _ _ _ _ _ Hm Hmsg Hin) as (wm & E & Hv & _). eauto.
Qed.

(** C17: group authenticity.  A message that decrypts ends in a signature of
    everything before it, valid under the signature key that was stored for the
    message's key id, with a 64-byte signature. *)
Theorem group_decrypt_authenticated w name callback m pt w' r :
  sk_holds (sender_keys (gw_store w)) name r ->
  group_cipher_decrypt name callback m w = (Ok pt, w') ->
  exists i s body sig, sender_key_record_get_sender_key_state_by_id r (skm_key_id m) = Ok (i, s) /\
    skm_serialized m = Some (body ++ sig) /\ length sig = SIGNATURE_LENGTH /\
    curve25519_verify sig (pub_data (sks_signature_public_key s)) body = true.
Proof.
  intros Hh Hd. destruct (group_decrypt_verified _ _ _ _ _ _ _ Hh Hd) as (i & s & Hf & Hv).
  destruct (verify_signature_inv _ _ Hv) as (body & sig & H). by exists i, s, body, sig.
Qed.

(** group messages too far ahead.  A signed message more than 2000 links
    ahead of the stored chain is refused as invalid, and no stored key changes. *)
Theorem group_too_far_ahead_refused w name r callback m i s :
  gw_inside_callback w = false -> sk_holds (sender_keys (gw_store w)) name r ->
  sender_key_record_get_sender_key_state_by_id r (skm_key_id m) = Ok (i, s) ->
  sender_key_message_verify_signature m (sks_signature_public_key s) = Ok tt ->
  is_u32 (sck_iteration (sks_chain_key s)) -> is_u32 (skm_iteration m) ->
  sck_iteration (sks_chain_key s) + GROUP_MAX_SKIP < skm_iteration m ->
  exists w', group_cipher_decrypt name callback m w = (Err SG_ERR_INVALID_MESSAGE, w') /\
    stored_keys w' = stored_keys w.
Proof.
  intros Hin Hh Hf Hv Hs Hm Hlt. destruct (load_sender_key_held _ _ _ Hh) as (st1 & E1 & V1).
  exists (mk_group_world (gw_rng w) st1 (gw_inside_callback w)). split; [|exact V1].
  unfold group_cipher_decrypt, map_error, bind at 1, get at 1. rewrite Hin.
  unfold bind at 1, in_group_store at 1, zoom at 1. rewrite E1.
  assert (sender_key_record_is_empty r = false) as ->.
  { unfold sender_key_record_is_empty, sender_key_record_get_sender_key_state_by_id in *.
    by destruct (skr_states r). }
  unfold bind at 1 2, lift at 1 2. rewrite Hf, Hv. cbn iota. rewrite (group_too_far _ _ Hs Hm Hlt).
  by rewrite Hin.
Qed.

(** sender keys in the store.  Adding the keys of a distribution message puts
    them in front of the record, which keeps the 5 newest states; the record is
    serialized, and reads back with the same states. *)
Theorem sender_keys_stored id n ck pub r :
  skr_wf r -> is_u32 id -> is_u32 n -> pub_wf pub -> fits ck ->
  exists r' data,
    sender_key_record_add_sender_key_state id n (Some ck) (Some pub) r = Ok r' /\
    skr_states r' = take MAX_STATES (mk_sks id (mk_sck n ck) pub None [] :: skr_states r) /\
    skr_wf r' /\ sender_key_record_serialize r' = Ok data /\
    sender_key_record_deserialize data = Ok (mk_skr (skr_states r') None).
Proof.
  intros Hr Hid Hn Hp Hck.
  assert (exists r', sender_key_record_add_sender_key_state id n (Some ck) (Some pub) r = Ok r') as (r' & E).
  { unfold sender_key_record_add_sender_key_state, sender_key_record_add_sender_key_state_impl,
      sender_chain_key_create, signal_buffer_copy.
    cbn [require rbind]. rewrite signal_buffer_create_fits by done. cbn [require rbind]. by eexists. }
  pose proof E as [Hr' (s & Hst & Hk & Es)]%add_state_wf; [|done..].
  destruct (sender_key_record_store_load r' Hr') as (data & H1 & H2).
  exists r', data. injection Hk as Hk. rewrite <- Hk in Es. split_and!; [done| |done..]. by rewrite Hst, <- Es.
Qed.

End groups.

(* ------------------------------------------------------------------ *)
(** ** Safety numbers *)

Section fingerprints.
Context `{SP : Sha512Provider} {SL : Sha512Laws SP}.
Context {FC : Codec CombinedFingerprints} {FL : CodecLaws CombinedFingerprints FC CombinedFingerprints_ok}.

(** A stable identifier: a C string of less than 4 GB. *)
Definition identifier_ok (i : bytes) : Prop :=
  Forall (fun c => c <> x00) i /\ Z.of_nat (length i) < 2 ^ 32.

Lemma identifier_party_fits i k : identifier_ok i -> (length k <= 4096)%nat -> party_fits i k.
Proof.
  intros [_ Hi] Hk. unfold party_fits, fits, signal_buffer_alloc_ok, SIZE_MAX, signal_buffer_header.
  rewrite !length_app. cbn [length]. rewrite (proj2 (Z.ltb_ge _ _)); [done|lia].
Qed.

Lemma sorted_key_bytes_fit l : (length l <= 124)%nat -> (length (key_bytes (ec_public_key_list_sort l)) <= 4096)%nat.
Proof.
  intros Hl. pose proof (length_key_bytes (ec_public_key_list_sort l)) as H. rewrite length_sort in H. lia.
Qed.

(** C19: safety numbers.  Two parties that know the same identity keys of both, in
    any order, compute the same 60 digits, and the code one of them shows, when
    the other scans it, is accepted.  This is for generators of version 0 or 1
    with at least one iteration, up to 124 keys of each party, and identifiers
    without a zero byte and shorter than 2^32. *)
Theorem fingerprints_agree g a_id a_keys a_keys' b_id b_keys b_keys' :
  generator_wf g -> identifier_ok a_id -> identifier_ok b_id ->
  Forall pub_wf a_keys -> Forall pub_wf b_keys ->
  (length a_keys <= 124)%nat -> (length b_keys <= 124)%nat ->
  a_keys ≡ₚ a_keys' -> b_keys ≡ₚ b_keys' ->
  exists fa fb code,
    fingerprint_generator_create_for_list g a_id a_keys b_id b_keys = Ok fa /\
    fingerprint_generator_create_for_list g b_id b_keys' a_id a_keys' = Ok fb /\
    df_display_text (fp_displayable fa) = df_display_text (fp_displayable fb) /\
    length (df_display_text (fp_displayable fa)) = 60%nat /\
    Forall is_digit (df_display_text (fp_displayable fa)) /\
    scannable_fingerprint_serialize (fp_scannable fb) = Ok code /\
    rbind (scannable_fingerprint_deserialize code) (scannable_fingerprint_compare (fp_scannable fa)) = Ok true.
Proof.
  intros Hg Ha Hb Hwa Hwb Hla Hlb Hpa Hpb.
  unfold fingerprint_generator_create_for_list.
  rewrite (get_logical_key_bytes_ok a_keys), (get_logical_key_bytes_ok b_keys) by done.
  rewrite (get_logical_key_bytes_ok a_keys') by (by rewrite <- Hpa).
  rewrite (get_logical_key_bytes_ok b_keys') by (by rewrite <- Hpb). cbn [rbind].
  rewrite <- (sort_Permutation a_keys a_keys'), <- (sort_Permutation b_keys b_keys') by done.
  pose proof (identifier_party_fits a_id _ Ha (sorted_key_bytes_fit a_keys Hla)) as Fa.
  pose proof (identifier_party_fits b_id _ Hb (sorted_key_bytes_fit b_keys Hlb)) as Fb.
  set (ka := key_bytes (ec_public_key_list_sort a_keys)) in *.
  set (kb := key_bytes (ec_public_key_list_sort b_keys)) in *.
  rewrite !create_for_impl_ok by done. cbv zeta.
  pose proof (scannable_of_wf g b_id kb a_id ka Hg Fb Fa (proj1 Hb) (proj1 Ha)) as Hw.
  pose proof (scannable_round_trip _ Hw) as (code & Hs & Hd)%rbind_ok.
  do 2 eexists. exists code. split_and!; [done|done|..]; cbn [fp_displayable df_display_text fp_scannable].
  - apply ordered_text_symmetric.
  - unfold display_of. case_match; rewrite length_app, !(proj1 (encoded_chunks_ok _ _ _)); done.
  - unfold display_of. case_match; apply Forall_app; split; apply encoded_chunks_ok.
  - exact Hs.
  - rewrite Hd. cbn [rbind]. apply scannable_compare_iff; [done|]. by case_match.
Qed.

(** C20: scanning detects a substituted key.  When the two parties compute their
    codes from one identity key each, the scanned code is accepted exactly when
    both know the same keys (version 0), or when the truncated hashes of what
    they know agree (version 1). *)
Theorem scan_detects_substitution g a_id b_id ka kb ka' kb' :
  generator_wf g -> identifier_ok a_id -> identifier_ok b_id ->
  pub_wf ka -> pub_wf kb -> pub_wf ka' -> pub_wf kb' ->
  exists fa fb,
    fingerprint_generator_create_for g a_id (Some ka) b_id (Some kb) = Ok fa /\
    fingerprint_generator_create_for g b_id (Some kb') a_id (Some ka') = Ok fb /\
    (scannable_fingerprint_compare (fp_scannable fa) (fp_scannable fb) = Ok true <->
     if fg_scannable_version g =? 0 then ka = ka' /\ kb = kb'
     else let f i k := take 32 (fingerprint_of (fg_iterations g) i (DJB_TYPE :: pub_data k)) in
       f a_id ka = f a_id ka' /\ f b_id kb = f b_id kb').
Proof.
  intros Hg Ha Hb Hka Hkb Hka' Hkb'. unfold fingerprint_generator_create_for. cbn [ec_public_key_serialize rbind].
  unfold pub_wf in *. rewrite !take_ge by (unfold DJB_KEY_LEN in *; lia).
  assert (forall i k, identifier_ok i -> length (pub_data k) = DJB_KEY_LEN ->
    party_fits i (DJB_TYPE :: pub_data k)) as Hf.
  { intros i k Hi Hk. apply identifier_party_fits; [done|]. cbn [length]. unfold DJB_KEY_LEN in *. lia. }
  rewrite !create_for_impl_ok by auto. cbv zeta. do 2 eexists. split_and!; [done|done|].
  cbn [fp_scannable]. rewrite scannable_compare_iff by done.
  case_match; [|done]. split; intros [H1 H2]; [|by subst].
  destruct ka, kb, ka', kb'. simpl in *. by simplify_eq.
Qed.

End fingerprints.

(* ------------------------------------------------------------------ *)
(** ** Device consistency *)

Section devices.
Context `{CP : CryptoProvider} {CL : CryptoProviderLaws CP}.
Context `{CV : Curve25519} {CVL : Curve25519Laws CV}.
Context `{SP : Sha512Provider} {SL : Sha512Laws SP}.
Context `{XV : Xveddsa} {XVL : XveddsaLaws XV CV}.
Context {DC : Codec DeviceConsistencyCodeMessage}
  {DL : CodecLaws DeviceConsistencyCodeMessage DC DeviceConsistencyCodeMessage_ok}.

(** C21: device consistency.  Devices that know the same identity keys, in any
    order, commit to the same bytes; each accepts the messages the others made
    with their keys, as the same messages; and whatever the order in which it
    collected the signatures, it shows the same six digits. *)
Theorem device_codes_agree generation keys keys' c pairs ms signatures :
  is_u32 generation -> Forall pub_wf keys -> keys ≡ₚ keys' ->
  device_consistency_commitment_create generation keys = Ok c ->
  Forall2 (fun p m => signing_pair p /\ fits (dcm_serialized m) /\
    exists g g', device_consistency_message_create_from_pair c p g = (Ok m, g')) pairs ms ->
  signatures ≡ₚ map dcm_signature ms ->
  device_consistency_commitment_create generation keys' = Ok c /\
  Forall2 (fun p m => device_consistency_message_create_from_serialized c (dcm_serialized m)
    (Some (public_key p)) = Ok m) pairs ms /\
  exists code,
    device_consistency_code_generate_for c (map dcm_signature ms) = Ok code /\
    device_consistency_code_generate_for c signatures = Ok code /\
    length code = 6%nat /\ Forall is_digit code.
Proof.
  intros Hgen Hk Hp Hc Hms Hs. rewrite commitment_create_ok in *. injection Hc as <-. split_and!.
  - unfold commitment_of. by rewrite (sort_Permutation keys keys').
  - eapply Forall2_impl; [exact Hms|]. intros p m (Hsp & Hf & g & g' & Hm). simpl.
    by eapply device_message_round_trip.
  - rewrite !code_generate_ok. eexists. split; [done|]. split; [by rewrite (sorted_outputs_Permutation _ _ Hs)|].
    apply code_of_digits.
Qed.

(** C22: device messages are authenticated.  An accepted message carries a 96-byte
    VRF signature of the commitment under the device's key, with its output; one
    that has both its fields, and whose signature has another length or does not
    verify, is refused as an invalid message. *)
Theorem device_message_authenticated c data key :
  (forall m, device_consistency_message_create_from_serialized c data (Some key) = Ok m ->
    length (dcs_signature (dcm_signature m)) = VRF_SIGNATURE_LEN /\
    xveddsa_verify (dcs_signature (dcm_signature m)) (pub_data key) (dcc_serialized c) =
      Some (dcs_vrf_output (dcm_signature m))) /\
  (forall generation signature,
    unpack data = Some (mk_DeviceConsistencyCodeMessage (Some generation) (Some signature)) ->
    length signature <> VRF_SIGNATURE_LEN \/ xveddsa_verify signature (pub_data key) (dcc_serialized c) = None ->
    device_consistency_message_create_from_serialized c data (Some key) = Err SG_ERR_INVALID_MESSAGE).
Proof.
  split.
  - intros m [H _]%from_serialized_verified. unfold curve_verify_vrf_signature in H. cbn [require rbind] in H.
    destruct (Nat.eqb_spec (length (dcs_signature (dcm_signature m))) VRF_SIGNATURE_LEN); [|done].
    cbn [ensure rbind] in H. destruct (xveddsa_verify _ _ _); [|done]. by injection H as ->.
  - intros gen sig Hu Hbad. unfold device_consistency_message_create_from_serialized, unpacked. rewrite Hu.
    cbn [require rbind dccm_generation dccm_signature]. unfold curve_verify_vrf_signature. cbn [require rbind].
    destruct (Nat.eqb_spec (length sig) VRF_SIGNATURE_LEN); cbn [ensure rbind]; [|done].
    destruct Hbad as [H | ->]; done.
Qed.

End devices.

(* ------------------------------------------------------------------ *)
(** ** Generated keys *)

Section helper.
Context `{CP : CryptoProvider} {CL : CryptoProviderLaws CP}.
Context `{CV : Curve25519} {CVL : Curve25519Laws CV} {CSL : Curve25519SignatureLaws CV}.

(** C23: generated signed pre-keys.  A signed pre-key generated with a generated
    identity key pair has the requested id and time stamp, a valid key pair, and
    a signature that [curve_verify_signature] accepts under the identity key, as
    a bundle needs; a generated registration id is positive and in the requested
    range. *)
Theorem generated_signed_pre_key_verifies i id t g0 g1 g k g' extended h reg h' :
  signal_protocol_key_helper_generate_identity_key_pair g0 = (Ok i, g1) ->
  signal_protocol_key_helper_generate_signed_pre_key i id t g = (Ok k, g') ->
  signal_protocol_key_helper_generate_registration_id extended h = (Ok reg, h') ->
  spk_id k = id /\ spk_timestamp k = t /\ valid_pair (spk_key_pair k) /\
  length (spk_signature k) = CURVE_SIGNATURE_LEN /\
  (exists data, ec_public_key_serialize (Some (public_key (spk_key_pair k))) = Ok data /\
    curve_verify_signature (id_public i) data (spk_signature k) = Ok true) /\
  (extended = 0 /\ 1 <= reg <= 16380 \/ extended = 1 /\ 1 <= reg <= INT32_MAX - 1).
Proof.
  intros (p & g2 & Hp & [Hi _]%lift_ok)%bind_ok Hk Hreg. injection Hi as <-.
  assert (signing_pair p) as Hs by (by eapply curve_generate_signing).
  apply signed_pre_key_verifies in Hk as (H1 & H2 & H3 & H4 & H5); [|by destruct p].
  apply registration_id_range in Hreg. by split_and!.
Qed.

(** C24: generated pre-keys.  As many keys as asked for are generated, each pair
    is valid, and for a start of at least 1 whose ids do not overflow 32 bits
    ([start + count - 1 <= 2^32]) the ids count up from the start modulo 0xFFFFFE:
    after 0xFFFFFE comes 1, so they are never 0 nor the last-resort id 0xFFFFFF,
    and a start of 0xFFFFFF gives 1.  Up to 0xFFFFFE keys the ids are distinct;
    beyond that they repeat. *)
Theorem generated_pre_keys start count g l g' :
  1 <= start -> start - 1 + Z.of_nat count <= 2 ^ 32 ->
  signal_protocol_key_helper_generate_pre_keys start count g = (Ok l, g') ->
  length l = count /\
  map pk_id l = map (fun k => (start - 1 + Z.of_nat k) mod (PRE_KEY_MEDIUM_MAX_VALUE - 1) + 1) (seq 0 count) /\
  Forall (fun k => 1 <= pk_id k < PRE_KEY_MEDIUM_MAX_VALUE /\ valid_pair (pk_key_pair k)) l /\
  (NoDup (map pk_id l) <-> Z.of_nat count <= PRE_KEY_MEDIUM_MAX_VALUE - 1).
Proof.
  intros Hs Hc (Hid & Hv)%generate_pre_keys_loop_ok. cbn [Z.add] in Hid.
  assert (length l = count) as Hlen by (by rewrite <- (length_map pk_id), Hid, length_map, length_seq).
  split_and!; [done|..|split].
  - rewrite Hid. apply map_ext_in. intros a Ha%list_elem_of_In. apply elem_of_seq in Ha.
    apply generated_pre_key_id_step; lia.
  - rewrite Forall_forall in Hv |- *. intros k Hk. split; [|by apply Hv].
    assert (pk_id k ∈ map pk_id l) as Hin by (by apply list_elem_of_fmap_2).
    rewrite Hid in Hin. apply list_elem_of_fmap in Hin as (j & -> & _). apply generated_pre_key_id_range.
  - intros Hnd. destruct (Z.le_gt_cases (Z.of_nat count) (PRE_KEY_MEDIUM_MAX_VALUE - 1)) as [|Hgt]; [done|].
    exfalso. assert (exists n, Z.of_nat n = PRE_KEY_MEDIUM_MAX_VALUE - 1) as (n & Hn).
    { exists (Z.to_nat (PRE_KEY_MEDIUM_MAX_VALUE - 1)). apply Z2Nat.id. done. }
    assert (0%nat = n) as E; [|rewrite <- E in Hn; done].
    rewrite Hid in Hnd. eapply (NoDup_lookup _ 0 n); [exact Hnd|..]; rewrite list_lookup_fmap, lookup_seq_lt by lia;
      cbn [fmap option_fmap option_map]; [done|]. f_equal.
    rewrite !generated_pre_key_id_step by (lia || unfold PRE_KEY_MEDIUM_MAX_VALUE in *; lia). f_equal.
    rewrite <- (Z_mod_plus_full (start - 1 + (0 + Z.of_nat (0 + 0))) 1). f_equal. lia.
  - intros Hle. rewrite Hid. apply NoDup_fmap_2_strong; [|apply NoDup_seq].
    intros a b [_ Ha]%elem_of_seq [_ Hb]%elem_of_seq E. apply generated_pre_key_id_inj in E; lia.
Qed.

End helper.
