(* ===== verification/Witnesses.v ===== *)
(** The guarantees on concrete inputs: the provider and curve of [Crypto], the
    store in memory of [Store] and the codecs of [Wire].

    [Sample] runs the model: a set-up, a first contact and some messages, all by
    evaluation.  The lemmas that follow instantiate the guarantees there, which
    shows that their hypotheses can hold together. *)

From S2P Require Import Prelude Buffers Vpool Crypto Hkdf Curve Ratchet SessionState LocalStorage.
From S2P Require Import SessionSerial Protocol RatchetSession SessionRecord Receive SessionPreKey.
From S2P Require Import Store SessionBuilder SessionCipher Conversation Storable SessionApi.
From S2P Require Import FirstContact Network Wire GroupWire Guarantees.

#[local] Existing Instance ToyCrypto.
#[local] Existing Instance ToyCryptoLaws.
#[local] Existing Instance ToyCurve.
#[local] Existing Instance ToyCurveLaws.
#[local] Existing Instance MemoryStore.
#[local] Existing Instance MemoryStoreLaws.
#[local] Existing Instance SessionStructure_wire.
#[local] Existing Instance SessionStructure_wire_laws.
#[local] Existing Instance RecordStructure_wire.
#[local] Existing Instance RecordStructure_wire_laws.
#[local] Existing Instance PreKeyRecordStructure_wire.
#[local] Existing Instance PreKeyRecordStructure_wire_laws.
#[local] Existing Instance SignedPreKeyRecordStructure_wire.
#[local] Existing Instance SignedPreKeyRecordStructure_wire_laws.
#[local] Existing Instance SignalMessage_wire.
#[local] Existing Instance SignalMessage_wire_laws.
#[local] Existing Instance PreKeySignalMessage_wire.
#[local] Existing Instance PreKeySignalMessage_wire_laws.
#[local] Existing Instance IdentityKeyPairStructure_wire.
#[local] Existing Instance IdentityKeyPairStructure_wire_laws.

Module Sample.

(** A state of the random source. *)
Definition seed (n : Z) : @rng ToyCrypto := n.

Definition unwrap {A} (d : A) (r : result A) : A := match r with Ok a => a | _ => d end.

Definition no_pub : ec_public_key := mk_pub (repeat x00 32).
Definition no_pair : ec_key_pair := mk_pair no_pub (mk_priv (repeat x00 32)).

(** The key pair generated from a seed. *)
Definition pair_of (seed : Z) : ec_key_pair := unwrap no_pair (curve_generate_key_pair (CP := ToyCrypto) seed).1.

Definition keys : x3dh_keys :=
  mk_x3dh (pair_of 11) (pair_of 100) (pair_of 12) (pair_of 13) (Some (pair_of 14)).

Definition to_bob : signal_protocol_address := mk_address [u8 66] 1.
Definition to_alice : signal_protocol_address := mk_address [u8 65] 1.

Definition signature : bytes := repeat x00 32 ++ Toy.hash (ser (public_key (pair_of 13))).

Definition signed_pre_key : session_signed_pre_key :=
  mk_signed_pre_key 7 (pair_of 13) 1700000000 signature.
Definition one_time_pre_key : session_pre_key := mk_pre_key 5 (pair_of 14).

Definition store_of (p : ec_key_pair) (reg : Z) (pks spks : gmap Z bytes) : store_view :=
  mk_view ∅ pks spks (ser (public_key p), take DJB_KEY_LEN (priv_data (private_key p))) reg ∅.

Definition alice_store : store_view := store_of (pair_of 11) 1001 ∅ ∅.
Definition bob_store : store_view :=
  store_of (pair_of 12) 1002
    {[ 5 := unwrap [] (session_pre_key_serialize (Some one_time_pre_key)) ]}
    {[ 7 := unwrap [] (session_signed_pre_key_serialize signed_pre_key) ]}.

Definition alice_world : world := mk_world (100 : @rng ToyCrypto) (alice_store : @store_data MemoryStore) false.
Definition bob_world : world := mk_world (200 : @rng ToyCrypto) (bob_store : @store_data MemoryStore) false.

(** The two states after the set-up. *)
Definition alice_run := ratcheting_session_alice_initialize (CP := ToyCrypto) (alice_of keys) (101, session_state_create).
Definition alice_state : session_state := alice_run.2.2.
Definition bob_state : session_state :=
  (ratcheting_session_bob_initialize (CP := ToyCrypto) (bob_of keys) session_state_create).2.

Definition plaintext : bytes := [u8 104; u8 105].

End Sample.

Lemma sample_alice_ok :
  ratcheting_session_alice_initialize (alice_of Sample.keys) ((101 : rng), session_state_create) =
  (Ok tt, ((102 : rng), Sample.alice_state)).
Proof. vm_compute. reflexivity. Qed.
Example sample_bundle_ok :
  (session_builder_process_pre_key_bundle Sample.to_bob
    (bundle_of Sample.keys 1002 1 5 7 Sample.signature) Sample.alice_world).1 = Ok 0.
Proof. vm_compute. reflexivity. Qed.

(* ------------------------------------------------------------------ *)
(** ** Facts about the sample *)

Ltac sample_pair_valid :=
  match goal with |- valid_pair (Sample.pair_of ?n) =>
    refine (proj1 (curve_generate_key_pair_valid (CP := ToyCrypto) n (Sample.pair_of n) (n + 1) _));
    vm_compute; reflexivity end.

Lemma sample_keys_valid : x3dh_valid Sample.keys.
Proof. repeat split; cbn [Sample.keys k_ia k_ea k_ib k_sb k_ob opt_all]; sample_pair_valid. Qed.

Lemma sample_bob_ok :
  ratcheting_session_bob_initialize (bob_of Sample.keys) session_state_create = (Ok tt, Sample.bob_state).
Proof. vm_compute. reflexivity. Qed.

Lemma sample_synced : synced Sample.alice_state Sample.bob_state.
Proof.
  exact (x3dh_synced Sample.keys 101 102 _ _ sample_keys_valid sample_alice_ok sample_bob_ok).
Qed.

Lemma sample_good : good 3 Sample.alice_state /\ good 3 Sample.bob_state.
Proof.
  destruct (x3dh_storable (CP := ToyCrypto) Sample.keys 101 102 _ _ sample_alice_ok sample_bob_ok) as [Ha Hb].
  pose proof sample_synced as (Hp & _).
  exact (conj (conj (p_wf_a _ _ Hp) Ha) (conj (p_wf_b _ _ Hp) Hb)).
Qed.

Lemma sample_record_storable s : good 3 s -> record_storable (mk_record (Some s) [] false None).
Proof.
  intros Hs. split; cbn; [|done|unfold ARCHIVED_STATES_MAX_LENGTH; lia].
  exists s. split; [done|]. by eapply good_storable.
Qed.

(** A world whose store holds one session. *)
Definition world_with (g : Z) (v : store_view) (a : signal_protocol_address) (s : session_state) : world :=
  mk_world (g : @rng ToyCrypto)
    (set_sessions {[ a := (Sample.unwrap [] (session_record_serialize (Some (mk_record (Some s) [] false None))),
                           None) ]} v : @store_data MemoryStore) false.

Lemma sample_holds g v a s : good 3 s -> holds (world_with g v a s) a (mk_record (Some s) [] false None).
Proof.
  intros Hs. pose proof (sample_record_storable s Hs) as Hr.
  destruct (session_record_store_load _ Hr) as (data & E & D).
  split_and!; [done|done|]. exists data. split; [|exact D].
  cbn [world_with w_store]. change (view ?x) with x. cbn [set_sessions v_sessions]. rewrite E.
  apply lookup_singleton_eq.
Qed.

(* ------------------------------------------------------------------ *)
(** ** Messages between two parties *)

Lemma first_contact_witness :
  exists wa1 pm wa2 wb',
    session_builder_process_pre_key_bundle Sample.to_bob
      (bundle_of Sample.keys 1002 1 5 7 Sample.signature) Sample.alice_world = (Ok 0, wa1) /\
    session_cipher_encrypt Sample.to_bob Sample.plaintext wa1 = (Ok (CIPHERTEXT_PREKEY_TYPE pm), wa2) /\
    session_cipher_decrypt_pre_key_signal_message Sample.to_alice None pm Sample.bob_world =
      (Ok Sample.plaintext, wb') /\
    v_pre_keys (view (w_store wb')) !! 5 = None.
Proof.
  destruct (first_contact (CP := ToyCrypto) Sample.keys Sample.alice_world Sample.bob_world Sample.to_bob Sample.to_alice
    1002 1 5 7 Sample.signature 1001 1002 101 102 Sample.alice_state (Sample.pair_of 200) 201)
    as (wa1 & E1 & H).
  - exact sample_keys_valid.
  - unfold in_range, is_u32. lia.
  - reflexivity.
  - reflexivity.
  - split; reflexivity.
  - split; [reflexivity|]. split; [reflexivity|]. unfold is_u32. lia.
  - split; reflexivity.
  - split; [reflexivity|]. split; [reflexivity|]. unfold is_u32. lia.
  - split.
    + exists (Sample.unwrap [] (session_signed_pre_key_serialize Sample.signed_pre_key)), Sample.signed_pre_key.
      split_and!; vm_compute; reflexivity.
    + exists (Sample.unwrap [] (session_pre_key_serialize (Some Sample.one_time_pre_key))), Sample.one_time_pre_key.
      split_and!; vm_compute; reflexivity.
  - vm_compute; reflexivity.
  - vm_compute; reflexivity.
  - vm_compute; reflexivity.
  - exact sample_alice_ok.
  - vm_compute; reflexivity.
  - vm_compute; discriminate.
  - assert (exists out, (session_cipher_encrypt Sample.to_bob Sample.plaintext wa1).1 = Ok out) as (out & Eo).
    { pose proof (f_equal snd E1) as Ew. cbn [snd] in Ew. rewrite <- Ew. eexists. vm_compute; reflexivity. }
    destruct (session_cipher_encrypt Sample.to_bob Sample.plaintext wa1) as [r wa2] eqn:E2.
    cbn [fst] in Eo. subst r. destruct (H _ _ _ E2) as (pm & data & wb' & ra & rb & a & b & -> & _ & _ & Ed & _ & _ & _ & _ & _ & Hg).
    exists wa1, pm, wa2, wb'. split_and!; [exact E1|exact E2|exact Ed|]. apply Hg. vm_compute; reflexivity.
Defined.

(** The first message of the sample conversation. *)
Definition sample_out : ciphertext_message :=
  match (encrypt_with_state Sample.plaintext Sample.alice_state).1 with
  | Ok out => out
  | _ => CIPHERTEXT_SIGNAL_TYPE (mk_signal_message 0 None 0 0 None None)
  end.
Definition sample_alice_next : session_state := (encrypt_with_state Sample.plaintext Sample.alice_state).2.

Lemma sample_encrypts :
  encrypt_with_state Sample.plaintext Sample.alice_state = (Ok sample_out, sample_alice_next).
Proof. vm_compute. reflexivity. Qed.

Lemma sample_next : next_counter Sample.alice_state + 1 < 2 ^ 32.
Proof. vm_compute. reflexivity. Qed.

(** Running the network: the first party encrypts, the second receives. *)
Definition run_send (pt : bytes) (c : network) : network :=
  let '(r, s') := encrypt_with_state pt (p_state (net_x c)) in
  mk_network (mk_party (p_rng (net_x c)) s') (net_y c)
    (to_y c ++ [mk_packet (Sample.unwrap sample_out r) pt false]) (to_x c).
Definition run_deliver (i : nat) (c : network) : network :=
  match to_y c !! i with
  | Some e => mk_network (net_x c) (receive (pkt_out e) (net_y c)).2 (<[i := mark e]> (to_y c)) (to_x c)
  | None => c
  end.

Lemma run_send_state pt c :
  p_state (net_x (run_send pt c)) = (encrypt_with_state pt (p_state (net_x c))).2.
Proof. unfold run_send. by destruct (encrypt_with_state pt (p_state (net_x c))). Qed.

Lemma run_send_step pt c :
  match (encrypt_with_state pt (p_state (net_x c))).1 with Ok _ => true | _ => false end = true ->
  (next_counter (p_state (net_x c)) + 1 <? 2 ^ 32) = true -> half_step c None (run_send pt c).
Proof.
  intros He Hn%Z.ltb_lt. unfold run_send. destruct c as [x y xy yx]. cbn [net_x net_y to_x to_y] in *.
  destruct (encrypt_with_state pt (p_state x)) as [[out| |] s'] eqn:E; [|done|done].
  cbn [Sample.unwrap]. by apply net_send.
Qed.

Lemma run_deliver_step i e c :
  to_y c !! i = Some e -> in_window (p_state (net_x c)) (net_y c) (to_x c) e ->
  half_step c (Some (e, (receive (pkt_out e) (net_y c)).1)) (run_deliver i c).
Proof.
  intros Hi Hw. unfold run_deliver. rewrite Hi. destruct c as [x y xy yx]. cbn [net_x net_y to_x to_y] in *.
  apply net_deliver; [done|done|]. by destruct (receive (pkt_out e) y).
Qed.

Lemma swapped_step c l c' : half_step (net_swap c) l c' -> net_step c l (net_swap c').
Proof. intros H. apply step_back. by destruct c'. Qed.

(** The window, by evaluation. *)
Definition window_check (x : session_state) (y : party) (back : list packet) (e : packet) : bool :=
  match header_of e with
  | None => false
  | Some (k, n) =>
      match session_state_find_receiver_chain (p_state y) k with
      | Some c =>
          match rc_chain_key c with
          | Some ck => Z.of_nat (length (rc_message_keys c)) + (n - ck_index ck) <=? MAX_SKIP
          | None => false
          end
      | None =>
          bool_decide (public_key <$> session_state_get_sender_ratchet_key_pair x = Some k) &&
          (n <=? MAX_SKIP) &&
          match curve_generate_key_pair (p_rng y) with
          | (Ok new, _) =>
              match session_state_find_receiver_chain x (public_key new) with Some _ => false | None => true end &&
              forallb (fun p => negb (bool_decide (fst <$> header_of p = Some (public_key new)))) back
          | _ => false
          end
      end
  end.

Lemma window_checked x y back e : window_check x y back e = true -> in_window x y back e.
Proof.
  unfold window_check, in_window. destruct (header_of e) as [[k n]|]; [|done].
  destruct (session_state_find_receiver_chain (p_state y) k) as [c|].
  - destruct (rc_chain_key c); [lia|done].
  - destruct (curve_generate_key_pair (p_rng y)) as [[new| |] g'] eqn:Eg; [|by rewrite andb_false_r..].
    destruct (session_state_find_receiver_chain x (public_key new)) eqn:Ef; [by rewrite andb_false_r|].
    intros [[Hk Hn]%andb_true_iff Hb]%andb_true_iff. apply bool_decide_eq_true in Hk.
    split_and!; [done|lia|]. exists new, g'. split_and!; [done|done|]. apply Forall_forall. intros p Hp.
    cbn [andb] in Hb. rewrite forallb_forall in Hb. apply list_elem_of_In in Hp. specialize (Hb p Hp).
    by apply negb_true_iff, bool_decide_eq_false in Hb.
Qed.

(** A packet on its way to the second party. *)
Definition packet_at (i : nat) (c : network) : packet :=
  match to_y c !! i with Some e => e | None => mk_packet sample_out [] false end.

Lemma packet_at_ok i c : (i <? length (to_y c))%nat = true -> to_y c !! i = Some (packet_at i c).
Proof.
  intros Hi%Nat.ltb_lt. unfold packet_at. by destruct (lookup_lt_is_Some_2 (to_y c) i Hi) as [e ->].
Qed.

Lemma run_delivered i c :
  (i <? length (to_y c))%nat = true ->
  window_check (p_state (net_x c)) (net_y c) (to_x c) (packet_at i c) = true ->
  half_step c (Some (packet_at i c, (receive (pkt_out (packet_at i c)) (net_y c)).1)) (run_deliver i c).
Proof. intros Hi Hw. by apply run_deliver_step; [apply packet_at_ok|apply window_checked]. Qed.

(** A conversation: Alice sends two messages, Bob one that crosses them; Bob gets
    the second one first, Alice gets the crossing one, and the first one is late. *)
Definition sample_start : network :=
  mk_network (mk_party (Sample.seed 102) Sample.alice_state) (mk_party (Sample.seed 200) Sample.bob_state) [] [].
Definition sample_sent : network := run_send [u8 2] (run_send Sample.plaintext sample_start).
Definition sample_crossed : network := net_swap (run_send [u8 3] (net_swap sample_sent)).
Definition sample_second : network := run_deliver 1 sample_crossed.
Definition sample_crossing : network := net_swap (run_deliver 0 (net_swap sample_second)).

Lemma sample_sent_reachable : net_reachable sample_start sample_sent.
Proof.
  apply (reach_step sample_start (run_send Sample.plaintext sample_start) None sample_sent).
  - apply (reach_step sample_start sample_start None); [apply reach_start|apply step_forth].
    apply run_send_step; vm_compute; reflexivity.
  - apply step_forth. apply (run_send_step [u8 2] (run_send Sample.plaintext sample_start));
      vm_compute; reflexivity.
Qed.

Lemma sample_second_reachable : net_reachable sample_start sample_second.
Proof.
  eapply (reach_step sample_start sample_crossed).
  - apply (reach_step sample_start sample_sent None); [exact sample_sent_reachable|apply swapped_step].
    apply (run_send_step [u8 3] (net_swap sample_sent)); vm_compute; reflexivity.
  - apply step_forth. apply (run_delivered 1 sample_crossed); vm_compute; reflexivity.
Qed.

Lemma sample_crossing_reachable : net_reachable sample_start sample_crossing.
Proof.
  eapply (reach_step sample_start sample_second); [exact sample_second_reachable|apply swapped_step].
  apply (run_delivered 0 (net_swap sample_second)); vm_compute; reflexivity.
Qed.

(** The late message still decrypts. *)
Lemma conversation_delivers_witness :
  (receive (pkt_out (packet_at 0 sample_crossing)) (net_y sample_crossing)).1 = Ok Sample.plaintext.
Proof.
  pose proof (conversation_delivers Sample.keys sample_start sample_crossing (packet_at 0 sample_crossing)
    (receive (pkt_out (packet_at 0 sample_crossing)) (net_y sample_crossing)).1 (run_deliver 0 sample_crossing)
    sample_keys_valid) as H.
  assert (pkt_received (packet_at 0 sample_crossing) = false) as E1 by (vm_compute; reflexivity).
  assert (pkt_plaintext (packet_at 0 sample_crossing) = Sample.plaintext) as E2 by (vm_compute; reflexivity).
  rewrite E1, E2 in H. apply H.
  - split_and!; [reflexivity|reflexivity|exists (Sample.seed 101); exact sample_alice_ok|exact sample_bob_ok].
  - exact sample_crossing_reachable.
  - apply step_forth. apply (run_delivered 0 sample_crossing); vm_compute; reflexivity.
Defined.

Lemma sample_represents g v a p :
  good 3 (p_state p) -> Sample.seed g = p_rng p ->
  represents (world_with g v a (p_state p)) a (mk_record (Some (p_state p)) [] false None) p.
Proof. intros Hs Hg. split; [by apply sample_holds|done|done|done]. Qed.

Lemma run_send_other pt c : net_y (run_send pt c) = net_y c.
Proof. unfold run_send. by destruct (encrypt_with_state pt (p_state (net_x c))). Qed.

Lemma sample_sent_good : good 3 (p_state (net_x sample_sent)) /\ good 3 (p_state (net_y sample_sent)).
Proof.
  unfold sample_sent. rewrite !run_send_other. split; [|exact (proj2 sample_good)].
  rewrite !run_send_state.
  apply (encrypt_with_state_good 3 [u8 2]), (encrypt_with_state_good 3 Sample.plaintext). exact (proj1 sample_good).
Qed.

(** Bob's application gets the second message of Alice first. *)
Lemma stored_sessions_deliver_witness :
  exists wy', api_receive Sample.to_alice (pkt_out (packet_at 1 sample_sent))
    (world_with 200 Sample.bob_store Sample.to_alice (p_state (net_y sample_sent))) = (Ok [u8 2], wy').
Proof.
  destruct (stored_sessions_deliver sample_start sample_sent
    (world_with 102 Sample.alice_store Sample.to_bob (p_state (net_x sample_sent)))
    (world_with 200 Sample.bob_store Sample.to_alice (p_state (net_y sample_sent)))
    Sample.to_bob Sample.to_alice
    (mk_record (Some (p_state (net_x sample_sent))) [] false None)
    (mk_record (Some (p_state (net_y sample_sent))) [] false None)
    (or_introl sample_synced) eq_refl eq_refl sample_sent_reachable) as (_ & H & _).
  - apply sample_represents; [exact (proj1 sample_sent_good)|vm_compute; reflexivity].
  - apply sample_represents; [exact (proj2 sample_sent_good)|vm_compute; reflexivity].
  - destruct (H 1%nat (packet_at 1 sample_sent)) as (wy' & c' & E & _).
    + apply packet_at_ok. vm_compute. reflexivity.
    + apply window_checked. vm_compute. reflexivity.
    + vm_compute. exact I.
    + exists wy'. assert (outcome (packet_at 1 sample_sent) = Ok [u8 2]) as Eo by (vm_compute; reflexivity).
      rewrite Eo in E. exact E.
Defined.

Lemma x3dh_agreement_witness :
  exists secret, alice_master_secret (alice_of Sample.keys) = Ok secret /\
    bob_master_secret (bob_of Sample.keys) = Ok secret.
Proof.
  destruct (x3dh_agreement Sample.keys (Sample.seed 101) (Sample.seed 102) Sample.alice_state sample_keys_valid
    sample_alice_ok) as (b & secret & _ & Ha & Hb & _).
  exists secret. split; [exact Ha|exact Hb].
Defined.

(* ------------------------------------------------------------------ *)
(** ** The receiving chain *)

(** A state with one receiver chain, at its first link. *)
Definition sample_key : ec_public_key := public_key (Sample.pair_of 13).
Definition sample_chain : ratchet_chain_key := mk_chain (mk_hkdf 1) (repeat (u8 1) 32) 0.
Definition sample_receiver : session_state :=
  (session_state_add_receiver_chain sample_key sample_chain session_state_create).2.

Lemma sample_chain_wf : chain_wf sample_chain.
Proof. split; [by right|]. unfold is_u32. cbn. lia. Qed.

Lemma out_of_order_exactly_once_witness :
  exists s1 s2 next,
    session_cipher_get_or_create_message_keys sample_key sample_chain 3 sample_receiver =
      (Ok (chain_message_keys (chain_iter 3 sample_chain)), s1) /\
    session_cipher_get_or_create_message_keys sample_key next 1 s1 =
      (Ok (chain_message_keys (chain_iter 1 sample_chain)), s2) /\
    session_cipher_get_or_create_message_keys sample_key next 1 s2 = (Err SG_ERR_DUPLICATE_MESSAGE, s2).
Proof.
  destruct (out_of_order_exactly_once sample_receiver sample_key
    (mk_receiver_chain (Some sample_key) (Some sample_chain) []) sample_chain 3 1)
    as (s1 & s2 & next & H1 & _ & _ & _ & H2 & H3).
  - vm_compute; reflexivity.
  - split_and!; [vm_compute; reflexivity|exact sample_chain_wf|constructor|cbn; lia].
  - split_and!; [reflexivity|constructor|constructor].
  - cbn; lia.
  - cbn; unfold MAX_SKIP; lia.
  - lia.
  - exists s1, s2, next. split_and!; [exact H1|exact H2|exact H3].
Defined.

Lemma too_far_ahead_refused_witness :
  session_cipher_get_or_create_message_keys sample_key sample_chain 2001 sample_receiver =
  (Err SG_ERR_INVALID_MESSAGE, sample_receiver).
Proof.
  apply (too_far_ahead_refused sample_receiver sample_key sample_chain 2001);
    [exact sample_chain_wf|cbn; unfold MAX_SKIP; lia|lia].
Defined.

(** A message of the sample, as the receiver parses it. *)
Definition sample_message : signal_message :=
  Sample.unwrap (mk_signal_message 0 None 0 0 None None) (transmit sample_out).

Lemma sample_message_key : opt_all pub_wf (sm_sender_ratchet_key sample_message).
Proof. vm_compute. reflexivity. Qed.

Lemma cipher_keeps_storable_witness :
  good 3 (encrypt_with_state Sample.plaintext Sample.alice_state).2 /\
  good 3 (session_cipher_decrypt_from_state_and_signal_message sample_message
    ((Sample.seed 200), Sample.bob_state)).2.2.
Proof.
  destruct (cipher_keeps_storable 3 sample_message Sample.plaintext sample_message_key) as [H1 H2].
  split; [exact (H1 Sample.alice_state (proj1 sample_good))|].
  exact (H2 ((Sample.seed 200), Sample.bob_state) (proj2 sample_good)).
Defined.

(* ------------------------------------------------------------------ *)
(** ** Records and the store *)

Definition sample_record : session_record := mk_record (Some Sample.bob_state) [] false None.

Lemma sample_bob_record_storable : record_storable sample_record.
Proof. exact (sample_record_storable _ (proj2 sample_good)). Qed.

(** The message decrypts, so the record is updated. *)
Lemma decrypt_updates_record_witness :
  exists r', (session_cipher_decrypt_from_record_and_signal_message sample_message
      (Sample.seed 200, sample_record)).2.2 = r' /\
    decrypted sample_message sample_record Sample.plaintext r'.
Proof.
  pose proof (decrypt_updates_record sample_message (Sample.seed 200) sample_record
    sample_bob_record_storable sample_message_key) as H.
  assert ((session_cipher_decrypt_from_record_and_signal_message sample_message
    (Sample.seed 200, sample_record)).1 = Ok Sample.plaintext) as E by (vm_compute; reflexivity).
  destruct (session_cipher_decrypt_from_record_and_signal_message sample_message
    (Sample.seed 200, sample_record)) as [r [g' r']].
  cbn [fst] in E. subst r. exists r'. split; [reflexivity|exact (proj1 H)].
Defined.

(** Encrypting for a contact without a session fails. *)
Lemma failed_call_keeps_store_witness :
  view (w_store (session_cipher_encrypt Sample.to_bob Sample.plaintext Sample.alice_world).2) =
  view (w_store Sample.alice_world).
Proof.
  destruct (failed_call_keeps_store Sample.to_bob Sample.plaintext None sample_message I) as [H _].
  apply (H Sample.alice_world). intros a. vm_compute. discriminate.
Defined.

(** A pre-key message for an unknown signed pre-key fails. *)
Definition sample_unknown_pre_key : pre_key_signal_message :=
  mk_pre_key_signal_message 3 1 false 0 99 (Some (public_key (Sample.pair_of 100)))
    (Some (public_key (Sample.pair_of 11))) (Some sample_message) None.

(** Bob with a store that cannot remove pre-keys, and the first message of Alice. *)
Definition sample_first_pre_key : pre_key_signal_message :=
  match (session_cipher_encrypt Sample.to_bob Sample.plaintext
    (session_builder_process_pre_key_bundle Sample.to_bob
      (bundle_of Sample.keys 1002 1 5 7 Sample.signature) Sample.alice_world).2).1 with
  | Ok (CIPHERTEXT_PREKEY_TYPE pm) => pm
  | _ => sample_unknown_pre_key
  end.
Definition sample_stubborn_bob : @world ToyCrypto NoRemovalStore :=
  mk_world (Sample.seed 200) (Sample.bob_store : @store_data NoRemovalStore) false.
Definition sample_stubborn_decrypt (w : @world ToyCrypto NoRemovalStore) :=
  session_cipher_decrypt_pre_key_signal_message (ST := NoRemovalStore) Sample.to_alice None sample_first_pre_key w.

Lemma failed_pre_key_message_keeps_keys_witness :
  (sample_stubborn_decrypt sample_stubborn_bob).1 = Err SG_ERR_UNKNOWN /\
  v_pre_keys (w_store (sample_stubborn_decrypt sample_stubborn_bob).2) = v_pre_keys Sample.bob_store.
Proof.
  assert ((sample_stubborn_decrypt sample_stubborn_bob).1 = Err SG_ERR_UNKNOWN) as E by (vm_compute; reflexivity).
  split; [exact E|]. unfold sample_stubborn_decrypt in *.
  destruct (session_cipher_decrypt_pre_key_signal_message (ST := NoRemovalStore) Sample.to_alice None
    sample_first_pre_key sample_stubborn_bob) as [r w'] eqn:Er.
  cbn [fst] in E. subst r.
  destruct (failed_pre_key_message_keeps_keys (ST := NoRemovalStore) (SV := NoRemovalContent)
    (FL := NoRemovalStoreLaws) Sample.to_alice None sample_first_pre_key sample_stubborn_bob
    (Err SG_ERR_UNKNOWN) w' I Er) as (H & _); [discriminate|exact H].
Defined.

(** a defect.  When the removal of the one-time pre-key fails, the call reports an
    error although the message was decrypted and the session stored: its
    plaintext is dropped, and a second attempt is refused as a duplicate. *)
Example failed_removal_loses_message :
  (sample_stubborn_decrypt sample_stubborn_bob).1 = Err SG_ERR_UNKNOWN /\
  (sample_stubborn_decrypt (sample_stubborn_decrypt sample_stubborn_bob).2).1 = Err SG_ERR_DUPLICATE_MESSAGE.
Proof. split; vm_compute; reflexivity. Qed.

Lemma session_store_round_trip_witness :
  exists st' st'',
    signal_protocol_session_store_session Sample.to_alice sample_record (w_store Sample.bob_world) = (Ok 0, st') /\
    signal_protocol_session_load_session Sample.to_alice st' = (Ok sample_record, st'').
Proof.
  destruct (session_store_round_trip Sample.to_alice sample_record (w_store Sample.bob_world)
    sample_bob_record_storable) as (st' & E1 & st'' & E2 & _).
  exists st', st''. split; [exact E1|exact E2].
Defined.

Lemma session_state_copy_exact_witness : session_state_copy Sample.bob_state = Ok Sample.bob_state.
Proof.
  exact (session_state_copy_exact Sample.bob_state (good_storable 3 _ (proj2 sample_good))).
Defined.

Lemma callback_cannot_reenter_witness :
  session_cipher_encrypt Sample.to_bob Sample.plaintext (set_inside true Sample.alice_world) =
  (Err SG_ERR_INVAL, set_inside true Sample.alice_world).
Proof.
  exact (proj1 (callback_cannot_reenter Sample.to_bob (set_inside true Sample.alice_world)
    Sample.plaintext sample_message sample_unknown_pre_key None eq_refl)).
Defined.

(** Bob's identity is saved under another key. *)
Definition sample_impostor_world : world :=
  mk_world (Sample.seed 100)
    (set_trusted {[ Sample.to_bob := ser (public_key (Sample.pair_of 99)) ]} Sample.alice_store
      : @store_data MemoryStore) false.

Lemma untrusted_identity_refused_witness :
  exists w', session_builder_process_pre_key_bundle Sample.to_bob
    (bundle_of Sample.keys 1002 1 5 7 Sample.signature) sample_impostor_world =
    (Err SG_ERR_UNTRUSTED_IDENTITY, w').
Proof.
  destruct (untrusted_identity_refused Sample.to_bob sample_impostor_world
    (bundle_of Sample.keys 1002 1 5 7 Sample.signature)
    (mk_pre_key_signal_message 3 1 false 0 7 None (Some (public_key (Sample.pair_of 12))) None None)
    (public_key (Sample.pair_of 12)) sample_record (ser (public_key (Sample.pair_of 99))))
    as [(w' & E & _) _].
  - reflexivity.
  - reflexivity.
  - reflexivity.
  - vm_compute. discriminate.
  - exists w'. exact E.
Defined.


Lemma reachable_states_wf_witness : state_wf sample_receiver.
Proof.
  apply reachable_states_wf. apply rtc_once.
  apply (step_add_chain session_state_create sample_key sample_chain);
    [vm_compute; reflexivity|exact sample_chain_wf].
Defined.

(* ------------------------------------------------------------------ *)
(** ** Messages on the wire *)

Definition sample_created : signal_message :=
  Sample.unwrap sample_message (signal_message_create 3 (repeat (u8 7) 32) sample_key 4 2 Sample.plaintext
    (Some (public_key (Sample.pair_of 11))) (Some (public_key (Sample.pair_of 12)))).

Lemma mac_accepts_iff_witness :
  exists data, msg_serialized sample_created = Some data /\
    exists body, data = body ++ take SIGNAL_MESSAGE_MAC_LENGTH
      (HMAC (repeat (u8 7) 32) (mac_input 3 (public_key (Sample.pair_of 11)) (public_key (Sample.pair_of 12)) body)).
Proof.
  destruct (msg_serialized sample_created) as [data|] eqn:E; [|vm_compute in E; discriminate E].
  exists data. split; [reflexivity|].
  apply (mac_accepts_iff sample_created (public_key (Sample.pair_of 11)) (public_key (Sample.pair_of 12))
    (repeat (u8 7) 32) data E).
  vm_compute; reflexivity.
Defined.

Definition sample_pre_key_message : pre_key_signal_message :=
  Sample.unwrap sample_unknown_pre_key (pre_key_signal_message_create 3 1001 (Some 5) 7
    sample_key (public_key (Sample.pair_of 11)) sample_created).

Lemma messages_parse_witness :
  (exists data, msg_serialized sample_created = Some data /\
    signal_message_deserialize data = Ok sample_created) /\
  exists data, pkm_serialized sample_pre_key_message = Some data /\
    pre_key_signal_message_deserialize data = Ok sample_pre_key_message.
Proof.
  destruct (messages_parse 3 (repeat (u8 7) 32) sample_key 4 2 Sample.plaintext
    (public_key (Sample.pair_of 11)) (public_key (Sample.pair_of 12)) sample_created)
    as ((data & H1 & H2 & _) & H).
  - lia.
  - vm_compute; reflexivity.
  - unfold is_u32; lia.
  - unfold is_u32; lia.
  - vm_compute; reflexivity.
  - split; [exists data; split; [exact H1|exact H2]|].
    apply (H 1001 (Some 5) 7 sample_key (public_key (Sample.pair_of 11)) sample_pre_key_message).
    + vm_compute; reflexivity.
    + vm_compute; reflexivity.
    + unfold is_u32; lia.
    + cbn; unfold is_u32; lia.
    + unfold is_u32; lia.
    + reflexivity.
    + vm_compute; reflexivity.
Defined.

(* ------------------------------------------------------------------ *)
(** ** Key derivation and keys *)

Lemma hkdf_is_rfc5869_witness :
  hkdf_derive_secrets (mk_hkdf 1) [u8 1] [u8 2] (Some [u8 3]) 80 = Ok (hkdf_spec 1 [u8 1] [u8 2] [u8 3] 80).
Proof.
  exact (proj1 (hkdf_is_rfc5869 3 (mk_hkdf 1) [u8 1] [u8 2] [u8 3] 80 eq_refl
    ltac:(vm_compute; discriminate))).
Defined.

Lemma hkdf_too_long_diverges_witness : hkdf_expand (mk_hkdf 1) [u8 1] None (255 * 32) = Stuck.
Proof.
  apply (hkdf_too_long_diverges (mk_hkdf 1) [u8 1] None (255 * 32)); [by right|vm_compute; reflexivity].
Defined.

Lemma chain_step_spec_witness :
  ratchet_chain_key_get_message_keys sample_chain = Ok (chain_message_keys sample_chain) /\
  ck_index (chain_next sample_chain) = 1.
Proof.
  destruct (chain_step_spec sample_chain sample_chain_wf) as (H & _ & _ & _ & H').
  split; [exact H|exact H'].
Defined.

Lemma root_step_agrees_witness :
  exists next,
    ratchet_root_key_create_chain (mk_root (mk_hkdf 1) [u8 9]) (Some (public_key (Sample.pair_of 21)))
      (Some (private_key (Sample.pair_of 20))) = Ok next /\
    ratchet_root_key_create_chain (mk_root (mk_hkdf 1) [u8 9]) (Some (public_key (Sample.pair_of 20)))
      (Some (private_key (Sample.pair_of 21))) = Ok next.
Proof.
  destruct (root_step_agrees (mk_root (mk_hkdf 1) [u8 9]) (Sample.pair_of 20) (Sample.pair_of 21))
    as (next & H1 & H2 & _).
  - by right.
  - sample_pair_valid.
  - sample_pair_valid.
  - exists next. split; [exact H1|exact H2].
Defined.

Lemma generated_keys_agree_witness :
  exists s, curve_calculate_agreement (Some (public_key (Sample.pair_of 21)))
      (Some (private_key (Sample.pair_of 20))) = Ok s /\
    curve_calculate_agreement (Some (public_key (Sample.pair_of 20)))
      (Some (private_key (Sample.pair_of 21))) = Ok s.
Proof.
  apply (generated_keys_agree (Sample.seed 20) (Sample.pair_of 20) (Sample.seed 21)
    (Sample.seed 21) (Sample.pair_of 21) (Sample.seed 22)); vm_compute; reflexivity.
Defined.

Definition sample_symmetric (ours theirs : Z) : symmetric_signal_protocol_parameters :=
  mk_symmetric (identity_of (Sample.pair_of 11)) (Sample.pair_of ours) (Sample.pair_of ours)
    (public_key (Sample.pair_of theirs)) (public_key (Sample.pair_of theirs))
    (public_key (Sample.pair_of 12)).

Lemma symmetric_roles_differ_witness :
  ratcheting_session_symmetric_is_alice (sample_symmetric 30 31) =
  negb (ratcheting_session_symmetric_is_alice (sample_symmetric 31 30)).
Proof.
  apply (symmetric_roles_differ (sample_symmetric 30 31) (sample_symmetric 31 30)).
  - reflexivity.
  - reflexivity.
  - vm_compute; reflexivity.
  - vm_compute; reflexivity.
  - vm_compute; discriminate.
Defined.

Lemma sample_pair_wf : pair_wf (Sample.pair_of 13).
Proof. split; vm_compute; reflexivity. Qed.

Lemma keys_store_round_trip_witness :
  (exists data, session_signed_pre_key_serialize Sample.signed_pre_key = Ok data /\
    session_signed_pre_key_deserialize data = Ok Sample.signed_pre_key) /\
  (exists data, ratchet_identity_key_pair_serialize (Some (identity_of (Sample.pair_of 11))) = Ok data /\
    ratchet_identity_key_pair_deserialize data = Ok (identity_of (Sample.pair_of 11))).
Proof.
  apply (keys_store_round_trip Sample.one_time_pre_key Sample.signed_pre_key (identity_of (Sample.pair_of 11))).
  - split; [unfold is_u32; cbn; lia|split; vm_compute; reflexivity].
  - split_and!; [unfold is_u32; cbn; lia|apply sample_pair_wf|cbn; lia|cbn; lia|
      vm_compute; lia|vm_compute; discriminate].
  - vm_compute; reflexivity.
  - vm_compute; reflexivity.
Defined.

Lemma bad_sender_chain_ignored_witness :
  exists s, session_state_deserialize_protobuf
      (mk_SessionStructure None None None None None (Some (mk_Chain (Some [u8 1]) (Some []) None []))
         [] None None None None None None) = Ok s /\
    has_sender_chain s = true /\ session_state_get_sender_chain_key s = None.
Proof.
  destruct (bad_sender_chain_ignored [u8 1] [] SG_ERR_INVALID_KEY eq_refl) as (s & H1 & H2 & _ & H3).
  exists s. split_and!; [exact H1|exact H2|exact H3].
Defined.

Lemma unknown_version_uses_freed_kdf_witness :
  session_state_deserialize_protobuf
    (mk_SessionStructure (Some 4) None None None None None
       [mk_Chain None None (Some (mk_ChainKey (Some 0) (Some [u8 1]))) []]
       None None None None None None) = Stuck.
Proof.
  apply (unknown_version_uses_freed_kdf 4 (mk_Chain None None (Some (mk_ChainKey (Some 0) (Some [u8 1]))) [])
    0 [u8 1]); [vm_compute; discriminate|vm_compute; discriminate|reflexivity|reflexivity].
Defined.

Lemma unsigned_bundle_null_dereference_witness :
  exists bundle w', session_pre_key_bundle_create 1002 1 0 None 7 (Some sample_key) (Some []) (Some sample_key)
      = Ok bundle /\
    session_builder_process_pre_key_bundle Sample.to_bob bundle Sample.alice_world = (Stuck, w').
Proof.
  apply (unsigned_bundle_null_dereference Sample.to_bob Sample.alice_world 1002 1 0 sample_key 7 sample_key).
  split; reflexivity.
Defined.
