(* ===== verification/GroupWitnesses.v ===== *)
(** The guarantees of [GroupGuarantees] on concrete inputs: the provider and
    curve of [Crypto], the sender key store in memory of [Group] and the codecs
    of [GroupWire].  [GroupSample] runs a group: a sender that creates its
    session and sends three messages, a member that decrypts two of them out of
    order. *)

From S2P Require Import Prelude Buffers Vpool Crypto Hkdf Curve Ratchet SessionState LocalStorage.
From S2P Require Import SessionSerial Protocol RatchetSession SessionRecord SessionPreKey Store KeyHelper.
From S2P Require Import SenderKey SenderKeyRecord GroupMessages Group GroupConversation GroupApi.
From S2P Require Import KeyList Fingerprint DeviceConsistency Wire GroupWire GroupGuarantees.

#[local] Existing Instance ToyCrypto.
#[local] Existing Instance ToyCryptoLaws.
#[local] Existing Instance ToyCurve.
#[local] Existing Instance ToyCurveLaws.
#[local] Existing Instance ToyCurveSignatureLaws.
#[local] Existing Instance ToySha512.
#[local] Existing Instance ToySha512Laws.
#[local] Existing Instance ToyXveddsa.
#[local] Existing Instance ToyXveddsaLaws.
#[local] Existing Instance MemorySenderKeyStore.
#[local] Existing Instance MemorySenderKeyStoreLaws.
#[local] Existing Instance SenderKeyRecordStructure_wire.
#[local] Existing Instance SenderKeyRecordStructure_wire_laws.
#[local] Existing Instance SenderKeyMessage_wire.
#[local] Existing Instance SenderKeyMessage_wire_laws.
#[local] Existing Instance SenderKeyDistributionMessage_wire.
#[local] Existing Instance SenderKeyDistributionMessage_wire_laws.
#[local] Existing Instance CombinedFingerprints_wire.
#[local] Existing Instance CombinedFingerprints_wire_laws.
#[local] Existing Instance DeviceConsistencyCodeMessage_wire.
#[local] Existing Instance DeviceConsistencyCodeMessage_wire_laws.

Module GroupSample.

Definition unwrap {A} (d : A) (r : result A) : A := match r with Ok a => a | _ => d end.

Definition no_pair : ec_key_pair := mk_pair (mk_pub (repeat x00 32)) (mk_priv (repeat x00 32)).
Definition pair_of (seed : Z) : ec_key_pair := unwrap no_pair (curve_generate_key_pair (CP := ToyCrypto) seed).1.

Definition name : signal_protocol_sender_key_name := mk_sender_key_name [u8 71] (mk_address [u8 65] 1).

Definition world (seed : Z) : group_world :=
  mk_group_world (seed : @rng ToyCrypto) (∅ : @sk_store MemorySenderKeyStore) false.

Definition no_message : sender_key_message := mk_skm 0 0 0 None None.
Definition no_distribution : sender_key_distribution_message := mk_skdm 0 0 None None None.

(** The sender's session and its distribution message. *)
Definition created := group_session_builder_create_session name (world 50).
Definition distribution : sender_key_distribution_message := unwrap no_distribution created.1.
Definition distribution_data : bytes := default [] (skdm_serialized distribution).
Definition member : group_world := (group_session_builder_process_session name distribution (world 90)).2.

(** Three messages. *)
Definition text (k : Z) : bytes := [u8 104; u8 k].
Definition sent0 := group_cipher_encrypt name (text 0) created.2.
Definition sent1 := group_cipher_encrypt name (text 1) sent0.2.
Definition sent2 := group_cipher_encrypt name (text 2) sent1.2.
Definition message (s : result sender_key_message * group_world) : sender_key_message := unwrap no_message s.1.
Definition data (s : result sender_key_message * group_world) : bytes := default [] (skm_serialized (message s)).

(** The third is decrypted first, then the first. *)
Definition received2 := group_cipher_decrypt name None (message sent2) member.
Definition received0 := group_cipher_decrypt name None (message sent0) received2.2.

Definition messages : list (sender_key_message * bytes) :=
  [(message sent0, text 0); (message sent1, text 1); (message sent2, text 2)].

Definition start : group_conv := mk_group_conv created.2 member [] [].
Definition all_sent : group_conv := mk_group_conv sent2.2 member messages [].
Definition one_seen : group_conv := mk_group_conv sent2.2 received2.2 messages [2%nat].
Definition two_seen : group_conv := mk_group_conv sent2.2 received0.2 messages [0%nat; 2%nat].

End GroupSample.

(** A run is its outcome and the state it leaves: only the outcome is evaluated. *)
Lemma run_eq {A B} (p : A * B) a : p.1 = a -> p = (a, p.2).
Proof. destruct p. by intros <-. Qed.

Lemma group_sample_initial : group_initial GroupSample.name GroupSample.name GroupSample.start.
Proof.
  exists (GroupSample.world 50), GroupSample.created.2, GroupSample.distribution, GroupSample.distribution_data,
    GroupSample.distribution, (GroupSample.world 90), GroupSample.member, 0.
  split_and!.
  - split; [reflexivity|]. exists sender_key_record_create.
    split; [reflexivity|]. split; [split; [constructor|cbn; lia]|exact I].
  - apply (run_eq GroupSample.created). vm_compute. reflexivity.
  - vm_compute. reflexivity.
  - vm_compute. reflexivity.
  - vm_compute. reflexivity.
  - split; [reflexivity|]. exists sender_key_record_create.
    split; [reflexivity|]. split; [constructor|cbn; lia].
  - apply run_eq. vm_compute. reflexivity.
  - reflexivity.
Qed.

Lemma group_sample_sent : group_reachable GroupSample.name GroupSample.name GroupSample.start GroupSample.all_sent.
Proof.
  apply (group_trans _ _ _ (mk_group_conv GroupSample.sent1.2 GroupSample.member (take 2 GroupSample.messages) []) None);
    [apply (group_trans _ _ _ (mk_group_conv GroupSample.sent0.2 GroupSample.member (take 1 GroupSample.messages) [])
      None); [apply (group_trans _ _ _ GroupSample.start None); [apply group_refl|]|]|].
  - apply (group_send _ _ GroupSample.start (GroupSample.text 0) (GroupSample.message GroupSample.sent0)
      GroupSample.sent0.2); [apply (run_eq GroupSample.sent0)|]; vm_compute; reflexivity.
  - apply (group_send _ _ (mk_group_conv GroupSample.sent0.2 GroupSample.member (take 1 GroupSample.messages) [])
      (GroupSample.text 1) (GroupSample.message GroupSample.sent1) GroupSample.sent1.2);
      [apply (run_eq GroupSample.sent1)|]; vm_compute; reflexivity.
  - apply (group_send _ _ (mk_group_conv GroupSample.sent1.2 GroupSample.member (take 2 GroupSample.messages) [])
      (GroupSample.text 2) (GroupSample.message GroupSample.sent2) GroupSample.sent2.2);
      [apply (run_eq GroupSample.sent2)|]; vm_compute; reflexivity.
Qed.

Lemma sample_deliverable i seen :
  (i <= 2)%nat -> Forall (fun j => j <= 2)%nat seen -> deliverable i seen.
Proof.
  intros Hi Hs. unfold deliverable, GROUP_MAX_SKIP, SENDER_MAX_MESSAGE_KEYS. split; [lia|].
  assert (reach (i :: seen) <= 3)%nat as Hr.
  { unfold reach. apply list_max_le. apply Forall_map. constructor; [simpl; lia|].
    eapply Forall_impl; [exact Hs|]. simpl. lia. }
  etrans; [apply length_filter|]. rewrite length_seq. lia.
Qed.

Lemma group_sample_seen :
  group_reachable GroupSample.name GroupSample.name GroupSample.start GroupSample.two_seen.
Proof.
  eapply group_trans; [eapply group_trans; [exact group_sample_sent|]|].
  - apply (group_deliver _ _ GroupSample.all_sent 2 (GroupSample.message GroupSample.sent2) (GroupSample.text 2)
      (GroupSample.data GroupSample.sent2) (GroupSample.message GroupSample.sent2)
      GroupSample.received2.1 GroupSample.received2.2);
      [reflexivity|vm_compute; reflexivity|vm_compute; reflexivity|vm_compute; reflexivity|
       right; apply sample_deliverable; [lia|constructor]|
       change (gc_member GroupSample.all_sent) with GroupSample.member; apply surjective_pairing].
  - change (mk_group_conv _ _ _ _) with GroupSample.one_seen.
    apply (group_deliver _ _ GroupSample.one_seen 0 (GroupSample.message GroupSample.sent0) (GroupSample.text 0)
      (GroupSample.data GroupSample.sent0) (GroupSample.message GroupSample.sent0)
      GroupSample.received0.1 GroupSample.received0.2);
      [reflexivity|vm_compute; reflexivity|vm_compute; reflexivity|vm_compute; reflexivity|
       right; apply sample_deliverable; [lia|repeat constructor]|
       change (gc_member GroupSample.one_seen) with GroupSample.received2.2; apply surjective_pairing].
Qed.

(** The message that was skipped decrypts, the one that was read does not. *)
Lemma group_delivers_once_witness :
  (exists wm, group_cipher_decrypt GroupSample.name None (GroupSample.message GroupSample.sent1)
     (gc_member GroupSample.two_seen) = (Ok (GroupSample.text 1), wm)) /\
  (exists wm, group_cipher_decrypt GroupSample.name None (GroupSample.message GroupSample.sent2)
     (gc_member GroupSample.two_seen) = (Err SG_ERR_DUPLICATE_MESSAGE, wm)).
Proof.
  split.
  - destruct (group_delivers_once GroupSample.name GroupSample.name GroupSample.start GroupSample.two_seen 1
      (GroupSample.message GroupSample.sent1) (GroupSample.text 1) (GroupSample.data GroupSample.sent1)
      group_sample_initial group_sample_seen) as (_ & H & _);
      [reflexivity|vm_compute; reflexivity|vm_compute; reflexivity|].
    apply H; [change (1%nat ∉ [0%nat; 2%nat]); rewrite !not_elem_of_cons; split_and!; [lia|lia|apply not_elem_of_nil]|].
    apply sample_deliverable; [lia|repeat constructor].
  - destruct (group_delivers_once GroupSample.name GroupSample.name GroupSample.start GroupSample.two_seen 2
      (GroupSample.message GroupSample.sent2) (GroupSample.text 2) (GroupSample.data GroupSample.sent2)
      group_sample_initial group_sample_seen) as (_ & _ & H);
      [reflexivity|vm_compute; reflexivity|vm_compute; reflexivity|].
    destruct H as (wm & E & _); [change (2%nat ∈ [0%nat; 2%nat]); right; left|]. exists wm. exact E.
Defined.

(** The record the member holds after the distribution. *)
Definition sample_member_record : sender_key_record :=
  GroupSample.unwrap sender_key_record_create
    (signal_protocol_sender_key_load_key GroupSample.name (gw_store GroupSample.member)).1.

Lemma sample_member_holds :
  sk_holds (sender_keys (gw_store GroupSample.member)) GroupSample.name sample_member_record.
Proof.
  unfold sk_holds. change (sender_keys ?x) with x.
  destruct ((gw_store GroupSample.member : sk_view) !! GroupSample.name) as [[b u]|] eqn:E.
  - assert (b = match (gw_store GroupSample.member : sk_view) !! GroupSample.name with
                | Some p => p.1 | None => [] end) as -> by (by rewrite E).
    assert (u = match (gw_store GroupSample.member : sk_view) !! GroupSample.name with
                | Some p => p.2 | None => None end) as -> by (by rewrite E).
    split; vm_compute; reflexivity.
  - exfalso. revert E. vm_compute. discriminate.
Qed.

Lemma group_decrypt_authenticated_witness :
  exists i s body sig,
    sender_key_record_get_sender_key_state_by_id sample_member_record
      (skm_key_id (GroupSample.message GroupSample.sent2)) = Ok (i, s) /\
    skm_serialized (GroupSample.message GroupSample.sent2) = Some (body ++ sig) /\
    curve25519_verify sig (pub_data (sks_signature_public_key s)) body = true.
Proof.
  destruct (group_decrypt_authenticated GroupSample.member GroupSample.name None
    (GroupSample.message GroupSample.sent2) (GroupSample.text 2) GroupSample.received2.2 sample_member_record
    sample_member_holds) as (i & s & body & sig & H1 & H2 & _ & H3).
  - apply (run_eq GroupSample.received2). vm_compute. reflexivity.
  - exists i, s, body, sig. split_and!; [exact H1|exact H2|exact H3].
Defined.

(** A message of an unknown key id fails. *)
Lemma group_failed_call_keeps_keys_witness :
  stored_keys (group_cipher_decrypt GroupSample.name None GroupSample.no_message GroupSample.member).2 =
  stored_keys GroupSample.member.
Proof.
  destruct (group_failed_call_keeps_keys GroupSample.name None GroupSample.no_message [] GroupSample.distribution I)
    as (_ & H & _).
  apply (H GroupSample.member). intros a. vm_compute. discriminate.
Defined.

(** A signed message of iteration 2001, for a member at iteration 0. *)
Definition sample_far_state : sender_key_state :=
  match skr_states sample_member_record with
  | s :: _ => s
  | [] => mk_sks 0 (mk_sck 0 []) (mk_pub []) None []
  end.

Definition sample_far_message : sender_key_message :=
  let sender_key := GroupSample.unwrap sender_key_record_create
    (signal_protocol_sender_key_load_key GroupSample.name (gw_store GroupSample.created.2)).1 in
  match skr_states sender_key with
  | s :: _ => match sks_signature_private_key s with
              | Some k => GroupSample.unwrap GroupSample.no_message
                  (sender_key_message_create (sks_key_id s) 2001 [u8 1] k (60 : @rng ToyCrypto)).1
              | None => GroupSample.no_message
              end
  | [] => GroupSample.no_message
  end.

Lemma group_too_far_ahead_refused_witness :
  exists w', group_cipher_decrypt GroupSample.name None sample_far_message GroupSample.member =
    (Err SG_ERR_INVALID_MESSAGE, w') /\ stored_keys w' = stored_keys GroupSample.member.
Proof.
  apply (group_too_far_ahead_refused GroupSample.member GroupSample.name sample_member_record None
    sample_far_message 0 sample_far_state).
  - reflexivity.
  - exact sample_member_holds.
  - vm_compute. reflexivity.
  - vm_compute. reflexivity.
  - split; vm_compute; [discriminate|reflexivity].
  - split; vm_compute; [discriminate|reflexivity].
  - vm_compute. reflexivity.
Defined.

(** Adding to an empty record. *)
Lemma sender_keys_stored_witness :
  exists r' data,
    sender_key_record_add_sender_key_state 7 0 (Some (repeat (u8 1) 32))
      (Some (public_key (GroupSample.pair_of 13))) sender_key_record_create = Ok r' /\
    length (skr_states r') = 1%nat /\ sender_key_record_serialize r' = Ok data /\
    sender_key_record_deserialize data = Ok (mk_skr (skr_states r') None).
Proof.
  destruct (sender_keys_stored 7 0 (repeat (u8 1) 32) (public_key (GroupSample.pair_of 13)) sender_key_record_create)
    as (r' & data & H1 & H2 & _ & H3 & H4).
  - split; [constructor|cbn; lia].
  - unfold is_u32; lia.
  - unfold is_u32; lia.
  - vm_compute; reflexivity.
  - vm_compute; reflexivity.
  - exists r', data. split_and!; [exact H1|rewrite H2; reflexivity|exact H3|exact H4].
Defined.

(* ------------------------------------------------------------------ *)
(** ** Safety numbers *)

Definition sample_generator : fingerprint_generator := mk_generator 3 0.
Definition alice_id : bytes := [u8 65; u8 108].
Definition bob_id : bytes := [u8 66].

Lemma alice_id_ok : identifier_ok alice_id.
Proof. split; [repeat constructor; discriminate|cbn; lia]. Qed.
Lemma bob_id_ok : identifier_ok bob_id.
Proof. split; [repeat constructor; discriminate|cbn; lia]. Qed.

Lemma fingerprints_agree_witness :
  let ka := public_key (GroupSample.pair_of 11) in
  let ka2 := public_key (GroupSample.pair_of 12) in
  let kb := public_key (GroupSample.pair_of 13) in
  exists fa fb,
    fingerprint_generator_create_for_list sample_generator alice_id [ka; ka2] bob_id [kb] = Ok fa /\
    fingerprint_generator_create_for_list sample_generator bob_id [kb] alice_id [ka2; ka] = Ok fb /\
    df_display_text (fp_displayable fa) = df_display_text (fp_displayable fb).
Proof.
  destruct (fingerprints_agree sample_generator alice_id
    [public_key (GroupSample.pair_of 11); public_key (GroupSample.pair_of 12)]
    [public_key (GroupSample.pair_of 12); public_key (GroupSample.pair_of 11)] bob_id
    [public_key (GroupSample.pair_of 13)] [public_key (GroupSample.pair_of 13)])
    as (fa & fb & code & H1 & H2 & H3 & _).
  - split; cbn; lia.
  - exact alice_id_ok.
  - exact bob_id_ok.
  - constructor; [vm_compute; reflexivity|constructor; [vm_compute; reflexivity|constructor]].
  - constructor; [vm_compute; reflexivity|constructor].
  - cbn; lia.
  - cbn; lia.
  - constructor.
  - reflexivity.
  - exists fa, fb. split_and!; [exact H1|exact H2|exact H3].
Defined.

(** Someone in the middle shows Alice another key of Bob. *)
Lemma scan_detects_substitution_witness :
  exists fa fb,
    fingerprint_generator_create_for sample_generator alice_id (Some (public_key (GroupSample.pair_of 11)))
      bob_id (Some (public_key (GroupSample.pair_of 99))) = Ok fa /\
    fingerprint_generator_create_for sample_generator bob_id (Some (public_key (GroupSample.pair_of 13)))
      alice_id (Some (public_key (GroupSample.pair_of 11))) = Ok fb /\
    scannable_fingerprint_compare (fp_scannable fa) (fp_scannable fb) <> Ok true.
Proof.
  destruct (scan_detects_substitution sample_generator alice_id bob_id (public_key (GroupSample.pair_of 11))
    (public_key (GroupSample.pair_of 99)) (public_key (GroupSample.pair_of 11)) (public_key (GroupSample.pair_of 13)))
    as (fa & fb & H1 & H2 & H3).
  - split; cbn; lia.
  - exact alice_id_ok.
  - exact bob_id_ok.
  - vm_compute; reflexivity.
  - vm_compute; reflexivity.
  - vm_compute; reflexivity.
  - vm_compute; reflexivity.
  - exists fa, fb. split_and!; [exact H1|exact H2|]. intros [_ E]%H3. revert E. vm_compute. discriminate.
Defined.

(* ------------------------------------------------------------------ *)
(** ** Device consistency *)

Definition device_keys : list ec_public_key :=
  [public_key (GroupSample.pair_of 21); public_key (GroupSample.pair_of 22)].

Definition sample_commitment : device_consistency_commitment := commitment_of 5 device_keys.

Definition device_message (seed : Z) : device_consistency_message :=
  GroupSample.unwrap (mk_dc_message (mk_dc_signature [] []) 0 [])
    (device_consistency_message_create_from_pair sample_commitment (GroupSample.pair_of seed) (seed : @rng ToyCrypto)).1.

Lemma sample_signing (n : Z) :
  (curve_generate_key_pair (n : @rng ToyCrypto)).1 = Ok (GroupSample.pair_of n) ->
  signing_pair (GroupSample.pair_of n).
Proof. intros H%run_eq. by eapply curve_generate_signing. Qed.

Lemma device_codes_agree_witness :
  exists code,
    device_consistency_code_generate_for sample_commitment
      [dcm_signature (device_message 21); dcm_signature (device_message 22)] = Ok code /\
    device_consistency_code_generate_for sample_commitment
      [dcm_signature (device_message 22); dcm_signature (device_message 21)] = Ok code.
Proof.
  destruct (device_codes_agree 5 device_keys (reverse device_keys) sample_commitment
    [GroupSample.pair_of 21; GroupSample.pair_of 22] [device_message 21; device_message 22]
    [dcm_signature (device_message 22); dcm_signature (device_message 21)])
    as (_ & _ & code & H1 & H2 & _).
  - unfold is_u32; lia.
  - constructor; [vm_compute; reflexivity|constructor; [vm_compute; reflexivity|constructor]].
  - constructor.
  - vm_compute; reflexivity.
  - constructor; [|constructor; [|constructor]].
    + split; [apply sample_signing; vm_compute; reflexivity|]. split; [vm_compute; reflexivity|].
      exists (21 : @rng ToyCrypto). eexists. apply run_eq. vm_compute; reflexivity.
    + split; [apply sample_signing; vm_compute; reflexivity|]. split; [vm_compute; reflexivity|].
      exists (22 : @rng ToyCrypto). eexists. apply run_eq. vm_compute; reflexivity.
  - cbn [map]. apply Permutation_swap.
  - exists code. split; [exact H1|exact H2].
Defined.

Lemma device_message_authenticated_witness :
  xveddsa_verify (dcs_signature (dcm_signature (device_message 21))) (pub_data (public_key (GroupSample.pair_of 21)))
    (dcc_serialized sample_commitment) = Some (dcs_vrf_output (dcm_signature (device_message 21))) /\
  device_consistency_message_create_from_serialized sample_commitment (pack (mk_DeviceConsistencyCodeMessage
    (Some 5) (Some [u8 1]))) (Some (public_key (GroupSample.pair_of 21))) = Err SG_ERR_INVALID_MESSAGE.
Proof.
  split.
  - apply (device_message_authenticated sample_commitment (dcm_serialized (device_message 21))
      (public_key (GroupSample.pair_of 21))). vm_compute; reflexivity.
  - apply (device_message_authenticated sample_commitment (pack (mk_DeviceConsistencyCodeMessage
      (Some 5) (Some [u8 1]))) (public_key (GroupSample.pair_of 21)) ) with (generation := 5) (signature := [u8 1]);
      [vm_compute; reflexivity|left; vm_compute; discriminate].
Defined.

(* ------------------------------------------------------------------ *)
(** ** Generated keys *)

Definition sample_identity : ratchet_identity_key_pair :=
  mk_identity (public_key (GroupSample.pair_of 31)) (private_key (GroupSample.pair_of 31)).

Lemma generated_signed_pre_key_verifies_witness :
  exists k data,
    (signal_protocol_key_helper_generate_signed_pre_key sample_identity 7 1700000000 (40 : @rng ToyCrypto)).1 = Ok k /\
    ec_public_key_serialize (Some (public_key (spk_key_pair k))) = Ok data /\
    curve_verify_signature (id_public sample_identity) data (spk_signature k) = Ok true.
Proof.
  destruct (signal_protocol_key_helper_generate_signed_pre_key sample_identity 7 1700000000 (40 : @rng ToyCrypto))
    as [[k|e|] g'] eqn:E; [|apply (f_equal fst) in E; vm_compute in E; discriminate E..].
  destruct (generated_signed_pre_key_verifies sample_identity 7 1700000000 (31 : @rng ToyCrypto)
    (32 : @rng ToyCrypto) (40 : @rng ToyCrypto) k g' 0 (70 : @rng ToyCrypto)
    (le_val (le_bytes 4 (70 * 7919 + 104729)) mod 16380 + 1) (71 : @rng ToyCrypto))
    as (_ & _ & _ & _ & (data & H1 & H2) & _).
  - vm_compute; reflexivity.
  - exact E.
  - vm_compute; reflexivity.
  - exists k, data. split_and!; [reflexivity|exact H1|exact H2].
Defined.

Lemma generated_pre_keys_witness :
  exists l g', signal_protocol_key_helper_generate_pre_keys 16777213 4 (80 : @rng ToyCrypto) = (Ok l, g') /\
    map pk_id l = [16777213; 16777214; 1; 2].
Proof.
  destruct (signal_protocol_key_helper_generate_pre_keys 16777213 4 (80 : @rng ToyCrypto)) as [[l|e|] g'] eqn:E;
    [|apply (f_equal fst) in E; vm_compute in E; discriminate E..].
  exists l, g'. split; [reflexivity|].
  destruct (generated_pre_keys 16777213 4 (80 : @rng ToyCrypto) l g') as (_ & H & _).
  - lia.
  - lia.
  - exact E.
  - rewrite H. reflexivity.
Defined.
